(* ===== verification/_CoqProject ===== *)
-Q . S2P
Prelude.v
Heap.v
Queue.v
Vect.v
Mem.v
Bitmap.v
Blocks.v
Inode.v
Slist.v
Directory.v
Storage.v
Nufs.v
Malloc.v
Conc.v
MergeSort.v
Cstr.v
Tokens.v
Shell.v
Bio.v
Log.v
XString.v
Grep.v
Spinlock.v
Kalloc.v
Pipe.v
File.v
Printf.v
Proc.v
Fs.v
FsTx.v
FsFile.v
FsAtomic.v
FsTrunc.v
FsDir.v
FsPath.v
Sh.v
ShParse.v
ShGrammar.v
ShRun.v
Vm.v
VmSpace.v
VmCopy.v
