(* ===== verification/Prelude.v ===== *)
(** * Systems coursework: a verification library

    The repository holds the programs of a systems course: small C libraries, a
    file system in user space, a memory allocator, a sorting program with
    threads, a shell, and the xv6 kernel with its user library.  This library
    models their C code and proves what makes each part correct.

    ** How code becomes definitions

    C code with state is a program in the monad [M S A] of this file: from a
    state it gives a result with a new state, or a fault ([fault]: a failed
    assertion, a null or dangling pointer, an access out of bounds, signed
    overflow, a kernel panic, an exit).  Integers are [Z] with wrap-around
    ([u8], [u32], [i32]) and overflow checks ([chk_int]) written where the code
    has them.  Loops that are not structural take fuel, and the theorems show
    that the fuel given by the definitions is enough.  What happens outside the
    programs (whether an allocation succeeds, what a system call returns, in
    which order threads or processors run) is an argument of the definitions.
    Schedules of threads and processors are not restricted.  Safety theorems (no leak of
    [Queue], [Tokens] sessions, termination of [Shell], [VmCopy], [Kalloc])
    hold for every outcome of allocations and calls; theorems that say what a
    program achieves ([Vect], the token round trip, the programs that [Shell]
    and [ShRun] start, [Grep]) assume that allocations or system calls succeed,
    and say so.  [wp] is the weakest precondition the proofs use; it includes
    that the program does not fault.

    ** The parts

    Data Structures C.  [Queue] (queue/queue.c) and [Vect] (vector/vect.c) run
    on the heap of [Heap], with allocation failure and aliasing: sequences of
    calls refine a bounded queue and a list of strings, nothing leaks, and the
    behaviour on failed allocations is spelled out.

    File System.  The disk image is a byte memory ([Mem]); [Bitmap], [Blocks],
    [Inode], [Slist] (slist.c and list.h), [Directory], [Storage] and [Nufs]
    are the files of the same names, each calling the ones below it.  Blocks
    promises the class [Allocator] to the inode layer.  The theorems: first-fit
    allocation, growing and shrinking of files as chains of inodes, lookup of
    what was put, reading back what was written at any offset, and where the
    code faults (unlinked names, reads at the end of a file).

    Memory Allocator.  [Malloc] (mymalloc.c, sbrk_stats.c): the list of blocks in
    the data segment follows a list with first fit; reused blocks are given out
    twice because they stay marked free.  mymalloc calls two helpers that no
    file defines; they are parameters, instantiated by the two it declares.

    Concurrent Sorting.  [Conc] gives programs that fork and join threads over
    shared memory an interleaving semantics; [MergeSort] (msort.c, tmsort.c)
    shows that both programs sort, under every schedule of the threads.

    Shell.  [Cstr] has C strings; [Tokens] (tokens.c, tokenize.c) the tokenizer
    with its static variables, proved against a lexical grammar with a round
    trip; [Shell] (shell.c) every function of the shell over a trace of system
    calls: pipelines, redirections, sequences of programs that are waited for,
    termination, and the prev command that never ends.

    xv6 Hacking/xv6.  [XString] (string.c, ulib.c), [Printf] (printf.c) and
    [Grep] (grep.c) are user-level code over a byte memory: copies, formatted
    output with a round trip through atoi, and the matcher against regular
    expressions.  [Spinlock] (spinlock.c) proves mutual exclusion and freedom of
    deadlock on any number of processors and gives [Kalloc] (kalloc.c) a lock
    interface; kalloc refines a stack of pages.  [Bio] (bio.c, sleeplock.c,
    memide.c) refines a map of blocks, and [Log] (log.c) on it makes
    transactions atomic across crashes and has room for what concurrent calls
    reserve.  [Pipe] (pipe.c) is a bounded queue under all interleavings of any
    number of writers and readers that may be killed; [File] (file.c, the
    descriptor calls of sysfile.c) counts references to open files and accounts
    for the pages of pipes, against a class of inode operations.  [Proc] (proc.c)
    is the process table on any number of processors, with the scheduler, fork,
    exit, wait, sleep, wakeup and kill and the locks a processor holds when it
    gives up a process, against a class of the memory and file operations it
    calls.

    xv6's files.  [Fs] is all of fs.c over the buffer cache and the log, for one
    process at a time.  [FsTx] reasons about a transaction as a map of the blocks
    it changes; [FsFile] about the blocks of a file; [FsAtomic] shows that a write
    changes the file as asked and survives any crash whole or not at all, and that
    reads return what was written; [FsTrunc] that dropping the last reference to a
    file without links frees exactly its blocks; [FsDir] that a directory is a map
    of names and how a path is taken apart; [FsPath] that namei and nameiparent
    follow the directories on the disk and keep no reference but the result's.

    xv6's shell.  [Sh] is the data and the parser of sh.c on the bytes of the
    command line, [ShParse] steps through its functions, [ShGrammar] proves that
    it accepts exactly the lines of a grammar and builds their trees, and [ShRun]
    has runcmd and main over system calls: on any input without zero bytes a
    session starts exactly the programs meant by the lines that gets cuts the
    input into, with exactly the descriptors their pipes and redirections give.

    xv6's memory.  [Vm] is vm.c over a memory of pages, [VmSpace] says what a page
    directory means and how each operation on it keeps the pages of different
    owners apart, and [VmCopy] proves fork's copy of an address space, with
    nothing lost when memory runs out.

    ** Bounds

    Fuel is the length of the data a loop walks over (strings: the size of
    memory plus one), the remaining size of a copy, or the number of digits of a
    machine integer.  Theorems about counters that are ints (pids, bytes read
    and written) bound the number of calls so that the counter fits.  xv6's
    sections under a spin lock are single steps, which [Spinlock] justifies;
    kernel code between such sections is split into steps that interleave.

    ** Not modelled

    The munit test framework (vendored), test drivers and usertests.c, assembly
    programs, Perl scripts and build files.  Of the file system, the FUSE main
    function and the helper headers that only declare or print.  Of xv6:
    exec.c and trap entry, the code that fetches system call arguments, the calls
    of sysfile.c that take a path (they only combine operations of fs.c), the
    segment and task registers of vm.c (seginit, switchuvm), the drivers and boot
    code (device registers), mkfs.c, umalloc.c, and the user programs that only
    make one or two system calls.  Getting at the saved context of a process is
    assembly, so a switch is a change of which process a processor runs.  [File]
    and [Proc] reach the inode layer and page tables through classes
    ([File.InodeLayer], [Proc.Kernel]) that state only what they rely on; the
    models of fs.c and vm.c stand on their own below them, and interleaving of
    several processes inside fs.c or vm.c is not modelled. *)
From stdpp Require Import base list gmap strings.
From Stdlib Require Import ZArith Lia.
From Stdlib Require Export ZifyBool.

#[global] Open Scope Z_scope.

(** Keep map operations folded during simplification. *)
#[global] Arguments delete : simpl never.
#[global] Arguments insert : simpl never.
#[global] Arguments lookup : simpl never.

(** ** Faults and results *)

(** What stops a C program before it returns: a failed [assert], a memory
    error, undefined arithmetic, a call of [exit] or of the kernel's
    [panic], and, for loops written with fuel, running out of it. *)
Inductive fault :=
  | AssertFail
  | NullDeref
  | OutOfBounds
  | UseAfterFree
  | BadFree
  | Uninit
  | SignedOverflow
  | Exited (code : Z)
  | Panic (msg : string)
  | OutOfFuel.

#[export] Instance fault_eq_dec : EqDecision fault.
Proof. solve_decision. Defined.

Inductive res (A : Type) :=
  | Ok (a : A)
  | Err (f : fault).
Arguments Ok {A} a.
Arguments Err {A} f.

(** ** The state and error monad *)

Definition M (S A : Type) : Type := S -> res (A * S).

Definition ret {S A} (a : A) : M S A := fun s => Ok (a, s).
Definition fail {S A} (f : fault) : M S A := fun _ => Err f.
Definition bind {S A B} (m : M S A) (k : A -> M S B) : M S B :=
  fun s => match m s with
           | Ok (a, s') => k a s'
           | Err f => Err f
           end.
Definition get {S} : M S S := fun s => Ok (s, s).
Definition put {S} (s : S) : M S unit := fun _ => Ok (tt, s).
Definition gets {S A} (f : S -> A) : M S A := fun s => Ok (f s, s).
Definition modify {S} (f : S -> S) : M S unit := fun s => Ok (tt, f s).
Definition assert {S} (b : bool) : M S unit :=
  if b then ret tt else fail AssertFail.
Definition of_option {S A} (f : fault) (o : option A) : M S A :=
  match o with Some a => ret a | None => fail f end.

Declare Scope c_scope.
Delimit Scope c_scope with c.
Notation "'let!' x ':=' m 'in' k" := (bind m (fun x => k))
  (at level 10, x name, m at level 100, k at level 200) : c_scope.
Notation "'let!' ' p ':=' m 'in' k" := (bind m (fun p => k))
  (at level 10, p strict pattern, m at level 100, k at level 200) : c_scope.
Notation "'do!' m 'in' k" := (bind m (fun _ => k))
  (at level 10, m at level 100, k at level 200) : c_scope.
#[global] Open Scope c_scope.

(** Run [m] on a part of the state. *)
Definition zoom {S T A} (view : T -> S) (upd : S -> T -> T) (m : M S A) : M T A :=
  fun t => match m (view t) with
           | Ok (a, s) => Ok (a, upd s t)
           | Err f => Err f
           end.

(** ** Weakest preconditions

    [wp m Q s] says that [m], run on [s], stops without a fault in a result
    and a state that satisfy [Q]. *)
Definition wp {S A} (m : M S A) (Q : A -> S -> Prop) (s : S) : Prop :=
  match m s with
  | Ok (a, s') => Q a s'
  | Err _ => False
  end.

(** ** Machine integers *)

Definition UINT_MAX : Z := 4294967295.
Definition INT_MAX : Z := 2147483647.
Definition INT_MIN : Z := -2147483648.
Definition u8 (x : Z) : Z := x mod 2 ^ 8.
Definition u32 (x : Z) : Z := x mod 2 ^ 32.
Definition u64 (x : Z) : Z := x mod 2 ^ 64.
Definition i32 (x : Z) : Z := (x + 2 ^ 31) mod 2 ^ 32 - 2 ^ 31.

(** An [int] result: signed overflow is undefined. *)
Definition int_range (x : Z) : bool := (INT_MIN <=? x) && (x <=? INT_MAX).
Definition chk_int {S} (x : Z) : M S Z :=
  if int_range x then ret x else fail SignedOverflow.

(** ** Arrays indexed by integers *)

Definition znth {A} (l : list A) (i : Z) : option A :=
  if 0 <=? i then l !! Z.to_nat i else None.
Definition zupd {A} (l : list A) (i : Z) (x : A) : option (list A) :=
  if (0 <=? i) && (i <? Z.of_nat (length l)) then Some (<[Z.to_nat i := x]> l) else None.

(** ** Lemmas *)

Create HintDb machine.

Section wp_rules.
Context {S : Type}.

Lemma wp_ret {A} (a : A) Q (s : S) : wp (ret a) Q s <-> Q a s.
Proof. done. Qed.

Lemma wp_fail {A} f (Q : A -> S -> Prop) s : wp (fail f) Q s <-> False.
Proof. done. Qed.

Lemma wp_bind {A B} (m : M S A) (k : A -> M S B) Q s :
  wp (bind m k) Q s <-> wp m (fun a s' => wp (k a) Q s') s.
Proof. unfold wp, bind. by destruct (m s) as [[a s']|f]. Qed.

Lemma wp_get Q (s : S) : wp get Q s <-> Q s s.
Proof. done. Qed.

Lemma wp_put Q (s s' : S) : wp (put s') Q s <-> Q tt s'.
Proof. done. Qed.

Lemma wp_gets {A} (f : S -> A) Q s : wp (gets f) Q s <-> Q (f s) s.
Proof. done. Qed.

Lemma wp_modify (f : S -> S) Q s : wp (modify f) Q s <-> Q tt (f s).
Proof. done. Qed.

Lemma wp_assert b Q (s : S) : wp (assert b) Q s <-> b = true /\ Q tt s.
Proof. destruct b; unfold wp; simpl; naive_solver. Qed.

Lemma wp_of_option {A} f (o : option A) Q (s : S) :
  wp (of_option f o) Q s <-> exists a, o = Some a /\ Q a s.
Proof. destruct o; unfold wp; simpl; naive_solver. Qed.

Lemma wp_chk_int x Q (s : S) :
  wp (chk_int x) Q s <-> int_range x = true /\ Q x s.
Proof. unfold chk_int. destruct (int_range x); unfold wp; simpl; naive_solver. Qed.

Lemma wp_mono {A} (m : M S A) (P Q : A -> S -> Prop) s :
  wp m P s -> (forall a s', P a s' -> Q a s') -> wp m Q s.
Proof. unfold wp. destruct (m s) as [[a s']|f]; auto. Qed.

Lemma wp_conj {A} (m : M S A) (P Q : A -> S -> Prop) s :
  wp m P s -> wp m Q s -> wp m (fun a s' => P a s' /\ Q a s') s.
Proof. unfold wp. destruct (m s) as [[a s']|f]; auto. Qed.

Lemma wp_run {A} (m : M S A) Q s :
  wp m Q s <-> exists a s', m s = Ok (a, s') /\ Q a s'.
Proof.
  unfold wp. destruct (m s) as [[a s']|f]; [|naive_solver].
  split; [eauto|]. intros (?&?&?&?); naive_solver.
Qed.

Lemma wp_eq {A} (m : M S A) Q s a s' : m s = Ok (a, s') -> wp m Q s <-> Q a s'.
Proof. unfold wp. by intros ->. Qed.

Lemma bind_ok {A B} (m : M S A) (k : A -> M S B) s a s' :
  m s = Ok (a, s') -> bind m k s = k a s'.
Proof. unfold bind. by intros ->. Qed.

Lemma bind_err {A B} (m : M S A) (k : A -> M S B) s f :
  m s = Err f -> bind m k s = Err f.
Proof. unfold bind. by intros ->. Qed.

Lemma bind_assoc {A B C} (m : M S A) (k : A -> M S B) (k' : B -> M S C) s :
  bind (bind m k) k' s = bind m (fun a => bind (k a) k') s.
Proof. unfold bind. by destruct (m s) as [[a s']|f]. Qed.
End wp_rules.

(** Push [wp] through the structure of a program. *)
Ltac wp_pure :=
  repeat first
    [ rewrite wp_bind | rewrite wp_ret | rewrite wp_get | rewrite wp_put
    | rewrite wp_gets | rewrite wp_modify | rewrite wp_assert
    | rewrite wp_chk_int | rewrite wp_of_option ].

(** Turn boolean comparisons in the context and the goal into propositions. *)
Ltac bool_lia :=
  repeat match goal with
  | H : _ && _ = true |- _ => apply andb_true_iff in H; destruct H
  | H : _ || _ = false |- _ => apply orb_false_iff in H; destruct H
  | |- _ && _ = true => apply andb_true_iff; split
  end; try lia.

(** Case split on the integer comparison the goal is stuck on. *)
Ltac case_Z :=
  match goal with
  | |- context [?a =? ?b] => destruct (Z.eqb_spec a b)
  | |- context [?a <? ?b] => destruct (Z.ltb_spec a b)
  | |- context [?a <=? ?b] => destruct (Z.leb_spec a b)
  end.

Section integers.

Lemma u32_small x : 0 <= x <= UINT_MAX -> u32 x = x.
Proof. intros. apply Z.mod_small. unfold UINT_MAX in *. lia. Qed.

Lemma u32_range x : 0 <= u32 x <= UINT_MAX.
Proof. unfold u32, UINT_MAX. pose proof (Z.mod_pos_bound x (2 ^ 32)). lia. Qed.

Lemma u64_small x : 0 <= x < 2 ^ 64 -> u64 x = x.
Proof. apply Z.mod_small. Qed.

Lemma i32_small x : INT_MIN <= x <= INT_MAX -> i32 x = x.
Proof. unfold INT_MIN, INT_MAX, i32. intros. rewrite Z.mod_small; lia. Qed.

Lemma int_range_spec x : int_range x = true <-> INT_MIN <= x <= INT_MAX.
Proof. unfold int_range. rewrite andb_true_iff. lia. Qed.
End integers.

Section arrays.
Context {A : Type}.
Implicit Types (l : list A) (i j : Z).

Lemma znth_Some l i x :
  znth l i = Some x <-> 0 <= i /\ l !! Z.to_nat i = Some x.
Proof. unfold znth. case_Z; naive_solver lia. Qed.

Lemma znth_lt l i x : znth l i = Some x -> 0 <= i < Z.of_nat (length l).
Proof. intros [? H]%znth_Some. apply lookup_lt_Some in H. lia. Qed.

Lemma znth_is_Some l i : 0 <= i < Z.of_nat (length l) -> exists x, znth l i = Some x.
Proof.
  intros. destruct (lookup_lt_is_Some_2 l (Z.to_nat i)) as [x ?]; [lia|].
  exists x. apply znth_Some. split; [lia|done].
Qed.

Lemma zupd_in l i x :
  0 <= i < Z.of_nat (length l) -> zupd l i x = Some (<[Z.to_nat i := x]> l).
Proof. intros. unfold zupd. rewrite (proj2 (andb_true_iff _ _)); [done|]. lia. Qed.

Lemma zupd_Some l i x l' :
  zupd l i x = Some l' ->
  0 <= i < Z.of_nat (length l) /\ l' = <[Z.to_nat i := x]> l.
Proof. unfold zupd. case_match; [|done]. intros [= <-]. split; [lia|done]. Qed.

Lemma znth_zupd_eq l i x l' : zupd l i x = Some l' -> znth l' i = Some x.
Proof.
  intros [? ->]%zupd_Some. apply znth_Some. split; [lia|].
  apply list_lookup_insert_eq. lia.
Qed.

Lemma znth_zupd_ne l i j x l' :
  zupd l i x = Some l' -> i <> j -> znth l' j = znth l j.
Proof.
  intros [? ->]%zupd_Some ?. unfold znth. case_Z; [|done].
  apply list_lookup_insert_ne. lia.
Qed.

Lemma zupd_length l i x l' : zupd l i x = Some l' -> length l' = length l.
Proof. intros [? ->]%zupd_Some. apply length_insert. Qed.
End arrays.

#[export] Hint Resolve zupd_in znth_zupd_eq : machine.
