(* ===== verification/Heap.v ===== *)
(** * Heap: malloc, free and pointers

    The C heap the data-structure components run on.  A heap maps live
    addresses to objects of a component-chosen type [O]; [NULL] is [None].
    Whether the next allocation succeeds is decided by an explicit oracle, so
    that every out-of-memory branch of the code can be run.  Loads and stores
    through [NULL] or through a freed pointer, and frees of pointers that are
    not live, are faults. *)
From stdpp Require Import base list gmap.
From Stdlib Require Import ZArith Lia.
From S2P Require Import Prelude.

Abbreviation loc := nat.
Abbreviation ptr := (option nat).

Record heap (O : Type) := Heap {
  h_next : loc;             (* next fresh address *)
  h_objs : gmap loc O;      (* live objects *)
  h_oracle : list bool      (* outcome of the coming allocations; then success *)
}.
Arguments Heap {O} _ _ _.
Arguments h_next {O} _.
Arguments h_objs {O} _.
Arguments h_oracle {O} _.

(** Whether the next [n] allocations succeed. *)
Fixpoint allocs_ok (n : nat) (oracle : list bool) : bool :=
  match n, oracle with
  | O, _ => true
  | S _, [] => true
  | S n, b :: rest => b && allocs_ok n rest
  end.

Section heap.
Context {O : Type}.
Implicit Types (h : heap O) (o : O) (p : ptr) (l : loc).

Definition empty_heap (oracle : list bool) : heap O := Heap 1%nat ∅ oracle.

(** [malloc] of an object: a fresh address, or [NULL]. *)
Definition malloc o : M (heap O) ptr := fun h =>
  match h_oracle h with
  | false :: rest => Ok (None, Heap (h_next h) (h_objs h) rest)
  | rest =>
      Ok (Some (h_next h),
          Heap (S (h_next h)) (<[h_next h := o]> (h_objs h)) (tail rest))
  end.

Definition free p : M (heap O) unit := fun h =>
  match p with
  | None => Ok (tt, h)
  | Some l =>
      match h_objs h !! l with
      | Some _ => Ok (tt, Heap (h_next h) (delete l (h_objs h)) (h_oracle h))
      | None => Err BadFree
      end
  end.

Definition load p : M (heap O) O := fun h =>
  match p with
  | None => Err NullDeref
  | Some l => match h_objs h !! l with
              | Some o => Ok (o, h)
              | None => Err UseAfterFree
              end
  end.

Definition store p o : M (heap O) unit := fun h =>
  match p with
  | None => Err NullDeref
  | Some l => match h_objs h !! l with
              | Some _ => Ok (tt, Heap (h_next h) (<[l := o]> (h_objs h)) (h_oracle h))
              | None => Err UseAfterFree
              end
  end.

(** Addresses at or above [h_next] have never been handed out. *)
Definition heap_wf h : Prop := forall l, is_Some (h_objs h !! l) -> (l < h_next h)%nat.

Lemma heap_wf_fresh h : heap_wf h -> h_objs h !! h_next h = None.
Proof.
  intros Hwf. destruct (h_objs h !! h_next h) eqn:E; [|done].
  specialize (Hwf (h_next h)). rewrite E in Hwf. specialize (Hwf ltac:(eauto)). lia.
Qed.

Lemma empty_heap_wf oracle : heap_wf (empty_heap oracle).
Proof. intros l [o Ho]. simpl in Ho. by rewrite lookup_empty in Ho. Qed.

(** Well-formedness does not depend on the oracle. *)
Lemma heap_wf_eta h orc : heap_wf h -> heap_wf (Heap (h_next h) (h_objs h) orc).
Proof. done. Qed.

Lemma heap_wf_insert n (m : gmap loc O) l o orc orc' :
  heap_wf (Heap n m orc) -> is_Some (m !! l) -> heap_wf (Heap n (<[l := o]> m) orc').
Proof.
  intros Hwf Hl i Hi. simpl in *. destruct (decide (i = l)) as [->|]; [by apply Hwf|].
  apply Hwf. by rewrite lookup_insert_ne in Hi.
Qed.

Lemma heap_wf_malloc n (m : gmap loc O) o orc orc' :
  heap_wf (Heap n m orc) -> heap_wf (Heap (S n) (<[n := o]> m) orc').
Proof.
  intros Hwf i Hi. simpl in *. destruct (decide (i = n)) as [->|]; [lia|].
  rewrite lookup_insert_ne in Hi by done. apply Hwf in Hi. simpl in Hi. lia.
Qed.

Lemma heap_wf_delete n (m : gmap loc O) l orc orc' :
  heap_wf (Heap n m orc) -> heap_wf (Heap n (delete l m) orc').
Proof.
  intros Hwf i [o Ho]. simpl in *. apply Hwf. exists o. by apply lookup_delete_Some in Ho as [_ ?].
Qed.

Lemma wp_malloc o Q h :
  wp (malloc o) Q h <->
  match h_oracle h with
  | false :: rest => Q None (Heap (h_next h) (h_objs h) rest)
  | rest => Q (Some (h_next h))
              (Heap (S (h_next h)) (<[h_next h := o]> (h_objs h)) (tail rest))
  end.
Proof. unfold wp, malloc. by destruct (h_oracle h) as [|[] ?]. Qed.

Lemma wp_load l Q h :
  wp (load (Some l)) Q h <-> exists o, h_objs h !! l = Some o /\ Q o h.
Proof. unfold wp, load. destruct (h_objs h !! l); naive_solver. Qed.

Lemma wp_store l o Q h :
  wp (store (Some l) o) Q h <->
  is_Some (h_objs h !! l) /\ Q tt (Heap (h_next h) (<[l := o]> (h_objs h)) (h_oracle h)).
Proof.
  unfold wp, store. destruct (h_objs h !! l); split; naive_solver.
Qed.

Lemma wp_free_null Q h : wp (free None) Q h <-> Q tt h.
Proof. done. Qed.

Lemma wp_free l Q h :
  wp (free (Some l)) Q h <->
  is_Some (h_objs h !! l) /\ Q tt (Heap (h_next h) (delete l (h_objs h)) (h_oracle h)).
Proof. unfold wp, free. destruct (h_objs h !! l); split; naive_solver. Qed.
End heap.

(** Discharge [heap_wf] of a heap reached by updates: [heap_wf_tac H] where [H]
    is well-formedness of the initial heap. *)
Ltac heap_wf_tac H :=
  repeat first
    [ exact H | apply (heap_wf_eta _ _ H)
    | eapply (heap_wf_insert _ _ _ _ []);
        [|rewrite ?lookup_delete_ne by congruence; simplify_map_eq; by eauto]
    | eapply (heap_wf_malloc _ _ _ []) | eapply (heap_wf_delete _ _ _ []) ].

Ltac wp_heap :=
  repeat first
    [ progress wp_pure | rewrite wp_load | rewrite wp_store | rewrite wp_free_null
    | rewrite wp_free ].
