(* ===== verification/Queue.v ===== *)
(** * Queue: the circular queue of Data Structures C/queue/queue.c

    The queue struct and its array of longs live in the heap of [Heap]; every
    function of queue.c is a heap program with the asserts, the early returns
    and the allocation failures of the source.  The abstract contract is a
    bounded first-in first-out list ([fifo]); [queue_refines_fifo] relates
    whole sequences of calls to it, failed asserts included. *)
From stdpp Require Import base list gmap.
From Stdlib Require Import ZArith Lia.
From S2P Require Import Prelude Heap.

Module Queue.

(** ** Data *)

Record queue := mk_queue {
  back : Z;
  front : Z;
  size : Z;
  capacity : Z;
  data : ptr
}.

(** Heap objects: a queue struct, or a [long] array whose cells may be
    uninitialised. *)
Inductive qobj :=
  | QStruct (q : queue)
  | QLongs (a : list (option Z)).

Definition set_data (d : ptr) (s : queue) : queue :=
  mk_queue (back s) (front s) (size s) (capacity s) d.
Definition set_back (b : Z) (s : queue) : queue :=
  mk_queue b (front s) (size s) (capacity s) (data s).
Definition set_front (f : Z) (s : queue) : queue :=
  mk_queue (back s) f (size s) (capacity s) (data s).
Definition set_size (n : Z) (s : queue) : queue :=
  mk_queue (back s) (front s) n (capacity s) (data s).
Definition set_capacity (c : Z) (s : queue) : queue :=
  mk_queue (back s) (front s) (size s) c (data s).

Definition load_queue (q : ptr) : M (heap qobj) queue :=
  let! o := load q in
  match o with QStruct s => ret s | QLongs _ => fail Uninit end.

Definition update_queue (q : ptr) (f : queue -> queue) : M (heap qobj) unit :=
  let! s := load_queue q in store q (QStruct (f s)).

Definition load_long (d : ptr) (i : Z) : M (heap qobj) Z :=
  let! o := load d in
  match o with
  | QLongs a =>
      let! c := of_option OutOfBounds (znth a i) in
      of_option Uninit c
  | QStruct _ => fail Uninit
  end.

Definition store_long (d : ptr) (i : Z) (x : Z) : M (heap qobj) unit :=
  let! o := load d in
  match o with
  | QLongs a =>
      let! a' := of_option OutOfBounds (zupd a i (Some x)) in
      store d (QLongs a')
  | QStruct _ => fail Uninit
  end.

(** ** Operations *)

(** [garbage] is the indeterminate content of the block malloc returns. *)
Definition queue_new (garbage : queue) (cap : Z) : M (heap qobj) ptr :=
  if cap =? 0 then ret None
  else
    let! q := malloc (QStruct garbage) in
    match q with
    | None => ret None
    | Some _ =>
        let! d := malloc (QLongs (replicate (Z.to_nat cap) None)) in
        do! update_queue q (set_data d) in
        match d with
        | None => do! free q in ret None
        | Some _ =>
            do! update_queue q (set_back 0) in
            do! update_queue q (set_front 0) in
            do! update_queue q (set_capacity cap) in
            do! update_queue q (set_size 0) in
            ret q
        end
    end.

Definition not_null (q : ptr) : bool :=
  match q with Some _ => true | None => false end.

Definition queue_empty (q : ptr) : M (heap qobj) Z :=
  do! assert (not_null q) in
  let! s := load_queue q in
  ret (if size s =? 0 then 1 else 0).

Definition queue_full (q : ptr) : M (heap qobj) Z :=
  do! assert (not_null q) in
  let! s := load_queue q in
  ret (if capacity s =? size s then 1 else 0).

Definition queue_enqueue (q : ptr) (item : Z) : M (heap qobj) unit :=
  do! assert (not_null q) in
  let! s := load_queue q in
  do! assert (size s <? capacity s) in
  let! full := queue_full q in
  if negb (full =? 0) then ret tt
  else
    do! store_long (data s) (back s) item in
    do! update_queue q (fun s => set_back (u32 (back s + 1) mod capacity s) s) in
    update_queue q (fun s => set_size (u32 (size s + 1)) s).

Definition queue_dequeue (q : ptr) : M (heap qobj) Z :=
  do! assert (not_null q) in
  let! s := load_queue q in
  do! assert (0 <? size s) in
  let! item := load_long (data s) (front s) in
  do! update_queue q (fun s => set_front (u32 (front s + 1) mod capacity s) s) in
  do! update_queue q (fun s => set_size (u32 (size s - 1)) s) in
  ret item.

Definition queue_size (q : ptr) : M (heap qobj) Z :=
  do! assert (not_null q) in
  let! s := load_queue q in
  ret (size s).

Definition queue_delete (q : ptr) : M (heap qobj) unit :=
  do! assert (not_null q) in
  let! s := load_queue q in
  do! free (data s) in
  free q.

(** ** The abstract bounded queue *)

Inductive qop :=
  | Enqueue (x : Z)
  | Dequeue
  | Size
  | Empty
  | Full.

Definition b2z (b : bool) : Z := if b then 1 else 0.

(** One call on the contents [l] of a queue of capacity [cap]: its result (0
    for a void call) and the new contents. *)
Definition fifo_step (cap : Z) (l : list Z) (o : qop) : res (Z * list Z) :=
  let n := Z.of_nat (length l) in
  match o with
  | Enqueue x => if n <? cap then Ok (0, l ++ [x]) else Err AssertFail
  | Dequeue => match l with x :: l' => Ok (x, l') | [] => Err AssertFail end
  | Size => Ok (n, l)
  | Empty => Ok (b2z (n =? 0), l)
  | Full => Ok (b2z (cap =? n), l)
  end.

Fixpoint fifo_run (cap : Z) (l : list Z) (ops : list qop) : res (list Z * list Z) :=
  match ops with
  | [] => Ok ([], l)
  | o :: ops =>
      match fifo_step cap l o with
      | Ok (r, l1) =>
          match fifo_run cap l1 ops with
          | Ok (rs, l2) => Ok (r :: rs, l2)
          | Err f => Err f
          end
      | Err f => Err f
      end
  end.

(** The same calls on the implementation. *)
Definition queue_step (q : ptr) (o : qop) : M (heap qobj) Z :=
  match o with
  | Enqueue x => do! queue_enqueue q x in ret 0
  | Dequeue => queue_dequeue q
  | Size => queue_size q
  | Empty => queue_empty q
  | Full => queue_full q
  end.

Fixpoint queue_run (q : ptr) (ops : list qop) : M (heap qobj) (list Z) :=
  match ops with
  | [] => ret []
  | o :: ops =>
      let! r := queue_step q o in
      let! rs := queue_run q ops in
      ret (r :: rs)
  end.

(** ** Representation *)

(** The ring [a] of capacity [cap] holds [l] from position [front s] on. *)
Record ring (cap : Z) (s : queue) (a : list (option Z)) (l : list Z) : Prop := {
  ring_cap : 0 < cap <= UINT_MAX;
  ring_capacity : capacity s = cap;
  ring_length : Z.of_nat (length a) = cap;
  ring_size : size s = Z.of_nat (length l);
  ring_fits : size s <= cap;
  ring_front : 0 <= front s < cap;
  ring_back : back s = (front s + size s) mod cap;
  ring_cells : forall i x, l !! i = Some x ->
    a !! Z.to_nat ((front s + Z.of_nat i) mod cap) = Some (Some x)
}.

(** [q] is a queue in [h] with contents [l]; [F] is the rest of the heap. *)
Definition queue_repr (F : gmap loc qobj) (h : heap qobj) (q : loc) (cap : Z)
    (l : list Z) : Prop :=
  exists s d a,
    h_objs h = <[q := QStruct s]> (<[d := QLongs a]> F) /\
    data s = Some d /\ q <> d /\ F !! q = None /\ F !! d = None /\
    heap_wf h /\ ring cap s a l.

(** ** Ring arithmetic *)

Lemma ring_back_range cap s a l : ring cap s a l -> 0 <= back s < cap.
Proof. intros []. rewrite ring_back0. apply Z.mod_pos_bound. lia. Qed.

Lemma mod_offset_inj cap f i j :
  0 < cap -> 0 <= i < cap -> 0 <= j < cap ->
  (f + i) mod cap = (f + j) mod cap -> i = j.
Proof.
  intros Hc Hi Hj E.
  assert (D : (i - j) mod cap = 0).
  { replace (i - j) with ((f + i) - (f + j)) by lia.
    rewrite Zminus_mod, E, Z.sub_diag. apply Z.mod_0_l. lia. }
  apply Z.mod_divide in D as [k Hk]; [|lia].
  destruct (Z.lt_trichotomy k 0) as [|[|]]; nia.
Qed.

Lemma ring_push cap s a l x :
  ring cap s a l -> size s < cap ->
  ring cap (set_size (u32 (size s + 1)) (set_back (u32 (back s + 1) mod capacity s) s))
       (<[Z.to_nat (back s) := Some x]> a) (l ++ [x]).
Proof.
  intros R Hlt. pose proof (ring_back_range _ _ _ _ R) as Hb. destruct R.
  rewrite (u32_small (size s + 1)), (u32_small (back s + 1)) by lia.
  split; simpl; try done.
  - by rewrite length_insert.
  - rewrite length_app. simpl. lia.
  - lia.
  - rewrite ring_capacity0, ring_back0, Zplus_mod_idemp_l. f_equal. lia.
  - intros i y Hi. apply lookup_app_Some in Hi as [Hi|[Hge Hi]].
    + rewrite list_lookup_insert_ne; [by apply ring_cells0|].
      pose proof (lookup_lt_Some _ _ _ Hi). intros E.
      assert (E' : (front s + size s) mod cap = (front s + Z.of_nat i) mod cap).
      { pose proof (Z.mod_pos_bound (front s + Z.of_nat i) cap). lia. }
      apply mod_offset_inj in E'; lia.
    + destruct (i - length l)%nat eqn:E; [|done]. injection Hi as ->.
      replace (Z.of_nat i) with (size s) by lia. rewrite <- ring_back0.
      apply list_lookup_insert_eq. lia.
Qed.

Lemma ring_head cap s a x l : ring cap s a (x :: l) -> znth a (front s) = Some (Some x).
Proof.
  intros []. apply znth_Some. split; [lia|].
  specialize (ring_cells0 0%nat x eq_refl).
  rewrite Z.add_0_r, Z.mod_small in ring_cells0 by lia. done.
Qed.

Lemma ring_pop cap s a x l :
  ring cap s a (x :: l) ->
  ring cap (set_size (u32 (size s - 1)) (set_front (u32 (front s + 1) mod capacity s) s)) a l.
Proof.
  intros R. destruct R. simpl in ring_size0.
  rewrite (u32_small (size s - 1)), (u32_small (front s + 1)) by lia.
  split; simpl; try done.
  - lia.
  - lia.
  - rewrite ring_capacity0. apply Z.mod_pos_bound. lia.
  - rewrite ring_capacity0, ring_back0, Zplus_mod_idemp_l. f_equal. lia.
  - intros i y Hi. rewrite ring_capacity0, Zplus_mod_idemp_l.
    replace (front s + 1 + Z.of_nat i) with (front s + Z.of_nat (S i)) by lia.
    by apply ring_cells0.
Qed.

#[local] Hint Resolve ring_push ring_pop : queue.

(** ** Heap access through the representation *)

Section access.
Context (F : gmap loc qobj) (q d : loc) (s : queue) (a : list (option Z)).
Context (Hqd : q <> d).
Implicit Types h : heap qobj.

Lemma wp_load_queue h Q :
  h_objs h !! q = Some (QStruct s) -> wp (load_queue (Some q)) Q h <-> Q s h.
Proof.
  intros E. unfold load_queue. wp_heap. rewrite E. split.
  - by intros (o & [= <-] & ?).
  - intros. eexists. split; [done|]. done.
Qed.

Lemma wp_update_queue h Q f :
  h_objs h !! q = Some (QStruct s) ->
  wp (update_queue (Some q) f) Q h <->
  Q tt (Heap (h_next h) (<[q := QStruct (f s)]> (h_objs h)) (h_oracle h)).
Proof.
  intros E. unfold update_queue. rewrite wp_bind, wp_load_queue by done.
  rewrite wp_store, E. naive_solver.
Qed.

Lemma wp_load_long h Q i x :
  h_objs h !! d = Some (QLongs a) -> znth a i = Some (Some x) ->
  wp (load_long (Some d) i) Q h <-> Q x h.
Proof.
  intros E Ex. unfold load_long. wp_heap. rewrite E. split.
  - intros (o & Eo & H). injection Eo as <-. rewrite wp_bind, wp_of_option in H.
    destruct H as (c & Ec & H). rewrite Ex in Ec. injection Ec as <-.
    rewrite wp_of_option in H. destruct H as (y & Ey & HQ). by injection Ey as <-.
  - intros. eexists. split; [done|]. rewrite wp_bind, wp_of_option, Ex.
    eexists. split; [done|]. rewrite wp_of_option. eauto.
Qed.

Lemma wp_store_long h Q i x :
  h_objs h !! d = Some (QLongs a) -> 0 <= i < Z.of_nat (length a) ->
  wp (store_long (Some d) i x) Q h <->
  Q tt (Heap (h_next h) (<[d := QLongs (<[Z.to_nat i := Some x]> a)]> (h_objs h)) (h_oracle h)).
Proof.
  intros E Hi. unfold store_long. wp_heap. rewrite E. split.
  - intros (o & Eo & H). injection Eo as <-. rewrite wp_bind, wp_of_option in H.
    destruct H as (a' & Ea & HQ). apply zupd_Some in Ea as [_ ->].
    rewrite wp_store in HQ. by destruct HQ.
  - intros. eexists. split; [done|]. rewrite wp_bind, wp_of_option, zupd_in by done.
    eexists. split; [done|]. rewrite wp_store, E. eauto.
Qed.
End access.

(** Two heaps that agree at [q], at [d] and elsewhere are equal. *)
Ltac heap_eq q d :=
  apply map_eq; intros i;
  destruct (decide (i = q)); destruct (decide (i = d)); by simplify_map_eq.

Lemma queue_repr_intro F (h : heap qobj) q d s a cap l :
  h_objs h = <[q := QStruct s]> (<[d := QLongs a]> F) ->
  data s = Some d -> q <> d -> F !! q = None -> F !! d = None ->
  heap_wf h -> ring cap s a l -> queue_repr F h q cap l.
Proof. intros. exists s, d, a. done. Qed.

(** ** Specifications of the operations *)

Section specs.
Context (F : gmap loc qobj) (q : loc) (cap : Z).
Implicit Types (h : heap qobj) (l : list Z).

Lemma queue_full_spec h l :
  queue_repr F h q cap l ->
  queue_full (Some q) h = Ok (b2z (cap =? Z.of_nat (length l)), h).
Proof.
  intros (s & d & a & E & Hd & Hqd & Fq & Fd & Hwf & R).
  unfold queue_full, load_queue, bind, load. simpl. rewrite E, lookup_insert_eq.
  unfold ret. by rewrite (ring_capacity _ _ _ _ R), (ring_size _ _ _ _ R).
Qed.

Lemma queue_empty_spec h l :
  queue_repr F h q cap l ->
  queue_empty (Some q) h = Ok (b2z (Z.of_nat (length l) =? 0), h).
Proof.
  intros (s & d & a & E & Hd & Hqd & Fq & Fd & Hwf & R).
  unfold queue_empty, load_queue, bind, load. simpl. rewrite E, lookup_insert_eq.
  unfold ret. by rewrite (ring_size _ _ _ _ R).
Qed.

Lemma queue_size_spec h l :
  queue_repr F h q cap l -> queue_size (Some q) h = Ok (Z.of_nat (length l), h).
Proof.
  intros (s & d & a & E & Hd & Hqd & Fq & Fd & Hwf & R).
  unfold queue_size, load_queue, bind, load. simpl. rewrite E, lookup_insert_eq.
  unfold ret. by rewrite (ring_size _ _ _ _ R).
Qed.

Lemma queue_enqueue_spec h l x :
  queue_repr F h q cap l -> Z.of_nat (length l) < cap ->
  wp (queue_enqueue (Some q) x) (fun _ h' => queue_repr F h' q cap (l ++ [x])) h.
Proof.
  intros HR Hlt. pose proof (queue_full_spec h l HR) as Hfull.
  destruct HR as (s & d & a & E & Hd & Hqd & Fq & Fd & Hwf & R).
  assert (Eq : h_objs h !! q = Some (QStruct s)) by (rewrite E; by simplify_map_eq).
  assert (Ed : h_objs h !! d = Some (QLongs a)) by (rewrite E; by simplify_map_eq).
  pose proof (ring_back_range _ _ _ _ R) as Hb.
  assert (Hs : size s < cap) by (rewrite (ring_size _ _ _ _ R); lia).
  unfold queue_enqueue. wp_pure. split; [done|]. rewrite wp_load_queue by done.
  wp_pure. split; [rewrite (ring_capacity _ _ _ _ R); lia|].
  rewrite (wp_eq _ _ _ _ _ Hfull). destruct (Z.eqb_spec cap (Z.of_nat (length l))); [lia|].
  simpl. rewrite Hd. wp_pure.
  rewrite wp_store_long by (try done; rewrite (ring_length _ _ _ _ R); done).
  rewrite wp_bind, (wp_update_queue q s) by (simpl; by simplify_map_eq).
  rewrite (wp_update_queue q (set_back (u32 (back s + 1) mod capacity s) s))
    by (simpl; by simplify_map_eq).
  eapply (queue_repr_intro F _ q d (set_size _ (set_back _ s)) _ cap);
    [| | | | | |eapply ring_push]; try done.
  - simpl. rewrite E. heap_eq q d.
  - heap_wf_tac Hwf.
Qed.

Lemma queue_enqueue_full h l x :
  queue_repr F h q cap l -> Z.of_nat (length l) = cap ->
  queue_enqueue (Some q) x h = Err AssertFail.
Proof.
  intros (s & d & a & E & Hd & Hqd & Fq & Fd & Hwf & R) Hlen.
  unfold queue_enqueue, load_queue, bind, load. simpl. rewrite E, lookup_insert_eq.
  simpl. rewrite (ring_capacity _ _ _ _ R), (ring_size _ _ _ _ R).
  by rewrite (proj2 (Z.ltb_ge _ _)) by lia.
Qed.

Lemma queue_dequeue_spec h x l :
  queue_repr F h q cap (x :: l) ->
  wp (queue_dequeue (Some q)) (fun r h' => r = x /\ queue_repr F h' q cap l) h.
Proof.
  intros (s & d & a & E & Hd & Hqd & Fq & Fd & Hwf & R).
  assert (Eq : h_objs h !! q = Some (QStruct s)) by (rewrite E; by simplify_map_eq).
  assert (Ed : h_objs h !! d = Some (QLongs a)) by (rewrite E; by simplify_map_eq).
  unfold queue_dequeue. wp_pure. split; [done|]. rewrite wp_load_queue by done.
  wp_pure. split; [apply Z.ltb_lt; rewrite (ring_size _ _ _ _ R), length_cons; lia|].
  rewrite Hd, (wp_load_long d a) by (try done; by eapply ring_head).
  wp_pure. rewrite (wp_update_queue q s) by done.
  wp_pure. rewrite (wp_update_queue q (set_front (u32 (front s + 1) mod capacity s) s))
    by (simpl; by simplify_map_eq).
  wp_pure. split; [done|].
  eapply (queue_repr_intro F _ q d (set_size _ (set_front _ s)) _ cap);
    [| | | | | |eapply ring_pop]; try done.
  - simpl. rewrite E. heap_eq q d.
  - heap_wf_tac Hwf.
Qed.

Lemma queue_dequeue_empty h :
  queue_repr F h q cap [] -> queue_dequeue (Some q) h = Err AssertFail.
Proof.
  intros (s & d & a & E & Hd & Hqd & Fq & Fd & Hwf & R).
  unfold queue_dequeue, load_queue, bind, load. simpl. rewrite E, lookup_insert_eq.
  simpl. by rewrite (ring_size _ _ _ _ R).
Qed.

Lemma queue_step_refines h l o :
  queue_repr F h q cap l ->
  match fifo_step cap l o with
  | Ok (r, l') => wp (queue_step (Some q) o) (fun r' h' => r' = r /\ queue_repr F h' q cap l') h
  | Err f => queue_step (Some q) o h = Err f
  end.
Proof.
  intros HR. destruct o as [x| | | |]; simpl.
  - destruct (Z.ltb_spec (Z.of_nat (length l)) cap).
    + wp_pure. eapply wp_mono; [by apply queue_enqueue_spec|]. intros [] h' ?. by wp_pure.
    + apply bind_err, (queue_enqueue_full h l); [done|].
      destruct HR as (s & d & a & _ & _ & _ & _ & _ & _ & []). lia.
  - destruct l as [|x l]; [by apply queue_dequeue_empty|by apply queue_dequeue_spec].
  - by rewrite (wp_eq _ _ _ _ _ (queue_size_spec h l HR)).
  - by rewrite (wp_eq _ _ _ _ _ (queue_empty_spec h l HR)).
  - by rewrite (wp_eq _ _ _ _ _ (queue_full_spec h l HR)).
Qed.

Lemma queue_run_refines ops h l :
  queue_repr F h q cap l ->
  match fifo_run cap l ops with
  | Ok (rs, l') => wp (queue_run (Some q) ops) (fun rs' h' => rs' = rs /\ queue_repr F h' q cap l') h
  | Err f => queue_run (Some q) ops h = Err f
  end.
Proof.
  revert h l. induction ops as [|o ops IH]; intros h l HR; simpl; [by wp_pure|].
  pose proof (queue_step_refines h l o HR) as Hstep.
  destruct (fifo_step cap l o) as [[r l1]|f]; [|by apply bind_err].
  apply wp_run in Hstep as (r' & h1 & Hs & -> & HR1). specialize (IH h1 l1 HR1).
  destruct (fifo_run cap l1 ops) as [[rs l2]|f].
  - wp_pure. rewrite (wp_eq _ _ _ _ _ Hs). wp_pure.
    eapply wp_mono; [exact IH|]. intros ? h2 [-> ?]. by wp_pure.
  - rewrite (bind_ok _ _ _ _ _ Hs). by apply bind_err.
Qed.

Lemma queue_delete_spec h l :
  queue_repr F h q cap l -> wp (queue_delete (Some q)) (fun _ h' => h_objs h' = F) h.
Proof.
  intros (s & d & a & E & Hd & Hqd & Fq & Fd & Hwf & R).
  assert (Eq : h_objs h !! q = Some (QStruct s)) by (rewrite E; by simplify_map_eq).
  unfold queue_delete. wp_pure. split; [done|]. rewrite wp_load_queue by done.
  rewrite Hd. wp_heap. rewrite E. split; [by simplify_map_eq|].
  simpl. split; [by simplify_map_eq|].
  heap_eq q d.
Qed.
End specs.

(** ** Creation and whole sessions *)

Lemma ring_new cap s d :
  0 < cap <= UINT_MAX ->
  ring cap (set_size 0 (set_capacity cap (set_front 0 (set_back 0 (set_data d s)))))
       (replicate (Z.to_nat cap) None) [].
Proof.
  intros. split; simpl; try done; try lia.
  rewrite length_replicate. lia.
Qed.

(** The four field assignments that follow a successful pair of mallocs. *)
Lemma queue_init_spec (h : heap qobj) cap garbage orc :
  heap_wf h -> 0 < cap <= UINT_MAX ->
  let q := h_next h in
  let h2 := Heap (S (S q))
              (<[S q := QLongs (replicate (Z.to_nat cap) None)]> (<[q := QStruct garbage]> (h_objs h))) orc in
  wp (do! update_queue (Some q) (set_data (Some (S q))) in
      do! update_queue (Some q) (set_back 0) in
      do! update_queue (Some q) (set_front 0) in
      do! update_queue (Some q) (set_capacity cap) in
      do! update_queue (Some q) (set_size 0) in ret (Some q))
     (fun r h' => r = Some q /\ queue_repr (h_objs h) h' q cap []) h2.
Proof.
  intros Hwf Hcap q h2. assert (Hne : q <> S q) by lia.
  pose proof (heap_wf_fresh h Hwf) as Fq.
  assert (Fd : h_objs h !! S q = None).
  { destruct (h_objs h !! S q) eqn:E; [|done].
    specialize (Hwf (S q) ltac:(eauto)). subst q. lia. }
  rewrite wp_bind, (wp_update_queue q garbage) by (simpl; by simplify_map_eq).
  do 4 (rewrite wp_bind; erewrite wp_update_queue by (simpl; by simplify_map_eq)).
  rewrite wp_ret. split; [done|].
  eapply (queue_repr_intro _ _ q (S q)); [| | | | | |by apply ring_new]; try done.
  - simpl. heap_eq q (S q).
  - simpl. heap_wf_tac Hwf.
Qed.

(** queue_new on every branch: [NULL] exactly when the capacity is zero or an
    allocation fails, and then the heap is as before; an empty queue otherwise. *)
Lemma queue_new_spec (h : heap qobj) garbage cap :
  heap_wf h -> 0 <= cap <= UINT_MAX ->
  wp (queue_new garbage cap) (fun r h' =>
    if (cap =? 0) || negb (allocs_ok 2 (h_oracle h))
    then r = None /\ h_objs h' = h_objs h
    else exists q, r = Some q /\ queue_repr (h_objs h) h' q cap []) h.
Proof.
  intros Hwf Hcap. unfold queue_new. destruct (Z.eqb_spec cap 0); [by wp_pure|].
  wp_pure. rewrite wp_malloc. simpl.
  destruct (h_oracle h) as [|[] [|[] orc]]; simpl; try (by wp_pure);
    rewrite wp_bind, wp_malloc; simpl.
  1,2,3: eapply wp_mono; [by apply queue_init_spec; [|lia]|]; intros ? h' [-> ?]; eauto.
  rewrite wp_bind, (wp_update_queue (h_next h) garbage) by (simpl; by simplify_map_eq).
  wp_heap. simpl. split; [by simplify_map_eq|]. split; [done|].
  rewrite insert_insert_eq. apply delete_insert_id. by apply heap_wf_fresh.
Qed.

(** A client that creates a queue, makes some calls and deletes it. *)
Definition queue_session (garbage : queue) (cap : Z) (ops : list qop) :
    M (heap qobj) (option (list Z)) :=
  let! q := queue_new garbage cap in
  match q with
  | None => ret None
  | Some _ =>
      let! rs := queue_run q ops in
      do! queue_delete q in
      ret (Some rs)
  end.

(** C22. Sequences of calls on a queue refine the bounded FIFO list: as long as
    the abstract queue accepts the calls they return the same values and leave
    a queue with the abstract contents (the rest [F] of the heap untouched),
    and the first call the abstract queue refuses (enqueue when full, dequeue
    when empty) fails its assertion; no other fault is possible. *)
Theorem queue_refines_fifo F q cap ops (h : heap qobj) l :
  queue_repr F h q cap l ->
  match fifo_run cap l ops with
  | Ok (rs, l') => exists h', queue_run (Some q) ops h = Ok (rs, h') /\ queue_repr F h' q cap l'
  | Err f => queue_run (Some q) ops h = Err f
  end.
Proof.
  intros HR. pose proof (queue_run_refines F q cap ops h l HR) as H.
  destruct (fifo_run cap l ops) as [[rs l']|f]; [|done].
  apply wp_run in H as (? & h' & ? & -> & ?). eauto.
Qed.

(** C15. A whole session on any heap, with any allocation outcome and any
    32-bit capacity, never leaks and never corrupts: if queue_new returns NULL
    the heap is as before, and otherwise the calls behave as the FIFO from the
    empty list and queue_delete gives back exactly the initial heap. *)
Theorem queue_session_no_leak garbage cap ops (h : heap qobj) :
  heap_wf h -> 0 <= cap <= UINT_MAX ->
  match queue_session garbage cap ops h with
  | Ok (None, h') => h_objs h' = h_objs h
  | Ok (Some rs, h') => h_objs h' = h_objs h /\ exists l, fifo_run cap [] ops = Ok (rs, l)
  | Err f => fifo_run cap [] ops = Err f
  end.
Proof.
  intros Hwf Hcap. pose proof (queue_new_spec h garbage cap Hwf Hcap) as Hnew.
  apply wp_run in Hnew as (r & h1 & E1 & Hnew). unfold queue_session.
  rewrite (bind_ok _ _ _ _ _ E1).
  destruct ((cap =? 0) || _); [by destruct Hnew as [-> ?]|].
  destruct Hnew as (q & -> & HR). pose proof (queue_run_refines _ q cap ops h1 [] HR) as Hrun.
  destruct (fifo_run cap [] ops) as [[rs l]|f]; [|by rewrite (bind_err _ _ _ _ Hrun)].
  apply wp_run in Hrun as (? & h2 & E2 & -> & HR2). rewrite (bind_ok _ _ _ _ _ E2).
  apply (queue_delete_spec _ q cap) in HR2. apply wp_run in HR2 as ([] & h3 & E3 & E4).
  rewrite (bind_ok _ _ _ _ _ E3). simpl. eauto.
Qed.

(** queue_new returns NULL exactly when the capacity is zero or one of its
    two mallocs fails, leaving the heap unchanged in that case (the struct is
    freed when the data array cannot be allocated); otherwise it returns an
    empty queue of that capacity. *)
Theorem queue_new_null_iff garbage cap (h : heap qobj) :
  heap_wf h -> 0 <= cap <= UINT_MAX ->
  exists r h', queue_new garbage cap h = Ok (r, h') /\
    (r = None <-> cap = 0 \/ allocs_ok 2 (h_oracle h) = false) /\
    match r with
    | None => h_objs h' = h_objs h
    | Some q => queue_repr (h_objs h) h' q cap []
    end.
Proof.
  intros Hwf Hcap. pose proof (queue_new_spec h garbage cap Hwf Hcap) as H.
  apply wp_run in H as (r & h' & E & H). exists r, h'. split; [done|].
  destruct (Z.eqb_spec cap 0); destruct (allocs_ok 2 (h_oracle h)); simpl in H;
    [by destruct H as [-> ?]; split; [naive_solver|]..| |by destruct H as [-> ?]; split; [naive_solver|]].
  destruct H as (q & -> & ?). split; [naive_solver|done].
Qed.

(** ** Witnesses *)

Definition demo_garbage : queue := mk_queue 7 7 7 7 None.
Definition demo_heap : heap qobj :=
  Heap 3 (<[1%nat := QStruct (mk_queue 0 1 1 2 (Some 2%nat))]>
          (<[2%nat := QLongs [None; Some 10]]> ∅)) [].

Lemma demo_heap_repr : queue_repr ∅ demo_heap 1 2 [10].
Proof.
  exists (mk_queue 0 1 1 2 (Some 2%nat)), 2%nat, [None; Some 10].
  split; [done|]. do 4 (split; [done|]). split.
  - intros i [o Ho]. simpl in *. destruct (decide (i = 1%nat)) as [->|]; [lia|].
    destruct (decide (i = 2%nat)) as [->|]; [lia|].
    by rewrite !lookup_insert_ne, lookup_empty in Ho by done.
  - split; try done. intros [|i] x Hx; [by injection Hx as <-|done].
Defined.

Lemma demo_cap : 0 <= 2 <= UINT_MAX.
Proof. by split. Defined.

Lemma queue_refines_fifo_witness :
  exists h', queue_run (Some 1%nat) [Enqueue 20; Full; Dequeue; Dequeue; Empty] demo_heap
             = Ok ([0; 1; 10; 20; 1], h') /\ queue_repr ∅ h' 1 2 [].
Proof. exact (queue_refines_fifo ∅ 1 2 [Enqueue 20; Full; Dequeue; Dequeue; Empty] demo_heap [10] demo_heap_repr). Defined.

Lemma queue_session_no_leak_witness :
  match queue_session demo_garbage 2 [Enqueue 5; Dequeue] (empty_heap []) with
  | Ok (Some rs, h') => h_objs h' = ∅ /\ exists l, fifo_run 2 [] [Enqueue 5; Dequeue] = Ok (rs, l)
  | _ => False
  end.
Proof.
  exact (queue_session_no_leak demo_garbage 2 [Enqueue 5; Dequeue] (empty_heap [])
           (empty_heap_wf []) demo_cap).
Defined.

Lemma queue_new_null_iff_witness :
  exists r h', queue_new demo_garbage 2 (empty_heap [true; false]) = Ok (r, h') /\
    (r = None <-> 2 = 0 \/ allocs_ok 2 [true; false] = false) /\
    match r with None => h_objs h' = ∅ | Some q => queue_repr ∅ h' q 2 [] end.
Proof.
  exact (queue_new_null_iff demo_garbage 2 (empty_heap [true; false])
           (empty_heap_wf _) demo_cap).
Defined.
End Queue.
