(* ===== verification/Vect.v ===== *)
(** * Vect: the growable string vector of Data Structures C/vector/vect.c

    The vector struct, its array of [char *] and the strings it owns are heap
    objects, and [const char *] arguments are pointers into the same heap, so
    aliasing between an argument and the vector's own strings is visible.  The
    abstract contract is a list of optional strings with a capacity; the
    theorems cover whole call sequences, ownership (no leak, no double free)
    and what goes wrong when an allocation fails or an argument aliases an
    element. *)
From stdpp Require Import base list gmap strings.
From Stdlib Require Import ZArith Lia.
From S2P Require Import Prelude Heap.

Module Vect.

(** ** Data *)

Record vect := mk_vect {
  data : ptr;
  size : Z;
  capacity : Z
}.

(** One [char *] slot: malloc'd arrays start uninitialised. *)
Inductive slot :=
  | SUninit
  | SPtr (p : ptr).

Inductive vobj :=
  | VStruct (v : vect)
  | VPtrs (a : list slot)
  | VStr (s : string).

Definition VECT_INITIAL_CAPACITY : Z := 2.
Definition VECT_GROWTH_FACTOR : Z := 2.

Definition load_vect (v : ptr) : M (heap vobj) vect :=
  let! o := load v in
  match o with VStruct s => ret s | _ => fail Uninit end.

Definition update_vect (v : ptr) (f : vect -> vect) : M (heap vobj) unit :=
  let! s := load_vect v in store v (VStruct (f s)).

Definition set_data (d : ptr) (s : vect) : vect := mk_vect d (size s) (capacity s).
Definition set_size (n : Z) (s : vect) : vect := mk_vect (data s) n (capacity s).
Definition set_capacity (c : Z) (s : vect) : vect := mk_vect (data s) (size s) c.

Definition load_ptrs (d : ptr) : M (heap vobj) (list slot) :=
  let! o := load d in
  match o with VPtrs a => ret a | _ => fail Uninit end.

Definition load_slot (d : ptr) (i : Z) : M (heap vobj) ptr :=
  let! a := load_ptrs d in
  let! c := of_option OutOfBounds (znth a i) in
  match c with SPtr p => ret p | SUninit => fail Uninit end.

Definition store_slot (d : ptr) (i : Z) (p : ptr) : M (heap vobj) unit :=
  let! a := load_ptrs d in
  let! a' := of_option OutOfBounds (zupd a i (SPtr p)) in
  store d (VPtrs a').

(** The characters a [const char *] points to. *)
Definition load_str (p : ptr) : M (heap vobj) string :=
  let! o := load p in
  match o with VStr s => ret s | _ => fail Uninit end.

(** strdup of a string that is not [NULL]. *)
Definition strdup (p : ptr) : M (heap vobj) ptr :=
  let! s := load_str p in malloc (VStr s).

(** realloc of a pointer array to [n] slots: a new block with the old contents
    and the old block freed; [NULL] and the old block kept when it fails; with
    size 0 the block is freed and [NULL] returned. *)
Definition realloc_ptrs (d : ptr) (n : Z) : M (heap vobj) ptr :=
  let! a := load_ptrs d in
  if n =? 0 then do! free d in ret None
  else
    let! d' := malloc (VPtrs (take (Z.to_nat n) (a ++ replicate (Z.to_nat n - length a) SUninit))) in
    match d' with
    | None => ret None
    | Some _ => do! free d in ret d'
    end.

(** ** Operations *)

Definition vect_new (garbage : vect) : M (heap vobj) ptr :=
  let! v := malloc (VStruct garbage) in
  match v with
  | None => ret None
  | Some _ =>
      let! d := malloc (VPtrs (replicate 2 SUninit)) in
      do! update_vect v (set_data d) in
      match d with
      | None => do! free v in ret None
      | Some _ =>
          do! update_vect v (set_size 0) in
          do! update_vect v (set_capacity 2) in
          ret v
      end
  end.

(** The loop [for (i = 0; i < v->size; i++) free(v->data[i])], from [i] with
    [n] iterations left. *)
Fixpoint free_slots (v : ptr) (i : Z) (n : nat) : M (heap vobj) unit :=
  match n with
  | O => ret tt
  | S n =>
      let! s := load_vect v in
      let! p := load_slot (data s) i in
      do! free p in
      free_slots v (i + 1) n
  end.

Definition vect_delete (v : ptr) : M (heap vobj) unit :=
  match v with
  | None => ret tt
  | Some _ =>
      let! s := load_vect v in
      do! free_slots v 0 (Z.to_nat (size s)) in
      do! free (data s) in
      free v
  end.

Definition vect_get (v : ptr) (idx : Z) : M (heap vobj) ptr :=
  match v with
  | None => ret None
  | Some _ =>
      let! s := load_vect v in
      if size s <=? idx then ret None
      else load_slot (data s) idx
  end.

Definition vect_get_copy (v : ptr) (idx : Z) : M (heap vobj) ptr :=
  match v with
  | None => ret None
  | Some _ =>
      let! s := load_vect v in
      if size s <=? idx then ret None
      else
        let! p := load_slot (data s) idx in
        match p with
        | None => ret None
        | Some _ => let! copy := strdup p in ret copy
        end
  end.

Definition vect_set (v : ptr) (idx : Z) (elt : ptr) : M (heap vobj) unit :=
  match v with
  | None => ret tt
  | Some _ =>
      let! s := load_vect v in
      if size s <=? idx then ret tt
      else
        let! p := load_slot (data s) idx in
        do! free p in
        match elt with
        | Some _ =>
            let! copy := strdup elt in
            match copy with
            | None => ret tt
            | Some _ => store_slot (data s) idx copy
            end
        | None => store_slot (data s) idx None
        end
  end.

(** The growth step of vect_add: [false] when realloc fails and the function
    returns. *)
Definition vect_grow (v : ptr) : M (heap vobj) bool :=
  let! s := load_vect v in
  if size s =? capacity s then
    do! update_vect v (fun s => set_capacity (u32 (capacity s * 2)) s) in
    let! s := load_vect v in
    let! newData := realloc_ptrs (data s) (capacity s) in
    match newData with
    | None => ret false
    | Some _ => do! update_vect v (set_data newData) in ret true
    end
  else ret true.

Definition vect_add (v : ptr) (elt : ptr) : M (heap vobj) unit :=
  match v with
  | None => ret tt
  | Some _ =>
      let! ok := vect_grow v in
      if negb ok then ret tt
      else
        let! s := load_vect v in
        let bump := update_vect v (fun s => set_size (u32 (size s + 1)) s) in
        match elt with
        | Some _ =>
            let! copy := strdup elt in
            match copy with
            | None => ret tt
            | Some _ => do! store_slot (data s) (size s) copy in bump
            end
        | None => do! store_slot (data s) (size s) None in bump
        end
  end.

Definition vect_remove_last (v : ptr) : M (heap vobj) unit :=
  match v with
  | None => ret tt
  | Some _ =>
      let! s := load_vect v in
      if size s =? 0 then ret tt
      else
        let! p := load_slot (data s) (u32 (size s - 1)) in
        do! free p in
        do! store_slot (data s) (u32 (size s - 1)) None in
        update_vect v (fun s => set_size (u32 (size s - 1)) s)
  end.

Definition vect_size (v : ptr) : M (heap vobj) Z :=
  match v with
  | None => ret 0
  | Some _ => let! s := load_vect v in ret (size s)
  end.

Definition vect_current_capacity (v : ptr) : M (heap vobj) Z :=
  match v with
  | None => ret 0
  | Some _ => let! s := load_vect v in ret (capacity s)
  end.

Arguments vect_add : simpl never.
Arguments vect_set : simpl never.
Arguments vect_remove_last : simpl never.
Arguments vect_get : simpl never.
Arguments vect_get_copy : simpl never.
Arguments vect_size : simpl never.
Arguments vect_current_capacity : simpl never.
Arguments vect_delete : simpl never.

(** ** The abstract vector *)

Inductive vop :=
  | Add (p : ptr)
  | SetAt (i : Z) (p : ptr)
  | RemoveLast
  | Get (i : Z)
  | GetCopy (i : Z)
  | Size
  | Capacity.

Inductive vres :=
  | RVoid
  | RStr (o : option string)
  | RNum (n : Z).

(** The caller's string behind an argument pointer, in the caller's heap. *)
Definition arg_str (F : gmap loc vobj) (p : ptr) : option string :=
  match p with
  | Some a => match F !! a with Some (VStr s) => Some s | _ => None end
  | None => None
  end.

Definition seq_step (F : gmap loc vobj) (cap : Z) (l : list (option string)) (o : vop) :
    vres * (Z * list (option string)) :=
  let n := Z.of_nat (length l) in
  match o with
  | Add p => (RVoid, (if n =? cap then VECT_GROWTH_FACTOR * cap else cap, l ++ [arg_str F p]))
  | SetAt i p => (RVoid, (cap, if i <? n then <[Z.to_nat i := arg_str F p]> l else l))
  | RemoveLast => (RVoid, (cap, take (length l - 1) l))
  | Get i | GetCopy i => (RStr (mjoin (l !! Z.to_nat i)), (cap, l))
  | Size => (RNum n, (cap, l))
  | Capacity => (RNum cap, (cap, l))
  end.

Fixpoint seq_run (F : gmap loc vobj) (cap : Z) (l : list (option string)) (ops : list vop) :
    list vres * (Z * list (option string)) :=
  match ops with
  | [] => ([], (cap, l))
  | o :: ops =>
      let '(r, (cap1, l1)) := seq_step F cap l o in
      let '(rs, st) := seq_run F cap1 l1 ops in
      (r :: rs, st)
  end.

(** What a client sees of a returned [const char *]. *)
Definition read_opt (p : ptr) : M (heap vobj) (option string) :=
  match p with
  | None => ret None
  | Some _ => let! s := load_str p in ret (Some s)
  end.

(** The same calls on the implementation; the client frees the copies. *)
Definition vect_step (v : ptr) (o : vop) : M (heap vobj) vres :=
  match o with
  | Add p => do! vect_add v p in ret RVoid
  | SetAt i p => do! vect_set v i p in ret RVoid
  | RemoveLast => do! vect_remove_last v in ret RVoid
  | Get i => let! p := vect_get v i in let! r := read_opt p in ret (RStr r)
  | GetCopy i =>
      let! p := vect_get_copy v i in
      let! r := read_opt p in
      do! free p in ret (RStr r)
  | Size => let! n := vect_size v in ret (RNum n)
  | Capacity => let! n := vect_current_capacity v in ret (RNum n)
  end.

Fixpoint vect_run (v : ptr) (ops : list vop) : M (heap vobj) (list vres) :=
  match ops with
  | [] => ret []
  | o :: ops =>
      let! r := vect_step v o in
      let! rs := vect_run v ops in
      ret (r :: rs)
  end.

Definition vect_session (garbage : vect) (ops : list vop) : M (heap vobj) (option (list vres)) :=
  let! v := vect_new garbage in
  match v with
  | None => ret None
  | Some _ =>
      let! rs := vect_run v ops in
      do! vect_delete v in
      ret (Some rs)
  end.

(** ** Representation *)

(** [v] is a vector in [h] with array [d] of [cells]; [es] lists, per slot in
    use, the string it owns.  Slots in [hole] hold a stale value.  [F] is
    exactly the part of the heap the vector does not own. *)
Record vect_at (F : gmap loc vobj) (h : heap vobj) (v d : loc) (n cap : Z)
    (cells : list slot) (hole : nat -> Prop) (es : list (option (loc * string))) : Prop := {
  va_wf : heap_wf h;
  va_oracle : h_oracle h = [];
  va_v : h_objs h !! v = Some (VStruct (mk_vect (Some d) n cap));
  va_d : h_objs h !! d = Some (VPtrs cells);
  va_len : Z.of_nat (length cells) = cap;
  va_cap : 2 <= cap <= 2 ^ 31;
  va_fits : Z.of_nat (length es) <= cap;
  va_cells : forall i e, es !! i = Some e -> ~ hole i -> cells !! i = Some (SPtr (fst <$> e));
  va_own : forall i a s, es !! i = Some (Some (a, s)) -> h_objs h !! a = Some (VStr s);
  va_inj : forall i j a s t, es !! i = Some (Some (a, s)) -> es !! j = Some (Some (a, t)) -> i = j;
  va_frame : forall l o, F !! l = Some o <->
    h_objs h !! l = Some o /\ l <> v /\ l <> d /\ forall i s, es !! i <> Some (Some (l, s))
}.

Definition no_hole : nat -> Prop := fun _ => False.

Definition contents (es : list (option (loc * string))) : list (option string) :=
  map (option_map snd) es.

Definition vect_repr (F : gmap loc vobj) (h : heap vobj) (v : loc) (cap : Z)
    (l : list (option string)) : Prop :=
  exists d cells es,
    vect_at F h v d (Z.of_nat (length es)) cap cells no_hole es /\ l = contents es.

Section steps.
Context (v : loc).
Implicit Types (F : gmap loc vobj) (h : heap vobj) (es : list (option (loc * string))).

Lemma va_neq F h d n cap cells hole es :
  vect_at F h v d n cap cells hole es -> v <> d.
Proof. intros [] ->. congruence. Qed.

Lemma va_own_neq F h d n cap cells hole es i a s :
  vect_at F h v d n cap cells hole es -> es !! i = Some (Some (a, s)) -> a <> v /\ a <> d.
Proof. intros [] Hi. apply va_own0 in Hi. split; intros ->; congruence. Qed.

Lemma va_F_None F h d n cap cells hole es l :
  vect_at F h v d n cap cells hole es -> h_objs h !! l = None -> F !! l = None.
Proof.
  intros [] Hl. destruct (F !! l) eqn:E; [|done]. apply va_frame0 in E. naive_solver.
Qed.

Lemma va_F_lookup F h d n cap cells hole es l o :
  vect_at F h v d n cap cells hole es -> F !! l = Some o -> h_objs h !! l = Some o.
Proof. intros [] E. by apply va_frame0 in E as [? _]. Qed.

Lemma va_weaken F h d n cap cells (hole hole' : nat -> Prop) es :
  vect_at F h v d n cap cells hole es -> (forall i, hole i -> hole' i) ->
  vect_at F h v d n cap cells hole' es.
Proof. intros [] Hh. split; try done. naive_solver. Qed.

(** The struct's size field changes. *)
Lemma va_set_size F h d n cap cells hole es n' :
  vect_at F h v d n cap cells hole es ->
  vect_at F (Heap (h_next h) (<[v := VStruct (mk_vect (Some d) n' cap)]> (h_objs h)) (h_oracle h))
    v d n' cap cells hole es.
Proof.
  intros H. pose proof (va_neq _ _ _ _ _ _ _ _ H) as Hvd.
  assert (Hown : forall i a s, es !! i = Some (Some (a, s)) -> a <> v)
    by (intros ??? Hi; by destruct (va_own_neq _ _ _ _ _ _ _ _ _ _ _ H Hi)).
  destruct H. split; simpl; try done.
  - heap_wf_tac va_wf0.
  - by simplify_map_eq.
  - by simplify_map_eq.
  - intros i a s Hi. rewrite lookup_insert_ne; [by eapply va_own0|].
    intros ->. by eapply Hown.
  - intros l o. rewrite va_frame0. destruct (decide (l = v)) as [->|]; simplify_map_eq; naive_solver.
Qed.

(** A slot in use is released: its string is freed, its value is stale. *)
Lemma va_release F h d n cap cells hole es i e :
  vect_at F h v d n cap cells hole es -> es !! i = Some e ->
  wp (free (fst <$> e)) (fun _ h' =>
    h_next h' = h_next h /\
    vect_at F h' v d n cap cells (fun j => hole j \/ j = i) (<[i := None]> es)) h.
Proof.
  intros H Hi.
  assert (Hsub : forall j a s, <[i := None]> es !! j = Some (Some (a, s)) ->
                 j <> i /\ es !! j = Some (Some (a, s))).
  { intros j a s Hj. destruct (decide (j = i)) as [->|Hne].
    - rewrite list_lookup_insert_eq in Hj by (by eapply lookup_lt_Some). done.
    - by rewrite list_lookup_insert_ne in Hj by done. }
  destruct e as [[a s]|]; simpl.
  - destruct (va_own_neq _ _ _ _ _ _ _ _ _ _ _ H Hi) as [Hav Had].
    pose proof (va_own _ _ _ _ _ _ _ _ _ H _ _ _ Hi) as Ha.
    rewrite wp_free, Ha. split; [done|]. split; [done|]. destruct H. split; simpl; try done.
    + heap_wf_tac va_wf0.
    + by simplify_map_eq.
    + by simplify_map_eq.
    + by rewrite length_insert.
    + intros j e Hj Hh. apply va_cells0; [|naive_solver].
      rewrite list_lookup_insert_ne in Hj; naive_solver.
    + intros j b t Hj. apply Hsub in Hj as [Hne Hj]. rewrite lookup_delete_ne; [by eapply va_own0|].
      intros ->. by apply Hne, (va_inj0 _ _ _ _ _ Hj Hi).
    + intros j k b t u [_ Hj]%Hsub [_ Hk]%Hsub. by eapply va_inj0.
    + intros l o. rewrite va_frame0, lookup_delete_Some. split.
      * intros (Hl & ? & ? & Hno). split_and!; try done; [naive_solver|].
        intros j t [_ Hj]%Hsub. by eapply Hno.
      * intros ([Hne Hl] & ? & ? & Hno). split_and!; try done. intros j t Hj.
        destruct (decide (j = i)) as [->|Hji].
        -- rewrite Hi in Hj. congruence.
        -- apply (Hno j t). by rewrite list_lookup_insert_ne.
  - rewrite wp_free_null. split; [done|]. rewrite list_insert_id by done.
    eapply va_weaken; naive_solver.
Qed.

(** The array object changes at slot [i] only. *)
Lemma va_store F h d n cap cells hole es i p :
  vect_at F h v d n cap cells hole es -> Z.of_nat i < cap ->
  (forall e, es !! i = Some e -> fst <$> e = p) ->
  wp (store_slot (Some d) (Z.of_nat i) p) (fun _ h' =>
    h_next h' = h_next h /\
    vect_at F h' v d n cap (<[i := SPtr p]> cells) (fun j => hole j /\ j <> i) es) h.
Proof.
  intros H Hi Hp. pose proof (va_neq _ _ _ _ _ _ _ _ H) as Hvd.
  assert (Hown : forall i a s, es !! i = Some (Some (a, s)) -> a <> d)
    by (intros ??? Ho; by destruct (va_own_neq _ _ _ _ _ _ _ _ _ _ _ H Ho)).
  destruct H. unfold store_slot, load_ptrs. wp_heap. eexists. split; [done|]. wp_pure.
  exists (<[i := SPtr p]> cells). split.
  { rewrite zupd_in by lia. by rewrite Nat2Z.id. }
  rewrite wp_store, va_d0. split; [done|]. split; [done|]. split; simpl; try done.
  - heap_wf_tac va_wf0.
  - by simplify_map_eq.
  - by simplify_map_eq.
  - by rewrite length_insert.
  - intros j e Hj Hh. destruct (decide (j = i)) as [->|].
    + rewrite list_lookup_insert_eq by lia. by rewrite (Hp e Hj).
    + rewrite list_lookup_insert_ne by done. apply va_cells0; naive_solver.
  - intros j a s Hj. rewrite lookup_insert_ne; [by eapply va_own0|].
    intros ->. by eapply Hown.
  - intros l o. rewrite va_frame0. destruct (decide (l = d)) as [->|]; simplify_map_eq; naive_solver.
Qed.

(** A fresh string belongs to the caller. *)
Lemma va_alloc F h d n cap cells hole es s :
  vect_at F h v d n cap cells hole es ->
  wp (malloc (VStr s)) (fun p h' => exists a,
    p = Some a /\ F !! a = None /\
    vect_at (<[a := VStr s]> F) h' v d n cap cells hole es) h.
Proof.
  intros H. rewrite wp_malloc, (va_oracle _ _ _ _ _ _ _ _ _ H).
  pose proof (heap_wf_fresh h (va_wf _ _ _ _ _ _ _ _ _ H)) as Hf.
  exists (h_next h). split; [done|]. split; [by eapply va_F_None|]. destruct H.
  split; simpl; try done.
  - heap_wf_tac va_wf0.
  - rewrite lookup_insert_ne; naive_solver.
  - rewrite lookup_insert_ne; naive_solver.
  - intros i a t Hi. apply va_own0 in Hi. rewrite lookup_insert_ne; naive_solver.
  - intros l o. destruct (decide (l = h_next h)) as [->|].
    + simplify_map_eq. split; [|naive_solver]. intros ->. naive_solver.
    + rewrite !lookup_insert_ne by done. apply va_frame0.
Qed.

(** A caller's string is handed over to a stale slot in use. *)
Lemma va_acquire F h d n cap cells (hole : nat -> Prop) es i a s :
  vect_at F h v d n cap cells hole es -> es !! i = Some None -> hole i ->
  F !! a = Some (VStr s) ->
  vect_at (delete a F) h v d n cap cells hole (<[i := Some (a, s)]> es).
Proof.
  intros H Hi Hh Ha. pose proof (va_F_lookup _ _ _ _ _ _ _ _ _ _ H Ha) as Ha'.
  pose proof (lookup_lt_Some _ _ _ Hi) as Hlt. destruct H.
  assert (Hna : forall j t, es !! j <> Some (Some (a, t))) by (apply va_frame0 in Ha; naive_solver).
  assert (Hcase : forall j e, <[i := Some (a, s)]> es !! j = Some e ->
    (j = i /\ e = Some (a, s)) \/ (j <> i /\ es !! j = Some e)).
  { intros j e Hj. destruct (decide (j = i)) as [->|].
    - rewrite list_lookup_insert_eq in Hj by done. naive_solver.
    - rewrite list_lookup_insert_ne in Hj by done. naive_solver. }
  split; try done.
  - by rewrite length_insert.
  - intros j e [[-> ->]|[? Hj]]%Hcase Hn; [done|by apply va_cells0].
  - intros j b t [[-> [= -> ->]]|[? Hj]]%Hcase; [done|by eapply va_own0].
  - intros j k b t u [[-> [= -> ->]]|[? Hj]]%Hcase [[-> E]|[? Hk]]%Hcase; naive_solver.
  - intros l o. rewrite lookup_delete_Some, va_frame0. split.
    + intros (? & ? & ? & ? & Hno). split_and!; try done.
      intros j t [[-> [= ? ?]]|[? Hj]]%Hcase; [done|by eapply Hno].
    + intros (? & ? & ? & Hno). split_and!; try done.
      * intros <-. apply (Hno i s). by apply list_lookup_insert_eq.
      * intros j t Hj. destruct (decide (j = i)) as [->|]; [congruence|].
        apply (Hno j t). by rewrite list_lookup_insert_ne.
Qed.
End steps.

(** ** Specifications of the operations *)

Section specs.
Context (v : loc).
Implicit Types (F : gmap loc vobj) (h : heap vobj) (es : list (option (loc * string))).

Lemma wp_load_vect F h d n cap cells hole es Q :
  vect_at F h v d n cap cells hole es ->
  wp (load_vect (Some v)) Q h <-> Q (mk_vect (Some d) n cap) h.
Proof.
  intros H. pose proof (va_v _ _ _ _ _ _ _ _ _ H) as E.
  unfold load_vect. rewrite wp_bind, wp_load, E. split; [|by eauto].
  intros (o & Eo & HQ). by injection Eo as <-.
Qed.

Lemma wp_load_slot F h d n cap cells (hole : nat -> Prop) es i e Q :
  vect_at F h v d n cap cells hole es -> es !! i = Some e -> ~ hole i ->
  wp (load_slot (Some d) (Z.of_nat i)) Q h <-> Q (fst <$> e) h.
Proof.
  intros H Hi Hh. pose proof (va_d _ _ _ _ _ _ _ _ _ H) as E.
  pose proof (va_cells _ _ _ _ _ _ _ _ _ H _ _ Hi Hh) as Hc.
  unfold load_slot, load_ptrs. rewrite !wp_bind, wp_load.
  assert (Ez : znth cells (Z.of_nat i) = Some (SPtr (fst <$> e))).
  { apply znth_Some. rewrite Nat2Z.id. split; [lia|done]. }
  split.
  - intros (o & Eo & HQ). rewrite E in Eo. injection Eo as <-.
    rewrite wp_ret, wp_bind, wp_of_option in HQ. destruct HQ as (c & Ec & HQ).
    rewrite Ez in Ec. by injection Ec as <-.
  - intros. eexists. split; [done|]. rewrite wp_ret, wp_bind, wp_of_option. eauto.
Qed.

(** strdup of a caller's string. *)
Lemma wp_strdup F h d n cap cells hole es a s :
  vect_at F h v d n cap cells hole es -> F !! a = Some (VStr s) ->
  wp (strdup (Some a)) (fun p h' => exists b,
    p = Some b /\ F !! b = None /\
    vect_at (<[b := VStr s]> F) h' v d n cap cells hole es) h.
Proof.
  intros H Ha. pose proof (va_F_lookup _ _ _ _ _ _ _ _ _ _ _ H Ha) as Ea.
  unfold strdup, load_str. wp_heap. eexists. split; [done|]. wp_pure.
  by eapply va_alloc.
Qed.

Lemma va_update_size F h d n cap cells hole es (f : vect -> vect) n' :
  vect_at F h v d n cap cells hole es ->
  f (mk_vect (Some d) n cap) = mk_vect (Some d) n' cap ->
  wp (update_vect (Some v) f) (fun _ h' => vect_at F h' v d n' cap cells hole es) h.
Proof.
  intros H Ef. unfold update_vect. rewrite wp_bind, (wp_load_vect _ _ _ _ _ _ _ _ _ H), wp_store.
  rewrite (va_v _ _ _ _ _ _ _ _ _ H), Ef. split; [done|]. by eapply va_set_size.
Qed.

(** A slot with a stale value and no string gets a copy of the argument, which
    the caller still owns. *)
Lemma va_fill F h d n cap cells (hole : nat -> Prop) es i p
    (st : ptr -> M (heap vobj) unit) (Q : unit -> heap vobj -> Prop) :
  vect_at F h v d n cap cells hole es -> es !! i = Some None -> hole i ->
  (forall a, p = Some a -> exists s, F !! a = Some (VStr s)) ->
  (forall q h1 cells' e,
     option_map snd e = arg_str F p ->
     (wp (store_slot (Some d) (Z.of_nat i) q) (fun _ h' =>
        vect_at F h' v d n cap cells' (fun j => hole j /\ j <> i) (<[i := e]> es)) h1) ->
     wp (st q) Q h1) ->
  wp (match p with
      | Some _ =>
          let! copy := strdup p in
          match copy with None => ret tt | Some _ => st copy end
      | None => st None
      end) Q h.
Proof.
  intros H Hi Hh Harg HK. pose proof (lookup_lt_Some _ _ _ Hi) as Hlt.
  pose proof (va_fits _ _ _ _ _ _ _ _ _ H) as Hfit.
  destruct p as [a|]; simpl in HK.
  - destruct (Harg a eq_refl) as [s Ha]. rewrite Ha in HK.
    wp_pure. eapply wp_mono; [by eapply wp_strdup|]. intros ? h1 (b & -> & Hb & H1).
    pose proof (va_acquire _ _ _ _ _ _ _ _ _ i b s H1 Hi Hh (lookup_insert_eq _ _ _)) as H2.
    rewrite delete_insert_id in H2 by done.
    eapply (HK _ _ _ (Some (b, s))); [done|].
    eapply wp_mono; [eapply va_store; [done|lia|]|by intros [] ? [_ ?]].
    intros e He. rewrite list_lookup_insert_eq in He by done. by injection He as <-.
  - eapply (HK _ _ _ None); [done|].
    eapply wp_mono; [eapply va_store; [done|lia|]|].
    { intros e He. rewrite Hi in He. by injection He as <-. }
    intros [] h2 [_ H2]. by rewrite list_insert_id.
Qed.

(** Argument pointers are [NULL] or point to a caller's string. *)
Definition valid_arg F (p : ptr) : Prop :=
  forall a, p = Some a -> exists s, F !! a = Some (VStr s).

Lemma contents_lookup es i : mjoin (contents es !! i) = mjoin (option_map snd <$> es !! i).
Proof. unfold contents. change (map ?f) with (fmap (M := list) f). by rewrite list_lookup_fmap. Qed.

Lemma contents_insert es i e : contents (<[i := e]> es) = <[i := option_map snd e]> (contents es).
Proof. unfold contents. change (map ?f) with (fmap (M := list) f). apply list_fmap_insert. Qed.

Lemma contents_app es es' : contents (es ++ es') = contents es ++ contents es'.
Proof. apply map_app. Qed.

Lemma contents_length es : length (contents es) = length es.
Proof. apply length_map. Qed.

Lemma vect_set_spec F h cap l i p :
  vect_repr F h v cap l -> 0 <= i -> valid_arg F p ->
  wp (vect_set (Some v) i p) (fun _ h' => vect_repr F h' v cap
    (if i <? Z.of_nat (length l) then <[Z.to_nat i := arg_str F p]> l else l)) h.
Proof.
  intros (d & cells & es & H & ->) [k ->]%Z_of_nat_complete Harg.
  rewrite contents_length, Nat2Z.id. unfold vect_set.
  rewrite wp_bind, wp_load_vect by done. simpl.
  destruct (Z.ltb_spec (Z.of_nat k) (Z.of_nat (length es))) as [Hlt|Hge].
  - destruct (Z.leb_spec (Z.of_nat (length es)) (Z.of_nat k)); [lia|].
    destruct (lookup_lt_is_Some_2 es k) as [e He]; [lia|].
    rewrite wp_bind, wp_load_slot by (try done; by intros []).
    rewrite wp_bind. eapply wp_mono; [by eapply va_release|]. intros [] h1 [_ H1].
    eapply (va_fill _ _ _ _ _ _ _ _ k p (store_slot (Some d) (Z.of_nat k))); [done|..].
    + apply list_lookup_insert_eq. lia.
    + by right.
    + done.
    + intros q h2 cells' e' He' Hwp. eapply wp_mono; [done|]. intros [] h3 H3.
      rewrite list_insert_insert_eq in H3.
      exists d, cells', (<[k := e']> es). rewrite length_insert, contents_insert, He'.
      split; [|done]. eapply va_weaken; [done|]. intros j [[[]| ->] ?]; done.
  - destruct (Z.leb_spec (Z.of_nat (length es)) (Z.of_nat k)); [|lia]. wp_pure. by exists d, cells, es.
Qed.

(** One more slot comes into use, empty and stale. *)
Lemma va_extend F h d n cap cells es :
  vect_at F h v d n cap cells no_hole es -> Z.of_nat (length es) < cap ->
  vect_at F h v d n cap cells (fun j => j = length es) (es ++ [None]).
Proof.
  intros [] Hlt.
  assert (Hsub : forall j a s, (es ++ [None]) !! j = Some (Some (a, s)) -> es !! j = Some (Some (a, s))).
  { intros j a s [Hj|[_ Hj]]%lookup_app_Some; [done|]. by destruct (j - length es)%nat. }
  split; try done.
  - rewrite length_app. simpl. lia.
  - intros j e [Hj|[Hge Hj]]%lookup_app_Some Hn; [by apply va_cells0; [|intros []]|].
    destruct (j - length es)%nat eqn:E; [|done]. lia.
  - intros j a s Hj%Hsub. by eapply va_own0.
  - intros j k a s t Hj%Hsub Hk%Hsub. by eapply va_inj0.
  - intros l o. rewrite va_frame0. split.
    + intros (? & ? & ? & Hno). split_and!; try done. intros j s Hj%Hsub. by eapply Hno.
    + intros (? & ? & ? & Hno). split_and!; try done. intros j s Hj. eapply (Hno j s).
      by apply lookup_app_l_Some.
Qed.

(** The last slot in use, when it owns nothing, is dropped. *)
Lemma va_shrink F h d n cap cells hole es :
  vect_at F h v d n cap cells hole (es ++ [None]) ->
  vect_at F h v d n cap cells hole es.
Proof.
  intros []. assert (Hsup : forall j e, es !! j = Some e -> (es ++ [None]) !! j = Some e)
    by (intros; by apply lookup_app_l_Some).
  split; try done; eauto.
  - rewrite length_app in va_fits0. simpl in *. lia.
  - intros l o. rewrite va_frame0. split.
    + intros (? & ? & ? & Hno). split_and!; eauto. intros j s Hj%Hsup. by eapply Hno.
    + intros (? & ? & ? & Hno). split_and!; try done.
      intros j s [Hj|[_ Hj]]%lookup_app_Some; [by eapply Hno|]. by destruct (j - length es)%nat.
Qed.

(** Doubling the array: a new block takes over the slots. *)
Lemma va_realloc F h d n cap cells es s' :
  vect_at F h v d n cap cells no_hole es -> cap <= 2 ^ 30 ->
  s' = mk_vect (Some d) n (2 * cap) ->
  let h1 := Heap (h_next h) (<[v := VStruct s']> (h_objs h)) (h_oracle h) in
  wp (realloc_ptrs (Some d) (2 * cap)) (fun p h' => exists d',
    p = Some d' /\ h_objs h' !! v = Some (VStruct s') /\
    vect_at F (Heap (h_next h') (<[v := VStruct (mk_vect (Some d') n (2 * cap))]> (h_objs h')) (h_oracle h'))
      v d' n (2 * cap) (cells ++ replicate (Z.to_nat cap) SUninit) no_hole es) h1.
Proof.
  intros H Hcap -> h1. pose proof (va_neq _ _ _ _ _ _ _ _ _ H) as Hvd.
  assert (Hown : forall i a s, es !! i = Some (Some (a, s)) -> a <> v /\ a <> d)
    by (intros ??? Ho; exact (va_own_neq _ _ _ _ _ _ _ _ _ _ _ _ H Ho)).
  pose proof (heap_wf_fresh h (va_wf _ _ _ _ _ _ _ _ _ H)) as Hf. destruct H.
  assert (Hnv : h_next h <> v) by congruence. assert (Hnd : h_next h <> d) by congruence.
  unfold realloc_ptrs, load_ptrs. wp_heap. simpl. exists (VPtrs cells).
  split; [by simplify_map_eq|]. wp_pure.
  destruct (Z.eqb_spec (2 * cap) 0); [lia|]. wp_pure. rewrite wp_malloc. simpl. rewrite va_oracle0.
  wp_heap. simpl. split; [by simplify_map_eq|]. exists (h_next h). split; [done|].
  split; [by simplify_map_eq|].
  replace (take _ _) with (cells ++ replicate (Z.to_nat cap) SUninit).
  2: { rewrite take_ge by (rewrite length_app, length_replicate; lia). do 2 f_equal. lia. }
  split; simpl; try done.
  - heap_wf_tac va_wf0.
  - by simplify_map_eq.
  - by simplify_map_eq.
  - rewrite length_app, length_replicate. lia.
  - lia.
  - lia.
  - intros i e Hi Hn. by apply lookup_app_l_Some, va_cells0.
  - intros i a s Hi. destruct (Hown _ _ _ Hi). apply va_own0 in Hi.
    rewrite lookup_insert_ne, lookup_delete_ne, !lookup_insert_ne; congruence.
  - intros l o. rewrite va_frame0.
    destruct (decide (l = v)) as [->|]; [naive_solver|].
    destruct (decide (l = d)) as [->|]; [simplify_map_eq; naive_solver|].
    rewrite lookup_insert_ne, lookup_delete_ne by done.
    destruct (decide (l = h_next h)) as [->|]; [simplify_map_eq; naive_solver|].
    rewrite !lookup_insert_ne by done. naive_solver.
Qed.

Lemma vect_grow_spec F h d cap cells es :
  vect_at F h v d (Z.of_nat (length es)) cap cells no_hole es -> Z.of_nat (length es) <= 2 ^ 30 ->
  wp (vect_grow (Some v)) (fun ok h' => ok = true /\ exists d' cells',
    vect_at F h' v d' (Z.of_nat (length es))
      (if Z.of_nat (length es) =? cap then 2 * cap else cap) cells' no_hole es) h.
Proof.
  intros H Hlen. unfold vect_grow. rewrite wp_bind, wp_load_vect by done. simpl.
  pose proof (va_cap _ _ _ _ _ _ _ _ _ H). pose proof (va_v _ _ _ _ _ _ _ _ _ H) as Hv.
  destruct (Z.eqb_spec (Z.of_nat (length es)) cap) as [E|E]; [|wp_pure; eauto].
  wp_pure. unfold update_vect at 1. rewrite wp_bind, wp_load_vect by done. rewrite wp_store, Hv.
  split; [done|]. simpl. unfold set_capacity. simpl.
  rewrite (u32_small (cap * 2)), (Z.mul_comm cap) by (unfold UINT_MAX; lia).
  rewrite wp_bind. unfold load_vect at 1. rewrite wp_bind, wp_load. simpl.
  eexists. split; [apply lookup_insert_eq|]. wp_pure. simpl.
  eapply wp_mono; [exact (va_realloc F h d _ cap cells es _ H ltac:(lia) eq_refl)|].
  intros ? h2 (d' & -> & Hv2 & H2). wp_pure. unfold update_vect, load_vect. wp_heap.
  eexists. split; [exact Hv2|]. wp_heap. rewrite Hv2. split; [done|]. split; [done|]. eauto.
Qed.

Lemma vect_add_spec F h cap l p :
  vect_repr F h v cap l -> Z.of_nat (length l) < 2 ^ 30 -> valid_arg F p ->
  wp (vect_add (Some v) p) (fun _ h' =>
    vect_repr F h' v (if Z.of_nat (length l) =? cap then 2 * cap else cap) (l ++ [arg_str F p])) h.
Proof.
  intros (d & cells & es & H & ->) Hlen Harg. rewrite contents_length in *. unfold vect_add.
  pose proof (va_fits _ _ _ _ _ _ _ _ _ H) as Hfit. pose proof (va_cap _ _ _ _ _ _ _ _ _ H).
  wp_pure. eapply wp_mono; [eapply vect_grow_spec; [done|lia]|].
  intros ok h1 (-> & d1 & cells1 & H1). set (cap1 := if Z.of_nat (length es) =? cap then 2 * cap else cap) in *. simpl.
  wp_pure. rewrite wp_load_vect by done. simpl.
  eapply va_extend in H1; [|subst cap1; case_Z; lia].
  eapply (va_fill _ _ _ _ _ _ _ _ (length es) p
    (fun q => do! store_slot (Some d1) (Z.of_nat (length es)) q in
       update_vect (Some v) (fun s => set_size (u32 (size s + 1)) s))); [done|..].
  - by rewrite lookup_app_r, Nat.sub_diag by lia.
  - done.
  - done.
  - intros q h2 cells2 e He Hwp. wp_pure. eapply wp_mono; [done|]. intros [] h3 H3.
    rewrite insert_app_r_alt, Nat.sub_diag in H3 by lia. simpl in H3.
    eapply wp_mono; [eapply va_update_size; [done|]|].
    { unfold set_size. simpl. rewrite u32_small by (unfold UINT_MAX; lia). reflexivity. }
    intros [] h4 H4. exists d1, cells2, (es ++ [e]). rewrite contents_app, length_app.
    simpl. rewrite He. split; [|done]. rewrite Nat2Z.inj_add.
    eapply va_weaken; [done|]. intros j [-> ?]. done.
Qed.

Lemma vect_remove_last_spec F h cap l :
  vect_repr F h v cap l ->
  wp (vect_remove_last (Some v)) (fun _ h' => vect_repr F h' v cap (take (length l - 1) l)) h.
Proof.
  intros (d & cells & es & H & ->). rewrite contents_length. unfold vect_remove_last.
  pose proof (va_fits _ _ _ _ _ _ _ _ _ H) as Hfit. pose proof (va_cap _ _ _ _ _ _ _ _ _ H).
  rewrite wp_bind, wp_load_vect by done. simpl.
  destruct es as [|e es' _] using rev_ind; [wp_pure; by exists d, cells, []|].
  rewrite length_app in *. simpl in *. destruct (Z.eqb_spec (Z.of_nat (length es' + 1)) 0); [lia|].
  rewrite u32_small by (unfold UINT_MAX; lia).
  replace (Z.of_nat (length es' + 1) - 1) with (Z.of_nat (length es')) by lia.
  assert (He : (es' ++ [e]) !! length es' = Some e) by (by rewrite lookup_app_r, Nat.sub_diag by lia).
  rewrite wp_bind, wp_load_slot by (try done; by intros []).
  rewrite wp_bind. eapply wp_mono; [by eapply va_release|]. intros [] h1 [_ H1].
  rewrite insert_app_r_alt, Nat.sub_diag in H1 by lia. simpl in H1.
  rewrite wp_bind. eapply wp_mono; [eapply va_store; [done|lia|]|].
  { intros e' He'. rewrite lookup_app_r, Nat.sub_diag in He' by lia. by injection He' as <-. }
  intros [] h2 [_ H2]. eapply wp_mono; [eapply va_update_size; [done|]|].
  { unfold set_size. simpl. rewrite u32_small by (unfold UINT_MAX; lia). reflexivity. }
  intros [] h3 H3. apply va_shrink in H3.
  exists d, (<[length es' := SPtr None]> cells), es'.
  rewrite contents_app, take_app_le, take_ge by (rewrite contents_length; lia).
  split; [|done]. replace (Z.of_nat (length es' + 1) - 1) with (Z.of_nat (length es')) in H3 by lia.
  eapply va_weaken; [done|]. intros j [[[]| ->] ?]; done.
Qed.

(** A caller's string is freed by the caller. *)
Lemma va_free_caller F h d n cap cells hole es a s :
  vect_at F h v d n cap cells hole es -> F !! a = Some (VStr s) ->
  wp (free (Some a)) (fun _ h' => vect_at (delete a F) h' v d n cap cells hole es) h.
Proof.
  intros H Ha. pose proof (va_F_lookup _ _ _ _ _ _ _ _ _ _ _ H Ha) as Ea. destruct H.
  rewrite wp_free, Ea. split; [done|]. apply va_frame0 in Ha as (_ & Hv & Hd & Hno).
  split; simpl; try done.
  - heap_wf_tac va_wf0.
  - by simplify_map_eq.
  - by simplify_map_eq.
  - intros i b t Hi. rewrite lookup_delete_ne; [by eapply va_own0|]. intros ->. by eapply Hno.
  - intros l o. rewrite !lookup_delete_Some, va_frame0. naive_solver.
Qed.

Lemma vect_get_spec F h cap l i :
  vect_repr F h v cap l -> 0 <= i ->
  wp (let! p := vect_get (Some v) i in read_opt p)
     (fun r h' => r = mjoin (l !! Z.to_nat i) /\ vect_repr F h' v cap l) h.
Proof.
  intros (d & cells & es & H & ->) [k ->]%Z_of_nat_complete. rewrite Nat2Z.id, contents_lookup.
  unfold vect_get. rewrite !wp_bind, wp_load_vect by done. simpl.
  destruct (Z.leb_spec (Z.of_nat (length es)) (Z.of_nat k)) as [Hge|Hlt].
  - wp_pure. rewrite (lookup_ge_None_2 es k) by lia. split; [done|]. by exists d, cells, es.
  - destruct (lookup_lt_is_Some_2 es k) as [e He]; [lia|].
    rewrite wp_load_slot by (try done; by intros []). rewrite He.
    destruct e as [[a s]|]; simpl; [|wp_pure; split; [done|]; by exists d, cells, es].
    pose proof (va_own _ _ _ _ _ _ _ _ _ H _ _ _ He) as Ea. unfold load_str. wp_heap.
    eexists. split; [done|]. wp_pure. split; [done|]. by exists d, cells, es.
Qed.

Lemma vect_get_copy_spec F h cap l i :
  vect_repr F h v cap l -> 0 <= i ->
  wp (let! p := vect_get_copy (Some v) i in
      let! r := read_opt p in do! free p in ret r)
     (fun r h' => r = mjoin (l !! Z.to_nat i) /\ vect_repr F h' v cap l) h.
Proof.
  intros (d & cells & es & H & ->) [k ->]%Z_of_nat_complete. rewrite Nat2Z.id, contents_lookup.
  assert (HR : vect_repr F h v cap (contents es)) by (by exists d, cells, es).
  unfold vect_get_copy. rewrite !wp_bind, wp_load_vect by done. simpl.
  destruct (Z.leb_spec (Z.of_nat (length es)) (Z.of_nat k)) as [Hge|Hlt].
  - wp_pure. rewrite (lookup_ge_None_2 es k) by lia. simpl. by wp_heap.
  - destruct (lookup_lt_is_Some_2 es k) as [e He]; [lia|].
    rewrite wp_bind, wp_load_slot by (try done; by intros []). rewrite He.
    destruct e as [[a s]|]; simpl; [|by wp_heap].
    pose proof (va_own _ _ _ _ _ _ _ _ _ H _ _ _ He) as Ea. unfold strdup, load_str.
    wp_heap. eexists. split; [done|]. wp_pure.
    eapply wp_mono; [by eapply va_alloc|]. intros ? h1 (b & -> & Hb & H1).
    pose proof (va_F_lookup _ _ _ _ _ _ _ _ _ _ _ H1 (lookup_insert_eq _ _ _)) as Eb.
    wp_pure. unfold read_opt, load_str. wp_heap. eexists. split; [done|]. wp_pure.
    eapply wp_mono; [eapply va_free_caller; [done|apply lookup_insert_eq]|].
    intros [] h2 H2. wp_pure. rewrite delete_insert_id in H2 by done.
    split; [done|]. by exists d, cells, es.
Qed.

Lemma free_slots_spec F d n0 cap cells k : forall i h es,
  vect_at F h v d n0 cap cells (fun j => (j < i)%nat) es -> (i + k = length es)%nat ->
  (forall j e, es !! j = Some e -> (j < i)%nat -> e = None) ->
  wp (free_slots (Some v) (Z.of_nat i) k) (fun _ h' => exists hole es',
    vect_at F h' v d n0 cap cells hole es' /\ forall j e, es' !! j = Some e -> e = None) h.
Proof.
  induction k as [|k IH]; intros i h es H Hik Hnone; simpl.
  - wp_pure. eexists _, es. split; [done|]. intros j e Hj.
    apply (Hnone _ _ Hj). apply lookup_lt_Some in Hj. lia.
  - destruct (lookup_lt_is_Some_2 es i) as [e He]; [lia|].
    rewrite wp_bind, wp_load_vect by done. simpl.
    rewrite wp_bind, (wp_load_slot _ _ _ _ _ _ _ _ _ _ _ H He) by lia.
    rewrite wp_bind. eapply wp_mono; [by eapply va_release|]. intros [] h1 [_ H1].
    replace (Z.of_nat i + 1) with (Z.of_nat (S i)) by lia.
    apply (IH (S i) h1 (<[i := None]> es)).
    + eapply va_weaken; [done|]. intros j Hj. simpl in *. lia.
    + rewrite length_insert. lia.
    + intros j e' Hj Hlt. destruct (decide (j = i)) as [->|].
      * rewrite list_lookup_insert_eq in Hj by lia. by injection Hj as <-.
      * rewrite list_lookup_insert_ne in Hj by done. apply (Hnone _ _ Hj). lia.
Qed.

Lemma vect_delete_spec F h cap l :
  vect_repr F h v cap l -> wp (vect_delete (Some v)) (fun _ h' => h_objs h' = F) h.
Proof.
  intros (d & cells & es & H & ->). unfold vect_delete.
  rewrite wp_bind, wp_load_vect by done. simpl. rewrite Nat2Z.id, wp_bind.
  eapply wp_mono.
  { eapply (free_slots_spec F d _ cap cells _ 0%nat h es); [|lia|intros; lia].
    eapply va_weaken; [done|]. by intros i []. }
  intros [] h1 (hole & es' & H1 & Hnone). pose proof (va_neq _ _ _ _ _ _ _ _ _ H1) as Hvd.
  destruct H1. wp_heap. rewrite va_d0. split; [done|]. simpl.
  split; [rewrite lookup_delete_ne by done; by rewrite va_v0|].
  apply map_eq. intros i. destruct (decide (i = v)) as [->|]; simplify_map_eq.
  - destruct (F !! v) eqn:E; [|done]. apply va_frame0 in E. naive_solver.
  - destruct (decide (i = d)) as [->|]; simplify_map_eq.
    + destruct (F !! d) eqn:E; [|done]. apply va_frame0 in E. naive_solver.
    + apply option_eq. intros o. rewrite va_frame0. split; [|naive_solver].
      intros ?. split_and!; try done. intros j s Hj. by apply Hnone in Hj.
Qed.

Lemma vect_size_spec F h cap l :
  vect_repr F h v cap l -> vect_size (Some v) h = Ok (Z.of_nat (length l), h).
Proof.
  intros (d & cells & es & H & ->). rewrite contents_length. pose proof (va_v _ _ _ _ _ _ _ _ _ H) as E.
  unfold vect_size, load_vect, bind, load. by rewrite E.
Qed.

Lemma vect_current_capacity_spec F h cap l :
  vect_repr F h v cap l -> vect_current_capacity (Some v) h = Ok (cap, h).
Proof.
  intros (d & cells & es & H & ->). pose proof (va_v _ _ _ _ _ _ _ _ _ H) as E.
  unfold vect_current_capacity, load_vect, bind, load. by rewrite E.
Qed.

(** Calls the refinement covers: unsigned indices and caller-owned arguments. *)
Definition valid_op F (o : vop) : Prop :=
  match o with
  | Add p => valid_arg F p
  | SetAt i p => 0 <= i /\ valid_arg F p
  | Get i | GetCopy i => 0 <= i
  | RemoveLast | Size | Capacity => True
  end.

Lemma vect_step_refines F h cap l o :
  vect_repr F h v cap l -> Z.of_nat (length l) < 2 ^ 30 -> valid_op F o ->
  wp (vect_step (Some v) o) (fun r h' =>
    let '(r', (cap', l')) := seq_step F cap l o in
    r = r' /\ vect_repr F h' v cap' l') h.
Proof.
  intros HR Hlen Hop. destruct o as [p|i p| |i|i| |]; simpl in *.
  - wp_pure. eapply wp_mono; [by apply vect_add_spec|]. intros [] h' ?. by wp_pure.
  - destruct Hop. wp_pure. eapply wp_mono; [by apply vect_set_spec|]. intros [] h' ?. by wp_pure.
  - wp_pure. eapply wp_mono; [by apply vect_remove_last_spec|]. intros [] h' ?. by wp_pure.
  - pose proof (vect_get_spec _ _ _ _ _ HR Hop) as H. rewrite wp_bind in H.
    rewrite wp_bind. eapply wp_mono; [exact H|]. intros p h1 H1. wp_pure.
    eapply wp_mono; [exact H1|]. intros r h2 [-> ?]. by wp_pure.
  - pose proof (vect_get_copy_spec _ _ _ _ _ HR Hop) as H. rewrite wp_bind in H.
    rewrite wp_bind. eapply wp_mono; [exact H|]. intros p h1 H1. cbv beta in H1. rewrite wp_bind in H1. rewrite wp_bind.
    eapply wp_mono; [exact H1|]. intros r h2 H2. cbv beta in H2. rewrite wp_bind in H2. rewrite wp_bind.
    eapply wp_mono; [exact H2|]. intros [] h3 [-> ?]. by wp_pure.
  - wp_pure. rewrite (wp_eq _ _ _ _ _ (vect_size_spec _ _ _ _ HR)). by wp_pure.
  - wp_pure. rewrite (wp_eq _ _ _ _ _ (vect_current_capacity_spec _ _ _ _ HR)). by wp_pure.
Qed.

Lemma seq_step_length F cap l o :
  (length (snd (snd (seq_step F cap l o))) <= S (length l))%nat.
Proof.
  destruct o; simpl; try lia.
  - rewrite length_app. simpl. lia.
  - case_Z; rewrite ?length_insert; lia.
  - rewrite length_take. lia.
Qed.

Lemma vect_run_refines F ops : forall h cap l,
  vect_repr F h v cap l -> Z.of_nat (length l + length ops) <= 2 ^ 30 -> Forall (valid_op F) ops ->
  wp (vect_run (Some v) ops) (fun rs h' =>
    let '(rs', (cap', l')) := seq_run F cap l ops in
    rs = rs' /\ vect_repr F h' v cap' l') h.
Proof.
  induction ops as [|o ops IH]; intros h cap l HR Hlen Hops; simpl; [by wp_pure|].
  apply Forall_cons in Hops as [Ho Hops]. simpl in Hlen.
  pose proof (vect_step_refines F h cap l o HR ltac:(lia) Ho) as Hstep.
  pose proof (seq_step_length F cap l o) as Hl.
  destruct (seq_step F cap l o) as [r [cap1 l1]]. simpl in Hl.
  wp_pure. eapply wp_mono; [exact Hstep|]. intros ? h1 [-> HR1]. wp_pure.
  eapply wp_mono; [apply (IH h1 cap1 l1); [done|lia|done]|]. intros rs h2 Hrun.
  destruct (seq_run F cap1 l1 ops) as [rs' [cap2 l2]]. destruct Hrun as [-> ?]. by wp_pure.
Qed.
End specs.

(** ** Creation *)

Lemma vect_new_spec (h : heap vobj) garbage :
  heap_wf h -> h_oracle h = [] ->
  wp (vect_new garbage) (fun r h' => exists v, r = Some v /\ vect_repr (h_objs h) h' v 2 []) h.
Proof.
  intros Hwf Hor. pose proof (heap_wf_fresh h Hwf) as Fv.
  assert (Fd : h_objs h !! S (h_next h) = None).
  { destruct (h_objs h !! S (h_next h)) eqn:E; [|done].
    specialize (Hwf (S (h_next h)) ltac:(eauto)). lia. }
  unfold vect_new. rewrite wp_bind, wp_malloc, Hor. rewrite wp_bind, wp_malloc. simpl.
  unfold update_vect, load_vect. wp_heap. simpl.
  do 3 (eexists; split; [by simplify_map_eq|]; wp_heap; simpl; split; [by simplify_map_eq|]).
  eexists. split; [done|]. exists (S (h_next h)), [SUninit; SUninit], [].
  split; [|done]. split; simpl; try done.
  - heap_wf_tac Hwf.
  - by simplify_map_eq.
  - by simplify_map_eq.
  - intros l o. destruct (decide (l = h_next h)) as [->|]; [rewrite Fv; naive_solver|].
    destruct (decide (l = S (h_next h))) as [->|]; [rewrite Fd; naive_solver|].
    simplify_map_eq. naive_solver.
Qed.

(** ** Main theorems *)

(** C23. Sequences of vector calls refine the list of optional strings with a
    doubling capacity.  When every allocation succeeds (as [vect_repr] says),
    for calls whose string arguments are strings of the caller or NULL and at
    most 2^30 elements, every call returns what the list gives, and the heap
    holds a vector with the new list, owning one private copy per non-NULL
    element and leaving the caller's heap [F] untouched. *)
Theorem vect_refines_list F v cap l ops (h : heap vobj) :
  vect_repr F h v cap l -> Z.of_nat (length l + length ops) <= 2 ^ 30 ->
  Forall (valid_op F) ops ->
  exists rs cap' l' h',
    seq_run F cap l ops = (rs, (cap', l')) /\
    vect_run (Some v) ops h = Ok (rs, h') /\ vect_repr F h' v cap' l'.
Proof.
  intros HR Hlen Hops. pose proof (vect_run_refines v F ops h cap l HR Hlen Hops) as H.
  destruct (seq_run F cap l ops) as [rs [cap' l']].
  apply wp_run in H as (rs' & h' & E & -> & ?). eauto 8.
Qed.

(** A whole session (vect_new, any valid calls, vect_delete) with memory
    available returns what the list semantics gives from the empty vector of
    capacity 2, and ends in exactly the initial heap: every copy is freed once
    and nothing else is. *)
Theorem vect_session_no_leak garbage ops (h : heap vobj) :
  heap_wf h -> h_oracle h = [] -> Z.of_nat (length ops) <= 2 ^ 30 ->
  Forall (valid_op (h_objs h)) ops ->
  exists h', vect_session garbage ops h
             = Ok (Some (fst (seq_run (h_objs h) VECT_INITIAL_CAPACITY [] ops)), h') /\
             h_objs h' = h_objs h.
Proof.
  intros Hwf Hor Hlen Hops. pose proof (vect_new_spec h garbage Hwf Hor) as Hnew.
  apply wp_run in Hnew as (? & h1 & E1 & v & -> & HR). unfold vect_session.
  rewrite (bind_ok _ _ _ _ _ E1). unfold VECT_INITIAL_CAPACITY.
  pose proof (vect_run_refines v _ ops h1 2 [] HR ltac:(simpl; lia) Hops) as Hrun.
  destruct (seq_run (h_objs h) 2 [] ops) as [rs [cap' l']].
  apply wp_run in Hrun as (? & h2 & E2 & -> & HR2). rewrite (bind_ok _ _ _ _ _ E2).
  apply (vect_delete_spec v) in HR2. apply wp_run in HR2 as ([] & h3 & E3 & E4).
  rewrite (bind_ok _ _ _ _ _ E3). simpl. eauto.
Qed.

(** ** Failure branches *)

Section failures.
Context (F : gmap loc vobj) (h : heap vobj) (v d : loc) (n cap : Z)
        (cells : list slot) (es : list (option (loc * string))).
Hypothesis Hat : vect_at F h v d n cap cells no_hole es.

Lemma load_vect_run orc :
  load_vect (Some v) (Heap (h_next h) (h_objs h) orc)
  = Ok (mk_vect (Some d) n cap, Heap (h_next h) (h_objs h) orc).
Proof. unfold load_vect, bind, load. simpl. by rewrite (va_v _ _ _ _ _ _ _ _ _ Hat). Qed.

Lemma load_slot_run h1 i p :
  h_objs h1 !! d = Some (VPtrs cells) -> cells !! i = Some (SPtr p) ->
  load_slot (Some d) (Z.of_nat i) h1 = Ok (p, h1).
Proof.
  intros E Hi. unfold load_slot, load_ptrs, bind, load. rewrite E. simpl.
  unfold znth. rewrite (proj2 (Z.leb_le 0 _)), Nat2Z.id, Hi by lia. done.
Qed.
End failures.

(** vect_set frees the old element before it copies the new one, so when
    strdup fails the slot keeps a dangling pointer: vect_set returns normally
    and a later vect_get of that index reads freed memory. *)
Theorem vect_set_oom_dangling F (h : heap vobj) v cap l i s a t :
  vect_repr F h v cap l -> l !! i = Some (Some s) -> F !! a = Some (VStr t) ->
  exists h', vect_set (Some v) (Z.of_nat i) (Some a) (Heap (h_next h) (h_objs h) [false])
             = Ok (tt, h') /\
             (let! p := vect_get (Some v) (Z.of_nat i) in read_opt p) h' = Err UseAfterFree.
Proof.
  intros (d & cells & es & H & ->) Hi Ha.
  unfold contents in Hi. change (map ?f) with (fmap (M := list) f) in Hi.
  rewrite list_lookup_fmap_Some in Hi. destruct Hi as ([[b s']|] & [=] & Hi).
  pose proof (lookup_lt_Some _ _ _ Hi) as Hlt.
  pose proof (va_cells _ _ _ _ _ _ _ _ _ H _ _ Hi (fun x => x)) as Hc.
  pose proof (va_own _ _ _ _ _ _ _ _ _ H _ _ _ Hi) as Hb.
  destruct (va_own_neq _ _ _ _ _ _ _ _ _ _ _ _ H Hi) as [Hbv Hbd].
  pose proof (va_F_lookup _ _ _ _ _ _ _ _ _ _ _ H Ha) as Ha'.
  assert (Hab : a <> b) by (apply (va_frame _ _ _ _ _ _ _ _ _ H) in Ha; naive_solver).
  pose proof (va_d _ _ _ _ _ _ _ _ _ H) as Hd. pose proof (va_v _ _ _ _ _ _ _ _ _ H) as Hv.
  exists (Heap (h_next h) (delete b (h_objs h)) []). unfold vect_set, vect_get. split.
  - rewrite (bind_ok _ _ _ _ _ (load_vect_run _ _ _ _ _ _ _ _ H _)). simpl.
    destruct (Z.leb_spec (Z.of_nat (length es)) (Z.of_nat i)); [lia|].
    rewrite (bind_ok _ _ _ _ _ (load_slot_run d cells (Heap _ _ _) i _ Hd Hc)).
    unfold strdup, load_str, bind, free, load. simpl. rewrite Hb. simpl.
    rewrite lookup_delete_ne, Ha' by done. done.
  - unfold load_vect, load_slot, load_ptrs, read_opt, load_str, bind, load. simpl.
    rewrite lookup_delete_ne, Hv by done. simpl.
    destruct (Z.leb_spec (Z.of_nat (length es)) (Z.of_nat i)); [lia|].
    simpl. rewrite lookup_delete_ne, Hd by done. simpl.
    unfold znth. rewrite (proj2 (Z.leb_le 0 _)), Nat2Z.id, Hc by lia. simpl.
    by rewrite lookup_delete_eq.
Qed.

(** vect_set of an element to itself ([vect_set v i (vect_get v i)]) frees
    the string and then copies it: a use after free. *)
Theorem vect_set_self_alias F (h : heap vobj) v cap l i s :
  vect_repr F h v cap l -> l !! i = Some (Some s) ->
  (let! p := vect_get (Some v) (Z.of_nat i) in vect_set (Some v) (Z.of_nat i) p) h
  = Err UseAfterFree.
Proof.
  intros (d & cells & es & H & ->) Hi.
  unfold contents in Hi. change (map ?f) with (fmap (M := list) f) in Hi.
  rewrite list_lookup_fmap_Some in Hi. destruct Hi as ([[b s']|] & [=] & Hi).
  pose proof (lookup_lt_Some _ _ _ Hi) as Hlt.
  pose proof (va_cells _ _ _ _ _ _ _ _ _ H _ _ Hi (fun x => x)) as Hc.
  pose proof (va_own _ _ _ _ _ _ _ _ _ H _ _ _ Hi) as Hb.
  pose proof (va_d _ _ _ _ _ _ _ _ _ H) as Hd.
  destruct h as [nx objs orc]. unfold vect_set, vect_get.
  rewrite !bind_assoc, (bind_ok _ _ _ _ _ (load_vect_run _ _ _ _ _ _ _ _ H _)). simpl.
  destruct (Z.leb_spec (Z.of_nat (length es)) (Z.of_nat i)); [lia|].
  rewrite (bind_ok _ _ _ _ _ (load_slot_run d cells (Heap _ _ _) i _ Hd Hc)). simpl.
  rewrite (bind_ok _ _ _ _ _ (load_vect_run _ _ _ _ _ _ _ _ H _)). simpl.
  destruct (Z.leb_spec (Z.of_nat (length es)) (Z.of_nat i)); [lia|].
  rewrite (bind_ok _ _ _ _ _ (load_slot_run d cells (Heap _ _ _) i _ Hd Hc)). simpl in *.
  unfold strdup, load_str, bind, free, load. simpl. rewrite Hb. simpl.
  by rewrite lookup_delete_eq.
Qed.

(** When the vector is full and realloc fails, vect_add returns normally
    but has already doubled the capacity field: the next vect_add, with memory
    available again, writes past the end of the array. *)
Theorem vect_add_oom_overflow F (h : heap vobj) v cap l :
  vect_repr F h v cap l -> Z.of_nat (length l) = cap -> cap <= 2 ^ 30 ->
  exists h', vect_add (Some v) None (Heap (h_next h) (h_objs h) [false]) = Ok (tt, h') /\
             h_oracle h' = [] /\ vect_add (Some v) None h' = Err OutOfBounds.
Proof.
  intros (d & cells & es & H & ->) Hlen Hcap. rewrite contents_length in Hlen.
  pose proof (va_neq _ _ _ _ _ _ _ _ _ H) as Hvd. pose proof (va_len _ _ _ _ _ _ _ _ _ H) as Hcl.
  pose proof (va_cap _ _ _ _ _ _ _ _ _ H) as Hc2.
  pose proof (va_d _ _ _ _ _ _ _ _ _ H) as Hd. pose proof (va_v _ _ _ _ _ _ _ _ _ H) as Hv.
  exists (Heap (h_next h) (<[v := VStruct (mk_vect (Some d) (Z.of_nat (length es)) (2 * cap))]> (h_objs h)) []).
  unfold vect_add, vect_grow, update_vect, load_vect, realloc_ptrs, store_slot, load_ptrs, bind, load, store, free.
  simpl. rewrite Hv. simpl. rewrite (proj2 (Z.eqb_eq _ _) Hlen). simpl. rewrite Hv. simpl. rewrite ?Hv. simpl.
  rewrite lookup_insert_eq. simpl. rewrite lookup_insert_ne, Hd by done. simpl.
  rewrite (u32_small (cap * 2)), (Z.mul_comm cap) by (unfold UINT_MAX; lia).
  destruct (Z.eqb_spec (2 * cap) 0); [lia|]. simpl. split; [done|]. split; [done|].
  rewrite lookup_insert_eq. simpl.
  destruct (Z.eqb_spec (Z.of_nat (length es)) (2 * cap)); [lia|]. simpl.
  rewrite lookup_insert_eq. simpl. rewrite lookup_insert_ne, Hd by done. simpl.
  unfold zupd. rewrite (proj2 (andb_false_iff _ _)); [done|]. right. lia.
Qed.

(** ** Witnesses *)

Definition demo_objs : gmap loc vobj :=
  <[1%nat := VStr "a"]> (<[2%nat := VStr "b"]> ∅).
Definition demo_heap : heap vobj := Heap 3 demo_objs [].
Definition demo_garbage : vect := mk_vect None 9 9.

Lemma demo_heap_wf : heap_wf demo_heap.
Proof.
  intros l [o Ho]. simpl in *. unfold demo_objs in Ho.
  destruct (decide (l = 1%nat)) as [->|]; [lia|].
  destruct (decide (l = 2%nat)) as [->|]; [lia|].
  by rewrite !lookup_insert_ne, lookup_empty in Ho by done.
Defined.

Definition demo_ops : list vop :=
  [Add (Some 1%nat); Add None; Add (Some 2%nat); SetAt 1 (Some 1%nat); GetCopy 2; RemoveLast; Capacity].

Lemma demo_ops_valid : Forall (valid_op demo_objs) demo_ops.
Proof.
  unfold demo_ops. repeat (apply Forall_cons_2; [simpl|]); [..|constructor]; try done; try split; try done;
    by intros a [= <-]; eexists.
Defined.

Lemma vect_session_no_leak_witness :
  exists h', vect_session demo_garbage demo_ops demo_heap
             = Ok (Some [RVoid; RVoid; RVoid; RVoid; RStr (Some "b"%string); RVoid; RNum 4], h') /\
             h_objs h' = demo_objs.
Proof.
  exact (vect_session_no_leak demo_garbage demo_ops demo_heap demo_heap_wf eq_refl
           ltac:(by vm_compute) demo_ops_valid).
Defined.

(** A full vector of capacity 2 with elements "a" and "b", over [demo_objs]. *)
Definition full_objs : gmap loc vobj :=
  <[3%nat := VStruct (mk_vect (Some 4%nat) 2 2)]>
  (<[4%nat := VPtrs [SPtr (Some 5%nat); SPtr (Some 6%nat)]]>
  (<[5%nat := VStr "a"]> (<[6%nat := VStr "b"]> demo_objs))).
Definition full_heap : heap vobj := Heap 7 full_objs [].

Lemma full_heap_repr : vect_repr demo_objs full_heap 3 2 [Some "a"%string; Some "b"%string].
Proof.
  exists 4%nat, [SPtr (Some 5%nat); SPtr (Some 6%nat)],
    [Some (5%nat, "a"%string); Some (6%nat, "b"%string)].
  split; [|done]. split; try done.
  - intros l [o Ho]. simpl in *. unfold full_objs, demo_objs in Ho.
    destruct (decide (l < 7)%nat) as [?|Hge]; [done|].
    rewrite !lookup_insert_ne, lookup_empty in Ho by lia. done.
  - intros [|[|i]] e; simpl; intros [= <-] _ || intros [=]; done.
  - intros [|[|i]] a s; simpl; intros [= <- <-] || intros [=]; done.
  - intros [|[|i]] [|[|j]] a s t; simpl; intros [=] [=]; subst; done || lia.
  - intros l o. simpl. unfold full_objs.
    destruct (decide (l = 3%nat)) as [->|]; [split; [done|naive_solver]|].
    destruct (decide (l = 4%nat)) as [->|]; [split; [done|naive_solver]|].
    destruct (decide (l = 5%nat)) as [->|].
    { split; [done|]. intros (_ & _ & _ & Hno). by destruct (Hno 0%nat "a"%string). }
    destruct (decide (l = 6%nat)) as [->|].
    { split; [done|]. intros (_ & _ & _ & Hno). by destruct (Hno 1%nat "b"%string). }
    rewrite !lookup_insert_ne by done. split; [|naive_solver]. intros E. split_and!; try done.
    intros [|[|i]] s; simpl; intros [=]; done.
Defined.

Lemma vect_refines_list_witness :
  exists rs cap' l' h',
    seq_run demo_objs 2 [Some "a"%string; Some "b"%string] demo_ops = (rs, (cap', l')) /\
    vect_run (Some 3%nat) demo_ops full_heap = Ok (rs, h') /\ vect_repr demo_objs h' 3 cap' l'.
Proof.
  exact (vect_refines_list demo_objs 3 2 _ demo_ops full_heap full_heap_repr
           ltac:(by vm_compute) demo_ops_valid).
Defined.

Lemma vect_set_oom_dangling_witness :
  exists h', vect_set (Some 3%nat) 1 (Some 1%nat) (Heap 7 full_objs [false]) = Ok (tt, h') /\
             (let! p := vect_get (Some 3%nat) 1 in read_opt p) h' = Err UseAfterFree.
Proof.
  exact (vect_set_oom_dangling demo_objs full_heap 3 2 _ 1%nat "b"%string 1%nat "a"%string
           full_heap_repr eq_refl eq_refl).
Defined.

Lemma vect_set_self_alias_witness :
  (let! p := vect_get (Some 3%nat) 0 in vect_set (Some 3%nat) 0 p) full_heap = Err UseAfterFree.
Proof. exact (vect_set_self_alias demo_objs full_heap 3 2 _ 0%nat _ full_heap_repr eq_refl). Defined.

Lemma vect_add_oom_overflow_witness :
  exists h', vect_add (Some 3%nat) None (Heap 7 full_objs [false]) = Ok (tt, h') /\
             h_oracle h' = [] /\ vect_add (Some 3%nat) None h' = Err OutOfBounds.
Proof.
  exact (vect_add_oom_overflow demo_objs full_heap 3 2 _ full_heap_repr eq_refl
           ltac:(by vm_compute)).
Defined.
End Vect.
