(* ===== verification/Mem.v ===== *)
(** * Mem: flat byte memory

    Memory as the C code sees it through pointer casts: a range of mapped
    addresses holding bytes, with little-endian loads and stores of several
    widths, memset, memcpy and the string functions that run over it.  An
    access outside the mapped range is a fault.  The disk image of the file
    system and the heap of the allocator are such memories. *)
From stdpp Require Import base list gmap.
From Stdlib Require Import ZArith Lia.
From S2P Require Import Prelude.

Record mem := Mem {
  m_lo : Z;                (* first mapped address *)
  m_hi : Z;                (* first address past the mapping *)
  m_bytes : gmap Z Z       (* bytes written so far; the others are zero *)
}.

(** The byte at an address. *)
Definition rd (m : mem) (a : Z) : Z := default 0 (m_bytes m !! a).

Definition wr (m : mem) (a v : Z) : mem :=
  Mem (m_lo m) (m_hi m) (<[a := v mod 256]> (m_bytes m)).

(** Little-endian values of [n] bytes. *)
Fixpoint rdn (m : mem) (a : Z) (n : nat) : Z :=
  match n with
  | O => 0
  | S n => rd m a + 256 * rdn m (a + 1) n
  end.

Fixpoint wrn (m : mem) (a : Z) (n : nat) (v : Z) : mem :=
  match n with
  | O => m
  | S n => wrn (wr m a v) (a + 1) n (v / 256)
  end.

Definition mapped (m : mem) (a n : Z) : bool := (m_lo m <=? a) && (a + n <=? m_hi m).

Definition ld (n : nat) (a : Z) : M mem Z := fun m =>
  if mapped m a (Z.of_nat n) then Ok (rdn m a n, m) else Err OutOfBounds.
Definition st (n : nat) (a v : Z) : M mem unit := fun m =>
  if mapped m a (Z.of_nat n) then Ok (tt, wrn m a n v) else Err OutOfBounds.

Definition ld8 : Z -> M mem Z := ld 1.
Definition st8 : Z -> Z -> M mem unit := st 1.
(** [int] fields are signed. *)
Definition ld32 (a : Z) : M mem Z := let! v := ld 4 a in ret (i32 v).
Definition st32 : Z -> Z -> M mem unit := st 4.
Definition ld64 : Z -> M mem Z := ld 8.
Definition st64 : Z -> Z -> M mem unit := st 8.

(** memcpy to memory of the bytes of a buffer. *)
Fixpoint write_bytes (a : Z) (l : list Z) : M mem unit :=
  match l with
  | [] => ret tt
  | b :: l => do! st8 a b in write_bytes (a + 1) l
  end.

(** The memory after such a copy. *)
Fixpoint wr_list (m : mem) (a : Z) (l : list Z) : mem :=
  match l with
  | [] => m
  | b :: l => wr_list (wr m a b) (a + 1) l
  end.

(** memcpy from memory of [n] bytes. *)
Fixpoint read_bytes (a : Z) (n : nat) : M mem (list Z) :=
  match n with
  | O => ret []
  | S n =>
      let! b := ld8 a in
      let! l := read_bytes (a + 1) n in
      ret (b :: l)
  end.

(** memset of [n] bytes. *)
Definition memset (a v : Z) (n : nat) : M mem unit := write_bytes a (replicate n v).

(** [strcmp(p, s) == 0] for the string at address [a] and the string [s],
    given without its terminating zero. *)
Fixpoint streq (a : Z) (s : list Z) : M mem bool :=
  match s with
  | [] => let! b := ld8 a in ret (b =? 0)
  | c :: s =>
      let! b := ld8 a in
      if b =? c then streq (a + 1) s else ret false
  end.

(** strcpy to address [a]: the characters and the terminating zero. *)
Definition strcpy (a : Z) (s : list Z) : M mem unit := write_bytes a (s ++ [0]).

(** ** Agreement of memories *)

(** Same mapping, and same bytes outside the addresses in [P]. *)
Definition same_but (P : Z -> Prop) (m m' : mem) : Prop :=
  m_lo m' = m_lo m /\ m_hi m' = m_hi m /\ forall a, ~ P a -> rd m' a = rd m a.

(** The addresses [a], ..., [a + n - 1]. *)
Definition range (a n : Z) (x : Z) : Prop := a <= x < a + n.

Section memory.
Implicit Types (m : mem) (a v : Z) (n : nat).

Lemma rd_wr m a v x : rd (wr m a v) x = if x =? a then v mod 256 else rd m x.
Proof.
  unfold rd, wr. simpl. destruct (Z.eqb_spec x a) as [->|].
  - by rewrite lookup_insert_eq.
  - by rewrite lookup_insert_ne.
Qed.

Lemma wrn_bounds n : forall m a v, m_lo (wrn m a n v) = m_lo m /\ m_hi (wrn m a n v) = m_hi m.
Proof.
  induction n as [|n IH]; intros m a v; simpl; [done|].
  destruct (IH (wr m a v) (a + 1) (v / 256)) as [-> ->]. done.
Qed.

Lemma rd_wrn_out n : forall m a v x, ~ range a (Z.of_nat n) x -> rd (wrn m a n v) x = rd m x.
Proof.
  unfold range. induction n as [|n IH]; intros m a v x Hx; simpl; [done|].
  rewrite IH, rd_wr by lia. destruct (Z.eqb_spec x a); [lia|done].
Qed.

Lemma wrn_same_but m a n v : same_but (range a (Z.of_nat n)) m (wrn m a n v).
Proof.
  destruct (wrn_bounds n m a v). split_and!; [done|done|]. intros x Hx. by apply rd_wrn_out.
Qed.

Lemma rdn_ext n : forall m m' a,
  (forall x, range a (Z.of_nat n) x -> rd m' x = rd m x) -> rdn m' a n = rdn m a n.
Proof.
  unfold range. induction n as [|n IH]; intros m m' a Hx; simpl; [done|].
  rewrite Hx by lia. f_equal. f_equal. apply IH. intros x ?. apply Hx. lia.
Qed.

Lemma rdn_wrn n : forall m a v, rdn (wrn m a n v) a n = v mod 256 ^ Z.of_nat n.
Proof.
  induction n as [|n IH]; intros m a v; [simpl; by rewrite Z.mod_1_r|].
  cbn [rdn wrn]. rewrite IH, rd_wrn_out, rd_wr, Z.eqb_refl by (unfold range; lia).
  rewrite Nat2Z.inj_succ, Z.pow_succ_r by lia.
  rewrite (Z.rem_mul_r v 256 (256 ^ Z.of_nat n)); [lia..|]. apply Z.pow_pos_nonneg; lia.
Qed.

Lemma rdn_same_but P m m' a n :
  same_but P m m' -> (forall x, range a (Z.of_nat n) x -> ~ P x) -> rdn m' a n = rdn m a n.
Proof. intros (_ & _ & H) HP. apply rdn_ext. auto. Qed.

Lemma mapped_same_but P m m' a k : same_but P m m' -> mapped m' a k = mapped m a k.
Proof. unfold mapped. by intros (-> & -> & _). Qed.

Lemma same_but_refl P m : same_but P m m.
Proof. by split_and!. Qed.

Lemma same_but_trans P m1 m2 m3 : same_but P m1 m2 -> same_but P m2 m3 -> same_but P m1 m3.
Proof.
  intros (H1 & H2 & H3) (H4 & H5 & H6). split_and!; [congruence..|].
  intros a Ha. by rewrite H6, H3.
Qed.

Lemma same_but_mono (P Q : Z -> Prop) m m' :
  same_but P m m' -> (forall a, P a -> Q a) -> same_but Q m m'.
Proof. intros (H1 & H2 & H3) HPQ. split_and!; [done..|]. intros a Ha. apply H3. auto. Qed.

Lemma wp_ld n a Q m : wp (ld n a) Q m <-> mapped m a (Z.of_nat n) = true /\ Q (rdn m a n) m.
Proof. unfold wp, ld. destruct (mapped _ _ _); naive_solver. Qed.

Lemma wp_st n a v Q m :
  wp (st n a v) Q m <-> mapped m a (Z.of_nat n) = true /\ Q tt (wrn m a n v).
Proof. unfold wp, st. destruct (mapped _ _ _); naive_solver. Qed.

Lemma wp_ld8 a Q m : wp (ld8 a) Q m <-> mapped m a 1 = true /\ Q (rd m a) m.
Proof.
  unfold ld8. rewrite wp_ld. cbn [rdn]. by rewrite Z.mul_0_r, Z.add_0_r.
Qed.

Lemma wp_st8 a v Q m : wp (st8 a v) Q m <-> mapped m a 1 = true /\ Q tt (wr m a v).
Proof. unfold st8. by rewrite wp_st. Qed.

Lemma wp_ld32 a Q m : wp (ld32 a) Q m <-> mapped m a 4 = true /\ Q (i32 (rdn m a 4)) m.
Proof. unfold ld32. by rewrite wp_bind, wp_ld. Qed.

Lemma wp_st32 a v Q m : wp (st32 a v) Q m <-> mapped m a 4 = true /\ Q tt (wrn m a 4 v).
Proof. unfold st32. by rewrite wp_st. Qed.

Lemma i32_rdn_wrn m a v : INT_MIN <= v <= INT_MAX -> i32 (rdn (wrn m a 4 v) a 4) = v.
Proof.
  unfold INT_MIN, INT_MAX. intros Hv. rewrite rdn_wrn. change (256 ^ Z.of_nat 4) with (2 ^ 32).
  unfold i32. rewrite Zplus_mod_idemp_l, Z.mod_small; lia.
Qed.

Lemma wr_list_bounds l : forall m a, m_lo (wr_list m a l) = m_lo m /\ m_hi (wr_list m a l) = m_hi m.
Proof.
  induction l as [|b l IH]; intros m a; simpl; [done|]. destruct (IH (wr m a b) (a + 1)) as [-> ->]. done.
Qed.

Lemma rd_wr_list l : forall m a x,
  rd (wr_list m a l) x =
  if (a <=? x) && (x <? a + Z.of_nat (length l)) then default 0 (l !! Z.to_nat (x - a)) mod 256
  else rd m x.
Proof.
  induction l as [|b l IH]; intros m a x; simpl wr_list.
  - destruct (_ && _) eqn:E; [simpl in E; lia|done].
  - rewrite IH, rd_wr, length_cons, Nat2Z.inj_succ.
    destruct (Z.eqb_spec x a) as [->|Hne].
    + destruct ((a + 1 <=? a) && _) eqn:E1; [lia|]. destruct ((a <=? a) && _) eqn:E2; [|lia].
      by rewrite Z.sub_diag.
    + destruct ((a + 1 <=? x) && _) eqn:E1; destruct ((a <=? x) && _) eqn:E2; try lia; try done.
      replace (Z.to_nat (x - a)) with (S (Z.to_nat (x - (a + 1)))) by lia. done.
Qed.

Lemma wr_list_same_but m a l : same_but (range a (Z.of_nat (length l))) m (wr_list m a l).
Proof.
  destruct (wr_list_bounds l m a). split_and!; [done..|]. intros x Hx. unfold range in Hx.
  rewrite rd_wr_list. destruct (_ && _) eqn:E; [lia|done].
Qed.

Lemma wp_write_bytes l : forall m a Q,
  mapped m a (Z.of_nat (length l)) = true -> Q tt (wr_list m a l) -> wp (write_bytes a l) Q m.
Proof.
  induction l as [|b l IH]; intros m a Q Hm HQ; simpl; [by wp_pure|].
  rewrite length_cons, Nat2Z.inj_succ in Hm. unfold mapped in Hm.
  rewrite wp_bind, wp_st8. split; [unfold mapped; lia|].
  apply IH; [|done]. unfold mapped. simpl. lia.
Qed.

Lemma wp_read_bytes n : forall m a Q,
  mapped m a (Z.of_nat n) = true ->
  Q (map (fun i => rd m (a + Z.of_nat i)) (seq 0 n)) m -> wp (read_bytes a n) Q m.
Proof.
  induction n as [|n IH]; intros m a Q Hm HQ; simpl; [by wp_pure|].
  rewrite Nat2Z.inj_succ in Hm. unfold mapped in Hm.
  rewrite wp_bind, wp_ld8. split; [unfold mapped; lia|].
  rewrite wp_bind. apply IH; [unfold mapped; lia|]. rewrite wp_ret.
  simpl in HQ. rewrite Z.add_0_r in HQ. rewrite <- seq_shift, map_map in HQ.
  erewrite map_ext; [exact HQ|]. intros i. simpl. f_equal. lia.
Qed.

Lemma mapped_spec m a k : mapped m a k = true <-> m_lo m <= a /\ a + k <= m_hi m.
Proof. unfold mapped. rewrite andb_true_iff. lia. Qed.
End memory.

Ltac wp_mem :=
  repeat first
    [ progress wp_pure | rewrite wp_ld8 | rewrite wp_st8 | rewrite wp_ld32 | rewrite wp_st32
    | rewrite wp_ld | rewrite wp_st ].
