(* ===== verification/Bitmap.v ===== *)
(** * Bitmap: File System/files/bitmap.c

    Bit arrays in byte memory.  [bitmap_get] and [bitmap_put] are the C code
    with its index macros; [bit] is the mathematical bit array they implement. *)
From stdpp Require Import base list gmap.
From Stdlib Require Import ZArith Lia.
From Stdlib Require Import Ascii.
From S2P Require Import Prelude Mem.

Module Bitmap.

(** ** Code *)

(** Shifts of an [int].  C leaves a negative count undefined, and the file system
    depends on one: get_inode(-1), at the end of every chain of inodes, shifts
    by -1.  The model gives the shift the meaning it has on the machine the code
    is compiled for, whose shift instructions use the count modulo 32. *)
Definition shr (x n : Z) : Z := Z.shiftr x (Z.land n 31).
Definition shl (x n : Z) : Z := i32 (Z.shiftl x (Z.land n 31)).

(** The macros; C division truncates. *)
Definition nth_bit_mask (n : Z) : Z := shl 1 n.
Definition byte_index (n : Z) : Z := Z.quot n 8.
Definition bit_index (n : Z) : Z := Z.rem n 8.

Definition bitmap_get (bm i : Z) : M mem Z :=
  let! b := ld8 (bm + byte_index i) in
  ret (Z.land (shr b (bit_index i)) 1).

Definition bitmap_put (bm i v : Z) : M mem unit :=
  let bit_mask := nth_bit_mask (bit_index i) in
  let! b := ld8 (bm + byte_index i) in
  if negb (v =? 0) then st8 (bm + byte_index i) (Z.lor b bit_mask)
  else
    let bit_mask := Z.lnot bit_mask in
    st8 (bm + byte_index i) (Z.land b bit_mask).

(** The characters bitmap_print writes, from bit [i] with [n] bits left. *)
Fixpoint bitmap_print_from (bm i : Z) (n : nat) : M mem (list Ascii.ascii) :=
  match n with
  | O => ret []
  | S n =>
      let! b := bitmap_get bm i in
      let! rest := bitmap_print_from bm (i + 1) n in
      let sep := if (i + 1) mod 64 =? 0 then ["010"%char]
                 else if (i + 1) mod 8 =? 0 then [" "%char] else [] in
      ret ((if negb (b =? 0) then "1"%char else "0"%char) :: sep ++ rest)
  end.

Definition bitmap_print (bm size : Z) : M mem (list Ascii.ascii) :=
  bitmap_print_from bm 0 (Z.to_nat size).

(** ** The abstract bit array *)

Definition bit (m : mem) (bm i : Z) : bool := Z.testbit (rd m (bm + i / 8)) (i mod 8).

Definition bit_val (b : bool) : Z := if b then 1 else 0.

(** ** Lemmas *)

Section bits.
Implicit Types (m : mem) (bm i j v : Z).

Lemma index_nonneg i : 0 <= i -> byte_index i = i / 8 /\ bit_index i = i mod 8.
Proof.
  intros. unfold byte_index, bit_index. rewrite Z.quot_div_nonneg, Z.rem_mod_nonneg by lia. done.
Qed.

Lemma land_31 k : 0 <= k < 8 -> Z.land k 31 = k.
Proof.
  intros. change 31 with (Z.ones 5). rewrite Z.land_ones by lia. apply Z.mod_small. lia.
Qed.

Lemma shr_bit b k : 0 <= k < 8 -> Z.land (shr b k) 1 = bit_val (Z.testbit b k).
Proof.
  intros. unfold shr, bit_val. rewrite land_31 by done. change 1 with (Z.ones 1) at 1.
  rewrite Z.land_ones, Z.shiftr_div_pow2 by lia. change (2 ^ 1) with 2.
  rewrite <- Z.bit0_mod, Z.div_pow2_bits, Z.add_0_l by lia. by destruct (Z.testbit b k).
Qed.

Lemma mask_bit k j : 0 <= k < 8 -> 0 <= j -> Z.testbit (nth_bit_mask k) j = (k =? j).
Proof.
  intros. unfold nth_bit_mask, shl. rewrite land_31, Z.shiftl_1_l by done.
  rewrite i32_small.
  - rewrite Z.pow2_bits_eqb by lia. done.
  - assert (2 ^ k <= 2 ^ 7) by (apply Z.pow_le_mono_r; lia).
    pose proof (Z.pow_pos_nonneg 2 k). unfold INT_MIN, INT_MAX. lia.
Qed.

Lemma testbit_byte x k : 0 <= k < 8 -> Z.testbit (x mod 256) k = Z.testbit x k.
Proof. intros. change 256 with (2 ^ 8). apply Z.mod_pow2_bits_low. lia. Qed.

Lemma bitmap_get_spec m bm i Q :
  0 <= i -> mapped m (bm + i / 8) 1 = true ->
  Q (bit_val (bit m bm i)) m -> wp (bitmap_get bm i) Q m.
Proof.
  intros Hi Hm HQ. unfold bitmap_get. destruct (index_nonneg i Hi) as [-> ->].
  wp_mem. split; [done|]. rewrite shr_bit; [done|]. apply Z.mod_pos_bound. lia.
Qed.

(** Memory after a [bitmap_put] of bit [i]. *)
Definition bit_set (bm i : Z) (b : bool) (m m' : mem) : Prop :=
  same_but (range (bm + i / 8) 1) m m' /\
  (forall j, 0 <= j -> bit m' bm j = if j =? i then b else bit m bm j).

Lemma bitmap_put_spec m bm i v :
  0 <= i -> mapped m (bm + i / 8) 1 = true ->
  wp (bitmap_put bm i v) (fun _ m' => bit_set bm i (negb (v =? 0)) m m') m.
Proof.
  intros Hi Hm. unfold bitmap_put. destruct (index_nonneg i Hi) as [-> ->].
  pose proof (Z.mod_pos_bound i 8 ltac:(lia)) as Hk.
  assert (Hset : forall w, (forall k, 0 <= k < 8 ->
      Z.testbit w k = if k =? i mod 8 then negb (v =? 0) else Z.testbit (rd m (bm + i / 8)) k) ->
      bit_set bm i (negb (v =? 0)) m (wr m (bm + i / 8) w)).
  { intros w Hw. split; [apply (wrn_same_but m _ 1 w)|]. intros j Hj. unfold bit.
    pose proof (Z.mod_pos_bound j 8 ltac:(lia)). rewrite rd_wr.
    destruct (Z.eqb_spec (bm + j / 8) (bm + i / 8)) as [E|E].
    - rewrite testbit_byte, Hw by done. replace (bm + i / 8) with (bm + j / 8) by lia.
      pose proof (Z.div_mod i 8). pose proof (Z.div_mod j 8).
      destruct (Z.eqb_spec (j mod 8) (i mod 8)); destruct (Z.eqb_spec j i); done || congruence || lia.
    - destruct (Z.eqb_spec j i); [congruence|done]. }
  wp_mem. split; [done|]. destruct (v =? 0); simpl in *; rewrite wp_st8; (split; [done|]); apply Hset.
  - intros k Hkk. rewrite Z.land_spec, Z.lnot_spec, mask_bit by lia.
    rewrite (Z.eqb_sym (i mod 8)). destruct (k =? i mod 8); simpl; by rewrite ?andb_true_r, ?andb_false_r.
  - intros k Hkk. rewrite Z.lor_spec, mask_bit by lia.
    rewrite (Z.eqb_sym (i mod 8)). destruct (k =? i mod 8); simpl; by rewrite ?orb_true_r, ?orb_false_r.
Qed.

Lemma bit_same_but P m m' bm i :
  same_but P m m' -> ~ P (bm + i / 8) -> bit m' bm i = bit m bm i.
Proof. intros (_ & _ & H) HP. unfold bit. by rewrite H. Qed.
End bits.

(** bitmap_put then bitmap_get: reading back the bit that was put gives the
    truth value of [v], and every other bit reads as before; the bytes outside
    the one that holds the bit do not change. *)
Theorem bitmap_put_get m bm i j v :
  0 <= i -> 0 <= j ->
  mapped m (bm + i / 8) 1 = true -> mapped m (bm + j / 8) 1 = true ->
  exists m', (do! bitmap_put bm i v in bitmap_get bm j) m
             = Ok (if j =? i then bit_val (negb (v =? 0)) else bit_val (bit m bm j), m') /\
             same_but (range (bm + i / 8) 1) m m'.
Proof.
  intros Hi Hj Hmi Hmj.
  assert (H : wp (do! bitmap_put bm i v in bitmap_get bm j)
    (fun r m' => r = (if j =? i then bit_val (negb (v =? 0)) else bit_val (bit m bm j)) /\
                 same_but (range (bm + i / 8) 1) m m') m).
  { rewrite wp_bind. eapply wp_mono; [by apply bitmap_put_spec|]. intros [] m' [Hs Hb].
    apply bitmap_get_spec; [done|by rewrite (mapped_same_but _ _ _ _ _ Hs)|].
    split; [|done]. rewrite Hb by done. by destruct (j =? i). }
  apply wp_run in H as (r & m' & E & -> & ?). eauto.
Qed.

Lemma bitmap_put_get_witness :
  exists m', (do! bitmap_put 32 10 1 in bitmap_get 32 10) (Mem 0 64 ∅) = Ok (1, m') /\
             same_but (range (32 + 10 / 8) 1) (Mem 0 64 ∅) m'.
Proof.
  exact (bitmap_put_get (Mem 0 64 ∅) 32 10 10 1 ltac:(lia) ltac:(lia) eq_refl eq_refl).
Defined.
End Bitmap.
