(* ===== verification/Blocks.v ===== *)
(** * Blocks: File System/files/blocks.c

    The disk image is a byte memory mapped at address 0 ([blocks_base] is the
    origin); block [n] is the 4096 bytes from [4096 * n].  Block 0 holds the
    block bitmap (32 bytes) and, right after it, the inode bitmap.  The block
    allocator is offered to the other components through [Allocator]. *)
From stdpp Require Import base list gmap.
From Stdlib Require Import ZArith Lia.
From S2P Require Import Prelude Mem Bitmap.
Import Bitmap.

Module Blocks.

(** ** Code *)

Definition BLOCK_COUNT : Z := 256.
Definition BLOCK_SIZE : Z := 4096.
Definition NUFS_SIZE : Z := BLOCK_SIZE * BLOCK_COUNT.
Definition INODE_COUNT : Z := 256.
(** [sizeof(inode_t)]: five ints, padding to 24, two 8-byte time_t. *)
Definition INODE_SIZE : Z := 40.
Definition BLOCK_BITMAP_SIZE : Z := BLOCK_COUNT / 8.
Definition INODE_BITMAP_SIZE : Z := INODE_COUNT / 8.

Definition bytes_to_blocks (bytes : Z) : Z :=
  let quo := Z.quot bytes BLOCK_SIZE in
  if Z.rem bytes BLOCK_SIZE =? 0 then quo else quo + 1.

Definition blocks_get_block (bnum : Z) : Z := BLOCK_SIZE * bnum.
Definition get_blocks_bitmap : Z := blocks_get_block 0.
Definition get_inode_bitmap : Z := blocks_get_block 0 + BLOCK_BITMAP_SIZE.

(** The memory that open, ftruncate and mmap give for an image whose bytes are
    [image]: exactly [NUFS_SIZE] bytes, zero where the file had none. *)
Definition map_image (image : gmap Z Z) : mem := Mem 0 NUFS_SIZE image.

(** [for (i = 2; (i-2) * BLOCK_SIZE < INODE_COUNT * INODE_SIZE; ++i)] *)
Fixpoint mark_inode_table (fuel : nat) (i : Z) : M mem unit :=
  match fuel with
  | O => fail OutOfFuel
  | S fuel =>
      if (i - 2) * BLOCK_SIZE <? INODE_COUNT * INODE_SIZE then
        do! bitmap_put get_blocks_bitmap i 1 in
        mark_inode_table fuel (i + 1)
      else ret tt
  end.

(** blocks_init once the image is mapped. *)
Definition blocks_init : M mem unit :=
  let bbm := get_blocks_bitmap in
  do! bitmap_put bbm 0 1 in
  do! bitmap_put bbm 1 1 in
  mark_inode_table (Z.to_nat BLOCK_COUNT) 2.

(** blocks_free unmaps the image: no address is valid afterwards. *)
Definition blocks_free : M mem unit := modify (fun m => Mem 0 0 (m_bytes m)).

(** The loop of alloc_block from [ii] with [n] blocks left to look at. *)
Fixpoint alloc_block_from (n : nat) (ii : Z) : M mem Z :=
  match n with
  | O => ret (-1)
  | S n =>
      let! b := bitmap_get get_blocks_bitmap ii in
      if b =? 0 then do! bitmap_put get_blocks_bitmap ii 1 in ret ii
      else alloc_block_from n (ii + 1)
  end.

Definition alloc_block : M mem Z := alloc_block_from (Z.to_nat (BLOCK_COUNT - 1)) 1.

Definition free_block (bnum : Z) : M mem unit := bitmap_put get_blocks_bitmap bnum 0.

(** ** Allocator interface *)

(** A mapped disk image. *)
Definition image (m : mem) : Prop := m_lo m = 0 /\ m_hi m = NUFS_SIZE.

(** What a first-fit bitmap allocator of the indices [first .. limit - 1]
    promises: it returns the smallest index that is not live and makes it live,
    or -1 when all are live, and changes nothing but its own bytes [meta]. *)
Class Allocator (alloc : M mem Z) (release : Z -> M mem unit) (live : mem -> Z -> bool)
    (first limit : Z) (meta : Z -> Prop) := {
  allocator_alloc : forall m, image m ->
    wp alloc (fun r m' =>
      (r = -1 /\ m' = m /\ forall i, first <= i < limit -> live m i = true) \/
      (first <= r < limit /\ live m r = false /\
       (forall i, first <= i < r -> live m i = true) /\
       same_but meta m m' /\
       forall i, 0 <= i < limit -> live m' i = if i =? r then true else live m i)) m;
  allocator_release : forall m i, image m -> 0 <= i < limit ->
    wp (release i) (fun _ m' =>
      same_but meta m m' /\
      forall j, 0 <= j < limit -> live m' j = if j =? i then false else live m j) m;
  allocator_meta : forall m m' i, same_but (fun a => ~ meta a) m m' -> 0 <= i < limit ->
    live m' i = live m i
}.

Definition block_used (m : mem) (i : Z) : bool := bit m get_blocks_bitmap i.
Definition block_meta : Z -> Prop := range get_blocks_bitmap BLOCK_BITMAP_SIZE.

(** ** Lemmas *)

Lemma image_mapped m a k : image m -> 0 <= a -> a + k <= NUFS_SIZE -> mapped m a k = true.
Proof. intros [Hlo Hhi] ??. apply mapped_spec. lia. Qed.

Lemma image_same_but P m m' : image m -> same_but P m m' -> image m'.
Proof. intros [? ?] (? & ? & _). split; congruence. Qed.

Lemma bit_in_bitmap i bm : 0 <= i < 256 -> range bm 32 (bm + i / 8).
Proof.
  intros. unfold range. pose proof (Z.div_pos i 8). pose proof (Z.div_lt_upper_bound i 8 32). lia.
Qed.

Lemma bitmap_index_mapped m i bm :
  image m -> 0 <= i < 256 -> 0 <= bm <= 4096 -> mapped m (bm + i / 8) 1 = true.
Proof.
  intros Hm Hi Hbm. pose proof (bit_in_bitmap i bm Hi) as H. unfold range in H.
  apply image_mapped; [done|lia|]. change NUFS_SIZE with 1048576. lia.
Qed.

#[export] Hint Resolve bitmap_index_mapped image_same_but : machine.

(** A put in the 32-byte bitmap at [bm], seen through the bits below 256. *)
Lemma bit_set_meta bm i b m m' :
  0 <= i < 256 -> bit_set bm i b m m' ->
  same_but (range bm 32) m m' /\
  forall j, 0 <= j < 256 -> bit m' bm j = if j =? i then b else bit m bm j.
Proof.
  intros Hi [Hs Hb]. split; [|intros; apply Hb; lia].
  eapply same_but_mono; [done|]. intros a Ha. pose proof (bit_in_bitmap i bm Hi).
  unfold range in *. lia.
Qed.

Lemma alloc_block_from_spec n : forall ii m,
  image m -> 1 <= ii -> ii + Z.of_nat n = BLOCK_COUNT ->
  (forall i, 1 <= i < ii -> block_used m i = true) ->
  wp (alloc_block_from n ii) (fun r m' =>
    (r = -1 /\ m' = m /\ forall i, 1 <= i < BLOCK_COUNT -> block_used m i = true) \/
    (1 <= r < BLOCK_COUNT /\ block_used m r = false /\
     (forall i, 1 <= i < r -> block_used m i = true) /\
     same_but block_meta m m' /\
     forall i, 0 <= i < BLOCK_COUNT -> block_used m' i = if i =? r then true else block_used m i)) m.
Proof.
  unfold BLOCK_COUNT. induction n as [|n IH]; intros ii m Hm Hii Hn Hall; simpl.
  - wp_pure. left. split_and!; [done..|]. intros i ?. apply Hall. lia.
  - wp_pure. apply bitmap_get_spec; [lia|apply bitmap_index_mapped; [done|lia|by vm_compute]|].
    fold (block_used m ii). destruct (block_used m ii) eqn:E; simpl.
    + apply IH; [done|lia..|]. intros i ?. destruct (Z.eq_dec i ii) as [->|]; [done|]. apply Hall. lia.
    + wp_pure. eapply wp_mono.
      { apply bitmap_put_spec; [lia|apply bitmap_index_mapped; [done|lia|by vm_compute]]. }
      intros [] m' Hset. wp_pure. right. apply bit_set_meta in Hset as [Hs Hb]; [|lia].
      split_and!; [lia|lia|done|done|done|]. intros i Hi. by apply Hb.
Qed.

#[export] Instance block_allocator :
  Allocator alloc_block free_block block_used 1 BLOCK_COUNT block_meta.
Proof.
  split.
  - intros m Hm. apply alloc_block_from_spec; [done|lia|by vm_compute|]. intros. lia.
  - intros m i Hm Hi. eapply wp_mono.
    { apply bitmap_put_spec; [lia|apply bitmap_index_mapped; [done|done|by vm_compute]]. }
    intros [] m' Hset. by apply bit_set_meta in Hset.
  - intros m m' i Hs Hi. eapply bit_same_but; [done|]. intros Hn. apply Hn, bit_in_bitmap, Hi.
Qed.

(** ** Theorems *)

(** alloc_block is first fit: on a mapped image it returns the smallest
    block number from 1 to 255 whose bit is clear and sets exactly that bit,
    or returns -1 and changes nothing when there is none; no byte outside the
    block bitmap changes in either case. *)
Theorem alloc_block_first_fit m :
  image m ->
  exists r m', alloc_block m = Ok (r, m') /\ same_but block_meta m m' /\
    ((r = -1 /\ m' = m /\ forall i, 1 <= i < BLOCK_COUNT -> block_used m i = true) \/
     (1 <= r < BLOCK_COUNT /\ block_used m r = false /\
      (forall i, 1 <= i < r -> block_used m i = true) /\
      forall i, 0 <= i < BLOCK_COUNT -> block_used m' i = if i =? r then true else block_used m i)).
Proof.
  intros Hm. pose proof (allocator_alloc m Hm) as H. apply wp_run in H as (r & m' & E & H).
  exists r, m'. split; [done|]. destruct H as [(-> & -> & ?)|(? & ? & ? & ? & ?)].
  - split; [apply same_but_refl|]. by left.
  - split; [done|]. by right.
Qed.

(** Freeing a block that alloc_block returned and allocating again gives
    the same block back: alloc_block, free_block and alloc_block in sequence
    return the block of the first call twice. *)
Theorem alloc_free_alloc m r m1 :
  image m -> alloc_block m = Ok (r, m1) -> r <> -1 ->
  exists m2 m3, free_block r m1 = Ok (tt, m2) /\
    (forall i, 0 <= i < BLOCK_COUNT -> block_used m2 i = block_used m i) /\
    alloc_block m2 = Ok (r, m3).
Proof.
  intros Hm E Hr. pose proof (allocator_alloc m Hm) as H. rewrite (wp_eq _ _ _ _ _ E) in H.
  destruct H as [(-> & _)|(Hr1 & Hfree & Hall & Hs & Hb)]; [done|].
  pose proof (image_same_but _ _ _ Hm Hs) as Hm1.
  pose proof (allocator_release m1 r Hm1 ltac:(lia)) as H2.
  apply wp_run in H2 as ([] & m2 & E2 & Hs2 & Hb2).
  assert (Hsame : forall i, 0 <= i < BLOCK_COUNT -> block_used m2 i = block_used m i).
  { intros i Hi. rewrite Hb2, Hb by done. destruct (Z.eqb_spec i r) as [->|]; done. }
  pose proof (image_same_but _ _ _ Hm1 Hs2) as Hm2.
  pose proof (allocator_alloc m2 Hm2) as H3. apply wp_run in H3 as (r3 & m3 & E3 & H3).
  assert (r3 = r) as ->; [|eauto].
  destruct H3 as [(-> & _ & Hfull)|(Hr3 & Hfree3 & Hall3 & _)].
  - specialize (Hfull r Hr1). rewrite Hsame in Hfull by lia. congruence.
  - destruct (Z.lt_trichotomy r3 r) as [Hlt|[?|Hgt]]; [|done|].
    + rewrite Hsame in Hfree3 by lia. rewrite Hall in Hfree3 by lia. done.
    + specialize (Hall3 r ltac:(lia)). rewrite Hsame in Hall3 by lia. congruence.
Qed.

(** bytes_to_blocks is the ceiling of the division by the block size: for
    a non-negative size it is the least number of blocks that can hold it. *)
Theorem bytes_to_blocks_least bytes :
  0 <= bytes ->
  bytes <= BLOCK_SIZE * bytes_to_blocks bytes /\
  forall k, 0 <= k -> bytes <= BLOCK_SIZE * k -> bytes_to_blocks bytes <= k.
Proof.
  intros H. unfold bytes_to_blocks, BLOCK_SIZE.
  rewrite Z.quot_div_nonneg, Z.rem_mod_nonneg by lia.
  pose proof (Z.div_mod bytes 4096 ltac:(lia)). pose proof (Z.mod_pos_bound bytes 4096 ltac:(lia)).
  destruct (Z.eqb_spec (bytes mod 4096) 0); split; intros; nia.
Qed.

Lemma put_used m i :
  image m -> 0 <= i < 256 ->
  wp (bitmap_put get_blocks_bitmap i 1) (fun _ m' =>
    same_but block_meta m m' /\
    forall j, 0 <= j < 256 -> block_used m' j = if j =? i then true else block_used m j) m.
Proof.
  intros Hm Hi. eapply wp_mono.
  { apply bitmap_put_spec; [lia|apply bitmap_index_mapped; [done|done|by vm_compute]]. }
  intros [] m' Hset. by apply bit_set_meta in Hset.
Qed.

(** blocks_init reserves the metadata: after it, blocks 0 to 4 (bitmaps,
    the unused block 1 and the three blocks of the inode table) are in use,
    every other block keeps its state, and nothing outside the block bitmap
    changes; so alloc_block never returns a metadata block. *)
Theorem blocks_init_reserves m :
  image m ->
  exists m', blocks_init m = Ok (tt, m') /\ same_but block_meta m m' /\
    forall i, 0 <= i < BLOCK_COUNT ->
      block_used m' i = if i <? 5 then true else block_used m i.
Proof.
  intros Hm.
  assert (H : wp blocks_init (fun _ m' => same_but block_meta m m' /\
    forall i, 0 <= i < 256 -> block_used m' i = if i <? 5 then true else block_used m i) m).
  { unfold blocks_init. change (Z.to_nat BLOCK_COUNT) with 256%nat.
    wp_pure. eapply wp_mono; [apply put_used; [done|lia]|]. intros [] m0 [Hs0 Hb0].
    wp_pure. eapply wp_mono; [apply put_used; [eauto with machine|lia]|]. intros [] m1 [Hs1 Hb1].
    pose proof (same_but_trans _ _ _ _ Hs0 Hs1) as S1. clear Hs0 Hs1.
    do 3 (cbn [mark_inode_table]; match goal with |- context [if ?b then _ else _] => change b with true end;
      cbv iota; rewrite wp_bind;
      match goal with S : same_but _ m ?x |- wp _ _ ?x =>
        eapply wp_mono; [apply put_used; [eauto with machine|lia]|];
        let m2 := fresh "m" in let Hs := fresh "Hs" in let Hb := fresh "Hb" in
        intros [] m2 [Hs Hb]; pose proof (same_but_trans _ _ _ _ S Hs); clear S Hs end).
    match goal with |- wp _ ?Q ?x => change (Q tt x) end.
    split; [done|]. intros i Hi.
    repeat match goal with H : forall j, _ -> block_used ?x j = _ |- context [block_used ?x i] =>
      rewrite (H i Hi); clear H end.
    repeat case_Z; lia || done. }
  apply wp_run in H as ([] & m' & E & ?). eauto.
Qed.

(** ** Witnesses *)

Definition blank : mem := map_image ∅.

Lemma blank_image : image blank.
Proof. by split. Defined.

Lemma alloc_block_first_fit_witness :
  exists r m', alloc_block blank = Ok (r, m') /\ same_but block_meta blank m' /\
    ((r = -1 /\ m' = blank /\ forall i, 1 <= i < BLOCK_COUNT -> block_used blank i = true) \/
     (1 <= r < BLOCK_COUNT /\ block_used blank r = false /\
      (forall i, 1 <= i < r -> block_used blank i = true) /\
      forall i, 0 <= i < BLOCK_COUNT -> block_used m' i = if i =? r then true else block_used blank i)).
Proof. exact (alloc_block_first_fit blank blank_image). Defined.

Definition blank1 : mem := wr blank 0 2.

Lemma alloc_free_alloc_witness :
  exists m2 m3, free_block 1 blank1 = Ok (tt, m2) /\
    (forall i, 0 <= i < BLOCK_COUNT -> block_used m2 i = block_used blank i) /\
    alloc_block m2 = Ok (1, m3).
Proof.
  refine (alloc_free_alloc blank 1 blank1 blank_image _ _); [by vm_compute|done].
Defined.

Lemma bytes_to_blocks_least_witness :
  4097 <= BLOCK_SIZE * bytes_to_blocks 4097 /\
  forall k, 0 <= k -> 4097 <= BLOCK_SIZE * k -> bytes_to_blocks 4097 <= k.
Proof. exact (bytes_to_blocks_least 4097 ltac:(lia)). Defined.

Lemma blocks_init_reserves_witness :
  exists m', blocks_init blank = Ok (tt, m') /\ same_but block_meta blank m' /\
    forall i, 0 <= i < BLOCK_COUNT ->
      block_used m' i = if i <? 5 then true else block_used blank i.
Proof. exact (blocks_init_reserves blank blank_image). Defined.
End Blocks.
