(* ===== verification/Inode.v ===== *)
(** * Inode: File System/files/inode.c

    The inode table starts at block 2 of the image; inode [i] is the 40-byte
    struct at [inode_addr i].  A file longer than one block is a chain of
    inodes through [next_inode], each with one data block; the first inode's
    [size] is the file size and each next one's is 4096 less.  Inode pointers
    are addresses, [None] for [NULL]; reading a field through [NULL] is a
    fault. *)
From stdpp Require Import base list gmap.
From Stdlib Require Import ZArith Lia.
From S2P Require Import Prelude Mem Bitmap Blocks.
Import Bitmap Blocks.

Module Inode.

(** ** Data *)

Definition SIZE : Z := 64.
Definition ROOT_INODE : Z := 1.

Inductive field :=
  | Refs
  | Mode
  | Size
  | Block
  | NextInode
  | Atime
  | Mtime.

(** Offsets in [struct inode]; [time_t] is 8-byte aligned. *)
Definition offset (f : field) : Z :=
  match f with
  | Refs => 0 | Mode => 4 | Size => 8 | Block => 12 | NextInode => 16
  | Atime => 24 | Mtime => 32
  end.

Definition inode_addr (inum : Z) : Z := blocks_get_block 2 + INODE_SIZE * inum.

Definition deref (p : option Z) : M mem Z := of_option NullDeref p.

Definition get_field (p : option Z) (f : field) : M mem Z :=
  let! a := deref p in
  match f with
  | Atime | Mtime => ld64 (a + offset f)
  | _ => ld32 (a + offset f)
  end.

Definition set_field (p : option Z) (f : field) (v : Z) : M mem unit :=
  let! a := deref p in
  match f with
  | Atime | Mtime => st64 (a + offset f) v
  | _ => st32 (a + offset f) v
  end.

(** [memset(node, 0, sizeof(inode_t))] *)
Definition clear_inode (p : option Z) : M mem unit :=
  let! a := deref p in memset a 0 (Z.to_nat INODE_SIZE).

(** ** Code *)

(** The values print_inode prints: refs, mode, size, block. *)
Definition print_inode (node : option Z) : M mem (Z * Z * Z * Z) :=
  let! r := get_field node Refs in
  let! md := get_field node Mode in
  let! s := get_field node Size in
  let! b := get_field node Block in
  ret (r, md, s, b).

Definition get_inode (inum : Z) : M mem (option Z) :=
  do! assert (inum <? SIZE) in
  let! b := bitmap_get get_inode_bitmap inum in
  if b =? 0 then ret None
  else ret (Some (inode_addr inum)).

(** The initialisation of a freshly marked inode; [now] is [time(NULL)]. *)
Definition init_inode (now : Z) (node : option Z) : M mem unit :=
  do! clear_inode node in
  do! set_field node Refs 0 in
  do! set_field node Mode 4516 (* 010644 *) in
  do! set_field node Size 0 in
  let! b := alloc_block in
  do! set_field node Block b in
  do! set_field node NextInode (-1) in
  do! set_field node Atime now in
  set_field node Mtime now.

(** The loop of alloc_inode from [i] with [n] inodes left to look at. *)
Fixpoint alloc_inode_from (now : Z) (n : nat) (i : Z) : M mem Z :=
  match n with
  | O => ret (-1)
  | S n =>
      let! b := bitmap_get get_inode_bitmap i in
      if b =? 0 then
        do! bitmap_put get_inode_bitmap i 1 in
        let! node := get_inode i in
        do! init_inode now node in
        ret i
      else alloc_inode_from now n (i + 1)
  end.

Definition alloc_inode (now : Z) : M mem Z :=
  alloc_inode_from now (Z.to_nat (SIZE - (ROOT_INODE + 1))) (ROOT_INODE + 1).

(** [while (pnode->size > BLOCK_SIZE)] of grow_inode. *)
Fixpoint grow_chain (now : Z) (fuel : nat) (pnode : option Z) : M mem unit :=
  match fuel with
  | O => fail OutOfFuel
  | S fuel =>
      let! sz := get_field pnode Size in
      if BLOCK_SIZE <? sz then
        let! nx := get_field pnode NextInode in
        do! (if nx =? -1 then
               let! fresh := alloc_inode now in set_field pnode NextInode fresh
             else ret tt) in
        let! sz := get_field pnode Size in
        let! nx := get_field pnode NextInode in
        let! pnode := get_inode nx in
        do! set_field pnode Size (sz - BLOCK_SIZE) in
        grow_chain now fuel pnode
      else ret tt
  end.

(** Each iteration lowers the size by one block, so this fuel is enough. *)
Definition grow_fuel (target_size : Z) : nat := S (Z.to_nat (target_size / BLOCK_SIZE)).

Definition grow_inode (now : Z) (node : option Z) (size : Z) : M mem Z :=
  let! s := get_field node Size in
  let! target_size := chk_int (s + size) in
  do! set_field node Size target_size in
  do! grow_chain now (grow_fuel target_size) node in
  ret 0.

(** [while (size < pnode->size - BLOCK_SIZE) pnode = get_inode(pnode->next_inode)] *)
Fixpoint find_fit (fuel : nat) (size : Z) (pnode : option Z) : M mem (option Z) :=
  match fuel with
  | O => fail OutOfFuel
  | S fuel =>
      let! s := get_field pnode Size in
      if size <? s - BLOCK_SIZE then
        let! nx := get_field pnode NextInode in
        let! pnode := get_inode nx in
        find_fit fuel size pnode
      else ret pnode
  end.

(** The deallocation loop of shrink_inode; [to_del] is not advanced. *)
Fixpoint delete_chain (fuel : nat) (inum_to_del : Z) (to_del : option Z) : M mem unit :=
  match fuel with
  | O => fail OutOfFuel
  | S fuel =>
      if 0 <? inum_to_del then
        do! bitmap_put get_inode_bitmap inum_to_del 0 in
        let! b := get_field to_del Block in
        do! free_block b in
        let! nx := get_field to_del NextInode in
        do! clear_inode to_del in
        delete_chain fuel nx to_del
      else ret tt
  end.

(** [while (pnode->next_inode != -1)] subtracting [size] from the sizes. *)
Fixpoint shrink_sizes (fuel : nat) (size : Z) (pnode : option Z) : M mem unit :=
  match fuel with
  | O => fail OutOfFuel
  | S fuel =>
      let! nx := get_field pnode NextInode in
      if negb (nx =? -1) then
        let! pnode := get_inode nx in
        let! s := get_field pnode Size in
        let! s' := chk_int (s - size) in
        do! set_field pnode Size s' in
        shrink_sizes fuel size pnode
      else ret tt
  end.

(** Chains have at most [SIZE] inodes; the deallocation loop clears the struct
    it reads from and so runs at most twice. *)
Definition shrink_inode (node : option Z) (size : Z) : M mem Z :=
  let fuel := S (Z.to_nat SIZE) in
  let! pnode := find_fit fuel size node in
  let! inum_to_del := get_field pnode NextInode in
  do! set_field pnode NextInode (-1) in
  let! to_del := get_inode inum_to_del in
  do! delete_chain 3 inum_to_del to_del in
  let! s := get_field node Size in
  let! target_size := chk_int (s - size) in
  do! set_field node Size target_size in
  do! shrink_sizes fuel size node in
  ret 0.

Definition free_inode (inum : Z) : M mem unit :=
  let! node := get_inode inum in
  let! r := get_field node Refs in
  do! assert (r =? 0) in
  let! s := get_field node Size in
  let! _ := shrink_inode node s in
  let! b := get_field node Block in
  do! free_block b in
  do! clear_inode node in
  bitmap_put get_inode_bitmap inum 0.

(** ** The inode table as an abstract table of fields *)

#[export] Instance field_eq_dec : EqDecision field.
Proof. solve_decision. Defined.

Definition width (f : field) : nat := match f with Atime | Mtime => 8%nat | _ => 4%nat end.

(** The value of a field. *)
Definition fld (m : mem) (i : Z) (f : field) : Z :=
  let v := rdn m (inode_addr i + offset f) (width f) in
  match f with Atime | Mtime => v | _ => i32 v end.

(** Values a field can hold. *)
Definition field_ok (f : field) (v : Z) : Prop :=
  match f with Atime | Mtime => 0 <= v < 2 ^ 64 | _ => INT_MIN <= v <= INT_MAX end.

Definition inode_used (m : mem) (i : Z) : bool := bit m get_inode_bitmap i.
Definition inode_meta : Z -> Prop := range get_inode_bitmap INODE_BITMAP_SIZE.
Definition inode_area (i : Z) : Z -> Prop := range (inode_addr i) INODE_SIZE.

(** ** Lemmas *)

Lemma inode_addr_eq i : inode_addr i = 8192 + 40 * i.
Proof. done. Qed.

Lemma offset_width f : 0 <= offset f /\ offset f + Z.of_nat (width f) <= 40.
Proof. destruct f; simpl; lia. Qed.

Lemma offsets_disjoint f g :
  f <> g -> offset f + Z.of_nat (width f) <= offset g \/ offset g + Z.of_nat (width g) <= offset f.
Proof. destruct f, g; simpl; try done; lia. Qed.

Lemma field_mapped m i f :
  image m -> 0 <= i < SIZE -> mapped m (inode_addr i + offset f) (Z.of_nat (width f)) = true.
Proof.
  intros Hm Hi. pose proof (offset_width f). rewrite inode_addr_eq. unfold SIZE in Hi.
  apply image_mapped; [done|lia|]. change NUFS_SIZE with 1048576. lia.
Qed.

Lemma fld_same_but P m m' i f :
  same_but P m m' ->
  (forall x, range (inode_addr i + offset f) (Z.of_nat (width f)) x -> ~ P x) ->
  fld m' i f = fld m i f.
Proof. intros Hs HP. unfold fld. by rewrite (rdn_same_but _ _ _ _ _ Hs HP). Qed.

Lemma get_field_spec m i f Q :
  image m -> 0 <= i < SIZE ->
  wp (get_field (Some (inode_addr i)) f) Q m <-> Q (fld m i f) m.
Proof.
  intros Hm Hi. pose proof (field_mapped m i f Hm Hi) as Hf.
  unfold get_field, deref, fld. rewrite wp_bind. simpl of_option. rewrite wp_ret.
  destruct f; simpl width in *; unfold ld64; rewrite ?wp_ld32, ?wp_ld; naive_solver.
Qed.

(** What writing one field of inode [i] does. *)
Record field_write (i : Z) (f : field) (v : Z) (m m' : mem) : Prop := {
  fw_same : same_but (inode_area i) m m';
  fw_eq : fld m' i f = v;
  fw_ne : forall j g, 0 <= j < SIZE -> j <> i \/ g <> f -> fld m' j g = fld m j g
}.

Lemma set_field_spec m i f v Q :
  image m -> 0 <= i < SIZE -> field_ok f v ->
  (forall m', image m' -> field_write i f v m m' -> Q tt m') ->
  wp (set_field (Some (inode_addr i)) f v) Q m.
Proof.
  intros Hm Hi Hv HQ. pose proof (field_mapped m i f Hm Hi) as Hf.
  pose proof (offset_width f) as Hw.
  assert (H : wp (set_field (Some (inode_addr i)) f v)
                 (fun _ m' => m' = wrn m (inode_addr i + offset f) (width f) v) m).
  { unfold set_field, deref. rewrite wp_bind. simpl of_option. rewrite wp_ret.
    destruct f; simpl width in *; unfold st32, st64; rewrite wp_st; naive_solver. }
  eapply wp_mono; [exact H|]. intros [] m' ->.
  set (a := inode_addr i + offset f) in *. pose proof (wrn_same_but m a (width f) v) as Hs.
  apply HQ; [eauto with machine|]. split.
  - eapply same_but_mono; [exact Hs|]. intros x. unfold inode_area, range, INODE_SIZE. lia.
  - unfold fld. fold a. destruct f; simpl width; simpl in Hv;
      first [by apply i32_rdn_wrn | rewrite rdn_wrn; apply Z.mod_small; done].
  - intros j g Hj Hne. eapply fld_same_but; [exact Hs|]. unfold range. intros x Hx Hx'.
    pose proof (offset_width g). subst a. rewrite !inode_addr_eq in *. unfold SIZE in *.
    destruct (decide (j = i)) as [->|]; [|lia]. destruct Hne as [|Hgf]; [done|].
    destruct (offsets_disjoint f g ltac:(congruence)); lia.
Qed.

(** Clearing inode [i]. *)
Record inode_cleared (i : Z) (m m' : mem) : Prop := {
  ic_same : same_but (inode_area i) m m';
  ic_zero : forall f, fld m' i f = 0;
  ic_ne : forall j g, 0 <= j < SIZE -> j <> i -> fld m' j g = fld m j g
}.

Lemma rdn_zero n : forall m a, (forall x, range a (Z.of_nat n) x -> rd m x = 0) -> rdn m a n = 0.
Proof.
  induction n as [|n IH]; intros m a H; simpl; [done|].
  rewrite H, IH; [done| |]; unfold range in *; intros; [apply H|]; lia.
Qed.

Lemma clear_inode_spec m i Q :
  image m -> 0 <= i < SIZE ->
  (forall m', image m' -> inode_cleared i m m' -> Q tt m') ->
  wp (clear_inode (Some (inode_addr i))) Q m.
Proof.
  intros Hm Hi HQ. unfold clear_inode, deref, memset. rewrite wp_bind. simpl of_option. rewrite wp_ret.
  change (Z.to_nat INODE_SIZE) with 40%nat.
  pose proof (wr_list_same_but m (inode_addr i) (replicate 40 0)) as Hs.
  rewrite length_replicate in Hs. change (Z.of_nat 40) with INODE_SIZE in Hs.
  apply wp_write_bytes.
  { rewrite length_replicate. unfold SIZE in Hi. rewrite inode_addr_eq.
    apply image_mapped; [done|lia|]. change NUFS_SIZE with 1048576. lia. }
  apply HQ; [eauto with machine|]. split; [done|..].
  - intros f. unfold fld. pose proof (offset_width f). rewrite rdn_zero; [by destruct f|].
    intros x Hx. unfold range in Hx. rewrite rd_wr_list, length_replicate.
    destruct (_ && _) eqn:E; [|lia]. rewrite lookup_replicate_2 by lia. done.
  - intros j g Hj Hne. eapply fld_same_but; [exact Hs|]. unfold range. intros x Hx Hx'.
    pose proof (offset_width g). rewrite !inode_addr_eq in *. unfold SIZE, INODE_SIZE in *. lia.
Qed.

(** [get_inode] of an inode number in the table. *)
Lemma get_inode_spec m i Q :
  image m -> 0 <= i < SIZE ->
  wp (get_inode i) Q m <-> Q (if inode_used m i then Some (inode_addr i) else None) m.
Proof.
  intros Hm Hi. unfold get_inode, SIZE in *. wp_pure.
  assert (Hget : bitmap_get get_inode_bitmap i m = Ok (bit_val (inode_used m i), m)).
  { assert (H : wp (bitmap_get get_inode_bitmap i) (fun r m' => r = bit_val (inode_used m i) /\ m' = m) m).
    { apply bitmap_get_spec; [lia| |done]. apply bitmap_index_mapped; [done|lia|by vm_compute]. }
    apply wp_run in H as (r & m' & E & -> & ->). done. }
  rewrite (wp_eq _ _ _ _ _ Hget).
  destruct (inode_used m i); simpl; rewrite wp_ret; split; intros; try split; naive_solver lia.
Qed.

(** A negative inode number below 256 in absolute value gives [NULL]: the
    shift count is negative and the machine shifts the byte out. *)
Lemma get_inode_negative m i :
  image m -> -8 < i < 0 -> 0 <= rd m 32 < 256 -> get_inode i m = Ok (None, m).
Proof.
  intros Hm Hi Hb. unfold get_inode, bitmap_get, bind, assert.
  rewrite (proj2 (Z.ltb_lt i SIZE)) by (unfold SIZE; lia). simpl.
  assert (Eb : byte_index i = 0) by (unfold byte_index; apply Z.quot_small_iff; lia).
  assert (Ei : bit_index i = i) by (unfold bit_index; apply Z.rem_small_iff; lia).
  rewrite Eb, Ei. unfold ld8, ld. rewrite image_mapped by (try done; by vm_compute). simpl.
  change (get_inode_bitmap + 0) with 32. unfold shr.
  assert (El : 24 < Z.land i 31 < 32).
  { change 31 with (Z.ones 5). rewrite Z.land_ones by lia. change (2 ^ 5) with 32.
    pose proof (Z.mod_pos_bound i 32). pose proof (Z.div_mod i 32). lia. }
  rewrite Z.shiftr_div_pow2 by lia. rewrite Z.div_small; [done|].
  assert (2 ^ 24 < 2 ^ Z.land i 31) by (apply Z.pow_lt_mono_r; lia). lia.
Qed.

(** Writing in the inode table leaves both bitmaps alone. *)
Lemma area_keeps_bits i m m' :
  0 <= i < SIZE -> same_but (inode_area i) m m' ->
  forall j, 0 <= j < 256 -> inode_used m' j = inode_used m j /\ block_used m' j = block_used m j.
Proof.
  intros Hi Hs j Hj. unfold SIZE in Hi.
  split; (eapply bit_same_but; [exact Hs|]);
    [pose proof (bit_in_bitmap j get_inode_bitmap Hj) as H
    |pose proof (bit_in_bitmap j get_blocks_bitmap Hj) as H];
    unfold inode_area, range, INODE_SIZE in *; rewrite inode_addr_eq;
    change get_inode_bitmap with 32 in *; change get_blocks_bitmap with 0 in *; lia.
Qed.

(** Writing in the bitmaps leaves the inode table alone. *)
Lemma meta_keeps_fields m m' j g :
  same_but (range 0 64) m m' -> 0 <= j -> fld m' j g = fld m j g.
Proof.
  intros Hs Hj. eapply fld_same_but; [exact Hs|]. intros x. pose proof (offset_width g).
  unfold range. rewrite inode_addr_eq. lia.
Qed.

(** What a successful alloc_inode does: inode [i] is marked, initialised and
    given block [b], which is -1 when no block is free. *)
Record inode_made (i b : Z) (m m' : mem) : Prop := {
  im_same : same_but (fun a => range 0 64 a \/ inode_area i a) m m';
  im_used : forall j, 0 <= j < 256 -> inode_used m' j = if j =? i then true else inode_used m j;
  im_refs : fld m' i Refs = 0;
  im_mode : fld m' i Mode = 4516;
  im_size : fld m' i Size = 0;
  im_block : fld m' i Block = b;
  im_next : fld m' i NextInode = -1;
  im_other : forall j g, 0 <= j < SIZE -> j <> i -> fld m' j g = fld m j g;
  im_blocks :
    (b = -1 /\ (forall k, 1 <= k < 256 -> block_used m k = true) /\
     forall k, 0 <= k < 256 -> block_used m' k = block_used m k) \/
    (1 <= b < 256 /\ block_used m b = false /\
     (forall k, 1 <= k < b -> block_used m k = true) /\
     forall k, 0 <= k < 256 -> block_used m' k = if k =? b then true else block_used m k)
}.

(** [same_but] chains in the goal's context, collected at the union [P]. *)
Lemma same_but_area P i m1 m2 m3 :
  same_but P m1 m2 -> same_but (inode_area i) m2 m3 -> (forall a, inode_area i a -> P a) ->
  same_but P m1 m3.
Proof. intros H1 H2 HP. eapply same_but_trans; [exact H1|]. by eapply same_but_mono. Qed.

Ltac fw_step :=
  let m' := fresh "m" in let Hm' := fresh "Him" in let Hw := fresh "Hw" in
  rewrite ?wp_bind; apply set_field_spec; [done|done|by vm_compute|]; intros m' Hm' Hw.

(** Read a field through the writes and clears recorded in the context. *)
Ltac fld_through :=
  repeat match goal with
  | H : field_write ?i ?f _ _ ?m |- context [fld ?m ?i ?f] => rewrite (fw_eq _ _ _ _ _ H)
  | H : field_write ?i ?f _ _ ?m |- context [fld ?m ?j ?g] =>
      rewrite (fw_ne _ _ _ _ _ H j g) by first [done | lia | (right; done) | (left; lia)]
  | H : inode_cleared ?i _ ?m |- context [fld ?m ?i ?g] => rewrite (ic_zero _ _ _ H)
  | H : inode_cleared ?i _ ?m |- context [fld ?m ?j ?g] =>
      rewrite (ic_ne _ _ _ H j g) by first [done | lia]
  end; try done.

Lemma init_inode_spec now m i :
  image m -> 0 <= i < SIZE -> 0 <= now < 2 ^ 64 ->
  wp (init_inode now (Some (inode_addr i))) (fun _ m' => image m' /\ exists b,
    same_but (fun a => range 0 32 a \/ inode_area i a) m m' /\
    fld m' i Refs = 0 /\ fld m' i Mode = 4516 /\ fld m' i Size = 0 /\
    fld m' i Block = b /\ fld m' i NextInode = -1 /\
    (forall j g, 0 <= j < SIZE -> j <> i -> fld m' j g = fld m j g) /\
    ((b = -1 /\ (forall k, 1 <= k < 256 -> block_used m k = true) /\
      forall k, 0 <= k < 256 -> block_used m' k = block_used m k) \/
     (1 <= b < 256 /\ block_used m b = false /\
      (forall k, 1 <= k < b -> block_used m k = true) /\
      forall k, 0 <= k < 256 -> block_used m' k = if k =? b then true else block_used m k))) m.
Proof.
  intros Hm Hi Hnow. unfold init_inode. rewrite wp_bind.
  apply clear_inode_spec; [done|done|]. intros m0 Him0 Hc.
  do 3 fw_step. rewrite wp_bind.
  assert (Hb0 : forall k, 0 <= k < 256 -> block_used m3 k = block_used m k).
  { intros k Hk. destruct (area_keeps_bits i _ _ Hi (fw_same _ _ _ _ _ Hw1) k Hk) as [_ ->].
    destruct (area_keeps_bits i _ _ Hi (fw_same _ _ _ _ _ Hw0) k Hk) as [_ ->].
    destruct (area_keeps_bits i _ _ Hi (fw_same _ _ _ _ _ Hw) k Hk) as [_ ->].
    by destruct (area_keeps_bits i _ _ Hi (ic_same _ _ _ Hc) k Hk) as [_ ->]. }
  eapply wp_mono; [by apply allocator_alloc|]. intros b mb Hb.
  assert (Hsb : same_but (range 0 32) m3 mb).
  { destruct Hb as [(-> & -> & _)|(_ & _ & _ & ? & _)]; [apply same_but_refl|done]. }
  pose proof (image_same_but _ _ _ Him2 Hsb) as Himb.
  assert (Hfb : forall j g, 0 <= j -> fld mb j g = fld m3 j g).
  { intros j g Hj. apply meta_keeps_fields; [|done]. eapply same_but_mono; [exact Hsb|].
    unfold range. intros. lia. }
  assert (Hok : field_ok Block b).
  { simpl. unfold INT_MIN, INT_MAX, BLOCK_COUNT in *. destruct Hb as [(-> & _)|(? & _)]; lia. }
  rewrite wp_bind. apply set_field_spec; [done|done|done|]. intros m4 Him4 Hw4.
  fw_step. rewrite wp_bind. apply set_field_spec; [done|done|done|]. intros m6 Him6 Hw6.
  apply set_field_spec; [done|done|done|]. intros m7 Him7 Hw7.
  split; [done|]. exists b.
  assert (Hb7 : forall k, 0 <= k < 256 -> block_used m7 k = block_used mb k).
  { intros k Hk. destruct (area_keeps_bits i _ _ Hi (fw_same _ _ _ _ _ Hw7) k Hk) as [_ ->].
    destruct (area_keeps_bits i _ _ Hi (fw_same _ _ _ _ _ Hw6) k Hk) as [_ ->].
    destruct (area_keeps_bits i _ _ Hi (fw_same _ _ _ _ _ Hw2) k Hk) as [_ ->].
    by destruct (area_keeps_bits i _ _ Hi (fw_same _ _ _ _ _ Hw4) k Hk) as [_ ->]. }
  split.
  { do 4 (eapply same_but_area; [|by eapply fw_same|by right]).
    eapply same_but_trans; [|eapply same_but_mono; [exact Hsb|by left]].
    do 3 (eapply same_but_area; [|by eapply fw_same|by right]).
    eapply same_but_mono; [by eapply ic_same|by right]. }
  assert (Hold : forall f, f <> Block -> f <> NextInode -> f <> Atime -> f <> Mtime ->
                 fld m7 i f = fld m3 i f).
  { intros f ????. rewrite (fw_ne _ _ _ _ _ Hw7), (fw_ne _ _ _ _ _ Hw6), (fw_ne _ _ _ _ _ Hw2),
      (fw_ne _ _ _ _ _ Hw4) by first [done|by right]. apply Hfb. lia. }
  split_and!; [rewrite Hold by done; fld_through..|fld_through|fld_through| |].
  - intros j g Hj Hne. fld_through. rewrite Hfb by lia. fld_through.
  - unfold BLOCK_COUNT in Hb. destruct Hb as [(-> & -> & Hfull)|(Hb1 & Hb2 & Hb3 & _ & Hb4)].
    + left. split_and!; [done| |]; intros k Hk; [rewrite <- Hb0 by lia; by apply Hfull|].
      by rewrite Hb7, Hb0.
    + right. split; [done|]. split; [|split].
      * rewrite <- Hb0 by lia. done.
      * intros k Hk. rewrite <- Hb0 by lia. by apply Hb3.
      * intros k Hk. rewrite Hb7, Hb4, Hb0 by done. done.
Qed.

Lemma alloc_inode_from_spec now n : forall i m,
  image m -> 0 <= now < 2 ^ 64 -> 2 <= i -> i + Z.of_nat n = SIZE ->
  (forall j, 2 <= j < i -> inode_used m j = true) ->
  wp (alloc_inode_from now n i) (fun r m' => image m' /\
    ((r = -1 /\ m' = m /\ forall j, 2 <= j < SIZE -> inode_used m j = true) \/
     (2 <= r < SIZE /\ inode_used m r = false /\
      (forall j, 2 <= j < r -> inode_used m j = true) /\ exists b, inode_made r b m m'))) m.
Proof.
  unfold SIZE. induction n as [|n IH]; intros i m Hm Hnow Hi Hn Hall; simpl.
  - wp_pure. split; [done|]. left. split_and!; [done..|]. intros j ?. apply Hall. lia.
  - wp_pure. apply bitmap_get_spec; [lia|apply bitmap_index_mapped; [done|lia|by vm_compute]|].
    fold (inode_used m i). destruct (inode_used m i) eqn:E; simpl.
    + apply IH; [done|done|lia..|]. intros j ?. destruct (Z.eq_dec j i) as [->|]; [done|]. apply Hall. lia.
    + wp_pure. eapply wp_mono.
      { apply bitmap_put_spec; [lia|apply bitmap_index_mapped; [done|lia|by vm_compute]]. }
      intros [] m1 Hset. apply bit_set_meta in Hset as [Hs Hb]; [|lia].
      pose proof (image_same_but _ _ _ Hm Hs) as Hm1.
      assert (Hs64 : same_but (range 0 64) m m1).
      { eapply same_but_mono; [exact Hs|]. unfold range. change get_inode_bitmap with 32. lia. }
      assert (Hblk : forall k, 0 <= k < 256 -> block_used m1 k = block_used m k).
      { intros k Hk. eapply bit_same_but; [exact Hs|]. pose proof (bit_in_bitmap k get_blocks_bitmap Hk).
        unfold range in *. change get_inode_bitmap with 32. change get_blocks_bitmap with 0 in *. lia. }
      fold (inode_used m1) in Hb. wp_pure. rewrite get_inode_spec by (unfold SIZE; try done; lia).
      unfold inode_used at 1. rewrite Hb, Z.eqb_refl by lia. wp_pure.
      eapply wp_mono; [apply init_inode_spec; [done|unfold SIZE; lia|done]|].
      intros [] m2 (Hm2 & b & Hs2 & H1 & H2 & H3 & H4 & H5 & Hoth & Hbl). wp_pure. split; [done|].
      right. split; [lia|]. split; [done|]. split; [done|]. exists b. split; try done.
      * eapply same_but_trans; [eapply same_but_mono; [exact Hs64|by left]|].
        eapply same_but_mono; [exact Hs2|]. unfold range. intros a [?|?]; [left; lia|by right].
      * intros j Hj. transitivity (inode_used m1 j); [|exact (Hb j Hj)].
        eapply bit_same_but; [exact Hs2|].
        pose proof (bit_in_bitmap j get_inode_bitmap Hj). unfold range, inode_area, range, INODE_SIZE in *.
        rewrite inode_addr_eq. change get_inode_bitmap with 32 in *. lia.
      * intros j g Hj Hne. rewrite Hoth by done. apply meta_keeps_fields; [done|lia].
      * destruct Hbl as [(-> & Hf & Hk)|(? & Hf & Hmin & Hk)]; [left|right].
        -- split_and!; [done| |]; intros k ?; [rewrite <- Hblk by lia; auto|rewrite Hk, Hblk by lia; done].
        -- split; [done|]. split; [rewrite <- Hblk by lia; done|]. split.
           ++ intros k ?. rewrite <- Hblk by lia. auto.
           ++ intros k ?. rewrite Hk, Hblk by lia. done.
Qed.

Lemma alloc_inode_spec now m :
  image m -> 0 <= now < 2 ^ 64 ->
  wp (alloc_inode now) (fun r m' => image m' /\
    ((r = -1 /\ m' = m /\ forall j, 2 <= j < SIZE -> inode_used m j = true) \/
     (2 <= r < SIZE /\ inode_used m r = false /\
      (forall j, 2 <= j < r -> inode_used m j = true) /\ exists b, inode_made r b m m'))) m.
Proof. intros Hm Hnow. apply alloc_inode_from_spec; [done|done|by vm_compute..|]. intros. unfold ROOT_INODE in *. lia. Qed.

(** ** Free lists *)

(** The indices in order that an allocator can still hand out. *)
Definition free_inodes (m : mem) : list Z := filter (fun i => inode_used m i = false) (seqZ 2 62).
Definition free_blocks (m : mem) : list Z := filter (fun i => block_used m i = false) (seqZ 1 255).

Lemma filter_first_fit (P P' : Z -> bool) r n : forall lo,
  lo <= r < lo + Z.of_nat n -> P r = false -> (forall i, lo <= i < r -> P i = true) ->
  (forall i, lo <= i < lo + Z.of_nat n -> P' i = if i =? r then true else P i) ->
  filter (fun i => P i = false) (seqZ lo (Z.of_nat n)) =
  r :: filter (fun i => P' i = false) (seqZ lo (Z.of_nat n)).
Proof.
  induction n as [|n IH]; intros lo Hr HP Hlt HP'; [lia|].
  rewrite Nat2Z.inj_succ, seqZ_cons, Z.pred_succ by lia.
  assert (Hrest : lo = r -> forall l : list Z, (forall i, i ∈ l -> r < i < lo + Z.of_nat (S n)) ->
    filter (fun i => P i = false) l = filter (fun i => P' i = false) l).
  { intros -> l. induction l as [|x l IHl]; intros Hl; [done|].
    pose proof (Hl x ltac:(set_solver)). rewrite !filter_cons, (HP' x) by lia. destruct (Z.eqb_spec x r); [lia|].
    rewrite IHl by set_solver. done. }
  destruct (Z.eq_dec lo r) as [->|Hne].
  - rewrite filter_cons_True by done. rewrite filter_cons_False by (rewrite HP', Z.eqb_refl by lia; done).
    f_equal. apply Hrest; [done|]. intros i Hi%elem_of_seqZ. lia.
  - rewrite filter_cons_False by (rewrite Hlt by lia; done).
    rewrite filter_cons_False.
    2: { rewrite HP' by lia. destruct (Z.eqb_spec lo r); [done|]. rewrite Hlt by lia. done. }
    apply IH; [lia|done| |]; intros i Hi; [apply Hlt|apply HP']; lia.
Qed.

Lemma filter_same (P P' : Z -> bool) (l : list Z) :
  (forall i, i ∈ l -> P' i = P i) ->
  filter (fun i => P' i = false) l = filter (fun i => P i = false) l.
Proof.
  induction l as [|x l IH]; intros H; [done|]. rewrite !filter_cons.
  rewrite (H x) by set_solver. rewrite IH by set_solver. done.
Qed.

(** alloc_inode takes the first free inode and the first free block. *)
Lemma alloc_inode_free now m i rest :
  image m -> 0 <= now < 2 ^ 64 -> free_inodes m = i :: rest ->
  wp (alloc_inode now) (fun r m' => r = i /\ image m' /\ 2 <= i < SIZE /\ inode_used m i = false /\
    inode_made i (hd (-1) (free_blocks m)) m m' /\
    free_inodes m' = rest /\ free_blocks m' = tl (free_blocks m)) m.
Proof.
  intros Hm Hnow Hfree. eapply wp_mono; [by apply alloc_inode_spec|].
  intros r m' [Hm' [(-> & -> & Hfull)|(Hr & Hu & Hmin & b & Hmade)]].
  { assert (Hi : i ∈ free_inodes m) by (rewrite Hfree; set_solver).
    unfold free_inodes in Hi. apply list_elem_of_filter in Hi as [Hi1 Hi2%elem_of_seqZ].
    rewrite Hfull in Hi1 by (unfold SIZE; lia). done. }
  unfold SIZE in *. pose proof (filter_first_fit (inode_used m) (inode_used m') r 62 2
    ltac:(lia) Hu Hmin ltac:(intros; apply (im_used _ _ _ _ Hmade); lia)) as Hff.
  unfold free_inodes in Hfree. change (Z.of_nat 62) with 62 in Hff. rewrite Hff in Hfree.
  injection Hfree as -> His.
  assert (Hblk : b = hd (-1) (free_blocks m) /\ free_blocks m' = tl (free_blocks m)).
  { unfold free_blocks. destruct (im_blocks _ _ _ _ Hmade) as [(-> & Hf & Hk)|(Hb & Hbu & Hbmin & Hk)].
    - rewrite (filter_same (block_used m) (block_used m')).
      2: { intros k Hk'%elem_of_seqZ. apply Hk. lia. }
      assert (E : filter (fun i => block_used m i = false) (seqZ 1 255) = []); [|by rewrite E].
      rewrite (filter_same (fun _ => true) (block_used m)).
      2: { intros k Hk'%elem_of_seqZ. apply Hf. lia. }
      generalize (seqZ 1 255). intros l. induction l; [done|]. by rewrite filter_cons_False.
    - pose proof (filter_first_fit (block_used m) (block_used m') b 255 1
        ltac:(lia) Hbu Hbmin ltac:(intros; apply Hk; lia)) as Hfb.
      change (Z.of_nat 255) with 255 in Hfb. rewrite Hfb. done. }
  destruct Hblk as [-> ?]. done.
Qed.

(** ** Chains of inodes *)

#[local] Arguments fld : simpl never.
#[local] Arguments inode_used : simpl never.

(** The inodes of a file with their blocks: linked through [NextInode], all in
    use.  [nodes] also fixes the sizes: [s] for the first, one block less for
    each next one. *)
Fixpoint links (m : mem) (ns : list (Z * Z)) : Prop :=
  match ns with
  | [] => True
  | (i, b) :: ns' =>
      0 <= i < SIZE /\ inode_used m i = true /\ fld m i Block = b /\
      fld m i NextInode = hd (-1) (map fst ns') /\ links m ns'
  end.

Fixpoint nodes (m : mem) (ns : list (Z * Z)) (s : Z) : Prop :=
  match ns with
  | [] => True
  | (i, b) :: ns' =>
      0 <= i < SIZE /\ inode_used m i = true /\ fld m i Block = b /\ fld m i Size = s /\
      fld m i NextInode = hd (-1) (map fst ns') /\ nodes m ns' (s - BLOCK_SIZE)
  end.

(** The bitmaps and the inode table. *)
Definition table_area (a : Z) : Prop := range 0 64 a \/ range 8192 2560 a.

(** Inodes a file of [s] bytes needs after its first one. *)
Definition extra (s : Z) : nat := Z.to_nat ((s - 1) / BLOCK_SIZE).

Lemma inode_area_table i a : 0 <= i < SIZE -> inode_area i a -> table_area a.
Proof.
  unfold SIZE, inode_area, range, INODE_SIZE. intros Hi Ha. right. unfold range.
  rewrite inode_addr_eq in Ha. lia.
Qed.

Lemma links_ext m m' ns :
  (forall i b, (i, b) ∈ ns -> inode_used m' i = inode_used m i /\
     fld m' i Block = fld m i Block /\ fld m' i NextInode = fld m i NextInode) ->
  links m ns -> links m' ns.
Proof.
  induction ns as [|[i b] ns IH]; intros H Hl; [done|]. destruct Hl as (? & ? & ? & ? & Hl).
  destruct (H i b ltac:(set_solver)) as (E1 & E2 & E3). simpl. rewrite E1, E2, E3.
  split_and!; try done; [lia|lia|]. apply IH; [|done]. intros j c Hj. apply (H j c). by apply elem_of_cons; right.
Qed.

Lemma links_used m ns i b : links m ns -> (i, b) ∈ ns -> 0 <= i < SIZE /\ inode_used m i = true.
Proof.
  induction ns as [|[j c] ns IH]; intros Hl Hin; [by apply not_elem_of_nil in Hin|].
  destruct Hl as (? & ? & _ & _ & Hl). apply elem_of_cons in Hin as [[= -> ->]|Hin]; [done|by apply IH].
Qed.

Lemma nodes_links m ns s : nodes m ns s -> links m ns.
Proof.
  revert s. induction ns as [|[i b] ns IH]; intros s H; [done|].
  destruct H as (? & ? & ? & ? & ? & H). simpl. split_and!; eauto; lia.
Qed.

Lemma elem_map_fst (ns : list (Z * Z)) i b : (i, b) ∈ ns -> i ∈ map fst ns.
Proof. intros H. change (map fst ns) with (fst <$> ns). by apply (list_elem_of_fmap_2 fst ns (i, b)). Qed.

Lemma extra_step s : BLOCK_SIZE < s -> extra s = S (extra (s - BLOCK_SIZE)).
Proof.
  unfold extra, BLOCK_SIZE. intros H. replace (s - 1) with (s - 4096 - 1 + 1 * 4096) by lia.
  rewrite Z.div_add by lia. pose proof (Z.div_pos (s - 4096 - 1) 4096). lia.
Qed.

Lemma extra_small s : s <= BLOCK_SIZE -> extra s = 0%nat.
Proof.
  unfold extra, BLOCK_SIZE. intros H. pose proof (Z.div_lt_upper_bound (s - 1) 4096 1). lia.
Qed.

(** Free lists depend on the bitmaps only. *)
Lemma free_lists_ext m m' :
  (forall j, 0 <= j < 256 -> inode_used m' j = inode_used m j /\ block_used m' j = block_used m j) ->
  free_inodes m' = free_inodes m /\ free_blocks m' = free_blocks m.
Proof.
  intros H. split; apply filter_same; intros i Hi%elem_of_seqZ; apply H; lia.
Qed.

Lemma free_inodes_unused m i : i ∈ free_inodes m -> 2 <= i < SIZE /\ inode_used m i = false.
Proof.
  unfold free_inodes, SIZE. intros [? Hi%elem_of_seqZ]%list_elem_of_filter. split; [lia|done].
Qed.
(** What growing a chain [ns] to [s] bytes with [k] new inodes does. *)
Record grown (ns : list (Z * Z)) (s : Z) (k : nat) (m m' : mem) : Prop := {
  gr_same : same_but table_area m m';
  gr_nodes : nodes m' (ns ++ combine (take k (free_inodes m)) (take k (free_blocks m))) s;
  gr_other : forall j g, 0 <= j < SIZE -> j ∉ map fst ns -> j ∉ take k (free_inodes m) ->
    fld m' j g = fld m j g;
  gr_used : forall j, 0 <= j < 256 -> inode_used m j = true -> inode_used m' j = true;
  gr_free_inodes : free_inodes m' = drop k (free_inodes m);
  gr_free_blocks : free_blocks m' = drop k (free_blocks m)
}.

(** Step over the head [i] of a chain to its successor [i1]. *)
Lemma grown_cons m i b i1 b1 ns s k m1 m' :
  links m ((i, b) :: (i1, b1) :: ns) -> NoDup (i :: i1 :: map fst ns) ->
  fld m i Size = s -> field_write i1 Size (s - BLOCK_SIZE) m m1 ->
  grown ((i1, b1) :: ns) (s - BLOCK_SIZE) k m1 m' ->
  grown ((i, b) :: (i1, b1) :: ns) s k m m'.
Proof.
  intros (Hi & Hu & Hb & Hn & Hi1 & Hl) [Hni Hnd]%NoDup_cons Hs Hw [G1 G2 G3 G4 G5 G6].
  pose proof (area_keeps_bits i1 _ _ Hi1 (fw_same _ _ _ _ _ Hw)) as Hbits.
  destruct (free_lists_ext m m1 Hbits) as [Ei Eb]. rewrite Ei, ?Eb in *.
  assert (Hif : i ∉ take k (free_inodes m)).
  { intros Hin. apply (subseteq_take k) in Hin.
    apply free_inodes_unused in Hin as [_ Hin]. congruence. }
  assert (Hif1 : forall g, fld m' i g = fld m i g).
  { intros g. rewrite G3 by (try done; set_solver). apply (fw_ne _ _ _ _ _ Hw); [done|]. set_solver. }
  split; try done.
  - eapply same_but_trans; [eapply same_but_mono; [by eapply fw_same|intros a; by apply inode_area_table]|done].
  - rewrite <- app_comm_cons. cbn [nodes]. rewrite !Hif1. split_and!; try done; [lia|lia|].
    apply G4; [unfold SIZE in *; lia|]. by rewrite (proj1 (Hbits i ltac:(unfold SIZE in *; lia))).
  - intros j g Hj Hj1 Hj2. rewrite G3 by set_solver. apply (fw_ne _ _ _ _ _ Hw); [done|]. set_solver.
  - intros j Hj Hju. apply G4; [done|]. by rewrite (proj1 (Hbits j Hj)).
Qed.

(** Append a fresh inode [i1] with block [b1] to a chain of one. *)
Lemma grown_alloc m i b i1 b1 fi fb s k m1 m2 m' :
  links m [(i, b)] -> i <> i1 -> 0 <= i1 < SIZE ->
  free_inodes m = i1 :: fi -> free_blocks m = b1 :: fb ->
  inode_made i1 b1 m m1 -> free_inodes m1 = fi -> free_blocks m1 = fb ->
  field_write i NextInode i1 m1 m2 ->
  links m2 [(i, b); (i1, b1)] /\
  (grown [(i, b); (i1, b1)] s k m2 m' -> grown [(i, b)] s (S k) m m').
Proof.
  intros (Hi & Hu & Hb & Hn & _) Hne Hi1 Ei Eb Hmade Ei1 Eb1 Hw.
  pose proof (area_keeps_bits i _ _ Hi (fw_same _ _ _ _ _ Hw)) as Hbits.
  assert (Hused : forall j, 0 <= j < 256 -> inode_used m2 j = if j =? i1 then true else inode_used m j).
  { intros j Hj. rewrite (proj1 (Hbits j Hj)). by apply (im_used _ _ _ _ Hmade). }
  destruct (free_lists_ext m1 m2 Hbits) as [Ei2 Eb2]. split.
  - cbn [links hd map fst]. rewrite !Hused by (unfold SIZE in *; lia). rewrite Z.eqb_refl.
    rewrite (fw_eq _ _ _ _ _ Hw). rewrite !(fw_ne _ _ _ _ _ Hw) by (try done; naive_solver).
    rewrite (im_other _ _ _ _ Hmade i Block) by done.
    rewrite (im_block _ _ _ _ Hmade), (im_next _ _ _ _ Hmade).
    destruct (Z.eqb_spec i i1); [done|]. split_and!; try done; lia.
  - intros [G1 G2 G3 G4 G5 G6].
    rewrite ?Ei2, ?Eb2, ?Ei1, ?Eb1 in *. split; rewrite ?Ei, ?Eb; try done.
    + eapply same_but_trans; [|exact G1]. eapply same_but_trans.
      * eapply same_but_mono; [exact (im_same _ _ _ _ Hmade)|].
        intros a [?|?]; [by left|by eapply inode_area_table].
      * eapply same_but_mono; [exact (fw_same _ _ _ _ _ Hw)|]. intros a. by apply inode_area_table.
    + intros j g Hj Hj1 Hj2. cbn [take] in Hj2. rewrite G3; [|done|set_solver..].
      rewrite (fw_ne _ _ _ _ _ Hw) by set_solver. apply (im_other _ _ _ _ Hmade); set_solver.
    + intros j Hj Hju. apply G4; [done|]. rewrite Hused by done. by case_Z.
Qed.

Lemma grow_chain_spec now fuel : forall m i b ns s,
  image m -> 0 <= now < 2 ^ 64 ->
  links m ((i, b) :: ns) -> NoDup (i :: map fst ns) -> fld m i Size = s -> s <= INT_MAX ->
  (length ns <= extra s < fuel)%nat ->
  (extra s - length ns <= length (free_inodes m))%nat ->
  (extra s - length ns <= length (free_blocks m))%nat ->
  wp (grow_chain now fuel (Some (inode_addr i)))
     (fun _ m' => image m' /\ grown ((i, b) :: ns) s (extra s - length ns) m m') m.
Proof.
  induction fuel as [|fuel IH]; intros m i b ns s Hm Hnow Hl Hnd Hs Hmax Hlen Hfi Hfb; [lia|].
  pose proof Hl as (Hi & Hu & Hb & Hn & Hl'). cbn [grow_chain]. rewrite wp_bind, get_field_spec, Hs by done.
  destruct (Z.ltb_spec BLOCK_SIZE s) as [Hlt|Hge].
  2: { rewrite extra_small in * by done. destruct ns; [|simpl in *; lia]. rewrite wp_ret. split; [done|].
       split; rewrite ?drop_0; done. }
  assert (Hstep : forall m i1 b1 ns, image m -> links m ((i, b) :: (i1, b1) :: ns) ->
    NoDup (i :: i1 :: map fst ns) -> fld m i Size = s -> (S (length ns) <= extra s)%nat ->
    (extra s - S (length ns) <= length (free_inodes m))%nat ->
    (extra s - S (length ns) <= length (free_blocks m))%nat ->
    wp (let! sz := get_field (Some (inode_addr i)) Size in
        let! nx := get_field (Some (inode_addr i)) NextInode in
        let! pnode := get_inode nx in
        do! set_field pnode Size (sz - BLOCK_SIZE) in grow_chain now fuel pnode)
     (fun _ m' => image m' /\ grown ((i, b) :: (i1, b1) :: ns) s (extra s - S (length ns)) m m') m).
  { destruct Hlen as [_ Hfuel]. clear - IH Hnow Hlt Hmax Hfuel. intros m i1 b1 ns Hm Hl Hnd Hs Hns Hfi Hfb.
    pose proof Hl as (Hi & Hu & _ & Hn & Hi1 & Hu1 & Hb1 & Hn1 & Hl1). cbn [map fst hd] in Hn.
    wp_pure. rewrite get_field_spec by done. wp_pure. rewrite get_field_spec, Hn by done.
    wp_pure. rewrite get_inode_spec, Hu1 by done. wp_pure. rewrite Hs.
    apply set_field_spec; [done|done| |].
    { simpl. unfold INT_MIN, INT_MAX, BLOCK_SIZE in *. lia. }
    intros m1 Hm1 Hw. pose proof (area_keeps_bits i1 _ _ Hi1 (fw_same _ _ _ _ _ Hw)) as Hbits.
    destruct (free_lists_ext m m1 Hbits) as [Ei Eb]. rewrite extra_step in * by done. cbn [Nat.sub] in *.
    eapply wp_mono; [eapply (IH m1 i1 b1 ns (s - BLOCK_SIZE)); rewrite ?Ei, ?Eb; try done; try lia|].
    - apply (links_ext m); [|by destruct Hl as (_ & _ & _ & _ & Hl)]. intros j c Hj.
      pose proof (links_used m ((i1, b1) :: ns) j c ltac:(by destruct Hl as (_ & _ & _ & _ & Hl)) Hj) as [Hj1 _].
      rewrite !(fw_ne _ _ _ _ _ Hw) by (try done; by right).
      split; [apply Hbits; unfold SIZE in *; lia|done].
    - by apply NoDup_cons in Hnd as [_ ?].
    - by apply (fw_eq _ _ _ _ _ Hw).
    - unfold BLOCK_SIZE. lia.
    - intros [] m' [Hm' Hg]. split; [done|]. by eapply grown_cons. }
  rewrite wp_bind, get_field_spec, Hn by done. destruct ns as [|[i1 b1] ns]; cbn [map fst hd].
  - rewrite Z.eqb_refl. rewrite extra_step in * by done. cbn [length Nat.sub] in *.
    destruct (free_inodes m) as [|i1 fi] eqn:Efi; [simpl in Hfi; lia|].
    destruct (free_blocks m) as [|b1 fb] eqn:Efb; [simpl in Hfb; lia|].
    wp_pure. eapply wp_mono; [by eapply alloc_inode_free|].
    intros r m1 (-> & Hm1 & Hi1 & Hu1 & Hmade & Ei1 & Eb1). rewrite Efb in *. cbn [hd tl] in *.
    assert (Hne : i <> i1) by congruence.
    apply set_field_spec; [done|done| |].
    { simpl. unfold INT_MIN, INT_MAX, SIZE in *. lia. }
    intros m2 Hm2 Hw. destruct (grown_alloc m i b i1 b1 fi fb s (extra (s - BLOCK_SIZE)) m1 m2 m2) as [Hl2 _];
      try done; [lia|].
    pose proof (area_keeps_bits i _ _ Hi (fw_same _ _ _ _ _ Hw)) as Hbits.
    destruct (free_lists_ext m1 m2 Hbits) as [Ei2 Eb2].
    eapply wp_mono; [apply (Hstep m2 i1 b1 []); rewrite ?Ei2, ?Eb2, ?Ei1, ?Eb1; try done; cbn [length Nat.sub] in *; try lia|].
    + apply NoDup_cons. split; [set_solver|]. apply NoDup_singleton.
    + rewrite (fw_ne _ _ _ _ _ Hw) by (try done; by right). rewrite (im_other _ _ _ _ Hmade) by done. done.
    + intros [] m' [Hm' Hg]. split; [done|]. cbn [length Nat.sub] in Hg. rewrite ?Nat.sub_0_r in Hg.
      eapply grown_alloc; try done. lia.
  - destruct Hl' as (Hi1 & _). destruct (Z.eqb_spec i1 (-1)); [lia|]. rewrite wp_bind, wp_ret.
    cbn [length] in *. apply Hstep; try done; lia.
Qed.

(** A file of [s] bytes: distinct chained inodes, one per started block and at
    least one. *)
Definition file (m : mem) (ns : list (Z * Z)) (s : Z) : Prop :=
  0 <= s /\ nodes m ns s /\ NoDup (map fst ns) /\ length ns = S (extra s).

Lemma extra_mono s t : s <= t -> (extra s <= extra t)%nat.
Proof.
  unfold extra, BLOCK_SIZE. intros H. pose proof (Z.div_le_mono (s - 1) (t - 1) 4096). lia.
Qed.

Lemma extra_fuel s : 0 <= s -> (extra s < grow_fuel s)%nat.
Proof.
  unfold extra, grow_fuel, BLOCK_SIZE. intros H.
  pose proof (Z.div_le_mono (s - 1) s 4096). lia.
Qed.

Lemma grown_size m i b ns s s' k m1 m' :
  nodes m ((i, b) :: ns) s -> NoDup (i :: map fst ns) -> field_write i Size s' m m1 ->
  links m1 ((i, b) :: ns) /\
  (grown ((i, b) :: ns) s' k m1 m' -> grown ((i, b) :: ns) s' k m m').
Proof.
  intros Hn Hnd Hw. pose proof (nodes_links _ _ _ Hn) as Hl. pose proof Hl as (Hi & _).
  pose proof (area_keeps_bits i _ _ Hi (fw_same _ _ _ _ _ Hw)) as Hbits.
  destruct (free_lists_ext m m1 Hbits) as [Ei Eb]. split.
  - apply (links_ext m); [|done]. intros j c Hj. destruct (links_used m _ j c Hl Hj) as [Hj1 _].
    rewrite !(fw_ne _ _ _ _ _ Hw) by (try done; by right). split; [apply Hbits; unfold SIZE in *; lia|done].
  - intros [G1 G2 G3 G4 G5 G6]. rewrite Ei, ?Eb in *. split; try done.
    + eapply same_but_trans; [|exact G1]. eapply same_but_mono; [exact (fw_same _ _ _ _ _ Hw)|].
      intros a. by apply inode_area_table.
    + intros j g Hj Hj1 Hj2. rewrite G3 by done. apply (fw_ne _ _ _ _ _ Hw); [done|]. set_solver.
    + intros j Hj Hju. apply G4; [done|]. by rewrite (proj1 (Hbits j Hj)).
Qed.

Lemma map_fst_combine (l k : list Z) : length l = length k -> map fst (combine l k) = l.
Proof. revert k. induction l as [|x l IH]; intros [|y k] H; simpl in *; try done. f_equal. apply IH. lia. Qed.

Lemma NoDup_free_inodes m : NoDup (free_inodes m).
Proof. apply NoDup_filter, NoDup_seqZ. Qed.

(** The grown chain is a file again. *)
Lemma grown_file m i b ns s s' m' :
  file m ((i, b) :: ns) s -> s <= s' ->
  (extra s' - length ns <= length (free_inodes m))%nat ->
  (extra s' - length ns <= length (free_blocks m))%nat ->
  grown ((i, b) :: ns) s' (extra s' - length ns) m m' ->
  file m' (((i, b) :: ns) ++ combine (take (extra s' - length ns) (free_inodes m))
                                     (take (extra s' - length ns) (free_blocks m))) s'.
Proof.
  intros (Hs & Hn & Hnd & Hlen) Hle Hfi Hfb [_ G2 _ _ _ _]. pose proof (extra_mono s s' Hle).
  cbn [length] in Hlen. split; [lia|]. split; [done|].
  assert (Ec : length (take (extra s' - length ns) (free_inodes m)) =
               length (take (extra s' - length ns) (free_blocks m))) by (rewrite !length_take; lia).
  split.
  - rewrite map_app, map_fst_combine by done. apply NoDup_app. split; [done|]. split.
    + intros j Hj Hin. apply (subseteq_take _) in Hin. apply free_inodes_unused in Hin as [_ Hin].
      change (map fst ((i, b) :: ns)) with (fst <$> ((i, b) :: ns)) in Hj.
      apply list_elem_of_fmap in Hj as ([j' c] & -> & Hj).
      destruct (links_used _ _ _ _ (nodes_links _ _ _ Hn) Hj). cbn in Hin. congruence.
    + eapply sublist_NoDup; [apply (NoDup_free_inodes m)|]. apply sublist_take.
  - rewrite length_app, length_combine, !length_take. cbn [length]. lia.
Qed.

Lemma grow_inode_spec now m i b ns s n :
  image m -> 0 <= now < 2 ^ 64 -> file m ((i, b) :: ns) s -> 0 <= n -> s + n <= INT_MAX ->
  (extra (s + n) - length ns <= length (free_inodes m))%nat ->
  (extra (s + n) - length ns <= length (free_blocks m))%nat ->
  wp (grow_inode now (Some (inode_addr i)) n) (fun r m' => r = 0 /\ image m' /\
    grown ((i, b) :: ns) (s + n) (extra (s + n) - length ns) m m') m.
Proof.
  intros Hm Hnow Hf Hn Hmax Hfi Hfb. pose proof Hf as (Hs & Hnodes & Hnd & Hlen).
  pose proof Hnodes as (Hi & _ & _ & Hsz & _). pose proof (extra_mono s (s + n) ltac:(lia)).
  cbn [length] in Hlen. unfold grow_inode. rewrite wp_bind, get_field_spec, Hsz by done.
  rewrite wp_bind, wp_chk_int. split; [apply int_range_spec; unfold INT_MIN; lia|].
  rewrite wp_bind. apply set_field_spec; [done|done|simpl; unfold INT_MIN; lia|].
  intros m1 Hm1 Hw. destruct (grown_size m i b ns s (s + n) 0 m1 m1) as [Hl _]; [done..|].
  pose proof (area_keeps_bits i _ _ Hi (fw_same _ _ _ _ _ Hw)) as Hbits.
  destruct (free_lists_ext m m1 Hbits) as [Ei Eb].
  rewrite wp_bind. eapply wp_mono.
  - apply (grow_chain_spec now _ m1 i b ns (s + n)); rewrite ?Ei, ?Eb; try done.
    + by apply (fw_eq _ _ _ _ _ Hw).
    + split; [lia|]. apply extra_fuel. lia.
  - intros [] m' [Hm' Hg]. rewrite wp_ret. split; [done|]. split; [done|].
    eapply grown_size; try done.
Qed.

(** ** Shrinking *)

(** What one round of the deallocation loop does: the bit of inode [e] and the
    block of struct [d] are freed and [d] is cleared. *)
Record dropped (e d : Z) (m m' : mem) : Prop := {
  dr_same : same_but table_area m m';
  dr_inodes : forall j, 0 <= j < 256 -> inode_used m' j = if j =? e then false else inode_used m j;
  dr_blocks : forall j, 0 <= j < 256 ->
    block_used m' j = if j =? fld m d Block then false else block_used m j;
  dr_zero : forall f, fld m' d f = 0;
  dr_other : forall j f, 0 <= j < SIZE -> j <> d -> fld m' j f = fld m j f
}.

(** Marking bits in either bitmap. *)
Lemma put_inode_bit m i Q :
  image m -> 0 <= i < SIZE ->
  (forall m', image m' -> same_but (range 0 64) m m' ->
     (forall j, 0 <= j < 256 -> inode_used m' j = if j =? i then false else inode_used m j) ->
     (forall j, 0 <= j < 256 -> block_used m' j = block_used m j) -> Q tt m') ->
  wp (bitmap_put get_inode_bitmap i 0) Q m.
Proof.
  intros Hm Hi HQ. unfold SIZE in Hi. eapply wp_mono.
  { apply bitmap_put_spec; [lia|apply bitmap_index_mapped; [done|lia|by vm_compute]]. }
  intros [] m' Hset. apply bit_set_meta in Hset as [Hs Hb]; [|lia].
  apply HQ; [by eapply image_same_but| |done|].
  - eapply same_but_mono; [exact Hs|]. unfold range. change get_inode_bitmap with 32. lia.
  - intros k Hk. eapply bit_same_but; [exact Hs|]. pose proof (bit_in_bitmap k get_blocks_bitmap Hk).
    unfold range in *. change get_inode_bitmap with 32. change get_blocks_bitmap with 0 in *. lia.
Qed.

Lemma free_block_bit m i Q :
  image m -> 0 <= i < 256 ->
  (forall m', image m' -> same_but (range 0 64) m m' ->
     (forall j, 0 <= j < 256 -> inode_used m' j = inode_used m j) ->
     (forall j, 0 <= j < 256 -> block_used m' j = if j =? i then false else block_used m j) -> Q tt m') ->
  wp (free_block i) Q m.
Proof.
  intros Hm Hi HQ. eapply wp_mono; [by apply allocator_release|].
  intros [] m' [Hs Hb]. apply HQ; [by eapply image_same_but| | |done].
  - eapply same_but_mono; [exact Hs|]. unfold block_meta, range. change get_blocks_bitmap with 0.
    change BLOCK_BITMAP_SIZE with 32. lia.
  - intros k Hk. eapply bit_same_but; [exact Hs|]. pose proof (bit_in_bitmap k get_inode_bitmap Hk).
    unfold block_meta, range in *. change get_blocks_bitmap with 0. change BLOCK_BITMAP_SIZE with 32.
    change get_inode_bitmap with 32 in *. lia.
Qed.

Lemma drop_round m e d (k : Z -> M mem unit) Q :
  image m -> 0 <= e < SIZE -> 0 <= d < SIZE -> 0 <= fld m d Block < 256 ->
  (forall m', image m' -> dropped e d m m' -> wp (k (fld m d NextInode)) Q m') ->
  wp (do! bitmap_put get_inode_bitmap e 0 in
      let! b := get_field (Some (inode_addr d)) Block in
      do! free_block b in
      let! nx := get_field (Some (inode_addr d)) NextInode in
      do! clear_inode (Some (inode_addr d)) in k nx) Q m.
Proof.
  intros Hm He Hd Hb HQ. wp_pure. apply put_inode_bit; [done..|]. intros m1 Hm1 Hs1 Hi1 Hb1.
  assert (Hf1 : forall j g, 0 <= j -> fld m1 j g = fld m j g) by (intros; by apply meta_keeps_fields).
  wp_pure. rewrite get_field_spec, Hf1 by (try done; lia). wp_pure.
  apply free_block_bit; [done..|]. intros m2 Hm2 Hs2 Hi2 Hb2.
  assert (Hf2 : forall j g, 0 <= j -> fld m2 j g = fld m j g).
  { intros. rewrite <- Hf1 by done. by apply meta_keeps_fields. }
  wp_pure. rewrite get_field_spec, Hf2 by (try done; lia). wp_pure.
  apply clear_inode_spec; [done..|]. intros m3 Hm3 Hc. apply HQ; [done|].
  pose proof (area_keeps_bits d _ _ Hd (ic_same _ _ _ Hc)) as Hbits. split.
  - eapply same_but_trans; [eapply same_but_mono; [exact Hs1|by left]|].
    eapply same_but_trans; [eapply same_but_mono; [exact Hs2|by left]|].
    eapply same_but_mono; [exact (ic_same _ _ _ Hc)|]. intros a. by apply inode_area_table.
  - intros j Hj. rewrite (proj1 (Hbits j Hj)), Hi2, Hi1; done.
  - intros j Hj. rewrite (proj2 (Hbits j Hj)), Hb2, Hb1; done.
  - apply (ic_zero _ _ _ Hc).
  - intros j f Hj Hne. rewrite (ic_ne _ _ _ Hc) by done. apply Hf2. lia.
Qed.

(** Walking to the last inode that is kept. *)
Lemma find_fit_spec n fuel : forall m i b ns s,
  image m -> nodes m ((i, b) :: ns) s -> length ns = extra s -> 0 <= n <= s ->
  (length ns < fuel)%nat ->
  wp (find_fit fuel n (Some (inode_addr i))) (fun p m' => m' = m /\
    exists pre j c post, (i, b) :: ns = pre ++ (j, c) :: post /\
      length pre = extra (s - n) /\ p = Some (inode_addr j)) m.
Proof.
  induction fuel as [|fuel IH]; intros m i b ns s Hm Hn Hlen Hns Hfuel; [lia|].
  pose proof Hn as (Hi & Hu & Hb & Hs & Hnx & Hn'). cbn [find_fit].
  rewrite wp_bind, get_field_spec, Hs by done. destruct (Z.ltb_spec n (s - BLOCK_SIZE)).
  - rewrite extra_step in Hlen by (unfold BLOCK_SIZE in *; lia).
    destruct ns as [|[i1 b1] ns]; [done|]. cbn [length map fst hd] in *. pose proof Hn' as (Hi1 & Hu1 & _).
    rewrite wp_bind, get_field_spec, Hnx by done. rewrite wp_bind, get_inode_spec, Hu1 by done.
    eapply wp_mono; [apply (IH m i1 b1 ns (s - BLOCK_SIZE)); try done; lia|].
    intros p m' (-> & pre & j & c & post & E & El & ->). split; [done|].
    exists ((i, b) :: pre), j, c, post. rewrite E. cbn [length]. rewrite El. split; [done|]. split; [|done].
    rewrite (extra_step (s - n)) by lia. do 2 f_equal. lia.
  - rewrite wp_ret. split; [done|]. exists [], i, b, ns. rewrite extra_small by lia. done.
Qed.

(** What the deallocation loop does for a detached chain [post]: the bits of
    its first two inodes are cleared; freed are the block of the first and,
    when there is a second, block 0, because the loop reads the struct it has
    just cleared. *)
Definition freed_inodes (post : list (Z * Z)) : list Z := take 2 (map fst post).
Definition freed_blocks (post : list (Z * Z)) : list Z :=
  match post with
  | [] => []
  | [(_, b)] => [b]
  | (_, b) :: _ => [b; 0]
  end.

Record deleted (post : list (Z * Z)) (m m' : mem) : Prop := {
  de_same : same_but table_area m m';
  de_inodes : forall j, 0 <= j < 256 ->
    inode_used m' j = if decide (j ∈ freed_inodes post) then false else inode_used m j;
  de_blocks : forall j, 0 <= j < 256 ->
    block_used m' j = if decide (j ∈ freed_blocks post) then false else block_used m j;
  de_other : forall j f, 0 <= j < SIZE -> j ∉ map fst post -> fld m' j f = fld m j f
}.

Lemma if_eqb_decide (i e : Z) (l : list Z) (b : bool) :
  (if i =? e then false else if decide (i ∈ l) then false else b) =
  if decide (i ∈ e :: l) then false else b.
Proof. destruct (Z.eqb_spec i e); repeat case_decide; set_solver. Qed.

Lemma if_eqb_decide1 (i e : Z) (b : bool) :
  (if i =? e then false else b) = if decide (i ∈ [e]) then false else b.
Proof. destruct (Z.eqb_spec i e); repeat case_decide; set_solver. Qed.

Lemma delete_chain_spec m post :
  image m -> 0 <= rd m 32 < 256 -> links m post ->
  Forall (fun n => 0 < n.1 /\ 0 <= n.2 < 256) post ->
  wp (let! to_del := get_inode (hd (-1) (map fst post)) in
      delete_chain 3 (hd (-1) (map fst post)) to_del)
     (fun _ m' => image m' /\ deleted post m m') m.
Proof.
  intros Hm Hbyte Hl Hpos. destruct post as [|[i b] post]; cbn [map fst hd].
  { rewrite wp_bind, (wp_eq _ _ _ _ _ (get_inode_negative m (-1) Hm ltac:(lia) Hbyte)).
    split; [done|]. split; done. }
  destruct Hl as (Hi & Hu & Hb & Hn & Hl). apply Forall_cons in Hpos as [[Hi0 Hb0] Hpos]. cbn in Hi0, Hb0.
  rewrite wp_bind, get_inode_spec, Hu by done. cbn [delete_chain].
  rewrite (proj2 (Z.ltb_lt 0 i)) by done.
  apply drop_round; [done..|lia|]. rewrite Hn. intros m1 Hm1 [D1 D2 D3 D4 D5].
  destruct post as [|[i2 b2] post]; cbn [map fst hd].
  { split; [done|]. split; try done.
    - intros j Hj. rewrite D2 by done. apply if_eqb_decide1.
    - intros j Hj. rewrite D3, Hb by done. apply if_eqb_decide1.
    - intros j f Hj Hne. apply D5; set_solver. }
  destruct Hl as (Hi2 & _). apply Forall_cons in Hpos as [[Hi20 _] _]. cbn in Hi20.
  rewrite (proj2 (Z.ltb_lt 0 i2)) by done.
  apply drop_round; [done..|rewrite D4; lia|]. intros m2 Hm2 [E1 E2 E3 E4 E5]. rewrite D4. cbn.
  split; [done|]. split.
  - by eapply same_but_trans.
  - intros j Hj. rewrite E2, D2 by done. unfold freed_inodes. cbn [map fst take].
    rewrite <- if_eqb_decide, <- if_eqb_decide1. by repeat case_Z.
  - intros j Hj. rewrite E3, D3, D4, Hb by done. unfold freed_blocks.
    rewrite <- if_eqb_decide, <- if_eqb_decide1. by repeat case_Z.
  - intros j f Hj Hne. rewrite E5 by set_solver. apply D5; set_solver.
Qed.

Lemma nodes_ext m m' ns : forall t,
  (forall j, 0 <= j < SIZE -> j ∈ map fst ns ->
     inode_used m' j = inode_used m j /\ forall f, fld m' j f = fld m j f) ->
  nodes m ns t -> nodes m' ns t.
Proof.
  induction ns as [|[j c] ns IH]; intros t He Hn; [done|].
  destruct Hn as (Hj & ? & ? & ? & ? & Hn). cbn [nodes map fst] in *.
  destruct (He j Hj ltac:(set_solver)) as [-> Hf]. rewrite !Hf. split_and!; try done; try lia.
  apply IH; [|done]. intros k Hk Hin. apply He; [done|set_solver].
Qed.

(** Subtracting [n] from the sizes after the first. *)
Lemma shrink_sizes_spec n fuel : forall m i ns t,
  image m -> 0 <= i < SIZE ->
  fld m i NextInode = hd (-1) (map fst ns) ->
  nodes m ns t -> NoDup (map fst ns) -> i ∉ map fst ns -> (length ns < fuel)%nat ->
  INT_MIN <= t - n - 4096 * Z.of_nat (length ns) -> t - n <= INT_MAX ->
  wp (shrink_sizes fuel n (Some (inode_addr i))) (fun _ m' => image m' /\
    same_but (range 8192 2560) m m' /\ nodes m' ns (t - n) /\
    forall j f, 0 <= j < SIZE -> j ∉ map fst ns \/ f <> Size -> fld m' j f = fld m j f) m.
Proof.
  induction fuel as [|fuel IH]; intros m i ns t Hm Hi Hnx Hn Hnd Hni Hfuel Hlo Hhi; [lia|].
  cbn [shrink_sizes]. rewrite wp_bind, get_field_spec, Hnx by done.
  destruct ns as [|[i1 b1] ns]; cbn [map fst hd] in *.
  { split_and!; done. }
  destruct Hn as (Hi1 & Hu1 & Hb1 & Hs1 & Hn1 & Hn). cbn [length] in *.
  destruct (Z.eqb_spec i1 (-1)); [lia|]. cbn [negb].
  rewrite wp_bind, get_inode_spec, Hu1 by done. rewrite wp_bind, get_field_spec, Hs1 by done.
  rewrite wp_bind, wp_chk_int. split; [apply int_range_spec; lia|].
  rewrite wp_bind. apply set_field_spec; [done|done|simpl; lia|]. intros m1 Hm1 Hw.
  apply NoDup_cons in Hnd as [Hni1 Hnd].
  pose proof (area_keeps_bits i1 _ _ Hi1 (fw_same _ _ _ _ _ Hw)) as Hbits.
  assert (Hn' : nodes m1 ns (t - BLOCK_SIZE)).
  { apply (nodes_ext m); [|done]. intros j Hj Hjn. split; [apply Hbits; unfold SIZE in *; lia|].
    intros f. apply (fw_ne _ _ _ _ _ Hw); [done|]. set_solver. }
  eapply wp_mono; [apply (IH m1 i1 ns (t - BLOCK_SIZE)); try done; try (unfold BLOCK_SIZE in *; lia)|].
  - rewrite (fw_ne _ _ _ _ _ Hw) by (try done; by right). done.
  - intros [] m' (Hm' & Hs & Hns & Ho). split; [done|].
    assert (Hsame : same_but (range 8192 2560) m m').
    { eapply same_but_trans; [eapply same_but_mono; [exact (fw_same _ _ _ _ _ Hw)|]|exact Hs].
      intros a. unfold inode_area, range, INODE_SIZE, SIZE in *. rewrite inode_addr_eq. lia. }
    split; [done|]. split.
    + cbn [nodes]. rewrite !Ho by (try done; by left). rewrite (fw_eq _ _ _ _ _ Hw).
      rewrite !(fw_ne _ _ _ _ _ Hw) by (try done; by right).
      assert (inode_used m' i1 = inode_used m i1) as ->.
      { eapply bit_same_but; [exact Hsame|].
        pose proof (bit_in_bitmap i1 get_inode_bitmap ltac:(unfold SIZE in *; lia)).
        unfold range in *. change get_inode_bitmap with 32 in *. lia. }
      split_and!; try done; try lia. replace (t - n - BLOCK_SIZE) with (t - BLOCK_SIZE - n) by lia. done.
    + intros j f Hj Hne. rewrite Ho by set_solver. apply (fw_ne _ _ _ _ _ Hw); [done|]. set_solver.
Qed.

Lemma nodes_app_links m pre post s : nodes m (pre ++ post) s -> links m post.
Proof.
  revert s. induction pre as [|[i b] pre IH]; intros s H; [by eapply nodes_links|].
  destruct H as (_ & _ & _ & _ & _ & H). by eapply IH.
Qed.

Lemma nodes_app_used m pre j c post s : nodes m (pre ++ (j, c) :: post) s -> 0 <= j < SIZE.
Proof. intros H%nodes_app_links. by destruct H. Qed.

(** Cutting a chain after [j]. *)
Lemma nodes_cut m m1 j c post pre : forall s,
  nodes m (pre ++ (j, c) :: post) s -> NoDup (map fst (pre ++ (j, c) :: post)) ->
  field_write j NextInode (-1) m m1 -> nodes m1 (pre ++ [(j, c)]) s.
Proof.
  intros s Hn Hnd Hw. pose proof (nodes_app_used _ _ _ _ _ _ Hn) as Hj0.
  pose proof (area_keeps_bits j _ _ Hj0 (fw_same _ _ _ _ _ Hw)) as Hbits.
  revert s Hn Hnd. induction pre as [|[i b] pre IH]; intros s Hn Hnd.
  - destruct Hn as (Hj & Hu & Hb & Hs & Hnx & Hn). cbn [app nodes map fst hd].
    rewrite (fw_eq _ _ _ _ _ Hw), !(fw_ne _ _ _ _ _ Hw) by (try done; by right).
    rewrite (proj1 (Hbits j ltac:(unfold SIZE in *; lia))). split_and!; try done; lia.
  - cbn [app map fst] in Hnd. apply NoDup_cons in Hnd as [Hni Hnd].
    destruct Hn as (Hi & Hu & Hb & Hs & Hnx & Hn). cbn [app nodes].
    assert (i <> j) by (intros ->; apply Hni; rewrite map_app; set_solver).
    rewrite !(fw_ne _ _ _ _ _ Hw) by (try done; by left).
    rewrite (proj1 (Hbits i ltac:(unfold SIZE in *; lia))). split_and!; try done; try lia; [|by apply IH].
    change (fld m i NextInode = hd (-1) (map fst (pre ++ (j, c) :: post))) in Hnx.
    rewrite Hnx. by destruct pre.
Qed.

(** What shrink_inode does to a file [kept ++ post] of [s] bytes. *)
Record shrunk (kept post : list (Z * Z)) (s' : Z) (m m' : mem) : Prop := {
  sh_same : same_but table_area m m';
  sh_file : file m' kept s';
  sh_inodes : forall j, 0 <= j < 256 ->
    inode_used m' j = if decide (j ∈ freed_inodes post) then false else inode_used m j;
  sh_blocks : forall j, 0 <= j < 256 ->
    block_used m' j = if decide (j ∈ freed_blocks post) then false else block_used m j;
  sh_other : forall j f, 0 <= j < SIZE -> j ∉ map fst (kept ++ post) -> fld m' j f = fld m j f;
  sh_refs : forall j, 0 <= j < SIZE -> j ∈ map fst kept -> fld m' j Refs = fld m j Refs
}.

Lemma file_length m ns s : file m ns s -> (length ns <= 64)%nat.
Proof.
  intros (_ & Hn & Hnd & _). rewrite <- (length_map fst).
  transitivity (length (seqZ 0 64)); [|by rewrite length_seqZ].
  apply submseteq_length, NoDup_submseteq; [done|]. intros x Hx. apply elem_of_seqZ.
  change (map fst ns) with (fst <$> ns) in Hx. apply list_elem_of_fmap in Hx as ([j c] & -> & Hx).
  destruct (links_used _ _ _ _ (nodes_links _ _ _ Hn) Hx) as [H _]. unfold SIZE in H. cbn. lia.
Qed.

(** The last step of shrink_inode: the new sizes along the kept chain. *)
Lemma resize_spec n m i b ns s :
  image m -> nodes m ((i, b) :: ns) s -> NoDup (i :: map fst ns) -> length ns = extra (s - n) ->
  0 <= n <= s -> s <= INT_MAX -> (length ns < 65)%nat ->
  wp (let! s := get_field (Some (inode_addr i)) Size in
      let! target_size := chk_int (s - n) in
      do! set_field (Some (inode_addr i)) Size target_size in
      do! shrink_sizes 65 n (Some (inode_addr i)) in
      ret 0)
     (fun r m' => r = 0 /\ image m' /\ same_but (range 8192 2560) m m' /\
        nodes m' ((i, b) :: ns) (s - n) /\
        forall j f, 0 <= j < SIZE -> j ∉ i :: map fst ns \/ f <> Size -> fld m' j f = fld m j f) m.
Proof.
  intros Hm (Hi & Hu & Hb & Hs & Hnx & Hn) [Hni Hnd]%NoDup_cons Hlen Hns Hmax Hl.
  unfold INT_MAX in Hmax. rewrite wp_bind, get_field_spec, Hs by done.
  rewrite wp_bind, wp_chk_int. split; [apply int_range_spec; unfold INT_MIN, INT_MAX; lia|].
  rewrite wp_bind. apply set_field_spec; [done|done|simpl; unfold INT_MIN, INT_MAX; lia|].
  intros m1 Hm1 Hw. pose proof (area_keeps_bits i _ _ Hi (fw_same _ _ _ _ _ Hw)) as Hbits.
  assert (Hn1 : nodes m1 ns (s - BLOCK_SIZE)).
  { apply (nodes_ext m); [|done]. intros j Hj Hin. split; [apply Hbits; unfold SIZE in *; lia|].
    intros f. apply (fw_ne _ _ _ _ _ Hw); [done|]. set_solver. }
  rewrite wp_bind. eapply wp_mono; [apply (shrink_sizes_spec n _ m1 i ns (s - BLOCK_SIZE)); try done|].
  - rewrite (fw_ne _ _ _ _ _ Hw) by (try done; by right). done.
  - unfold BLOCK_SIZE, INT_MIN. lia.
  - unfold BLOCK_SIZE, INT_MAX. lia.
  - intros [] m' (Hm' & Hsame & Hn' & Ho). rewrite wp_ret.
    assert (Hs' : same_but (range 8192 2560) m m').
    { eapply same_but_trans; [eapply same_but_mono; [exact (fw_same _ _ _ _ _ Hw)|]|exact Hsame].
      intros a. unfold inode_area, range, INODE_SIZE, SIZE in *. rewrite inode_addr_eq. lia. }
    split; [done|]. split; [done|]. split; [done|]. split.
    + cbn [nodes]. rewrite !Ho, (fw_eq _ _ _ _ _ Hw) by (try done; by left).
      rewrite !(fw_ne _ _ _ _ _ Hw) by (try done; by right).
      assert (inode_used m' i = inode_used m i) as ->.
      { eapply bit_same_but; [exact Hs'|].
        pose proof (bit_in_bitmap i get_inode_bitmap ltac:(unfold SIZE in *; lia)).
        unfold range in *. change get_inode_bitmap with 32 in *. lia. }
      replace (s - n - BLOCK_SIZE) with (s - BLOCK_SIZE - n) by lia. split_and!; try done; lia.
    + intros j f Hj Hne. rewrite Ho by set_solver. apply (fw_ne _ _ _ _ _ Hw); [done|]. set_solver.
Qed.

(** What keeps the table usable by shrink_inode: positive inode numbers and
    real blocks along the chain. *)
Definition chain_ok (ns : list (Z * Z)) : Prop := Forall (fun n => 0 < n.1 /\ 0 <= n.2 < 256) ns.

Lemma freed_inodes_post post j : j ∈ freed_inodes post -> j ∈ map fst post.
Proof. apply subseteq_take. Qed.

Lemma shrink_inode_spec m i b ns s n :
  image m -> 0 <= rd m 32 < 256 -> file m ((i, b) :: ns) s -> chain_ok ((i, b) :: ns) ->
  0 <= n <= s -> s <= INT_MAX ->
  let kept := take (S (extra (s - n))) ((i, b) :: ns) in
  let post := drop (S (extra (s - n))) ((i, b) :: ns) in
  wp (shrink_inode (Some (inode_addr i)) n)
     (fun r m' => r = 0 /\ image m' /\ shrunk kept post (s - n) m m') m.
Proof.
  intros Hm Hbyte Hf Hok Hn Hmax kept post. pose proof (file_length _ _ _ Hf) as H64.
  pose proof Hf as (Hs & Hnodes & Hnd & Hlen). cbn [length] in Hlen, H64.
  unfold shrink_inode. cbv zeta. change (S (Z.to_nat SIZE)) with 65%nat.
  rewrite wp_bind. eapply wp_mono; [apply (find_fit_spec n _ m i b ns s); try done; lia|].
  intros p m' (-> & pre & j & c & post' & E & Epre & ->).
  assert (Ek : kept = pre ++ [(j, c)] /\ post = post').
  { subst kept post. rewrite E, <- Epre. split.
    - replace (S (length pre)) with (length pre + 1)%nat by lia. by rewrite take_app_add.
    - replace (S (length pre)) with (length pre + 1)%nat by lia. by rewrite drop_app_add. }
  clearbody kept post. destruct Ek as [-> ->]. rewrite E in *.
  pose proof (nodes_app_links _ _ _ _ Hnodes) as (Hj & _ & _ & Hnx & Hlpost).
  rewrite wp_bind, get_field_spec, Hnx by done. rewrite wp_bind.
  apply set_field_spec; [done|done|by vm_compute|]. intros m1 Hm1 Hw.
  pose proof (area_keeps_bits j _ _ Hj (fw_same _ _ _ _ _ Hw)) as Hbits.
  pose proof Hnd as Hnd'. rewrite map_app in Hnd'. cbn [map fst] in Hnd'.
  apply NoDup_app in Hnd' as (Hnd1 & Hnd2 & [Hnd3 Hnd4]%NoDup_cons).
  assert (Hl1 : links m1 post').
  { apply (links_ext m); [|done]. intros k d Hk. destruct (links_used _ _ _ _ Hlpost Hk) as [Hk1 _].
    apply elem_map_fst in Hk. rewrite !(fw_ne _ _ _ _ _ Hw) by (try done; left; set_solver).
    split; [apply Hbits; unfold SIZE in *; lia|done]. }
  assert (Hbyte1 : 0 <= rd m1 32 < 256).
  { rewrite (proj2 (proj2 (fw_same _ _ _ _ _ Hw)) 32); [done|].
    unfold inode_area, range. rewrite inode_addr_eq. lia. }
  pose proof (delete_chain_spec m1 post' Hm1 Hbyte1 Hl1) as Hdel.
  rewrite wp_bind in Hdel. rewrite wp_bind. eapply wp_mono; [apply Hdel|].
  { apply Forall_app in Hok as [_ Hok]. by apply Forall_cons in Hok as [_ ?]. }
  intros to_del m2 Hd. cbv beta in Hd. rewrite wp_bind. eapply wp_mono; [exact Hd|].
  intros [] m3 [Hm3 [E1 E2 E3 E4]].
  assert (Hhead : exists ns', pre ++ [(j, c)] = (i, b) :: ns').
  { destruct pre as [|q pre]; cbn [app] in *; injection E.
    - intros _ -> ->. by exists [].
    - intros _ <-. by eexists. }
  destruct Hhead as [ns' Hhead]. rewrite Hhead.
  assert (Hdisj : forall k, k ∈ i :: map fst ns' -> k ∉ map fst post').
  { change (i :: map fst ns') with (map fst ((i, b) :: ns')). rewrite <- Hhead, map_app. set_solver. }
  assert (Hn3 : nodes m3 ((i, b) :: ns') s).
  { rewrite <- Hhead. apply (nodes_ext m1); [|by eapply nodes_cut].
    intros k Hk Hin. rewrite Hhead in Hin. pose proof (Hdisj k Hin) as Hkp. split.
    - rewrite E2 by (unfold SIZE in *; lia). case_decide as Hd'; [|done].
      by apply freed_inodes_post in Hd'.
    - intros f. by apply E4. }
  assert (Hlen' : length ns' = extra (s - n)).
  { assert (length (pre ++ [(j, c)]) = S (length ns')) as Hx by (by rewrite Hhead).
    rewrite length_app in Hx. cbn in Hx. lia. }
  assert (Hnd' : NoDup (i :: map fst ns')).
  { change (i :: map fst ns') with (map fst ((i, b) :: ns')). rewrite <- Hhead, map_app.
    apply NoDup_app. cbn. split_and!; try done; [set_solver|apply NoDup_singleton]. }
  pose proof (extra_mono (s - n) s ltac:(lia)).
  eapply wp_mono; [apply (resize_spec n m3 i b ns' s); try done; lia|].
  intros r m' (-> & Hm' & Hsame & Hn' & Ho). split; [done|]. split; [done|].
  assert (Hbits' : forall k, 0 <= k < 256 -> inode_used m' k = inode_used m3 k /\ block_used m' k = block_used m3 k).
  { intros k Hk. split; (eapply bit_same_but; [exact Hsame|]);
      [pose proof (bit_in_bitmap k get_inode_bitmap Hk)|pose proof (bit_in_bitmap k get_blocks_bitmap Hk)];
      unfold range in *; change get_inode_bitmap with 32 in *; change get_blocks_bitmap with 0 in *; lia. }
  split.
  - eapply same_but_trans; [eapply same_but_mono; [exact (fw_same _ _ _ _ _ Hw)|intros a; by apply inode_area_table]|].
    eapply same_but_trans; [exact E1|]. eapply same_but_mono; [exact Hsame|by right].
  - split; [lia|]. split; [done|]. split; [done|]. cbn [length]. lia.
  - intros k Hk. rewrite (proj1 (Hbits' k Hk)), E2, (proj1 (Hbits k Hk)); done.
  - intros k Hk. rewrite (proj2 (Hbits' k Hk)), E3, (proj2 (Hbits k Hk)); done.
  - intros k f Hk Hni. rewrite map_app in Hni. cbn [map fst] in Hni.
    rewrite Ho by (try done; left; set_solver). rewrite E4 by (try done; set_solver).
    apply (fw_ne _ _ _ _ _ Hw); [done|]. left. intros ->. apply Hni.
    change (i :: map fst ns') with (map fst ((i, b) :: ns')). rewrite <- Hhead, map_app. set_solver.
  - intros k Hk Hin. rewrite Ho by (try done; by right). rewrite E4 by (try done; by apply Hdisj).
    apply (fw_ne _ _ _ _ _ Hw); [done|by right].
Qed.

Lemma free_inode_spec m i b ns s :
  image m -> 0 <= rd m 32 < 256 -> file m ((i, b) :: ns) s -> chain_ok ((i, b) :: ns) ->
  s <= INT_MAX -> fld m i Refs = 0 ->
  wp (free_inode i) (fun _ m' => image m' /\ same_but table_area m m' /\
    (forall j, 0 <= j < 256 ->
       inode_used m' j = if decide (j ∈ i :: freed_inodes ns) then false else inode_used m j) /\
    (forall j, 0 <= j < 256 ->
       block_used m' j = if decide (j ∈ b :: freed_blocks ns) then false else block_used m j) /\
    forall j f, 0 <= j < SIZE -> j ∉ i :: map fst ns -> fld m' j f = fld m j f) m.
Proof.
  intros Hm Hbyte Hf Hok Hmax Hrefs. pose proof Hf as (Hs & (Hi & Hu & Hb & Hsz & _) & _).
  unfold free_inode. rewrite wp_bind, get_inode_spec, Hu by done.
  rewrite wp_bind, get_field_spec, Hrefs by done. rewrite wp_bind, wp_assert. split; [done|].
  rewrite wp_bind, get_field_spec, Hsz by done. rewrite wp_bind.
  eapply wp_mono; [apply (shrink_inode_spec m i b ns s s); try done; lia|].
  intros r m1 (_ & Hm1 & [S1 S2 S3 S4 S5 _]). rewrite Z.sub_diag in *.
  change (extra 0) with 0%nat in *. cbn [take drop map fst app] in *. rewrite take_0, drop_0 in *.
  destruct S2 as (_ & (_ & _ & Hb1 & _) & _).
  pose proof Hok as [[_ Hb0] _]%Forall_cons. cbn in Hb0.
  rewrite wp_bind, get_field_spec, Hb1 by done.
  rewrite wp_bind. apply free_block_bit; [done|done|]. intros m2 Hm2 F1 F2 F3.
  rewrite wp_bind. apply clear_inode_spec; [done..|]. intros m3 Hm3 Hc.
  pose proof (area_keeps_bits i _ _ Hi (ic_same _ _ _ Hc)) as Hbits.
  apply put_inode_bit; [done..|]. intros m4 Hm4 P1 P2 P3. split; [done|]. split; [|split; [|split]].
  - eapply same_but_trans; [exact S1|].
    eapply same_but_trans; [eapply same_but_mono; [exact F1|by left]|].
    eapply same_but_trans; [|eapply same_but_mono; [exact P1|by left]].
    eapply same_but_mono; [exact (ic_same _ _ _ Hc)|]. intros a. by apply inode_area_table.
  - intros j Hj. rewrite P2, (proj1 (Hbits j Hj)), F2, S3 by done. apply if_eqb_decide.
  - intros j Hj. rewrite P3, (proj2 (Hbits j Hj)), F3, S4 by done. apply if_eqb_decide.
  - intros j f Hj Hni. rewrite (meta_keeps_fields m3 m4) by (try done; lia).
    rewrite (ic_ne _ _ _ Hc) by set_solver. rewrite (meta_keeps_fields m1 m2) by (try done; lia).
    apply S5; [done|]. set_solver.
Qed.

(** The same facts as equations on runs. *)
Lemma get_field_run m i f :
  image m -> 0 <= i < SIZE -> get_field (Some (inode_addr i)) f m = Ok (fld m i f, m).
Proof.
  intros Hm Hi. pose proof (proj2 (get_field_spec m i f (fun v m' => v = fld m i f /\ m' = m) Hm Hi)
    ltac:(done)) as H. apply wp_run in H as (? & ? & E & -> & ->). done.
Qed.

Lemma set_field_run m i f v :
  image m -> 0 <= i < SIZE -> field_ok f v ->
  exists m', set_field (Some (inode_addr i)) f v m = Ok (tt, m') /\ image m' /\ field_write i f v m m'.
Proof.
  intros Hm Hi Hv. pose proof (set_field_spec m i f v (fun _ m' => image m' /\ field_write i f v m m')
    Hm Hi Hv ltac:(done)) as H. apply wp_run in H as ([] & m' & E & ?). eauto.
Qed.

Lemma alloc_inode_full now m :
  image m -> 0 <= now < 2 ^ 64 -> free_inodes m = [] -> alloc_inode now m = Ok (-1, m).
Proof.
  intros Hm Hnow Hfull. pose proof (alloc_inode_spec now m Hm Hnow) as H.
  apply wp_run in H as (r & m' & -> & _ & H). destruct H as [(-> & -> & _)|(Hr & Hu & _)]; [done|].
  assert (Hin : r ∈ free_inodes m); [|rewrite Hfull in Hin; by apply not_elem_of_nil in Hin].
  apply list_elem_of_filter. split; [done|]. apply elem_of_seqZ. unfold SIZE in Hr. lia.
Qed.

(** ** Theorems *)

(** alloc_inode is a first-fit allocator of pairs of an inode and a block.
    With a free inode it returns the lowest one, sets it up with mode 010644,
    size 0, no successor and the lowest free block (-1 when there is none), and
    takes exactly these two from the free lists; without a free inode it
    returns -1 and changes nothing. *)
Theorem alloc_inode_first_fit now m :
  image m -> 0 <= now < 2 ^ 64 ->
  exists m', alloc_inode now m = Ok (hd (-1) (free_inodes m), m') /\
    match free_inodes m with
    | [] => m' = m
    | i :: rest =>
        inode_made i (hd (-1) (free_blocks m)) m m' /\
        free_inodes m' = rest /\ free_blocks m' = tl (free_blocks m)
    end.
Proof.
  intros Hm Hnow. destruct (free_inodes m) as [|i rest] eqn:E.
  - exists m. split; [by apply alloc_inode_full|done].
  - pose proof (alloc_inode_free now m i rest Hm Hnow E) as H.
    apply wp_run in H as (r & m' & Hrun & -> & _ & _ & _ & H). eauto.
Qed.

(** C25. grow_inode extends a file.  For a well-formed file of [s] bytes and
    enough free inodes and blocks, growing by [n] returns 0 and leaves a
    well-formed file of [s + n] bytes: the old chain followed by the next free
    inodes, each with the next free block, one per started block.  Only the
    bitmaps and the inode table are written, no other inode changes, and the
    free lists lose exactly the inodes and blocks of the extension. *)
Theorem grow_inode_extends_file now m i b ns s n :
  image m -> 0 <= now < 2 ^ 64 -> file m ((i, b) :: ns) s -> 0 <= n -> s + n <= INT_MAX ->
  let k := (extra (s + n) - length ns)%nat in
  (k <= length (free_inodes m))%nat -> (k <= length (free_blocks m))%nat ->
  let fresh := combine (take k (free_inodes m)) (take k (free_blocks m)) in
  exists m', grow_inode now (Some (inode_addr i)) n m = Ok (0, m') /\
    file m' (((i, b) :: ns) ++ fresh) (s + n) /\ same_but table_area m m' /\
    (forall j g, 0 <= j < SIZE -> j ∉ map fst (((i, b) :: ns) ++ fresh) -> fld m' j g = fld m j g) /\
    free_inodes m' = drop k (free_inodes m) /\ free_blocks m' = drop k (free_blocks m).
Proof.
  intros Hm Hnow Hf Hn Hmax k Hfi Hfb fresh.
  pose proof (grow_inode_spec now m i b ns s n Hm Hnow Hf Hn Hmax Hfi Hfb) as H.
  apply wp_run in H as (r & m' & Hrun & -> & Hm' & Hg). exists m'. split; [done|].
  split; [eapply grown_file; try done; lia|]. destruct Hg as [G1 _ G3 _ G5 G6].
  split; [done|]. split; [|done]. intros j g Hj Hni. rewrite map_app in Hni. unfold fresh in Hni.
  rewrite map_fst_combine in Hni by (rewrite !length_take; lia). apply G3; set_solver.
Qed.

(** Out of inodes, grow_inode dereferences NULL.  When no inode is free
    and a one-block file is to outgrow its block, the -1 of alloc_inode is
    stored as the successor and looked up, and the program faults instead of
    returning a negative value. *)
Theorem grow_inode_out_of_inodes now m i b s n :
  image m -> 0 <= now < 2 ^ 64 -> 0 <= rd m 32 < 256 -> file m [(i, b)] s ->
  0 <= n -> BLOCK_SIZE < s + n <= INT_MAX -> free_inodes m = [] ->
  grow_inode now (Some (inode_addr i)) n m = Err NullDeref.
Proof.
  intros Hm Hnow Hbyte (Hs & (Hi & Hu & Hb & Hsz & Hnx & _) & _) Hn Hmax Hfull.
  unfold INT_MAX, BLOCK_SIZE in *. cbn [map fst hd] in Hnx.
  destruct (set_field_run m i Size (s + n)) as (m1 & E1 & Hm1 & Hw1);
    [done|done|simpl; unfold INT_MIN, INT_MAX; lia|].
  destruct (set_field_run m1 i NextInode (-1)) as (m2 & E2 & Hm2 & Hw2); [done|done|by vm_compute|].
  destruct (free_lists_ext m m1 (area_keeps_bits i _ _ Hi (fw_same _ _ _ _ _ Hw1))) as [Efi _].
  assert (Hbyte2 : 0 <= rd m2 32 < 256).
  { rewrite (proj2 (proj2 (fw_same _ _ _ _ _ Hw2)) 32), (proj2 (proj2 (fw_same _ _ _ _ _ Hw1)) 32); [done|..];
      unfold inode_area, range; rewrite inode_addr_eq; lia. }
  unfold grow_inode. rewrite (bind_ok _ _ _ _ _ (get_field_run m i Size Hm Hi)), Hsz.
  unfold chk_int at 1. rewrite (proj2 (int_range_spec _)) by (unfold INT_MIN, INT_MAX; lia).
  rewrite (bind_ok _ _ _ _ _ eq_refl), (bind_ok _ _ _ _ _ E1). apply bind_err.
  unfold grow_fuel. cbn [grow_chain].
  rewrite (bind_ok _ _ _ _ _ (get_field_run m1 i Size Hm1 Hi)), (fw_eq _ _ _ _ _ Hw1).
  rewrite (proj2 (Z.ltb_lt BLOCK_SIZE (s + n))) by (unfold BLOCK_SIZE; lia).
  rewrite (bind_ok _ _ _ _ _ (get_field_run m1 i NextInode Hm1 Hi)).
  rewrite (fw_ne _ _ _ _ _ Hw1), Hnx, Z.eqb_refl by (try done; by right).
  rewrite bind_assoc, (bind_ok _ _ _ _ _ (alloc_inode_full now m1 Hm1 Hnow ltac:(congruence))).
  rewrite (bind_ok _ _ _ _ _ E2).
  rewrite (bind_ok _ _ _ _ _ (get_field_run m2 i Size Hm2 Hi)).
  rewrite (bind_ok _ _ _ _ _ (get_field_run m2 i NextInode Hm2 Hi)), (fw_eq _ _ _ _ _ Hw2).
  rewrite (bind_ok _ _ _ _ _ (get_inode_negative m2 (-1) Hm2 ltac:(lia) Hbyte2)). done.
Qed.

(** C35. shrink_inode truncates a file.  For a well-formed file of [s] bytes,
    shrinking by [n] returns 0 and leaves a well-formed file of [s - n] bytes
    that consists of the first inodes of the chain.  Of the inodes cut off,
    only the first two are marked free and only the first one's block is
    freed: when two or more are cut, the second's block and every later inode
    and block stay allocated for ever, and block 0, which holds the bitmaps, is
    marked free instead. *)
Theorem shrink_inode_truncates m i b ns s n :
  image m -> 0 <= rd m 32 < 256 -> file m ((i, b) :: ns) s -> chain_ok ((i, b) :: ns) ->
  0 <= n <= s -> s <= INT_MAX ->
  let kept := take (S (extra (s - n))) ((i, b) :: ns) in
  let post := drop (S (extra (s - n))) ((i, b) :: ns) in
  exists m', shrink_inode (Some (inode_addr i)) n m = Ok (0, m') /\
    file m' kept (s - n) /\ same_but table_area m m' /\
    (forall j, 0 <= j < 256 ->
       inode_used m' j = if decide (j ∈ take 2 (map fst post)) then false else inode_used m j) /\
    (forall j, 0 <= j < 256 -> block_used m' j =
       if decide (j ∈ match post with [] => [] | [(_, c)] => [c] | (_, c) :: _ => [c; 0] end)
       then false else block_used m j) /\
    (forall j f, 0 <= j < SIZE -> j ∉ map fst ((i, b) :: ns) -> fld m' j f = fld m j f).
Proof.
  intros Hm Hbyte Hf Hok Hn Hmax kept post.
  pose proof (shrink_inode_spec m i b ns s n Hm Hbyte Hf Hok Hn Hmax) as H.
  apply wp_run in H as (r & m' & Hrun & -> & Hm' & [S1 S2 S3 S4 S5 _]).
  rewrite take_drop in S5. exists m'. done.
Qed.

(** free_inode on an unreferenced file of [s] bytes.  It never faults, and
    the inodes and blocks it gives back are those of the first inode and of the
    first of the rest, plus the second of the rest's inode and block 0.  A file
    of at most two blocks is freed completely; a longer one leaks. *)
Theorem free_inode_releases m i b ns s :
  image m -> 0 <= rd m 32 < 256 -> file m ((i, b) :: ns) s -> chain_ok ((i, b) :: ns) ->
  s <= INT_MAX -> fld m i Refs = 0 ->
  exists m', free_inode i m = Ok (tt, m') /\ same_but table_area m m' /\
    (forall j, 0 <= j < 256 ->
       inode_used m' j = if decide (j ∈ i :: take 2 (map fst ns)) then false else inode_used m j) /\
    (forall j, 0 <= j < 256 -> block_used m' j =
       if decide (j ∈ b :: match ns with [] => [] | [(_, c)] => [c] | (_, c) :: _ => [c; 0] end)
       then false else block_used m j) /\
    (forall j f, 0 <= j < SIZE -> j ∉ i :: map fst ns -> fld m' j f = fld m j f).
Proof.
  intros Hm Hbyte Hf Hok Hmax Hrefs.
  pose proof (free_inode_spec m i b ns s Hm Hbyte Hf Hok Hmax Hrefs) as H.
  apply wp_run in H as ([] & m' & Hrun & _ & H). eauto.
Qed.

(** ** Witnesses *)

(** The memory an operation leaves. *)
Definition after {A} (c : M mem A) (m : mem) : mem :=
  match c m with Ok (_, m') => m' | Err _ => m end.

(** A formatted image with the 9000-byte file of inodes 2, 3, 4. *)
Definition demo : mem :=
  after (do! blocks_init in let! i := alloc_inode 0 in
         let! p := get_inode i in grow_inode 0 p 9000) blank.

Lemma demo_file : file demo [(2, 5); (3, 6); (4, 7)] 9000.
Proof.
  split; [lia|]. split; [|split; [|by vm_compute]].
  - cbn [nodes map fst hd]. unfold SIZE. split_and!; first [lia | by vm_compute].
  - apply (bool_decide_unpack _). by vm_compute.
Defined.

(** The same image with every inode marked. *)
Definition demo_full : mem :=
  after (do! write_bytes 32 (replicate 8 255) in
         let! p := get_inode 4 in set_field p Size 100) demo.

Lemma alloc_inode_first_fit_witness :
  exists m', alloc_inode 0 demo = Ok (hd (-1) (free_inodes demo), m') /\
    match free_inodes demo with
    | [] => m' = demo
    | i :: rest =>
        inode_made i (hd (-1) (free_blocks demo)) demo m' /\
        free_inodes m' = rest /\ free_blocks m' = tl (free_blocks demo)
    end.
Proof. apply (alloc_inode_first_fit 0 demo); [split; by vm_compute|lia]. Defined.

Lemma grow_inode_extends_file_witness :
  exists m', grow_inode 0 (Some (inode_addr 2)) 10000 demo = Ok (0, m') /\
    file m' [(2, 5); (3, 6); (4, 7); (5, 8); (6, 9)] 19000.
Proof.
  destruct (grow_inode_extends_file 0 demo 2 5 [(3, 6); (4, 7)] 9000 10000) as (m' & E & Hf & _).
  - split; by vm_compute.
  - lia.
  - exact demo_file.
  - lia.
  - unfold INT_MAX. lia.
  - apply Nat.leb_le. by vm_compute.
  - apply Nat.leb_le. by vm_compute.
  - exists m'. split; [exact E|].
    replace [(2, 5); (3, 6); (4, 7); (5, 8); (6, 9)] with
      ([(2, 5); (3, 6); (4, 7)] ++ combine (take 2 (free_inodes demo)) (take 2 (free_blocks demo)))
      by (by vm_compute). exact Hf.
Defined.

Lemma grow_inode_out_of_inodes_witness :
  grow_inode 0 (Some (inode_addr 4)) 4000 demo_full = Err NullDeref.
Proof.
  apply (grow_inode_out_of_inodes 0 demo_full 4 7 100 4000).
  - split; by vm_compute.
  - lia.
  - split; by vm_compute.
  - split; [lia|]. split; [|split; [apply NoDup_singleton|by vm_compute]].
    cbn [nodes map fst hd]. unfold SIZE. split_and!; first [lia | by vm_compute].
  - lia.
  - unfold BLOCK_SIZE, INT_MAX. lia.
  - by vm_compute.
Defined.

Lemma demo_chain_ok : chain_ok [(2, 5); (3, 6); (4, 7)].
Proof. repeat constructor; cbn; lia. Defined.

Lemma shrink_inode_truncates_witness :
  exists m', shrink_inode (Some (inode_addr 2)) 8900 demo = Ok (0, m') /\
    file m' [(2, 5)] 100 /\ block_used m' 7 = true /\ block_used m' 0 = false /\ block_used demo 0 = true.
Proof.
  destruct (shrink_inode_truncates demo 2 5 [(3, 6); (4, 7)] 9000 8900)
    as (m' & E & Hf & _ & _ & Hb & _).
  - split; by vm_compute.
  - split; by vm_compute.
  - exact demo_file.
  - exact demo_chain_ok.
  - lia.
  - unfold INT_MAX. lia.
  - exists m'. split; [exact E|]. split; [exact Hf|].
    rewrite !Hb by lia. split_and!; by vm_compute.
Defined.

Lemma free_inode_releases_witness :
  exists m', free_inode 2 demo = Ok (tt, m') /\ inode_used m' 2 = false /\ inode_used m' 4 = false /\
    block_used m' 7 = true.
Proof.
  destruct (free_inode_releases demo 2 5 [(3, 6); (4, 7)] 9000) as (m' & E & _ & Hi & Hb & _).
  - split; by vm_compute.
  - split; by vm_compute.
  - exact demo_file.
  - exact demo_chain_ok.
  - unfold INT_MAX. lia.
  - by vm_compute.
  - exists m'. split; [exact E|]. rewrite !Hi, Hb by lia. split_and!; by vm_compute.
Defined.
End Inode.
