(* ===== verification/Slist.v ===== *)
(** * Slist: File System/files/slist.c and files/list.h

    [s_explode] splits a path at a delimiter; C strings are lists of character
    codes without the terminating zero.  The reference-counted list cells are
    heap objects, so that [s_free] can be run against what [s_cons] allocated.
    The intrusive doubly linked list of list.h is a memory of [prev]/[next]
    links. *)
From stdpp Require Import base list gmap.
From Stdlib Require Import ZArith Lia.
From S2P Require Import Prelude Heap.

Module Slist.

(** ** slist.c *)

Inductive sobj :=
  | SNode (data : ptr) (refs : Z) (next : ptr)
  | SText (text : list Z).

(** malloc and strdup are not checked: a failed allocation is dereferenced. *)
Definition s_cons (text : list Z) (rest : ptr) : M (heap sobj) ptr :=
  let! xs := malloc (SNode None 0 None) in
  do! (match xs with Some _ => ret tt | None => fail NullDeref end) in
  let! data := malloc (SText text) in
  do! store xs (SNode data 1 rest) in
  ret xs.

(** Recursion along [next]; [fuel] bounds the length of the list. *)
Fixpoint s_free (fuel : nat) (xs : ptr) : M (heap sobj) unit :=
  match xs with
  | None => ret tt
  | Some _ =>
      match fuel with
      | O => fail OutOfFuel
      | S fuel =>
          let! o := load xs in
          match o with
          | SNode data refs next =>
              let refs := refs - 1 in
              do! store xs (SNode data refs next) in
              if refs =? 0 then
                do! s_free fuel next in
                do! free data in
                free xs
              else ret tt
          | SText _ => fail Uninit
          end
      end
  end.

(** The characters up to the delimiter, and how many they are. *)
Fixpoint span_delim (delim : Z) (text : list Z) : list Z :=
  match text with
  | [] => []
  | c :: rest => if c =? delim then [] else c :: span_delim delim rest
  end.

(** s_explode: the part before the delimiter, then the rest after skipping one
    delimiter; a call on the empty string gives the empty list.  Each call
    consumes at least one character, which bounds the recursion. *)
Fixpoint explode (fuel : nat) (delim : Z) (text : list Z) : list (list Z) :=
  match fuel with
  | O => []
  | S fuel =>
      match text with
      | [] => []
      | _ =>
          let part := span_delim delim text in
          let plen := length part in
          let skip := match drop plen text with
                      | c :: _ => if c =? delim then 1%nat else 0%nat
                      | [] => 0%nat
                      end in
          part :: explode fuel delim (drop (plen + skip) text)
      end
  end.

(** The list of strings s_explode returns. *)
Definition s_explode (text : list Z) (delim : Z) : list (list Z) :=
  explode (S (length text)) delim text.

(** s_explode with its allocations: the cells are built from the last one. *)
Fixpoint s_cons_all (parts : list (list Z)) : M (heap sobj) ptr :=
  match parts with
  | [] => ret None
  | part :: parts =>
      let! rest := s_cons_all parts in
      s_cons part rest
  end.

Definition s_explode_heap (text : list Z) (delim : Z) : M (heap sobj) ptr :=
  s_cons_all (s_explode text delim).

(** ** list.h *)

(** The links of every entry: address to (prev, next). *)
Abbreviation links := (gmap nat (nat * nat)).

Definition entry (e : nat) : M links (nat * nat) := fun s =>
  match s !! e with Some l => Ok (l, s) | None => Err NullDeref end.
Definition set_next (e n : nat) : M links unit :=
  let! l := entry e in modify (fun s => <[e := (fst l, n)]> s).
Definition set_prev (e p : nat) : M links unit :=
  let! l := entry e in modify (fun s => <[e := (p, snd l)]> s).

Definition list_init (elm : nat) : M links unit :=
  do! set_next elm elm in set_prev elm elm.

(** [prev->next = next->prev = elm; elm->next = next; elm->prev = prev] *)
Definition __list_add (elm prev next : nat) : M links unit :=
  do! set_prev next elm in
  do! set_next prev elm in
  do! set_next elm next in
  set_prev elm prev.

Definition __list_del (prev next : nat) : M links unit :=
  do! set_next prev next in
  set_prev next prev.

Definition list_add_after (listelm elm : nat) : M links unit :=
  let! l := entry listelm in __list_add elm listelm (snd l).
Definition list_add_before (listelm elm : nat) : M links unit :=
  let! l := entry listelm in __list_add elm (fst l) listelm.
Definition list_add (listelm elm : nat) : M links unit := list_add_after listelm elm.
Definition list_del (listelm : nat) : M links unit :=
  let! l := entry listelm in __list_del (fst l) (snd l).
Definition list_del_init (listelm : nat) : M links unit :=
  do! list_del listelm in list_init listelm.
Definition list_empty (l : nat) : M links bool :=
  let! e := entry l in ret (Nat.eqb (snd e) l).
Definition list_next (listelm : nat) : M links nat := let! e := entry listelm in ret (snd e).
Definition list_prev (listelm : nat) : M links nat := let! e := entry listelm in ret (fst e).

(** ** Splitting and joining *)

(** The parts with the delimiter between them. *)
Fixpoint join (delim : Z) (parts : list (list Z)) : list Z :=
  match parts with
  | [] => []
  | [p] => p
  | p :: parts => p ++ delim :: join delim parts
  end.

Lemma span_delim_app delim p rest :
  delim ∉ p -> (rest = [] \/ hd_error rest = Some delim) -> span_delim delim (p ++ rest) = p.
Proof.
  induction p as [|c p IH]; intros Hp Hrest; simpl.
  - destruct rest as [|c rest]; [done|]. destruct Hrest as [|[= ->]]; [done|]. simpl.
    by rewrite Z.eqb_refl.
  - destruct (Z.eqb_spec c delim); [set_solver|]. rewrite IH; [done|set_solver|done].
Qed.

Lemma span_delim_spec delim text :
  delim ∉ span_delim delim text /\
  exists rest, text = span_delim delim text ++ rest /\ (rest = [] \/ hd_error rest = Some delim).
Proof.
  induction text as [|c text [IH1 (rest & IH2 & IH3)]]; simpl; [split; [set_solver|]; exists []; eauto|].
  destruct (Z.eqb_spec c delim) as [->|]; [split; [set_solver|]; eexists; eauto|].
  split; [set_solver|]. exists rest. rewrite <- app_comm_cons, <- IH2. eauto.
Qed.

(** One step of explode on a part and what follows it. *)
Lemma explode_step fuel delim p rest :
  delim ∉ p -> p ++ rest <> [] -> (rest = [] \/ hd_error rest = Some delim) ->
  explode (S fuel) delim (p ++ rest) = p :: explode fuel delim (tl rest).
Proof.
  intros Hp Hne Hrest. simpl. destruct (p ++ rest) as [|c t] eqn:E; [done|]. rewrite <- E.
  rewrite span_delim_app, drop_app_length by done. f_equal.
  destruct Hrest as [->|H]; [by rewrite app_nil_r, Nat.add_0_r, drop_all|].
  destruct rest as [|d rest]; [done|]. injection H as ->. rewrite Z.eqb_refl. simpl.
  rewrite drop_app_add. done.
Qed.

Lemma explode_join delim fuel : forall text, (length text < fuel)%nat ->
  Forall (fun p => delim ∉ p) (explode fuel delim text) /\
  (length (explode fuel delim text) <= length text)%nat /\
  exists tail, (tail = [] \/ tail = [delim]) /\ text = join delim (explode fuel delim text) ++ tail /\
    (explode fuel delim text = [] -> tail = []).
Proof.
  induction fuel as [|fuel IH]; intros text Hlen; [lia|].
  destruct text as [|c text]; [simpl; split; [done|]; split; [lia|]; exists []; auto|].
  destruct (span_delim_spec delim (c :: text)) as (Hp & rest & E & Hrest).
  set (p := span_delim delim (c :: text)) in *. clearbody p.
  rewrite E, explode_step by (try done; by rewrite <- E).
  assert (Hl : length (c :: text) = (length p + length rest)%nat) by (by rewrite E, length_app).
  assert (length (tl rest) < fuel)%nat by (simpl in *; destruct rest; simpl in *; lia).
  destruct (IH (tl rest) H) as (IHp & IHl & tail & Htail & IHj & IHe).
  split; [by constructor|]. split.
  { simpl. rewrite length_app. destruct rest; simpl in *; destruct p; simpl in *; lia. }
  destruct Hrest as [->|Hd].
  - exists []. assert (explode fuel delim (tl []) = []) as -> by (by destruct fuel). split; [auto|].
    split; [done|]. done.
  - destruct rest as [|d rest]; [done|]. injection Hd as ->. simpl in IHj |- *.
    destruct (explode fuel delim rest) as [|q qs] eqn:Eq.
    + rewrite (IHe Eq) in IHj. simpl in IHj. subst rest. exists [delim]. split; [auto|]. done.
    + exists tail. split; [done|]. split; [|done]. rewrite IHj at 1. by rewrite <- app_assoc.
Qed.

Lemma explode_of_join delim fuel : forall parts,
  Forall (fun p => delim ∉ p) parts -> last parts <> Some [] ->
  (length (join delim parts) < fuel)%nat -> explode fuel delim (join delim parts) = parts.
Proof.
  induction fuel as [|fuel IH]; intros parts Hp Hlast Hlen; [lia|].
  destruct parts as [|p [|q parts]]; [done| |]; apply Forall_cons in Hp as [Hp Hps].
  - simpl join. rewrite <- (app_nil_r p) at 1.
    rewrite explode_step by (auto; rewrite app_nil_r; intros ->; by apply Hlast).
    by destruct fuel.
  - change (join delim (p :: q :: parts)) with (p ++ delim :: join delim (q :: parts)) in *.
    rewrite explode_step by (auto; by destruct p). f_equal.
    apply IH; [done|done|]. rewrite length_app in Hlen. simpl in Hlen |- *. lia.
Qed.

(** ** Cells in the heap *)

(** [cells m xs A]: [xs] is a list of unshared cells whose nodes and strings
    are the objects at the distinct addresses [A]. *)
Inductive cells (m : gmap loc sobj) : ptr -> list loc -> Prop :=
  | cells_nil : cells m None []
  | cells_cons l data next A :
      m !! l = Some (SNode data 1 next) -> cells m next A ->
      Forall (fun k => exists t, m !! k = Some (SText t)) (option_list data) ->
      NoDup (l :: option_list data ++ A) ->
      cells m (Some l) (l :: option_list data ++ A).

Lemma cells_ext m m' xs A :
  cells m xs A -> (forall k, k ∈ A -> m' !! k = m !! k) -> cells m' xs A.
Proof.
  induction 1 as [|l data next A Hl Hc IH Hd Hnd]; intros He; [constructor|]. apply (cells_cons _ _ _ next); [|..|done].
  - rewrite He; [done|set_solver].
  - apply IH. intros k Hk. apply He. set_solver.
  - rewrite Forall_forall in *. intros k Hk. rewrite He by set_solver. auto.
Qed.

Lemma cells_live m xs A k : cells m xs A -> k ∈ A -> is_Some (m !! k).
Proof.
  induction 1 as [|l data next A Hl Hc IH Hd Hnd]; intros Hk; [by apply not_elem_of_nil in Hk|].
  apply elem_of_cons in Hk as [->|Hk]; [eauto|]. apply elem_of_app in Hk as [Hk|Hk]; [|auto].
  rewrite Forall_forall in Hd. destruct (Hd k Hk). eauto.
Qed.

(** s_free gives back exactly the cells of its list. *)
Lemma s_free_spec fuel : forall xs A h,
  cells (h_objs h) xs A -> (length A < fuel)%nat ->
  wp (s_free fuel xs) (fun _ h' => h_next h' = h_next h /\ h_oracle h' = h_oracle h /\
    forall k, h_objs h' !! k = if decide (k ∈ A) then None else h_objs h !! k) h.
Proof.
  induction fuel as [|fuel IH]; intros xs A h Hc Hf; [lia|].
  inversion Hc as [|l data next B Hl Hcs Hd Hnd]; subst; clear Hc.
  { cbn [s_free]. wp_pure. split_and!; [done..|]. intros k. rewrite decide_False by set_solver. done. }
  cbn [s_free]. wp_heap. exists (SNode data 1 next). split; [done|]. wp_heap. split; [eauto|].
  simpl. wp_heap. apply NoDup_cons in Hnd as [Hni [Hnd1 [Hnd2 Hnd3]]%NoDup_app].
  assert (HlB : l ∉ B) by set_solver.
  eapply wp_mono; [apply (IH next B)|].
  - eapply cells_ext; [exact Hcs|]. intros k Hk. apply (lookup_insert_ne (h_objs h)). set_solver.
  - simpl in Hf. rewrite length_app in Hf. lia.
  - intros [] h1 (Hn1 & Ho1 & Hk1). simpl in Hn1, Ho1, Hk1. wp_heap.
    assert (Hfree : forall h2, (forall k, h_objs h2 !! k = if decide (k ∈ option_list data) then None else h_objs h1 !! k) ->
      h_next h2 = h_next h1 -> h_oracle h2 = h_oracle h1 ->
      wp (free (Some l)) (fun _ h' => h_next h' = h_next h /\ h_oracle h' = h_oracle h /\
        forall k, h_objs h' !! k = if decide (k ∈ l :: option_list data ++ B) then None else h_objs h !! k) h2).
    { intros h2 Hk2 Hn2 Ho2. rewrite wp_free. split.
      - rewrite Hk2, Hk1, lookup_insert_eq. do 2 (case_decide; [set_solver|]). eauto.
      - simpl. rewrite Hn2, Ho2. split_and!; [done..|]. intros k.
        destruct (decide (k = l)) as [->|]; [rewrite lookup_delete_eq; case_decide; [done|set_solver]|].
        rewrite lookup_delete_ne, Hk2, Hk1, lookup_insert_ne by done. repeat case_decide; set_solver. }
    destruct data as [d|]; simpl option_list in *.
    + rewrite wp_free. apply Forall_cons in Hd as [[t Ht] _]. split.
      * rewrite Hk1, lookup_insert_ne by set_solver. case_decide; [set_solver|eauto].
      * apply Hfree; [|done..]. intros k. simpl. destruct (decide (k = d)) as [->|].
        -- rewrite lookup_delete_eq. case_decide; [done|set_solver].
        -- rewrite lookup_delete_ne by done. case_decide; [set_solver|done].
    + rewrite wp_free_null. apply Hfree; [|done..]. intros k. case_decide; [set_solver|done].
Qed.

(** A node at a free address [n], with its string at [S n] or without one, put
    in front of the cells [A]. *)
Lemma cells_push m p A n part objs (dup : bool) :
  cells m p A -> m !! n = None -> m !! S n = None ->
  objs !! n = Some (SNode (if dup then Some (S n) else None) 1 p) ->
  (dup = true -> objs !! S n = Some (SText part)) ->
  (forall k, k <> n -> (dup = true -> k <> S n) -> objs !! k = m !! k) ->
  cells objs (Some n) (n :: (if dup then [S n] else []) ++ A).
Proof.
  intros Hc Hn HnS Hobj Htext Hrest.
  assert (HA : forall k, k ∈ A -> k <> n /\ k <> S n).
  { intros k Hk. pose proof (cells_live _ _ _ _ Hc Hk) as [o Ho]. split; intros ->; congruence. }
  assert (Hnd : NoDup A) by (inversion Hc; [constructor|done]).
  replace (if dup then [S n] else []) with (option_list (if dup then Some (S n) else None)) by (by destruct dup).
  apply (cells_cons _ _ _ p); [done|..].
  - eapply cells_ext; [exact Hc|]. intros k Hk. destruct (HA k Hk). by apply Hrest.
  - destruct dup; simpl; [|constructor]. constructor; [|constructor]. exists part. by apply Htext.
  - destruct dup; simpl; rewrite !NoDup_cons, ?elem_of_cons; (split_and!; [..|done]);
      intros Hin; try (destruct Hin as [Hin|Hin]; [lia|]); by destruct (HA _ Hin).
Qed.

(** What building a list of [k] strings does to the heap. *)
Definition built (k : nat) (h : heap sobj) (r : res (ptr * heap sobj)) : Prop :=
  match r with
  | Ok (p, h') => heap_wf h' /\ (h_oracle h = [] -> h_oracle h' = []) /\
      exists A, cells (h_objs h') p A /\ (length A <= 2 * k)%nat /\
        (forall l, l ∈ A -> h_objs h !! l = None) /\
        (forall l, l ∉ A -> h_objs h' !! l = h_objs h !! l)
  | Err e => e = NullDeref /\ h_oracle h <> []
  end.

Lemma built_cons k h p h1 part : built k h (Ok (p, h1)) -> built (S k) h (s_cons part p h1).
Proof.
  intros (Hwf & Horc & A & Hc & HA & Hold & Hsame). destruct h1 as [n m orc]. simpl in *.
  pose proof (heap_wf_fresh _ Hwf) as Hn. simpl in Hn.
  assert (HnS : m !! S n = None).
  { destruct (m !! S n) eqn:E'; [|done]. pose proof (Hwf (S n) ltac:(by eauto)). simpl in *. lia. }
  assert (Hfresh : forall l, m !! l = None -> h_objs h !! l = None).
  { intros l Hl. rewrite <- Hsame; [done|]. intros Hin. destruct (cells_live _ _ _ _ Hc Hin). congruence. }
  assert (Hres : forall (dup : bool) objs orc', (h_oracle h = [] -> orc' = []) ->
    objs = <[n := SNode (if dup then Some (S n) else None) 1 p]>
             (if dup then <[S n := SText part]> m else m) ->
    built (S k) h (Ok (Some n, Heap (if dup then S (S n) else S n) objs orc'))).
  { intros dup objs orc' Ho ->. split.
    - intros l [o Hl]. simpl in *. destruct (decide (l = n)) as [->|]; [destruct dup; lia|].
      rewrite lookup_insert_ne in Hl by done. pose proof (Hwf l) as Hl'. simpl in Hl'.
      destruct dup; [|specialize (Hl' ltac:(eauto)); lia]. destruct (decide (l = S n)) as [->|]; [lia|].
      rewrite lookup_insert_ne in Hl by done. specialize (Hl' ltac:(eauto)). lia.
    - split; [done|]. exists (n :: (if dup then [S n] else []) ++ A). simpl. split_and!.
      + apply (cells_push m p A n part); try done; [by rewrite lookup_insert_eq|..].
        * intros ->. rewrite lookup_insert_ne, lookup_insert_eq by lia. done.
        * intros l Hl Hl'. rewrite lookup_insert_ne by done. destruct dup; [|done].
          rewrite lookup_insert_ne by (by intros <-; apply Hl'). done.
      + rewrite length_app. destruct dup; simpl; lia.
      + intros l [->|Hl]%elem_of_cons; [by apply Hfresh|]. apply elem_of_app in Hl as [Hl|Hl]; [|auto].
        destruct dup; [|by apply not_elem_of_nil in Hl]. apply list_elem_of_singleton in Hl as ->. auto.
      + intros l Hl. rewrite not_elem_of_cons, not_elem_of_app in Hl. destruct Hl as (Hl1 & Hl2 & Hl3).
        rewrite lookup_insert_ne by done. destruct dup; [|by apply Hsame].
        rewrite lookup_insert_ne by (intros <-; apply Hl2; apply list_elem_of_singleton; done). by apply Hsame. }
  unfold s_cons, bind, malloc. destruct orc as [|[] orc]; [| |split; [done|]; intros Hx; by specialize (Horc Hx)].
  - simpl. rewrite lookup_insert_ne, lookup_insert_eq by lia. simpl.
    apply (Hres true); [done|]. rewrite (insert_insert_ne m (S n) n) by lia. by rewrite insert_insert_eq.
  - destruct orc as [|[] orc]; simpl; rewrite ?lookup_insert_ne, ?lookup_insert_eq by lia; simpl.
    + apply (Hres true); [done|]. rewrite (insert_insert_ne m (S n) n) by lia. by rewrite insert_insert_eq.
    + apply (Hres true); [intros Hx; by specialize (Horc Hx)|]. rewrite (insert_insert_ne m (S n) n) by lia. by rewrite insert_insert_eq.
    + apply (Hres false); [intros Hx; by specialize (Horc Hx)|]. by rewrite insert_insert_eq.
Qed.

Lemma s_cons_all_built parts h : heap_wf h -> built (length parts) h (s_cons_all parts h).
Proof.
  intros Hwf. induction parts as [|part parts IH].
  - split; [done|]. split; [done|]. exists []. split_and!; [constructor|simpl; lia| |done].
    intros l Hl. by apply not_elem_of_nil in Hl.
  - cbn [s_cons_all length]. destruct (s_cons_all parts h) as [[p h1]|e] eqn:E.
    + rewrite (bind_ok _ _ _ _ _ E). by apply built_cons.
    + by rewrite (bind_err _ _ _ _ E).
Qed.

(** ** Rings of list entries *)

Definition nxt (m : links) (x : nat) : option nat := snd <$> m !! x.
Definition prv (m : links) (x : nat) : option nat := fst <$> m !! x.

(** [chain m a xs b]: following [next] from [a] visits [xs] and ends in [b],
    and [prev] leads back. *)
Fixpoint chain (m : links) (a : nat) (xs : list nat) (b : nat) : Prop :=
  match xs with
  | [] => nxt m a = Some b /\ prv m b = Some a
  | x :: xs => nxt m a = Some x /\ prv m x = Some a /\ chain m x xs b
  end.

(** A circular list: the entries after the head [a] in order. *)
Definition ring (m : links) (a : nat) (xs : list nat) : Prop :=
  NoDup (a :: xs) /\ chain m a xs a.

Lemma chain_app m a xs y ys b : chain m a (xs ++ y :: ys) b <-> chain m a xs y /\ chain m y ys b.
Proof.
  revert a. induction xs as [|x xs IH]; intros a; simpl; [tauto|]. rewrite IH. tauto.
Qed.

Lemma chain_ext m m' a xs b :
  chain m a xs b ->
  (forall k, k ∈ a :: xs -> nxt m' k = nxt m k) -> (forall k, k ∈ b :: xs -> prv m' k = prv m k) ->
  chain m' a xs b.
Proof.
  revert a. induction xs as [|x xs IH]; intros a Hc Hn Hp; simpl in *.
  - rewrite Hn, Hp by set_solver. done.
  - destruct Hc as (? & ? & Hc). rewrite Hn, Hp by set_solver. split_and!; [done..|].
    apply IH; [done|..]; intros k Hk; [apply Hn|apply Hp]; set_solver.
Qed.

(** The four updates of [__list_add] and the two of [__list_del]. *)
Lemma wp_set_next m e n Q :
  is_Some (m !! e) ->
  (forall m', (forall k, nxt m' k = if decide (k = e) then Some n else nxt m k) ->
     (forall k, prv m' k = prv m k) -> (forall k, is_Some (m' !! k) <-> is_Some (m !! k)) -> Q tt m') ->
  wp (set_next e n) Q m.
Proof.
  intros [[p q] He] HQ. unfold set_next, entry, bind, wp, modify. rewrite He. simpl. apply HQ; intros k;
    unfold nxt, prv; destruct (decide (k = e)) as [->|];
    rewrite ?lookup_insert_eq, ?lookup_insert_ne, ?He by done; done.
Qed.

Lemma wp_set_prev m e n Q :
  is_Some (m !! e) ->
  (forall m', (forall k, prv m' k = if decide (k = e) then Some n else prv m k) ->
     (forall k, nxt m' k = nxt m k) -> (forall k, is_Some (m' !! k) <-> is_Some (m !! k)) -> Q tt m') ->
  wp (set_prev e n) Q m.
Proof.
  intros [[p q] He] HQ. unfold set_prev, entry, bind, wp, modify. rewrite He. simpl. apply HQ; intros k;
    unfold nxt, prv; destruct (decide (k = e)) as [->|];
    rewrite ?lookup_insert_eq, ?lookup_insert_ne, ?He by done; done.
Qed.

(** What [__list_add e p n] does to the links. *)
Lemma list_add_links m e p n :
  is_Some (m !! e) -> is_Some (m !! p) -> is_Some (m !! n) -> e <> p -> e <> n ->
  wp (__list_add e p n) (fun _ m' =>
    (forall k, nxt m' k = if decide (k = e) then Some n else if decide (k = p) then Some e else nxt m k) /\
    (forall k, prv m' k = if decide (k = e) then Some p else if decide (k = n) then Some e else prv m k)) m.
Proof.
  intros He Hp Hn Hep Hen. unfold __list_add. wp_pure.
  apply wp_set_prev; [done|]. intros m1 P1 N1 D1. wp_pure.
  apply wp_set_next; [by apply D1|]. intros m2 N2 P2 D2. wp_pure.
  apply wp_set_next; [by apply D2, D1|]. intros m3 N3 P3 D3.
  apply wp_set_prev; [by apply D3, D2, D1|]. intros m4 P4 N4 _.
  split; intros k; [rewrite N4, N3, N2, N1|rewrite P4, P3, P2, P1]; done.
Qed.

Lemma chain_live m a xs b : chain m a xs b -> is_Some (m !! a) /\ is_Some (m !! b).
Proof.
  assert (H : forall k v, nxt m k = Some v \/ prv m k = Some v -> is_Some (m !! k)).
  { unfold nxt, prv. intros k v. destruct (m !! k); [eauto|]. by intros [|]. }
  revert a. induction xs as [|x xs IH]; intros a Hc; simpl in Hc.
  - destruct Hc. split; eauto.
  - destruct Hc as (? & ? & Hc). split; [eauto|]. by apply (IH x).
Qed.

Lemma list_del_links m p n :
  is_Some (m !! p) -> is_Some (m !! n) ->
  wp (__list_del p n) (fun _ m' =>
    (forall k, nxt m' k = if decide (k = p) then Some n else nxt m k) /\
    (forall k, prv m' k = if decide (k = n) then Some p else prv m k)) m.
Proof.
  intros Hp Hn. unfold __list_del. wp_pure.
  apply wp_set_next; [done|]. intros m1 N1 P1 D1.
  apply wp_set_prev; [by apply D1|]. intros m2 P2 N2 _.
  split; intros k; [by rewrite N2, N1|by rewrite P2, P1].
Qed.

Lemma wp_entry m e Q a b : nxt m e = Some b -> prv m e = Some a -> Q (a, b) m -> wp (entry e) Q m.
Proof.
  unfold nxt, prv, wp, entry. destruct (m !! e) as [[p n]|]; simpl; [|done]. by intros [= ->] [= ->].
Qed.

(** Membership in concrete lists by propositional reasoning. *)
Ltac mem_tac :=
  repeat match goal with
  | H : context [_ ∈ _ :: _] |- _ => rewrite elem_of_cons in H
  | H : context [_ ∈ _ ++ _] |- _ => rewrite elem_of_app in H
  | H : context [_ ∈ []] |- _ => rewrite elem_of_nil in H
  | H : NoDup (_ :: _) |- _ => apply NoDup_cons in H; destruct H
  | |- context [_ ∈ _ :: _] => rewrite elem_of_cons
  | |- context [_ ∈ _ ++ _] => rewrite elem_of_app
  | |- context [_ ∈ []] => rewrite elem_of_nil
  end; subst; intuition congruence.

(** Case split on the [decide]s the links hypotheses leave. *)
Ltac links_tac HN HP :=
  rewrite ?HN, ?HP; repeat (case_decide; try (exfalso; mem_tac)); try done.

Lemma ring_add_after m a xs e :
  ring m a xs -> is_Some (m !! e) -> e ∉ a :: xs ->
  wp (list_add_after a e) (fun _ m' => ring m' a (e :: xs)) m.
Proof.
  intros [Hnd Hc] He Hni. unfold list_add_after. rewrite wp_bind.
  assert (Hp : exists p, prv m a = Some p).
  { destruct (chain_live _ _ _ _ Hc) as [_ [[p q] Hq]]. unfold prv. rewrite Hq. eauto. }
  destruct Hp as [p Hp]. apply NoDup_cons in Hnd as [Hna Hnd].
  assert (Hnew : NoDup (a :: e :: xs)).
  { rewrite !NoDup_cons. split_and!; [mem_tac..|done]. }
  destruct xs as [|x xs]; simpl in Hc.
  - destruct Hc as [Hn _]. eapply wp_entry; [done..|]. simpl.
    destruct (m !! a) as [l|] eqn:Ea; [|by unfold nxt in Hn; rewrite Ea in Hn].
    eapply wp_mono; [apply list_add_links; eauto; mem_tac|]. intros [] m' [HN HP].
    split; [done|]. simpl. split_and!; links_tac HN HP.
  - destruct Hc as (Hn & Hpx & Hc). eapply wp_entry; [done..|]. simpl.
    destruct (chain_live _ _ _ _ Hc) as [Hx Ha].
    eapply wp_mono; [apply list_add_links; try done; mem_tac|]. intros [] m' [HN HP].
    split; [done|]. simpl. split_and!; [links_tac HN HP..|].
    apply NoDup_cons in Hnd as [Hnx Hnd].
    apply (chain_ext m); [done|..]; intros k Hk; links_tac HN HP.
Qed.

(** A non-empty chain seen from its end. *)
Lemma ring_last m a xs z : chain m a (xs ++ [z]) a -> prv m a = Some z /\ chain m a xs z.
Proof. rewrite chain_app. simpl. tauto. Qed.

Lemma ring_add_before m a xs e :
  ring m a xs -> is_Some (m !! e) -> e ∉ a :: xs ->
  wp (list_add_before a e) (fun _ m' => ring m' a (xs ++ [e])) m.
Proof.
  intros [Hnd Hc] He Hni. unfold list_add_before. rewrite wp_bind.
  assert (Hn : exists n, nxt m a = Some n).
  { destruct (chain_live _ _ _ _ Hc) as [_ [[p q] Hq]]. unfold nxt. rewrite Hq. eauto. }
  destruct Hn as [n Hn]. pose proof Hnd as [Hna Hnd']%NoDup_cons.
  assert (Hnew : NoDup (a :: xs ++ [e])).
  { rewrite app_comm_cons. apply NoDup_app. split_and!; [done| |apply NoDup_singleton]. intros k Hk Hk'. mem_tac. }
  destruct xs as [|z xs _] using rev_ind.
  - simpl in Hc. destruct Hc as [_ Hp]. eapply wp_entry; [done..|]. simpl.
    destruct (m !! a) as [l|] eqn:Ea; [|by unfold nxt in Hn; rewrite Ea in Hn].
    eapply wp_mono; [apply list_add_links; eauto; mem_tac|]. intros [] m' [HN HP].
    split; [done|]. simpl. split_and!; links_tac HN HP.
  - pose proof (ring_last _ _ _ _ Hc) as [Hp Hc']. eapply wp_entry; [done..|]. simpl.
    destruct (chain_live _ _ _ _ Hc') as [Ha Hz].
    eapply wp_mono; [apply list_add_links; try done; mem_tac|]. intros [] m' [HN HP].
    split; [done|]. rewrite <- app_assoc. simpl. rewrite chain_app. apply NoDup_app in Hnd' as (_ & Hd & _).
    assert (z ∉ xs) by (intros Hin; apply (Hd z Hin); by apply list_elem_of_singleton). clear Hd. split.
    + apply (chain_ext m); [done|..]; intros k Hk; links_tac HN HP.
    + simpl. split_and!; links_tac HN HP.
Qed.

Lemma chain_relink m m' x post a z :
  chain m x post a -> NoDup (a :: post) -> z ∉ post -> 
  nxt m' z = nxt m x -> (forall n, nxt m x = Some n -> prv m' n = Some z) ->
  (forall k, k ∈ post -> nxt m' k = nxt m k) ->
  (forall k, k ∈ a :: post -> nxt m x <> Some k -> prv m' k = prv m k) ->
  chain m' z post a.
Proof.
  intros Hc [Ha Hnd]%NoDup_cons Hz Hn Hp HN HP. destruct post as [|y post]; simpl in *.
  - destruct Hc as [Hx _]. rewrite Hn, (Hp a) by done. done.
  - destruct Hc as (Hx & _ & Hc). rewrite Hn, (Hp y) by done. split_and!; [done..|].
    apply NoDup_cons in Hnd as [Hy Hnd]. apply (chain_ext m); [done|..]; intros k Hk.
    + apply HN. mem_tac.
    + apply HP; [mem_tac|]. rewrite Hx. intros [= ->]. mem_tac.
Qed.

Lemma ring_del m a pre x post :
  ring m a (pre ++ x :: post) -> wp (list_del x) (fun _ m' => ring m' a (pre ++ post)) m.
Proof.
  intros [Hnd Hc]. apply chain_app in Hc as [Hpre Hpost].
  pose proof Hnd as [Hna Hnd']%NoDup_cons. apply NoDup_app in Hnd' as (Hn1 & Hd & Hn2).
  apply NoDup_cons in Hn2 as [Hxp Hn2].
  assert (Hxpre : x ∉ pre) by (intros Hin; apply (Hd x Hin); apply elem_of_cons; by left).
  assert (Hdisj : forall k, k ∈ pre -> k ∉ post) by (intros k Hk Hk'; apply (Hd k Hk); apply elem_of_cons; by right).
  assert (Hnew : NoDup (a :: pre ++ post)).
  { rewrite NoDup_cons, NoDup_app. split_and!; try done. mem_tac. }
  assert (Hn : exists n, nxt m x = Some n /\ (n = a /\ post = [] \/ exists ys, post = n :: ys)).
  { destruct post as [|y ys]; simpl in Hpost; [|]; naive_solver. }
  destruct Hn as (n & Hn & Hnpos). clear Hd.
  assert (Hlive : is_Some (m !! n)).
  { destruct Hnpos as [[-> ->]|[ys ->]]; [by destruct (chain_live _ _ _ _ Hpost)|].
    destruct Hpost as (_ & _ & Hc). by destruct (chain_live _ _ _ _ Hc). }
  assert (Hrelink : forall z, z = a /\ pre = [] \/ (exists ys, pre = ys ++ [z]) ->
    forall m', (forall k, nxt m' k = if decide (k = z) then Some n else nxt m k) ->
    (forall k, prv m' k = if decide (k = n) then Some z else prv m k) -> chain m' z post a).
  { intros z Hz m' HN HP.
    assert (Hzpost : z ∉ post).
    { destruct Hz as [[-> ->]|[ys ->]]; [mem_tac|]. apply Hdisj, elem_of_app. right. by apply list_elem_of_singleton. }
    apply (chain_relink m m' x); [done|apply NoDup_cons; split; [mem_tac|done]|done|..].
    - rewrite HN, Hn. by case_decide.
    - intros n' Hn'. rewrite HP. case_decide; congruence.
    - intros k Hk. rewrite HN. case_decide; [congruence|done].
    - intros k Hk Hkn. rewrite HP. case_decide; congruence. }
  unfold list_del. rewrite wp_bind. destruct pre as [|z pre _] using rev_ind.
  - destruct Hpre as [Hax Hxa]. eapply wp_entry; [done..|]. simpl.
    destruct (chain_live _ _ _ _ Hpost) as [_ Ha].
    eapply wp_mono; [by apply list_del_links|]. intros [] m' [HN HP]. split; [done|]. simpl. eauto.
  - apply chain_app in Hpre as [Hpre [Hzx Hxz]]. eapply wp_entry; [done..|]. simpl.
    destruct (chain_live _ _ _ _ Hpre) as [_ Hz].
    eapply wp_mono; [by apply list_del_links|]. intros [] m' [HN HP]. split; [done|].
    rewrite <- app_assoc. simpl. rewrite chain_app. split; [|eauto].
    apply NoDup_app in Hn1 as (_ & Hd & _).
    assert (z ∉ pre) by (intros Hin; apply (Hd z Hin); by apply list_elem_of_singleton).
    assert (n ∉ z :: pre).
    { destruct Hnpos as [[-> _]|[ys ->]]; [mem_tac|]. intros Hin. apply (Hdisj n); [|apply elem_of_cons; by left].
      clear Hd Hdisj. mem_tac. }
    assert (z <> a) by (clear Hd Hdisj; mem_tac). clear Hd Hdisj Hrelink Hnpos.
    apply (chain_ext m); [done|..]; intros k Hk; [rewrite HN|rewrite HP]; case_decide; mem_tac.
Qed.

(** ** Theorems *)

(** s_explode splits a string exactly at the delimiter: no part contains
    it, and joining the parts gives back the string up to one delimiter at the
    end; conversely, parts without the delimiter that do not end in an empty
    one come back from splitting their join. *)
Theorem s_explode_join text delim :
  Forall (fun p => delim ∉ p) (s_explode text delim) /\
  (text = join delim (s_explode text delim) \/
   text = join delim (s_explode text delim) ++ [delim]) /\
  (forall parts, Forall (fun p => delim ∉ p) parts -> last parts <> Some [] ->
     s_explode (join delim parts) delim = parts).
Proof.
  destruct (explode_join delim (S (length text)) text ltac:(lia)) as (H1 & _ & tail & Ht & Hj & _).
  split; [done|]. split.
  - unfold s_explode. destruct Ht as [-> | ->]; [left; by rewrite app_nil_r in Hj|by right].
  - intros parts Hp Hl. apply explode_of_join; [done|done|lia].
Qed.

(** Splitting a string and freeing the list leaves the heap as it was, on
    every outcome of the allocations, unless the malloc of a cell fails: its
    result is not checked and NULL is dereferenced. *)
Theorem s_explode_then_free text delim h :
  heap_wf h ->
  match (let! xs := s_explode_heap text delim in s_free (S (2 * length text)) xs) h with
  | Ok (_, h') => h_objs h' = h_objs h
  | Err e => e = NullDeref /\ h_oracle h <> []
  end.
Proof.
  intros Hwf. pose proof (s_cons_all_built (s_explode text delim) h Hwf) as Hb. unfold s_explode_heap.
  destruct (s_cons_all (s_explode text delim) h) as [[p h1]|e] eqn:E; [|by rewrite (bind_err _ _ _ _ E)].
  rewrite (bind_ok _ _ _ _ _ E). destruct Hb as (_ & _ & A & Hc & HA & Hold & Hsame).
  destruct (explode_join delim (S (length text)) text ltac:(lia)) as (_ & Hlen & _).
  pose proof (s_free_spec (S (2 * length text)) p A h1 Hc) as Hf.
  unfold s_explode in HA. specialize (Hf ltac:(lia)). unfold wp in Hf.
  destruct (s_free _ p h1) as [[[] h2]|]; [|done]. destruct Hf as (_ & _ & Hk).
  apply map_eq. intros k. rewrite Hk. case_decide; [by rewrite Hold|by apply Hsame].
Qed.

(** The intrusive list of list.h implements sequences: in a circular list
    with head [a], list_add and list_add_after insert right after the head,
    list_add_before at the end, list_del removes the entry wherever it is, and
    list_empty, list_next and list_prev read the sequence. *)
Theorem list_ops_ring m a xs :
  ring m a xs ->
  (forall e, is_Some (m !! e) -> e ∉ a :: xs ->
     (exists m', list_add a e m = Ok (tt, m') /\ ring m' a (e :: xs)) /\
     (exists m', list_add_before a e m = Ok (tt, m') /\ ring m' a (xs ++ [e]))) /\
  (forall pre x post, xs = pre ++ x :: post ->
     exists m', list_del x m = Ok (tt, m') /\ ring m' a (pre ++ post)) /\
  list_empty a m = Ok (bool_decide (xs = []), m) /\
  list_next a m = Ok (hd a xs, m) /\ list_prev a m = Ok (default a (last xs), m).
Proof.
  intros Hr. assert (Hrun : forall (c : M links unit) Q, wp c Q m -> exists m', c m = Ok (tt, m') /\ Q tt m').
  { intros c Q H. apply wp_run in H as ([] & m' & ? & ?). eauto. }
  split; [intros e He Hni; split; apply (Hrun _ (fun _ m' => ring m' a _))|].
  { by apply ring_add_after. }
  { by apply ring_add_before. }
  split. { intros pre x post ->. apply (Hrun _ (fun _ m' => ring m' a _)). by apply ring_del. }
  destruct Hr as [Hnd Hc].
  assert (Hn : nxt m a = Some (hd a xs)) by (destruct xs; simpl in *; tauto).
  assert (Hp : prv m a = Some (default a (last xs))).
  { destruct xs as [|z xs _] using rev_ind; [simpl in *; tauto|]. rewrite last_snoc. by apply ring_last in Hc as [? _]. }
  unfold list_empty, list_next, list_prev, entry, bind, nxt, prv in *.
  destruct (m !! a) as [[p n]|]; [|done]. simpl in *. injection Hn as ->. injection Hp as ->.
  split_and!; try done. unfold ret. do 2 f_equal. destruct xs as [|x xs]; simpl.
  - by rewrite Nat.eqb_refl.
  - apply Nat.eqb_neq. apply NoDup_cons in Hnd as [Hna _]. intros ->. apply Hna, elem_of_cons. by left.
Qed.

(** ** Witnesses *)

Lemma s_explode_then_free_witness :
  match (let! xs := s_explode_heap [47; 97; 47; 98] 47 in s_free 9 xs) (empty_heap [true; false]) with
  | Ok (_, h') => h_objs h' = h_objs (empty_heap (O := sobj) [true; false])
  | Err e => e = NullDeref /\ h_oracle (empty_heap (O := sobj) [true; false]) <> []
  end.
Proof. exact (s_explode_then_free [47; 97; 47; 98] 47 (empty_heap [true; false]) (empty_heap_wf _)). Defined.

(** A ring of three entries and a spare one. *)
Definition demo_links : links := {[ 1%nat := (3%nat, 2%nat); 2%nat := (1%nat, 3%nat); 3%nat := (2%nat, 1%nat); 4%nat := (4%nat, 4%nat) ]}.

Lemma list_ops_ring_witness :
  exists m', list_add 1 4 demo_links = Ok (tt, m') /\ ring m' 1 [4%nat; 2%nat; 3%nat].
Proof.
  destruct (list_ops_ring demo_links 1 [2%nat; 3%nat]) as [H _].
  - split; [apply (bool_decide_unpack _); by vm_compute|]. by vm_compute.
  - destruct (H 4%nat) as [H' _]; [eexists; by vm_compute|apply (bool_decide_unpack _); by vm_compute|].
    exact H'.
Defined.
End Slist.
