(* ===== verification/Directory.v ===== *)
(** * Directory: File System/files/directory.c

    A directory's data block is an array of 60 entries of 68 bytes: a 48-byte
    name, the inode number, 12 reserved bytes and the [filled] flag.  Names are
    C strings compared and copied byte by byte in the image, so names that do
    not fit and entries that keep their name after deletion behave as in the
    source. *)
From stdpp Require Import base list gmap.
From Stdlib Require Import ZArith Lia.
From S2P Require Import Prelude Mem Bitmap Blocks Inode Slist.
Import Bitmap Blocks Inode.

Module Directory.

(** ** Data *)

Definition DIR_NAME_LENGTH : Z := 48.
Definition DIRENT_SIZE : Z := DIR_NAME_LENGTH + 4 + 12 + 4.
Definition TOTAL_DIRENTS : Z := BLOCK_SIZE / DIRENT_SIZE.
Definition ENOENT : Z := 2.
Definition EEXIST : Z := 17.

(** Offsets in [struct dirent]. *)
Definition off_inum : Z := DIR_NAME_LENGTH.
Definition off_filled : Z := DIR_NAME_LENGTH + 4 + 12.

(** A [dirent_node_t] as the listing returns it: name and inode number. *)
Record dirent := mk_dirent { d_name : list Z; d_inum : Z }.

(** The string stored at [a], read up to its terminating zero and at most
    [n] bytes. *)
Fixpoint read_cstr (n : nat) (a : Z) : M mem (list Z) :=
  match n with
  | O => ret []
  | S n =>
      let! b := ld8 a in
      if b =? 0 then ret []
      else let! s := read_cstr n (a + 1) in ret (b :: s)
  end.

(** ** Code *)

(** [blocks_get_block(dd->block)] *)
Definition dir_contents (dd : option Z) : M mem Z :=
  let! b := get_field dd Block in ret (blocks_get_block b).

Definition dirent_addr (base i : Z) : Z := base + DIRENT_SIZE * i.

Fixpoint lookup_from (base : Z) (name : list Z) (n : nat) (i : Z) : M mem Z :=
  match n with
  | O => ret (- ENOENT)
  | S n =>
      let! eq := streq (dirent_addr base i) name in
      if eq then ld32 (dirent_addr base i + off_inum)
      else lookup_from base name n (i + 1)
  end.

Definition directory_lookup (dd : option Z) (name : list Z) : M mem Z :=
  let! base := dir_contents dd in
  lookup_from base name (Z.to_nat TOTAL_DIRENTS) 0.

Fixpoint put_from (base : Z) (name : list Z) (inum : Z) (n : nat) (i : Z) : M mem Z :=
  match n with
  | O => ret (-1)
  | S n =>
      let! filled := ld32 (dirent_addr base i + off_filled) in
      if negb (filled =? 1) then
        do! st32 (dirent_addr base i + off_inum) inum in
        do! strcpy (dirent_addr base i) name in
        do! st32 (dirent_addr base i + off_filled) 1 in
        ret 0
      else put_from base name inum n (i + 1)
  end.

Definition directory_put (dd : option Z) (name : list Z) (inum : Z) : M mem Z :=
  let! base := dir_contents dd in
  put_from base name inum (Z.to_nat TOTAL_DIRENTS) 0.

Fixpoint delete_from (base : Z) (name : list Z) (n : nat) (i : Z) : M mem Z :=
  match n with
  | O => ret (-1)
  | S n =>
      let! eq := streq (dirent_addr base i) name in
      if eq then do! st32 (dirent_addr base i + off_filled) 0 in ret 0
      else delete_from base name n (i + 1)
  end.

Definition directory_delete (dd : option Z) (name : list Z) : M mem Z :=
  let! base := dir_contents dd in
  delete_from base name (Z.to_nat TOTAL_DIRENTS) 0.

(** "." and ".." *)
Definition dot : list Z := [46].
Definition dotdot : list Z := [46; 46].

Definition directory_init (now : Z) : M mem unit :=
  let i := ROOT_INODE in
  let ibm := get_inode_bitmap in
  let! b := bitmap_get ibm i in
  if b =? 1 then ret tt
  else
    do! bitmap_put ibm i 1 in
    let! new_dir_inode := get_inode i in
    do! clear_inode new_dir_inode in
    do! set_field new_dir_inode Mode 16877 (* 040755 *) in
    do! set_field new_dir_inode Refs 1 in
    do! set_field new_dir_inode Size 0 in
    let! blk := alloc_block in
    do! set_field new_dir_inode Block blk in
    do! set_field new_dir_inode NextInode (-1) in
    do! set_field new_dir_inode Atime now in
    do! set_field new_dir_inode Mtime now in
    do! directory_put new_dir_inode dot i in
    do! directory_put new_dir_inode dotdot i in
    ret tt.

(** The walk of tree_lookup over the path components; empty ones are skipped. *)
Fixpoint walk (components : list (list Z)) (inode_num : Z) : M mem Z :=
  match components with
  | [] => ret inode_num
  | data :: rest =>
      match data with
      | [] => walk rest inode_num
      | _ =>
          let! node := get_inode inode_num in
          let! inode_num := directory_lookup node data in
          if inode_num <? 0 then ret (-1) else walk rest inode_num
      end
  end.

Definition tree_lookup (path : list Z) : M mem Z :=
  let file_path := Slist.s_explode path 47 (* '/' *) in
  let! _ := get_inode ROOT_INODE in
  walk file_path ROOT_INODE.

Fixpoint list_from (base : Z) (n : nat) (i : Z) : M mem (list dirent) :=
  match n with
  | O => ret []
  | S n =>
      let! filled := ld32 (dirent_addr base i + off_filled) in
      let! rest := list_from base n (i + 1) in
      if filled =? 1 then
        let! name := read_cstr (Z.to_nat DIR_NAME_LENGTH) (dirent_addr base i) in
        let! inum := ld32 (dirent_addr base i + off_inum) in
        ret (mk_dirent name inum :: rest)
      else ret rest
  end.

(** The circular list directory_list builds: the first filled entry is the
    head and every other one is inserted right after it, so from the head
    the entries after the first come in reverse order. *)
Definition directory_list (path : option (list Z)) (inum : Z) : M mem (list dirent) :=
  let! inum := (match path with Some p => tree_lookup p | None => ret inum end) in
  let! dd := get_inode inum in
  let! base := dir_contents dd in
  let! entries := list_from base (Z.to_nat TOTAL_DIRENTS) 0 in
  match entries with
  | [] => ret []
  | e :: es => ret (e :: rev es)
  end.

(** The names print_directory prints, in order. *)
Definition print_directory (dd : option Z) : M mem (list (list Z)) :=
  let! base := dir_contents dd in
  let! entries := list_from base (Z.to_nat TOTAL_DIRENTS) 0 in
  ret (map d_name entries).

(** ** A directory block as an array of entries *)

(** The string at [a] is [s]. *)
Fixpoint str_at (m : mem) (a : Z) (s : list Z) : bool :=
  match s with
  | [] => rd m a =? 0
  | c :: s => (rd m a =? c) && str_at m (a + 1) s
  end.

(** Names that fit an entry. *)
Definition name_ok (name : list Z) : Prop :=
  Forall (fun c => 0 < c < 256) name /\ Z.of_nat (length name) < DIR_NAME_LENGTH.

(** The first index from [i] on, of [n], that satisfies [P]. *)
Fixpoint first_from (P : Z -> bool) (n : nat) (i : Z) : option Z :=
  match n with
  | O => None
  | S n => if P i then Some i else first_from P n (i + 1)
  end.

Definition e_named (m : mem) (b : Z) (name : list Z) (i : Z) : bool :=
  str_at m (dirent_addr (blocks_get_block b) i) name.
Definition e_inum (m : mem) (b i : Z) : Z :=
  i32 (rdn m (dirent_addr (blocks_get_block b) i + off_inum) 4).
Definition e_filled (m : mem) (b i : Z) : Z :=
  i32 (rdn m (dirent_addr (blocks_get_block b) i + off_filled) 4).
Definition entry_area (b i : Z) : Z -> Prop := range (dirent_addr (blocks_get_block b) i) DIRENT_SIZE.

(** The entry lookup finds for a name, and the one put takes. *)
Definition dir_find (m : mem) (b : Z) (name : list Z) : option Z := first_from (e_named m b name) 60 0.
Definition dir_slot (m : mem) (b : Z) : option Z :=
  first_from (fun i => negb (e_filled m b i =? 1)) 60 0.

Lemma first_from_Some P n : forall i j, first_from P n i = Some j ->
  i <= j < i + Z.of_nat n /\ P j = true /\ forall k, i <= k < j -> P k = false.
Proof.
  induction n as [|n IH]; intros i j H; simpl in H; [done|]. destruct (P i) eqn:E.
  - injection H as ->. split_and!; [lia|lia|done|]. lia.
  - apply IH in H as (? & ? & H). split_and!; [lia|lia|done|]. intros k Hk.
    destruct (Z.eq_dec k i) as [->|]; [done|]. apply H. lia.
Qed.

Lemma first_from_None P n : forall i, first_from P n i = None <->
  forall k, i <= k < i + Z.of_nat n -> P k = false.
Proof.
  induction n as [|n IH]; intros i; simpl; [split; [lia|done]|]. destruct (P i) eqn:E.
  - split; [done|]. intros H. rewrite H in E by lia. done.
  - rewrite IH. split; intros H k Hk; [|apply H; lia].
    destruct (Z.eq_dec k i) as [->|]; [done|]. apply H. lia.
Qed.

Lemma first_from_here P n i j :
  i <= j < i + Z.of_nat n -> P j = true -> (forall k, i <= k < j -> P k = false) ->
  first_from P n i = Some j.
Proof.
  intros Hj HP Hlt. destruct (first_from P n i) as [j'|] eqn:E.
  - apply first_from_Some in E as (Hj' & HP' & Hlt'). f_equal.
    destruct (Z.lt_trichotomy j j') as [H|[H|H]]; [|done|].
    + rewrite Hlt' in HP by lia. done.
    + rewrite Hlt in HP' by lia. done.
  - rewrite first_from_None in E. rewrite E in HP by lia. done.
Qed.

Lemma first_from_ext P P' n : forall i, (forall k, i <= k < i + Z.of_nat n -> P' k = P k) ->
  first_from P' n i = first_from P n i.
Proof.
  induction n as [|n IH]; intros i H; simpl; [done|]. rewrite H by lia.
  rewrite (IH (i + 1)); [done|]. intros k Hk. apply H. lia.
Qed.

(** ** Strings in memory *)

Lemma streq_spec s : forall m a Q,
  mapped m a (Z.of_nat (length s) + 1) = true ->
  wp (streq a s) Q m <-> Q (str_at m a s) m.
Proof.
  induction s as [|c s IH]; intros m a Q Hm; simpl.
  - wp_mem. change (Z.of_nat (length []) + 1) with 1 in Hm. rewrite Hm. naive_solver.
  - rewrite length_cons, Nat2Z.inj_succ, mapped_spec in Hm. wp_mem.
    assert (H1 : mapped m a 1 = true) by (apply mapped_spec; lia).
    destruct (rd m a =? c); simpl; [|rewrite wp_ret; naive_solver].
    rewrite IH by (apply mapped_spec; lia). naive_solver.
Qed.

Lemma str_at_ext m m' s : forall a,
  (forall x, range a (Z.of_nat (length s) + 1) x -> rd m' x = rd m x) -> str_at m' a s = str_at m a s.
Proof.
  induction s as [|c s IH]; intros a H; simpl; unfold range in *.
  - rewrite H by (simpl; lia). done.
  - rewrite H by (rewrite length_cons; lia). f_equal. apply IH. intros x Hx. apply H.
    rewrite length_cons. unfold range in Hx. lia.
Qed.

(** After strcpy of [name], exactly [name] compares equal. *)
Lemma str_at_copy m s : forall a name,
  Forall (fun c => 0 < c < 256) name -> Forall (fun c => 0 < c < 256) s ->
  str_at (wr_list m a (name ++ [0])) a s = bool_decide (s = name).
Proof.
  intros a name. revert m a s. induction name as [|c name IH]; intros m a s Hn Hs.
  - destruct s as [|d s]; simpl; rewrite rd_wr, Z.eqb_refl; [done|].
    apply Forall_cons in Hs as [Hd _]. rewrite Z.mod_0_l by lia.
    destruct (Z.eqb_spec 0 d); [lia|done].
  - apply Forall_cons in Hn as [Hc Hn]. rewrite <- app_comm_cons. cbn [wr_list].
    assert (Hrd : rd (wr_list (wr m a c) (a + 1) (name ++ [0])) a = c).
    { rewrite rd_wr_list. destruct (_ && _) eqn:E; [lia|]. rewrite rd_wr, Z.eqb_refl. apply Z.mod_small. lia. }
    destruct s as [|d s]; cbn [str_at]; rewrite Hrd.
    + destruct (Z.eqb_spec c 0); [lia|]. done.
    + apply Forall_cons in Hs as [Hd Hs]. rewrite IH by done.
      destruct (Z.eqb_spec c d) as [->|]; simpl; [|by rewrite bool_decide_false by congruence].
      apply bool_decide_ext. split; [by intros ->|by intros [= ->]].
Qed.

(** ** The operations on entries *)

(** Inode [d] is a directory whose entries are in data block [b]. *)
Definition dir (m : mem) (d b : Z) : Prop :=
  image m /\ 0 <= d < SIZE /\ fld m d Block = b /\ 5 <= b < 256.

Lemma dirent_addr_eq b i : dirent_addr (blocks_get_block b) i = 4096 * b + 68 * i.
Proof. done. Qed.

Lemma entry_mapped m b i a k :
  image m -> 0 <= b < 256 -> 0 <= i < 60 -> 0 <= a -> a + k <= 68 ->
  mapped m (dirent_addr (blocks_get_block b) i + a) k = true.
Proof.
  intros Hm Hb Hi Ha Hk. rewrite dirent_addr_eq. apply image_mapped; [done|lia|].
  change NUFS_SIZE with 1048576. lia.
Qed.

Lemma dir_contents_spec m d b Q :
  dir m d b -> wp (dir_contents (Some (inode_addr d))) Q m <-> Q (blocks_get_block b) m.
Proof.
  intros (Hm & Hd & Hb & _). unfold dir_contents. rewrite wp_bind, get_field_spec, wp_ret, Hb by done. done.
Qed.

(** Entries depend on their own bytes only. *)
Lemma entry_ext m m' b i :
  (forall x, entry_area b i x -> rd m' x = rd m x) ->
  (forall name, name_ok name -> e_named m' b name i = e_named m b name i) /\
  e_inum m' b i = e_inum m b i /\ e_filled m' b i = e_filled m b i.
Proof.
  unfold entry_area, range, DIRENT_SIZE, DIR_NAME_LENGTH. intros H. split.
  - intros name [_ Hl]. unfold DIR_NAME_LENGTH in Hl. apply str_at_ext. unfold range. intros x Hx. apply H. lia.
  - unfold e_inum, e_filled. split; f_equal; apply rdn_ext; unfold range, off_inum, off_filled, DIR_NAME_LENGTH;
      intros x Hx; apply H; lia.
Qed.

Lemma streq_entry m b i name Q :
  image m -> 0 <= b < 256 -> 0 <= i < 60 -> name_ok name ->
  wp (streq (dirent_addr (blocks_get_block b) i) name) Q m <-> Q (e_named m b name i) m.
Proof.
  intros Hm Hb Hi [_ Hl]. unfold DIR_NAME_LENGTH in Hl. apply streq_spec.
  rewrite <- (Z.add_0_r (dirent_addr _ _)). apply entry_mapped; [done..|lia|lia].
Qed.

Lemma lookup_from_spec m b name n : forall i Q,
  image m -> 0 <= b < 256 -> 0 <= i -> i + Z.of_nat n <= 60 -> name_ok name ->
  wp (lookup_from (blocks_get_block b) name n i) Q m <->
  Q (match first_from (e_named m b name) n i with Some j => e_inum m b j | None => - ENOENT end) m.
Proof.
  induction n as [|n IH]; intros i Q Hm Hb Hi Hn Hok; cbn [lookup_from first_from]; [by rewrite wp_ret|].
  rewrite wp_bind, streq_entry by (try done; lia). destruct (e_named m b name i).
  - rewrite wp_ld32, entry_mapped by (try done; try (vm_compute; done); lia). unfold e_inum. naive_solver.
  - apply IH; [done|done|lia|lia|done].
Qed.

Lemma directory_lookup_spec m d b name Q :
  dir m d b -> name_ok name ->
  wp (directory_lookup (Some (inode_addr d)) name) Q m <->
  Q (match dir_find m b name with Some j => e_inum m b j | None => - ENOENT end) m.
Proof.
  intros Hd Hok. unfold directory_lookup. rewrite wp_bind, (dir_contents_spec _ _ _ _ Hd).
  destruct Hd as (Hm & _ & _ & Hb). by apply lookup_from_spec; [done|lia|lia|vm_compute|].
Qed.

Lemma directory_lookup_run m d b name :
  dir m d b -> name_ok name ->
  directory_lookup (Some (inode_addr d)) name m =
  Ok (match dir_find m b name with Some j => e_inum m b j | None => - ENOENT end, m).
Proof.
  intros Hd Hok.
  pose proof (proj2 (directory_lookup_spec m d b name
    (fun r m' => r = match dir_find m b name with Some j => e_inum m b j | None => - ENOENT end /\ m' = m)
    Hd Hok) ltac:(done)) as H.
  apply wp_run in H as (r & m' & -> & -> & ->). done.
Qed.

(** What writing an entry does. *)
Record entry_put (b i : Z) (name : list Z) (inum : Z) (m m' : mem) : Prop := {
  ep_same : same_but (entry_area b i) m m';
  ep_name : forall s, name_ok s -> e_named m' b s i = bool_decide (s = name);
  ep_inum : e_inum m' b i = inum;
  ep_filled : e_filled m' b i = 1
}.

Lemma put_from_spec m b name inum n : forall i,
  image m -> 0 <= b < 256 -> 0 <= i -> i + Z.of_nat n <= 60 -> name_ok name ->
  INT_MIN <= inum <= INT_MAX ->
  wp (put_from (blocks_get_block b) name inum n i) (fun r m' =>
    match first_from (fun i => negb (e_filled m b i =? 1)) n i with
    | Some j => r = 0 /\ entry_put b j name inum m m'
    | None => r = -1 /\ m' = m
    end) m.
Proof.
  induction n as [|n IH]; intros i Hm Hb Hi Hn Hok Hin; cbn [put_from first_from]; [by rewrite wp_ret|].
  rewrite wp_bind, wp_ld32, entry_mapped by (try done; try (vm_compute; done); lia). split; [done|].
  fold (e_filled m b i). destruct (negb (e_filled m b i =? 1)); [|by apply IH; try lia].
  set (e := dirent_addr (blocks_get_block b) i). pose proof Hok as [Hc Hl]. unfold DIR_NAME_LENGTH in Hl.
  assert (He : e = 4096 * b + 68 * i) by done.
  rewrite wp_bind, wp_st32. subst e. rewrite entry_mapped by (try done; try (vm_compute; done); lia). split; [done|].
  set (e := dirent_addr (blocks_get_block b) i) in *. set (m1 := wrn m (e + off_inum) 4 inum).
  pose proof (wrn_same_but m (e + off_inum) 4 inum) as Hs1. fold m1 in Hs1.
  pose proof (image_same_but _ _ _ Hm Hs1) as Hm1.
  rewrite wp_bind. apply wp_write_bytes.
  { rewrite length_app. rewrite <- (Z.add_0_r e). apply entry_mapped; [done|lia|lia|lia|simpl; lia]. }
  set (m2 := wr_list m1 e (name ++ [0])). pose proof (wr_list_same_but m1 e (name ++ [0])) as Hs2. fold m2 in Hs2.
  rewrite length_app in Hs2. simpl in Hs2. pose proof (image_same_but _ _ _ Hm1 Hs2) as Hm2.
  rewrite wp_bind, wp_st32. unfold e at 1. rewrite entry_mapped by (try done; try (vm_compute; done); lia).
  split; [done|]. rewrite wp_ret. split; [done|].
  set (m3 := wrn m2 (e + off_filled) 4 1). pose proof (wrn_same_but m2 (e + off_filled) 4 1) as Hs3. fold m3 in Hs3.
  unfold off_inum, off_filled, DIR_NAME_LENGTH in *. change (Z.of_nat 4) with 4 in *. split.
  - eapply same_but_trans; [eapply same_but_mono; [exact Hs1|]|
      eapply same_but_trans; [eapply same_but_mono; [exact Hs2|]|eapply same_but_mono; [exact Hs3|]]];
      unfold entry_area, range, DIRENT_SIZE, DIR_NAME_LENGTH; fold e; intros x Hx; lia.
  - intros s [Hs Hsl]. unfold DIR_NAME_LENGTH in Hsl. unfold e_named. fold e. rewrite (str_at_ext m2).
    + by apply str_at_copy.
    + intros x Hx. apply Hs3. unfold range in *. lia.
  - unfold e_inum, off_inum, DIR_NAME_LENGTH. fold e.
    rewrite (rdn_same_but _ _ _ _ _ Hs3) by (unfold range; lia).
    rewrite (rdn_same_but _ _ _ _ _ Hs2) by (unfold range; lia). by apply i32_rdn_wrn.
  - unfold e_filled, off_filled, DIR_NAME_LENGTH. fold e. apply i32_rdn_wrn. by vm_compute.
Qed.

Lemma delete_from_spec m b name n : forall i,
  image m -> 0 <= b < 256 -> 0 <= i -> i + Z.of_nat n <= 60 -> name_ok name ->
  wp (delete_from (blocks_get_block b) name n i) (fun r m' =>
    match first_from (e_named m b name) n i with
    | Some j => r = 0 /\ e_filled m' b j = 0 /\
        same_but (range (dirent_addr (blocks_get_block b) j + off_filled) 4) m m'
    | None => r = -1 /\ m' = m
    end) m.
Proof.
  induction n as [|n IH]; intros i Hm Hb Hi Hn Hok; cbn [delete_from first_from]; [by rewrite wp_ret|].
  rewrite wp_bind, streq_entry by (try done; lia). destruct (e_named m b name i); [|by apply IH; try lia].
  rewrite wp_bind, wp_st32, entry_mapped by (try done; try (vm_compute; done); lia). split; [done|].
  rewrite wp_ret. split; [done|]. split; [apply i32_rdn_wrn; by vm_compute|]. apply (wrn_same_but _ _ 4).
Qed.

(** Directories stay directories when only entries are written. *)
Lemma dir_same_but m m' d b P :
  dir m d b -> same_but P m m' -> (forall x, P x -> 20480 <= x) -> dir m' d b.
Proof.
  intros (Hm & Hd & Hb & Hr) Hs HP. split; [by eapply image_same_but|]. split; [done|]. split; [|done].
  rewrite <- Hb. eapply fld_same_but; [exact Hs|]. intros x Hx Hp%HP. pose proof (offset_width Block).
  unfold range in Hx. rewrite inode_addr_eq in Hx. unfold SIZE in Hd. lia.
Qed.

Lemma entry_area_data b i x : 5 <= b -> 0 <= i -> entry_area b i x -> 20480 <= x.
Proof. unfold entry_area, range. rewrite dirent_addr_eq. lia. Qed.

(** Entries other than the one written. *)
Lemma entry_other m m' b i j :
  same_but (entry_area b i) m m' -> i <> j ->
  (forall name, name_ok name -> e_named m' b name j = e_named m b name j) /\
  e_inum m' b j = e_inum m b j /\ e_filled m' b j = e_filled m b j.
Proof.
  intros (_ & _ & Hs) Hne. apply entry_ext. intros x Hx. apply Hs. unfold entry_area, range in *.
  rewrite !dirent_addr_eq in *. change DIRENT_SIZE with 68 in *. lia.
Qed.

Lemma directory_put_spec m d b name inum :
  dir m d b -> name_ok name -> INT_MIN <= inum <= INT_MAX ->
  wp (directory_put (Some (inode_addr d)) name inum) (fun r m' =>
    match dir_slot m b with Some j => r = 0 /\ entry_put b j name inum m m' | None => r = -1 /\ m' = m end) m.
Proof.
  intros Hd Hok Hin. pose proof Hd as (Hm & _ & _ & Hb). unfold directory_put.
  rewrite wp_bind, (dir_contents_spec _ _ _ _ Hd). apply put_from_spec; [done|lia|lia|by vm_compute|done|done].
Qed.

Lemma directory_delete_spec m d b name :
  dir m d b -> name_ok name ->
  wp (directory_delete (Some (inode_addr d)) name) (fun r m' =>
    match dir_find m b name with
    | Some j => r = 0 /\ e_filled m' b j = 0 /\
        same_but (range (dirent_addr (blocks_get_block b) j + off_filled) 4) m m'
    | None => r = -1 /\ m' = m
    end) m.
Proof.
  intros Hd Hok. pose proof Hd as (Hm & _ & _ & Hb). unfold directory_delete.
  rewrite wp_bind, (dir_contents_spec _ _ _ _ Hd). apply delete_from_spec; [done|lia|lia|by vm_compute|done].
Qed.

Lemma dir_find_put m m' b j name inum :
  entry_put b j name inum m m' -> name_ok name -> 0 <= j < 60 -> dir_find m b name = None ->
  dir_find m' b name = Some j.
Proof.
  intros [Hs Hname _ _] Hok Hj Hnone. unfold dir_find in *. rewrite first_from_None in Hnone.
  apply first_from_here; [lia|by rewrite Hname, bool_decide_eq_true|].
  intros k Hk. rewrite (proj1 (entry_other m m' b j k Hs ltac:(lia))) by done. apply Hnone. lia.
Qed.

(** Clearing the [filled] flag leaves names and numbers alone. *)
Lemma dir_find_delete m m' b j name :
  same_but (range (dirent_addr (blocks_get_block b) j + off_filled) 4) m m' -> 0 <= j < 60 -> name_ok name ->
  dir_find m' b name = dir_find m b name /\ e_inum m' b j = e_inum m b j.
Proof.
  intros Hs Hj [_ Hl]. split.
  - apply first_from_ext. intros k Hk. apply str_at_ext. intros x Hx. apply Hs.
    unfold range, off_filled, DIR_NAME_LENGTH in *. rewrite !dirent_addr_eq in *. lia.
  - unfold e_inum. f_equal. eapply rdn_same_but; [exact Hs|].
    unfold range, off_filled, off_inum, DIR_NAME_LENGTH. lia.
Qed.

(** ** Theorems *)

(** C36. directory_put inserts and directory_lookup finds.  In a directory with
    an unfilled entry, putting a name that fits writes only that entry and
    returns 0; if the name did not occur, it is then found with the new inode
    number, and every other name whose entry was not overwritten is found as
    before.  In a full directory put returns -1 and changes nothing. *)
Theorem directory_put_lookup m d b name inum :
  dir m d b -> name_ok name -> INT_MIN <= inum <= INT_MAX ->
  match dir_slot m b with
  | None => directory_put (Some (inode_addr d)) name inum m = Ok (-1, m)
  | Some j => exists m',
      directory_put (Some (inode_addr d)) name inum m = Ok (0, m') /\
      same_but (entry_area b j) m m' /\ dir m' d b /\ e_filled m' b j = 1 /\
      (dir_find m b name = None -> directory_lookup (Some (inode_addr d)) name m' = Ok (inum, m')) /\
      (forall s, name_ok s -> s <> name -> dir_find m b s <> Some j ->
         exists r, directory_lookup (Some (inode_addr d)) s m = Ok (r, m) /\
                   directory_lookup (Some (inode_addr d)) s m' = Ok (r, m'))
  end.
Proof.
  intros Hd Hok Hin. pose proof Hd as (Hm & _ & _ & Hb).
  pose proof (directory_put_spec m d b name inum Hd Hok Hin) as Hput.
  apply wp_run in Hput as (r & m' & Hrun & H). destruct (dir_slot m b) as [j|] eqn:Ej; [|by destruct H as [-> ->]].
  destruct H as [-> [Hs Hname Hinum Hfill]]. exists m'. split; [done|]. split; [done|].
  apply first_from_Some in Ej as (Hj & _ & _).
  assert (Hd' : dir m' d b).
  { eapply dir_same_but; [done|done|]. intros x. apply entry_area_data; lia. }
  split; [done|]. split; [done|].
  assert (Hother : forall s k, name_ok s -> k <> j -> e_named m' b s k = e_named m b s k).
  { intros s k Hs' Hk. by apply (entry_other m m' b j k Hs ltac:(lia)). }
  split.
  - intros Hnone. rewrite (directory_lookup_run m' d b name Hd' Hok).
    rewrite (dir_find_put m m' b j name inum) by (try done; lia). by rewrite Hinum.
  - intros s Hsok Hne Hnj. rewrite (directory_lookup_run m d b s Hd Hsok), (directory_lookup_run m' d b s Hd' Hsok).
    eexists. split; [done|].
    assert (dir_find m' b s = dir_find m b s) as ->.
    { destruct (dir_find m b s) as [k|] eqn:Ek.
      - apply first_from_Some in Ek as (Hk & Hnk & Hlt). apply first_from_here; [done| |].
        + rewrite Hother by congruence. done.
        + intros i Hi. destruct (Z.eq_dec i j) as [->|Hij]; [|rewrite Hother by done; by apply Hlt].
          rewrite Hname by done. by apply bool_decide_eq_false.
      - apply first_from_None. unfold dir_find in Ek. rewrite first_from_None in Ek. intros k Hk.
        destruct (Z.eq_dec k j) as [->|Hkj]; [|rewrite Hother by done; by apply Ek].
        rewrite Hname by done. by apply bool_decide_eq_false. }
    do 2 f_equal. destruct (dir_find m b s) as [k|]; [|done].
    apply (entry_other m m' b j k Hs). congruence.
Qed.

(** directory_delete does not delete the name.  For a name that occurs it
    returns 0 and marks the entry unfilled, so that listings skip it and put
    reuses it, but the name and inode number stay, and directory_lookup gives
    the same inode number as before. *)
Theorem directory_delete_keeps_name m d b name :
  dir m d b -> name_ok name ->
  match dir_find m b name with
  | None => directory_delete (Some (inode_addr d)) name m = Ok (-1, m)
  | Some j => exists m',
      directory_delete (Some (inode_addr d)) name m = Ok (0, m') /\ e_filled m' b j = 0 /\
      directory_lookup (Some (inode_addr d)) name m = Ok (e_inum m b j, m) /\
      directory_lookup (Some (inode_addr d)) name m' = Ok (e_inum m b j, m')
  end.
Proof.
  intros Hd Hok. pose proof Hd as (Hm & _ & _ & Hb).
  pose proof (directory_delete_spec m d b name Hd Hok) as Hdel.
  apply wp_run in Hdel as (r & m' & Hrun & H).
  destruct (dir_find m b name) as [j|] eqn:Ej; [|by destruct H as [-> ->]].
  destruct H as (-> & Hfill & Hs). exists m'. split; [done|]. split; [done|].
  rewrite (directory_lookup_run m d b name Hd Hok), Ej. split; [done|].
  pose proof Ej as (Hj & _)%first_from_Some.
  destruct (dir_find_delete m m' b j name) as [Ej' Ei]; [done|lia|done|].
  rewrite (directory_lookup_run m' d b name), Ej', Ej, Ei; [done| |done].
  eapply dir_same_but; [done|done|]. unfold range. rewrite dirent_addr_eq. unfold off_filled, DIR_NAME_LENGTH. lia.
Qed.

(** ** Witnesses *)

(** A formatted image; its root directory is inode 1 with block 5. *)
Definition root_image : mem := after (do! blocks_init in directory_init 0) blank.

Lemma root_dir : dir root_image 1 5.
Proof. unfold dir, image, SIZE. split_and!; first [lia | by vm_compute]. Defined.

Lemma name_ok_witness : name_ok [97; 98].
Proof. split; [repeat constructor; lia|by vm_compute]. Defined.

Lemma directory_put_lookup_witness :
  exists m', directory_put (Some (inode_addr 1)) [97; 98] 7 root_image = Ok (0, m') /\
    directory_lookup (Some (inode_addr 1)) [97; 98] m' = Ok (7, m').
Proof.
  pose proof (directory_put_lookup root_image 1 5 [97; 98] 7 root_dir name_ok_witness
    ltac:(split; by vm_compute)) as H.
  assert (E : dir_slot root_image 5 = Some 2) by (by vm_compute). rewrite E in H.
  destruct H as (m' & Hput & _ & _ & _ & Hl & _). exists m'. split; [exact Hput|].
  apply Hl. by vm_compute.
Defined.

Lemma directory_delete_keeps_name_witness :
  exists m', directory_delete (Some (inode_addr 1)) [46; 46] root_image = Ok (0, m') /\
    directory_lookup (Some (inode_addr 1)) [46; 46] m' = Ok (1, m').
Proof.
  pose proof (directory_delete_keeps_name root_image 1 5 [46; 46] root_dir
    ltac:(split; [repeat constructor; lia|by vm_compute])) as H.
  assert (E : dir_find root_image 5 [46; 46] = Some 1) by (by vm_compute). rewrite E in H.
  assert (E' : e_inum root_image 5 1 = 1) by (by vm_compute). rewrite E' in H.
  destruct H as (m' & Hdel & _ & _ & Hl). exists m'. split; [exact Hdel|exact Hl].
Defined.
End Directory.
