(* ===== verification/Storage.v ===== *)
(** * Storage: File System/files/storage.c

    The path and inode level operations of the file system.  Buffers are lists
    of bytes: storage_read returns the bytes it copies, storage_write takes
    the bytes to copy.  [size_t] arithmetic wraps at 64 bits. *)
From stdpp Require Import base list gmap.
From Stdlib Require Import ZArith Lia.
From S2P Require Import Prelude Mem Bitmap Blocks Inode Slist Directory.
Import Bitmap Blocks Inode Directory.

Module Storage.

Definition resolve (path : option (list Z)) (inum : Z) : M mem Z :=
  match path with Some p => tree_lookup p | None => ret inum end.

Definition storage_init (now : Z) : M mem unit :=
  do! blocks_init in directory_init now.

(** The fields of [struct stat] the code fills. *)
Record stat := mk_stat {
  st_ino : Z;
  st_uid : Z;
  st_mode : Z;
  st_nlink : Z;
  st_size : Z
}.

(** S_ISREG: the file type bits are 0100000. *)
Definition S_ISREG (mode : Z) : bool := Z.land mode 61440 =? 32768.

(** [uid] is getuid() and [st] the caller's struct.  The code's
    [memset(st, 0, sizeof(stat))] names the function [stat] and clears one
    byte (of [st_dev]), so [st_size] keeps the caller's value unless the
    object is a regular file. *)
Definition storage_stat (uid : Z) (path : option (list Z)) (inum : Z) (st : stat) : M mem (Z * stat) :=
  let! inum := resolve path inum in
  if inum <? 0 then ret (-1, st)
  else
    let! node := get_inode inum in
    let! mode := get_field node Mode in
    let! refs := get_field node Refs in
    let! size := (if S_ISREG mode then get_field node Size else ret (st_size st)) in
    ret (0, mk_stat inum uid mode refs size).

(** [while (offset >= BLOCK_SIZE)]: the inode that holds the offset, and the
    offset inside its block. *)
Fixpoint seek (fuel : nat) (pnode : option Z) (offset : Z) : M mem (option Z * Z) :=
  match fuel with
  | O => fail OutOfFuel
  | S fuel =>
      if BLOCK_SIZE <=? offset then
        let! nx := get_field pnode NextInode in
        let! pnode := get_inode nx in
        seek fuel pnode (offset - BLOCK_SIZE)
      else ret (pnode, offset)
  end.

Definition seek_fuel (offset : Z) : nat := S (Z.to_nat (offset / BLOCK_SIZE)).

(** [while (temp_sz > BLOCK_SIZE)] of storage_read, with the copy of the last
    block that follows it. *)
Fixpoint read_blocks (fuel : nat) (pnode : option Z) (temp_sz : Z) : M mem (list Z) :=
  match fuel with
  | O => fail OutOfFuel
  | S fuel =>
      let! nx := get_field pnode NextInode in
      let! pnode := get_inode nx in
      let! b := get_field pnode Block in
      if BLOCK_SIZE <? temp_sz then
        let! bytes := read_bytes (blocks_get_block b) (Z.to_nat BLOCK_SIZE) in
        let! rest := read_blocks fuel pnode (temp_sz - BLOCK_SIZE) in
        ret (bytes ++ rest)
      else
        (* memcpy with a negative int count, converted to size_t *)
        do! (if temp_sz <? 0 then fail OutOfBounds else ret tt) in
        read_bytes (blocks_get_block b) (Z.to_nat temp_sz)
  end.

(** Each iteration of the block loops handles one more block of [temp_sz]. *)
Definition copy_fuel (temp_sz : Z) : nat := S (Z.to_nat (temp_sz / BLOCK_SIZE)).

(** Returns the value of the call and the bytes put in the buffer. *)
Definition storage_read (path : option (list Z)) (inum size offset : Z) : M mem (Z * list Z) :=
  let! inum := resolve path inum in
  let! node := get_inode inum in
  do! assert (0 <=? offset) in
  if size =? 0 then ret (0, [])
  else
    let! nsize := get_field node Size in
    let size := if u64 nsize <? u64 (offset + size) then u64 (nsize - offset) else size in
    let! '(pnode, offset) := seek (seek_fuel offset) node offset in
    let! b := get_field pnode Block in
    let block_temp := blocks_get_block b + offset in
    if BLOCK_SIZE <? u64 (size + offset) then
      let! first := read_bytes block_temp (Z.to_nat (BLOCK_SIZE - offset)) in
      let temp_sz := i32 (i32 size - (BLOCK_SIZE - offset)) in
      let! rest := read_blocks (copy_fuel temp_sz) pnode temp_sz in
      ret (i32 size, first ++ rest)
    else
      let! bytes := (if NUFS_SIZE <? size then fail OutOfBounds
                     else read_bytes block_temp (Z.to_nat size)) in
      ret (i32 size, bytes).

(** [while (temp_sz > 0)] of storage_write; [buf] is what is left to copy. *)
Fixpoint write_blocks (fuel : nat) (pnode : option Z) (temp_sz : Z) (buf : list Z) : M mem unit :=
  match fuel with
  | O => fail OutOfFuel
  | S fuel =>
      if 0 <? temp_sz then
        let! nx := get_field pnode NextInode in
        let! pnode := get_inode nx in
        let! b := get_field pnode Block in
        let count := if BLOCK_SIZE <? temp_sz then BLOCK_SIZE else temp_sz in
        do! write_bytes (blocks_get_block b) (take (Z.to_nat count) buf) in
        write_blocks fuel pnode (temp_sz - BLOCK_SIZE) (drop (Z.to_nat BLOCK_SIZE) buf)
      else ret tt
  end.

(** [buf] has [size] bytes. *)
Definition storage_write (now : Z) (path : option (list Z)) (inum : Z) (buf : list Z) (offset : Z) :
    M mem Z :=
  let size := Z.of_nat (length buf) in
  let! inum := resolve path inum in
  do! assert (0 <=? inum) in
  let! node := get_inode inum in
  do! assert (0 <=? offset) in
  if size =? 0 then ret 0
  else
    let! nsize := get_field node Size in
    let! grown := (if u64 nsize <? u64 (size + offset)
                   then grow_inode now node (i32 (size + offset - nsize)) else ret 0) in
    if grown <? 0 then ret (-1)
    else
      let! '(pnode, offset) := seek (seek_fuel offset) node offset in
      let! b := get_field pnode Block in
      let block_temp := blocks_get_block b + offset in
      if BLOCK_SIZE <? u64 (size + offset) then
        do! write_bytes block_temp (take (Z.to_nat (BLOCK_SIZE - offset)) buf) in
        let temp_sz := i32 (i32 size - (BLOCK_SIZE - offset)) in
        do! write_blocks (S (copy_fuel temp_sz)) pnode temp_sz (drop (Z.to_nat (BLOCK_SIZE - offset)) buf) in
        ret (i32 size)
      else
        do! write_bytes block_temp buf in
        ret (i32 size).

Definition storage_truncate (now : Z) (path : list Z) (size : Z) : M mem Z :=
  let! inum := tree_lookup path in
  do! assert (0 <=? inum) in
  let! node := get_inode inum in
  let! node_size := get_field node Size in
  if node_size <=? size then grow_inode now node (i32 (size - node_size))
  else shrink_inode node (i32 (node_size - size)).

Definition storage_mknod (now : Z) (path : option (list Z)) (name : list Z) (pinum mode : Z) : M mem Z :=
  let! pinum := resolve path pinum in
  do! assert (0 <=? pinum) in
  let! directory_node := get_inode pinum in
  let! inum := directory_lookup directory_node name in
  if 0 <=? inum then ret (- EEXIST)
  else
    let! inum := alloc_inode now in
    let! node := get_inode inum in
    do! set_field node Refs 1 in
    do! set_field node Mode mode in
    do! set_field node Size 0 in
    do! directory_put directory_node name inum in
    ret 0.

Definition storage_unlink (path : option (list Z)) (pinum : Z) (name : list Z) : M mem Z :=
  let! pinum := resolve path pinum in
  let! directory_node := get_inode pinum in
  let! inum := directory_lookup directory_node name in
  let! node := get_inode inum in
  let! refs := get_field node Refs in
  do! set_field node Refs (refs - 1) in
  let! rv := directory_delete directory_node name in
  let! refs := get_field node Refs in
  do! (if refs <=? 0 then free_inode inum else ret tt) in
  ret rv.

Definition storage_link (from : option (list Z)) (from_inum : Z) (to_parent : option (list Z))
    (to_pinum : Z) (to_child : list Z) : M mem Z :=
  let! from_inum := resolve from from_inum in
  do! assert (0 <=? from_inum) in
  let! node := get_inode from_inum in
  let! refs := get_field node Refs in
  do! set_field node Refs (refs + 1) in
  let! to_pinum := resolve to_parent to_pinum in
  let! to_parent_node := get_inode to_pinum in
  directory_put to_parent_node to_child from_inum.

Definition storage_rename (from_parent : option (list Z)) (from_pinum : Z) (from_child : list Z)
    (to_parent : option (list Z)) (to_pinum : Z) (to_child : list Z) : M mem Z :=
  let! from_pinum := resolve from_parent from_pinum in
  let! from_pnode := get_inode from_pinum in
  let! from_inum := directory_lookup from_pnode from_child in
  let! _ := storage_link None from_inum to_parent to_pinum to_child in
  let! _ := storage_unlink from_parent from_pinum from_child in
  ret 0.

Definition storage_list (path : option (list Z)) (inum : Z) : M mem (list dirent) :=
  directory_list path inum.

(** [while (path[index] != '/')] from the last character: the number of
    characters after the last slash; running off the front of the string is an
    out-of-bounds read. *)
Fixpoint after_slash (rev_path : list Z) : option nat :=
  match rev_path with
  | [] => None
  | c :: rest => if c =? 47 then Some O else option_map S (after_slash rest)
  end.

(** The strings left in [directory] and [name]. *)
Definition split_path (path : list Z) : res (list Z * list Z) :=
  match after_slash (rev path) with
  | None => Err OutOfBounds
  | Some counter =>
      let n := length path in
      if negb (Nat.eqb counter (n - 1))
      then Ok (take (n - counter - 1) path, drop (n - counter) path)
      else Ok (take 1 path, drop 1 path)
  end.

(** ** The contents of a file *)

(** The byte at offset [k] of the file stored in the blocks of a chain. *)
Fixpoint fbyte (m : mem) (ns : list (Z * Z)) (k : Z) : Z :=
  match ns with
  | [] => 0
  | (_, b) :: ns => if k <? BLOCK_SIZE then rd m (blocks_get_block b + k) else fbyte m ns (k - BLOCK_SIZE)
  end.

Definition fbytes (m : mem) (ns : list (Z * Z)) (off n : Z) : list Z :=
  map (fun i => fbyte m ns (off + Z.of_nat i)) (seq 0 (Z.to_nat n)).

(** Data blocks: past the bitmaps and the inode table, inside the image. *)
Definition data_blocks (ns : list (Z * Z)) : Prop := Forall (fun n => 5 <= n.2 < 256) ns.
Definition data_area (ns : list (Z * Z)) (x : Z) : Prop :=
  exists i b, (i, b) ∈ ns /\ range (blocks_get_block b) BLOCK_SIZE x.

(** Offsets up to the last block of the chain. *)
Definition capacity (ns : list (Z * Z)) : Z := BLOCK_SIZE * Z.of_nat (length ns).

Lemma fbyte_app m pre ns k :
  capacity pre <= k -> fbyte m (pre ++ ns) k = fbyte m ns (k - capacity pre).
Proof.
  unfold capacity, BLOCK_SIZE. revert k. induction pre as [|[i b] pre IH]; intros k Hk; simpl.
  - f_equal. simpl. lia.
  - cbn [length] in Hk. rewrite Nat2Z.inj_succ in Hk. unfold BLOCK_SIZE.
    destruct (Z.ltb_spec k 4096); [lia|]. rewrite IH by lia. f_equal. cbn [length]. rewrite Nat2Z.inj_succ. lia.
Qed.

Lemma fbyte_app_l m pre ns k : 0 <= k < capacity pre -> fbyte m (pre ++ ns) k = fbyte m pre k.
Proof.
  unfold capacity, BLOCK_SIZE. revert k. induction pre as [|[i b] pre IH]; intros k Hk; simpl; [simpl in Hk; lia|].
  cbn [length] in Hk. rewrite Nat2Z.inj_succ in Hk. unfold BLOCK_SIZE.
  destruct (Z.ltb_spec k 4096); [done|]. apply IH. lia.
Qed.

Lemma fbytes_split m ns off n1 n2 :
  0 <= n1 -> 0 <= n2 -> fbytes m ns off (n1 + n2) = fbytes m ns off n1 ++ fbytes m ns (off + n1) n2.
Proof.
  intros H1 H2. unfold fbytes. rewrite Z2Nat.inj_add, seq_app, map_app by done. f_equal.
  apply list_eq. intros i. rewrite !list_lookup_fmap. destruct (decide (i < Z.to_nat n2)%nat).
  - rewrite !lookup_seq_lt by done. simpl. do 2 f_equal. lia.
  - rewrite !lookup_seq_ge by lia. done.
Qed.

Lemma fbytes_ext m ns m' ns' off off' n :
  (forall k, 0 <= k < n -> fbyte m' ns' (off' + k) = fbyte m ns (off + k)) ->
  fbytes m' ns' off' n = fbytes m ns off n.
Proof.
  intros H. unfold fbytes. apply map_ext_in. intros i Hi%in_seq. apply H. lia.
Qed.

(** The bytes inside one block. *)
Lemma fbytes_block m i b ns off n :
  0 <= off -> 0 <= n -> off + n <= BLOCK_SIZE ->
  fbytes m ((i, b) :: ns) off n = map (fun k => rd m (blocks_get_block b + off + Z.of_nat k)) (seq 0 (Z.to_nat n)).
Proof.
  intros Ho Hn Hle. unfold fbytes. apply map_ext_in. intros k Hk%in_seq. simpl.
  destruct (Z.ltb_spec (off + Z.of_nat k) BLOCK_SIZE); [|lia]. f_equal. lia.
Qed.

Lemma block_mapped m b off n :
  image m -> 0 <= b < 256 -> 0 <= off -> off + n <= BLOCK_SIZE -> mapped m (blocks_get_block b + off) n = true.
Proof.
  intros Hm Hb Ho Hn. unfold blocks_get_block, BLOCK_SIZE in *. apply image_mapped; [done|lia|].
  change NUFS_SIZE with 1048576. lia.
Qed.

(** ** Reading *)

Lemma read_in_block m i b ns off n Q :
  image m -> 0 <= b < 256 -> 0 <= off -> 0 <= n -> off + n <= BLOCK_SIZE ->
  Q (fbytes m ((i, b) :: ns) off n) m -> wp (read_bytes (blocks_get_block b + off) (Z.to_nat n)) Q m.
Proof.
  intros Hm Hb Ho Hn Hle HQ. rewrite (fbytes_block m i b ns off n) in HQ by done.
  apply wp_read_bytes; [|exact HQ]. apply block_mapped; [done..|lia].
Qed.

Lemma seek_spec fuel : forall m i b ns off,
  image m -> links m ((i, b) :: ns) -> 0 <= off < capacity ((i, b) :: ns) ->
  (Z.to_nat (off / BLOCK_SIZE) < fuel)%nat ->
  wp (seek fuel (Some (inode_addr i)) off) (fun r m' => m' = m /\
    exists pre j c post, (i, b) :: ns = pre ++ (j, c) :: post /\
      r = (Some (inode_addr j), off - capacity pre) /\ 0 <= off - capacity pre < BLOCK_SIZE) m.
Proof.
  unfold capacity. induction fuel as [|fuel IH]; intros m i b ns off Hm Hl Hoff Hfuel; [lia|].
  pose proof Hl as (Hi & _ & _ & Hnx & Hl'). cbn [seek]. destruct (Z.leb_spec BLOCK_SIZE off).
  - destruct ns as [|[i1 b1] ns]; [simpl in Hoff; unfold BLOCK_SIZE in *; lia|].
    cbn [map fst hd length] in *. pose proof Hl' as (Hi1 & Hu1 & _).
    rewrite wp_bind, get_field_spec, Hnx by done. rewrite wp_bind, get_inode_spec, Hu1 by done.
    assert (Hdiv : off / BLOCK_SIZE = (off - BLOCK_SIZE) / BLOCK_SIZE + 1).
    { rewrite <- Z.div_add by done. f_equal. unfold BLOCK_SIZE. lia. }
    pose proof (Z.div_pos (off - BLOCK_SIZE) BLOCK_SIZE ltac:(lia) ltac:(done)).
    eapply wp_mono; [apply (IH m i1 b1 ns (off - BLOCK_SIZE)); [done|done|unfold BLOCK_SIZE in *; lia|lia]|].
    intros r m' (-> & pre & j & c & post & E & -> & Ho). split; [done|].
    exists ((i, b) :: pre), j, c, post. rewrite E. cbn [length]. rewrite Nat2Z.inj_succ.
    split; [done|]. unfold BLOCK_SIZE in *. split; [f_equal; lia|lia].
  - rewrite wp_ret. split; [done|]. exists [], i, b, ns. simpl. unfold BLOCK_SIZE in *.
    split; [done|]. split; [f_equal; lia|lia].
Qed.

Lemma read_blocks_spec fuel : forall m i b ns t,
  image m -> links m ((i, b) :: ns) -> data_blocks ns -> 0 < t <= capacity ns ->
  (Z.to_nat (t / BLOCK_SIZE) < fuel)%nat ->
  wp (read_blocks fuel (Some (inode_addr i)) t) (fun r m' => m' = m /\ r = fbytes m ns 0 t) m.
Proof.
  unfold capacity. induction fuel as [|fuel IH]; intros m i b ns t Hm Hl Hd Ht Hfuel; [lia|].
  pose proof Hl as (Hi & _ & _ & Hnx & Hl').
  destruct ns as [|[i1 b1] ns]; [simpl in Ht; lia|]. cbn [map fst hd] in *.
  pose proof Hl' as (Hi1 & Hu1 & Hb1 & _). apply Forall_cons in Hd as [Hb Hd]. cbn [snd] in Hb.
  cbn [length] in Ht. rewrite Nat2Z.inj_succ in Ht.
  cbn [read_blocks]. rewrite wp_bind, get_field_spec, Hnx by done.
  rewrite wp_bind, get_inode_spec, Hu1 by done. rewrite wp_bind, get_field_spec, Hb1 by done.
  destruct (Z.ltb_spec BLOCK_SIZE t).
  - rewrite wp_bind. rewrite <- (Z.add_0_r (blocks_get_block b1)).
    apply (read_in_block m i1 b1 ns); [done|lia|lia|done|done|].
    assert (Hdiv : t / BLOCK_SIZE = (t - BLOCK_SIZE) / BLOCK_SIZE + 1).
    { rewrite <- Z.div_add by done. f_equal. unfold BLOCK_SIZE. lia. }
    pose proof (Z.div_pos (t - BLOCK_SIZE) BLOCK_SIZE ltac:(lia) ltac:(done)).
    rewrite wp_bind. eapply wp_mono.
    { apply (IH m i1 b1 ns (t - BLOCK_SIZE)); [done|done|done|unfold BLOCK_SIZE in *; lia|lia]. }
    intros r m' [-> ->]. rewrite wp_ret. split; [done|].
    rewrite <- (fbytes_ext m ns m ((i1, b1) :: ns) 0 BLOCK_SIZE).
    + rewrite <- fbytes_split by (unfold BLOCK_SIZE in *; lia). f_equal. lia.
    + intros k Hk. simpl. destruct (Z.ltb_spec (BLOCK_SIZE + k) BLOCK_SIZE); [lia|]. f_equal. lia.
  - destruct (Z.ltb_spec t 0); [lia|]. rewrite wp_bind, wp_ret. rewrite <- (Z.add_0_r (blocks_get_block b1)).
    apply (read_in_block m i1 b1 ns); [done|lia|lia|lia|lia|done].
Qed.

Lemma capacity_file m ns s : file m ns s -> s <= capacity ns.
Proof.
  intros (Hs & _ & _ & Hlen). unfold capacity. rewrite Hlen. unfold extra, BLOCK_SIZE.
  pose proof (Z.div_mod (s - 1) 4096 ltac:(lia)). pose proof (Z.mod_pos_bound (s - 1) 4096 ltac:(lia)).
  lia.
Qed.

Lemma seek_fuel_ok off : (Z.to_nat (off / BLOCK_SIZE) < seek_fuel off)%nat.
Proof. unfold seek_fuel. lia. Qed.

Lemma capacity_cut ns pre j c post :
  ns = pre ++ (j, c) :: post -> capacity ns = capacity pre + BLOCK_SIZE + capacity post.
Proof. intros ->. unfold capacity. rewrite length_app. cbn [length]. lia. Qed.

Lemma links_app m pre post : links m (pre ++ post) -> links m post.
Proof. induction pre as [|[i b] pre IH]; [done|]. intros (_ & _ & _ & _ & H). by apply IH. Qed.

Lemma data_blocks_cut pre j c post :
  data_blocks (pre ++ (j, c) :: post) -> 5 <= c < 256 /\ data_blocks post.
Proof. intros [_ [H1 H2]%Forall_cons]%Forall_app. done. Qed.

(** The part of storage_read after the size is known. *)
Lemma storage_read_copy m i b ns off n :
  image m -> links m ((i, b) :: ns) -> data_blocks ((i, b) :: ns) ->
  0 <= off -> 0 < n <= INT_MAX -> off + n <= capacity ((i, b) :: ns) ->
  wp (let! '(pnode, offset) := seek (seek_fuel off) (Some (inode_addr i)) off in
      let! b := get_field pnode Block in
      let block_temp := blocks_get_block b + offset in
      if BLOCK_SIZE <? u64 (n + offset) then
        let! first := read_bytes block_temp (Z.to_nat (BLOCK_SIZE - offset)) in
        let temp_sz := i32 (i32 n - (BLOCK_SIZE - offset)) in
        let! rest := read_blocks (copy_fuel temp_sz) pnode temp_sz in
        ret (i32 n, first ++ rest)
      else
        let! bytes := (if NUFS_SIZE <? n then fail OutOfBounds
                       else read_bytes block_temp (Z.to_nat n)) in
        ret (i32 n, bytes))
     (fun r m' => m' = m /\ r = (n, fbytes m ((i, b) :: ns) off n)) m.
Proof.
  intros Hm Hl Hd Hoff Hn Hcap. rewrite wp_bind.
  eapply wp_mono; [apply (seek_spec _ m i b ns off); [done|done|lia|apply seek_fuel_ok]|].
  intros r m' (-> & pre & j & c & post & E & -> & Ho). set (o := off - capacity pre) in *.
  rewrite E in *. pose proof (links_app _ _ _ Hl) as Hlj. pose proof Hlj as (Hj & _ & Hc & _).
  apply data_blocks_cut in Hd as [Hc' Hd]. rewrite (capacity_cut _ _ _ _ _ eq_refl) in Hcap.
  assert (Ef : forall t k, fbytes m (pre ++ (j, c) :: post) (off + t) k = fbytes m ((j, c) :: post) (o + t) k \/ t < 0).
  { intros t k. destruct (Z.ltb_spec t 0); [by right|]. left. apply fbytes_ext. intros q Hq. rewrite fbyte_app by lia.
    f_equal. lia. }
  assert (Ef0 : fbytes m (pre ++ (j, c) :: post) off n = fbytes m ((j, c) :: post) o n).
  { destruct (Ef 0 n); [|lia]. by rewrite !Z.add_0_r in H. }
  rewrite Ef0. clear Ef Ef0. rewrite wp_bind, get_field_spec, Hc by done. cbv zeta.
  unfold INT_MAX, BLOCK_SIZE in *.
  rewrite u64_small by lia. rewrite (i32_small n) by (unfold INT_MIN, INT_MAX; lia).
  destruct (Z.ltb_spec 4096 (n + o)).
  - rewrite wp_bind. apply (read_in_block m j c post); [done|lia|lia|lia|unfold BLOCK_SIZE; lia|].
    rewrite i32_small by (unfold INT_MIN, INT_MAX; lia). rewrite wp_bind. eapply wp_mono.
    { apply (read_blocks_spec _ m j c post (n - (4096 - o))); [done|done|done|lia|].
      unfold copy_fuel, BLOCK_SIZE. lia. }
    intros r m' [-> ->]. rewrite wp_ret. split; [done|]. f_equal.
    rewrite <- (fbytes_ext m post m ((j, c) :: post) 0 4096).
    + replace 4096 with (o + (4096 - o)) at 2 by lia. rewrite <- fbytes_split by lia. f_equal. lia.
    + intros k Hk. cbn [fbyte]. unfold BLOCK_SIZE. destruct (Z.ltb_spec (4096 + k) 4096); [lia|]. f_equal. lia.
  - rewrite wp_bind. change NUFS_SIZE with 1048576. destruct (Z.ltb_spec 1048576 n); [lia|].
    apply (read_in_block m j c post); [done|lia|lia|lia|unfold BLOCK_SIZE; lia|]. rewrite wp_ret. done.
Qed.

Lemma storage_read_spec m i b ns s size off :
  image m -> file m ((i, b) :: ns) s -> data_blocks ((i, b) :: ns) -> s <= INT_MAX ->
  0 <= off < s -> 0 < size <= INT_MAX ->
  storage_read None i size off m =
    Ok ((Z.min size (s - off), fbytes m ((i, b) :: ns) off (Z.min size (s - off))), m).
Proof.
  intros Hm Hf Hd Hs Hoff Hsize. pose proof (capacity_file _ _ _ Hf) as Hcap.
  pose proof Hf as (_ & Hn & _). pose proof (nodes_links _ _ _ Hn) as Hl.
  pose proof Hn as (Hi & Hu & _ & Hsz & _).
  assert (H : wp (storage_read None i size off) (fun r m' => m' = m /\
    r = (Z.min size (s - off), fbytes m ((i, b) :: ns) off (Z.min size (s - off)))) m).
  { unfold storage_read, resolve. rewrite wp_bind, wp_ret, wp_bind, get_inode_spec, Hu by done.
    rewrite wp_bind, wp_assert. split; [lia|]. destruct (Z.eqb_spec size 0); [lia|].
    rewrite wp_bind, get_field_spec, Hsz by done. cbv zeta. unfold INT_MAX in *.
    rewrite !u64_small by lia.
    assert ((if s <? off + size then s - off else size) = Z.min size (s - off)) as ->.
    { destruct (Z.ltb_spec s (off + size)); lia. }
    apply storage_read_copy; [done|done|done|lia|unfold INT_MAX; lia|lia]. }
  apply wp_run in H as (r & m' & -> & -> & ->). done.
Qed.

(** ** Writing *)

Definition buf_at (buf : list Z) (k : Z) : Z := default 0 (buf !! Z.to_nat k) mod 256.

Lemma data_area_cons i b ns x :
  data_area ((i, b) :: ns) x <-> range (blocks_get_block b) BLOCK_SIZE x \/ data_area ns x.
Proof.
  unfold data_area. split.
  - intros (j & c & [[= -> ->]|Hin]%elem_of_cons & Hx); [by left|]. right. eauto.
  - intros [Hx|(j & c & Hin & Hx)]; [exists i, b|exists j, c]; (split; [|done]); apply elem_of_cons; auto.
Qed.

Lemma data_area_high ns x : data_blocks ns -> data_area ns x -> 20480 <= x.
Proof.
  intros Hd (i & b & Hin & Hx). unfold data_blocks in Hd. rewrite Forall_forall in Hd.
  specialize (Hd _ Hin). cbn [snd] in Hd.
  unfold range, blocks_get_block, BLOCK_SIZE in Hx. lia.
Qed.

(** Data writes leave the inode table and the bitmaps alone. *)
Lemma data_keeps_table P m m' :
  same_but P m m' -> (forall x, P x -> 20480 <= x) ->
  (forall j f, 0 <= j < SIZE -> fld m' j f = fld m j f) /\
  (forall j, 0 <= j < 256 -> inode_used m' j = inode_used m j /\ block_used m' j = block_used m j).
Proof.
  intros Hs HP. split.
  - intros j f Hj. eapply fld_same_but; [exact Hs|]. intros x Hx Hp%HP. pose proof (offset_width f).
    unfold range in Hx. rewrite inode_addr_eq in Hx. unfold SIZE in Hj. lia.
  - intros j Hj. split; (eapply bit_same_but; [exact Hs|]); intros Hp%HP;
      [pose proof (bit_in_bitmap j get_inode_bitmap Hj) as H|pose proof (bit_in_bitmap j get_blocks_bitmap Hj) as H];
      unfold range in H; change get_inode_bitmap with 32 in *; change get_blocks_bitmap with 0 in *; lia.
Qed.

Lemma links_data P m m' ns : same_but P m m' -> (forall x, P x -> 20480 <= x) -> links m ns -> links m' ns.
Proof.
  intros Hs HP Hl. destruct (data_keeps_table _ _ _ Hs HP) as [Hf Hu]. apply (links_ext m); [|done].
  intros i b Hin. destruct (links_used _ _ _ _ Hl Hin) as [Hi _]. rewrite !Hf by done.
  split; [apply Hu; unfold SIZE in Hi; lia|done].
Qed.

(** Bytes in blocks that were not written. *)
Lemma fbyte_other P m m' ns : forall k,
  same_but P m m' -> (forall x, data_area ns x -> ~ P x) -> 0 <= k -> fbyte m' ns k = fbyte m ns k.
Proof.
  induction ns as [|[i b] ns IH]; intros k Hs Hd Hk; [done|]. cbn [fbyte].
  destruct (Z.ltb_spec k BLOCK_SIZE).
  - apply Hs. apply Hd, data_area_cons. left. unfold range. lia.
  - apply IH; [done| |lia]. intros x Hx. apply Hd, data_area_cons. by right.
Qed.

Lemma block_disjoint c ns x :
  c ∉ map snd ns -> range (blocks_get_block c) BLOCK_SIZE x -> ~ data_area ns x.
Proof.
  intros Hni Hx (i & b & Hin & Hx'). apply Hni. apply list_elem_of_In, in_map_iff.
  exists (i, b). split; [|by apply list_elem_of_In]. unfold range, blocks_get_block, BLOCK_SIZE in *. cbn [snd]. lia.
Qed.

(** memcpy of [l] at offset [off] of the first block of a chain. *)
Lemma write_in_block m j c post off l Q :
  image m -> data_blocks ((j, c) :: post) -> c ∉ map snd post ->
  0 <= off -> off + Z.of_nat (length l) <= BLOCK_SIZE ->
  (forall m', image m' -> same_but (range (blocks_get_block c) BLOCK_SIZE) m m' ->
     (forall k, 0 <= k -> fbyte m' ((j, c) :: post) k =
        if (off <=? k) && (k <? off + Z.of_nat (length l)) then buf_at l (k - off)
        else fbyte m ((j, c) :: post) k) -> Q tt m') ->
  wp (write_bytes (blocks_get_block c + off) l) Q m.
Proof.
  intros Hm [Hc Hd]%Forall_cons Hni Ho Hlen HQ. cbn [snd] in Hc.
  pose proof (wr_list_same_but m (blocks_get_block c + off) l) as Hs.
  apply wp_write_bytes; [apply block_mapped; [done|lia|done|done]|].
  assert (Hs' : same_but (range (blocks_get_block c) BLOCK_SIZE) m (wr_list m (blocks_get_block c + off) l)).
  { eapply same_but_mono; [exact Hs|]. unfold range. lia. }
  apply HQ; [by eapply image_same_but|done|]. intros k Hk. cbn [fbyte].
  destruct (Z.ltb_spec k BLOCK_SIZE).
  - rewrite rd_wr_list. unfold buf_at. replace (blocks_get_block c + k - (blocks_get_block c + off)) with (k - off) by lia.
    destruct (_ && _) eqn:E1; destruct ((off <=? k) && _) eqn:E2; try done; lia.
  - destruct (_ && _) eqn:E2; [lia|]. eapply fbyte_other; [exact Hs'| |lia].
    intros x Hx Hr. by eapply block_disjoint.
Qed.

(** What writing [buf] at offset [off] does to a file stored in [ns]. *)
Record written (ns : list (Z * Z)) (off : Z) (buf : list Z) (m m' : mem) : Prop := {
  wt_same : same_but (data_area ns) m m';
  wt_byte : forall k, 0 <= k < capacity ns -> fbyte m' ns k =
    if (off <=? k) && (k <? off + Z.of_nat (length buf)) then buf_at buf (k - off) else fbyte m ns k
}.

Lemma buf_at_take l n k : 0 <= k < Z.of_nat n -> buf_at (take n l) k = buf_at l k.
Proof. intros H. unfold buf_at. rewrite lookup_take_lt by lia. done. Qed.

Lemma buf_at_drop l n k : 0 <= k -> buf_at (drop n l) k = buf_at l (k + Z.of_nat n).
Proof.
  intros H. unfold buf_at. rewrite lookup_drop. replace (Z.to_nat (k + Z.of_nat n)) with (n + Z.to_nat k)%nat by lia. done.
Qed.

Lemma written_cons m m1 m' j c post off buf n :
  0 <= off -> off + Z.of_nat n = BLOCK_SIZE -> c ∉ map snd post ->
  same_but (range (blocks_get_block c) BLOCK_SIZE) m m1 ->
  (forall k, 0 <= k -> fbyte m1 ((j, c) :: post) k =
     if (off <=? k) && (k <? off + Z.of_nat (length (take n buf))) then buf_at (take n buf) (k - off)
     else fbyte m ((j, c) :: post) k) ->
  written post 0 (drop n buf) m1 m' -> written ((j, c) :: post) off buf m m'.
Proof.
  intros Ho Hn Hni Hs1 Hb1 [Hs2 Hb2]. split.
  - eapply same_but_trans; (eapply same_but_mono; [eassumption|]); intros x Hx; apply data_area_cons; auto.
  - intros k Hk. rewrite length_take in Hb1. rewrite length_drop in Hb2.
    unfold capacity in *. cbn [length] in Hk. rewrite Nat2Z.inj_succ in Hk.
    destruct (Z.ltb_spec k BLOCK_SIZE) as [Hlt|Hge].
    + assert (fbyte m' ((j, c) :: post) k = fbyte m1 ((j, c) :: post) k) as ->.
      { cbn [fbyte]. destruct (Z.ltb_spec k BLOCK_SIZE); [|lia]. apply Hs2. intros Hx.
        eapply block_disjoint; [exact Hni| |exact Hx]. unfold range. lia. }
      rewrite Hb1 by lia. destruct ((off <=? k) && _) eqn:E1; destruct ((off <=? k) && (k <? off + Z.of_nat (length buf))) eqn:E2;
        try lia. apply buf_at_take. lia.
    + assert (Hrest : forall m0, fbyte m0 ((j, c) :: post) k = fbyte m0 post (k - BLOCK_SIZE)).
      { intros m0. cbn [fbyte]. destruct (Z.ltb_spec k BLOCK_SIZE); [lia|done]. }
      rewrite !Hrest, Hb2 by lia. specialize (Hb1 k ltac:(lia)). rewrite !Hrest in Hb1.
      destruct ((off <=? k) && (k <? off + Z.of_nat (Nat.min _ _))) eqn:E0; [lia|]. rewrite Hb1.
      destruct ((0 <=? k - BLOCK_SIZE) && _) eqn:E1; destruct ((off <=? k) && (k <? off + Z.of_nat (length buf))) eqn:E2;
        try lia. rewrite buf_at_drop by lia. f_equal. lia.
Qed.

Lemma written_nil ns m : written ns 0 [] m m.
Proof. split; [apply same_but_refl|]. intros k Hk. destruct (_ && _) eqn:E; [simpl in E; lia|done]. Qed.

Lemma write_blocks_spec fuel : forall m i b ns t buf,
  image m -> links m ((i, b) :: ns) -> data_blocks ns -> NoDup (map snd ns) ->
  Z.max 0 t = Z.of_nat (length buf) -> t <= capacity ns ->
  (Z.to_nat ((t + BLOCK_SIZE) / BLOCK_SIZE) < fuel)%nat ->
  wp (write_blocks fuel (Some (inode_addr i)) t buf) (fun _ m' => image m' /\ written ns 0 buf m m') m.
Proof.
  induction fuel as [|fuel IH]; intros m i b ns t buf Hm Hl Hd Hnd Ht Hcap Hfuel; [lia|].
  cbn [write_blocks]. destruct (Z.ltb_spec 0 t) as [Hpos|Hneg].
  2: { rewrite wp_ret. split; [done|]. destruct buf; [apply written_nil|simpl in Ht; lia]. }
  pose proof Hl as (Hi & _ & _ & Hnx & Hl').
  destruct ns as [|[i1 b1] ns]; [unfold capacity in Hcap; simpl in Hcap; lia|]. cbn [map fst snd hd] in *.
  pose proof Hl' as (Hi1 & Hu1 & Hb1 & _). apply NoDup_cons in Hnd as [Hni Hnd].
  rewrite wp_bind, get_field_spec, Hnx by done. rewrite wp_bind, get_inode_spec, Hu1 by done.
  rewrite wp_bind, get_field_spec, Hb1 by done. cbv zeta.
  assert (Etake : take (Z.to_nat (if BLOCK_SIZE <? t then BLOCK_SIZE else t)) buf = take (Z.to_nat BLOCK_SIZE) buf).
  { destruct (Z.ltb_spec BLOCK_SIZE t); [done|]. rewrite !take_ge by lia. done. }
  rewrite Etake, wp_bind, <- (Z.add_0_r (blocks_get_block b1)).
  apply (write_in_block m i1 b1 ns); [done|done|done|lia|rewrite length_take; unfold BLOCK_SIZE; lia|].
  intros m1 Hm1 Hs1 Hk1. pose proof Hd as [Hb Hd']%Forall_cons. cbn [snd] in Hb.
  unfold capacity in *. cbn [length] in Hcap. rewrite Nat2Z.inj_succ in Hcap.
  eapply wp_mono; [apply (IH m1 i1 b1 ns)|].
  - done.
  - eapply links_data; [exact Hs1| |done]. unfold range, blocks_get_block, BLOCK_SIZE. lia.
  - done.
  - done.
  - rewrite length_drop. unfold BLOCK_SIZE in *. lia.
  - unfold BLOCK_SIZE in *. lia.
  - replace (t - BLOCK_SIZE + BLOCK_SIZE) with t by lia.
    replace (t + BLOCK_SIZE) with (t + 1 * BLOCK_SIZE) in Hfuel by lia. rewrite Z.div_add in Hfuel by done.
    pose proof (Z.div_pos t BLOCK_SIZE ltac:(lia) ltac:(done)). lia.
  - intros [] m' [Hm' Hw]. split; [done|].
    eapply (written_cons m m1 m' i1 b1 ns 0 buf (Z.to_nat BLOCK_SIZE)); [lia|by vm_compute|done|done| |done].
    intros k Hk. by apply Hk1.
Qed.

(** The copy of storage_write once the file is large enough. *)
Lemma storage_write_copy m i b ns off buf :
  image m -> links m ((i, b) :: ns) -> data_blocks ((i, b) :: ns) -> NoDup (map snd ((i, b) :: ns)) ->
  0 <= off -> 0 < Z.of_nat (length buf) <= INT_MAX ->
  off + Z.of_nat (length buf) <= capacity ((i, b) :: ns) ->
  let size := Z.of_nat (length buf) in
  wp (let! '(pnode, offset) := seek (seek_fuel off) (Some (inode_addr i)) off in
      let! b := get_field pnode Block in
      let block_temp := blocks_get_block b + offset in
      if BLOCK_SIZE <? u64 (size + offset) then
        do! write_bytes block_temp (take (Z.to_nat (BLOCK_SIZE - offset)) buf) in
        let temp_sz := i32 (i32 size - (BLOCK_SIZE - offset)) in
        do! write_blocks (S (copy_fuel temp_sz)) pnode temp_sz (drop (Z.to_nat (BLOCK_SIZE - offset)) buf) in
        ret (i32 size)
      else
        do! write_bytes block_temp buf in
        ret (i32 size))
     (fun r m' => r = size /\ image m' /\ written ((i, b) :: ns) off buf m m') m.
Proof.
  intros Hm Hl Hd Hnd Hoff Hn Hcap size. rewrite wp_bind.
  eapply wp_mono; [apply (seek_spec _ m i b ns off); [done|done|lia|apply seek_fuel_ok]|].
  intros r m' (-> & pre & j & c & post & E & -> & Ho). set (o := off - capacity pre) in *.
  rewrite E in *. pose proof (links_app _ _ _ Hl) as Hlj. pose proof Hlj as (Hj & _ & Hc & _).
  pose proof Hd as [Hc' Hdp]%data_blocks_cut. rewrite (capacity_cut _ _ _ _ _ eq_refl) in Hcap.
  rewrite map_app in Hnd. cbn [map snd] in Hnd. apply NoDup_app in Hnd as (_ & Hdis & [Hni Hnd]%NoDup_cons).
  assert (Hdj : data_blocks ((j, c) :: post)) by (constructor; done).
  assert (Hw : forall m', written ((j, c) :: post) o buf m m' -> written (pre ++ (j, c) :: post) off buf m m').
  { intros m' [W1 W2]. split.
    - eapply same_but_mono; [exact W1|]. intros x (p & q & Hin & Hx). exists p, q. split; [|done].
      apply elem_of_app. by right.
    - intros k Hk. destruct (Z.ltb_spec k (capacity pre)).
      + rewrite !fbyte_app_l by lia. destruct (_ && _) eqn:E1; [lia|].
        eapply fbyte_other; [exact W1| |lia]. intros x (p & q & Hin & Hx) (p' & q' & Hin' & Hx').
        assert (q = q') as <- by (unfold range, blocks_get_block, BLOCK_SIZE in *; lia).
        apply (Hdis q); [by apply (list_elem_of_fmap_2 snd pre (p, q))|].
        by apply (list_elem_of_fmap_2 snd ((j, c) :: post) (p', q)).
      + rewrite !fbyte_app by lia. rewrite (capacity_cut _ _ _ _ _ eq_refl) in Hk.
        rewrite W2 by (unfold capacity in *; cbn [length]; rewrite Nat2Z.inj_succ; unfold BLOCK_SIZE in *; lia).
        destruct ((o <=? _) && _) eqn:E1; destruct ((off <=? k) && _) eqn:E2; try lia. f_equal. lia. }
  rewrite wp_bind, get_field_spec, Hc by done. cbv zeta. subst size. unfold INT_MAX, BLOCK_SIZE in *.
  set (size := Z.of_nat (length buf)) in *.
  rewrite u64_small by lia. rewrite (i32_small size) by (unfold INT_MIN, INT_MAX; lia).
  destruct (Z.ltb_spec 4096 (size + o)).
  - rewrite wp_bind. apply (write_in_block m j c post); [done|done|done|lia|rewrite length_take; unfold BLOCK_SIZE; lia|].
    intros m1 Hm1 Hs1 Hk1. rewrite i32_small by (unfold INT_MIN, INT_MAX; lia). rewrite wp_bind. eapply wp_mono.
    { apply (write_blocks_spec _ m1 j c post (size - (4096 - o))); [done| |done|done|rewrite length_drop; lia|lia|].
      - eapply links_data; [exact Hs1| |done]. unfold range, blocks_get_block, BLOCK_SIZE. lia.
      - unfold copy_fuel, BLOCK_SIZE. replace (size - (4096 - o) + 4096) with (size - (4096 - o) + 1 * 4096) by lia.
        rewrite Z.div_add by lia. pose proof (Z.div_pos (size - (4096 - o)) 4096). lia. }
    intros [] m' [Hm' Hwr]. rewrite wp_ret. split; [done|]. split; [done|]. apply Hw.
    eapply (written_cons m m1 m' j c post o buf (Z.to_nat (4096 - o))); [lia|unfold BLOCK_SIZE; lia|done|done|done|done].
  - rewrite wp_bind. apply (write_in_block m j c post); [done|done|done|lia|unfold BLOCK_SIZE; lia|].
    intros m1 Hm1 Hs1 Hk1. rewrite wp_ret. split; [done|]. split; [done|]. apply Hw. split.
    + eapply same_but_mono; [exact Hs1|]. intros x Hx. apply data_area_cons. by left.
    + intros k Hk. apply Hk1. lia.
Qed.

(** ** Writing and reading a file *)

(** The blocks of a file are distinct data blocks that are marked used, and
    the blocks of the tables are marked used. *)
Definition blocks_ok (m : mem) (ns : list (Z * Z)) : Prop :=
  data_blocks ns /\ NoDup (map snd ns) /\ Forall (fun n => block_used m n.2 = true) ns /\
  forall k, 1 <= k < 5 -> block_used m k = true.

Lemma free_blocks_unused m k : k ∈ free_blocks m -> 1 <= k < 256 /\ block_used m k = false.
Proof. unfold free_blocks. intros [? Hk%elem_of_seqZ]%list_elem_of_filter. split; [lia|done]. Qed.

Lemma NoDup_free_blocks m : NoDup (free_blocks m).
Proof. apply NoDup_filter, NoDup_seqZ. Qed.

Lemma map_snd_combine (l k : list Z) : length l = length k -> map snd (combine l k) = k.
Proof. revert k. induction l as [|x l IH]; intros [|y k] H; simpl in *; try done. f_equal. apply IH. lia. Qed.

(** Fresh blocks are data blocks and distinct from those in use. *)
Lemma blocks_ok_fresh m ns k :
  blocks_ok m ns -> (k <= length (free_inodes m))%nat -> (k <= length (free_blocks m))%nat ->
  data_blocks (ns ++ combine (take k (free_inodes m)) (take k (free_blocks m))) /\
  NoDup (map snd (ns ++ combine (take k (free_inodes m)) (take k (free_blocks m)))).
Proof.
  intros (Hd & Hnd & Hu & Hr) Hi Hb.
  assert (Hfree : forall c, c ∈ take k (free_blocks m) -> 5 <= c < 256 /\ block_used m c = false).
  { intros c Hc. apply (subseteq_take k) in Hc. apply free_blocks_unused in Hc as [Hc Hcu]. split; [|done].
    destruct (Z.ltb_spec c 5); [|lia]. rewrite Hr in Hcu by lia. done. }
  split.
  - apply Forall_app. split; [done|]. apply Forall_forall. intros [i c] Hin. cbn [snd].
    apply Hfree. apply list_elem_of_In, in_combine_r in Hin. by apply list_elem_of_In.
  - rewrite map_app, map_snd_combine by (rewrite !length_take; lia). apply NoDup_app. split; [done|]. split.
    + intros c Hc Hc'. apply Hfree in Hc' as [_ Hc']. change (map snd ns) with (snd <$> ns) in Hc.
      apply list_elem_of_fmap in Hc as (n & -> & Hn). rewrite Forall_forall in Hu. rewrite (Hu n Hn) in Hc'. done.
    + eapply sublist_NoDup; [apply NoDup_free_blocks|apply sublist_take].
Qed.

Lemma table_data P m m' ns k :
  same_but P m m' -> (forall x, P x -> x < 20480) -> data_blocks ns -> 0 <= k -> fbyte m' ns k = fbyte m ns k.
Proof.
  intros Hs HP Hd Hk. eapply fbyte_other; [exact Hs| |done].
  intros x Hx%data_area_high Hp%HP; [lia|done].
Qed.

Lemma table_area_low x : table_area x -> x < 20480.
Proof. unfold table_area, range. lia. Qed.

Lemma file_data P m m' ns s : same_but P m m' -> (forall x, P x -> 20480 <= x) -> file m ns s -> file m' ns s.
Proof.
  intros Hs HP (H0 & Hn & H). destruct (data_keeps_table _ _ _ Hs HP) as [Hf Hu]. split; [done|]. split; [|done].
  apply (nodes_ext m); [|done]. intros j Hj _. split; [apply Hu; unfold SIZE in *; lia|]. intros f. by apply Hf.
Qed.

(** The growth step of storage_write. *)
Lemma storage_write_grow now m i b ns s e :
  image m -> 0 <= now < 2 ^ 64 -> file m ((i, b) :: ns) s -> 0 <= e <= INT_MAX -> s <= INT_MAX ->
  let s' := Z.max s e in
  let k := (extra s' - length ns)%nat in
  (k <= length (free_inodes m))%nat -> (k <= length (free_blocks m))%nat ->
  let fresh := combine (take k (free_inodes m)) (take k (free_blocks m)) in
  wp (if u64 s <? u64 e then grow_inode now (Some (inode_addr i)) (i32 (e - s)) else ret 0)
     (fun r m' => r = 0 /\ image m' /\ same_but table_area m m' /\ file m' (((i, b) :: ns) ++ fresh) s') m.
Proof.
  intros Hm Hnow Hf He Hs s' k Hfi Hfb fresh. pose proof Hf as (H0 & _ & _ & Hlen). cbn [length] in Hlen.
  unfold INT_MAX in *. rewrite !u64_small by lia. destruct (Z.ltb_spec s e).
  - rewrite i32_small by (unfold INT_MIN, INT_MAX; lia).
    assert (Es : s' = s + (e - s)) by lia. subst k. unfold fresh. rewrite Es in *.
    eapply wp_mono; [apply (grow_inode_spec now m i b ns s (e - s)); try done; unfold INT_MAX; lia|].
    intros r m' (-> & Hm' & Hg). split; [done|]. split; [done|]. split; [apply (gr_same _ _ _ _ _ Hg)|].
    eapply grown_file; try done. lia.
  - rewrite wp_ret. split; [done|]. split; [done|]. split; [apply same_but_refl|].
    assert (Ek : k = 0%nat) by (unfold k; replace s' with s by lia; lia). unfold fresh. rewrite Ek. cbn [take combine].
    rewrite app_nil_r. replace s' with s by lia. done.
Qed.

Lemma map_mod_id buf : Forall (fun c => 0 <= c < 256) buf ->
  map (fun k => buf_at buf (Z.of_nat k)) (seq 0 (length buf)) = buf.
Proof.
  intros Hb. apply list_eq. intros i. rewrite list_lookup_fmap. destruct (buf !! i) as [c|] eqn:E.
  - pose proof (lookup_lt_Some _ _ _ E). rewrite lookup_seq_lt by done. cbn. unfold buf_at. rewrite Nat2Z.id, E.
    cbn. rewrite Z.mod_small; [done|]. by apply (Forall_lookup_1 _ _ _ _ Hb E).
  - apply lookup_ge_None in E. rewrite lookup_seq_ge by done. done.
Qed.

(** ** Theorems *)

(** C3. storage_write then storage_read round trip over chained blocks.
    Writing [buf] at any offset of a well-formed file, with enough free inodes
    and blocks for the growth it needs, returns the length and leaves a
    well-formed file of the larger size whose chain is the old one followed by
    fresh inodes and blocks; reading the same range then returns exactly
    [buf], and every other byte of the old file is unchanged. *)
Theorem storage_write_read now m i b ns s buf off :
  image m -> 0 <= now < 2 ^ 64 -> file m ((i, b) :: ns) s -> blocks_ok m ((i, b) :: ns) -> s <= INT_MAX ->
  0 <= off -> 0 < Z.of_nat (length buf) -> off + Z.of_nat (length buf) <= INT_MAX ->
  Forall (fun c => 0 <= c < 256) buf ->
  let n := Z.of_nat (length buf) in
  let s' := Z.max s (off + n) in
  let k := (extra s' - length ns)%nat in
  (k <= length (free_inodes m))%nat -> (k <= length (free_blocks m))%nat ->
  let ns' := ((i, b) :: ns) ++ combine (take k (free_inodes m)) (take k (free_blocks m)) in
  exists m', storage_write now None i buf off m = Ok (n, m') /\ file m' ns' s' /\
    storage_read None i n off m' = Ok ((n, buf), m') /\
    (forall j, 0 <= j < s -> ~ off <= j < off + n -> fbyte m' ns' j = fbyte m ((i, b) :: ns) j).
Proof.
  intros Hm Hnow Hf Hok Hs Hoff Hlen Hmax Hbuf n s' k Hfi Hfb ns'.
  destruct (blocks_ok_fresh m _ k Hok Hfi Hfb) as [Hd' Hnd']. fold ns' in Hd', Hnd'.
  pose proof Hf as (H0 & (Hi & Hu & _ & Hsz & _) & _).
  assert (H : wp (storage_write now None i buf off) (fun r m' => r = n /\ image m' /\ file m' ns' s' /\
    exists m1, same_but table_area m m1 /\ written ns' off buf m1 m') m).
  { unfold storage_write, resolve. cbv zeta. rewrite wp_bind, wp_ret, wp_bind, wp_assert. split; [unfold SIZE in *; lia|].
    rewrite wp_bind, get_inode_spec, Hu by done. rewrite wp_bind, wp_assert. split; [lia|].
    destruct (Z.eqb_spec (Z.of_nat (length buf)) 0); [lia|].
    rewrite wp_bind, get_field_spec, Hsz, wp_bind by done. replace (Z.of_nat (length buf) + off) with (off + n) by lia.
    eapply wp_mono; [apply (storage_write_grow now m i b ns s (off + n)); try done; unfold n; lia|].
    intros r m1 (-> & Hm1 & Hs1 & Hf1). fold s' k ns' in Hf1. cbn [Z.ltb Z.compare].
    pose proof (capacity_file _ _ _ Hf1) as Hcap. pose proof Hf1 as (_ & Hn1 & _).
    eapply wp_mono; [apply (storage_write_copy m1 i b (ns ++ combine (take k (free_inodes m)) (take k (free_blocks m))) off buf)|].
    - done.
    - by apply nodes_links in Hn1.
    - done.
    - done.
    - done.
    - lia.
    - change ((i, b) :: ns ++ combine (take k (free_inodes m)) (take k (free_blocks m))) with ns'. unfold n in *. lia.
    - intros r m' (-> & Hm' & Hw). split; [done|]. split; [done|]. split; [|by exists m1].
      eapply file_data; [exact (wt_same _ _ _ _ _ Hw)| |done]. intros x. by apply data_area_high. }
  apply wp_run in H as (r & m' & Hrun & -> & Hm' & Hf' & m1 & Hs1 & [W1 W2]). exists m'.
  pose proof (capacity_file _ _ _ Hf') as Hcap. split; [done|]. split; [done|]. split.
  - rewrite (storage_read_spec m' i b (ns ++ combine (take k (free_inodes m)) (take k (free_blocks m))) s' n off);
      try done; try (unfold n, s'; lia).
    replace (Z.min n (s' - off)) with n by (unfold s'; lia). do 3 f_equal.
    change ((i, b) :: ns ++ combine (take k (free_inodes m)) (take k (free_blocks m))) with ns'.
    rewrite <- (map_mod_id buf Hbuf). unfold fbytes, n. rewrite Nat2Z.id. apply map_ext_in.
    intros j Hj%in_seq. rewrite W2 by (unfold s', n in *; lia). destruct (_ && _) eqn:E; [|lia]. f_equal. lia.
  - intros j Hj Hout. rewrite W2 by (unfold s' in *; lia). destruct (_ && _) eqn:E; [unfold n in *; lia|].
    destruct Hok as [Hd _]. rewrite (table_data _ _ _ _ _ Hs1 table_area_low Hd') by lia.
    pose proof (capacity_file _ _ _ Hf). apply fbyte_app_l. lia.
Qed.
(** Seeking to the end of a chain runs off it. *)
Lemma seek_end fuel : forall m i b ns,
  image m -> 0 <= rd m 32 < 256 -> links m ((i, b) :: ns) -> (length ns + 1 < fuel)%nat ->
  seek fuel (Some (inode_addr i)) (capacity ((i, b) :: ns)) m = Ok ((None, 0), m).
Proof.
  unfold capacity. induction fuel as [|fuel IH]; intros m i b ns Hm Hbyte Hl Hfuel; [lia|].
  pose proof Hl as (Hi & _ & _ & Hnx & Hl'). cbn [seek length] in *. rewrite Nat2Z.inj_succ.
  destruct (Z.leb_spec BLOCK_SIZE (BLOCK_SIZE * Z.succ (Z.of_nat (length ns)))); [|unfold BLOCK_SIZE in *; lia].
  rewrite (bind_ok _ _ _ _ _ (get_field_run m i NextInode Hm Hi)), Hnx.
  replace (BLOCK_SIZE * Z.succ (Z.of_nat (length ns)) - BLOCK_SIZE) with (BLOCK_SIZE * Z.of_nat (length ns)) by lia.
  destruct ns as [|[i1 b1] ns]; cbn [map fst hd].
  - rewrite (bind_ok _ _ _ _ _ (get_inode_negative m (-1) Hm ltac:(lia) Hbyte)). destruct fuel; [simpl in Hfuel; lia|done].
  - pose proof Hl' as (Hi1 & Hu1 & _).
    assert (Hg : get_inode i1 m = Ok (Some (inode_addr i1), m)).
    { pose proof (proj2 (get_inode_spec m i1 (fun p m' => p = Some (inode_addr i1) /\ m' = m) Hm Hi1)) as H'.
      rewrite Hu1 in H'. specialize (H' ltac:(done)). apply wp_run in H' as (? & ? & -> & -> & ->). done. }
    rewrite (bind_ok _ _ _ _ _ Hg). cbn [length]. apply (IH m i1 b1 ns); [done|done|done|cbn [length] in Hfuel; lia].
Qed.

(** The start of storage_read on inode [i] of [s] bytes. *)
Lemma storage_read_start m i b ns s size off :
  image m -> file m ((i, b) :: ns) s -> 0 <= off -> 0 < size ->
  storage_read None i size off m =
  (let size := if u64 s <? u64 (off + size) then u64 (s - off) else size in
   let! '(pnode, offset) := seek (seek_fuel off) (Some (inode_addr i)) off in
   let! b := get_field pnode Block in
   let block_temp := blocks_get_block b + offset in
   if BLOCK_SIZE <? u64 (size + offset) then
     let! first := read_bytes block_temp (Z.to_nat (BLOCK_SIZE - offset)) in
     let temp_sz := i32 (i32 size - (BLOCK_SIZE - offset)) in
     let! rest := read_blocks (copy_fuel temp_sz) pnode temp_sz in
     ret (i32 size, first ++ rest)
   else
     let! bytes := (if NUFS_SIZE <? size then fail OutOfBounds
                    else read_bytes block_temp (Z.to_nat size)) in
     ret (i32 size, bytes)) m.
Proof.
  intros Hm (_ & (Hi & Hu & _ & Hsz & _) & _) Hoff Hsize. unfold storage_read, resolve.
  rewrite (bind_ok _ _ _ _ _ eq_refl).
  assert (Hg : get_inode i m = Ok (Some (inode_addr i), m)).
  { pose proof (proj2 (get_inode_spec m i (fun p m' => p = Some (inode_addr i) /\ m' = m) Hm Hi)) as H'.
    rewrite Hu in H'. specialize (H' ltac:(done)). apply wp_run in H' as (? & ? & -> & -> & ->). done. }
  rewrite (bind_ok _ _ _ _ _ Hg), (proj2 (Z.leb_le 0 off)) by done. rewrite (bind_ok _ _ _ _ _ eq_refl).
  rewrite (proj2 (Z.eqb_neq size 0)) by lia. rewrite (bind_ok _ _ _ _ _ (get_field_run m i Size Hm Hi)), Hsz. done.
Qed.

(** Reading beyond the end of a file is not handled.  When the size is a
    multiple of the block size, a read at the end dereferences NULL; a read
    that starts past the end but inside the last block passes a wrapped length
    near 2^64 to memcpy. *)
Theorem storage_read_beyond_end m i b ns s size off :
  image m -> 0 <= rd m 32 < 256 -> file m ((i, b) :: ns) s -> data_blocks ((i, b) :: ns) ->
  s <= INT_MAX -> 0 < size <= INT_MAX ->
  (s = capacity ((i, b) :: ns) -> off = s -> storage_read None i size off m = Err NullDeref) /\
  (s < off < capacity ((i, b) :: ns) -> storage_read None i size off m = Err OutOfBounds).
Proof.
  intros Hm Hbyte Hf Hd Hs Hsize. pose proof Hf as (H0 & Hn & _ & Hlen). pose proof (nodes_links _ _ _ Hn) as Hl.
  cbn [length] in Hlen. split.
  - intros Hcap ->. rewrite (storage_read_start m i b ns s) by (try done; lia). cbv zeta.
    assert (Hseek : seek (seek_fuel s) (Some (inode_addr i)) s m = Ok ((None, 0), m)).
    { rewrite Hcap. apply seek_end; [done|done|done|]. unfold seek_fuel, capacity. cbn [length].
      rewrite Z.mul_comm, Z.div_mul by done. lia. }
    by rewrite (bind_ok _ _ _ _ _ Hseek).
  - intros Hoff. rewrite (storage_read_start m i b ns s) by (try done; lia). cbv zeta.
    pose proof (seek_spec (seek_fuel off) m i b ns off Hm Hl ltac:(lia) (seek_fuel_ok off)) as Hseek.
    apply wp_run in Hseek as (r & m' & Hseek & -> & pre & j & c & post & E & -> & Ho).
    rewrite (bind_ok _ _ _ _ _ Hseek). rewrite E in Hl. pose proof (links_app _ _ _ Hl) as (Hj & _ & Hc & _).
    rewrite (bind_ok _ _ _ _ _ (get_field_run m j Block Hm Hj)), Hc.
    assert (Hpre : capacity pre <= s).
    { pose proof (capacity_cut _ _ _ _ _ E) as Hcc. unfold capacity in Hcc, Hoff |- *. cbn [length] in Hcc, Hoff. rewrite Hlen in Hcc, Hoff.
      unfold extra, BLOCK_SIZE in *. pose proof (Z.div_mod (s - 1) 4096 ltac:(lia)).
      pose proof (Z.mod_pos_bound (s - 1) 4096 ltac:(lia)). lia. }
    pose proof (capacity_cut _ _ _ _ _ E) as Hcut. unfold INT_MAX in *.
    assert (Hoff' : off < 2 ^ 63).
    { pose proof (file_length _ _ _ Hf). unfold capacity, BLOCK_SIZE in Hoff. lia. }
    assert (Hu : u64 (s - off) = 2 ^ 64 + s - off).
    { unfold u64. rewrite <- (Z.mod_small (2 ^ 64 + s - off) (2 ^ 64)) by lia.
      replace (2 ^ 64 + s - off) with (s - off + 1 * 2 ^ 64) by lia. by rewrite Z.mod_add by lia. }
    rewrite !(u64_small s), !(u64_small (off + size)) by lia.
    destruct (Z.ltb_spec s (off + size)); [|lia]. rewrite Hu.
    assert (Hw : u64 (2 ^ 64 + s - off + (off - capacity pre)) = s - capacity pre).
    { unfold u64. replace (2 ^ 64 + s - off + (off - capacity pre)) with (s - capacity pre + 1 * 2 ^ 64) by lia.
      rewrite Z.mod_add by lia. apply Z.mod_small. unfold capacity, BLOCK_SIZE in *. lia. }
    rewrite Hw. destruct (Z.ltb_spec BLOCK_SIZE (s - capacity pre)); [lia|].
    change NUFS_SIZE with 1048576. destruct (Z.ltb_spec 1048576 (2 ^ 64 + s - off)); [done|lia].
Qed.

Lemma after_slash_spec name dir :
  47 ∉ name -> after_slash (rev name ++ 47 :: dir) = Some (length name).
Proof.
  intros Hni. rewrite <- length_rev. assert (H : 47 ∉ rev name) by (by rewrite list_elem_of_In, <- in_rev, <- list_elem_of_In).
  revert H. generalize (rev name). intros l. induction l as [|c l IH]; intros Hl; simpl; [done|].
  destruct (Z.eqb_spec c 47) as [->|]; [set_solver|]. rewrite IH by set_solver. done.
Qed.

Lemma after_slash_none l : 47 ∉ l -> after_slash l = None.
Proof.
  induction l as [|c l IH]; intros Hl; simpl; [done|].
  destruct (Z.eqb_spec c 47) as [->|]; [set_solver|]. rewrite IH by set_solver. done.
Qed.

(** split_path splits at the last slash: the name is what follows it, the
    directory what precedes it, or "/" when nothing does.  A path without a
    slash makes it read before the start of the string. *)
Theorem split_path_last_slash dir name path :
  47 ∉ name ->
  split_path (dir ++ 47 :: name) = Ok (match dir with [] => [47] | _ => dir end, name) /\
  (47 ∉ path -> split_path path = Err OutOfBounds).
Proof.
  intros Hni. split.
  - unfold split_path. rewrite rev_app_distr. cbn [rev]. rewrite <- app_assoc. cbn [app].
    rewrite after_slash_spec by done. cbv zeta. rewrite length_app. cbn [length].
    destruct dir as [|c dir]; cbn [length app].
    + rewrite (proj2 (Nat.eqb_eq _ _)) by lia. done.
    + rewrite (proj2 (Nat.eqb_neq _ _)) by lia. cbn [negb].
      replace (S (length dir) + S (length name) - length name - 1)%nat with (length (c :: dir)) by (simpl; lia).
      replace (S (length dir) + S (length name) - length name)%nat with (length (c :: dir) + 1)%nat by (simpl; lia).
      change (c :: dir ++ 47 :: name) with ((c :: dir) ++ 47 :: name).
      rewrite take_app_length, drop_app_add. done.
  - intros Hp. unfold split_path. rewrite after_slash_none; [done|].
    rewrite list_elem_of_In, <- in_rev, <- list_elem_of_In. done.
Qed.

(** ** Witnesses *)

Lemma demo_blocks_ok : blocks_ok demo [(2, 5); (3, 6); (4, 7)].
Proof.
  split; [repeat constructor; cbn; lia|]. split; [apply (bool_decide_unpack _); by vm_compute|].
  split; [repeat constructor; by vm_compute|].
  intros k Hk. assert (k = 1 \/ k = 2 \/ k = 3 \/ k = 4) as [->|[->|[->| ->]]] by lia; by vm_compute.
Defined.

Lemma storage_write_read_witness :
  exists m', storage_write 0 None 2 [1; 2; 3] 12287 demo = Ok (3, m') /\
    storage_read None 2 3 12287 m' = Ok ((3, [1; 2; 3]), m').
Proof.
  destruct (storage_write_read 0 demo 2 5 [(3, 6); (4, 7)] 9000 [1; 2; 3] 12287) as (m' & Hw & _ & Hr & _).
  - split; by vm_compute.
  - lia.
  - exact demo_file.
  - exact demo_blocks_ok.
  - unfold INT_MAX. lia.
  - lia.
  - cbn. lia.
  - unfold INT_MAX. cbn. lia.
  - repeat constructor; lia.
  - apply Nat.leb_le. by vm_compute.
  - apply Nat.leb_le. by vm_compute.
  - exists m'. split; [exact Hw|exact Hr].
Defined.

Lemma storage_read_beyond_end_witness : storage_read None 2 10 9001 demo = Err OutOfBounds.
Proof.
  apply (storage_read_beyond_end demo 2 5 [(3, 6); (4, 7)] 9000 10 9001).
  - split; by vm_compute.
  - split; by vm_compute.
  - exact demo_file.
  - repeat constructor; cbn; lia.
  - unfold INT_MAX. lia.
  - unfold INT_MAX. lia.
  - unfold capacity, BLOCK_SIZE. cbn. lia.
Defined.

Lemma split_path_last_slash_witness : split_path [47; 97; 47; 98] = Ok ([47; 97], [98]).
Proof. exact (proj1 (split_path_last_slash [47; 97] [98] [] ltac:(set_solver))). Defined.
End Storage.
