(* ===== verification/Nufs.v ===== *)
(** * Nufs: the FUSE callbacks of File System/nufs.c

    Each callback of [nufs_ops] as a program over the disk image.  The clock
    and the user id are arguments of the section; log output is left out. *)
From stdpp Require Import base list gmap strings.
From Stdlib Require Import ZArith Lia.
From S2P Require Import Prelude Mem Bitmap Blocks Inode Slist Directory Storage.
Import Bitmap Blocks Inode Directory Storage.

Module Nufs.

Section callbacks.
Context (now uid : Z).

Definition lift_res {A} (r : res A) : M mem A :=
  match r with Ok a => ret a | Err f => fail f end.

Definition nufs_access (path : list Z) : M mem Z :=
  let! inum := tree_lookup path in
  if inum =? -1 then ret (-1)
  else
    let! node := get_inode inum in
    ret (match node with Some _ => 0 | None => -1 end).

Definition nufs_getattr (path : list Z) (st : stat) : M mem (Z * stat) :=
  let! '(rv, st) := storage_stat uid (Some path) (-1) st in
  if rv <? 0 then ret (- ENOENT, st) else ret (rv, st).

(** The entries handed to [filler], in order; [garbage] is the uninitialised
    local [struct stat]. *)
Fixpoint fill (garbage : stat) (items : list dirent) : M mem (list (list Z * stat)) :=
  match items with
  | [] => ret []
  | x :: items =>
      let! '(rv, st) := storage_stat uid None (d_inum x) garbage in
      do! assert (rv =? 0) in
      let! rest := fill garbage items in
      ret ((d_name x, st) :: rest)
  end.

Definition nufs_readdir (garbage : stat) (path : list Z) : M mem (Z * list (list Z * stat)) :=
  let! items := storage_list (Some path) (-1) in
  let! entries := fill garbage items in
  ret (0, entries).

Definition nufs_mknod (path : list Z) (mode : Z) : M mem Z :=
  let! '(directory, name) := lift_res (split_path path) in
  storage_mknod now (Some directory) name (-1) mode.

Definition nufs_mkdir (path : list Z) (mode : Z) : M mem Z :=
  let! rv := nufs_mknod path (Z.lor mode 16384 (* 040000 *)) in
  let! inum := tree_lookup path in
  let! node := get_inode inum in
  let! '(from_parent, _) := lift_res (split_path path) in
  let! parent_inum := tree_lookup from_parent in
  do! (if 0 <=? rv then
         do! directory_put node dot inum in
         do! directory_put node dotdot parent_inum in ret tt
       else ret tt) in
  ret rv.

Definition nufs_unlink (path : list Z) : M mem Z :=
  let! '(directory, child) := lift_res (split_path path) in
  storage_unlink (Some directory) (-1) child.

Definition nufs_link (from to : list Z) : M mem Z :=
  let! '(to_parent, to_child) := lift_res (split_path to) in
  storage_link (Some from) (-1) (Some to_parent) (-1) to_child.

Definition nufs_rmdir (path : list Z) : M mem Z :=
  let! inum := tree_lookup path in
  let! node := get_inode inum in
  let! mode := get_field node Mode in
  if negb (mode =? 16877 (* 040755 *)) then ret (-1)
  else nufs_unlink path.

Definition nufs_rename (from to : list Z) : M mem Z :=
  let! '(from_parent, from_child) := lift_res (split_path from) in
  let! '(to_parent, to_child) := lift_res (split_path to) in
  storage_rename (Some from_parent) (-1) from_child (Some to_parent) (-1) to_child.

Definition nufs_chmod (path : list Z) (mode : Z) : M mem Z :=
  let! inum := tree_lookup path in
  let! node := get_inode inum in
  let! old := get_field node Mode in
  if old =? mode then ret 0
  else do! set_field node Mode mode in ret 0.

Definition nufs_truncate (path : list Z) (size : Z) : M mem Z :=
  storage_truncate now path size.

Definition nufs_open (path : list Z) : M mem Z := nufs_access path.

Definition nufs_read (path : list Z) (size offset : Z) : M mem (Z * list Z) :=
  storage_read (Some path) (-1) size offset.

Definition nufs_write (path : list Z) (buf : list Z) (offset : Z) : M mem Z :=
  storage_write now (Some path) (-1) buf offset.

(** [ts0] is [ts->tv_sec], the first of the two times. *)
Definition nufs_utimens (path : list Z) (ts0 : Z) : M mem Z :=
  let! inum := tree_lookup path in
  let! node := get_inode inum in
  do! set_field node Mtime ts0 in
  match node with
  | None => ret (-1)
  | Some _ => ret 0
  end.

Definition nufs_ioctl (path : list Z) (cmd : Z) : M mem Z := ret 0.
End callbacks.

(** Character codes of a path, for examples. *)
Definition codes (s : string) : list Z :=
  map (fun c => Z.of_N (Ascii.N_of_ascii c)) (String.list_ascii_of_string s).

(** ** Files in the root directory *)

#[local] Opaque fld inode_used e_inum e_named e_filled rd.

(** Names of one path component. *)
Definition component_ok (name : list Z) : Prop := name_ok name /\ name <> [] /\ 47 ∉ name.

Lemma get_inode_run m i :
  image m -> 0 <= i < SIZE ->
  get_inode i m = Ok (if inode_used m i then Some (inode_addr i) else None, m).
Proof.
  intros Hm Hi. pose proof (proj2 (get_inode_spec m i
    (fun p m' => p = (if inode_used m i then Some (inode_addr i) else None) /\ m' = m) Hm Hi) ltac:(done)) as H.
  apply wp_run in H as (? & ? & -> & -> & ->). done.
Qed.

Lemma explode_root name : name <> [] -> 47 ∉ name -> Slist.s_explode (47 :: name) 47 = [[]; name].
Proof.
  intros Hne Hni. change (47 :: name) with (Slist.join 47 [[]; name]).
  unfold Slist.s_explode. apply Slist.explode_of_join; [|simpl; congruence|lia].
  repeat constructor; [set_solver|done].
Qed.

(** Resolving "/" and "/name". *)
Lemma tree_lookup_root m : image m -> tree_lookup [47] m = Ok (ROOT_INODE, m).
Proof. intros Hm. unfold tree_lookup. by rewrite (bind_ok _ _ _ _ _ (get_inode_run m 1 Hm ltac:(by vm_compute))). Qed.

Lemma tree_lookup_child m b name :
  dir m ROOT_INODE b -> inode_used m ROOT_INODE = true -> component_ok name ->
  tree_lookup (47 :: name) m =
  Ok (match dir_find m b name with
      | Some j => if e_inum m b j <? 0 then -1 else e_inum m b j
      | None => -1
      end, m).
Proof.
  intros Hd Hu (Hok & Hne & Hni). pose proof Hd as (Hm & H1 & _). unfold tree_lookup.
  rewrite explode_root by done. rewrite (bind_ok _ _ _ _ _ (get_inode_run m 1 Hm H1)). cbn [walk].
  destruct name as [|c name]; [done|].
  rewrite (bind_ok _ _ _ _ _ (get_inode_run m 1 Hm H1)). change (inode_used m 1) with (inode_used m ROOT_INODE).
  rewrite Hu. change (inode_addr 1) with (inode_addr ROOT_INODE).
  rewrite (bind_ok _ _ _ _ _ (directory_lookup_run m ROOT_INODE b (c :: name) Hd Hok)).
  destruct (dir_find m b (c :: name)) as [j|]; [|done]. by destruct (e_inum m b j <? 0).
Qed.

Lemma split_root name : 47 ∉ name -> split_path (47 :: name) = Ok ([47], name).
Proof.
  intros Hni. unfold split_path. cbn [rev]. rewrite after_slash_spec by done. cbn [length].
  by rewrite (proj2 (Nat.eqb_eq _ _)) by lia.
Qed.

(** getattr of a child of the root. *)
Lemma getattr_child uid m b name j i st :
  dir m ROOT_INODE b -> inode_used m ROOT_INODE = true -> component_ok name ->
  dir_find m b name = Some j -> e_inum m b j = i -> 0 <= i < SIZE ->
  nufs_getattr uid (47 :: name) st m =
  if inode_used m i
  then Ok ((0, mk_stat i uid (fld m i Mode) (fld m i Refs)
                 (if S_ISREG (fld m i Mode) then fld m i Size else st_size st)), m)
  else Err NullDeref.
Proof.
  intros Hd Hu Hc Hf He Hi. pose proof Hd as (Hm & _).
  pose proof (tree_lookup_child m b name Hd Hu Hc) as Ht. rewrite Hf, He in Ht.
  destruct (Z.ltb_spec i 0); [lia|]. unfold nufs_getattr, storage_stat, resolve.
  rewrite bind_assoc, (bind_ok _ _ _ _ _ Ht), (proj2 (Z.ltb_ge i 0)) by lia.
  rewrite bind_assoc, (bind_ok _ _ _ _ _ (get_inode_run m i Hm Hi)).
  destruct (inode_used m i); [|done].
  rewrite bind_assoc, (bind_ok _ _ _ _ _ (get_field_run m i Mode Hm Hi)).
  rewrite bind_assoc, (bind_ok _ _ _ _ _ (get_field_run m i Refs Hm Hi)).
  destruct (S_ISREG (fld m i Mode)); rewrite bind_assoc; [|done].
  by rewrite (bind_ok _ _ _ _ _ (get_field_run m i Size Hm Hi)).
Qed.

(** Setting up the new inode in storage_mknod. *)
Lemma mknod_fields m i mode Q :
  image m -> 0 <= i < SIZE -> INT_MIN <= mode <= INT_MAX ->
  (forall m', image m' -> same_but (inode_area i) m m' ->
     fld m' i Refs = 1 -> fld m' i Mode = mode -> fld m' i Size = 0 ->
     (forall j f, 0 <= j < SIZE -> j <> i -> fld m' j f = fld m j f) -> Q tt m') ->
  wp (do! set_field (Some (inode_addr i)) Refs 1 in
      do! set_field (Some (inode_addr i)) Mode mode in
      set_field (Some (inode_addr i)) Size 0) Q m.
Proof.
  intros Hm Hi Hmode HQ. wp_pure. apply set_field_spec; [done|done|by vm_compute|]. intros m1 Hm1 Hw1.
  wp_pure. apply set_field_spec; [done|done|done|]. intros m2 Hm2 Hw2.
  apply set_field_spec; [done|done|by vm_compute|]. intros m3 Hm3 Hw3.
  apply HQ; [done| |fld_through..|].
  - eapply same_but_trans; [exact (fw_same _ _ _ _ _ Hw1)|].
    eapply same_but_trans; [exact (fw_same _ _ _ _ _ Hw2)|exact (fw_same _ _ _ _ _ Hw3)].
  - intros j f Hj Hne. fld_through.
Qed.

(** Writes to the tables leave directory entries alone. *)
Lemma entries_low P m m' b :
  same_but P m m' -> (forall x, P x -> x < 20480) -> 5 <= b ->
  forall j, 0 <= j -> (forall name, name_ok name -> e_named m' b name j = e_named m b name j) /\
    e_inum m' b j = e_inum m b j /\ e_filled m' b j = e_filled m b j.
Proof.
  intros (_ & _ & Hs) HP Hb j Hj. apply entry_ext. intros x Hx%entry_area_data; [|done|done].
  apply Hs. intros Hp%HP. lia.
Qed.

Lemma find_low P m m' b name :
  same_but P m m' -> (forall x, P x -> x < 20480) -> 5 <= b -> name_ok name ->
  dir_find m' b name = dir_find m b name /\ dir_slot m' b = dir_slot m b.
Proof.
  intros Hs HP Hb Hok. split; apply first_from_ext; intros k Hk;
    destruct (entries_low _ _ _ _ Hs HP Hb k ltac:(lia)) as (H1 & _ & H3); [by apply H1|by rewrite H3].
Qed.

(** What mknod of "/name" leaves. *)
Lemma nufs_mknod_root now m b name mode i rest j :
  0 <= now < 2 ^ 64 ->
  dir m ROOT_INODE b -> inode_used m ROOT_INODE = true -> component_ok name ->
  INT_MIN <= mode <= INT_MAX -> dir_find m b name = None -> dir_slot m b = Some j ->
  free_inodes m = i :: rest -> 2 <= i < SIZE -> inode_used m i = false ->
  wp (nufs_mknod now (47 :: name) mode) (fun r m' => r = 0 /\ dir m' ROOT_INODE b /\
    inode_used m' ROOT_INODE = true /\ dir_find m' b name = Some j /\ e_inum m' b j = i /\
    inode_used m' i = true /\ fld m' i Refs = 1 /\ fld m' i Mode = mode /\ fld m' i Size = 0) m.
Proof.
  intros Hnow Hd Hu Hc Hmode Hnone Hj Hfree Hi Hiu.
  pose proof Hd as (Hm & H1 & Hblk & Hb). pose proof Hc as (Hok & _ & Hni).
  assert (Hne : ROOT_INODE <> i) by (unfold ROOT_INODE; lia).
  unfold nufs_mknod. rewrite split_root by done. cbn [lift_res]. rewrite wp_bind, wp_ret.
  unfold storage_mknod, resolve. rewrite wp_bind, (wp_eq _ _ _ _ _ (tree_lookup_root m Hm)).
  rewrite wp_bind, wp_assert. split; [done|]. rewrite wp_bind, get_inode_spec, Hu by done.
  rewrite wp_bind, (directory_lookup_spec m _ b) by done. rewrite Hnone. change (0 <=? - ENOENT) with false. cbv iota.
  rewrite wp_bind. eapply wp_mono; [by eapply alloc_inode_free|].
  intros r m1 (-> & Hm1 & _ & _ & Hmade & _). rewrite wp_bind, get_inode_spec by (try done; lia).
  rewrite (im_used _ _ _ _ Hmade), Z.eqb_refl by (unfold SIZE in *; lia).
  pose proof (mknod_fields m1 i mode (fun _ m' => image m' /\ same_but (inode_area i) m1 m' /\
    fld m' i Refs = 1 /\ fld m' i Mode = mode /\ fld m' i Size = 0 /\
    (forall j f, 0 <= j < SIZE -> j <> i -> fld m' j f = fld m1 j f)) Hm1 ltac:(lia) Hmode ltac:(by intros; split_and!)) as Hset.
  rewrite wp_bind in Hset. rewrite wp_bind. eapply wp_mono; [exact Hset|]. clear Hset. intros [] m2 Hset. cbv beta in Hset.
  rewrite wp_bind in Hset. rewrite wp_bind. eapply wp_mono; [exact Hset|]. clear m2 Hset. intros [] m2 Hset. cbv beta in Hset.
  rewrite wp_bind. eapply wp_mono; [exact Hset|]. clear m2 Hset. intros [] m2 (Hm2 & Hs2 & Hrefs & Hmd & Hsz & Hoth).
  assert (Hlow : same_but (fun x => x < 20480) m m2).
  { eapply same_but_trans; [eapply same_but_mono; [exact (im_same _ _ _ _ Hmade)|]|eapply same_but_mono; [exact Hs2|]];
      intros x Hx; cbn in Hx; [destruct Hx as [Hx|Hx]; [unfold range in Hx; lia|]|];
      apply (inode_area_table i) in Hx; try lia; by apply table_area_low in Hx. }
  pose proof (find_low _ _ _ b name Hlow ltac:(done) ltac:(lia) Hok) as [Hfind Hslot].
  assert (Hd2 : dir m2 ROOT_INODE b).
  { split; [done|]. split; [done|]. split; [|done]. rewrite Hoth, (im_other _ _ _ _ Hmade) by done. done. }
  pose proof (area_keeps_bits i _ _ ltac:(lia) Hs2) as Hbits.
  rewrite wp_bind. eapply wp_mono; [apply (directory_put_spec m2 ROOT_INODE b name i Hd2 Hok)|].
  { unfold INT_MIN, INT_MAX, SIZE in *. lia. }
  rewrite Hslot, Hj. intros r m' [-> Hput]. rewrite wp_ret. split; [done|].
  apply first_from_Some in Hj as (Hj & _). pose proof Hput as [Hs' Hn' Hi' _].
  assert (Hhigh : forall x, entry_area b j x -> 20480 <= x) by (intros x; apply entry_area_data; lia).
  destruct (data_keeps_table _ _ _ Hs' Hhigh) as [Hf3 Hu3].
  assert (Hi0 : 0 <= i < SIZE) by lia. rewrite !(Hf3 i) by exact Hi0. rewrite (proj1 (Hu3 i ltac:(unfold SIZE in *; lia))), (proj1 (Hu3 ROOT_INODE ltac:(by vm_compute))).
  rewrite (proj1 (Hbits i ltac:(unfold SIZE in *; lia))), (proj1 (Hbits ROOT_INODE ltac:(by vm_compute))).
  rewrite !(im_used _ _ _ _ Hmade) by (unfold SIZE, ROOT_INODE in *; lia). rewrite Z.eqb_refl.
  rewrite (proj2 (Z.eqb_neq ROOT_INODE i)) by done.
  split; [by eapply dir_same_but|]. split; [exact Hu|]. split; [|split_and!; first [assumption|reflexivity]].
  apply (dir_find_put m2 m' b j name i); [done|done|lia|congruence].
Qed.

(** Chains do not depend on the reference counts. *)
Lemma nodes_refs m m' i v ns : forall s,
  0 <= i < SIZE -> field_write i Refs v m m' -> nodes m ns s -> nodes m' ns s.
Proof.
  intros s Hi Hw. pose proof (area_keeps_bits i _ _ Hi (fw_same _ _ _ _ _ Hw)) as Hbits.
  revert s. induction ns as [|[j c] ns IH]; intros s Hn; [done|]. destruct Hn as (Hj & ? & ? & ? & ? & Hn).
  cbn [nodes]. rewrite !(fw_ne _ _ _ _ _ Hw) by (try done; by right).
  rewrite (proj1 (Hbits j ltac:(unfold SIZE in *; lia))). split; [done|]. split_and!; try assumption. by apply IH.
Qed.

(** What unlink of "/name" leaves when it removes the last link. *)
Lemma nufs_unlink_root m b name j i c ns s :
  dir m ROOT_INODE b -> inode_used m ROOT_INODE = true -> component_ok name ->
  dir_find m b name = Some j -> e_inum m b j = i -> i <> ROOT_INODE ->
  ROOT_INODE ∉ map fst ns -> file m ((i, c) :: ns) s -> chain_ok ((i, c) :: ns) -> s <= INT_MAX ->
  0 <= rd m 32 < 256 -> fld m i Refs = 1 ->
  wp (nufs_unlink (47 :: name)) (fun r m' => r = 0 /\ dir m' ROOT_INODE b /\
    inode_used m' ROOT_INODE = true /\ dir_find m' b name = Some j /\ e_inum m' b j = i /\
    inode_used m' i = false) m.
Proof.
  intros Hd Hu Hc Hfind Hinum Hi1 Hroot Hf Hok Hs Hbyte Hrefs.
  pose proof Hd as (Hm & H1 & Hblk & Hb). pose proof Hc as (Hname & _ & Hni).
  pose proof Hf as (H0 & Hn & Hnd & Hlen). pose proof Hn as (Hi & Hiu & _).
  pose proof Hfind as (Hj & _)%first_from_Some.
  unfold nufs_unlink. rewrite split_root by done. cbn [lift_res]. rewrite wp_bind, wp_ret.
  unfold storage_unlink, resolve. rewrite wp_bind, (wp_eq _ _ _ _ _ (tree_lookup_root m Hm)).
  rewrite wp_bind, get_inode_spec, Hu by done.
  rewrite wp_bind, (directory_lookup_spec m _ b) by done. rewrite Hfind, Hinum.
  rewrite wp_bind, get_inode_spec, Hiu by done. rewrite wp_bind, get_field_spec, Hrefs by done.
  rewrite wp_bind. apply set_field_spec; [done|done|by vm_compute|]. intros m1 Hm1 Hw.
  pose proof (area_keeps_bits i _ _ Hi (fw_same _ _ _ _ _ Hw)) as Hbits.
  assert (Hlow : same_but (fun x => x < 20480) m m1).
  { eapply same_but_mono; [exact (fw_same _ _ _ _ _ Hw)|]. intros x Hx%inode_area_table; [|done]. by apply table_area_low. }
  destruct (find_low _ _ _ b name Hlow ltac:(done) ltac:(lia) Hname) as [Hfind1 _].
  destruct (entries_low _ _ _ b Hlow ltac:(done) ltac:(lia) j ltac:(lia)) as (_ & Hinum1 & _).
  assert (Hd1 : dir m1 ROOT_INODE b).
  { split; [done|]. split; [done|]. split; [|done]. rewrite (fw_ne _ _ _ _ _ Hw) by first [exact H1 | left; intros E; by apply Hi1]. exact Hblk. }
  rewrite wp_bind. eapply wp_mono; [apply (directory_delete_spec m1 ROOT_INODE b name Hd1 Hname)|].
  rewrite Hfind1, Hfind. intros r m2 (-> & _ & Hs2).
  assert (Hhigh : forall x, range (dirent_addr (blocks_get_block b) j + off_filled) 4 x -> 20480 <= x).
  { unfold range. rewrite dirent_addr_eq. unfold off_filled, DIR_NAME_LENGTH. lia. }
  destruct (data_keeps_table _ _ _ Hs2 Hhigh) as [Hf2 Hu2].
  pose proof (dir_same_but _ _ _ _ _ Hd1 Hs2 Hhigh) as Hd2. pose proof Hd2 as (Hm2 & _).
  destruct (dir_find_delete m1 m2 b j name Hs2 ltac:(lia) Hname) as [Hfind2 Hinum2].
  rewrite wp_bind, get_field_spec, Hf2, (fw_eq _ _ _ _ _ Hw) by done. cbn [Z.leb Z.sub Z.opp Z.add Z.pos_sub Z.compare].
  assert (Hfile2 : file m2 ((i, c) :: ns) s).
  { split; [exact H0|]. split; [|exact (conj Hnd Hlen)]. apply (nodes_ext m1).
    - intros k Hk _. split; [apply Hu2; unfold SIZE in *; lia|]. intros f. by apply Hf2.
    - by eapply nodes_refs. }
  assert (Hbyte2 : 0 <= rd m2 32 < 256).
  { rewrite (proj2 (proj2 Hs2) 32), (proj2 (proj2 (fw_same _ _ _ _ _ Hw)) 32); [done|..].
    - unfold inode_area, range. rewrite inode_addr_eq. lia.
    - intros Hx%Hhigh. lia. }
  assert (Hrefs2 : fld m2 i Refs = 0) by (rewrite Hf2 by exact Hi; exact (fw_eq _ _ _ _ _ Hw)).
  rewrite wp_bind. eapply wp_mono; [exact (free_inode_spec m2 i c ns s Hm2 Hbyte2 Hfile2 Hok Hs Hrefs2)|].
  intros [] m3 (Hm3 & Hs3 & Hi3 & _ & Hf3). rewrite wp_ret. split; [done|].
  destruct (find_low _ _ _ b name Hs3 table_area_low ltac:(lia) Hname) as [Hfind3 _].
  destruct (entries_low _ _ _ b Hs3 table_area_low ltac:(lia) j ltac:(lia)) as (_ & Hinum3 & _).
  assert (Hrn : ROOT_INODE ∉ i :: map fst ns) by (apply not_elem_of_cons; split; [exact (fun E => Hi1 (eq_sym E))|exact Hroot]).
  split; [|split; [|split; [rewrite Hfind3, Hfind2, Hfind1; exact Hfind|split; [rewrite Hinum3, Hinum2, Hinum1; exact Hinum|]]]].
  - split; [exact Hm3|]. split; [exact H1|]. split; [|exact Hb]. rewrite Hf3 by assumption.
    exact (proj1 (proj2 (proj2 Hd2))).
  - rewrite Hi3 by (by vm_compute). rewrite decide_False.
    + rewrite (proj1 (Hu2 ROOT_INODE ltac:(by vm_compute))), (proj1 (Hbits ROOT_INODE ltac:(by vm_compute))). exact Hu.
    + intros [E|Hin]%elem_of_cons; [exact (Hi1 (eq_sym E))|]. exact (Hroot (freed_inodes_post _ _ Hin)).
  - rewrite Hi3 by (unfold SIZE in *; lia). rewrite decide_True; [reflexivity|]. apply elem_of_cons. left. reflexivity.
Qed.

(** ** Theorems *)

Section theorems.
Context (now uid : Z) (Hnow : 0 <= now < 2 ^ 64).

(** A created file can be looked up.  For a name that fits and is not yet
    in the root directory, with a free inode and a free directory entry,
    mknod of "/name" returns 0, and getattr of "/name" then reports the inode
    taken, the requested mode, one link and, for a regular file, size 0. *)
Theorem nufs_mknod_getattr m b name mode st i rest :
  dir m ROOT_INODE b -> inode_used m ROOT_INODE = true -> component_ok name ->
  INT_MIN <= mode <= INT_MAX -> dir_find m b name = None -> is_Some (dir_slot m b) ->
  free_inodes m = i :: rest ->
  exists m', nufs_mknod now (47 :: name) mode m = Ok (0, m') /\
    nufs_getattr uid (47 :: name) st m' =
      Ok ((0, mk_stat i uid mode 1 (if S_ISREG mode then 0 else st_size st)), m').
Proof.
  intros Hd Hu Hc Hmode Hnone [j Hj] Hfree.
  assert (Hi : 2 <= i < SIZE /\ inode_used m i = false).
  { apply free_inodes_unused. rewrite Hfree. apply elem_of_cons. by left. }
  destruct Hi as [Hi Hiu].
  pose proof (nufs_mknod_root now m b name mode i rest j Hnow Hd Hu Hc Hmode Hnone Hj Hfree Hi Hiu) as H.
  apply wp_run in H as (r & m' & Hrun & -> & Hd' & Hu' & Hf' & He' & Hiu' & Hrefs & Hmd & Hsz). exists m'.
  split; [done|]. rewrite (getattr_child uid m' b name j i st) by (try done; lia). rewrite Hiu', Hmd, Hrefs, Hsz. done.
Qed.
(** Unlinking the last name of a file makes getattr of that name fault.
    For a file with one link in the root directory, unlink of "/name" returns
    0 and frees the inode, but the directory still answers its number, and
    getattr dereferences the NULL that get_inode gives for a free inode;
    the file cannot be created again either, mknod returns -EEXIST. *)
Theorem nufs_unlink_getattr_faults m b name mode st j i c ns s :
  dir m ROOT_INODE b -> inode_used m ROOT_INODE = true -> component_ok name ->
  dir_find m b name = Some j -> e_inum m b j = i -> i <> ROOT_INODE ->
  ROOT_INODE ∉ map fst ns -> file m ((i, c) :: ns) s -> chain_ok ((i, c) :: ns) -> s <= INT_MAX ->
  0 <= rd m 32 < 256 -> fld m i Refs = 1 ->
  exists m', nufs_unlink (47 :: name) m = Ok (0, m') /\
    nufs_getattr uid (47 :: name) st m' = Err NullDeref /\
    nufs_mknod now (47 :: name) mode m' = Ok (- EEXIST, m').
Proof.
  intros Hd Hu Hc Hfind Hinum Hi1 Hroot Hf Hok Hs Hbyte Hrefs.
  pose proof (nufs_unlink_root m b name j i c ns s Hd Hu Hc Hfind Hinum Hi1 Hroot Hf Hok Hs Hbyte Hrefs) as H.
  apply wp_run in H as (r & m' & Hrun & -> & Hd' & Hu' & Hf' & He' & Hiu). exists m'. split; [done|].
  pose proof Hf as (_ & (Hi & _) & _). pose proof Hd' as (Hm' & H1 & _). pose proof Hc as (Hname & _ & Hni). split.
  - rewrite (getattr_child uid m' b name j i st) by done. by rewrite Hiu.
  - unfold nufs_mknod. rewrite split_root by done. cbn [lift_res]. rewrite (bind_ok _ _ _ _ _ eq_refl).
    unfold storage_mknod, resolve. rewrite (bind_ok _ _ _ _ _ (tree_lookup_root m' Hm')), (bind_ok _ _ _ _ _ eq_refl).
    rewrite (bind_ok _ _ _ _ _ (get_inode_run m' _ Hm' H1)), Hu'.
    rewrite (bind_ok _ _ _ _ _ (directory_lookup_run m' _ b name Hd' Hname)), Hf', He'.
    by rewrite (proj2 (Z.leb_le 0 i)) by lia.
Qed.
End theorems.

(** ** Witnesses *)

#[local] Transparent fld inode_used e_inum e_named e_filled rd.

Lemma component_ok_a : component_ok (codes "a").
Proof. split; [split; [repeat constructor; lia|by vm_compute]|]. split; [done|]. apply (bool_decide_unpack _). by vm_compute. Defined.

Lemma nufs_mknod_getattr_witness :
  exists m', nufs_mknod 0 (codes "/a") 33188 root_image = Ok (0, m') /\
    nufs_getattr 1000 (codes "/a") (mk_stat 0 0 0 0 9) m' = Ok ((0, mk_stat 2 1000 33188 1 0), m').
Proof.
  apply (nufs_mknod_getattr 0 1000 ltac:(lia) root_image 5 (codes "a") 33188 (mk_stat 0 0 0 0 9) 2 (seqZ 3 61)).
  - exact root_dir.
  - by vm_compute.
  - exact component_ok_a.
  - split; by vm_compute.
  - by vm_compute.
  - exists 2. by vm_compute.
  - by vm_compute.
Defined.

(** The image with the empty file "/a". *)
Definition image_a : mem := after (nufs_mknod 0 (codes "/a") 33188) root_image.

Lemma nufs_unlink_getattr_faults_witness :
  exists m', nufs_unlink (codes "/a") image_a = Ok (0, m') /\
    nufs_getattr 1000 (codes "/a") (mk_stat 0 0 0 0 9) m' = Err NullDeref /\
    nufs_mknod 0 (codes "/a") 33188 m' = Ok (-17, m').
Proof.
  apply (nufs_unlink_getattr_faults 0 1000 image_a 5 (codes "a") 33188 (mk_stat 0 0 0 0 9) 2 2 6 [] 0).
  - unfold dir, image, SIZE. split_and!; first [by vm_compute | lia].
  - by vm_compute.
  - exact component_ok_a.
  - by vm_compute.
  - by vm_compute.
  - by vm_compute.
  - set_solver.
  - split; [lia|]. split; [|split; [apply NoDup_singleton|by vm_compute]].
    cbn [nodes map fst hd]. unfold SIZE. split_and!; first [lia | by vm_compute].
  - repeat constructor; cbn; lia.
  - unfold INT_MAX. lia.
  - split; by vm_compute.
  - by vm_compute.
Defined.
End Nufs.
