(* ===== verification/Malloc.v ===== *)
(** * Malloc: Memory Allocator/mymalloc.c and sbrk_stats.c

    The allocator keeps a linked list of blocks in the data segment: a 24-byte
    header (size, next, is_free) followed by the user's bytes.  The data
    segment is a byte memory whose upper end is the program break; sbrk moves
    the break up to a limit, and is called through the counting wrapper of
    sbrk_stats.c as the Makefile links it.  mymalloc.c calls its helpers under
    the names [request_space] and [find_if_free], which it does not define:
    they are parameters of mymalloc and mycalloc.  The theorems are about the
    allocator with [request_new_space] and [search_free_block], the two
    helpers the file declares and defines with those parameters. *)
From stdpp Require Import base list gmap.
From Stdlib Require Import ZArith Lia.
From S2P Require Import Prelude Mem.

Module Malloc.

(** ** Data *)

Record sbrk_stats := mk_stats { added : Z; returned : Z; count : Z }.

(** The memory of the process, the global [head] (0 for [NULL]), the largest
    break the system grants, and the statistics. *)
Record state := mk_state {
  st_mem : mem;
  head : Z;
  limit : Z;
  stats : sbrk_stats
}.

(** [struct block]: two 8-byte fields, an int and padding. *)
Definition BLOCK_SIZE : Z := 24.
Definition off_size : Z := 0.
Definition off_next : Z := 8.
Definition off_is_free : Z := 16.

Definition on_mem {A} (c : M mem A) : M state A :=
  zoom st_mem (fun m st => mk_state m (head st) (limit st) (stats st)) c.

Definition get_size (b : Z) : M state Z := on_mem (ld64 (b + off_size)).
Definition get_next (b : Z) : M state Z := on_mem (ld64 (b + off_next)).
Definition get_is_free (b : Z) : M state Z := on_mem (ld32 (b + off_is_free)).
Definition set_size (b v : Z) : M state unit := on_mem (st64 (b + off_size) v).
Definition set_next (b v : Z) : M state unit := on_mem (st64 (b + off_next) v).
Definition set_is_free (b v : Z) : M state unit := on_mem (st32 (b + off_is_free) v).

Definition i64 (x : Z) : Z := (x + 2 ^ 63) mod 2 ^ 64 - 2 ^ 63.

(** ** sbrk *)

(** The system call: the old break, or [None] for [(void* ) -1]. *)
Definition __real_sbrk (increment : Z) : M state (option Z) := fun st =>
  let m := st_mem st in
  let brk := m_hi m + increment in
  if (m_lo m <=? brk) && (brk <=? limit st)
  then Ok (Some (m_hi m), mk_state (Mem (m_lo m) brk (m_bytes m)) (head st) (limit st) (stats st))
  else Ok (None, st).

Definition __wrap_sbrk (increment : Z) : M state (option Z) :=
  do! modify (fun st =>
        let s := stats st in
        let s := mk_stats (added s) (returned s) (u64 (count s + 1)) in
        let s := if 0 <=? increment
                 then mk_stats (u64 (added s + increment)) (returned s) (count s)
                 else mk_stats (added s) (u64 (returned s - increment)) (count s) in
        mk_state (st_mem st) (head st) (limit st) s) in
  __real_sbrk increment.

(** The two numbers print_stats prints. *)
Definition print_stats : M state (Z * Z) := gets (fun st => (count (stats st), added (stats st))).

(** ** mymalloc.c *)

(** The loop of search_free_block: the last visited block and the block it
    stops at, 0 for none. *)
Fixpoint search_from (fuel : nat) (previous_block current_block requested_size : Z) : M state (Z * Z) :=
  match fuel with
  | O => fail OutOfFuel
  | S fuel =>
      if current_block =? 0 then ret (previous_block, 0)
      else
        let! size := get_size current_block in
        let! skip := (if size <? requested_size then ret true
                      else let! is_free := get_is_free current_block in ret (is_free =? 0)) in
        if skip then
          let! next := get_next current_block in
          search_from fuel current_block next requested_size
        else ret (previous_block, current_block)
  end.

(** Headers take 24 bytes each, so the list has at most this many blocks. *)
Definition search_fuel (m : mem) : nat := S (Z.to_nat ((m_hi m - m_lo m) / BLOCK_SIZE)).

Definition search_free_block (previous_block requested_size : Z) : M state (Z * Z) :=
  let! st := get in
  search_from (search_fuel (st_mem st)) previous_block (head st) requested_size.

(** 0 for [NULL]. *)
Definition request_new_space (previous_block requested_size : Z) : M state Z :=
  let! new_block := __wrap_sbrk 0 in
  let! request := __wrap_sbrk (i64 (u64 (BLOCK_SIZE + requested_size))) in
  match new_block, request with
  | Some new_block, Some _ =>
      do! (if previous_block =? 0 then ret tt else set_next previous_block new_block) in
      do! set_size new_block requested_size in
      do! set_next new_block 0 in
      do! set_is_free new_block 0 in
      ret new_block
  | _, _ => ret 0
  end.

(** The helpers mymalloc calls are not in the file; they are parameters. *)
Section callers.
Context (request_space : Z -> Z -> M state Z) (find_if_free : Z -> Z -> M state (Z * Z)).

Definition mymalloc (s : Z) : M state Z :=
  do! assert (0 <? s) in
  let! hd := gets head in
  let! block :=
    (if hd =? 0 then
       let! block := request_space 0 s in
       if block =? 0 then ret 0
       else do! modify (fun st => mk_state (st_mem st) block (limit st) (stats st)) in ret block
     else
       let! '(last, block) := find_if_free hd s in
       if block =? 0 then request_space last s else ret block) in
  if block =? 0 then ret 0
  else
    let! _ := get_size block in (* debug_printf *)
    ret (block + BLOCK_SIZE).

Definition mycalloc (num_elements size_per_element : Z) : M state Z :=
  let total_size := u64 (num_elements * size_per_element) in
  let! allocated_block := mymalloc total_size in
  if allocated_block =? 0 then ret 0
  else
    do! on_mem (memset allocated_block 0 (Z.to_nat total_size)) in
    ret allocated_block.

End callers.

Definition myfree (pointer_to_free : Z) : M state unit :=
  if pointer_to_free =? 0 then ret tt
  else
    let block_to_free := pointer_to_free - BLOCK_SIZE in
    do! set_is_free block_to_free 1 in
    let! _ := get_size block_to_free in (* debug_printf *)
    ret tt.

(** ** The block list *)

(** A block as its size and free flag; the list tiles the data segment. *)
Abbreviation blk := (Z * bool)%type.

Definition hdr (m : mem) (a sz next : Z) (fr : bool) : Prop :=
  rdn m a 8 = sz /\ rdn m (a + 8) 8 = next /\ (i32 (rdn m (a + 16) 4) =? 0) = negb fr.

Definition cur (a : Z) (bs : list blk) : Z := match bs with [] => 0 | _ => a end.

Fixpoint tiled (m : mem) (a : Z) (bs : list blk) : Prop :=
  match bs with
  | [] => a = m_hi m
  | (sz, fr) :: bs =>
      0 < sz /\ hdr m a sz (cur (a + BLOCK_SIZE + sz) bs) fr /\ tiled m (a + BLOCK_SIZE + sz) bs
  end.

(** Bytes taken by a list of blocks. *)
Fixpoint total (bs : list blk) : Z :=
  match bs with
  | [] => 0
  | (sz, _) :: bs => BLOCK_SIZE + sz + total bs
  end.

Definition heap_ok (st : state) (bs : list blk) : Prop :=
  0 < m_lo (st_mem st) /\ m_hi (st_mem st) < 2 ^ 62 /\ limit st < 2 ^ 62 /\
  head st = cur (m_lo (st_mem st)) bs /\ tiled (st_mem st) (m_lo (st_mem st)) bs.

(** The first free block that is large enough, by index. *)
Fixpoint first_fit (s : Z) (bs : list blk) : option nat :=
  match bs with
  | [] => None
  | (sz, fr) :: bs =>
      if (sz <? s) || negb fr then S <$> first_fit s bs else Some O
  end.

(** The address of the header of block [k]. *)
Definition addr (lo : Z) (bs : list blk) (k : nat) : Z := lo + total (take k bs).

(** The address of the last block, [prev] when there is none. *)
Fixpoint last_addr (prev a : Z) (bs : list blk) : Z :=
  match bs with
  | [] => prev
  | (sz, _) :: bs => last_addr a (a + BLOCK_SIZE + sz) bs
  end.

(** ** Lemmas *)

Lemma wp_on_mem {A} (c : M mem A) Q st :
  wp (on_mem c) Q st <-> wp c (fun a m => Q a (mk_state m (head st) (limit st) (stats st))) (st_mem st).
Proof. unfold wp, on_mem, zoom. by destruct (c (st_mem st)) as [[a m]|]. Qed.

Lemma state_eta st : mk_state (st_mem st) (head st) (limit st) (stats st) = st.
Proof. by destruct st. Qed.

Lemma total_nonneg m a bs : tiled m a bs -> 0 <= total bs.
Proof.
  revert a. induction bs as [|[sz fr] bs IH]; intros a H; simpl; [lia|].
  destruct H as (? & _ & H). apply IH in H. unfold BLOCK_SIZE. lia.
Qed.

Lemma tiled_total m a bs : tiled m a bs -> a + total bs = m_hi m.
Proof.
  revert a. induction bs as [|[sz fr] bs IH]; intros a H; simpl in *; [lia|].
  destruct H as (? & _ & H). apply IH in H. lia.
Qed.

Lemma tiled_length m a bs : tiled m a bs -> BLOCK_SIZE * Z.of_nat (length bs) <= total bs.
Proof.
  revert a. induction bs as [|[sz fr] bs IH]; intros a H; simpl total; [simpl; lia|].
  destruct H as (? & _ & H). apply IH in H. cbn [length]. unfold BLOCK_SIZE in *. lia.
Qed.

Lemma total_app bs bs' : total (bs ++ bs') = total bs + total bs'.
Proof. induction bs as [|[sz fr] bs IH]; simpl; lia. Qed.

(** The header at the front of a list is mapped. *)
Lemma header_mapped m bs a :
  m_lo m <= a -> tiled m a bs -> bs <> [] ->
  forall f k, 0 <= f -> f + k <= BLOCK_SIZE -> mapped m (a + f) k = true.
Proof.
  intros Hlo Ht Hne f k Hf Hk. pose proof (tiled_total _ _ _ Ht). destruct bs as [|[sz fr] bs]; [done|].
  destruct Ht as (? & _ & Ht). pose proof (total_nonneg _ _ _ Ht). cbn [total] in *.
  apply mapped_spec. unfold BLOCK_SIZE in *. lia.
Qed.

Lemma search_from_spec st s bs : forall fuel prev a,
  0 < a -> m_lo (st_mem st) <= a -> tiled (st_mem st) a bs -> (length bs < fuel)%nat ->
  search_from fuel prev (cur a bs) s st =
  Ok (match first_fit s bs with
      | Some k => (match k with O => prev | _ => last_addr prev a (take k bs) end, addr a bs k)
      | None => (last_addr prev a bs, 0)
      end, st).
Proof.
  induction bs as [|[sz fr] bs IH]; intros fuel prev a Ha Hlo Ht Hfuel; (destruct fuel as [|fuel]; [simpl in Hfuel; lia|]);
    [done|].
  pose proof (header_mapped _ _ _ Hlo Ht ltac:(done)) as Hmap.
  destruct Ht as (Hsz & (H1 & H2 & H3) & Ht). cbn [cur search_from first_fit].
  rewrite (proj2 (Z.eqb_neq a 0)) by lia.
  assert (Eg : get_size a st = Ok (sz, st)).
  { unfold get_size, on_mem, zoom, ld64, ld, off_size. rewrite Z.add_0_r.
    rewrite <- (Z.add_0_r a) at 1. rewrite Hmap by (unfold BLOCK_SIZE; lia). rewrite H1, state_eta. done. }
  assert (Ef : get_is_free a st = Ok (i32 (rdn (st_mem st) (a + 16) 4), st)).
  { unfold get_is_free, on_mem, zoom, ld32, ld, bind, off_is_free. rewrite Hmap by (unfold BLOCK_SIZE; lia).
    unfold ret. by rewrite state_eta. }
  assert (En : get_next a st = Ok (cur (a + BLOCK_SIZE + sz) bs, st)).
  { unfold get_next, on_mem, zoom, ld64, ld, off_next. rewrite Hmap by (unfold BLOCK_SIZE; lia).
    rewrite H2, state_eta. done. }
  rewrite (bind_ok _ _ _ _ _ Eg).
  assert (Es : (if sz <? s then ret true else let! is_free := get_is_free a in ret (is_free =? 0)) st =
    Ok ((sz <? s) || negb fr, st)).
  { destruct (sz <? s); [done|]. rewrite (bind_ok _ _ _ _ _ Ef). cbn [orb]. by rewrite H3. }
  rewrite (bind_ok _ _ _ _ _ Es). destruct ((sz <? s) || negb fr).
  - rewrite (bind_ok _ _ _ _ _ En). rewrite IH; [|unfold BLOCK_SIZE; lia|unfold BLOCK_SIZE in *; lia|done|simpl in Hfuel; lia].
    destruct (first_fit s bs) as [k|]; [|done]. cbn [fmap option_fmap option_map]. unfold ret. do 3 f_equal.
    + destruct k; [cbn [take last_addr]; by rewrite ?take_0|done].
    + unfold addr. cbn [take total]. lia.
  - unfold addr, ret. rewrite take_0. cbn [total]. by rewrite Z.add_0_r.
Qed.

(** Appending a block at the break. *)
Lemma last_addr_range m a bs prev :
  tiled m a bs -> bs <> [] -> a <= last_addr prev a bs /\ last_addr prev a bs + BLOCK_SIZE < m_hi m.
Proof.
  revert a prev. induction bs as [|[sz fr] bs IH]; intros a prev Ht Hne; [done|].
  pose proof (tiled_total _ _ _ Ht) as Htot. destruct Ht as (Hsz & _ & Ht). cbn [last_addr total] in *.
  destruct bs as [|b bs]; [cbn [last_addr total] in *; unfold BLOCK_SIZE in *; lia|].
  pose proof (IH _ a Ht ltac:(done)). unfold BLOCK_SIZE in *. lia.
Qed.

Lemma hdr_ext m m' a sz next fr :
  (forall x, range a BLOCK_SIZE x -> rd m' x = rd m x) -> hdr m a sz next fr -> hdr m' a sz next fr.
Proof.
  unfold range, BLOCK_SIZE. intros H (H1 & H2 & H3).
  split; [|split]; rewrite ?(rdn_ext 8 m m'), ?(rdn_ext 4 m m'); try done; unfold range; intros x Hx; apply H; lia.
Qed.

Lemma tiled_extend m m' s bs : forall a prev,
  tiled m a bs -> bs <> [] -> 0 < s ->
  (forall x, a <= x < m_hi m -> ~ range (last_addr prev a bs + 8) 8 x -> rd m' x = rd m x) ->
  rdn m' (last_addr prev a bs + 8) 8 = m_hi m ->
  hdr m' (m_hi m) s 0 false -> m_hi m' = m_hi m + BLOCK_SIZE + s ->
  tiled m' a (bs ++ [(s, false)]).
Proof.
  induction bs as [|[sz fr] bs IH]; intros a prev Ht Hne Hs Hsame Hnx Hnew Hhi; [done|].
  pose proof (tiled_total _ _ _ Ht) as Htot. destruct Ht as (Hsz & Hh & Ht).
  pose proof (total_nonneg _ _ _ Ht). cbn [last_addr total app tiled] in *. split; [done|].
  destruct bs as [|b bs].
  - cbn [last_addr total] in *. assert (E : m_hi m = a + BLOCK_SIZE + sz) by (unfold BLOCK_SIZE in *; lia).
    destruct Hh as (H1 & _ & H3). split.
    + unfold BLOCK_SIZE in *. split; [|split].
      * rewrite <- H1. apply rdn_ext. unfold range. intros x Hx. apply Hsame; unfold range; lia.
      * rewrite Hnx. cbn [app cur]. lia.
      * rewrite <- H3. do 2 f_equal. apply rdn_ext. unfold range. intros x Hx. apply Hsame; unfold range; lia.
    + rewrite <- E. cbn [app tiled]. split; [done|]. split; [done|]. lia.
  - pose proof (last_addr_range m _ (b :: bs) a Ht ltac:(done)) as Hlast. split.
    + apply (hdr_ext m); [|done]. unfold range. intros x Hx. apply Hsame; unfold range, BLOCK_SIZE in *; lia.
    + apply (IH _ a); try done. intros x Hx. apply Hsame. unfold BLOCK_SIZE in *. lia.
Qed.

(** The stores of request_new_space on a block [hb] already in the segment. *)
Lemma init_block_spec st prev hb s Q :
  let m := st_mem st in
  m_lo m <= hb -> hb + BLOCK_SIZE <= m_hi m -> 0 < hb < 2 ^ 64 -> 0 <= s < 2 ^ 64 ->
  (prev = 0 \/ m_lo m <= prev /\ 0 < prev /\ prev + BLOCK_SIZE <= hb) ->
  (forall m', m_lo m' = m_lo m -> m_hi m' = m_hi m ->
     (forall x, ~ range hb BLOCK_SIZE x -> (prev = 0 \/ ~ range (prev + 8) 8 x) -> rd m' x = rd m x) ->
     (prev <> 0 -> rdn m' (prev + 8) 8 = hb) -> hdr m' hb s 0 false ->
     Q hb (mk_state m' (head st) (limit st) (stats st))) ->
  wp (do! (if prev =? 0 then ret tt else set_next prev hb) in
      do! set_size hb s in
      do! set_next hb 0 in
      do! set_is_free hb 0 in
      ret hb) Q st.
Proof.
  intros m Hlo Hhi Hhb Hs Hprev HQ. unfold BLOCK_SIZE in *.
  set (m2 := if prev =? 0 then m else wrn m (prev + 8) 8 hb).
  assert (H2 : m_lo m2 = m_lo m /\ m_hi m2 = m_hi m /\
    (forall x, (prev = 0 \/ ~ range (prev + 8) 8 x) -> rd m2 x = rd m x) /\ (prev <> 0 -> rdn m2 (prev + 8) 8 = hb)).
  { unfold m2. destruct (Z.eqb_spec prev 0); [done|]. destruct (wrn_bounds 8 m (prev + 8) hb) as [-> ->].
    split_and!; [done..| |].
    - intros x [?|?]; [done|]. by apply rd_wrn_out.
    - intros _. rewrite rdn_wrn. apply Z.mod_small. change (256 ^ Z.of_nat 8) with (2 ^ 64). lia. }
  destruct H2 as (Hlo2 & Hhi2 & Hrd2 & Hnx2).
  assert (Hstep : wp (if prev =? 0 then ret tt else set_next prev hb)
    (fun _ st' => st' = mk_state m2 (head st) (limit st) (stats st)) st).
  { unfold m2. destruct (Z.eqb_spec prev 0); [rewrite wp_ret; symmetry; apply state_eta|].
    unfold set_next, st64. rewrite wp_on_mem, wp_st. split; [|done]. apply mapped_spec. fold m; unfold off_next; lia. }
  rewrite wp_bind. eapply wp_mono; [exact Hstep|]. intros [] st' ->. clear Hstep.
  unfold set_size, set_next, set_is_free, st64, st32, off_size, off_next, off_is_free. rewrite Z.add_0_r.
  set (m3 := wrn m2 hb 8 s). set (m4 := wrn m3 (hb + 8) 8 0). set (m5 := wrn m4 (hb + 16) 4 0).
  destruct (wrn_bounds 8 m2 hb s) as [Hlo3 Hhi3]. destruct (wrn_bounds 8 m3 (hb + 8) 0) as [Hlo4 Hhi4].
  destruct (wrn_bounds 4 m4 (hb + 16) 0) as [Hlo5 Hhi5]. fold m3 m4 m5 in Hlo3, Hhi3, Hlo4, Hhi4, Hlo5, Hhi5.
  rewrite wp_bind, wp_on_mem, wp_st. cbn [st_mem head limit stats]. split; [apply mapped_spec; lia|]. fold m3.
  rewrite wp_bind, wp_on_mem, wp_st. cbn [st_mem head limit stats]. split; [apply mapped_spec; lia|]. fold m4.
  rewrite wp_bind, wp_on_mem, wp_st. cbn [st_mem head limit stats]. split; [apply mapped_spec; lia|]. fold m5.
  rewrite wp_ret. apply HQ; [lia|lia| | |].
  - intros x Hx Hp. unfold range in Hx. unfold m5, m4, m3. rewrite !rd_wrn_out by (unfold range; lia). by apply Hrd2.
  - intros Hp. rewrite <- (Hnx2 Hp). apply rdn_ext. unfold range. intros x Hx. unfold m5, m4, m3.
    rewrite !rd_wrn_out by (unfold range; lia). done.
  - split; [|split].
    + unfold m5, m4. rewrite (rdn_ext 8 m3).
      2: { unfold range. intros x Hx. rewrite !rd_wrn_out by (unfold range; lia). done. }
      unfold m3. rewrite rdn_wrn. apply Z.mod_small. done.
    + unfold m5. rewrite (rdn_ext 8 m4).
      2: { unfold range. intros x Hx. rewrite !rd_wrn_out by (unfold range; lia). done. }
      unfold m4. by rewrite rdn_wrn.
    + unfold m5. rewrite rdn_wrn. done.
Qed.

(** What a successful request_new_space does. *)
Record block_added (prev s : Z) (st st' : state) : Prop := {
  ba_lo : m_lo (st_mem st') = m_lo (st_mem st);
  ba_hi : m_hi (st_mem st') = m_hi (st_mem st) + BLOCK_SIZE + s;
  ba_head : head st' = head st;
  ba_limit : limit st' = limit st;
  ba_same : forall x, ~ range (m_hi (st_mem st)) BLOCK_SIZE x ->
    (prev = 0 \/ ~ range (prev + 8) 8 x) -> rd (st_mem st') x = rd (st_mem st) x;
  ba_next : prev <> 0 -> rdn (st_mem st') (prev + 8) 8 = m_hi (st_mem st);
  ba_hdr : hdr (st_mem st') (m_hi (st_mem st)) s 0 false
}.

Lemma request_new_space_spec st prev s :
  0 < m_hi (st_mem st) < 2 ^ 62 -> limit st < 2 ^ 62 -> m_lo (st_mem st) <= m_hi (st_mem st) <= limit st ->
  0 < s -> s < 2 ^ 62 ->
  (prev = 0 \/ m_lo (st_mem st) <= prev /\ 0 < prev /\ prev + BLOCK_SIZE <= m_hi (st_mem st)) ->
  wp (request_new_space prev s) (fun r st' =>
    if m_hi (st_mem st) + BLOCK_SIZE + s <=? limit st
    then r = m_hi (st_mem st) /\ block_added prev s st st'
    else r = 0 /\ st_mem st' = st_mem st /\ head st' = head st /\ limit st' = limit st) st.
Proof.
  intros Hhi Hlim Hbrk Hs Hs' Hprev. unfold request_new_space, __wrap_sbrk. wp_pure.
  unfold __real_sbrk at 1. unfold wp at 1. cbn [st_mem limit]. rewrite Z.add_0_r.
  destruct (_ && _) eqn:E0; [|lia]. clear E0. wp_pure. cbn [st_mem head limit stats].
  assert (Einc : i64 (u64 (BLOCK_SIZE + s)) = BLOCK_SIZE + s).
  { rewrite u64_small by (unfold BLOCK_SIZE; lia). unfold i64. rewrite Z.mod_small by (unfold BLOCK_SIZE; lia). lia. }
  rewrite Einc. unfold __real_sbrk. unfold wp at 1. cbn [st_mem limit m_lo m_hi m_bytes head stats].
  destruct (Z.leb_spec (m_hi (st_mem st) + BLOCK_SIZE + s) (limit st)).
  2: { destruct (_ && _) eqn:E; [unfold BLOCK_SIZE in *; lia|]. wp_pure. cbn. by destruct (st_mem st). }
  destruct (_ && _) eqn:E; [clear E|unfold BLOCK_SIZE in *; lia].
  apply init_block_spec; cbn [st_mem m_lo m_hi]; try (unfold BLOCK_SIZE in *; lia).
  intros m' Hlo' Hhi' Hsame Hnx Hh. split; [done|]. split; try done. cbn. lia.
Qed.

Lemma first_fit_lt s bs k : first_fit s bs = Some k -> (k < length bs)%nat.
Proof.
  revert k. induction bs as [|[sz fr] bs IH]; intros k H; simpl in H; [done|].
  destruct (_ || _); [|injection H as <-; simpl; lia].
  destruct (first_fit s bs) as [j|]; [|done]. injection H as <-. simpl. specialize (IH j eq_refl). lia.
Qed.

Lemma search_fuel_ok m bs : tiled m (m_lo m) bs -> (length bs < search_fuel m)%nat.
Proof.
  intros Ht. pose proof (tiled_total _ _ _ Ht). pose proof (tiled_length _ _ _ Ht). unfold search_fuel.
  pose proof (Z.div_le_lower_bound (m_hi m - m_lo m) BLOCK_SIZE (Z.of_nat (length bs)) ltac:(done) ltac:(lia)). lia.
Qed.

Lemma get_size_mapped st a : mapped (st_mem st) a 8 = true -> exists v, get_size a st = Ok (v, st).
Proof.
  intros H. unfold get_size, on_mem, zoom, ld64, ld, off_size. rewrite Z.add_0_r. change (Z.of_nat 8) with 8.
  rewrite H, state_eta. eauto.
Qed.

(** The blocks after the first [k]. *)
Lemma tiled_drop m a bs k : tiled m a bs -> (k <= length bs)%nat -> tiled m (addr a bs k) (drop k bs).
Proof.
  revert a k. induction bs as [|[sz fr] bs IH]; intros a k Ht Hk.
  - destruct k; [|simpl in Hk; lia]. unfold addr. simpl in *. lia.
  - destruct k as [|k]; [unfold addr; cbn [take total drop]; by rewrite Z.add_0_r|].
    destruct Ht as (_ & _ & Ht). cbn [drop length] in *. unfold addr in *. cbn [take total].
    replace (a + (BLOCK_SIZE + sz + total (take k bs))) with (a + BLOCK_SIZE + sz + total (take k bs)) by lia.
    apply IH; [done|lia].
Qed.

Lemma addr_range m a bs k : tiled m a bs -> (k < length bs)%nat -> a <= addr a bs k /\ addr a bs k + BLOCK_SIZE < m_hi m.
Proof.
  intros Ht Hk. pose proof (tiled_drop m a bs k Ht ltac:(lia)) as Hd. pose proof (tiled_total _ _ _ Hd) as Htot.
  assert (H0 : 0 <= total (take k bs)).
  { clear - Ht. revert a k Ht. induction bs as [|[sz fr] bs IH]; intros a [|k] Ht; cbn [take total]; try lia.
    destruct Ht as (? & _ & Ht). pose proof (IH _ k Ht). unfold BLOCK_SIZE. lia. }
  destruct (drop k bs) as [|[sz fr] ds] eqn:E.
  { apply (f_equal length) in E. rewrite length_drop in E. simpl in E. lia. }
  destruct Hd as (? & _ & Hd). pose proof (total_nonneg _ _ _ Hd). cbn [total] in Htot. unfold addr in *.
  unfold BLOCK_SIZE in *. lia.
Qed.

(** The allocator with the two helpers that the file defines with those
    parameters. *)
Abbreviation malloc := (mymalloc request_new_space search_free_block).
Abbreviation calloc := (mycalloc request_new_space search_free_block).

(** malloc in terms of the block list. *)
Lemma mymalloc_spec st bs s :
  heap_ok st bs -> m_hi (st_mem st) <= limit st -> 0 < s < 2 ^ 62 ->
  wp (malloc s) (fun r st' =>
    match first_fit s bs with
    | Some k => r = addr (m_lo (st_mem st)) bs k + BLOCK_SIZE /\ st' = st
    | None =>
        limit st' = limit st /\
        if m_hi (st_mem st) + BLOCK_SIZE + s <=? limit st
        then r = m_hi (st_mem st) + BLOCK_SIZE /\ heap_ok st' (bs ++ [(s, false)]) /\
             m_lo (st_mem st') = m_lo (st_mem st) /\ m_hi (st_mem st') = m_hi (st_mem st) + BLOCK_SIZE + s
        else r = 0 /\ st_mem st' = st_mem st /\ heap_ok st' bs
    end) st.
Proof.
  intros (Hlo & Hhi & Hlim & Hhead & Ht) Hbrk Hs. set (m := st_mem st) in *.
  pose proof (tiled_total _ _ _ Ht) as Htot. pose proof (total_nonneg _ _ _ Ht) as Hnn.
  unfold mymalloc. rewrite wp_bind, wp_assert. split; [lia|]. rewrite wp_bind, wp_gets, Hhead.
  assert (Hfin : forall r st' Q, r <> 0 -> mapped (st_mem st') r 8 = true -> Q (r + BLOCK_SIZE) st' ->
    wp (if r =? 0 then ret 0 else let! _ := get_size r in ret (r + BLOCK_SIZE)) Q st').
  { intros r st' Q Hr Hmap HQ. rewrite (proj2 (Z.eqb_neq r 0)) by done.
    destruct (get_size_mapped st' r Hmap) as [v Ev]. rewrite wp_bind, (wp_eq _ _ _ _ _ Ev), wp_ret. done. }
  destruct bs as [|b bs].
  - cbn [cur first_fit]. rewrite Z.eqb_refl, wp_bind, wp_bind. cbn [total] in *.
    eapply wp_mono; [apply (request_new_space_spec st 0 s); fold m; try lia|].
    intros r st1. fold m. destruct (Z.leb_spec (m_hi m + BLOCK_SIZE + s) (limit st)) as [Hle|Hgt].
    + intros [-> [B1 B2 B3 B4 B5 _ B7]]. fold m in B1, B2, B5, B7.
      rewrite (proj2 (Z.eqb_neq _ 0)) by lia. rewrite wp_bind, wp_modify, wp_ret. apply Hfin; [lia| |].
      { apply mapped_spec. cbn. unfold BLOCK_SIZE in *. lia. }
      cbn [limit st_mem]. split; [done|]. split; [done|]. split; [|done].
      unfold heap_ok. cbn [st_mem limit head cur app tiled]. split_and!; try (unfold BLOCK_SIZE in *; lia); try done.
      * rewrite B1. replace (m_lo m) with (m_hi m) by lia. done.
    + intros (-> & H1 & H2 & H3). rewrite Z.eqb_refl, wp_ret. cbn. split; [done|]. split; [done|]. split; [done|].
      unfold heap_ok. rewrite H1, H2, H3. fold m. done.
  - cbn [cur]. rewrite (proj2 (Z.eqb_neq _ 0)) by lia. rewrite wp_bind, wp_bind. unfold search_free_block.
    rewrite wp_bind, wp_get. rewrite Hhead. fold m.
    assert (Hsearch := search_from_spec st s (b :: bs) (search_fuel m) (m_lo m) (m_lo m) Hlo (Z.le_refl _) Ht (search_fuel_ok m _ Ht)).
    cbn [cur] in Hsearch |- *. rewrite (wp_eq _ _ _ _ _ Hsearch).
    destruct (first_fit s (b :: bs)) as [k|] eqn:Efit.
    + pose proof (addr_range _ _ _ _ Ht (first_fit_lt _ _ _ Efit)) as Har.
      rewrite (proj2 (Z.eqb_neq (addr _ _ _) 0)) by lia. rewrite wp_ret. apply Hfin; [lia| |done].
      apply mapped_spec. fold m. unfold BLOCK_SIZE in *. lia.
    + rewrite Z.eqb_refl. pose proof (last_addr_range m (m_lo m) (b :: bs) (m_lo m) Ht ltac:(done)) as Hlast.
      eapply wp_mono; [apply (request_new_space_spec st (last_addr (m_lo m) (m_lo m) (b :: bs)) s); fold m; try lia|].
      intros r st1. fold m. destruct (Z.leb_spec (m_hi m + BLOCK_SIZE + s) (limit st)) as [Hle|Hgt].
      * intros [-> [B1 B2 B3 B4 B5 B6 B7]]. fold m in B1, B2, B5, B6, B7. apply Hfin; [lia| |].
        { apply mapped_spec. unfold BLOCK_SIZE in *. lia. }
        split; [done|]. split; [done|]. split; [|done].
        unfold heap_ok. rewrite B1, B3, B4. split_and!; try (unfold BLOCK_SIZE in *; lia).
        -- by rewrite Hhead.
        -- apply (tiled_extend m _ s (b :: bs) (m_lo m) (m_lo m)); try done; try lia.
           intros x Hx Hr. apply B5; [unfold range; lia|by right].
      * intros (-> & H1 & H2 & H3). rewrite Z.eqb_refl, wp_ret. split; [done|]. split; [done|]. split; [done|].
        unfold heap_ok. rewrite H1, H2, H3. fold m. done.
Qed.

Definition mark_free (b : blk) : blk := (fst b, true).

Lemma cur_alter a bs k : cur a (alter mark_free k bs) = cur a bs.
Proof. by destruct bs, k. Qed.

(** Setting the flag of block [k]. *)
Lemma tiled_mark m bs : forall a k,
  tiled m a bs -> (k < length bs)%nat ->
  tiled (wrn m (addr a bs k + 16) 4 1) a (alter mark_free k bs).
Proof.
  induction bs as [|[sz fr] bs IH]; intros a k Ht Hk; [simpl in Hk; lia|].
  pose proof (wrn_same_but m (addr a ((sz, fr) :: bs) k + 16) 4 1) as Hs. change (Z.of_nat 4) with 4 in Hs.
  destruct k as [|k].
  - unfold addr in *. cbn [take total] in *. rewrite Z.add_0_r in *. destruct Ht as (Hsz & (H1 & H2 & H3) & Ht).
    change (alter mark_free 0 ((sz, fr) :: bs)) with ((sz, true) :: bs).
    cbn [tiled]. split; [done|]. split; [split; [|split]|].
    + rewrite (rdn_same_but _ _ _ _ _ Hs); [done|]. unfold range. lia.
    + rewrite (rdn_same_but _ _ _ _ _ Hs); [done|]. unfold range. lia.
    + rewrite i32_rdn_wrn by (by vm_compute). done.
    + assert (Hrest : forall bs a', a + BLOCK_SIZE <= a' -> tiled m a' bs -> tiled (wrn m (a + 16) 4 1) a' bs).
      { clear - Hs. destruct Hs as (_ & Hhi & Hs). induction bs as [|[sz fr] bs IH]; intros a' Ha Ht; [cbn [tiled] in *; congruence|].
        destruct Ht as (? & Hh & Ht). cbn [tiled]. split; [done|]. split.
        - apply (hdr_ext m); [|done]. unfold range, BLOCK_SIZE in *. intros x Hx. apply Hs. unfold range. lia.
        - apply IH; [unfold BLOCK_SIZE in *; lia|done]. }
      apply Hrest; [simpl; lia|done].
  - pose proof Ht as (Hsz & Hh & Ht'). cbn [length] in Hk.
    assert (Ea : addr a ((sz, fr) :: bs) (S k) = addr (a + BLOCK_SIZE + sz) bs k) by (unfold addr; cbn [take total]; lia).
    pose proof (addr_range _ _ _ k Ht' ltac:(lia)) as Hr. rewrite Ea in *.
    change (alter mark_free (S k) ((sz, fr) :: bs)) with ((sz, fr) :: alter mark_free k bs).
    cbn [tiled]. rewrite cur_alter. split; [done|]. split; [|apply IH; [done|lia]].
    apply (hdr_ext m); [|done]. intros x Hx. apply Hs. unfold range, BLOCK_SIZE in *. lia.
Qed.

Lemma myfree_spec st bs k :
  heap_ok st bs -> (k < length bs)%nat ->
  wp (myfree (addr (m_lo (st_mem st)) bs k + BLOCK_SIZE)) (fun _ st' =>
    heap_ok st' (alter mark_free k bs) /\ m_lo (st_mem st') = m_lo (st_mem st) /\
    m_hi (st_mem st') = m_hi (st_mem st) /\ limit st' = limit st) st.
Proof.
  intros (Hlo & Hhi & Hlim & Hhead & Ht) Hk. pose proof (addr_range _ _ _ _ Ht Hk) as Hr.
  set (m := st_mem st) in *. set (a := addr (m_lo m) bs k) in *. unfold myfree. unfold BLOCK_SIZE in *.
  rewrite (proj2 (Z.eqb_neq (a + 24) 0)) by lia. cbv zeta. replace (a + 24 - 24) with a by lia.
  unfold set_is_free, st32. rewrite wp_bind, wp_on_mem, wp_st. fold m.
  split; [apply mapped_spec; unfold off_is_free; lia|]. unfold off_is_free.
  destruct (wrn_bounds 4 m (a + 16) 1) as [Hlo' Hhi'].
  set (st' := mk_state (wrn m (a + 16) 4 1) (head st) (limit st) (stats st)).
  destruct (get_size_mapped st' a) as [v Ev].
  { apply mapped_spec. cbn. lia. }
  rewrite wp_bind, (wp_eq _ _ _ _ _ Ev), wp_ret. split; [|done].
  unfold heap_ok. subst st'. cbn [st_mem limit head]. rewrite Hlo', Hhi', cur_alter.
  split_and!; try done. by apply tiled_mark.
Qed.

(** ** Sessions *)

Inductive aop :=
  | AMalloc (s : Z)
  | AFree (k : nat).   (* free of the pointer to block [k] *)

(** The specification: an allocator of the addresses from [lo] to [lim] that
    remembers sizes and free flags. *)
Definition spec_step (lo lim : Z) (bs : list blk) (o : aop) : Z * list blk :=
  match o with
  | AMalloc s =>
      match first_fit s bs with
      | Some k => (addr lo bs k + BLOCK_SIZE, bs)
      | None =>
          if lo + total bs + BLOCK_SIZE + s <=? lim
          then (lo + total bs + BLOCK_SIZE, bs ++ [(s, false)])
          else (0, bs)
      end
  | AFree k => (0, alter mark_free k bs)
  end.

Fixpoint spec_run (lo lim : Z) (bs : list blk) (ops : list aop) : list Z * list blk :=
  match ops with
  | [] => ([], bs)
  | o :: ops =>
      let '(r, bs) := spec_step lo lim bs o in
      let '(rs, bs) := spec_run lo lim bs ops in
      (r :: rs, bs)
  end.

Definition op_ok (bs : list blk) (o : aop) : Prop :=
  match o with
  | AMalloc s => 0 < s < 2 ^ 62
  | AFree k => (k < length bs)%nat
  end.

Fixpoint ops_ok (lo lim : Z) (bs : list blk) (ops : list aop) : Prop :=
  match ops with
  | [] => True
  | o :: ops => op_ok bs o /\ ops_ok lo lim (snd (spec_step lo lim bs o)) ops
  end.

(** The calls the operations stand for; the client frees the address it got
    for block [k]. *)
Definition code_step (lo : Z) (bs : list blk) (o : aop) : M state Z :=
  match o with
  | AMalloc s => malloc s
  | AFree k => do! myfree (addr lo bs k + BLOCK_SIZE) in ret 0
  end.

Fixpoint code_run (lo lim : Z) (bs : list blk) (ops : list aop) : M state (list Z) :=
  match ops with
  | [] => ret []
  | o :: ops =>
      let! r := code_step lo bs o in
      let! rs := code_run lo lim (snd (spec_step lo lim bs o)) ops in
      ret (r :: rs)
  end.

Lemma code_step_spec st bs o lo lim :
  heap_ok st bs -> m_lo (st_mem st) = lo -> limit st = lim -> m_hi (st_mem st) <= lim -> op_ok bs o ->
  wp (code_step lo bs o) (fun r st' => r = fst (spec_step lo lim bs o) /\
    heap_ok st' (snd (spec_step lo lim bs o)) /\ m_lo (st_mem st') = lo /\ limit st' = lim /\
    m_hi (st_mem st') <= lim) st.
Proof.
  intros Hok <- <- Hhi Ho. pose proof Hok as (Hlo & _ & _ & _ & Ht). pose proof (tiled_total _ _ _ Ht) as Htot.
  destruct o as [s|k]; cbn [code_step spec_step op_ok] in *.
  - eapply wp_mono; [by apply mymalloc_spec|]. intros r st'. rewrite Htot.
    destruct (first_fit s bs) as [k|]; [intros [-> ->]; done|].
    destruct (Z.leb_spec (m_hi (st_mem st) + BLOCK_SIZE + s) (limit st)).
    + intros (? & -> & ? & ? & ?). cbn. split_and!; try done. lia.
    + intros (? & -> & Em & ?). rewrite Em. cbn. done.
  - rewrite wp_bind. eapply wp_mono; [by apply myfree_spec|]. intros [] st' (? & ? & ? & ?). rewrite wp_ret.
    cbn. split_and!; try done. lia.
Qed.

Lemma code_run_spec ops : forall st bs lo lim,
  heap_ok st bs -> m_lo (st_mem st) = lo -> limit st = lim -> m_hi (st_mem st) <= lim ->
  ops_ok lo lim bs ops ->
  wp (code_run lo lim bs ops) (fun rs st' => rs = fst (spec_run lo lim bs ops) /\
    heap_ok st' (snd (spec_run lo lim bs ops))) st.
Proof.
  induction ops as [|o ops IH]; intros st bs lo lim Hok Hlo Hlim Hhi Ho; cbn [code_run spec_run]; [by rewrite wp_ret|].
  destruct Ho as [Ho Hos]. rewrite wp_bind. eapply wp_mono; [by apply code_step_spec|].
  intros r st1 (-> & Hok1 & Hlo1 & Hlim1 & Hhi1). rewrite wp_bind.
  eapply wp_mono; [by apply IH|]. intros rs st2 [-> Hok2]. rewrite wp_ret.
  destruct (spec_step lo lim bs o) as [r bs']. cbn [fst snd] in *.
  destruct (spec_run lo lim bs' ops) as [rs' bs'']. done.
Qed.

(** Writing inside the user bytes of block [k]. *)
Lemma tiled_user m m' bs : forall a k sz fr,
  tiled m a bs -> bs !! k = Some (sz, fr) -> m_hi m' = m_hi m ->
  (forall x, ~ range (addr a bs k + BLOCK_SIZE) sz x -> rd m' x = rd m x) -> tiled m' a bs.
Proof.
  induction bs as [|[sz0 fr0] bs IH]; intros a k sz fr Ht Hk Hhi Hs; [done|].
  destruct Ht as (Hsz & Hh & Ht). cbn [tiled]. split; [done|]. destruct k as [|k].
  - injection Hk as <- <-. unfold addr in Hs. cbn [take total] in Hs. rewrite Z.add_0_r in Hs. split.
    + apply (hdr_ext m); [|done]. intros x Hx. apply Hs. unfold range in *. lia.
    + assert (Hrest : forall bs a', a + BLOCK_SIZE + sz0 <= a' -> tiled m a' bs -> tiled m' a' bs).
      { clear - Hs Hhi. induction bs as [|[sz fr] bs IH]; intros a' Ha Ht; [cbn [tiled] in *; congruence|].
        destruct Ht as (? & Hh & Ht). cbn [tiled]. split; [done|]. split.
        - apply (hdr_ext m); [|done]. unfold range in *. intros x Hx. apply Hs. lia.
        - apply IH; [unfold BLOCK_SIZE in *; lia|done]. }
      apply Hrest; [lia|done].
  - assert (Ea : addr a ((sz0, fr0) :: bs) (S k) = addr (a + BLOCK_SIZE + sz0) bs k) by (unfold addr; cbn [take total]; lia).
    change (bs !! k = Some (sz, fr)) in Hk. rewrite Ea in Hs. pose proof (addr_range _ _ _ k Ht ltac:(by apply lookup_lt_Some in Hk)) as Hr. split.
    + apply (hdr_ext m); [|done]. intros x Hx. apply Hs. unfold range, BLOCK_SIZE in *. lia.
    + by eapply IH.
Qed.

Lemma first_fit_fits s bs k : first_fit s bs = Some k -> exists sz, bs !! k = Some (sz, true) /\ s <= sz.
Proof.
  revert k. induction bs as [|[sz fr] bs IH]; intros k H; simpl in H; [done|].
  destruct ((sz <? s) || negb fr) eqn:E.
  - destruct (first_fit s bs) as [j|]; [|done]. injection H as <-. apply (IH j eq_refl).
  - injection H as <-. exists sz. destruct fr; [|by rewrite orb_true_r in E]. split; [done|]. lia.
Qed.

Lemma addr_end m a bs k sz fr :
  tiled m a bs -> bs !! k = Some (sz, fr) -> addr a bs k + BLOCK_SIZE + sz <= m_hi m.
Proof.
  intros Ht Hk. pose proof (lookup_lt_Some _ _ _ Hk). pose proof (tiled_drop m a bs k Ht ltac:(lia)) as Hd.
  rewrite (drop_S _ _ _ Hk) in Hd. destruct Hd as (_ & _ & Hd). pose proof (tiled_total _ _ _ Hd).
  pose proof (total_nonneg _ _ _ Hd). lia.
Qed.

Lemma addr_snoc a bs b : addr a (bs ++ [b]) (length bs) = a + total bs.
Proof. unfold addr. by rewrite take_app_length. Qed.

(** memset of [n] user bytes of block [k]. *)
Lemma clear_block st bs k sz fr n :
  heap_ok st bs -> bs !! k = Some (sz, fr) -> 0 <= n <= sz ->
  wp (on_mem (memset (addr (m_lo (st_mem st)) bs k + BLOCK_SIZE) 0 (Z.to_nat n))) (fun _ st' =>
    heap_ok st' bs /\
    forall x, range (addr (m_lo (st_mem st)) bs k + BLOCK_SIZE) n x -> rd (st_mem st') x = 0) st.
Proof.
  intros (Hlo & Hhi & Hlim & Hhead & Ht) Hk Hn. set (m := st_mem st) in *.
  pose proof (addr_range _ _ _ _ Ht ltac:(by apply lookup_lt_Some in Hk)) as Hr.
  pose proof (addr_end _ _ _ _ _ _ Ht Hk) as He. set (a := addr (m_lo m) bs k) in *.
  rewrite wp_on_mem. fold m. unfold memset. apply wp_write_bytes.
  { rewrite length_replicate. apply mapped_spec. unfold BLOCK_SIZE in *. lia. }
  pose proof (wr_list_same_but m (a + BLOCK_SIZE) (replicate (Z.to_nat n) 0)) as (Hlo' & Hhi' & Hs).
  rewrite length_replicate in Hs. split.
  - unfold heap_ok. cbn [st_mem limit head]. rewrite Hlo', Hhi'. split_and!; try done.
    eapply tiled_user; [done|done|done|]. intros x Hx. apply Hs. unfold range in *. unfold a in Hx. lia.
  - intros x Hx. cbn [st_mem]. rewrite rd_wr_list, length_replicate. unfold range in Hx.
    destruct (_ && _) eqn:E; [|lia]. rewrite lookup_replicate_2 by lia. done.
Qed.

(** ** Theorems *)

(** The block list.  Every sequence of mymalloc and myfree calls on valid
    pointers runs without a memory fault and returns exactly what the list
    specification does: the first block marked free in address order that is
    large enough, else a fresh block at the break, else NULL when the limit is
    reached; the headers in memory keep encoding the list, block after block
    from the start of the segment to the break.  In the list, as in the code,
    a block that is reused stays marked free: see [mymalloc_reuse_aliases]. *)
Theorem allocator_refines_list st bs ops :
  heap_ok st bs -> m_hi (st_mem st) <= limit st -> ops_ok (m_lo (st_mem st)) (limit st) bs ops ->
  exists st', code_run (m_lo (st_mem st)) (limit st) bs ops st =
      Ok (fst (spec_run (m_lo (st_mem st)) (limit st) bs ops), st') /\
    heap_ok st' (snd (spec_run (m_lo (st_mem st)) (limit st) bs ops)).
Proof.
  intros Hok Hhi Ho. pose proof (code_run_spec ops st bs _ _ Hok eq_refl eq_refl Hhi Ho) as H.
  apply wp_run in H as (rs & st' & -> & -> & ?). eauto.
Qed.

(** A reused block is handed out again.  mymalloc does not clear the free
    flag of a block it reuses: after p = malloc(s) and free(p), two further
    requests that fit both return p, although neither was freed. *)
Theorem mymalloc_reuse_aliases st bs s s1 s2 :
  heap_ok st bs -> Forall (fun b => snd b = false) bs ->
  m_hi (st_mem st) + BLOCK_SIZE + s <= limit st -> 0 < s < 2 ^ 62 -> 0 < s1 <= s -> 0 < s2 <= s ->
  let p := m_hi (st_mem st) + BLOCK_SIZE in
  exists st', (let! p := malloc s in do! myfree p in
               let! q1 := malloc s1 in let! q2 := malloc s2 in ret (p, q1, q2)) st =
    Ok ((p, p, p), st').
Proof.
  intros Hok Hbusy Hroom Hs Hs1 Hs2 p. pose proof Hok as (Hlo & _ & _ & _ & Ht). pose proof (tiled_total _ _ _ Ht) as Htot.
  assert (Hnone : forall t, first_fit t bs = None).
  { intros t. clear - Hbusy. induction Hbusy as [|[sz fr] bs Hb _ IH]; [done|]. cbn in *. subst fr. by rewrite orb_true_r, IH. }
  assert (Hlast : forall t, 0 < t <= s -> first_fit t (bs ++ [(s, true)]) = Some (length bs)).
  { intros t Ht'. clear - Hbusy Ht'. induction Hbusy as [|[sz fr] bs Hb _ IH]; cbn in *.
    - destruct (Z.ltb_spec s t); [lia|done].
    - subst fr. by rewrite orb_true_r, IH. }
  assert (H : wp (let! p := malloc s in do! myfree p in
               let! q1 := malloc s1 in let! q2 := malloc s2 in ret (p, q1, q2))
               (fun r _ => r = (p, p, p)) st).
  { rewrite wp_bind. eapply wp_mono; [apply mymalloc_spec; [done|unfold BLOCK_SIZE in *; lia|done]|].
    rewrite Hnone. intros r st1 [Hlim1 H1]. destruct (Z.leb_spec (m_hi (st_mem st) + BLOCK_SIZE + s) (limit st)); [|lia].
    destruct H1 as (-> & Hok1 & Hlo1 & Hhi1).
    assert (Ea : forall b, addr (m_lo (st_mem st)) (bs ++ [b]) (length bs) + BLOCK_SIZE = p).
    { intros b. rewrite addr_snoc. unfold p. lia. }
    rewrite wp_bind. replace (m_hi (st_mem st) + BLOCK_SIZE) with (addr (m_lo (st_mem st1)) (bs ++ [(s, false)]) (length bs) + BLOCK_SIZE).
    2: { rewrite Hlo1. apply Ea. }
    eapply wp_mono; [apply myfree_spec; [done|rewrite length_app; simpl; lia]|].
    rewrite alter_app_r_alt by lia. rewrite Nat.sub_diag. change (alter mark_free 0%nat [(s, false)]) with [(s, true)].
    intros [] st2 (Hok2 & Hlo2 & Hhi2 & Hlim2). rewrite wp_bind.
    eapply wp_mono; [apply mymalloc_spec; [done|lia|lia]|]. rewrite Hlast by lia. intros r st3 [-> ->].
    rewrite wp_bind. eapply wp_mono; [apply mymalloc_spec; [done|lia|lia]|]. rewrite Hlast by lia. intros r st3 [-> ->].
    rewrite wp_ret. rewrite Hlo2, Hlo1. by rewrite !Ea. }
  apply wp_run in H as (r & st' & -> & ->). eauto.
Qed.

(** mycalloc returns zeroed memory.  When the product of its arguments does
    not wrap, a non-NULL result points to that many zero bytes, and the block
    list is the one mymalloc leaves. *)
Theorem mycalloc_zeroes st bs n k :
  heap_ok st bs -> m_hi (st_mem st) <= limit st -> 0 < n * k < 2 ^ 62 ->
  exists r st', calloc n k st = Ok (r, st') /\
    r = fst (spec_step (m_lo (st_mem st)) (limit st) bs (AMalloc (n * k))) /\
    heap_ok st' (snd (spec_step (m_lo (st_mem st)) (limit st) bs (AMalloc (n * k)))) /\
    (r <> 0 -> forall x, range r (n * k) x -> rd (st_mem st') x = 0).
Proof.
  intros Hok Hhi Hn. pose proof Hok as (Hlo & _ & _ & _ & Ht). pose proof (tiled_total _ _ _ Ht) as Htot.
  pose proof (total_nonneg _ _ _ Ht) as Hnn.
  assert (H : wp (calloc n k) (fun r st' =>
    r = fst (spec_step (m_lo (st_mem st)) (limit st) bs (AMalloc (n * k))) /\
    heap_ok st' (snd (spec_step (m_lo (st_mem st)) (limit st) bs (AMalloc (n * k)))) /\
    (r <> 0 -> forall x, range r (n * k) x -> rd (st_mem st') x = 0)) st).
  { unfold mycalloc. rewrite u64_small by lia. cbv zeta. rewrite wp_bind. cbn [spec_step].
    eapply wp_mono; [by apply mymalloc_spec|]. rewrite Htot. intros r st1.
    destruct (first_fit (n * k) bs) as [j|] eqn:Ef.
    - intros [-> ->]. destruct (first_fit_fits _ _ _ Ef) as (sz & Hj & Hsz).
      pose proof (addr_range _ _ _ _ Ht (first_fit_lt _ _ _ Ef)) as Hr.
      rewrite (proj2 (Z.eqb_neq _ 0)) by (unfold BLOCK_SIZE; lia). rewrite wp_bind.
      eapply wp_mono; [apply (clear_block st bs j sz true); [done|done|lia]|].
      intros [] st2 [Hok2 Hz]. rewrite wp_ret. done.
    - intros [Hlim1 H1]. destruct (Z.leb_spec (m_hi (st_mem st) + BLOCK_SIZE + n * k) (limit st)).
      + destruct H1 as (-> & Hok1 & Hlo1 & Hhi1). cbn [fst snd].
        rewrite (proj2 (Z.eqb_neq _ 0)) by (unfold BLOCK_SIZE; lia). rewrite wp_bind.
        assert (Ea : addr (m_lo (st_mem st1)) (bs ++ [(n * k, false)]) (length bs) = m_hi (st_mem st)).
        { rewrite addr_snoc, Hlo1. lia. }
        rewrite <- Ea. eapply wp_mono.
        { apply (clear_block st1 (bs ++ [(n * k, false)]) (length bs) (n * k) false); [done| |lia].
          rewrite lookup_app_r, Nat.sub_diag by lia. done. }
        intros [] st2 [Hok2 Hz]. rewrite wp_ret. done.
      + destruct H1 as (-> & _ & Hok1). rewrite Z.eqb_refl, wp_ret. done. }
  apply wp_run in H as (r & st' & Hrun & Hr). eauto.
Qed.

(** ** Witnesses *)

Definition fresh_state : state := mk_state (Mem 1000 1000 ∅) 0 2000 (mk_stats 0 0 0).

Lemma fresh_ok : heap_ok fresh_state [].
Proof. unfold heap_ok. cbn. split_and!; try done; lia. Defined.

Lemma allocator_refines_list_witness :
  exists st', code_run 1000 2000 [] [AMalloc 10; AMalloc 20; AFree 0; AMalloc 5; AMalloc 5000] fresh_state =
    Ok ([1024; 1058; 0; 1024; 0], st') /\ heap_ok st' [(10, true); (20, false)].
Proof.
  exact (allocator_refines_list fresh_state [] [AMalloc 10; AMalloc 20; AFree 0; AMalloc 5; AMalloc 5000]
    fresh_ok ltac:(cbn; lia) ltac:(vm_compute; repeat split; repeat constructor)).
Defined.

Lemma mymalloc_reuse_aliases_witness :
  exists st', (let! p := malloc 16 in do! myfree p in
               let! q1 := malloc 8 in let! q2 := malloc 16 in ret (p, q1, q2)) fresh_state =
    Ok ((1024, 1024, 1024), st').
Proof.
  exact (mymalloc_reuse_aliases fresh_state [] 16 8 16 fresh_ok (Forall_nil_2 _)
    ltac:(cbn; unfold BLOCK_SIZE; lia) ltac:(lia) ltac:(lia) ltac:(lia)).
Defined.

Lemma mycalloc_zeroes_witness :
  exists r st', calloc 3 4 fresh_state = Ok (r, st') /\ r = 1024 /\ heap_ok st' [(12, false)] /\
    (r <> 0 -> forall x, range r 12 x -> rd (st_mem st') x = 0).
Proof. exact (mycalloc_zeroes fresh_state [] 3 4 fresh_ok ltac:(cbn; lia) ltac:(lia)). Defined.
End Malloc.
