(* ===== verification/Conc.v ===== *)
(** * Conc: threads over shared memory

    Programs that read and write single locations of a shared memory and fork
    two threads that are joined later (pthread_create and pthread_join), with
    the interleaving semantics and a sequential one.  The main theorem: when
    the threads of every fork stay inside disjoint sets of locations, every
    schedule terminates without a fault in the memory of the sequential run. *)
From stdpp Require Import base list gmap.
From Stdlib Require Import ZArith Lia.
From S2P Require Import Prelude.

Section conc.
Context {L : Type} `{Countable L}.

Inductive prog :=
  | Done
  | Crash (f : fault)
  | Read (l : L) (k : Z -> prog)
  | Write (l : L) (v : Z) (k : prog)
  | Par (p q k : prog).   (* fork p and q, join both, continue with k *)

Fixpoint seq (p q : prog) : prog :=
  match p with
  | Done => q
  | Crash f => Crash f
  | Read l k => Read l (fun v => seq (k v) q)
  | Write l v k => Write l v (seq k q)
  | Par p1 p2 k => Par p1 p2 (seq k q)
  end.

(** One step of one thread. *)
Inductive step : prog * gmap L Z -> prog * gmap L Z -> Prop :=
  | step_read l k v m : m !! l = Some v -> step (Read l k, m) (k v, m)
  | step_write l v k m : is_Some (m !! l) -> step (Write l v k, m) (k, <[l := v]> m)
  | step_left p q k m p' m' : step (p, m) (p', m') -> step (Par p q k, m) (Par p' q k, m')
  | step_right p q k m q' m' : step (q, m) (q', m') -> step (Par p q k, m) (Par p q' k, m')
  | step_join k m : step (Par Done Done k, m) (k, m).

(** The sequential run: the first thread before the second. *)
Fixpoint run (p : prog) (m : gmap L Z) : res (gmap L Z) :=
  match p with
  | Done => Ok m
  | Crash f => Err f
  | Read l k => match m !! l with Some v => run (k v) m | None => Err OutOfBounds end
  | Write l v k => match m !! l with Some _ => run k (<[l := v]> m) | None => Err OutOfBounds end
  | Par p q k =>
      match run p m with
      | Ok m => match run q m with Ok m => run k m | Err f => Err f end
      | Err f => Err f
      end
  end.

(** [ok F p]: [p] never crashes, touches only locations in [F], and the two
    threads of every fork have disjoint sets of locations. *)
Fixpoint ok (F : L -> Prop) (p : prog) : Prop :=
  match p with
  | Done => True
  | Crash _ => False
  | Read l k => F l /\ forall v, ok F (k v)
  | Write l _ k => F l /\ ok F k
  | Par p q k =>
      (exists F1 F2 : L -> Prop, (forall l, F1 l -> F l) /\ (forall l, F2 l -> F l) /\
         (forall l, F1 l -> F2 l -> False) /\ ok F1 p /\ ok F2 q) /\ ok F k
  end.

(** ** Lemmas *)

Lemma run_seq p q m : run (seq p q) m = match run p m with Ok m => run q m | Err f => Err f end.
Proof.
  revert m. induction p as [|f|l k IH|l v k IH|p1 IH1 p2 IH2 k IH]; intros m; simpl; try done.
  - by destruct (m !! l).
  - by destruct (m !! l).
  - destruct (run p1 m) as [m1|]; [|done]. destruct (run p2 m1) as [m2|]; [|done]. apply IH.
Qed.

Lemma ok_mono (F G : L -> Prop) p : ok F p -> (forall l, F l -> G l) -> ok G p.
Proof.
  revert F G. induction p as [|f|l k IH|l v k IH|p1 IH1 p2 IH2 k IH]; intros F G Hok HG; simpl in *; try done.
  - destruct Hok as [Hl Hk]. split; [auto|]. intros v. by apply (IH v F).
  - destruct Hok as [Hl Hk]. split; [auto|]. by apply (IH F).
  - destruct Hok as [(F1 & F2 & H1 & H2 & H3 & H4 & H5) Hk]. split; [|by apply (IH F)].
    exists F1, F2. split_and!; auto.
Qed.

Lemma ok_seq F p q : ok F p -> ok F q -> ok F (seq p q).
Proof.
  revert F. induction p as [|f|l k IH|l v k IH|p1 IH1 p2 IH2 k IH]; intros F Hp Hq; simpl in *; try done.
  - destruct Hp. split; [done|]. auto.
  - destruct Hp. split; [done|]. auto.
  - destruct Hp as [? Hk]. split; [done|]. auto.
Qed.

(** A run inside [F]: it succeeds when [F] is in the memory, keeps the domain
    and what is outside [F], and does not depend on what is outside. *)
Lemma run_frame p : forall F m, ok F p -> (forall l, F l -> is_Some (m !! l)) ->
  exists m', run p m = Ok m' /\ (forall l, is_Some (m' !! l) <-> is_Some (m !! l)) /\
    (forall l, ~ F l -> m' !! l = m !! l) /\
    forall l v, ~ F l -> run p (<[l := v]> m) = Ok (<[l := v]> m').
Proof.
  induction p as [|f|l k IH|l v k IH|p1 IH1 p2 IH2 k IH]; intros F m Hok Hdom; simpl in Hok.
  - exists m. done.
  - done.
  - destruct Hok as [Hl Hk]. destruct (Hdom l Hl) as [v Hv]. simpl. rewrite Hv.
    destruct (IH v F m (Hk v) Hdom) as (m' & Hrun & Hd & Hs & Hf). exists m'. split_and!; try done.
    intros l' v' Hl'. rewrite lookup_insert_ne, Hv by (intros ->; auto). by apply Hf.
  - destruct Hok as [Hl Hk]. destruct (Hdom l Hl) as [w Hw]. simpl. rewrite Hw.
    assert (Hdom' : forall l', is_Some (<[l := v]> m !! l') <-> is_Some (m !! l')).
    { intros l'. destruct (decide (l' = l)) as [->|]; [rewrite lookup_insert_eq, Hw; split; eauto|].
      by rewrite lookup_insert_ne. }
    destruct (IH F (<[l := v]> m) Hk) as (m' & Hrun & Hd & Hs & Hf).
    { intros l' Hl'. apply Hdom'. auto. }
    exists m'. split; [done|]. split; [intros l'; by rewrite Hd, Hdom'|]. split.
    + intros l' Hl'. rewrite Hs by done. apply lookup_insert_ne. intros ->. auto.
    + intros l' v' Hl'. assert (l <> l') by (intros ->; auto). rewrite lookup_insert_ne, Hw by done.
      rewrite insert_insert_ne by done. by apply Hf.
  - destruct Hok as [(F1 & F2 & H1 & H2 & H3 & H4 & H5) Hk]. simpl.
    destruct (IH1 F1 m H4) as (m1 & Hr1 & Hd1 & Hs1 & Hf1); [auto|]. rewrite Hr1.
    destruct (IH2 F2 m1 H5) as (m2 & Hr2 & Hd2 & Hs2 & Hf2); [intros l Hl; apply Hd1; auto|]. rewrite Hr2.
    destruct (IH F m2 Hk) as (m3 & Hr3 & Hd3 & Hs3 & Hf3); [intros l Hl; apply Hd2, Hd1; auto|].
    exists m3. split; [done|]. split; [intros l; by rewrite Hd3, Hd2, Hd1|]. split.
    + intros l Hl. rewrite Hs3, Hs2, Hs1; auto.
    + intros l v Hl. rewrite Hf1 by auto. rewrite Hf2 by auto. by apply Hf3.
Qed.

(** A step writes at most one location. *)
Definition upd (u : option (L * Z)) (m : gmap L Z) : gmap L Z :=
  match u with Some (l, v) => <[l := v]> m | None => m end.

(** A step stays inside [F], and the sequential run from any memory that agrees
    on [F] gives the same result before and after it. *)
Lemma step_run c c' : step c c' -> forall F,
  ok F c.1 -> (forall l, F l -> is_Some (c.2 !! l)) ->
  exists u, c'.2 = upd u c.2 /\ (forall l v, u = Some (l, v) -> F l) /\ ok F c'.1 /\
    forall m1, (forall l, F l -> m1 !! l = c.2 !! l) -> run c.1 m1 = run c'.1 (upd u m1).
Proof.
  induction 1 as [l k v m Hl|l v k m [w Hw]|p q k m p' m' Hst IH|p q k m q' m' Hst IH|k m]; intros F Hok Hdom; simpl in *.
  - destruct Hok as [HF Hk]. exists None. split_and!; try done. intros m1 Hm. simpl. by rewrite (Hm l HF), Hl.
  - destruct Hok as [HF Hk]. exists (Some (l, v)). split_and!; try done; [by intros l' v' [= -> ->]|].
    intros m1 Hm. simpl. by rewrite (Hm l HF), Hw.
  - destruct Hok as [(F1 & F2 & H1 & H2 & H3 & H4 & H5) Hk].
    destruct (IH F1 H4) as (u & Hu & HuF & Hok' & Hr); [auto|]. exists u. split; [done|]. split; [eauto|]. split.
    + split; [|done]. exists F1, F2. split_and!; done.
    + intros m1 Hm. rewrite (Hr m1); [done|]. auto.
  - destruct Hok as [(F1 & F2 & H1 & H2 & H3 & H4 & H5) Hk].
    destruct (IH F2 H5) as (u & Hu & HuF & Hok' & Hr); [auto|]. exists u. split; [done|]. split; [eauto|]. split.
    + split; [|done]. exists F1, F2. split_and!; done.
    + intros m1 Hm.
      destruct (run_frame p F1 m1 H4) as (m2 & Hp & _ & Hs & Hf); [intros l Hl; rewrite Hm by auto; auto|].
      rewrite Hp. assert (Hp' : run p (upd u m1) = Ok (upd u m2)).
      { destruct u as [[l v]|]; [|done]. apply Hf. intros HF1. by apply (H3 l); [|apply (HuF l v)]. }
      rewrite Hp'. rewrite (Hr m2); [done|]. intros l Hl. rewrite Hs; [by apply Hm; auto|].
      intros HF1. by apply (H3 l).
  - exists None. split_and!; try done. by destruct Hok.
Qed.

(** Programs that can still move, whatever the memory holds. *)
Inductive moves : prog -> prog -> Prop :=
  | moves_read l k v : moves (Read l k) (k v)
  | moves_write l v k : moves (Write l v k) k
  | moves_left p q k p' : moves p p' -> moves (Par p q k) (Par p' q k)
  | moves_right p q k q' : moves q q' -> moves (Par p q k) (Par p q' k)
  | moves_join k : moves (Par Done Done k) k.

Lemma step_moves c c' : step c c' -> moves c.1 c'.1.
Proof. induction 1; by constructor. Qed.

(** Every program stops: no infinite sequence of steps. *)
Lemma moves_wf p : Acc (fun y x => moves x y) p.
Proof.
  induction p as [|f|l k IH|l v k IH|p IHp q IHq k IHk].
  - constructor. intros y Hy. inversion Hy.
  - constructor. intros y Hy. inversion Hy.
  - constructor. intros y Hy. inversion Hy; subst. apply IH.
  - constructor. intros y Hy. inversion Hy; subst. done.
  - revert q IHq. induction IHp as [p Hp IH1]. intros q IHq. induction IHq as [q Hq IH2].
    constructor. intros y Hy. inversion Hy; subst; [|by apply IH2|done].
    apply IH1; [done|]. by constructor.
Qed.

Lemma progress p : forall F m, ok F p -> (forall l, F l -> is_Some (m !! l)) ->
  p = Done \/ exists c', step (p, m) c'.
Proof.
  induction p as [|f|l k IH|l v k IH|p1 IH1 p2 IH2 k IH]; intros F m Hok Hdom; simpl in Hok; try done.
  - by left.
  - destruct Hok as [Hl _]. destruct (Hdom l Hl) as [v Hv]. right. eexists. by constructor.
  - destruct Hok as [Hl _]. right. eexists. constructor. auto.
  - destruct Hok as [(F1 & F2 & H1 & H2 & H3 & H4 & H5) Hk]. right.
    destruct (IH1 F1 m H4 ltac:(auto)) as [->|[[p' m'] Hs]]; [|eexists; by apply step_left].
    destruct (IH2 F2 m H5 ltac:(auto)) as [->|[[q' m'] Hs]]; [|eexists; by apply step_right].
    eexists. apply step_join.
Qed.

(** Along any schedule, a program in [F] keeps its sequential result. *)
Lemma steps_run c c' : rtc step c c' -> forall F,
  ok F c.1 -> (forall l, F l -> is_Some (c.2 !! l)) ->
  ok F c'.1 /\ (forall l, F l -> is_Some (c'.2 !! l)) /\ run c'.1 c'.2 = run c.1 c.2.
Proof.
  induction 1 as [c|c c1 c2 Hst _ IH]; intros F Hok Hdom; [done|].
  destruct (step_run c c1 Hst F Hok Hdom) as (u & Hu & HuF & Hok1 & Hr).
  destruct (IH F Hok1) as (Hok2 & Hdom2 & Hr2).
  { intros l Hl. rewrite Hu. destruct u as [[l' v]|]; [|by apply Hdom]. simpl.
    destruct (decide (l = l')) as [->|]; [rewrite lookup_insert_eq; eauto|]. rewrite lookup_insert_ne by done. auto. }
  split_and!; [done|done|]. rewrite Hr2, Hu. symmetry. by apply Hr.
Qed.

(** Every maximal schedule ends in [Done] with the memory of the run. *)
Lemma schedules_agree F p m :
  ok F p -> (forall l, F l -> is_Some (m !! l)) ->
  exists m', run p m = Ok m' /\
    (forall c, rtc step (p, m) c -> exists c', rtc step c c' /\ c' = (Done, m')) /\
    (forall p' m1, rtc step (p, m) (p', m1) -> ~ (exists c, step (p', m1) c) -> p' = Done /\ m1 = m').
Proof.
  intros Hok Hdom. destruct (run_frame p F m Hok Hdom) as (m' & Hrun & _). exists m'. split; [done|].
  assert (Hend : forall p' m1, rtc step (p, m) (p', m1) -> ~ (exists c, step (p', m1) c) -> p' = Done /\ m1 = m').
  { intros p' m1 Hst Hno. destruct (steps_run _ _ Hst F Hok Hdom) as (Hok' & Hdom' & Hr). simpl in *.
    destruct (progress p' F m1 Hok' Hdom') as [->|Hs]; [|done]. split; [done|]. simpl in Hr. rewrite Hrun in Hr.
    by injection Hr. }
  split; [|done]. intros [p1 m1] Hst.
  assert (Hgo : forall p1, Acc (fun y x => moves x y) p1 -> forall m1, rtc step (p, m) (p1, m1) ->
    exists c', rtc step (p1, m1) c' /\ c' = (Done, m')).
  { induction 1 as [p2 _ IH]. intros m2 Hst2. destruct (steps_run _ _ Hst2 F Hok Hdom) as (Hok' & Hdom' & Hr).
    destruct (progress p2 F m2 Hok' Hdom') as [->|[[p3 m3] Hs]].
    - exists (Done, m2). split; [constructor|]. simpl in Hr. rewrite Hrun in Hr. by injection Hr as ->.
    - destruct (IH p3 (step_moves _ _ Hs) m3) as (c' & Hc & ->).
      { eapply rtc_r; [exact Hst2|exact Hs]. }
      exists (Done, m'). split; [|done]. by eapply rtc_l. }
  apply Hgo; [apply moves_wf|done].
Qed.
End conc.

Arguments prog L : clear implicits.
