(* ===== verification/MergeSort.v ===== *)
(** * MergeSort: Concurrent Sorting/msort.c and tmsort.c

    Merge sort over two arrays that swap roles at every level.  The arrays are
    the shared memory of [Conc]: location [(a, i)] is element [i] of array
    [a], with [false] for the input and [true] for the result.  msort.c is the
    sequential version; tmsort.c forks a thread for the left half while
    [thread_count] is above one.  Signed overflow of the index and thread
    count arithmetic is a fault.  Thread creation is assumed to succeed. *)
From stdpp Require Import base list gmap sorting.
From Stdlib Require Import ZArith Lia.
From S2P Require Import Prelude Conc.

Module MergeSort.

Abbreviation loc := (bool * Z)%type.

(** ** Shared code *)

(** memmove of [n] elements between different arrays. *)
Fixpoint copy (n : nat) (nums : bool) (src : Z) (target : bool) (dst : Z) : prog loc :=
  match n with
  | O => Done
  | S n => Read (nums, src) (fun v => Write (target, dst) v (copy n nums (src + 1) target (dst + 1)))
  end.

(** What merge does after its loop. *)
Definition merge_rest (nums target : bool) (mid to left right i : Z) : prog loc :=
  if left <? mid then copy (Z.to_nat (mid - left)) nums left target i
  else if right <? to then copy (Z.to_nat (to - right)) nums right target i
  else Done.

(** [(from + to) / 2] on ints. *)
Definition with_mid (from to : Z) (k : Z -> prog loc) : prog loc :=
  if int_range (from + to) then k (Z.quot (from + to) 2) else Crash SignedOverflow.

(** ** msort.c *)

Fixpoint merge_loop (fuel : nat) (nums target : bool) (mid to left right i : Z) : prog loc :=
  match fuel with
  | O => Crash OutOfFuel
  | S fuel =>
      if (i <? to) && (left <? mid) && (right <? to) then
        Read (nums, left) (fun x => Read (nums, right) (fun y =>
          if x <=? y
          then Read (nums, left) (fun v => Write (target, i) v
                 (merge_loop fuel nums target mid to (left + 1) right (i + 1)))
          else Read (nums, right) (fun v => Write (target, i) v
                 (merge_loop fuel nums target mid to left (right + 1) (i + 1)))))
      else merge_rest nums target mid to left right i
  end.

(** Each iteration stores one element. *)
Definition merge (nums : bool) (from mid to : Z) (target : bool) : prog loc :=
  merge_loop (S (Z.to_nat (to - from))) nums target mid to from mid from.

(** Slices shrink at every call; [fuel] bounds their length. *)
Fixpoint merge_sort_aux (fuel : nat) (nums : bool) (from to : Z) (target : bool) : prog loc :=
  match fuel with
  | O => Crash OutOfFuel
  | S fuel =>
      if to - from <=? 1 then Done
      else with_mid from to (fun mid =>
        seq (merge_sort_aux fuel target from mid nums)
            (seq (merge_sort_aux fuel target mid to nums)
                 (merge nums from mid to target)))
  end.

Definition sort_fuel (count : Z) : nat := S (Z.to_nat count).

(** [alloc_ok] tells whether calloc gives the result array. *)
Definition merge_sort (alloc_ok : bool) (count : Z) : prog loc :=
  if alloc_ok then
    seq (copy (Z.to_nat count) false 0 true 0)
        (merge_sort_aux (sort_fuel count) false 0 count true)
  else Crash AssertFail.

(** ** tmsort.c *)

Module Threaded.

Fixpoint merge_loop (fuel : nat) (nums target : bool) (mid to left right i : Z) : prog loc :=
  match fuel with
  | O => Crash OutOfFuel
  | S fuel =>
      if (left <? mid) && (right <? to) then
        Read (nums, left) (fun x => Read (nums, right) (fun y =>
          if x <=? y
          then Read (nums, left) (fun v => Write (target, i) v
                 (merge_loop fuel nums target mid to (left + 1) right (i + 1)))
          else Read (nums, right) (fun v => Write (target, i) v
                 (merge_loop fuel nums target mid to left (right + 1) (i + 1)))))
      else merge_rest nums target mid to left right i
  end.

Definition merge (nums : bool) (from mid to : Z) (target : bool) : prog loc :=
  merge_loop (S (Z.to_nat (to - from))) nums target mid to from mid from.

(** The forked thread runs merge_sort_aux_threaded on the left half. *)
Fixpoint merge_sort_aux (fuel : nat) (nums : bool) (from to : Z) (target : bool)
    (thread_count : Z) : prog loc :=
  match fuel with
  | O => Crash OutOfFuel
  | S fuel =>
      if to - from <=? 1 then Done
      else with_mid from to (fun mid =>
        if thread_count <=? 1 then
          seq (merge_sort_aux fuel target from mid nums 1)
              (seq (merge_sort_aux fuel target mid to nums 1)
                   (merge nums from mid to target))
        else if int_range (thread_count + 1) then
          Par (merge_sort_aux fuel target from mid nums (Z.quot thread_count 2))
              (merge_sort_aux fuel target mid to nums (Z.quot (thread_count + 1) 2))
              (merge nums from mid to target)
        else Crash SignedOverflow)
  end.

Definition merge_sort (alloc_ok : bool) (count thread_count : Z) : prog loc :=
  if alloc_ok then
    seq (copy (Z.to_nat count) false 0 true 0)
        (merge_sort_aux (sort_fuel count) false 0 count true thread_count)
  else Crash AssertFail.
End Threaded.

(** The memory when merge_sort is called: the input and a zeroed result. *)
Definition init_mem (l : list Z) : gmap loc Z :=
  list_to_map (imap (fun k x => ((false, Z.of_nat k), x)) l ++
               imap (fun k _ => ((true, Z.of_nat k), 0)) l).

(** The elements of an array. *)
Definition contents (m : gmap loc Z) (a : bool) (from : Z) (n : nat) : list Z :=
  map (fun k => default 0 (m !! (a, from + Z.of_nat k))) (List.seq 0 n).

(** ** Arrays in memory *)

(** The slice of array [a] from [from] on holds [l]. *)
Definition arr (m : gmap loc Z) (a : bool) (from : Z) (l : list Z) : Prop :=
  forall k x, l !! k = Some x -> m !! (a, from + Z.of_nat k) = Some x.

(** Locations [from] to [to - 1] of both arrays. *)
Definition slice (from to : Z) (p : loc) : Prop := from <= p.2 < to.

(** Locations from [i] to [to - 1] of one array. *)
Definition part (a : bool) (i to : Z) (p : loc) : Prop := p.1 = a /\ i <= p.2 < to.

Lemma arr_cons m a from x l : arr m a from (x :: l) <-> m !! (a, from) = Some x /\ arr m a (from + 1) l.
Proof.
  unfold arr. split.
  - intros H. split; [specialize (H O x eq_refl); by rewrite Z.add_0_r in H|].
    intros k y Hk. specialize (H (S k) y Hk). replace (from + 1 + Z.of_nat k) with (from + Z.of_nat (S k)) by lia. done.
  - intros [H0 H] [|k] y Hk; [injection Hk as <-; by rewrite Z.add_0_r|].
    specialize (H k y Hk). replace (from + Z.of_nat (S k)) with (from + 1 + Z.of_nat k) by lia. done.
Qed.

Lemma arr_app m a from l1 l2 :
  arr m a from (l1 ++ l2) <-> arr m a from l1 /\ arr m a (from + Z.of_nat (length l1)) l2.
Proof.
  revert from. induction l1 as [|x l1 IH]; intros from; cbn [app length].
  - rewrite Z.add_0_r. split; [|tauto]. intros H. split; [|done]. intros k y Hk. done.
  - rewrite !arr_cons, IH. replace (from + Z.of_nat (S (length l1))) with (from + 1 + Z.of_nat (length l1)) by lia.
    tauto.
Qed.

Lemma arr_same m m' a from to l :
  arr m a from l -> from + Z.of_nat (length l) <= to ->
  (forall i, from <= i < to -> m' !! (a, i) = m !! (a, i)) -> arr m' a from l.
Proof.
  intros H Hl Hs k x Hk. pose proof (lookup_lt_Some _ _ _ Hk). rewrite Hs by lia. by apply H.
Qed.

Lemma arr_cell m a from l j :
  arr m a from l -> from <= j < from + Z.of_nat (length l) -> is_Some (m !! (a, j)).
Proof.
  intros H Hj. destruct (lookup_lt_is_Some_2 l (Z.to_nat (j - from))) as [x Hx]; [lia|].
  apply H in Hx. replace (from + Z.of_nat (Z.to_nat (j - from))) with j in Hx by lia. eauto.
Qed.

(** ** memmove and merge *)

Lemma copy_spec n : forall m nums src target dst l,
  nums <> target -> length l = n -> arr m nums src l ->
  (forall i, dst <= i < dst + Z.of_nat n -> is_Some (m !! (target, i))) ->
  exists m', run (copy n nums src target dst) m = Ok m' /\ arr m' target dst l /\
    forall p, ~ part target dst (dst + Z.of_nat n) p -> m' !! p = m !! p.
Proof.
  induction n as [|n IH]; intros m nums src target dst l Hne Hl Ha Hd.
  - destruct l; [|done]. exists m. split; [done|]. split; [|done]. intros k x Hk. done.
  - destruct l as [|x l]; [done|]. apply arr_cons in Ha as [Hx Ha]. simpl. rewrite Hx.
    destruct (Hd dst ltac:(lia)) as [w Hw]. rewrite Hw.
    destruct (IH (<[(target, dst) := x]> m) nums (src + 1) target (dst + 1) l) as (m' & Hrun & Ha' & Hs).
    + done.
    + simpl in Hl. lia.
    + intros k y Hk. rewrite lookup_insert_ne by congruence. by apply Ha.
    + intros i Hi. rewrite lookup_insert_ne by (intros [= <-]; lia). apply Hd. lia.
    + exists m'. split; [done|]. split.
      * apply arr_cons. split; [|done]. rewrite Hs, lookup_insert_eq; [done|]. unfold part. simpl. lia.
      * intros p Hp. rewrite Hs by (unfold part in *; intros [? ?]; apply Hp; split; [done|lia]).
        apply lookup_insert_ne. intros <-. apply Hp. unfold part. simpl. lia.
Qed.

Lemma ok_copy n : forall F nums src target dst,
  (forall i, src <= i < src + Z.of_nat n -> F (nums, i)) ->
  (forall i, dst <= i < dst + Z.of_nat n -> F (target, i)) -> ok F (copy n nums src target dst).
Proof.
  induction n as [|n IH]; intros F nums src target dst Hs Hd; simpl; [done|].
  split; [apply Hs; lia|]. intros v. split; [apply Hd; lia|]. apply IH; intros i Hi; [apply Hs|apply Hd]; lia.
Qed.

Lemma merge_loop_spec fuel : forall m nums target mid to left right i l1 l2,
  nums <> target -> arr m nums left l1 -> arr m nums right l2 ->
  left + Z.of_nat (length l1) = mid -> right + Z.of_nat (length l2) = to ->
  i + Z.of_nat (length l1) + Z.of_nat (length l2) = to ->
  (forall j, i <= j < to -> is_Some (m !! (target, j))) -> (length l1 + length l2 < fuel)%nat ->
  exists m', run (merge_loop fuel nums target mid to left right i) m = Ok m' /\
    arr m' target i (list_merge Z.le l1 l2) /\
    forall p, ~ part target i to p -> m' !! p = m !! p.
Proof.
  induction fuel as [|fuel IH]; intros m nums target mid to left right i l1 l2 Hne Ha1 Ha2 Hl1 Hl2 Hi Hd Hfuel; [lia|].
  cbn [merge_loop]. destruct l1 as [|x l1].
  { simpl in Hl1, Hi. assert (Ec : (i <? to) && (left <? mid) && (right <? to) = false) by lia. rewrite Ec.
    unfold merge_rest. rewrite (proj2 (Z.ltb_ge left mid)) by lia. simpl list_merge.
    destruct (Z.ltb_spec right to).
    - destruct (copy_spec (Z.to_nat (to - right)) m nums right target i l2) as (m' & ? & ? & Hs); [done|lia|done|intros j Hj; apply Hd; lia|].
      exists m'. split_and!; [done|by destruct l2|]. intros p Hp. apply Hs. by replace (i + Z.of_nat (Z.to_nat (to - right))) with to by lia.
    - destruct l2; [|simpl in *; lia]. exists m. split; [done|]. split; [intros k y Hk; done|done]. }
  destruct l2 as [|y l2].
  { rewrite list_merge_nil_r. simpl in Hl1, Hl2, Hi. assert (Ec : (i <? to) && (left <? mid) && (right <? to) = false) by lia. rewrite Ec.
    unfold merge_rest. rewrite (proj2 (Z.ltb_lt left mid)) by lia.
    destruct (copy_spec (Z.to_nat (mid - left)) m nums left target i (x :: l1)) as (m' & ? & ? & Hs); [done|simpl; lia|done|intros j Hj; apply Hd; lia|].
    exists m'. split_and!; [done|done|]. intros p Hp. apply Hs. by replace (i + Z.of_nat (Z.to_nat (mid - left))) with to by lia. }
  assert (Ec : (i <? to) && (left <? mid) && (right <? to) = true) by (simpl in *; lia). rewrite Ec.
  apply arr_cons in Ha1 as [Hx Ha1]. apply arr_cons in Ha2 as [Hy Ha2].
  destruct (Hd i ltac:(simpl in *; lia)) as [w Hw]. cbn [run]. rewrite Hx. cbn [run]. rewrite Hy.
  assert (Hgo : forall v left' right' l1' l2',
    arr m nums left' l1' -> arr m nums right' l2' -> left' + Z.of_nat (length l1') = mid ->
    right' + Z.of_nat (length l2') = to -> i + 1 + Z.of_nat (length l1') + Z.of_nat (length l2') = to ->
    (length l1' + length l2' < fuel)%nat ->
    exists m', run (merge_loop fuel nums target mid to left' right' (i + 1)) (<[(target, i) := v]> m) = Ok m' /\
      arr m' target i (v :: list_merge Z.le l1' l2') /\ forall p, ~ part target i to p -> m' !! p = m !! p).
  { intros v left' right' l1' l2' H1 H2 E1 E2 E3 Hf.
    destruct (IH (<[(target, i) := v]> m) nums target mid to left' right' (i + 1) l1' l2') as (m' & Hrun & Ha & Hs); try done.
    - intros k z Hk. rewrite lookup_insert_ne by congruence. by apply H1.
    - intros k z Hk. rewrite lookup_insert_ne by congruence. by apply H2.
    - intros j Hj. rewrite lookup_insert_ne by (intros [= <-]; lia). apply Hd. lia.
    - exists m'. split; [done|]. split.
      + apply arr_cons. split; [|done]. rewrite Hs, lookup_insert_eq; [done|]. unfold part. simpl. lia.
      + intros p Hp. rewrite Hs by (unfold part in *; intros [? ?]; apply Hp; split; [done|lia]).
        apply lookup_insert_ne. intros <-. apply Hp. unfold part. simpl in *. lia. }
  simpl in Hl1, Hl2, Hi, Hfuel. destruct (Z.leb_spec x y) as [Hle|Hgt].
  - cbn [run]. rewrite Hx. cbn [run]. rewrite Hw. cbn [list_merge]. rewrite decide_True by done.
    apply (Hgo x (left + 1) right l1 (y :: l2)); [done|by apply arr_cons|..]; simpl; lia.
  - cbn [run]. rewrite Hy. cbn [run]. rewrite Hw. cbn [list_merge]. rewrite decide_False by lia.
    apply (Hgo y left (right + 1) (x :: l1) l2); [by apply arr_cons|done|..]; simpl; lia.
Qed.

Lemma ok_merge_rest F nums target mid to left right i from :
  from <= left <= mid -> mid <= right <= to -> i = left + right - mid -> from <= mid ->
  (forall a j, from <= j < to -> F (a, j)) -> ok F (merge_rest nums target mid to left right i).
Proof.
  intros Hl Hr Hi Hm HF. unfold merge_rest. destruct (Z.ltb_spec left mid).
  - apply ok_copy; intros j Hj; apply HF; lia.
  - destruct (Z.ltb_spec right to); [|done]. apply ok_copy; intros j Hj; apply HF; lia.
Qed.

(** Both versions of the loop, at once: [strict] tells whether [i < to] is
    tested. *)
Lemma ok_merge_loop fuel : forall F nums target mid to left right i from,
  from <= left <= mid -> mid <= right <= to -> i = left + right - mid ->
  (forall a j, from <= j < to -> F (a, j)) -> (Z.to_nat (to - i) < fuel)%nat ->
  ok F (merge_loop fuel nums target mid to left right i) /\
  ok F (Threaded.merge_loop fuel nums target mid to left right i) /\
  forall m, run (Threaded.merge_loop fuel nums target mid to left right i) m =
            run (merge_loop fuel nums target mid to left right i) m.
Proof.
  induction fuel as [|fuel IH]; intros F nums target mid to left right i from Hl Hr Hi HF Hfuel; [lia|].
  cbn [merge_loop Threaded.merge_loop].
  assert (Ec : (i <? to) && (left <? mid) && (right <? to) = (left <? mid) && (right <? to)) by lia. rewrite Ec.
  destruct ((left <? mid) && (right <? to)) eqn:E.
  2: { split; [|split; [|done]]; apply (ok_merge_rest F nums target mid to left right i from); lia || done. }
  destruct (IH F nums target mid to (left + 1) right (i + 1) from) as (A1 & A2 & A3); [lia|lia|lia|done|lia|].
  destruct (IH F nums target mid to left (right + 1) (i + 1) from) as (B1 & B2 & B3); [lia|lia|lia|done|lia|].
  split_and!.
  - split; [apply HF; lia|]. intros x. split; [apply HF; lia|]. intros y.
    destruct (x <=? y); (split; [apply HF; lia|]); intros v; (split; [apply HF; lia|done]).
  - split; [apply HF; lia|]. intros x. split; [apply HF; lia|]. intros y.
    destruct (x <=? y); (split; [apply HF; lia|]); intros v; (split; [apply HF; lia|done]).
  - intros m. cbn [run]. destruct (m !! (nums, left)) as [x|] eqn:Ex; [|done].
    destruct (m !! (nums, right)) as [y|] eqn:Ey; [|done].
    destruct (x <=? y); cbn [run]; rewrite ?Ex, ?Ey; (destruct (m !! (target, i)); [|done]); auto.
Qed.

Lemma ok_merge F nums from mid to target :
  from <= mid <= to -> (forall a j, from <= j < to -> F (a, j)) ->
  ok F (merge nums from mid to target) /\ ok F (Threaded.merge nums from mid to target) /\
  forall m, run (Threaded.merge nums from mid to target) m = run (merge nums from mid to target) m.
Proof.
  intros Hm HF. apply (ok_merge_loop _ F nums target mid to from mid from from); [lia|lia|lia|done|lia].
Qed.

(** ** The recursion *)

Lemma mid_bounds from to : 0 <= from -> 1 < to - from -> from < Z.quot (from + to) 2 < to.
Proof.
  intros Hf Ht. rewrite Z.quot_div_nonneg by lia.
  pose proof (Z.div_mod (from + to) 2 ltac:(lia)). pose proof (Z.mod_pos_bound (from + to) 2 ltac:(lia)). lia.
Qed.

Lemma int_sum from to : 0 <= from -> from < to -> to <= 2 ^ 30 -> int_range (from + to) = true.
Proof. intros. apply int_range_spec. unfold INT_MIN, INT_MAX. lia. Qed.

Lemma ok_aux fuel : forall nums from to target,
  0 <= from -> to <= 2 ^ 30 -> (Z.to_nat (to - from) < fuel)%nat ->
  ok (slice from to) (merge_sort_aux fuel nums from to target).
Proof.
  induction fuel as [|fuel IH]; intros nums from to target Hf Ht Hfuel; [lia|].
  cbn [merge_sort_aux]. destruct (Z.leb_spec (to - from) 1); [done|]. unfold with_mid.
  rewrite int_sum by lia. pose proof (mid_bounds from to Hf ltac:(lia)) as Hm.
  set (mid := Z.quot (from + to) 2) in *. apply ok_seq; [|apply ok_seq].
  - eapply ok_mono; [apply IH; lia|]. unfold slice. intros p Hp. lia.
  - eapply ok_mono; [apply IH; lia|]. unfold slice. intros p Hp. lia.
  - apply ok_merge; [lia|]. done.
Qed.

(** The threaded version: its locations, and its sequential run. *)
Lemma ok_threaded fuel : forall nums from to target tc,
  0 <= from -> to <= 2 ^ 30 -> (Z.to_nat (to - from) < fuel)%nat -> tc < INT_MAX ->
  ok (slice from to) (Threaded.merge_sort_aux fuel nums from to target tc) /\
  forall m, run (Threaded.merge_sort_aux fuel nums from to target tc) m =
            run (merge_sort_aux fuel nums from to target) m.
Proof.
  induction fuel as [|fuel IH]; intros nums from to target tc Hf Ht Hfuel Htc; [lia|].
  cbn [merge_sort_aux Threaded.merge_sort_aux]. destruct (Z.leb_spec (to - from) 1); [done|]. unfold with_mid.
  rewrite int_sum by lia. pose proof (mid_bounds from to Hf ltac:(lia)) as Hm.
  set (mid := Z.quot (from + to) 2) in *.
  destruct (ok_merge (slice from to) nums from mid to target) as (_ & Hok & Hmerge); [lia|done|].
  destruct (Z.leb_spec tc 1).
  - destruct (IH target from mid nums 1) as [A1 A2]; [lia|lia|lia|by vm_compute|].
    destruct (IH target mid to nums 1) as [B1 B2]; [lia|lia|lia|by vm_compute|]. split.
    + apply ok_seq; [|apply ok_seq; [|done]]; (eapply ok_mono; [eassumption|]); unfold slice; intros p Hp; lia.
    + intros m. rewrite !run_seq, A2. destruct (run _ m) as [m1|]; [|done]. rewrite !run_seq, B2.
      destruct (run _ m1) as [m2|]; [|done]. apply Hmerge.
  - rewrite (proj2 (int_range_spec (tc + 1))) by (unfold INT_MIN; lia).
    assert (Htc2 : Z.quot tc 2 < INT_MAX /\ Z.quot (tc + 1) 2 < INT_MAX).
    { rewrite !Z.quot_div_nonneg by lia. split; apply Z.div_lt_upper_bound; lia. }
    destruct (IH target from mid nums (Z.quot tc 2)) as [A1 A2]; [lia|lia|lia|lia|].
    destruct (IH target mid to nums (Z.quot (tc + 1) 2)) as [B1 B2]; [lia|lia|lia|lia|]. split.
    + split; [|done]. exists (slice from mid), (slice mid to). unfold slice. split_and!; try done; intros p; lia.
    + intros m. cbn [run]. rewrite !run_seq, A2. destruct (run _ m) as [m1|]; [|done]. rewrite !run_seq, B2.
      destruct (run _ m1) as [m2|]; [|done]. apply Hmerge.
Qed.

(** ** Sorting *)

Lemma aux_sorts fuel : forall m nums from to target l,
  nums <> target -> 0 <= from -> to <= 2 ^ 30 -> (Z.to_nat (to - from) < fuel)%nat ->
  Z.of_nat (length l) = to - from -> arr m nums from l -> arr m target from l ->
  exists m' l', run (merge_sort_aux fuel nums from to target) m = Ok m' /\ arr m' target from l' /\
    l' ≡ₚ l /\ Sorted Z.le l' /\ (forall p, is_Some (m' !! p) <-> is_Some (m !! p)) /\
    (forall p, ~ slice from to p -> m' !! p = m !! p).
Proof.
  induction fuel as [|fuel IH]; intros m nums from to target l Hne Hf Ht Hfuel Hl Hn Htg; [lia|].
  cbn [merge_sort_aux]. destruct (Z.leb_spec (to - from) 1).
  { exists m, l. split_and!; try done. destruct l as [|x [|y l]]; [constructor|repeat constructor|simpl in Hl; lia]. }
  unfold with_mid. rewrite int_sum by lia. pose proof (mid_bounds from to Hf ltac:(lia)) as Hm.
  set (mid := Z.quot (from + to) 2) in *. set (n := Z.to_nat (mid - from)).
  assert (Hcell : forall p, slice from to p -> is_Some (m !! p)).
  { intros [a i] Hp. unfold slice in Hp. simpl in Hp.
    assert (a = nums \/ a = target) as [->| ->] by (destruct a, nums, target; naive_solver);
      eapply arr_cell; try done; lia. }
  rewrite <- (take_drop n l) in Hn, Htg. apply arr_app in Hn as [Hn1 Hn2]. apply arr_app in Htg as [Ht1 Ht2].
  assert (Hlen1 : Z.of_nat (length (take n l)) = mid - from) by (rewrite length_take; unfold n; lia).
  assert (Hlen2 : Z.of_nat (length (drop n l)) = to - mid) by (rewrite length_drop; unfold n; lia).
  rewrite Hlen1 in Hn2, Ht2. replace (from + (mid - from)) with mid in Hn2, Ht2 by lia.
  rewrite run_seq.
  destruct (IH m target from mid nums (take n l)) as (m1 & l1 & Hr1 & Ha1 & Hp1 & Hs1 & Hd1 & Hf1); try done; [lia|lia|].
  rewrite Hr1, run_seq.
  destruct (IH m1 target mid to nums (drop n l)) as (m2 & l2 & Hr2 & Ha2 & Hp2 & Hs2 & Hd2 & Hf2); try done; try lia.
  { eapply (arr_same m m1 target mid to); [done|lia|]. intros i Hi. apply Hf1. unfold slice. simpl. lia. }
  { eapply (arr_same m m1 nums mid to); [done|lia|]. intros i Hi. apply Hf1. unfold slice. simpl. lia. }
  rewrite Hr2. pose proof (Permutation_length Hp1) as Hpl1. pose proof (Permutation_length Hp2) as Hpl2.
  destruct (merge_loop_spec (S (Z.to_nat (to - from))) m2 nums target mid to from mid from l1 l2)
    as (m3 & Hr3 & Ha3 & Hf3); try done; try lia.
  { eapply (arr_same m1 m2 nums from mid); [done|lia|]. intros i Hi. apply Hf2. unfold slice. simpl. lia. }
  { intros j Hj. apply Hd2, Hd1, Hcell. unfold slice. simpl. lia. }
  exists m3, (list_merge Z.le l1 l2). unfold merge. split; [done|]. split; [done|]. split.
  { rewrite merge_Permutation, Hp1, Hp2. by rewrite take_drop. }
  split; [by apply (Sorted_list_merge Z.le)|].
  pose proof (ok_merge (slice from to) nums from mid to target ltac:(lia) ltac:(done)) as [Hok _].
  destruct (run_frame _ _ m2 Hok) as (m3' & Hr3' & Hd3 & Hfr3 & _).
  { intros p Hp. apply Hd2, Hd1. by apply Hcell. }
  unfold merge in Hr3'. rewrite Hr3 in Hr3'. injection Hr3' as <-. split.
  - intros p. by rewrite Hd3, Hd2, Hd1.
  - intros p Hp. rewrite Hfr3 by done. rewrite Hf2, Hf1; [done|..]; unfold slice in *; lia.
Qed.

Lemma init_mem_lookup l k x :
  l !! k = Some x -> init_mem l !! (false, Z.of_nat k) = Some x /\ init_mem l !! (true, Z.of_nat k) = Some 0.
Proof.
  intros Hk. unfold init_mem.
  assert (Hkeys : NoDup (fst <$> (imap (fun k x => ((false, Z.of_nat k), x)) l ++ imap (fun k _ => ((true, Z.of_nat k), 0)) l))).
  { rewrite fmap_app, !fmap_imap. apply NoDup_app. split_and!.
    - apply NoDup_alt. intros i j y Hi Hj. rewrite list_lookup_imap in Hi, Hj.
      destruct (l !! i), (l !! j); simplify_eq/=. lia.
    - intros y (i & a & -> & _)%elem_of_lookup_imap_1 (j & b & E & _)%elem_of_lookup_imap_1. done.
    - apply NoDup_alt. intros i j y Hi Hj. rewrite list_lookup_imap in Hi, Hj.
      destruct (l !! i), (l !! j); simplify_eq/=. lia. }
  split; apply elem_of_list_to_map_1; try done; apply elem_of_app; [left|right]; apply elem_of_lookup_imap; eauto.
Qed.

Lemma contents_arr m a from l : arr m a from l -> contents m a from (length l) = l.
Proof.
  intros H. apply list_eq. intros k. unfold contents. rewrite list_lookup_fmap.
  destruct (l !! k) as [x|] eqn:E.
  - rewrite lookup_seq_lt by (by apply lookup_lt_Some in E). simpl. by rewrite (H k x E).
  - apply lookup_ge_None in E. by rewrite lookup_seq_ge by done.
Qed.

Lemma merge_sort_spec l :
  Z.of_nat (length l) <= 2 ^ 30 ->
  exists m' l', run (merge_sort true (Z.of_nat (length l))) (init_mem l) = Ok m' /\ arr m' true 0 l' /\
    l' ≡ₚ l /\ Sorted Z.le l'.
Proof.
  intros Hlen. unfold merge_sort. rewrite run_seq, Nat2Z.id.
  assert (Hin : arr (init_mem l) false 0 l) by (intros k x Hk; by apply init_mem_lookup).
  destruct (copy_spec (length l) (init_mem l) false 0 true 0 l) as (m1 & -> & Ha & Hs); try done.
  { intros i Hi. destruct (lookup_lt_is_Some_2 l (Z.to_nat i)) as [x Hx]; [lia|].
    apply init_mem_lookup in Hx as [_ Hx]. rewrite Z2Nat.id in Hx by lia. eauto. }
  destruct (aux_sorts (sort_fuel (Z.of_nat (length l))) m1 false 0 (Z.of_nat (length l)) true l)
    as (m2 & l' & -> & Ha' & Hp & Hsort & _); try done; try (unfold sort_fuel; lia).
  { intros k x Hk. rewrite Hs by (unfold part; simpl; intros [? _]; done). by apply Hin. }
  eauto 10.
Qed.

(** ** Theorems *)

(** msort.c sorts: for up to 2^30 elements merge_sort runs without fault or
    overflow and the result array is a sorted permutation of the input. *)
Theorem merge_sort_sorts l :
  Z.of_nat (length l) <= 2 ^ 30 ->
  exists m', run (merge_sort true (Z.of_nat (length l))) (init_mem l) = Ok m' /\
    contents m' true 0 (length l) ≡ₚ l /\ Sorted Z.le (contents m' true 0 (length l)).
Proof.
  intros Hlen. destruct (merge_sort_spec l Hlen) as (m' & l' & Hrun & Ha & Hp & Hs). exists m'. split; [done|].
  rewrite <- (Permutation_length Hp). by rewrite contents_arr.
Qed.

(** C6. tmsort.c sorts under every schedule.  For up to 2^30 elements and every
    thread count below INT_MAX, no interleaving of the threads of merge_sort
    faults or blocks, every execution can be completed and every completed one
    ends with the same memory, the one msort.c computes, in which the result
    array is a sorted permutation of the input. *)
Theorem threaded_merge_sort_sorts l :
  Z.of_nat (length l) <= 2 ^ 30 ->
  exists m', run (merge_sort true (Z.of_nat (length l))) (init_mem l) = Ok m' /\
    contents m' true 0 (length l) ≡ₚ l /\ Sorted Z.le (contents m' true 0 (length l)) /\
    forall thread_count, thread_count < INT_MAX ->
      let start := (Threaded.merge_sort true (Z.of_nat (length l)) thread_count, init_mem l) in
      (forall c, rtc step start c -> rtc step c (Done, m')) /\
      (forall p m1, rtc step start (p, m1) -> ~ (exists c, step (p, m1) c) -> p = Done /\ m1 = m').
Proof.
  intros Hlen. destruct (merge_sort_spec l Hlen) as (m' & l' & Hrun & Ha & Hp & Hs). exists m'. split; [done|].
  rewrite <- (Permutation_length Hp), contents_arr, (Permutation_length Hp) by done. split; [done|]. split; [done|].
  intros tc Htc start. set (n := Z.of_nat (length l)) in *.
  destruct (ok_threaded (sort_fuel n) false 0 n true tc) as [Hok Hsame]; try (unfold sort_fuel; lia).
  assert (Hok' : ok (slice 0 n) (Threaded.merge_sort true n tc)).
  { apply ok_seq; [|done]. apply ok_copy; unfold slice, n; simpl; intros i Hi; lia. }
  assert (Hdom : forall p, slice 0 n p -> is_Some (init_mem l !! p)).
  { intros [a i] Hp'. unfold slice in Hp'. simpl in Hp'. destruct (lookup_lt_is_Some_2 l (Z.to_nat i)) as [x Hx]; [lia|].
    apply init_mem_lookup in Hx as [Hx Hx']. rewrite Z2Nat.id in Hx, Hx' by lia. destruct a; eauto. }
  destruct (schedules_agree _ _ _ Hok' Hdom) as (m2 & Hrun2 & Hall & Hend).
  assert (m2 = m') as ->.
  { unfold Threaded.merge_sort in Hrun2. unfold merge_sort in Hrun. rewrite run_seq in Hrun, Hrun2.
    destruct (run (copy _ _ _ _ _) _) as [m1|]; [|done]. rewrite Hsame, Hrun in Hrun2. by injection Hrun2. }
  split; [|done]. intros c Hc. destruct (Hall c Hc) as (c' & Hc' & ->). done.
Qed.

(** ** Witnesses *)

Lemma merge_sort_sorts_witness :
  exists m', run (merge_sort true 5) (init_mem [5; 2; 9; 1; 2]) = Ok m' /\
    contents m' true 0 5 ≡ₚ [5; 2; 9; 1; 2] /\ Sorted Z.le (contents m' true 0 5).
Proof. exact (merge_sort_sorts [5; 2; 9; 1; 2] ltac:(cbn; lia)). Defined.

Lemma threaded_merge_sort_sorts_witness :
  exists m', run (merge_sort true 3) (init_mem [5; 2; 9]) = Ok m' /\
    Sorted Z.le (contents m' true 0 3) /\
    forall c, rtc step (Threaded.merge_sort true 3 4, init_mem [5; 2; 9]) c -> rtc step c (Done, m').
Proof.
  destruct (threaded_merge_sort_sorts [5; 2; 9] ltac:(cbn; lia)) as (m' & Hr & _ & Hs & Hall).
  exists m'. split; [exact Hr|]. split; [exact Hs|]. exact (proj1 (Hall 4 ltac:(by vm_compute))).
Defined.
End MergeSort.
