(* ===== verification/Cstr.v ===== *)
(** * Cstr: C strings

    A C string is the list of its characters, as unsigned byte values and
    without the terminating zero; a [char *] into a string is the suffix that
    starts there.  The functions of ctype.h and string.h that the programs call
    on such strings. *)
From stdpp Require Import base list strings.
From Stdlib Require Import ZArith Lia Ascii.
From S2P Require Import Prelude.

Definition chr (a : ascii) : Z := Z.of_N (N_of_ascii a).

(** The characters of a literal. *)
Definition str (s : string) : list Z := map chr (String.list_ascii_of_string s).

(** isspace in the C locale: space, and \t \n \v \f \r. *)
Definition isspace (c : Z) : bool := (c =? 32) || ((9 <=? c) && (c <=? 13)).

(** [strchr(s, c) != NULL] for a character other than 0. *)
Definition strchr (s : list Z) (c : Z) : bool := existsb (Z.eqb c) s.

(** [strcmp(s, t) == 0]. *)
Definition strcmp_eq (s t : list Z) : bool := bool_decide (s = t).

(** The string up to the first occurrence of [c]: [s[strcspn(s, c)] = 0]. *)
Fixpoint upto (c : Z) (s : list Z) : list Z :=
  match s with
  | [] => []
  | d :: s => if d =? c then [] else d :: upto c s
  end.

(** Characters of a string in memory are bytes other than zero. *)
Definition is_char (c : Z) : bool := (1 <=? c) && (c <=? 255).

Lemma strchr_In s c : strchr s c = true <-> In c s.
Proof.
  unfold strchr. rewrite existsb_exists. split.
  - intros (x & Hx & E). apply Z.eqb_eq in E. by subst.
  - intros. exists c. split; [done|apply Z.eqb_refl].
Qed.

Lemma strcmp_eq_true s t : strcmp_eq s t = true <-> s = t.
Proof. unfold strcmp_eq. by rewrite bool_decide_eq_true. Qed.
