(* ===== verification/Tokens.v ===== *)
(** * Tokens: the tokenizer of the shell

    Shell/tokens.c: the module's static variables as a record, the token array
    with its capacity, its NULL terminator and its uninitialised slots, the
    bounded buffer a token is read into, and the stored previous command.
    [live] counts the heap objects that are allocated; an oracle decides
    whether an allocation succeeds. *)
From stdpp Require Import base list strings.
From Stdlib Require Import ZArith Lia.
From S2P Require Import Prelude Cstr.

Module Tokens.

Definition MAX_CAP : Z := 256.
Definition MAX_TOKEN_SIZE : Z := 255.

(** A [char *] of the token array: not yet written, NULL, or a string. *)
Inductive slot :=
  | Junk
  | Null
  | Tok (s : list Z).

#[export] Instance slot_eq_dec : EqDecision slot.
Proof. solve_decision. Defined.

Record state := mk_state {
  tokens : option (list slot);
  tokens_size : Z;
  tokens_capacity : Z;
  is_tokens_initialized : bool;
  prev_command : list Z;
  live : Z;
  oracle : list bool
}.

(** The static initialisers. *)
Definition initial (orc : list bool) : state := mk_state None 0 MAX_CAP false [] 0 orc.

Definition set_tokens (a : option (list slot)) (st : state) : state :=
  mk_state a (tokens_size st) (tokens_capacity st) (is_tokens_initialized st) (prev_command st) (live st) (oracle st).
Definition set_size (n : Z) (st : state) : state :=
  mk_state (tokens st) n (tokens_capacity st) (is_tokens_initialized st) (prev_command st) (live st) (oracle st).
Definition set_capacity (n : Z) (st : state) : state :=
  mk_state (tokens st) (tokens_size st) n (is_tokens_initialized st) (prev_command st) (live st) (oracle st).
Definition set_initialized (b : bool) (st : state) : state :=
  mk_state (tokens st) (tokens_size st) (tokens_capacity st) b (prev_command st) (live st) (oracle st).
Definition set_prev (c : list Z) (st : state) : state :=
  mk_state (tokens st) (tokens_size st) (tokens_capacity st) (is_tokens_initialized st) c (live st) (oracle st).
Definition add_live (n : Z) (st : state) : state :=
  mk_state (tokens st) (tokens_size st) (tokens_capacity st) (is_tokens_initialized st) (prev_command st) (live st + n) (oracle st).
Definition set_oracle (o : list bool) (st : state) : state :=
  mk_state (tokens st) (tokens_size st) (tokens_capacity st) (is_tokens_initialized st) (prev_command st) (live st) o.

(** Whether an allocation succeeds; on failure the callers exit. *)
Definition alloc : M state bool := fun st =>
  match oracle st with
  | [] => Ok (true, st)
  | b :: rest => Ok (b, set_oracle rest st)
  end.

Definition exit {A} (code : Z) : M state A := fail (Exited code).

(** [tokens[i]] and [tokens[i] = v]. *)
Definition get_slot (i : Z) : M state slot :=
  let! a := gets tokens in
  match a with
  | None => fail NullDeref
  | Some a =>
      match znth a i with
      | None => fail OutOfBounds
      | Some Junk => fail Uninit
      | Some x => ret x
      end
  end.

Definition put_slot (i : Z) (v : slot) : M state unit :=
  let! a := gets tokens in
  match a with
  | None => fail NullDeref
  | Some a =>
      match zupd a i v with
      | None => fail OutOfBounds
      | Some a' => modify (set_tokens (Some a'))
      end
  end.

(** [free(tokens[i])]. *)
Definition free_string (v : slot) : M state unit :=
  match v with
  | Tok _ => modify (add_live (-1))
  | _ => ret tt
  end.

Definition init_tokens : M state unit :=
  let! st := get in
  if is_tokens_initialized st then ret tt else
  let! ok := alloc in
  if ok then
    do! modify (fun st => add_live 1 (set_tokens (Some (replicate (Z.to_nat (tokens_capacity st)) Junk)) st)) in
    do! put_slot 0 Null in
    modify (set_initialized true)
  else exit 1.

Definition grow_tokens : M state unit :=
  let! st := get in
  let! new_capacity := chk_int (tokens_capacity st + MAX_CAP) in
  let! ok := alloc in
  if ok then
    do! modify (set_capacity new_capacity) in
    modify (fun st => set_tokens
      (Some (default [] (tokens st) ++ replicate (Z.to_nat new_capacity - length (default [] (tokens st))) Junk)) st)
  else exit 1.

Definition tokens_full : M state bool :=
  gets (fun st => tokens_capacity st - 1 <=? tokens_size st).

Definition add_token (token : list Z) : M state unit :=
  let! full := tokens_full in
  do! (if full then grow_tokens else ret tt) in
  let! n := gets tokens_size in
  let! old := get_slot n in
  do! free_string old in
  let! ok := alloc in
  if ok then
    do! modify (add_live 1) in
    do! put_slot n (Tok token) in
    do! modify (set_size (n + 1)) in
    put_slot (n + 1) Null
  else exit 1.

(** ** Reading one token

    [put_char] is [*buf++ = c] on a buffer of [room] bytes. *)
Definition put_char (room : Z) (buf : list Z) (c : Z) : M state (list Z) :=
  if Z.of_nat (length buf) <? room then ret (buf ++ [c]) else fail OutOfBounds.

(** [*buf = '\0'], after which the buffer holds the string. *)
Definition terminate (room : Z) (buf : list Z) : M state (list Z) :=
  if Z.of_nat (length buf) <? room then ret buf else fail OutOfBounds.

(** The loop of read_string; [fuel] counts its iterations, at most two for a
    character. *)
Fixpoint read_string_from (fuel : nat) (room : Z) (input buf : list Z) (escaped : bool)
    : M state (list Z * bool) :=
  match fuel with
  | O => fail OutOfFuel
  | S fuel =>
      match input with
      | [] => ret (buf, escaped)
      | c :: rest =>
          if c =? 34 then ret (buf, escaped) else
          if escaped then
            let! buf := put_char room buf (if c =? 110 then 10 else c) in
            read_string_from fuel room rest buf false
          else if c =? 92 then read_string_from fuel room input buf true
          else
            let! buf := put_char room buf c in
            read_string_from fuel room rest buf false
      end
  end.

Definition read_string (room : Z) (input : list Z) : M state (list Z * Z) :=
  let! '(buf, escaped) := read_string_from (S (2 * length input)) room input [] false in
  if (escaped : bool) then exit 1 else
  let! s := terminate room buf in
  ret (s, u32 (Z.of_nat (length s))).

Definition is_delim (c : Z) : bool := (c =? 32) || (c =? 10) || (c =? 9) || (c =? 59).

Fixpoint read_until_space (room : Z) (input buf : list Z) : M state (list Z) :=
  match input with
  | [] => terminate room buf
  | c :: rest =>
      if is_delim c then terminate room buf else
      let! buf := put_char room buf c in
      read_until_space room rest buf
  end.

(** The characters between quotes; the result is the token and the rest of the
    line after the closing quote. *)
Fixpoint read_quoted (room quote_char : Z) (line buf : list Z) : M state (list Z * list Z) :=
  match line with
  | [] => let! s := terminate room buf in ret (s, [])
  | c :: rest =>
      if c =? quote_char then
        let! s := terminate room buf in ret (s, rest)
      else match rest with
      | d :: rest' =>
          if c =? 92 then
            if d =? quote_char then read_quoted room quote_char rest' buf
            else
              let! buf := put_char room buf (if d =? 110 then 10 else if d =? 116 then 9 else d) in
              read_quoted room quote_char rest' buf
          else
            let! buf := put_char room buf c in
            read_quoted room quote_char rest buf
      | [] =>
          let! buf := put_char room buf c in
          read_quoted room quote_char rest buf
      end
  end.

Fixpoint skip_space (line : list Z) : list Z :=
  match line with
  | [] => []
  | c :: rest => if isspace c then skip_space rest else line
  end.

(** One token of a line that starts with [c], not a space. *)
Definition next_token (c : Z) (rest : list Z) : M state (list Z * list Z) :=
  if (c =? 34) || (c =? 39) then read_quoted MAX_TOKEN_SIZE c rest []
  else if strchr (str "();|<>") c then ret ([c], rest)
  else
    let! s := read_until_space MAX_TOKEN_SIZE (c :: rest) [] in
    ret (s, drop (length s) (c :: rest)).

(** The main loop of get_tokens; every iteration reads at least a character. *)
Fixpoint read_tokens (fuel : nat) (line : list Z) (tokens_found : Z) : M state Z :=
  match fuel with
  | O => fail OutOfFuel
  | S fuel =>
      match skip_space line with
      | [] => ret tokens_found
      | c :: rest =>
          let! '(token, rest) := next_token c rest in
          do! add_token token in
          read_tokens fuel rest (u32 (tokens_found + 1))
      end
  end.

Fixpoint free_strings (n : nat) (i : Z) : M state unit :=
  match n with
  | O => ret tt
  | S n =>
      let! v := get_slot i in
      do! free_string v in
      free_strings n (i + 1)
  end.

Definition free_tokens : M state unit :=
  let! n := gets tokens_size in
  do! free_strings (Z.to_nat n) 0 in
  let! a := gets tokens in
  do! (match a with Some _ => modify (add_live (-1)) | None => ret tt end) in
  do! modify (set_tokens None) in
  do! modify (set_size 0) in
  do! modify (set_capacity MAX_CAP) in
  modify (set_initialized false).

Definition get_global_tokens : M state (option (list slot)) := gets tokens.

(** prev_command has 256 bytes; snprintf keeps 255 characters. *)
Definition set_prev_command (cmd : option (list Z)) : M state unit :=
  match cmd with
  | None => ret tt
  | Some cmd => modify (set_prev (take 255 cmd))
  end.

Definition get_prev_command : M state (list Z) := gets prev_command.

(** [strcmp(tokens[i], s) == 0]. *)
Definition token_is (i : Z) (s : list Z) : M state bool :=
  let! v := get_slot i in
  match v with
  | Tok t => ret (strcmp_eq t s)
  | _ => fail NullDeref
  end.

(** [depth] bounds the recursion on the previous command. *)
Fixpoint get_tokens (depth : nat) (line : list Z) : M state Z :=
  match depth with
  | O => fail OutOfFuel
  | S depth =>
      let! st := get in
      do! (if is_tokens_initialized st then ret tt else init_tokens) in
      let! tokens_found := read_tokens (S (length line)) line 0 in
      let! n := gets tokens_size in
      let! is_prev := (if n =? 1 then token_is 0 (str "prev") else ret false) in
      if is_prev then
        do! free_tokens in
        let! prev_cmd := get_prev_command in
        match prev_cmd with
        | [] => ret 0
        | _ => get_tokens depth prev_cmd
        end
      else ret tokens_found
  end.

(** tokenize.c: prints the tokens of the first line of its input; [None] is a
    failed fgets, after which the buffer is read uninitialised. *)
Fixpoint print_tokens (fuel : nat) (i : Z) (out : list (list Z)) : M state (list (list Z)) :=
  match fuel with
  | O => fail OutOfFuel
  | S fuel =>
      let! v := get_slot i in
      match v with
      | Tok t => print_tokens fuel (i + 1) (out ++ [t])
      | _ => ret out
      end
  end.

Definition tokenize_main (depth : nat) (input : option (list Z)) : M state (list (list Z)) :=
  do! init_tokens in
  match input with
  | None => fail Uninit
  | Some input =>
      do! get_tokens depth input in
      let! current_tokens := get_global_tokens in
      do! assert (match current_tokens with Some _ => true | None => false end) in
      let! out := print_tokens (length (default [] current_tokens)) 0 [] in
      do! free_tokens in
      ret out
  end.

(** ** The state between calls *)

Section leak.
(** Strings that have been lost and are never freed. *)
Context (leaked : Z).

(** The module holds the tokens [ws]: they fill the array from the start, NULL
    follows, and apart from leaked strings exactly theirs and the array are
    allocated. *)
Definition holds (st : state) (ws : list (list Z)) : Prop :=
  is_tokens_initialized st = true /\
  tokens_size st = Z.of_nat (length ws) /\
  live st = leaked + Z.of_nat (length ws) + 1 /\
  exists rest, tokens st = Some (map Tok ws ++ Null :: rest) /\
  tokens_capacity st = Z.of_nat (length ws + 1 + length rest).

(** The state before the first call and after free_tokens. *)
Definition emptied (st : state) : Prop :=
  is_tokens_initialized st = false /\ tokens_size st = 0 /\ live st = leaked /\
  tokens st = None /\ tokens_capacity st = MAX_CAP.

(** [m] runs to [Q], or an allocation fails and the program exits. *)
Definition runs {A} (m : M state A) (Q : A -> state -> Prop) (st : state) : Prop :=
  match m st with
  | Ok (a, st') => Q a st' /\ (oracle st = [] -> oracle st' = [])
  | Err f => f = Exited 1 /\ oracle st <> []
  end.

Section rules.
Context {A B : Type}.

Lemma runs_wp (m : M state A) Q st : oracle st = [] -> runs m Q st -> wp m Q st.
Proof. unfold runs, wp. intros Ho. destruct (m st) as [[a st']|f]; naive_solver. Qed.

Lemma runs_of_wp (m : M state A) Q st :
  wp m (fun a st' => Q a st' /\ oracle st' = oracle st) st -> runs m Q st.
Proof. unfold runs, wp. destruct (m st) as [[a st']|f]; [|done]. intros [? ->]. done. Qed.

Lemma runs_bind (m : M state A) (k : A -> M state B) Q st :
  runs m (fun a st' => runs (k a) Q st') st -> runs (bind m k) Q st.
Proof.
  unfold runs, bind. destruct (m st) as [[a st']|f]; [|done]. intros [H Ho].
  destruct (k a st') as [[b st'']|f']; naive_solver.
Qed.

(** The continuation may use that the oracle is still empty. *)
Lemma runs_bind_strong (m : M state A) (k : A -> M state B) Q st :
  runs m (fun a st' => (oracle st = [] -> oracle st' = []) -> runs (k a) Q st') st -> runs (bind m k) Q st.
Proof.
  unfold runs, bind. destruct (m st) as [[a st']|f]; [|done]. intros [H Ho].
  specialize (H Ho). destruct (k a st') as [[b st'']|f']; naive_solver.
Qed.

Lemma runs_ext (m m' : M state A) Q st : m st = m' st -> runs m' Q st -> runs m Q st.
Proof. unfold runs. by intros ->. Qed.

Lemma runs_assoc {C} (m : M state A) (k : A -> M state B) (k' : B -> M state C) Q st :
  runs (bind (bind m k) k') Q st -> runs (bind m (fun a => bind (k a) k')) Q st.
Proof. unfold runs. by rewrite bind_assoc. Qed.

Lemma runs_mono (m : M state A) (P Q : A -> state -> Prop) st :
  runs m P st -> (forall a st', P a st' -> Q a st') -> runs m Q st.
Proof. unfold runs. destruct (m st) as [[a st']|f]; naive_solver. Qed.

Lemma runs_ret (a : A) (Q : A -> state -> Prop) st : Q a st -> runs (ret a) Q st.
Proof. done. Qed.
End rules.

Lemma runs_alloc {A} (k : M state A) Q st :
  (forall o, runs k Q (set_oracle o st)) ->
  runs (let! ok := alloc in if (ok : bool) then k else exit 1) Q st.
Proof.
  intros Hk. unfold runs, bind, alloc. destruct (oracle st) as [|b o] eqn:E.
  - specialize (Hk []). unfold runs in Hk. destruct st; simpl in *; subst.
    unfold set_oracle in Hk; simpl in Hk. destruct (k _) as [[a st']|f]; naive_solver.
  - specialize (Hk o). destruct b.
    + unfold runs in Hk. destruct (k _) as [[a st']|f]; naive_solver.
    + done.
Qed.

Lemma wp_get_slot i Q st a x :
  tokens st = Some a -> znth a i = Some x -> x <> Junk ->
  wp (get_slot i) Q st <-> Q x st.
Proof.
  intros Ha Hx Hj. unfold get_slot. wp_pure. rewrite Ha, Hx. by destruct x.
Qed.

Lemma wp_put_slot i v Q st a a' :
  tokens st = Some a -> zupd a i v = Some a' ->
  wp (put_slot i v) Q st <-> Q tt (set_tokens (Some a') st).
Proof. intros Ha Hv. unfold put_slot. wp_pure. by rewrite Ha, Hv. Qed.

Lemma znth_app_at {A} (l : list A) x r : znth (l ++ x :: r) (Z.of_nat (length l)) = Some x.
Proof. apply znth_Some. split; [lia|]. rewrite Nat2Z.id. by apply list_lookup_middle. Qed.

Lemma zupd_app_at {A} (l : list A) x y r :
  zupd (l ++ x :: r) (Z.of_nat (length l)) y = Some (l ++ y :: r).
Proof.
  rewrite zupd_in by (rewrite length_app; simpl; lia). rewrite Nat2Z.id. f_equal.
  replace (length l) with (length l + 0)%nat by lia. by rewrite insert_app_r.
Qed.

Lemma init_tokens_spec st :
  emptied st -> runs init_tokens (fun _ st' => holds st' [] /\ prev_command st' = prev_command st) st.
Proof.
  intros (Hi & Hs & Hl & Ht & Hc). unfold init_tokens. apply runs_bind.
  apply runs_of_wp. wp_pure. split; [|done]. rewrite Hi.
  apply runs_alloc. intros o. apply runs_of_wp. wp_pure.
  assert (Hz : zupd (replicate (Z.to_nat MAX_CAP) Junk) 0 Null = Some (Null :: replicate 255 Junk)) by done.
  rewrite wp_put_slot; [|simpl; rewrite Hc; reflexivity|exact Hz].
  wp_pure. split; [|done]. split; [|done].
  split; [done|]. split; [done|]. split; [simpl; lia|].
  exists (replicate 255 Junk). split; [done|]. simpl. rewrite Hc. done.
Qed.

(** Room for one more token. *)
Lemma reserve_spec st ws :
  holds st ws -> Z.of_nat (length ws) < 2 ^ 30 ->
  runs (let! full := tokens_full in if full then grow_tokens else ret tt)
    (fun _ st' => prev_command st' = prev_command st /\ holds st' ws /\
       exists y rest, tokens st' = Some (map Tok ws ++ Null :: y :: rest)) st.
Proof.
  intros (Hi & Hs & Hl & rest & Ht & Hc) Hn.
  assert (Hh : holds st ws) by (repeat split; eauto).
  apply runs_bind. apply runs_of_wp. unfold tokens_full. wp_pure. split; [|done].
  rewrite Hs, Hc. case_Z.
  - unfold grow_tokens. apply runs_bind, runs_of_wp. wp_pure. split; [|done].
    assert (Hr : rest = []) by (apply length_zero_iff_nil; lia). subst rest. simpl in Hc.
    apply runs_bind, runs_of_wp. wp_pure. unfold MAX_CAP. split; [apply int_range_spec; unfold INT_MIN, INT_MAX; lia|].
    split; [|done]. apply runs_alloc. intros o. apply runs_of_wp. wp_pure. split; [|done].
    set (new := replicate _ Junk).
    assert (Hnew : length new = 256%nat).
    { unfold new. rewrite length_replicate. simpl. rewrite Ht. simpl. rewrite length_app, length_map. simpl. lia. }
    destruct new as [|y r] eqn:E; [done|]. clearbody new. clear E. simpl in Hnew. injection Hnew as Hnew.
    assert (Ht' : tokens (set_tokens (Some (default [] (tokens (set_capacity (tokens_capacity st + 256) (set_oracle o st))) ++ y :: r))
        (set_capacity (tokens_capacity st + 256) (set_oracle o st))) = Some (map Tok ws ++ Null :: y :: r)).
    { simpl. rewrite Ht. simpl. by rewrite <- app_assoc. }
    split; [done|]. split; [|eauto]. split; [done|]. split; [done|]. split; [done|].
    exists (y :: r). split; [exact Ht'|]. simpl. lia.
  - apply runs_ret. split; [done|]. split; [exact Hh|]. destruct rest as [|y r]; [simpl in *; lia|eauto].
Qed.

Lemma add_token_spec st ws t :
  holds st ws -> Z.of_nat (length ws) < 2 ^ 30 ->
  runs (add_token t) (fun _ st' => holds st' (ws ++ [t]) /\ prev_command st' = prev_command st) st.
Proof.
  intros Hh Hn. unfold add_token. apply runs_assoc, runs_bind.
  eapply runs_mono; [exact (reserve_spec st ws Hh Hn)|].
  intros [] st1 (Hp & (Hi & Hs & Hl & rest' & Ht' & Hc) & y & rest & Ht).
  rewrite Ht in Ht'. apply (inj Some) in Ht'. apply app_inv_head in Ht'. injection Ht' as <-.
  apply runs_bind, runs_of_wp. wp_pure. split; [|done]. rewrite Hs.
  apply runs_bind, runs_of_wp. rewrite <- (length_map Tok ws).
  rewrite wp_get_slot; [|exact Ht|apply znth_app_at|done]. split; [|done].
  apply runs_bind, runs_of_wp. unfold free_string. wp_pure. split; [|done].
  apply runs_alloc. intros o. apply runs_of_wp. wp_pure.
  rewrite wp_put_slot; [|exact Ht|apply zupd_app_at]. wp_pure.
  rewrite wp_put_slot; [|reflexivity|].
  2: { replace (Z.of_nat (length (map Tok ws)) + 1) with (Z.of_nat (length (map Tok ws ++ [Tok t])))
         by (rewrite length_app; simpl; lia).
       replace (map Tok ws ++ Tok t :: y :: rest) with ((map Tok ws ++ [Tok t]) ++ y :: rest) by (by rewrite <- app_assoc).
       apply zupd_app_at. }
  split; [|done]. split; [|exact Hp]. split; [done|]. rewrite length_map, length_app. simpl.
  split; [simpl; lia|]. split; [simpl; lia|]. exists rest.
  split; [by rewrite map_app|]. simpl in Hc |- *. lia.
Qed.

Lemma free_strings_spec ws : forall pre rest st,
  tokens st = Some (map Tok pre ++ map Tok ws ++ Null :: rest) ->
  wp (free_strings (length ws) (Z.of_nat (length pre)))
    (fun _ st' => st' = add_live (- Z.of_nat (length ws)) st) st.
Proof.
  induction ws as [|w ws IH]; intros pre rest st Ht; simpl.
  - wp_pure. destruct st; unfold add_live; simpl. f_equal. lia.
  - wp_pure. rewrite <- (length_map Tok pre) at 1.
    rewrite wp_get_slot; [|exact Ht|simpl; apply znth_app_at|done]. unfold free_string. wp_pure.
    replace (Z.of_nat (length pre) + 1) with (Z.of_nat (length (pre ++ [w]))) by (rewrite length_app; simpl; lia).
    eapply wp_mono; [apply (IH (pre ++ [w]) rest)|].
    + simpl. rewrite Ht. by rewrite map_app, <- app_assoc.
    + intros _ st' ->. destruct st; unfold add_live; simpl. f_equal. lia.
Qed.

Lemma free_tokens_spec st ws :
  holds st ws ->
  wp free_tokens (fun _ st' => emptied st' /\ prev_command st' = prev_command st /\ oracle st' = oracle st) st.
Proof.
  intros (Hi & Hs & Hl & rest & Ht & Hc). unfold free_tokens. wp_pure. rewrite Hs, Nat2Z.id.
  eapply wp_mono; [exact (free_strings_spec ws [] rest st Ht)|]. intros _ st' ->. wp_pure.
  simpl. rewrite Ht. wp_pure. split; [|done]. repeat split; try done. simpl. lia.
Qed.

Lemma free_tokens_emptied st :
  emptied st -> wp free_tokens (fun _ st' => st' = st) st.
Proof.
  intros (Hi & Hs & Hl & Ht & Hc). unfold free_tokens. wp_pure. rewrite Hs. simpl. wp_pure.
  rewrite Ht. wp_pure. destruct st; simpl in *; subst. done.
Qed.

(** ** The tokens of a line

    Reading a token does not depend on the state of the module, so the tokens
    of a line are a function of the line; [None] is a token too long for its
    buffer. *)
Fixpoint words (fuel : nat) (line : list Z) : option (list (list Z)) :=
  match fuel with
  | O => None
  | S fuel =>
      match skip_space line with
      | [] => Some []
      | c :: rest =>
          match next_token c rest (initial []) with
          | Ok ((token, rest), _) =>
              match words fuel rest with Some ws => Some (token :: ws) | None => None end
          | Err _ => None
          end
      end
  end.
Definition line_words (line : list Z) : option (list (list Z)) := words (S (length line)) line.

(** A computation that neither reads nor changes the state. *)
Definition pure_run {A} (m : M state A) : Prop :=
  forall st, m st = match m (initial []) with Ok (a, _) => Ok (a, st) | Err f => Err f end.

Lemma pure_ret {A} (a : A) : pure_run (ret a).
Proof. done. Qed.

Lemma pure_bind {A B} (m : M state A) (k : A -> M state B) :
  pure_run m -> (forall a, pure_run (k a)) -> pure_run (bind m k).
Proof.
  intros Hm Hk st. unfold bind. rewrite Hm. rewrite (Hm (initial [])).
  destruct (m (initial [])) as [[a s]|f]; [|done]. apply Hk.
Qed.

Lemma pure_put_char room buf c : pure_run (put_char room buf c).
Proof. intros st. unfold put_char. by destruct (_ <? _). Qed.

Lemma pure_terminate room buf : pure_run (terminate room buf).
Proof. intros st. unfold terminate. by destruct (_ <? _). Qed.

#[local] Hint Resolve pure_ret pure_bind pure_put_char pure_terminate : core.

Lemma pure_read_until_space room input : forall buf, pure_run (read_until_space room input buf).
Proof.
  induction input as [|c input IH]; intros buf; simpl; [auto|].
  destruct (is_delim c); [auto|]. apply pure_bind; auto.
Qed.

Lemma pure_read_quoted room q n : forall line buf,
  (length line <= n)%nat -> pure_run (read_quoted room q line buf).
Proof.
  induction n as [|n IH]; intros [|c line] buf Hn; simpl in *; auto; try lia.
  destruct (c =? q); [by auto|]. destruct line as [|d line]; simpl in *.
  - apply pure_bind; [auto|]. intros. apply (IH []). simpl. lia.
  - destruct (c =? 92); [destruct (d =? q)|].
    + apply IH; lia.
    + apply pure_bind; [auto|]. intros. apply IH. lia.
    + apply pure_bind; [auto|]. intros. apply (IH (d :: line)). simpl. lia.
Qed.

Lemma pure_next_token c rest : pure_run (next_token c rest).
Proof.
  unfold next_token. destruct ((c =? 34) || (c =? 39)); [by eapply pure_read_quoted|].
  destruct (strchr _ c); [auto|].
  apply pure_bind; [apply pure_read_until_space|auto].
Qed.

Lemma words_length fuel : forall line ws, words fuel line = Some ws -> (length ws < fuel)%nat.
Proof.
  induction fuel as [|fuel IH]; intros line ws; simpl; [done|].
  case_match; [intros [= <-]; simpl; lia|].
  destruct (next_token z l (initial [])) as [[[t r] s]|]; [|done].
  destruct (words fuel r) eqn:E; [|done]. intros [= <-]. simpl. apply IH in E. lia.
Qed.

Lemma read_tokens_spec fuel : forall line ws pre st n,
  words fuel line = Some ws -> holds st pre -> Z.of_nat (length pre + length ws) < 2 ^ 30 -> 0 <= n ->
  n + Z.of_nat (length ws) < 2 ^ 32 ->
  runs (read_tokens fuel line n)
    (fun k st' => k = n + Z.of_nat (length ws) /\ holds st' (pre ++ ws) /\ prev_command st' = prev_command st) st.
Proof.
  induction fuel as [|fuel IH]; intros line ws pre st n Hw Hh Hb Hn Hn'; simpl in *; [done|].
  destruct (skip_space line) as [|c rest].
  - injection Hw as <-. rewrite app_nil_r. apply runs_ret. simpl. split; [lia|done].
  - pose proof (pure_next_token c rest st) as Hp.
    destruct (next_token c rest (initial [])) as [[[t r] s]|] eqn:E; [|done].
    destruct (words fuel r) as [ws'|] eqn:E'; [|done]. injection Hw as <-. simpl in *.
    apply runs_bind, runs_of_wp. rewrite (wp_eq _ _ _ _ _ Hp). split; [|done].
    apply runs_bind. eapply runs_mono; [apply (add_token_spec st pre t Hh); lia|].
    intros [] st' [Hh' Hp']. unfold u32. rewrite Z.mod_small by lia.
    eapply runs_mono; [eapply (IH r ws' (pre ++ [t])); try done; rewrite ?length_app; simpl; lia|].
    intros k st'' (-> & Hh'' & Hp''). rewrite <- app_assoc in Hh''. split; [lia|]. split; [exact Hh''|congruence].
Qed.

(** ** The lexical grammar *)

(** Characters between quotes [q] and the string they stand for.  A backslash
    before the quote stands for nothing: both are dropped. *)
Inductive escaped (q : Z) : list Z -> list Z -> Prop :=
  | esc_nil : escaped q [] []
  | esc_plain c s w : c <> q -> c <> 92 -> escaped q s w -> escaped q (c :: s) (c :: w)
  | esc_newline s w : escaped q s w -> escaped q (92 :: 110 :: s) (10 :: w)
  | esc_tab s w : escaped q s w -> escaped q (92 :: 116 :: s) (9 :: w)
  | esc_other d s w : d <> q -> d <> 110 -> d <> 116 -> escaped q s w -> escaped q (92 :: d :: s) (d :: w)
  | esc_quote s w : escaped q s w -> escaped q (92 :: q :: s) w.

Definition specials : list Z := str "();|<>".

(** A character a plain word can start with. *)
Definition starts_word (c : Z) : Prop :=
  isspace c = false /\ c <> 34 /\ c <> 39 /\ strchr specials c = false.

(** The characters that end a plain word: space, newline, tab and ';'. *)
Definition delims : list Z := str " ;" ++ [10; 9].

Definition ends_word (line : list Z) : Prop :=
  match line with [] => True | c :: _ => strchr delims c = true end.

Inductive lexes : list Z -> list (list Z) -> Prop :=
  | lex_end : lexes [] []
  | lex_space c line ws : isspace c = true -> lexes line ws -> lexes (c :: line) ws
  | lex_special c line ws :
      strchr specials c = true -> lexes line ws -> lexes (c :: line) ([c] :: ws)
  | lex_quoted q s w line ws :
      q = 34 \/ q = 39 -> escaped q s w -> Z.of_nat (length w) < MAX_TOKEN_SIZE ->
      lexes line ws -> lexes (q :: s ++ q :: line) (w :: ws)
  | lex_word c w line ws :
      starts_word c -> Forall (fun x => strchr delims x = false) w -> Z.of_nat (length w) + 1 < MAX_TOKEN_SIZE ->
      ends_word line -> lexes line ws -> lexes (c :: w ++ line) ((c :: w) :: ws).

Lemma is_delim_delims c : is_delim c = strchr delims c.
Proof. unfold is_delim. change delims with [32; 59; 10; 9]. cbn [strchr existsb]. lia. Qed.

Lemma put_char_ok {A} room buf c (k : list Z -> M state A) st :
  Z.of_nat (length buf) < room -> bind (put_char room buf c) k st = k (buf ++ [c]) st.
Proof. intros. unfold put_char. rewrite (proj2 (Z.ltb_lt _ _)) by lia. done. Qed.

Lemma terminate_ok {A} room buf (k : list Z -> M state A) st :
  Z.of_nat (length buf) < room -> bind (terminate room buf) k st = k buf st.
Proof. intros. unfold terminate. rewrite (proj2 (Z.ltb_lt _ _)) by lia. done. Qed.

Lemma read_quoted_escaped room q s w rest :
  q = 34 \/ q = 39 -> escaped q s w -> forall buf st,
  Z.of_nat (length buf + length w) < room ->
  read_quoted room q (s ++ q :: rest) buf st = Ok ((buf ++ w, rest), st).
Proof.
  intros Hq He. induction He as [|c s w Hc Hb He IH|s w He IH|s w He IH|d s w Hd Hn Ht He IH|s w He IH];
    intros buf st Hr; simpl in Hr.
  - simpl. rewrite Z.eqb_refl, terminate_ok by lia. by rewrite app_nil_r.
  - cbn [app read_quoted]. rewrite (proj2 (Z.eqb_neq _ _)) by done.
    destruct (s ++ q :: rest) as [|d r] eqn:E; [by destruct s|]. rewrite <- E in IH |- *.
    rewrite (proj2 (Z.eqb_neq c 92)) by done. rewrite put_char_ok by lia.
    rewrite IH by (rewrite length_app; simpl; lia). by rewrite <- app_assoc.
  - cbn [app read_quoted]. rewrite (proj2 (Z.eqb_neq 92 q)), (proj2 (Z.eqb_neq 110 q)) by lia. simpl.
    rewrite put_char_ok by lia. rewrite IH by (rewrite length_app; simpl; lia). by rewrite <- app_assoc.
  - cbn [app read_quoted]. rewrite (proj2 (Z.eqb_neq 92 q)), (proj2 (Z.eqb_neq 116 q)) by lia. simpl.
    rewrite put_char_ok by lia. rewrite IH by (rewrite length_app; simpl; lia). by rewrite <- app_assoc.
  - cbn [app read_quoted].
    rewrite (proj2 (Z.eqb_neq 92 q)), (proj2 (Z.eqb_neq d q)), (proj2 (Z.eqb_neq d 110)), (proj2 (Z.eqb_neq d 116)) by lia. simpl.
    rewrite put_char_ok by lia. rewrite IH by (rewrite length_app; simpl; lia). by rewrite <- app_assoc.
  - cbn [app read_quoted]. rewrite (proj2 (Z.eqb_neq 92 q)) by lia. simpl. rewrite Z.eqb_refl. by apply IH.
Qed.

Lemma read_until_space_word room w line : forall buf st,
  Forall (fun x => strchr delims x = false) w -> ends_word line -> Z.of_nat (length buf + length w) < room ->
  read_until_space room (w ++ line) buf st = Ok (buf ++ w, st).
Proof.
  induction w as [|c w IH]; intros buf st Hw He Hr; cbn [app length read_until_space] in *.
  - rewrite app_nil_r. assert (Ht : terminate room buf st = Ok (buf, st)).
    { unfold terminate. by rewrite (proj2 (Z.ltb_lt _ _)) by lia. }
    destruct line as [|c line]; cbn [read_until_space]; [done|]. cbn [ends_word] in He. by rewrite is_delim_delims, He.
  - apply Forall_cons in Hw as [Hc Hw]. rewrite is_delim_delims, Hc. rewrite put_char_ok by lia.
    rewrite IH by (rewrite ?length_app; simpl; auto; lia). by rewrite <- app_assoc.
Qed.

Lemma starts_word_nondelim c : starts_word c -> is_delim c = false.
Proof.
  intros (Hs & _ & _ & Hp). unfold is_delim, isspace in *. destruct (Z.eqb_spec c 59) as [->|]; [done|].
  lia.
Qed.

Lemma special_not_quote c : strchr specials c = true -> isspace c = false /\ (c =? 34) || (c =? 39) = false.
Proof.
  intros H%strchr_In. vm_compute in H.
  repeat destruct H as [<-|H]; [done..|]. destruct H.
Qed.

Lemma lexes_words line ws : lexes line ws -> forall fuel, (length line < fuel)%nat -> words fuel line = Some ws.
Proof.
  induction 1 as [|c line ws Hc Hl IH|c line ws Hc Hl IH|q s w line ws Hq He Hw Hl IH|c w line ws Hc Hw Hn Hd Hl IH];
    intros [|fuel] Hf; simpl in Hf; try lia.
  - done.
  - rewrite <- (IH (S fuel)) by lia. cbn [words skip_space]. by rewrite Hc.
  - destruct (special_not_quote c Hc) as [Hs Hq]. cbn [words skip_space]. rewrite Hs. unfold next_token.
    rewrite Hq. fold specials. rewrite Hc. cbn [ret]. rewrite IH by lia. done.
  - cbn [words skip_space]. replace (isspace q) with false by (unfold isspace; lia).
    unfold next_token. replace ((q =? 34) || (q =? 39)) with true by lia.
    rewrite (read_quoted_escaped MAX_TOKEN_SIZE q s w line Hq He [] (initial [])) by (simpl; lia).
    rewrite IH; [done|]. rewrite length_app in Hf. simpl in Hf. lia.
  - cbn [words skip_space]. pose proof (starts_word_nondelim c Hc) as Hnd. rewrite is_delim_delims in Hnd.
    destruct Hc as (Hs & Hq1 & Hq2 & Hp). rewrite Hs. unfold next_token.
    replace ((c =? 34) || (c =? 39)) with false by lia. fold specials. rewrite Hp.
    rewrite (bind_ok _ _ _ (c :: w) (initial [])).
    2: { apply (read_until_space_word MAX_TOKEN_SIZE (c :: w) line []); simpl; [by apply Forall_cons|done|lia]. }
    unfold ret. change (c :: w ++ line) with ((c :: w) ++ line). rewrite drop_app_length.
    rewrite IH; [done|]. rewrite length_app in Hf. lia.
Qed.

(** ** Short lines always have tokens *)

Lemma put_char_short {A} room buf c (k : list Z -> M state A) st (P : res (A * state) -> Prop) :
  Z.of_nat (length buf) < room -> P (k (buf ++ [c]) st) -> P (bind (put_char room buf c) k st).
Proof. intros ? H. by rewrite put_char_ok by lia. Qed.

Lemma read_quoted_short room q n : forall line buf st,
  (length line <= n)%nat -> Z.of_nat (length buf + length line) < room ->
  exists s r, read_quoted room q line buf st = Ok ((s, r), st) /\ (length r <= length line)%nat.
Proof.
  induction n as [|n IH]; intros [|c line] buf st Hn Hr; simpl in Hn, Hr; try lia; cbn [read_quoted].
  1, 2: rewrite terminate_ok by lia; exists buf, []; simpl; split; [done|lia].
  destruct (c =? q).
  { rewrite terminate_ok by lia. exists buf, line. simpl. split; [done|lia]. }
  assert (Hput : forall x l buf', (length l <= n)%nat -> length buf' = length buf ->
    Z.of_nat (length buf + 1 + length l) < room ->
    exists s r, (let! buf := put_char room buf' x in read_quoted room q l buf) st = Ok ((s, r), st) /\ (length r <= length l)%nat).
  { intros x l buf' Hl Hb Hl'. rewrite put_char_ok by lia. apply IH; rewrite ?length_app; simpl; lia. }
  destruct line as [|d line]; cbn [length] in *.
  - destruct (Hput c [] buf) as (s & r & -> & Hlen); simpl; try lia. simpl in Hlen. exists s, r. split; [done|lia].
  - destruct (c =? 92); [destruct (d =? q)|].
    + destruct (IH line buf st) as (s & r & -> & ?); try lia. exists s, r. split; [done|lia].
    + destruct (Hput (if d =? 110 then 10 else if d =? 116 then 9 else d) line buf) as (s & r & -> & ?); try lia.
      exists s, r. split; [done|lia].
    + destruct (Hput c (d :: line) buf) as (s & r & -> & ?); simpl in *; try lia. exists s, r. split; [done|lia].
Qed.

Lemma read_until_space_short room input : forall buf st,
  Z.of_nat (length buf + length input) < room ->
  exists s, read_until_space room input buf st = Ok (s, st) /\ (length buf <= length s)%nat.
Proof.
  induction input as [|c input IH]; intros buf st Hr; simpl in *.
  - exists buf. unfold terminate. rewrite (proj2 (Z.ltb_lt _ _)) by lia. done.
  - destruct (is_delim c).
    + exists buf. unfold terminate. rewrite (proj2 (Z.ltb_lt _ _)) by lia. done.
    + rewrite put_char_ok by lia. destruct (IH (buf ++ [c]) st) as (s & -> & H); rewrite ?length_app in *; simpl in *; [lia|].
      exists s. split; [done|lia].
Qed.

Lemma next_token_short c rest st :
  isspace c = false -> Z.of_nat (S (length rest)) < MAX_TOKEN_SIZE ->
  exists t r, next_token c rest st = Ok ((t, r), st) /\ (length r <= length rest)%nat.
Proof.
  intros Hc Hr. unfold next_token. destruct ((c =? 34) || (c =? 39)) eqn:Hq.
  - eapply read_quoted_short; [done|simpl; lia].
  - destruct (strchr _ c) eqn:Hp; [by exists [c], rest|].
    assert (Hd : is_delim c = false) by (apply starts_word_nondelim; repeat split; [done|lia|lia|done]).
    cbn [read_until_space]. rewrite Hd. rewrite bind_assoc, put_char_ok by (simpl; lia).
    destruct (read_until_space_short MAX_TOKEN_SIZE rest [c] st) as (s & Hs & Hl); [simpl; lia|].
    rewrite (bind_ok _ _ _ _ _ Hs). simpl in Hl. exists s, (drop (length s) (c :: rest)). split; [done|].
    rewrite length_drop. simpl. lia.
Qed.

Lemma skip_space_head line c rest :
  skip_space line = c :: rest -> isspace c = false /\ (S (length rest) <= length line)%nat.
Proof.
  induction line as [|d line IH]; simpl; [done|]. destruct (isspace d) eqn:E.
  - intros H. destruct (IH H). split; [done|lia].
  - intros [= -> ->]. done.
Qed.

Lemma words_short fuel : forall line,
  (length line < fuel)%nat -> Z.of_nat (length line) < MAX_TOKEN_SIZE ->
  exists ws, words fuel line = Some ws /\ (length ws <= length line)%nat.
Proof.
  induction fuel as [|fuel IH]; intros line Hf Hl; [lia|]. simpl.
  destruct (skip_space line) as [|c rest] eqn:E; [exists []; simpl; split; [done|lia]|].
  apply skip_space_head in E as [Hc Hlen].
  destruct (next_token_short c rest (initial [])) as (t & r & -> & Hr); [done|lia|].
  destruct (IH r) as (ws & -> & Hw); [lia|lia|]. exists (t :: ws). simpl. split; [done|lia].
Qed.

(** ** get_tokens *)

(** The module holds [pre], or has been emptied and [pre] is empty. *)
Definition ready (st : state) (pre : list (list Z)) : Prop := holds st pre \/ (emptied st /\ pre = []).

(** The first half of get_tokens. *)
Definition load_tokens (line : list Z) : M state Z :=
  let! st := get in
  do! (if is_tokens_initialized st then ret tt else init_tokens) in
  read_tokens (S (length line)) line 0.

Lemma load_tokens_spec st pre line ws :
  ready st pre -> line_words line = Some ws -> Z.of_nat (length pre + length ws) < 2 ^ 30 ->
  runs (load_tokens line)
    (fun k st' => k = Z.of_nat (length ws) /\ holds st' (pre ++ ws) /\ prev_command st' = prev_command st) st.
Proof.
  intros Hr Hw Hb. unfold load_tokens. apply runs_bind, runs_of_wp. wp_pure. split; [|done].
  apply runs_bind, (runs_mono _ (fun _ st' => holds st' pre /\ prev_command st' = prev_command st)).
  - destruct Hr as [Hh|[He ->]].
    + pose proof Hh as [-> _]. by apply runs_ret.
    + pose proof He as [-> _]. by apply init_tokens_spec.
  - intros [] st' [Hh Hp]. eapply runs_mono; [by apply (read_tokens_spec _ line ws pre st' 0); [..|lia]|].
    intros k st'' (-> & Hh' & Hp'). split; [lia|]. split; [done|congruence].
Qed.

(** The second half. *)
Definition resolve_prev (depth : nat) (tokens_found : Z) : M state Z :=
  let! n := gets tokens_size in
  let! is_prev := (if n =? 1 then token_is 0 (str "prev") else ret false) in
  if is_prev then
    do! free_tokens in
    let! prev_cmd := get_prev_command in
    match prev_cmd with [] => ret 0 | _ => get_tokens depth prev_cmd end
  else ret tokens_found.

Lemma get_tokens_load depth line st :
  get_tokens (S depth) line st = (let! n := load_tokens line in resolve_prev depth n) st.
Proof.
  unfold load_tokens, resolve_prev. cbn [get_tokens]. unfold bind, get.
  destruct ((if is_tokens_initialized st then ret tt else init_tokens) st) as [[[] st1]|]; [|done].
  by destruct (read_tokens _ line 0 st1) as [[k st2]|].
Qed.

Lemma is_prev_spec st ws :
  holds st ws ->
  (let! n := gets tokens_size in if n =? 1 then token_is 0 (str "prev") else ret false) st
  = Ok (bool_decide (ws = [str "prev"]), st).
Proof.
  intros (Hi & Hs & Hl & rest & Ht & Hc). unfold bind, gets. rewrite Hs. case_Z.
  - destruct ws as [|w [|w' ws]]; simpl in *; try lia.
    unfold token_is, get_slot, bind, gets. rewrite Ht. simpl. unfold ret, strcmp_eq.
    repeat f_equal. apply bool_decide_ext. naive_solver.
  - rewrite bool_decide_eq_false_2; [done|]. intros ->. simpl in *. lia.
Qed.

Lemma get_tokens_other depth st pre line ws :
  ready st pre -> line_words line = Some ws -> Z.of_nat (length pre + length ws) < 2 ^ 30 ->
  pre ++ ws <> [str "prev"] ->
  runs (get_tokens (S depth) line)
    (fun k st' => k = Z.of_nat (length ws) /\ holds st' (pre ++ ws) /\ prev_command st' = prev_command st) st.
Proof.
  intros Hr Hw Hb Hne. apply (runs_ext _ _ _ _ (get_tokens_load depth line st)).
  apply runs_bind. eapply runs_mono; [by apply (load_tokens_spec st pre line ws)|].
  intros k st' (-> & Hh & Hp). unfold resolve_prev. apply runs_assoc, runs_bind, runs_of_wp.
  rewrite (wp_eq _ _ _ _ _ (is_prev_spec st' _ Hh)). split; [|done].
  rewrite bool_decide_eq_false_2 by done. by apply runs_ret.
Qed.

Lemma get_tokens_prev depth st pre line ws Q :
  ready st pre -> line_words line = Some ws -> pre ++ ws = [str "prev"] ->
  (forall st', emptied st' -> prev_command st' = prev_command st -> (oracle st = [] -> oracle st' = []) ->
     runs (match prev_command st with [] => ret 0 | _ => get_tokens depth (prev_command st) end) Q st') ->
  runs (get_tokens (S depth) line) Q st.
Proof.
  intros Hr Hw He HQ. apply (runs_ext _ _ _ _ (get_tokens_load depth line st)).
  apply runs_bind_strong. eapply runs_mono; [apply (load_tokens_spec st pre line ws); try done|].
  { rewrite <- length_app, He. simpl. lia. }
  rewrite He. intros k st1 (_ & Hh & Hp) Ho. unfold resolve_prev. apply runs_assoc, runs_bind, runs_of_wp.
  rewrite (wp_eq _ _ _ _ _ (is_prev_spec st1 _ Hh)). split; [|done].
  rewrite bool_decide_eq_true_2 by done. apply runs_bind, runs_of_wp.
  eapply wp_mono; [exact (free_tokens_spec st1 _ Hh)|]. intros [] st2 (He2 & Hp2 & Ho2).
  split; [|done]. apply runs_bind, runs_of_wp. unfold get_prev_command. wp_pure. split; [|done].
  rewrite Hp2, Hp. apply HQ; [done|congruence|]. rewrite Ho2. done.
Qed.

(** ** Printing a line for given tokens *)

Definition escape (w : list Z) : list Z := flat_map (fun c => if c =? 92 then [92; 92] else [c]) w.

(** The quote to use for a word: ["], or ['] when the word has a ["]. *)
Definition quote_for (w : list Z) : Z := if strchr w 34 then 39 else 34.
Definition quote (w : list Z) : list Z := quote_for w :: escape w ++ [quote_for w].
Definition render (ws : list (list Z)) : list Z := flat_map (fun w => quote w ++ [32]) ws.

(** A word that fits the buffer and does not have both quotes. *)
Definition quotable (w : list Z) : Prop :=
  Z.of_nat (length w) < MAX_TOKEN_SIZE /\ ~ (In 34 w /\ In 39 w).

Lemma escape_escaped q w : q = 34 \/ q = 39 -> ~ In q w -> escaped q (escape w) w.
Proof.
  intros Hq. induction w as [|c w IH]; simpl; [constructor|]. intros Hn.
  destruct (Z.eqb_spec c 92) as [->|]; simpl.
  - apply esc_other; [lia|lia|lia|]. apply IH. tauto.
  - apply esc_plain; [tauto|done|]. apply IH. tauto.
Qed.

Lemma render_lexes ws : Forall quotable ws -> lexes (render ws) ws.
Proof.
  induction 1 as [|w ws [Hl Hq] Hws IH]; [constructor|]. cbn [render flat_map].
  unfold quote. simpl. rewrite <- !app_assoc. simpl.
  assert (Hn : quote_for w = 34 \/ quote_for w = 39) by (unfold quote_for; case_match; tauto).
  apply lex_quoted; [done| |done|by apply lex_space].
  apply escape_escaped; [done|]. unfold quote_for.
  destruct (strchr w 34) eqn:E; rewrite <- strchr_In; [|congruence].
  rewrite strchr_In in *. tauto.
Qed.

(** ** Sessions *)

Inductive call :=
  | Init
  | Get (line : list Z)
  | Free
  | SetPrev (cmd : option (list Z)).

Definition run_call (c : call) : M state unit :=
  match c with
  | Init => init_tokens
  | Get line => let! _ := get_tokens 2 line in ret tt
  | Free => free_tokens
  | SetPrev cmd => set_prev_command cmd
  end.

Fixpoint run_calls (cs : list call) : M state unit :=
  match cs with
  | [] => ret tt
  | c :: cs => do! run_call c in run_calls cs
  end.

(** Lines that fit the token buffer; and, for a stored command, one that is not
    the command prev itself. *)
Definition short (line : list Z) : Prop := Z.of_nat (length line) < MAX_TOKEN_SIZE.
Definition storable (cmd : list Z) : Prop := short cmd /\ line_words cmd <> Some [str "prev"].

Definition call_ok (c : call) : Prop :=
  match c with
  | Get line => short line
  | SetPrev (Some cmd) => storable cmd
  | _ => True
  end.

(** The invariant of the module's statics. *)
Definition valid (n : Z) (st : state) : Prop :=
  (exists ws, ready st ws /\ Z.of_nat (length ws) <= n) /\ storable (prev_command st).

Lemma init_tokens_ready st ws :
  ready st ws -> runs init_tokens (fun _ st' => ready st' ws /\ prev_command st' = prev_command st) st.
Proof.
  intros [Hh|[He ->]].
  - unfold init_tokens. apply runs_of_wp. wp_pure. pose proof Hh as [-> _]. wp_pure. split; [|done].
    split; [by left|done].
  - eapply runs_mono; [by apply init_tokens_spec|]. intros [] st' [? ?]. split; [by left|done].
Qed.

Lemma free_tokens_ready st ws :
  ready st ws -> runs free_tokens (fun _ st' => emptied st' /\ prev_command st' = prev_command st) st.
Proof.
  intros [Hh|[He ->]]; apply runs_of_wp.
  - eapply wp_mono; [by eapply free_tokens_spec|]. intros [] st' (?&?&?). done.
  - eapply wp_mono; [by apply free_tokens_emptied|]. by intros [] st' ->.
Qed.

Lemma get_tokens_valid n st line :
  valid n st -> short line -> n + 2 * MAX_TOKEN_SIZE < 2 ^ 30 ->
  runs (get_tokens 2 line) (fun _ st' => valid (n + MAX_TOKEN_SIZE) st') st.
Proof.
  intros ((pre & Hr & Hn) & Hsp) Hs Hb.
  destruct (words_short (S (length line)) line) as (ws & Hw & Hl); [lia|done|].
  destruct (decide (pre ++ ws = [str "prev"])) as [E|E].
  - eapply (get_tokens_prev 1 st pre line ws); [done..|]. intros st' He Hp _.
    destruct Hsp as [Hps Hpw].
    destruct (prev_command st) as [|c cmd] eqn:Ec.
    + apply runs_ret. split; [|by rewrite Hp].
      exists []. split; [by right|unfold MAX_TOKEN_SIZE; simpl; lia].
    + rewrite <- Ec in *. destruct (words_short (S (length (prev_command st))) (prev_command st)) as (ws' & Hw' & Hl'); [lia|done|].
      eapply runs_mono; [eapply (get_tokens_other 0 st' [] _ ws')|].
      * by right.
      * done.
      * unfold short, MAX_TOKEN_SIZE in *. simpl. lia.
      * intros E'. apply Hpw. unfold line_words. rewrite Hw'. simpl in E'. by rewrite E'.
      * intros k st'' (_ & Hh & Hp''). unfold short in Hps. split; [|rewrite Hp'', Hp; done].
        exists ws'. split; [by left|]. lia.
  - unfold short, MAX_TOKEN_SIZE in *. eapply runs_mono; [eapply (get_tokens_other 1 st pre line ws); [done..| |done]; lia|].
    intros k st' (_ & Hh & Hp). split; [|by rewrite Hp]. exists (pre ++ ws). split; [by left|].
    rewrite length_app. lia.
Qed.

Lemma run_call_valid n st c :
  valid n st -> call_ok c -> n + 2 * MAX_TOKEN_SIZE < 2 ^ 30 ->
  runs (run_call c) (fun _ st' => valid (n + MAX_TOKEN_SIZE) st') st.
Proof.
  intros Hv Hc Hb. pose proof Hv as ((pre & Hr & Hn) & Hsp). destruct c as [|line| |[cmd|]]; simpl in *.
  - eapply runs_mono; [by eapply init_tokens_ready|]. intros [] st' [Hr' Hp]. split; [|by rewrite Hp].
    exists pre. split; [done|]. unfold MAX_TOKEN_SIZE. lia.
  - apply runs_bind. eapply runs_mono; [by apply get_tokens_valid|]. intros k st' H. by apply runs_ret.
  - eapply runs_mono; [by eapply free_tokens_ready|]. intros [] st' [Hr' Hp]. split; [|by rewrite Hp].
    exists []. split; [by right|]. unfold MAX_TOKEN_SIZE. simpl. lia.
  - apply runs_of_wp. wp_pure. split; [|done]. split.
    + exists pre. split; [done|]. unfold MAX_TOKEN_SIZE. lia.
    + simpl. rewrite take_ge; [done|]. destruct Hc as [Hc _]. unfold short, MAX_TOKEN_SIZE in Hc. lia.
  - apply runs_ret. split; [|done]. exists pre. split; [done|]. unfold MAX_TOKEN_SIZE. lia.
Qed.

Lemma run_calls_valid cs : forall n st,
  valid n st -> Forall call_ok cs -> n + MAX_TOKEN_SIZE * (Z.of_nat (length cs) + 1) < 2 ^ 30 ->
  runs (run_calls cs) (fun _ st' => valid (n + MAX_TOKEN_SIZE * Z.of_nat (length cs)) st') st.
Proof.
  induction cs as [|c cs IH]; intros n st Hv Hok Hb; simpl.
  - apply runs_ret. rewrite Z.mul_0_r, Z.add_0_r. done.
  - apply Forall_cons in Hok as [Hc Hok]. unfold MAX_TOKEN_SIZE in *. cbn [length] in Hb. apply runs_bind.
    eapply runs_mono; [apply (run_call_valid n st c Hv Hc); unfold MAX_TOKEN_SIZE; lia|].
    intros [] st' Hv'. eapply runs_mono; [apply (IH (n + 255)); [exact Hv'|done|lia]|].
    intros [] st''. replace (n + 255 + 255 * Z.of_nat (length cs)) with (n + 255 * Z.of_nat (S (length cs))) by lia. done.
Qed.

Lemma prev_loops depth : forall st line,
  ready st [] -> oracle st = [] -> line_words line = Some [str "prev"] ->
  line_words (prev_command st) = Some [str "prev"] ->
  get_tokens depth line st = Err OutOfFuel.
Proof.
  induction depth as [|depth IH]; intros st line Hr Ho Hl Hp; [done|]. rewrite get_tokens_load.
  pose proof (runs_wp _ _ _ Ho (load_tokens_spec st [] line _ Hr Hl ltac:(simpl; lia))) as H.
  apply wp_run in H as (k & st1 & E1 & _ & Hh & Hp1).
  pose proof (load_tokens_spec st [] line _ Hr Hl ltac:(simpl; lia)) as H. unfold runs in H. rewrite E1 in H.
  destruct H as [_ Ho1]. rewrite (bind_ok _ _ _ _ _ E1). unfold resolve_prev.
  rewrite <- bind_assoc. rewrite (bind_ok _ _ _ _ _ (is_prev_spec st1 _ Hh)).
  rewrite bool_decide_eq_true_2 by done.
  pose proof (free_tokens_spec st1 _ Hh) as H. apply wp_run in H as ([] & st2 & E2 & He & Hp2 & Ho2).
  rewrite (bind_ok _ _ _ _ _ E2). unfold get_prev_command, bind, gets. rewrite Hp2, Hp1.
  destruct (prev_command st) as [|c cmd] eqn:Ec; [done|].
  apply IH; [by right|rewrite Ho2; auto|done|by rewrite Hp2, Hp1].
Qed.

(** read_string copies the characters up to the quote one by one. *)
Lemma read_string_from_copies room input : forall buf st fuel,
  (2 * length input < fuel)%nat -> Z.of_nat (length buf + length (upto 34 input)) < room ->
  read_string_from fuel room input buf false st = Ok ((buf ++ upto 34 input, false), st).
Proof.
  induction input as [|c input IH]; intros buf st [|fuel] Hf Hr; simpl in Hf, Hr; try lia; cbn [read_string_from upto].
  - by rewrite app_nil_r.
  - destruct (Z.eqb_spec c 34) as [->|Hc]; [by rewrite app_nil_r|]. simpl in Hr.
    destruct (Z.eqb_spec c 92) as [->|Hb].
    + destruct fuel as [|fuel]; [lia|]. simpl. rewrite put_char_ok by lia.
      rewrite IH; [by rewrite <- app_assoc|lia|rewrite length_app; simpl; lia].
    + rewrite put_char_ok by lia. rewrite IH; [by rewrite <- app_assoc|lia|rewrite length_app; simpl; lia].
Qed.

End leak.

Lemma initial_valid orc : valid 0 0 (initial orc).
Proof. split; [exists []; split; [by right|done]|]. done. Qed.

(** ** Theorems *)

(** C17. The tokenizer implements its grammar.  A line that the lexical grammar
    splits into tokens (spaces, the special characters, words up to a
    delimiter, quoted strings with their escapes) is read into exactly these
    tokens, NULL-terminated, in an array that grows as needed; the count is
    returned and the previous command is kept. *)
Theorem get_tokens_lexes st line ws :
  lexes line ws -> ws <> [str "prev"] -> Z.of_nat (length ws) < 2 ^ 30 ->
  emptied 0 st -> oracle st = [] ->
  exists st', get_tokens 1 line st = Ok (Z.of_nat (length ws), st') /\ holds 0 st' ws /\
    prev_command st' = prev_command st.
Proof.
  intros Hl Hp Hb He Ho. pose proof (lexes_words line ws Hl (S (length line)) ltac:(lia)) as Hw.
  pose proof (get_tokens_other 0 0 st [] line ws ltac:(by right) Hw Hb Hp) as H.
  apply runs_wp in H; [|done]. apply wp_run in H as (k & st' & E & -> & Hh & Hp'). eauto.
Qed.

(** C28. Quoting round trip.  Any list of words of at most 254 characters, none
    with both kinds of quote, printed in quotes with backslashes doubled, is
    read back as the same list; free_tokens then releases every string and the
    array. *)
Theorem tokens_roundtrip st ws :
  Forall quotable ws -> ws <> [str "prev"] -> Z.of_nat (length ws) < 2 ^ 30 ->
  emptied 0 st -> oracle st = [] ->
  exists st' st'', get_tokens 1 (render ws) st = Ok (Z.of_nat (length ws), st') /\ holds 0 st' ws /\
    free_tokens st' = Ok (tt, st'') /\ emptied 0 st''.
Proof.
  intros Hq Hp Hb He Ho.
  pose proof (lexes_words _ ws (render_lexes ws Hq) (S (length (render ws))) ltac:(lia)) as Hw.
  pose proof (get_tokens_other 0 0 st [] _ ws ltac:(by right) Hw Hb Hp) as H.
  apply runs_wp in H; [|done]. apply wp_run in H as (k & st' & E & -> & Hh & Hp').
  pose proof (free_tokens_spec 0 st' ws Hh) as H. apply wp_run in H as ([] & st'' & E' & He' & _). eauto 8.
Qed.

(** C33. The tokenizer keeps its invariant.  From the static initialisers, after any
    sequence of init_tokens, get_tokens, free_tokens and set_prev_command calls
    with lines of at most 254 characters, where the stored command is not prev
    itself, the recursion on the previous command included: either an allocation
    has failed and the program has exited with status 1, or no memory error has
    happened, the statics describe an array with some words (each a string of its
    own, the size, the capacity and what is allocated agreeing with them) or no
    array at all, and free_tokens then releases all of it. *)
Theorem tokenizer_session_safe cs orc :
  Forall call_ok cs -> MAX_TOKEN_SIZE * (Z.of_nat (length cs) + 1) < 2 ^ 30 ->
  match run_calls cs (initial orc) with
  | Ok (_, st) => (exists ws, holds 0 st ws \/ (emptied 0 st /\ ws = [])) /\
      exists st', free_tokens st = Ok (tt, st') /\ emptied 0 st' /\ prev_command st' = prev_command st
  | Err f => f = Exited 1 /\ orc <> []
  end.
Proof.
  intros Hok Hb. pose proof (run_calls_valid 0 cs 0 (initial orc) ltac:(apply initial_valid) Hok ltac:(lia)) as H.
  unfold runs in H. destruct (run_calls cs (initial orc)) as [[[] st]|f]; [|done]. destruct H as [((ws & Hr & _) & _) _]. split; [by exists ws|].
  assert (Hf : wp free_tokens (fun _ st' => emptied 0 st' /\ prev_command st' = prev_command st) st).
  { destruct Hr as [Hh|[He ->]].
    - eapply wp_mono; [exact (free_tokens_spec 0 st ws Hh)|]. by intros [] st' (? & ? & _).
    - eapply wp_mono; [exact (free_tokens_emptied 0 st He)|]. by intros [] st' ->. }
  apply wp_run in Hf as ([] & st' & E & He). by exists st'.
Qed.

(** A stored prev never ends.  When the line and the stored command both
    consist of the single token prev, get_tokens calls itself without end:
    no recursion depth is enough. *)
Theorem get_tokens_prev_diverges st line :
  ready 0 st [] -> oracle st = [] -> line_words line = Some [str "prev"] ->
  line_words (prev_command st) = Some [str "prev"] ->
  forall depth, get_tokens depth line st = Err OutOfFuel.
Proof. intros Hr Ho Hl Hp depth. by apply (prev_loops 0). Qed.

(** read_string interprets no escapes.  On every input whose part before the
    closing quote fits the buffer, the loop that handles backslashes copies
    these characters unchanged, the backslashes and the letters after them
    included. *)
Theorem read_string_verbatim room input st :
  Z.of_nat (length (upto 34 input)) < room -> room <= 2 ^ 32 ->
  read_string room input st = Ok ((upto 34 input, Z.of_nat (length (upto 34 input))), st).
Proof.
  intros Hr Hm. unfold read_string.
  rewrite (bind_ok _ _ _ _ _ (read_string_from_copies room input [] st (S (2 * length input)) ltac:(lia) ltac:(simpl; lia))).
  simpl. rewrite terminate_ok by lia. unfold ret, u32. by rewrite Z.mod_small by lia.
Qed.

(** ** Witnesses *)

Definition demo_line : list Z := str "echo 'a b' | x;".
Definition demo_words : list (list Z) := [str "echo"; str "a b"; str "|"; str "x"; str ";"].

Lemma demo_lexes : lexes demo_line demo_words.
Proof.
  unfold demo_line, demo_words. vm_compute.
  apply (lex_word 101 [99; 104; 111] [32; 39; 97; 32; 98; 39; 32; 124; 32; 120; 59]); [done|by repeat constructor|done|done|].
  apply lex_space; [done|].
  apply (lex_quoted 39 [97; 32; 98] [97; 32; 98] [32; 124; 32; 120; 59]); [by right|repeat (constructor; try done)|done|].
  apply lex_space; [done|]. apply lex_special; [done|]. apply lex_space; [done|].
  apply (lex_word 120 [] [59]); [done|constructor|done|done|]. apply lex_special; [done|]. constructor.
Qed.

Lemma get_tokens_lexes_witness :
  exists st', get_tokens 1 demo_line (initial []) = Ok (5, st') /\ holds 0 st' demo_words /\
    prev_command st' = [].
Proof. apply (get_tokens_lexes (initial []) demo_line demo_words); [apply demo_lexes|done|done|done|done]. Defined.

Lemma tokens_roundtrip_witness :
  exists st' st'', get_tokens 1 (render [str "a b"; str ""; str "c"]) (initial []) = Ok (3, st') /\
    holds 0 st' [str "a b"; str ""; str "c"] /\ free_tokens st' = Ok (tt, st'') /\ emptied 0 st''.
Proof.
  apply (tokens_roundtrip (initial []) [str "a b"; str ""; str "c"]); [|done|done|done|done].
  repeat constructor; vm_compute; intuition discriminate.
Defined.

(** The last call runs the stored command again, and its word is released. *)
Definition demo_calls : list call := [Get (str "ls -l"); SetPrev (Some (str "ls")); Free; Get (str "prev")].
Lemma tokenizer_session_safe_witness :
  exists st st', run_calls demo_calls (initial []) = Ok (tt, st) /\ holds 0 st [str "ls"] /\ free_tokens st = Ok (tt, st') /\ emptied 0 st'.
Proof.
  pose proof (tokenizer_session_safe demo_calls [] ltac:(repeat constructor; done) ltac:(reflexivity)) as H.
  destruct (run_calls demo_calls (initial [])) as [[[] st]|f] eqn:E; [|destruct H as [_ H]; exfalso; apply H; reflexivity].
  destruct H as ([ws Hw] & st' & Ef & He & _). exists st, st'. split; [reflexivity|]. split; [|split; [exact Ef|exact He]].
  assert (E0 : match run_calls demo_calls (initial []) with Ok (_, st) => st | Err _ => initial [] end = st) by (rewrite E; reflexivity).
  rewrite <- E0. vm_compute. repeat split; try reflexivity. eexists. split; reflexivity.
Defined.

Lemma get_tokens_prev_diverges_witness :
  get_tokens 1000 (str " prev") (set_prev (str "prev") (initial [])) = Err OutOfFuel.
Proof. apply (get_tokens_prev_diverges (set_prev (str "prev") (initial []))); [by right|done|done|done]. Defined.

Lemma read_string_verbatim_witness :
  read_string 255 (str "a\nb") (initial []) = Ok ((str "a\nb", 4), initial []).
Proof. apply (read_string_verbatim 255 (str "a\nb") (initial [])); done. Defined.
End Tokens.
