(* ===== verification/Shell.v ===== *)
(** * Shell: the command interpreter

    Shell/shell.c over the token array of Tokens.v.  A [char **] into the array
    is an index; assignments such as [*pipe_token = NULL] change the shared
    array.  System calls are recorded in a trace; what they return is decided
    by an operating system [os], a parameter, that sees the trace so far.  A
    fork runs the code of the child on a copy of the state and records the
    calls it makes and how it ends: by exec, exit or a crash. *)
From stdpp Require Import base list gmap strings.
From Stdlib Require Import ZArith Lia.
From S2P Require Import Prelude Cstr Tokens.
Import Tokens.

Module Shell.

Inductive sysc :=
  | SOpen (path : slot) (write : bool)  (* O_RDONLY, or O_WRONLY | O_CREAT | O_TRUNC with mode 0644 *)
  | SDup2 (oldfd newfd : Z)
  | SClose (fd : Z)
  | SPipe
  | SFork
  | SExecvp (argv : list (list Z))
  | SWaitpid (pid : Z)
  | SWait
  | SChdir (path : list Z)
  | SGetcwd
  | SMkdir (path : list Z) (mode : Z).

(** How a child process ends. *)
Inductive ending :=
  | Execed (argv : list (list Z))
  | ExitCode (code : Z)
  | Crashed (f : fault).

Inductive event :=
  | Call (c : sysc) (r : Z)
  | PipeCall (r : Z) (fds : Z * Z)                   (* pipe *)
  | Born                                             (* the first event of a child *)
  | Child (pid : Z) (events : list event) (e : ending)
  | Out (s : list Z)                                 (* stdout *)
  | ErrOut (s : list Z).                             (* the message of perror or fprintf(stderr) *)

(** What system calls return.  SFork gives the process id or -1, the others -1
    on failure. *)
Record os := mk_os {
  result : list event -> sysc -> Z;
  pipe_fds : list event -> Z * Z;
  errno : list event -> Z;
  cwd : list event -> list Z;
  status : list event -> Z                           (* what the last waitpid stored *)
}.

Record shell := mk_shell { toks : state; trace : list event }.

Definition on_toks {A} (m : M state A) : M shell A :=
  zoom toks (fun t s => mk_shell t (trace s)) m.

Definition emit (e : event) : M shell unit := modify (fun s => mk_shell (toks s) (trace s ++ [e])).

Definition at_ (i : Z) : M shell slot := on_toks (get_slot i).
Definition cut (i : Z) : M shell unit := on_toks (put_slot i Null).

(** A slot that is dereferenced as a string. *)
Definition deref (v : slot) : M shell (list Z) :=
  match v with Tok t => ret t | _ => fail NullDeref end.

(** Iterations over the array: no more than it has slots. *)
Definition fuel_of (s : shell) : nat := S (length (default [] (tokens (toks s)))).

Definition EEXIST : Z := 17.

Section shell.
Context (sys_os : os).

Definition sys (c : sysc) : M shell Z := fun s =>
  let r := result sys_os (trace s) c in
  Ok (r, mk_shell (toks s) (trace s ++ [Call c r])).

Definition sys_ (c : sysc) : M shell unit := let! _ := sys c in ret tt.

Definition pipe : M shell (Z * (Z * Z)) :=
  let! s := get in
  let r := result sys_os (trace s) SPipe in
  let fds := pipe_fds sys_os (trace s) in
  do! emit (PipeCall r fds) in
  ret (r, fds).

Definition fork (child : M shell ending) : M shell Z := fun s =>
  let pid := result sys_os (trace s) SFork in
  if pid <? 0 then Ok (-1, mk_shell (toks s) (trace s ++ [Call SFork (-1)])) else
  let e := match child (mk_shell (toks s) (trace s ++ [Born])) with
           | Ok (e, s') => Child pid (drop (S (length (trace s))) (trace s')) e
           | Err f => Child pid [] (Crashed f)
           end in
  Ok (pid, mk_shell (toks s) (trace s ++ [e])).

(** The strings from slot [i] up to NULL. *)
Fixpoint argv_from (fuel : nat) (i : Z) : M shell (list (list Z)) :=
  match fuel with
  | O => fail OutOfFuel
  | S fuel =>
      let! v := at_ i in
      match v with
      | Tok t => let! l := argv_from fuel (i + 1) in ret (t :: l)
      | _ => ret []
      end
  end.

(** [execvp(tokens[base], &tokens[base]); perror(msg); exit(code);] *)
Definition execvp (base : Z) (msg : list Z) (code : Z) : M shell ending :=
  let! s := get in
  let! argv := argv_from (fuel_of s) base in
  match argv with
  | [] => fail NullDeref
  | _ =>
      let! r := sys (SExecvp argv) in
      if r =? -1 then do! emit (ErrOut msg) in ret (ExitCode code) else ret (Execed argv)
  end.

(** The loop that advances to the first token whose first character is [c]. *)
Fixpoint find_first_char (fuel : nat) (i c : Z) : M shell (option Z) :=
  match fuel with
  | O => fail OutOfFuel
  | S fuel =>
      let! v := at_ i in
      match v with
      | Tok (d :: _) => if d =? c then ret (Some i) else find_first_char fuel (i + 1) c
      | Tok [] => find_first_char fuel (i + 1) c
      | _ => ret None
      end
  end.

Fixpoint find_special_from (fuel : nat) (i : Z) (special : list Z) : M shell (option Z) :=
  match fuel with
  | O => fail OutOfFuel
  | S fuel =>
      let! v := at_ i in
      match v with
      | Tok t => if strcmp_eq t special then ret (Some i) else find_special_from fuel (i + 1) special
      | _ => ret None
      end
  end.

Definition find_special_token (base : Z) (special : list Z) : M shell (option Z) :=
  let! s := get in find_special_from (fuel_of s) base special.

Definition redirect_child (base direction : Z) (filename : slot) : M shell ending :=
  let! fd :=
    (if direction =? 62 then
       let! fd := sys (SOpen filename true) in
       do! sys_ (SDup2 fd 1) in ret fd
     else if direction =? 60 then
       let! fd := sys (SOpen filename false) in
       do! sys_ (SDup2 fd 0) in ret fd
     else fail Uninit) in
  if fd =? -1 then do! emit (ErrOut (str "open failed")) in ret (ExitCode 1) else
  do! sys_ (SClose fd) in
  execvp base (str "execvp failed") 1.

Definition execute_with_redirect (base direction : Z) : M shell Z :=
  let! s := get in
  let! filename_token := find_first_char (fuel_of s) base direction in
  match filename_token with
  | None => ret (-1)
  | Some ft =>
      do! cut ft in
      let! filename := at_ (ft + 1) in
      let! pid := fork (redirect_child base direction filename) in
      do! sys_ (SWaitpid pid) in
      ret 0
  end.

Definition left_child (left_command : Z) (fds : Z * Z) (redirect_in : option Z) : M shell ending :=
  let! opened :=
    match redirect_in with
    | None => ret true
    | Some r =>
        let! filename := at_ (r + 1) in
        let! file_in := sys (SOpen filename false) in
        if file_in <? 0 then ret false else
        do! sys_ (SDup2 file_in 0) in
        do! sys_ (SClose file_in) in ret true
    end in
  if negb opened then do! emit (ErrOut (str "open")) in ret (ExitCode 1) else
  do! sys_ (SDup2 (snd fds) 1) in
  do! sys_ (SClose (fst fds)) in
  do! sys_ (SClose (snd fds)) in
  execvp left_command (str "execvp left command") 1.

Definition right_child (right_command : Z) (fds : Z * Z) (redirect_out : option Z) : M shell ending :=
  do! sys_ (SDup2 (fst fds) 0) in
  do! sys_ (SClose (fst fds)) in
  do! sys_ (SClose (snd fds)) in
  let! opened :=
    match redirect_out with
    | None => ret true
    | Some r =>
        let! filename := at_ (r + 1) in
        let! file_out := sys (SOpen filename true) in
        if file_out <? 0 then ret false else
        do! sys_ (SDup2 file_out 1) in
        do! sys_ (SClose file_out) in ret true
    end in
  if negb opened then do! emit (ErrOut (str "open")) in ret (ExitCode 1) else
  execvp right_command (str "execvp right command") 1.

Definition cut_if (o : option Z) : M shell unit :=
  match o with Some i => cut i | None => ret tt end.

Definition execute_with_pipe_and_redirect (base : Z) : M shell Z :=
  let! '(r, fds) := pipe in
  if r =? -1 then do! emit (ErrOut (str "pipe")) in ret (-1) else
  let! pipe_token := find_special_token base (str "|") in
  match pipe_token with
  | None => do! emit (ErrOut (str "Syntax error: expected a pipe '|' symbol.")) in ret (-1)
  | Some p =>
      do! cut p in
      let! redirect_in := find_special_token base (str "<") in
      do! cut_if redirect_in in
      let! redirect_out := find_special_token (p + 1) (str ">") in
      do! cut_if redirect_out in
      let! pid1 := fork (left_child base fds redirect_in) in
      let! pid2 := fork (right_child (p + 1) fds redirect_out) in
      do! sys_ (SClose (fst fds)) in
      do! sys_ (SClose (snd fds)) in
      do! sys_ (SWaitpid pid1) in
      do! sys_ (SWaitpid pid2) in
      ret 0
  end.

(** Run the command at [start] and wait. *)
Definition run_command (start : Z) : M shell unit :=
  let! _ := fork (execvp start (str "Failed to execute command") 1) in
  sys_ SWait.

Fixpoint sequential_from (fuel : nat) (base command_start i : Z) : M shell Z :=
  match fuel with
  | O => fail OutOfFuel
  | S fuel =>
      let! v := at_ (base + i) in
      match v with
      | Tok t =>
          if strcmp_eq t (str ";") then
            do! cut (base + i) in
            do! run_command (base + command_start) in
            sequential_from fuel base (i + 1) (i + 1)
          else sequential_from fuel base command_start (i + 1)
      | _ => ret command_start
      end
  end.

Definition execute_sequential_commands (base : Z) : M shell Z :=
  let! s := get in
  let! command_start := sequential_from (fuel_of s) base 0 0 in
  let! v := at_ (base + command_start) in
  do! (match v with Tok _ => run_command (base + command_start) | _ => ret tt end) in
  ret 0.

Definition execute_with_pipe (base : Z) : M shell Z :=
  let! s := get in
  let! bar := find_first_char (fuel_of s) base 124 in
  match bar with
  | None => ret (-1)
  | Some b =>
      do! cut b in
      let! '(_, fds) := pipe in
      let! _ := fork (do! sys_ (SClose (fst fds)) in
                      do! sys_ (SDup2 (snd fds) 1) in
                      do! sys_ (SClose (snd fds)) in
                      execvp base (str "Failed to execute command") 1) in
      let! _ := fork (do! sys_ (SClose (snd fds)) in
                      do! sys_ (SDup2 (fst fds) 0) in
                      do! sys_ (SClose (fst fds)) in
                      execvp (b + 1) (str "Failed to execute command") 1) in
      do! sys_ (SClose (fst fds)) in
      do! sys_ (SClose (snd fds)) in
      do! sys_ SWait in
      do! sys_ SWait in
      ret 0
  end.

(** ** Built-in commands *)

Definition token_eq (i : Z) (s : list Z) : M shell bool :=
  let! v := at_ i in let! t := deref v in ret (strcmp_eq t s).

(** [tokens[i] && strcmp(tokens[i], flag) == 0] *)
Definition has_flag (i : Z) (flag : list Z) : M shell bool :=
  let! v := at_ i in
  match v with Tok t => ret (strcmp_eq t flag) | _ => ret false end.

(** The modes S_IRWXU | S_IRWXG | S_IRWXO and S_IRWXU. *)
Fixpoint mkdir_args (fuel : nat) (i : Z) (p_flag : bool) : M shell Z :=
  match fuel with
  | O => fail OutOfFuel
  | S fuel =>
      let! v := at_ i in
      match v with
      | Tok path =>
          let! r := sys (SMkdir path (if p_flag then 511 else 448)) in
          let! s := get in
          let failed := if p_flag then negb (r =? 0) && negb (errno sys_os (trace s) =? EEXIST) else negb (r =? 0) in
          if failed then do! emit (ErrOut (str "mkdir failed")) in ret (-1)
          else mkdir_args fuel (i + 1) p_flag
      | _ => ret 0
      end
  end.

(** The characters echo -e prints for an argument. *)
Fixpoint echo_escapes (arg : list Z) : list Z :=
  match arg with
  | [] => []
  | c :: rest =>
      match rest with
      | d :: rest' =>
          if c =? 92 then
            (if d =? 110 then [10] else if d =? 116 then [9] else if d =? 92 then [92] else [92; d]) ++ echo_escapes rest'
          else c :: echo_escapes rest
      | [] => [c]
      end
  end.

Fixpoint echo_args (fuel : nat) (i : Z) (interpret_escapes : bool) : M shell (list Z) :=
  match fuel with
  | O => fail OutOfFuel
  | S fuel =>
      let! v := at_ i in
      match v with
      | Tok arg =>
          let! next := at_ (i + 1) in
          let! rest := echo_args fuel (i + 1) interpret_escapes in
          ret ((if interpret_escapes then echo_escapes arg else arg) ++
               match next with Tok _ => 32 :: rest | _ => rest end)
      | _ => ret []
      end
  end.

Definition do_cd (base : Z) : M shell Z :=
  let! v := at_ (base + 1) in
  match v with
  | Tok path =>
      let! r := sys (SChdir path) in
      if negb (r =? 0) then do! emit (ErrOut (str "cd failed")) in ret (-1) else ret 0
  | _ => do! emit (ErrOut (str "cd: expected argument")) in ret (-1)
  end.

Definition do_pwd : M shell Z :=
  let! s := get in
  let! r := sys SGetcwd in
  if negb (r =? -1) then do! emit (Out (cwd sys_os (trace s) ++ [10])) in ret 0
  else do! emit (ErrOut (str "pwd failed")) in ret (-1).

Definition do_mkdir (base : Z) : M shell Z :=
  let! p_flag := has_flag (base + 1) (str "-p") in
  let i := if p_flag then base + 2 else base + 1 in
  let! v := at_ i in
  match v with
  | Tok _ => let! s := get in mkdir_args (fuel_of s) i p_flag
  | _ => do! emit (ErrOut (str "mkdir: missing operand")) in ret (-1)
  end.

Definition do_echo (base : Z) : M shell Z :=
  let! e_flag := has_flag (base + 1) (str "-e") in
  let! s := get in
  let! out := echo_args (fuel_of s) (if e_flag then base + 2 else base + 1) e_flag in
  do! emit (Out (out ++ [10])) in
  ret 0.

Definition execute_simple_command (base : Z) : M shell Z :=
  let! is_cd := token_eq base (str "cd") in
  if is_cd then do_cd base else
  let! is_pwd := token_eq base (str "pwd") in
  if is_pwd then do_pwd else
  let! is_mkdir := token_eq base (str "mkdir") in
  if is_mkdir then do_mkdir base else
  let! is_echo := token_eq base (str "echo") in
  if is_echo then do_echo base else
  let! name := at_ base in
  let! name := deref name in
  let! pid := fork (execvp base name 1) in
  if pid =? -1 then do! emit (ErrOut (str "fork failed")) in ret (-1) else
  do! sys_ (SWaitpid pid) in
  let! s := get in
  ret (status sys_os (trace s)).

(** ** Dispatch *)

(** The loop over ";": [inl] is an early return, [inr] the start of the last
    command. *)
Fixpoint run_sequence (fuel : nat) (base i : Z) : M shell (Z + Z) :=
  match fuel with
  | O => fail OutOfFuel
  | S fuel =>
      let! v := at_ (base + i) in
      match v with
      | Tok t =>
          if strcmp_eq t (str ";") then
            do! cut (base + i) in
            let! pid := fork (execvp base (str "execvp") 1) in
            if pid <? 0 then do! emit (ErrOut (str "fork")) in ret (inl (-1)) else
            do! sys_ (SWaitpid pid) in
            run_sequence fuel (base + i + 1) 0
          else run_sequence fuel base (i + 1)
      | _ => ret (inr base)
      end
  end.

Definition dispatch (base : Z) : M shell Z :=
  let! pipe_token := find_special_token base (str "|") in
  let! redirect_in_token := find_special_token base (str "<") in
  let! redirect_out_token := find_special_token base (str ">") in
  match pipe_token, redirect_in_token, redirect_out_token with
  | Some _, None, None => execute_with_pipe base
  | Some _, _, _ => execute_with_pipe_and_redirect base
  | None, Some _, _ => execute_with_redirect base 60
  | None, None, Some _ => execute_with_redirect base 62
  | None, None, None => execute_simple_command base
  end.

Definition shell_run (base : Z) : M shell Z :=
  let! s := get in
  let! r := run_sequence (fuel_of s) base 0 in
  match r with
  | inl code => ret code
  | inr base => dispatch base
  end.

(** ** The main loop *)

(** fgets of at most [n] characters: through the newline if there is one. *)
Fixpoint fgets (n : nat) (stdin : list Z) : list Z * list Z :=
  match n, stdin with
  | O, _ => ([], stdin)
  | _, [] => ([], [])
  | S n, c :: stdin =>
      if c =? 10 then ([c], stdin) else
      let (l, r) := fgets n stdin in (c :: l, r)
  end.

(** Whether the shell goes on after a line; [false] is the exit command. *)
Definition run_line (depth : nat) (input : list Z) : M shell bool :=
  do! on_toks (get_tokens depth input) in
  let! v := at_ 0 in
  match v with
  | Tok t =>
      if strcmp_eq t (str "exit") then do! emit (Out (str "Bye bye." ++ [10])) in ret false
      else
        do! (if strcmp_eq t (str "prev") then
               let! prev_cmd := on_toks get_prev_command in
               match prev_cmd with
               | [] => ret tt
               | _ =>
                   if strcmp_eq prev_cmd (str "prev") then ret tt else
                   do! on_toks (get_tokens depth prev_cmd) in
                   do! shell_run 0 in
                   on_toks free_tokens
               end
             else
               do! on_toks (set_prev_command (Some input)) in
               do! shell_run 0 in ret tt) in
        do! on_toks free_tokens in ret true
  | _ => do! on_toks free_tokens in ret true
  end.

Fixpoint main_loop (fuel depth : nat) (stdin : list Z) : M shell unit :=
  match fuel with
  | O => fail OutOfFuel
  | S fuel =>
      do! emit (Out (str "shell $ ")) in
      match stdin with
      | [] => ret tt
      | _ =>
          let (input, stdin) := fgets 255 stdin in
          match upto 10 input with
          | [] => main_loop fuel depth stdin
          | input =>
              let! more := run_line depth input in
              if more then main_loop fuel depth stdin else ret tt
          end
      end
  end.

(** [depth] bounds the recursion of get_tokens. *)
Definition main (depth : nat) (stdin : list Z) : M shell Z :=
  do! on_toks init_tokens in
  do! emit (Out (str "Welcome to mini-shell." ++ [10])) in
  do! main_loop (S (length stdin)) depth stdin in
  do! on_toks free_tokens in
  ret 0.
End shell.

(** ** Runs from an array of given slots

    The shell only ever overwrites slots with NULL.  [at_state t0 rest vs tr] is
    the state with the slots [vs], the terminator and [rest] in the array, the
    other variables of the tokenizer as in [t0]. *)
Definition at_state (t0 : state) (rest vs : list slot) (tr : list event) : shell :=
  mk_shell (set_tokens (Some (vs ++ Null :: rest)) t0) tr.

(** From index [b] on the slots hold the strings [l], then NULL. *)
Definition seg (vs : list slot) (b : Z) (l : list (list Z)) : Prop :=
  exists pre post, vs ++ [Null] = pre ++ map Tok l ++ Null :: post /\ Z.of_nat (length pre) = b.

(** The index of the first element that satisfies [p]. *)
Fixpoint pos {A} (p : A -> bool) (l : list A) : option Z :=
  match l with
  | [] => None
  | x :: l => if p x then Some 0 else match pos p l with Some k => Some (k + 1) | None => None end
  end.

(** Some slots have become NULL. *)
Definition cutdown : list slot -> list slot -> Prop := Forall2 (fun v v' => v' = v \/ v' = Null).

#[export] Instance cutdown_refl : Reflexive cutdown.
Proof. intros vs. apply Forall2_same_length_lookup_2; [done|]. naive_solver. Qed.

#[export] Instance cutdown_trans : Transitive cutdown.
Proof.
  intros vs1 vs2 vs3 H. revert vs3. induction H as [|a b l1 l2 Hab H IH]; intros vs3 H'.
  - done.
  - apply Forall2_cons_inv_l in H' as (c & l3 & Hbc & Hl & ->). constructor; [naive_solver|by apply IH].
Qed.

Lemma cutdown_insert vs k : cutdown vs (<[k := Null]> vs).
Proof.
  apply Forall2_same_length_lookup_2; [by rewrite length_insert|]. intros i x y Hx Hy.
  destruct (decide (i = k)) as [->|].
  - rewrite list_lookup_insert_eq in Hy by (by eapply lookup_lt_Some). naive_solver.
  - rewrite list_lookup_insert_ne in Hy by done. naive_solver.
Qed.

Definition starts_with (c : Z) (t : list Z) : bool := match t with d :: _ => d =? c | [] => false end.

Lemma pos_app {A} (p : A -> bool) l x r :
  forallb (fun y => negb (p y)) l = true -> p x = true -> pos p (l ++ x :: r) = Some (Z.of_nat (length l)).
Proof.
  intros Hl Hx. induction l as [|y l IH]; simpl in *; [by rewrite Hx|].
  apply andb_true_iff in Hl as [Hy Hl]. apply negb_true_iff in Hy. rewrite Hy, IH by done. f_equal. lia.
Qed.

Lemma pos_none {A} (p : A -> bool) l : forallb (fun y => negb (p y)) l = true -> pos p l = None.
Proof.
  induction l as [|y l IH]; simpl; [done|]. intros [Hy Hl]%andb_true_iff. apply negb_true_iff in Hy.
  by rewrite Hy, IH.
Qed.

Lemma pos_Some {A} (p : A -> bool) l k :
  pos p l = Some k -> exists l1 x l2, l = l1 ++ x :: l2 /\ k = Z.of_nat (length l1) /\ p x = true /\
    forallb (fun y => negb (p y)) l1 = true.
Proof.
  revert k. induction l as [|y l IH]; intros k; simpl; [done|]. destruct (p y) eqn:E.
  - intros [= <-]. by exists [], y, l.
  - destruct (pos p l) as [k'|]; [|done]. intros [= <-].
    destruct (IH k' eq_refl) as (l1 & x & l2 & -> & -> & Hx & Hl). exists (y :: l1), x, l2. simpl.
    rewrite E. repeat split; try done. lia.
Qed.

Section segments.
Context (sys_os : os) (t0 : state) (rest : list slot).
Abbreviation AT := (at_state t0 rest).

Lemma at_lookup vs tr i x :
  (vs ++ [Null]) !! Z.to_nat i = Some x -> 0 <= i -> x <> Junk -> at_ i (AT vs tr) = Ok (x, AT vs tr).
Proof.
  intros Hx Hi Hj. unfold at_, on_toks, zoom, get_slot, bind, gets. simpl.
  assert (Hz : znth (vs ++ Null :: rest) i = Some x).
  { apply znth_Some. split; [done|]. change (Null :: rest) with ([Null] ++ rest). rewrite app_assoc.
    apply lookup_app_l_Some. exact Hx. }
  rewrite Hz. by destruct x.
Qed.

Lemma at_seg_head vs b t l tr : seg vs b (t :: l) -> at_ b (AT vs tr) = Ok (Tok t, AT vs tr).
Proof.
  intros (pre & post & E & <-). apply at_lookup; [|lia|done]. rewrite E, Nat2Z.id. by apply list_lookup_middle.
Qed.

Lemma at_seg_end vs b tr : seg vs b [] -> at_ b (AT vs tr) = Ok (Null, AT vs tr).
Proof.
  intros (pre & post & E & <-). apply at_lookup; [|lia|done]. rewrite E, Nat2Z.id. by apply list_lookup_middle.
Qed.

Lemma seg_tail vs b t l : seg vs b (t :: l) -> seg vs (b + 1) l.
Proof.
  intros (pre & post & E & <-). exists (pre ++ [Tok t]), post. rewrite E, <- app_assoc, length_app. simpl.
  split; [done|lia].
Qed.

Lemma seg_skip l1 : forall vs b l2, seg vs b (l1 ++ l2) -> seg vs (b + Z.of_nat (length l1)) l2.
Proof.
  induction l1 as [|t l1 IH]; intros vs b l2 H; simpl.
  - by rewrite Z.add_0_r.
  - apply seg_tail in H. apply IH in H. replace (b + Z.of_nat (S (length l1))) with (b + 1 + Z.of_nat (length l1)) by lia. done.
Qed.

Lemma seg_length vs b l : seg vs b l -> 0 <= b /\ b + Z.of_nat (length l) <= Z.of_nat (length vs).
Proof.
  intros (pre & post & E & <-). apply (f_equal length) in E. rewrite !length_app, length_map in E. simpl in E. lia.
Qed.

Lemma fuel_seg vs b l tr : seg vs b l -> (length l < fuel_of (AT vs tr))%nat.
Proof. intros H%seg_length. unfold fuel_of. simpl. rewrite length_app. simpl. lia. Qed.

(** Cutting a segment at a token gives two. *)
Lemma cut_seg vs b l1 t l2 tr :
  seg vs b (l1 ++ t :: l2) ->
  exists vs', cut (b + Z.of_nat (length l1)) (AT vs tr) = Ok (tt, AT vs' tr) /\
    seg vs' b l1 /\ seg vs' (b + Z.of_nat (length l1) + 1) l2 /\ cutdown vs vs' /\
    (forall b' l', seg vs b' l' ->
       b + Z.of_nat (length l1) < b' \/ b' + Z.of_nat (length l') < b + Z.of_nat (length l1) -> seg vs' b' l').
Proof.
  intros Hs. pose proof (seg_length _ _ _ Hs) as Hl. rewrite length_app in Hl. simpl in Hl.
  destruct Hs as (pre & post & E & Hb).
  set (k := Z.to_nat (b + Z.of_nat (length l1))). exists (<[k := Null]> vs).
  assert (E' : <[k := Null]> vs ++ [Null] = pre ++ map Tok l1 ++ Null :: map Tok l2 ++ Null :: post).
  { assert (Hk : (k < length vs)%nat) by (unfold k; lia). rewrite <- insert_app_l by exact Hk. rewrite E, map_app, <- app_assoc.
    rewrite insert_app_r_alt by (unfold k; lia). f_equal. rewrite insert_app_r_alt by (rewrite length_map; unfold k; lia). f_equal.
    rewrite length_map. replace (_ - _ - _)%nat with 0%nat by (unfold k; lia). done. }
  split; [|split; [|split; [|split]]].
  - unfold cut, on_toks, zoom, put_slot, bind, gets. simpl. rewrite zupd_in by (rewrite length_app; simpl; lia).
    rewrite insert_app_l by (unfold k; lia). done.
  - by exists pre, (map Tok l2 ++ Null :: post).
  - exists (pre ++ map Tok l1 ++ [Null]), post. split; [|rewrite !length_app, length_map; simpl; lia].
    rewrite E'. by rewrite <- !app_assoc.
  - apply cutdown_insert.
  - intros b' l' (pre' & post' & Ep & <-) Hk.
    assert (Hkv : (k < length vs)%nat) by (unfold k; lia). destruct Hk as [Hk|Hk].
    + exists (<[k := Null]> pre'), post'. split; [|by rewrite length_insert].
      rewrite <- insert_app_l by exact Hkv. rewrite Ep. rewrite insert_app_l by (unfold k; lia). done.
    + exists pre', (<[(k - length pre' - length l' - 1)%nat := Null]> post'). split; [|done].
      rewrite <- insert_app_l by exact Hkv. rewrite Ep. rewrite insert_app_r_alt by (unfold k; lia). f_equal.
      rewrite insert_app_r_alt by (rewrite length_map; unfold k; lia). f_equal. rewrite length_map.
      replace (k - length pre' - length l')%nat with (S (k - length pre' - length l' - 1)) at 1 by (unfold k; lia). done.
Qed.

Lemma find_special_from_spec sp : forall l vs b tr fuel,
  seg vs b l -> (length l < fuel)%nat ->
  find_special_from fuel b sp (AT vs tr) = Ok ((k ← pos (fun t => strcmp_eq t sp) l; Some (b + k)), AT vs tr).
Proof.
  induction l as [|t l IH]; intros vs b tr [|fuel] Hs Hf; simpl in Hf; try lia; cbn [find_special_from].
  - rewrite (bind_ok _ _ _ _ _ (at_seg_end vs b tr Hs)). done.
  - rewrite (bind_ok _ _ _ _ _ (at_seg_head vs b t l tr Hs)). cbn [pos]. destruct (strcmp_eq t sp).
    + simpl. by rewrite Z.add_0_r.
    + rewrite (IH vs (b + 1) tr fuel (seg_tail _ _ _ _ Hs)) by lia. destruct (pos _ l); simpl; [|done].
      do 3 f_equal. lia.
Qed.

Lemma find_special_token_spec sp l vs b tr :
  seg vs b l ->
  find_special_token b sp (AT vs tr) = Ok ((k ← pos (fun t => strcmp_eq t sp) l; Some (b + k)), AT vs tr).
Proof.
  intros Hs. unfold find_special_token. rewrite (bind_ok _ _ _ _ _ (eq_refl (get (AT vs tr)))).
  apply find_special_from_spec; [done|]. by eapply fuel_seg.
Qed.

Lemma find_first_char_spec c : forall l vs b tr fuel,
  seg vs b l -> (length l < fuel)%nat ->
  find_first_char fuel b c (AT vs tr) = Ok ((k ← pos (starts_with c) l; Some (b + k)), AT vs tr).
Proof.
  induction l as [|t l IH]; intros vs b tr [|fuel] Hs Hf; simpl in Hf; try lia; cbn [find_first_char].
  - rewrite (bind_ok _ _ _ _ _ (at_seg_end vs b tr Hs)). done.
  - rewrite (bind_ok _ _ _ _ _ (at_seg_head vs b t l tr Hs)). cbn [pos].
    assert (Hr : find_first_char fuel (b + 1) c (AT vs tr) =
      Ok ((k ← match pos (starts_with c) l with Some k => Some (k + 1) | None => None end; Some (b + k)), AT vs tr)).
    { rewrite (IH vs (b + 1) tr fuel (seg_tail _ _ _ _ Hs)) by lia. destruct (pos _ l); simpl; [|done].
      do 3 f_equal. lia. }
    destruct t as [|d t]; simpl; [exact Hr|]. destruct (d =? c); [|exact Hr]. simpl. by rewrite Z.add_0_r.
Qed.

Lemma argv_from_spec : forall l vs b tr fuel,
  seg vs b l -> (length l < fuel)%nat -> argv_from fuel b (AT vs tr) = Ok (l, AT vs tr).
Proof.
  induction l as [|t l IH]; intros vs b tr [|fuel] Hs Hf; simpl in Hf; try lia; cbn [argv_from].
  - rewrite (bind_ok _ _ _ _ _ (at_seg_end vs b tr Hs)). done.
  - rewrite (bind_ok _ _ _ _ _ (at_seg_head vs b t l tr Hs)).
    by rewrite (bind_ok _ _ _ _ _ (IH vs (b + 1) tr fuel (seg_tail _ _ _ _ Hs) ltac:(lia))).
Qed.

(** The events and the end of a successful exec. *)
Lemma execvp_spec l vs b tr msg code :
  seg vs b l -> l <> [] -> result sys_os tr (SExecvp l) <> -1 ->
  execvp sys_os b msg code (AT vs tr) =
  Ok (Execed l, AT vs (tr ++ [Call (SExecvp l) (result sys_os tr (SExecvp l))])).
Proof.
  intros Hs Hl Hr. unfold execvp. rewrite (bind_ok _ _ _ _ _ (eq_refl (get (AT vs tr)))).
  rewrite (bind_ok _ _ _ _ _ (argv_from_spec l vs b tr _ Hs (fuel_seg vs b l tr Hs))).
  destruct l as [|t l]; [done|]. unfold sys, bind. simpl. rewrite (proj2 (Z.eqb_neq _ _)) by done. done.
Qed.
(** *** Whatever the operating system answers *)

Definition quiet {A} (m : M shell A) : Prop :=
  forall vs tr, exists a tr', m (AT vs tr) = Ok (a, AT vs tr').

Lemma quiet_sys c : quiet (sys sys_os c).
Proof. intros vs tr. unfold sys. eauto. Qed.

Lemma quiet_sys_ c : quiet (sys_ sys_os c).
Proof. intros vs tr. unfold sys_, sys, bind, ret. eauto. Qed.

Lemma quiet_emit e : quiet (emit e).
Proof. intros vs tr. unfold emit, modify. eexists tt, _. done. Qed.

Lemma quiet_fork child : quiet (fork sys_os child).
Proof. intros vs tr. unfold fork. case_match; eexists _, _; done. Qed.

Lemma quiet_pipe : quiet (pipe sys_os).
Proof. intros vs tr. unfold pipe, bind, get, ret. eexists _, _. done. Qed.

#[local] Hint Resolve quiet_sys quiet_sys_ quiet_emit quiet_fork quiet_pipe : core.

Lemma wp_quiet {A B} (m : M shell A) (k : A -> M shell B) Q vs tr :
  quiet m -> (forall a tr', wp (k a) Q (AT vs tr')) -> wp (bind m k) Q (AT vs tr).
Proof. intros Hm Hk. destruct (Hm vs tr) as (a & tr' & E). rewrite wp_bind, (wp_eq _ _ _ _ _ E). apply Hk. Qed.

Lemma wp_quiet_last {A} (m : M shell A) Q vs tr :
  quiet m -> (forall a tr', Q a (AT vs tr')) -> wp m Q (AT vs tr).
Proof. intros Hm Hk. destruct (Hm vs tr) as (a & tr' & E). rewrite (wp_eq _ _ _ _ _ E). apply Hk. Qed.

(** A known step, then the rest. *)
Lemma wp_step {A B} (m : M shell A) (k : A -> M shell B) Q s a s' :
  m s = Ok (a, s') -> wp (k a) Q s' -> wp (bind m k) Q s.
Proof. intros E H. by rewrite wp_bind, (wp_eq _ _ _ _ _ E). Qed.

(** The end of a command: some slots cut, everything else unchanged. *)
Definition fin {A} (vs : list slot) (_ : A) (s : shell) : Prop :=
  exists vs' tr', s = AT vs' tr' /\ cutdown vs vs'.

Lemma fin_here {A} vs vs' tr (a : A) : cutdown vs vs' -> fin vs a (AT vs' tr).
Proof. intros. by exists vs', tr. Qed.

#[local] Hint Resolve fin_here : core.

Ltac quiet_steps := repeat first [apply wp_quiet; [by auto|intros ? ?] | apply wp_ret].

Lemma at_seg vs b l tr : seg vs b l -> exists v, at_ b (AT vs tr) = Ok (v, AT vs tr).
Proof. destruct l; intros H; [rewrite (at_seg_end vs b tr H)|erewrite (at_seg_head vs b _ _ tr H)]; eauto. Qed.

Lemma redirect_robust vs b l dir tr : seg vs b l -> wp (execute_with_redirect sys_os b dir) (fin vs) (AT vs tr).
Proof.
  intros Hs. unfold execute_with_redirect. eapply wp_step; [done|].
  eapply wp_step; [by apply find_first_char_spec; [|eapply fuel_seg]|].
  destruct (pos (starts_with dir) l) as [k|] eqn:E; cbn [mbind option_bind]; [|apply wp_ret; by apply fin_here].
  apply pos_Some in E as (l1 & t & l2 & -> & -> & _).
  destruct (cut_seg vs b l1 t l2 tr Hs) as (vs' & Ec & _ & Hs2 & Hcut & _). eapply wp_step; [exact Ec|].
  destruct (at_seg vs' _ _ tr Hs2) as [v Ev]. eapply wp_step; [exact Ev|]. quiet_steps. auto.
Qed.

Lemma cut_if_robust vs b l sp tr :
  seg vs b l ->
  exists vs', cut_if (k ← pos (fun t => strcmp_eq t sp) l; Some (b + k)) (AT vs tr) = Ok (tt, AT vs' tr) /\ cutdown vs vs' /\
    (forall b' l', seg vs b' l' -> b + Z.of_nat (length l) < b' -> seg vs' b' l').
Proof.
  intros Hs. destruct (pos _ l) as [k|] eqn:E; cbn [mbind option_bind cut_if].
  - apply pos_Some in E as (l1 & t & l2 & -> & -> & _).
    destruct (cut_seg vs b l1 t l2 tr Hs) as (vs' & Ec & _ & _ & Hcut & Hk). exists vs'.
    split; [done|]. split; [done|]. intros b' l' H Hb. apply Hk; [done|]. left. rewrite length_app in Hb. simpl in Hb. lia.
  - by exists vs.
Qed.

Lemma pipe_redirect_robust vs b l tr :
  seg vs b l -> wp (execute_with_pipe_and_redirect sys_os b) (fin vs) (AT vs tr).
Proof.
  intros Hs. unfold execute_with_pipe_and_redirect. apply wp_quiet; [auto|]. intros [r fds] tr1.
  destruct (r =? -1); [quiet_steps; by apply fin_here|].
  eapply wp_step; [by apply find_special_token_spec|].
  destruct (pos _ l) as [k|] eqn:E; cbn [mbind option_bind]; [|quiet_steps; by apply fin_here].
  apply pos_Some in E as (l1 & t & l2 & -> & -> & _).
  destruct (cut_seg vs b l1 t l2 tr1 Hs) as (vs1 & Ec & Hs1 & Hs2 & Hcut & _). eapply wp_step; [exact Ec|].
  eapply wp_step; [by apply find_special_token_spec|].
  destruct (cut_if_robust vs1 b l1 (str "<") tr1 Hs1) as (vs2 & Ec2 & Hcut2 & Hkeep). eapply wp_step; [exact Ec2|].
  apply Hkeep in Hs2; [|lia]. eapply wp_step; [by apply find_special_token_spec|].
  destruct (cut_if_robust vs2 _ l2 (str ">") tr1 Hs2) as (vs3 & Ec3 & Hcut3 & _). eapply wp_step; [exact Ec3|].
  quiet_steps. apply fin_here. by etrans; [|etrans].
Qed.

Lemma pipe_robust vs b l tr : seg vs b l -> wp (execute_with_pipe sys_os b) (fin vs) (AT vs tr).
Proof.
  intros Hs. unfold execute_with_pipe. eapply wp_step; [done|].
  eapply wp_step; [by apply find_first_char_spec; [|eapply fuel_seg]|].
  destruct (pos _ l) as [k|] eqn:E; cbn [mbind option_bind]; [|apply wp_ret; by apply fin_here].
  apply pos_Some in E as (l1 & t & l2 & -> & -> & _).
  destruct (cut_seg vs b l1 t l2 tr Hs) as (vs1 & Ec & Hs1 & Hs2 & Hcut & _). eapply wp_step; [exact Ec|].
  apply wp_quiet; [auto|]. intros [r fds] tr1. quiet_steps. by apply fin_here.
Qed.

Lemma mkdir_robust pf : forall l vs b tr fuel,
  seg vs b l -> (length l < fuel)%nat -> wp (mkdir_args sys_os fuel b pf) (fin vs) (AT vs tr).
Proof.
  induction l as [|t l IH]; intros vs b tr [|fuel] Hs Hf; simpl in Hf; try lia; cbn [mkdir_args].
  - eapply wp_step; [by apply at_seg_end|]. apply wp_ret. by apply fin_here.
  - eapply wp_step; [by eapply at_seg_head|]. apply wp_quiet; [auto|]. intros r tr1.
    eapply wp_step; [done|]. cbv zeta. match goal with |- context [if ?c then _ else _] => destruct c end.
    + quiet_steps. by apply fin_here.
    + apply IH; [by eapply seg_tail|lia].
Qed.

Lemma echo_robust e : forall l vs b tr fuel,
  seg vs b l -> (length l < fuel)%nat -> exists out, echo_args fuel b e (AT vs tr) = Ok (out, AT vs tr).
Proof.
  induction l as [|t l IH]; intros vs b tr [|fuel] Hs Hf; simpl in Hf; try lia; cbn [echo_args].
  - rewrite (bind_ok _ _ _ _ _ (at_seg_end vs b tr Hs)). eauto.
  - rewrite (bind_ok _ _ _ _ _ (at_seg_head vs b t l tr Hs)). pose proof (seg_tail _ _ _ _ Hs) as Ht.
    destruct (at_seg vs _ _ tr Ht) as [v Ev]. rewrite (bind_ok _ _ _ _ _ Ev).
    destruct (IH vs (b + 1) tr fuel Ht) as [out Eo]; [lia|]. rewrite (bind_ok _ _ _ _ _ Eo). unfold ret. eauto.
Qed.

(** The optional flag of a built-in: the segment of its operands. *)
Lemma flag_seg vs b l flag tr :
  seg vs b l ->
  exists f, has_flag b flag (AT vs tr) = Ok (f, AT vs tr) /\ exists l', seg vs (if (f : bool) then b + 1 else b) l'.
Proof.
  intros Hs. unfold has_flag. destruct l as [|t l].
  - rewrite (bind_ok _ _ _ _ _ (at_seg_end vs b tr Hs)). exists false. eauto.
  - rewrite (bind_ok _ _ _ _ _ (at_seg_head vs b t l tr Hs)). unfold ret. eexists. split; [done|].
    destruct (strcmp_eq t flag); [|by exists (t :: l)]. exists l. by eapply seg_tail.
Qed.

Lemma token_eq_spec vs b t l s tr :
  seg vs b (t :: l) -> token_eq b s (AT vs tr) = Ok (strcmp_eq t s, AT vs tr).
Proof. intros Hs. unfold token_eq. by rewrite (bind_ok _ _ _ _ _ (at_seg_head vs b t l tr Hs)). Qed.

Lemma simple_robust vs b t l tr :
  seg vs b (t :: l) -> wp (execute_simple_command sys_os b) (fin vs) (AT vs tr).
Proof.
  intros Hs. pose proof (seg_tail _ _ _ _ Hs) as Ht. unfold execute_simple_command.
  eapply wp_step; [by eapply token_eq_spec|]. destruct (strcmp_eq t _).
  { unfold do_cd. destruct (at_seg vs _ _ tr Ht) as [v Ev]. eapply wp_step; [exact Ev|].
    destruct v; [quiet_steps; by apply fin_here..|]. apply wp_quiet; [auto|]. intros r tr1.
    destruct (negb _); quiet_steps; by apply fin_here. }
  eapply wp_step; [by eapply token_eq_spec|]. destruct (strcmp_eq t _).
  { unfold do_pwd. eapply wp_step; [done|]. apply wp_quiet; [auto|]. intros r tr1.
    destruct (negb _); quiet_steps; by apply fin_here. }
  eapply wp_step; [by eapply token_eq_spec|]. destruct (strcmp_eq t _).
  { unfold do_mkdir. destruct (flag_seg vs _ _ (str "-p") tr Ht) as (f & Ef & l' & Hl').
    eapply wp_step; [exact Ef|]. cbv zeta. replace (b + 2) with (b + 1 + 1) by lia.
    destruct (at_seg vs _ _ tr Hl') as [v Ev]. eapply wp_step; [exact Ev|].
    destruct v; [quiet_steps; by apply fin_here..|]. eapply wp_step; [done|].
    eapply mkdir_robust; [done|by eapply fuel_seg]. }
  eapply wp_step; [by eapply token_eq_spec|]. destruct (strcmp_eq t _).
  { unfold do_echo. destruct (flag_seg vs _ _ (str "-e") tr Ht) as (f & Ef & l' & Hl').
    eapply wp_step; [exact Ef|]. replace (b + 2) with (b + 1 + 1) by lia. eapply wp_step; [done|].
    destruct (echo_robust f l' vs _ tr _ Hl' (fuel_seg _ _ _ tr Hl')) as [out Eo]. eapply wp_step; [exact Eo|].
    quiet_steps. by apply fin_here. }
  eapply wp_step; [by eapply at_seg_head|]. eapply wp_step; [done|]. apply wp_quiet; [auto|]. intros pid tr1.
  destruct (pid =? -1); [quiet_steps; by apply fin_here|]. apply wp_quiet; [auto|]. intros u tr2. eapply wp_step; [done|]. quiet_steps. by apply fin_here.
Qed.

Lemma dispatch_robust vs b t l tr :
  seg vs b (t :: l) -> wp (dispatch sys_os b) (fin vs) (AT vs tr).
Proof.
  intros Hs. unfold dispatch. do 3 (eapply wp_step; [by apply find_special_token_spec|]).
  repeat match goal with |- wp (match ?o with Some _ => _ | None => _ end) _ _ => destruct o end;
    first [by eapply pipe_redirect_robust | by eapply pipe_robust | by eapply redirect_robust | by eapply simple_robust].
Qed.
End segments.

Lemma sequence_robust sys_os t0 rest : forall l2 l1 vs b tr fuel,
  seg vs b (l1 ++ l2) -> (length l2 < fuel)%nat ->
  wp (run_sequence sys_os fuel b (Z.of_nat (length l1)))
    (fun r s' => exists vs' tr', s' = at_state t0 rest vs' tr' /\ cutdown vs vs' /\
       match r with
       | inl _ => True
       | inr b' => exists l', seg vs' b' l' /\ (l' = [] -> l1 ++ l2 = [] \/ last (l1 ++ l2) = Some (str ";"))
       end) (at_state t0 rest vs tr).
Proof.
  induction l2 as [|t l2 IH]; intros l1 vs b tr [|fuel] Hs Hf; simpl in Hf; try lia; cbn [run_sequence];
    pose proof (seg_skip _ _ _ _ Hs) as Hi.
  - eapply wp_step; [by apply at_seg_end|]. apply wp_ret. exists vs, tr. split; [done|]. split; [done|].
    exists (l1 ++ []). split; [done|]. by left.
  - eapply wp_step; [by eapply at_seg_head|]. cbv beta iota. destruct (strcmp_eq t (str ";")) eqn:E.
    + apply strcmp_eq_true in E as ->.
      destruct (cut_seg t0 rest vs b l1 _ l2 tr Hs) as (vs1 & Ec & _ & Hs2 & Hcut & _).
      eapply wp_step; [exact Ec|]. apply wp_quiet; [apply quiet_fork|]. intros pid tr1. destruct (pid <? 0).
      * apply wp_quiet; [apply quiet_emit|]. intros. apply wp_ret. by exists vs1, tr'.
      * apply wp_quiet; [apply quiet_sys_|]. intros [] tr2.
        eapply wp_mono; [apply (IH [] vs1 _ tr2 fuel Hs2); lia|].
        intros r s' (vs' & tr' & -> & Hc' & Hr). exists vs', tr'. split; [done|]. split; [by etrans|].
        destruct r as [|b']; [done|]. destruct Hr as (l' & Hl' & Hn). exists l'. split; [done|].
        intros He. right. destruct (Hn He) as [E|Hlast]; simpl in *.
        -- subst l2. by rewrite last_snoc.
        -- rewrite last_app_cons. destruct l2; [done|]. exact Hlast.
    + replace (Z.of_nat (length l1) + 1) with (Z.of_nat (length (l1 ++ [t]))) by (rewrite length_app; simpl; lia).
      replace (l1 ++ t :: l2) with ((l1 ++ [t]) ++ l2) in * by (by rewrite <- app_assoc).
      apply IH; [done|lia].
Qed.

(** shell_run ends on every command line that is not empty and does not end
    in a semicolon. *)
Lemma shell_run_robust sys_os t0 rest vs b l tr :
  seg vs b l -> l <> [] -> last l <> Some (str ";") ->
  wp (shell_run sys_os b) (fun _ s' => exists vs' tr', s' = at_state t0 rest vs' tr' /\ cutdown vs vs') (at_state t0 rest vs tr).
Proof.
  intros Hs Hl Hlast. unfold shell_run. eapply wp_step; [done|]. rewrite wp_bind.
  eapply wp_mono; [apply (sequence_robust sys_os t0 rest l [] vs b tr); [done|by eapply fuel_seg]|].
  intros r s' (vs' & tr' & -> & Hc & Hr). destruct r as [code|b'].
  - apply wp_ret. by exists vs', tr'.
  - destruct Hr as (l' & Hl' & Hn). destruct l' as [|t l']; [destruct (Hn eq_refl); done|].
    eapply wp_mono; [by eapply dispatch_robust|]. intros a s'' (vs'' & tr'' & -> & Hc').
    exists vs'', tr''. split; [done|by etrans].
Qed.

(** ** Descriptors

    What each file descriptor of a process stands for after the calls of a
    trace; a child starts with the table of its parent. *)
Inductive chan :=
  | Std (n : Z)
  | PipeR
  | PipeW
  | File (path : slot) (write : bool).

Abbreviation table := (gmap Z chan).

Definition std : table := <[0 := Std 0]> (<[1 := Std 1]> (<[2 := Std 2]> ∅)).

Definition fd_event (t : table) (e : event) : table :=
  match e with
  | Call (SDup2 a b) r => if r =? -1 then t else match t !! a with Some c => <[b := c]> t | None => t end
  | Call (SClose a) r => if r =? -1 then t else delete a t
  | Call (SOpen p w) r => if r =? -1 then t else <[r := File p w]> t
  | PipeCall r fds => if r =? -1 then t else <[fst fds := PipeR]> (<[snd fds := PipeW]> t)
  | _ => t
  end.

Definition fds (tr : list event) : table := foldl fd_event std tr.

(** Calls that succeed: new processes and programs start, descriptors given out
    are free ones. *)
Record os_ok (o : os) : Prop := {
  fork_ok tr : 0 < result o tr SFork;
  exec_ok tr argv : result o tr (SExecvp argv) <> -1;
  dup2_ok tr a b : result o tr (SDup2 a b) <> -1;
  close_ok tr a : result o tr (SClose a) <> -1;
  pipe_ok tr : result o tr SPipe = 0;
  pipe_fresh tr : fds tr !! fst (pipe_fds o tr) = None /\ fds tr !! snd (pipe_fds o tr) = None /\
    fst (pipe_fds o tr) <> snd (pipe_fds o tr);
  open_ok_fresh tr p w : 0 <= result o tr (SOpen p w) /\ fds tr !! result o tr (SOpen p w) = None
}.

Ltac map_tac :=
  apply map_eq; intros ?i;
  repeat match goal with
  | |- context [<[?k := _]> _ !! ?i] => destruct (decide (k = i)); [first [exfalso; lia|subst; rewrite lookup_insert_eq]|rewrite lookup_insert_ne by done]
  | |- context [delete ?k _ !! ?i] => destruct (decide (k = i)); [first [exfalso; lia|subst; rewrite lookup_delete_eq]|rewrite lookup_delete_ne by done]
  end; try done.

Section wiring.
Context (o : os) (Hos : os_ok o) (t0 : state) (rest : list slot).
Abbreviation AT := (at_state t0 rest).

Lemma std_dom k : std !! k = None -> k <> 0 /\ k <> 1 /\ k <> 2.
Proof. intros H. split; [|split]; intros ->; done. Qed.

Lemma fds_snoc tr e : fds (tr ++ [e]) = fd_event (fds tr) e.
Proof. unfold fds. by rewrite foldl_app. Qed.

Lemma fds_dup2 tr a b c : fds tr !! a = Some c -> fds (tr ++ [Call (SDup2 a b) (result o tr (SDup2 a b))]) = <[b := c]> (fds tr).
Proof. intros H. rewrite fds_snoc. simpl. rewrite (proj2 (Z.eqb_neq _ _)) by apply (dup2_ok _ Hos). by rewrite H. Qed.

Lemma fds_close tr a : fds (tr ++ [Call (SClose a) (result o tr (SClose a))]) = delete a (fds tr).
Proof. rewrite fds_snoc. simpl. by rewrite (proj2 (Z.eqb_neq _ _)) by apply (close_ok _ Hos). Qed.

Lemma fds_open tr p w : fds (tr ++ [Call (SOpen p w) (result o tr (SOpen p w))]) = <[result o tr (SOpen p w) := File p w]> (fds tr).
Proof.
  rewrite fds_snoc. simpl. rewrite (proj2 (Z.eqb_neq _ _)); [done|].
  destruct (open_ok_fresh _ Hos tr p w). lia.
Qed.

(** A child that runs to an exec. *)
Lemma fork_spec child vs tr e tr' :
  child (AT vs (tr ++ [Born])) = Ok (e, AT vs ((tr ++ [Born]) ++ tr')) ->
  exists pid, 0 < pid /\ fork o child (AT vs tr) = Ok (pid, AT vs (tr ++ [Child pid tr' e])).
Proof.
  intros H. exists (result o tr SFork). pose proof (fork_ok _ Hos tr). split; [done|]. unfold fork. simpl.
  rewrite (proj2 (Z.ltb_ge _ _)) by lia. change (mk_shell _ (tr ++ [Born])) with (AT vs (tr ++ [Born])). rewrite H.
  simpl. replace (S (length tr)) with (length (tr ++ [Born])) by (rewrite length_app; simpl; lia).
  by rewrite drop_app_length.
Qed.
(** A child that makes calls, ends in the program [l] and has the descriptors
    [T] there. *)
Definition child_execs (child : M shell ending) (vs : list slot) (tr : list event)
    (l : list (list Z)) (T : table) : Prop :=
  exists tr', child (AT vs tr) = Ok (Execed l, AT vs (tr ++ tr')) /\ fds (tr ++ tr') = T.

Lemma child_exec vs tr b l msg code :
  seg vs b l -> l <> [] -> child_execs (execvp o b msg code) vs tr l (fds tr).
Proof.
  intros Hs Hl. eexists. split; [by apply execvp_spec; [| |apply (exec_ok _ Hos)]|]. by rewrite fds_snoc.
Qed.

Lemma child_step {A} (m : M shell A) k a vs tr evs l T :
  m (AT vs tr) = Ok (a, AT vs (tr ++ evs)) ->
  child_execs (k a) vs (tr ++ evs) l T -> child_execs (bind m k) vs tr l T.
Proof.
  intros E (tr' & Hk & Hf). exists (evs ++ tr'). rewrite (bind_ok _ _ _ _ _ E), app_assoc. done.
Qed.

Lemma child_sys c k vs tr l T :
  child_execs k vs (tr ++ [Call c (result o tr c)]) l T -> child_execs (do! sys_ o c in k) vs tr l T.
Proof. intros H. by eapply child_step. Qed.

(** The table with a pipe. *)
Definition piped (r w : Z) : table := <[r := PipeR]> (<[w := PipeW]> std).

Definition input (f : option (list Z)) : chan := match f with Some f => File (Tok f) false | None => Std 0 end.
Definition output (f : option (list Z)) : chan := match f with Some f => File (Tok f) true | None => Std 1 end.

(** Without a redirection the standard files stay. *)
Lemma std_input : <[0 := input None]> (<[1 := PipeW]> std) = <[1 := PipeW]> std.
Proof. unfold std, input. map_tac. Qed.
Lemma std_output : <[0 := PipeR]> (<[1 := output None]> std) = <[0 := PipeR]> std.
Proof. unfold std, output. map_tac. Qed.

(** A descriptor other than the standard ones and the pipe. *)
Lemma piped_fresh r w x : piped r w !! x = None -> std !! x = None /\ x <> r /\ x <> w.
Proof.
  unfold piped. intros H. destruct (decide (r = x)) as [->|]; [by rewrite lookup_insert_eq in H|].
  rewrite lookup_insert_ne in H by done. destruct (decide (w = x)) as [->|]; [by rewrite lookup_insert_eq in H|].
  rewrite lookup_insert_ne in H by done. done.
Qed.

Section pipe_children.
Context (r w : Z) (Hr : std !! r = None) (Hw : std !! w = None) (Hrw : r <> w).

Lemma simple_left_child vs tr b l :
  seg vs b l -> l <> [] -> fds tr = piped r w ->
  child_execs (do! sys_ o (SClose r) in do! sys_ o (SDup2 w 1) in do! sys_ o (SClose w) in
               execvp o b (str "Failed to execute command") 1) vs tr l (<[1 := PipeW]> std).
Proof.
  intros Hs Hl Ht. pose proof (std_dom _ Hr). pose proof (std_dom _ Hw).
  do 3 apply child_sys. eassert (Hf : fds _ = _); [|rewrite <- Hf; by apply child_exec].
  rewrite fds_close, (fds_dup2 _ _ _ PipeW), fds_close, Ht; [|rewrite fds_close, Ht; unfold piped; by simplify_map_eq].
  unfold piped. map_tac.
Qed.
Lemma simple_right_child vs tr b l :
  seg vs b l -> l <> [] -> fds tr = piped r w ->
  child_execs (do! sys_ o (SClose w) in do! sys_ o (SDup2 r 0) in do! sys_ o (SClose r) in
               execvp o b (str "Failed to execute command") 1) vs tr l (<[0 := PipeR]> std).
Proof.
  intros Hs Hl Ht. pose proof (std_dom _ Hr). pose proof (std_dom _ Hw).
  do 3 apply child_sys. eassert (Hf : fds _ = _); [|rewrite <- Hf; by apply child_exec].
  rewrite fds_close, (fds_dup2 _ _ _ PipeR), fds_close, Ht; [|rewrite fds_close, Ht; unfold piped; by simplify_map_eq].
  unfold piped. map_tac.
Qed.

(** Slot [i + 1] holds the name of the file to redirect to. *)
Definition names (vs : list slot) (ri : option Z) (f : option (list Z)) : Prop :=
  match ri, f with
  | Some i, Some f => exists l', seg vs (i + 1) (f :: l')
  | None, None => True
  | _, _ => False
  end.

Lemma left_child_execs vs tr b l ri f :
  seg vs b l -> l <> [] -> fds tr = piped r w -> names vs ri f ->
  child_execs (left_child o b (r, w) ri) vs tr l (<[0 := input f]> (<[1 := PipeW]> std)).
Proof.
  intros Hs Hl Ht Hn. pose proof (std_dom _ Hr). pose proof (std_dom _ Hw). unfold left_child.
  assert (Hend : forall tr1, fds tr1 = <[0 := input f]> (piped r w) ->
    child_execs (do! sys_ o (SDup2 w 1) in do! sys_ o (SClose r) in do! sys_ o (SClose w) in
      execvp o b (str "execvp left command") 1) vs tr1 l (<[0 := input f]> (<[1 := PipeW]> std))).
  { intros tr1 Ht1. do 3 apply child_sys. eassert (Hf : fds _ = _); [|rewrite <- Hf; by apply child_exec].
    rewrite !fds_close, (fds_dup2 _ _ _ PipeW), Ht1; [unfold piped; map_tac|].
    rewrite Ht1. unfold piped. rewrite lookup_insert_ne, lookup_insert_ne by lia. apply lookup_insert_eq. }
  destruct ri as [i|], f as [f|]; try done; simpl in Hn.
  - destruct Hn as (l' & Hf). destruct (open_ok_fresh _ Hos tr (Tok f) false) as [Hx Hfresh].
    set (x := result o tr (SOpen (Tok f) false)) in *. rewrite Ht in Hfresh.
    destruct (piped_fresh _ _ _ Hfresh) as (Hxs & Hxr & Hxw). pose proof (std_dom _ Hxs).
    set (tr1 := tr ++ [Call (SOpen (Tok f) false) x]).
    set (tr2 := tr1 ++ [Call (SDup2 x 0) (result o tr1 (SDup2 x 0))]).
    set (tr3 := tr2 ++ [Call (SClose x) (result o tr2 (SClose x))]).
    eapply (child_step _ _ true vs tr [Call (SOpen (Tok f) false) x; Call (SDup2 x 0) (result o tr1 (SDup2 x 0));
      Call (SClose x) (result o tr2 (SClose x))]).
    + rewrite (bind_ok _ _ _ _ _ (at_seg_head t0 rest vs (i + 1) f l' tr Hf)).
      unfold bind at 1, sys at 1. cbn [trace at_state]. fold x. rewrite (proj2 (Z.ltb_ge _ _)) by lia.
      unfold tr2, tr1. cbn. by rewrite <- !app_assoc.
    + replace (tr ++ _) with tr3 by (unfold tr3, tr2, tr1; by rewrite <- !app_assoc). apply Hend.
      unfold tr3. rewrite fds_close. unfold tr2. rewrite (fds_dup2 _ _ _ (File (Tok f) false)).
      2: { unfold tr1, x. rewrite fds_open. by rewrite lookup_insert_eq. }
      unfold tr1, x. rewrite fds_open, Ht. fold x. unfold piped in *. map_tac.
  - eapply (child_step _ _ true vs tr []); [by rewrite app_nil_r|]. rewrite app_nil_r. apply Hend.
    rewrite Ht. unfold piped, input, std. map_tac.
Qed.

Lemma right_child_execs vs tr b l ri f :
  seg vs b l -> l <> [] -> fds tr = piped r w -> names vs ri f ->
  child_execs (right_child o b (r, w) ri) vs tr l (<[0 := PipeR]> (<[1 := output f]> std)).
Proof.
  intros Hs Hl Ht Hn. pose proof (std_dom _ Hr). pose proof (std_dom _ Hw). unfold right_child. cbn [fst snd].
  apply child_sys, child_sys, child_sys.
  match goal with |- child_execs _ _ ?tr1 _ _ => set (tr4 := tr1) end.
  assert (Ht4 : fds tr4 = <[0 := PipeR]> std).
  { unfold tr4. rewrite !fds_close, (fds_dup2 _ _ _ PipeR), Ht; [unfold piped; map_tac|].
    rewrite ?Ht. unfold piped. by simplify_map_eq. }
  clearbody tr4. destruct ri as [i|], f as [f|]; try done; simpl in Hn.
  - destruct Hn as (l' & Hf). destruct (open_ok_fresh _ Hos tr4 (Tok f) true) as [Hx Hfresh].
    set (x := result o tr4 (SOpen (Tok f) true)) in *. rewrite Ht4 in Hfresh.
    assert (Hxs : x <> 0 /\ x <> 1 /\ x <> 2) by (split; [|split]; intros E; rewrite E in Hfresh; done).
    set (tr1 := tr4 ++ [Call (SOpen (Tok f) true) x]).
    set (tr2 := tr1 ++ [Call (SDup2 x 1) (result o tr1 (SDup2 x 1))]).
    set (tr3 := tr2 ++ [Call (SClose x) (result o tr2 (SClose x))]).
    eapply (child_step _ _ true vs tr4 [Call (SOpen (Tok f) true) x; Call (SDup2 x 1) (result o tr1 (SDup2 x 1));
      Call (SClose x) (result o tr2 (SClose x))]).
    + rewrite (bind_ok _ _ _ _ _ (at_seg_head t0 rest vs (i + 1) f l' tr4 Hf)).
      unfold bind at 1, sys at 1. cbn [trace at_state]. fold x. rewrite (proj2 (Z.ltb_ge _ _)) by lia.
      unfold tr2, tr1. cbn. by rewrite <- !app_assoc.
    + replace (tr4 ++ _) with tr3 by (unfold tr3, tr2, tr1; by rewrite <- !app_assoc).
      eassert (Hfd : fds _ = _); [|rewrite <- Hfd; by apply child_exec].
      unfold tr3. rewrite fds_close. unfold tr2. rewrite (fds_dup2 _ _ _ (File (Tok f) true)).
      2: { unfold tr1, x. rewrite fds_open. by rewrite lookup_insert_eq. }
      unfold tr1, x. rewrite fds_open, Ht4. fold x. map_tac.
      by rewrite lookup_insert_ne in Hfresh by done.
  - eapply (child_step _ _ true vs tr4 []); [by rewrite app_nil_r|]. rewrite app_nil_r.
    eassert (Hfd : fds _ = _); [|rewrite <- Hfd; by apply child_exec]. rewrite Ht4. unfold std. map_tac.
Qed.
End pipe_children.
Lemma fork_execs child vs tr l T :
  child_execs child vs (tr ++ [Born]) l T ->
  exists pid evs, 0 < pid /\ fork o child (AT vs tr) = Ok (pid, AT vs (tr ++ [Child pid evs (Execed l)])) /\
    foldl fd_event (fds tr) evs = T.
Proof.
  intros (tr' & Hc & HT). destruct (fork_spec _ _ _ _ _ Hc) as (pid & Hpid & Hf). exists pid, tr'.
  split; [done|]. split; [done|]. rewrite <- HT. unfold fds. rewrite !foldl_app. done.
Qed.

Lemma pipe_spec vs tr :
  fds tr = std ->
  exists r w, pipe o (AT vs tr) = Ok ((0, (r, w)), AT vs (tr ++ [PipeCall 0 (r, w)])) /\
    fds (tr ++ [PipeCall 0 (r, w)]) = piped r w /\ std !! r = None /\ std !! w = None /\ r <> w.
Proof.
  intros Ht. destruct (pipe_fresh _ Hos tr) as (Hr & Hw & Hrw). rewrite Ht in Hr, Hw.
  destruct (pipe_fds o tr) as [r w] eqn:E. exists r, w. unfold pipe, bind, get. simpl.
  rewrite (pipe_ok _ Hos), E. split; [done|]. rewrite fds_snoc, Ht. done.
Qed.

(** What the trace gains when a pipeline of [l1] and [l2] is run: the two
    programs, with the tables [T1] and [T2]; then the shell closes both ends of
    the pipe, so that it keeps no descriptor, and waits twice, for any child or
    for the two. *)
Definition pipeline (tr tr' : list event) (l1 : list (list Z)) (T1 : table) (l2 : list (list Z)) (T2 : table) : Prop :=
  exists r w pid1 evs1 pid2 evs2 c1 c2 x1 x2 x3 x4,
    tr' = tr ++ [PipeCall 0 (r, w); Child pid1 evs1 (Execed l1); Child pid2 evs2 (Execed l2);
                 Call (SClose r) x1; Call (SClose w) x2; Call c1 x3; Call c2 x4] /\
    foldl fd_event (piped r w) evs1 = T1 /\ foldl fd_event (piped r w) evs2 = T2 /\
    ((c1 = SWait /\ c2 = SWait) \/ (c1 = SWaitpid pid1 /\ c2 = SWaitpid pid2)) /\ fds tr' = std.

Lemma closed_pipe tr r w :
  fds tr = piped r w -> std !! r = None -> std !! w = None ->
  fds ((tr ++ [Call (SClose r) (result o tr (SClose r))]) ++
       [Call (SClose w) (result o (tr ++ [Call (SClose r) (result o tr (SClose r))]) (SClose w))]) = std.
Proof.
  intros Ht Hr Hw. rewrite !fds_close, Ht. unfold piped. map_tac.
Qed.

Lemma execute_with_pipe_spec vs b l1 l2 bar tr :
  seg vs b (l1 ++ bar :: l2) -> l1 <> [] -> l2 <> [] -> fds tr = std ->
  starts_with 124 bar = true -> forallb (fun t => negb (starts_with 124 t)) l1 = true ->
  exists vs' tr', execute_with_pipe o b (AT vs tr) = Ok (0, AT vs' tr') /\ cutdown vs vs' /\
    pipeline tr tr' l1 (<[1 := PipeW]> std) l2 (<[0 := PipeR]> std).
Proof.
  intros Hs H1 H2 Ht Hbar Hno. unfold execute_with_pipe.
  rewrite (bind_ok _ _ _ _ _ (eq_refl (get (AT vs tr)))).
  rewrite (bind_ok _ _ _ _ _ (find_first_char_spec t0 rest 124 _ vs b tr _ Hs (fuel_seg t0 rest _ _ _ tr Hs))).
  rewrite pos_app by done. cbn [mbind option_bind].
  destruct (cut_seg t0 rest vs b l1 bar l2 tr Hs) as (vs1 & Ec & Hs1 & Hs2 & Hcut & _).
  rewrite (bind_ok _ _ _ _ _ Ec). destruct (pipe_spec vs1 tr Ht) as (r & w & Ep & Htp & Hr & Hw & Hrw).
  rewrite (bind_ok _ _ _ _ _ Ep). cbn [fst snd].
  destruct (fork_execs _ vs1 _ l1 _ (simple_left_child r w Hr Hw Hrw vs1 ((tr ++ [PipeCall 0 (r, w)]) ++ [Born]) b l1 Hs1 H1 ltac:(by rewrite fds_snoc)))
    as (pid1 & evs1 & _ & Ef1 & HT1). rewrite (bind_ok _ _ _ _ _ Ef1). rewrite Htp in HT1.
  set (tr2 := (tr ++ [PipeCall 0 (r, w)]) ++ [Child pid1 evs1 (Execed l1)]).
  assert (Ht2 : fds tr2 = piped r w) by (unfold tr2; by rewrite fds_snoc).
  destruct (fork_execs _ vs1 tr2 l2 _ (simple_right_child r w Hr Hw Hrw vs1 (tr2 ++ [Born]) _ l2 Hs2 H2 ltac:(by rewrite fds_snoc)))
    as (pid2 & evs2 & _ & Ef2 & HT2). rewrite (bind_ok _ _ _ _ _ Ef2). rewrite Ht2 in HT2.
  eexists vs1, _. split; [reflexivity|]. split; [done|].
  eexists r, w, pid1, evs1, pid2, evs2, _, _, _, _, _, _. split.
  { unfold tr2. cbn. rewrite <- !app_assoc. reflexivity. }
  split; [done|]. split; [done|]. split; [by left|].
  cbn. rewrite 2 fds_snoc. cbn. apply closed_pipe; [|done|done]. by rewrite fds_snoc.
Qed.
(** A redirection token with its file name. *)
Definition redir (c : Z) (f : option (list Z)) : list (list Z) :=
  match f with Some f => [[c]; f] | None => [] end.

(** A token that does not start with a special character of the shell. *)
Definition plain (t : list Z) : bool := forallb (fun c => negb (starts_with c t)) [59; 124; 60; 62].
Definition plain_file (f : option (list Z)) : bool := match f with Some f => plain f | None => true end.

Lemma plain_not c t : In c [59; 124; 60; 62] -> plain t = true -> starts_with c t = false /\ strcmp_eq t [c] = false.
Proof.
  intros Hc Hp. unfold plain in Hp. rewrite forallb_forall in Hp. specialize (Hp c Hc). apply negb_true_iff in Hp.
  split; [done|]. apply not_true_iff_false. rewrite strcmp_eq_true. intros ->. simpl in Hp. lia.
Qed.

Lemma plains_not c l :
  In c [59; 124; 60; 62] -> forallb plain l = true ->
  forallb (fun t => negb (strcmp_eq t [c])) l = true /\ forallb (fun t => negb (starts_with c t)) l = true.
Proof.
  intros Hc. induction l as [|t l IH]; simpl; [done|]. intros [Ht Hl]%andb_true_iff.
  destruct (plain_not c t Hc Ht) as [-> ->]. simpl. by apply IH.
Qed.

Lemma pos_redir c l f :
  In c [59; 124; 60; 62] -> forallb plain l = true -> plain_file f = true ->
  pos (fun t => strcmp_eq t [c]) (l ++ redir c f) = match f with Some _ => Some (Z.of_nat (length l)) | None => None end.
Proof.
  intros Hc Hl Hf. destruct (plains_not c l Hc Hl) as [Hno _]. destruct f as [f|]; simpl.
  - apply pos_app; [done|]. by apply strcmp_eq_true.
  - rewrite app_nil_r. by apply pos_none.
Qed.

(** Cutting at a redirection leaves the command and the file name. *)
Lemma cut_redir c vs b l f tr :
  In c [59; 124; 60; 62] -> forallb plain l = true -> plain_file f = true ->
  seg vs b (l ++ redir c f) ->
  exists ri vs', (k ← pos (fun t => strcmp_eq t [c]) (l ++ redir c f); Some (b + k)) = ri /\
    cut_if ri (AT vs tr) = Ok (tt, AT vs' tr) /\ cutdown vs vs' /\ seg vs' b l /\ names vs' ri f /\
    (match ri with Some i => i = b + Z.of_nat (length l) | None => True end) /\
    (forall b' l', seg vs b' l' ->
       b + Z.of_nat (length (l ++ redir c f)) < b' \/ b' + Z.of_nat (length l') < b -> seg vs' b' l').
Proof.
  intros Hc Hl Hf Hs. rewrite pos_redir by done. destruct f as [f|]; simpl in *.
  - destruct (cut_seg t0 rest vs b l [c] [f] tr Hs) as (vs' & Ec & Hs1 & Hs2 & Hcut & Hk).
    eexists _, vs'. split; [done|]. split; [exact Ec|]. split; [done|]. split; [done|]. split; [by exists []|].
    split; [done|]. intros b' l' H [H'|H']; apply Hk; try done; [left|right]; rewrite ?length_app in *; simpl in *; lia.
  - rewrite app_nil_r in Hs. exists None, vs. split; [done|]. split; [done|]. split; [done|]. split; [done|].
    split; [done|]. split; [done|]. done.
Qed.
Lemma execute_with_pipe_and_redirect_spec vs b l1 f1 l2 f2 tr :
  seg vs b ((l1 ++ redir 60 f1) ++ [124] :: l2 ++ redir 62 f2) ->
  forallb plain l1 = true -> forallb plain l2 = true -> plain_file f1 = true -> plain_file f2 = true ->
  l1 <> [] -> l2 <> [] -> fds tr = std ->
  exists vs' tr', execute_with_pipe_and_redirect o b (AT vs tr) = Ok (0, AT vs' tr') /\ cutdown vs vs' /\
    pipeline tr tr' l1 (<[0 := input f1]> (<[1 := PipeW]> std)) l2 (<[0 := PipeR]> (<[1 := output f2]> std)).
Proof.
  intros Hs Hp1 Hp2 Hf1 Hf2 H1 H2 Ht. unfold execute_with_pipe_and_redirect.
  change (str "|") with [124]; change (str "<") with [60]; change (str ">") with [62].
  destruct (pipe_spec vs tr Ht) as (r & w & Ep & Htp & Hr & Hw & Hrw). rewrite (bind_ok _ _ _ _ _ Ep).
  set (tr1 := tr ++ [PipeCall 0 (r, w)]) in *. cbn [Z.eqb Z.compare].
  rewrite (bind_ok _ _ _ _ _ (find_special_token_spec t0 rest [124] _ vs b tr1 Hs)). rewrite pos_app; [|..].
  2: { rewrite forallb_app. apply andb_true_iff. split; [by apply plains_not; [simpl; tauto|]|].
       destruct f1 as [f1|]; [|done]. simpl. destruct (plain_not 124 f1) as [_ ->]; [simpl; tauto|done..]. }
  2: by apply strcmp_eq_true.
  cbn [mbind option_bind]. set (p := b + Z.of_nat (length (l1 ++ redir 60 f1))).
  destruct (cut_seg t0 rest vs b _ _ _ tr1 Hs) as (vs1 & Ec & Hs1 & Hs2 & Hcut1 & _).
  rewrite (bind_ok _ _ _ _ _ Ec). fold p in Hs2.
  rewrite (bind_ok _ _ _ _ _ (find_special_token_spec t0 rest [60] _ vs1 b tr1 Hs1)).
  destruct (cut_redir 60 vs1 b l1 f1 tr1 ltac:(simpl; tauto) Hp1 Hf1 Hs1) as (ri & vs2 & -> & Ec2 & Hcut2 & Hs1' & Hn1 & Hri & Hk2).
  rewrite (bind_ok _ _ _ _ _ Ec2). apply Hk2 in Hs2; [|left; unfold p; lia].
  rewrite (bind_ok _ _ _ _ _ (find_special_token_spec t0 rest [62] _ vs2 (p + 1) tr1 Hs2)).
  destruct (cut_redir 62 vs2 (p + 1) l2 f2 tr1 ltac:(simpl; tauto) Hp2 Hf2 Hs2) as (ro & vs3 & -> & Ec3 & Hcut3 & Hs2' & Hn2 & _ & Hk3).
  rewrite (bind_ok _ _ _ _ _ Ec3).
  assert (Hs1'' : seg vs3 b l1).
  { apply Hk3; [done|]. right. unfold p. rewrite length_app. lia. }
  assert (Hn1' : names vs3 ri f1).
  { destruct ri as [i|], f1 as [f1|]; try done. destruct (cut_seg t0 rest vs1 b l1 [60] [f1] tr1 Hs1) as (vs2' & Ec2' & _ & Hsf & _ & _).
    assert (E : vs2' = vs2).
    { unfold cut_if in Ec2. rewrite Hri in Ec2. rewrite Ec2 in Ec2'. injection Ec2' as E. apply app_inv_tail in E. done. }
    subst vs2' i. exists []. apply Hk3; [exact Hsf|]. right. unfold p. rewrite length_app. simpl. lia. }
  destruct (fork_execs _ vs3 tr1 l1 _ (left_child_execs r w Hr Hw Hrw vs3 (tr1 ++ [Born]) b l1 ri f1 Hs1'' H1 ltac:(by rewrite fds_snoc) Hn1'))
    as (pid1 & evs1 & _ & Ef1 & HT1). rewrite (bind_ok _ _ _ _ _ Ef1). rewrite Htp in HT1.
  set (tr2 := tr1 ++ [Child pid1 evs1 (Execed l1)]).
  assert (Ht2 : fds tr2 = piped r w) by (unfold tr2; by rewrite fds_snoc).
  destruct (fork_execs _ vs3 tr2 l2 _ (right_child_execs r w Hr Hw Hrw vs3 (tr2 ++ [Born]) (p + 1) l2 ro f2 Hs2' H2 ltac:(by rewrite fds_snoc) Hn2))
    as (pid2 & evs2 & _ & Ef2 & HT2). rewrite (bind_ok _ _ _ _ _ Ef2). rewrite Ht2 in HT2.
  eexists vs3, _. split; [reflexivity|]. split; [by etrans; [|etrans]|].
  eexists r, w, pid1, evs1, pid2, evs2, _, _, _, _, _, _. split.
  { unfold tr2, tr1. cbn. rewrite <- !app_assoc. reflexivity. }
  split; [done|]. split; [done|]. split; [by right|].
  cbn. rewrite 2 fds_snoc. cbn. apply closed_pipe; [|done|done]. by rewrite fds_snoc.
Qed.

(** The loop over semicolons passes a command without one. *)
Lemma run_sequence_single : forall l2 l1 vs b tr fuel,
  seg vs b (l1 ++ l2) -> forallb (fun t => negb (strcmp_eq t [59])) l2 = true -> (length l2 < fuel)%nat ->
  run_sequence o fuel b (Z.of_nat (length l1)) (AT vs tr) = Ok (inr b, AT vs tr).
Proof.
  induction l2 as [|t l2 IH]; intros l1 vs b tr [|fuel] Hs Hno Hf; simpl in Hf; try lia; cbn [run_sequence];
    pose proof (seg_skip _ _ _ _ Hs) as Hi.
  - by rewrite (bind_ok _ _ _ _ _ (at_seg_end t0 rest vs _ tr Hi)).
  - rewrite (bind_ok _ _ _ _ _ (at_seg_head t0 rest vs _ t l2 tr Hi)). simpl in Hno.
    apply andb_true_iff in Hno as [Ht%negb_true_iff Hno]. change (str ";") with [59]. rewrite Ht.
    replace (Z.of_nat (length l1) + 1) with (Z.of_nat (length (l1 ++ [t]))) by (rewrite length_app; simpl; lia).
    apply IH; [by rewrite <- app_assoc|done|lia].
Qed.

Lemma shell_run_single vs b l tr :
  seg vs b l -> forallb (fun t => negb (strcmp_eq t [59])) l = true ->
  shell_run o b (AT vs tr) = dispatch o b (AT vs tr).
Proof.
  intros Hs Hno. unfold shell_run. rewrite (bind_ok _ _ _ _ _ (eq_refl (get (AT vs tr)))).
  by rewrite (bind_ok _ _ _ _ _ (run_sequence_single l [] vs b tr _ Hs Hno (fuel_seg t0 rest _ _ _ tr Hs))).
Qed.

(** A command before a semicolon is executed as it is. *)
Lemma run_sequence_step : forall l2 l1 vs b tr c fuel,
  seg vs b (l1 ++ l2 ++ [59] :: c) -> forallb (fun t => negb (strcmp_eq t [59])) l2 = true -> l1 ++ l2 <> [] ->
  (S (length l2 + length c) < fuel)%nat ->
  exists vs' pid evs x fuel', cutdown vs vs' /\ seg vs' (b + Z.of_nat (length (l1 ++ l2)) + 1) c /\
    (length c < fuel')%nat /\ 0 < pid /\ foldl fd_event (fds tr) evs = fds tr /\
    run_sequence o fuel b (Z.of_nat (length l1)) (AT vs tr) =
    run_sequence o fuel' (b + Z.of_nat (length (l1 ++ l2)) + 1) 0
      (AT vs' (tr ++ [Child pid evs (Execed (l1 ++ l2)); Call (SWaitpid pid) x])).
Proof.
  induction l2 as [|t l2 IH]; intros l1 vs b tr c [|fuel] Hs Hno Hne Hf; simpl in Hf; try lia; cbn [run_sequence];
    pose proof (seg_skip _ _ _ _ Hs) as Hi.
  - rewrite (bind_ok _ _ _ _ _ (at_seg_head t0 rest vs _ _ _ tr Hi)). change (str ";") with [59].
    rewrite (proj2 (strcmp_eq_true _ _)) by done.
    destruct (cut_seg t0 rest vs b l1 _ c tr Hs) as (vs1 & Ec & Hs1 & Hs2 & Hcut & _).
    rewrite (bind_ok _ _ _ _ _ Ec). rewrite app_nil_r in Hne |- *.
    destruct (fork_execs _ vs1 tr l1 _ (child_exec vs1 (tr ++ [Born]) b l1 (str "execvp") 1 Hs1 Hne))
      as (pid & evs & Hpid & Ef & HT). rewrite fds_snoc in HT. cbn [fd_event] in HT. rewrite (bind_ok _ _ _ _ _ Ef).
    rewrite (proj2 (Z.ltb_ge _ _)) by lia.
    eexists vs1, pid, evs, _, fuel. split; [done|]. split; [done|]. split; [lia|]. split; [done|]. split; [done|].
    unfold sys_, sys, bind, ret. cbn. rewrite <- app_assoc. reflexivity.
  - rewrite (bind_ok _ _ _ _ _ (at_seg_head t0 rest vs _ t _ tr Hi)). simpl in Hno.
    apply andb_true_iff in Hno as [Ht%negb_true_iff Hno]. change (str ";") with [59]. rewrite Ht.
    replace (Z.of_nat (length l1) + 1) with (Z.of_nat (length (l1 ++ [t]))) by (rewrite length_app; simpl; lia).
    destruct (IH (l1 ++ [t]) vs b tr c fuel) as (vs' & pid & evs & x & fuel' & H); [by rewrite <- app_assoc|done| |lia|].
    { by destruct l1. }
    rewrite <- app_assoc in H. cbn [app] in H. by exists vs', pid, evs, x, fuel'.
Qed.
(** Commands that are each followed by a semicolon. *)
Definition sequence (cs : list (list (list Z))) : list (list Z) := flat_map (fun d => d ++ [[59]]) cs.
Definition no_semicolon (l : list (list Z)) : bool := forallb (fun t => negb (strcmp_eq t [59])) l.

(** The events of the commands [cs], run one after the other: each program
    starts with the descriptors [T] and is waited for before the next one. *)
Inductive ran (T : table) : list (list (list Z)) -> list event -> Prop :=
  | ran_nil : ran T [] []
  | ran_cons d cs pid evs x tr :
      0 < pid -> foldl fd_event T evs = T -> ran T cs tr ->
      ran T (d :: cs) (Child pid evs (Execed d) :: Call (SWaitpid pid) x :: tr).

Lemma run_commands : forall cs vs b tr fuel c,
  seg vs b (sequence cs ++ c) -> Forall (fun d => d <> [] /\ no_semicolon d = true) cs -> no_semicolon c = true ->
  (length (sequence cs ++ c) < fuel)%nat ->
  exists vs' b' tr', run_sequence o fuel b 0 (AT vs tr) = Ok (inr b', AT vs' tr') /\ seg vs' b' c /\ cutdown vs vs' /\
    exists evs, tr' = tr ++ evs /\ ran (fds tr) cs evs /\ fds tr' = fds tr.
Proof.
  induction cs as [|d cs IH]; intros vs b tr fuel c Hs Hcs Hc Hf; simpl in Hs, Hf.
  - exists vs, b, tr. split; [by apply (run_sequence_single c [] vs b tr fuel)|]. split; [done|]. split; [done|].
    exists []. rewrite app_nil_r. split; [done|]. split; [constructor|done].
  - apply Forall_cons in Hcs as [[Hd Hnd] Hcs]. rewrite <- !app_assoc in Hs. rewrite <- !app_assoc in Hf. simpl in Hs, Hf.
    rewrite length_app in Hf. simpl in Hf.
    destruct (run_sequence_step d [] vs b tr (sequence cs ++ c) fuel Hs Hnd Hd) as (vs1 & pid & evs & x & fuel' & Hcut & Hs1 & Hf' & Hpid & HT & E); [lia|].
    simpl in E, Hs1. change (Z.of_nat 0) with 0 in E.
    destruct (IH vs1 _ (tr ++ [Child pid evs (Execed d); Call (SWaitpid pid) x]) fuel' c Hs1 Hcs Hc Hf')
      as (vs2 & b' & tr' & E2 & Hs2 & Hcut2 & evs' & -> & Hran & Hfd).
    assert (Hfd1 : fds (tr ++ [Child pid evs (Execed d); Call (SWaitpid pid) x]) = fds tr) by (unfold fds; by rewrite foldl_app).
    rewrite Hfd1 in Hran, Hfd. exists vs2, b'. eexists. split; [exact (eq_trans E E2)|]. split; [done|]. split; [by etrans|].
    eexists. rewrite <- app_assoc. split; [reflexivity|]. split; [by constructor|]. by rewrite <- app_assoc in Hfd.
Qed.

Lemma shell_run_sequence vs b tr cs c :
  seg vs b (sequence cs ++ c) -> Forall (fun d => d <> [] /\ no_semicolon d = true) cs -> no_semicolon c = true ->
  exists vs' b' tr', shell_run o b (AT vs tr) = dispatch o b' (AT vs' tr') /\ seg vs' b' c /\ cutdown vs vs' /\
    exists evs, tr' = tr ++ evs /\ ran (fds tr) cs evs /\ fds tr' = fds tr.
Proof.
  intros Hs Hcs Hc. unfold shell_run. rewrite (bind_ok _ _ _ _ _ (eq_refl (get (AT vs tr)))).
  destruct (run_commands cs vs b tr _ c Hs Hcs Hc (fuel_seg t0 rest _ _ _ tr Hs)) as (vs' & b' & tr' & E & H).
  rewrite (bind_ok _ _ _ _ _ E). eauto 8.
Qed.

(** *** Dispatch *)

Lemma forallb_redir c d f :
  In c [59; 124; 60; 62] -> d <> c -> plain_file f = true ->
  forallb (fun t => negb (strcmp_eq t [c])) (redir d f) = true.
Proof.
  intros Hc Hd Hf. destruct f as [f|]; [|done]. simpl. destruct (plain_not c f Hc Hf) as [_ ->].
  unfold strcmp_eq. rewrite bool_decide_eq_false_2; [done|]. intros [= ?]. done.
Qed.

Lemma find_other c vs b l tr :
  seg vs b l -> forallb (fun t => negb (strcmp_eq t [c])) l = true ->
  find_special_token b [c] (AT vs tr) = Ok (None, AT vs tr).
Proof. intros Hs Hl. rewrite (find_special_token_spec t0 rest [c] l vs b tr Hs), pos_none by done. done. Qed.

Lemma find_at c vs b l1 l2 tr :
  seg vs b (l1 ++ [c] :: l2) -> forallb (fun t => negb (strcmp_eq t [c])) l1 = true ->
  find_special_token b [c] (AT vs tr) = Ok (Some (b + Z.of_nat (length l1)), AT vs tr).
Proof.
  intros Hs Hl. rewrite (find_special_token_spec t0 rest [c] _ vs b tr Hs), pos_app; [done|done|].
  by apply strcmp_eq_true.
Qed.

Lemma find_some c vs b l1 l2 tr :
  seg vs b (l1 ++ [c] :: l2) -> exists i, find_special_token b [c] (AT vs tr) = Ok (Some i, AT vs tr).
Proof.
  intros Hs. rewrite (find_special_token_spec t0 rest [c] _ vs b tr Hs). clear Hs.
  assert (H : exists k, pos (fun t => strcmp_eq t [c]) (l1 ++ [c] :: l2) = Some k).
  { induction l1 as [|t l1 [k IH]]; simpl; [rewrite (proj2 (strcmp_eq_true _ _)) by done; eauto|].
    rewrite IH. destruct (strcmp_eq t [c]); eauto. }
  destruct H as [k ->]. simpl. eauto.
Qed.

(** The tokens of a pipeline with optional redirections. *)
Definition pipe_tokens (l1 : list (list Z)) (f1 : option (list Z)) (l2 : list (list Z)) (f2 : option (list Z)) : list (list Z) :=
  (l1 ++ redir 60 f1) ++ [124] :: l2 ++ redir 62 f2.

Definition pipe_parts_ok (l1 : list (list Z)) (f1 : option (list Z)) (l2 : list (list Z)) (f2 : option (list Z)) : Prop :=
  l1 <> [] /\ l2 <> [] /\ forallb plain l1 = true /\ forallb plain l2 = true /\
  plain_file f1 = true /\ plain_file f2 = true.

Lemma pipe_no_semicolon l1 f1 l2 f2 : pipe_parts_ok l1 f1 l2 f2 -> no_semicolon (pipe_tokens l1 f1 l2 f2) = true.
Proof.
  intros (_ & _ & Hp1 & Hp2 & Hf1 & Hf2). unfold no_semicolon, pipe_tokens. rewrite !forallb_app. simpl. rewrite forallb_app.
  destruct (plains_not 59 l1) as [-> _]; [simpl; tauto|done|]. destruct (plains_not 59 l2) as [-> _]; [simpl; tauto|done|].
  rewrite !forallb_redir by (simpl; tauto || lia || done). done.
Qed.

Lemma dispatch_pipeline vs b l1 f1 l2 f2 tr :
  seg vs b (pipe_tokens l1 f1 l2 f2) -> pipe_parts_ok l1 f1 l2 f2 -> fds tr = std ->
  exists vs' tr', dispatch o b (AT vs tr) = Ok (0, AT vs' tr') /\ cutdown vs vs' /\
    pipeline tr tr' l1 (<[0 := input f1]> (<[1 := PipeW]> std)) l2 (<[0 := PipeR]> (<[1 := output f2]> std)).
Proof.
  intros Hs (H1 & H2 & Hp1 & Hp2 & Hf1 & Hf2) Ht. unfold dispatch.
  change (str "|") with [124]; change (str "<") with [60]; change (str ">") with [62].
  destruct (find_some 124 vs b _ _ tr Hs) as [k Ek]. rewrite (bind_ok _ _ _ _ _ Ek).
  destruct (plains_not 124 l1) as [Hb1 Hb1']; [simpl; tauto|done|].
  destruct (plains_not 60 l1) as [Hi1 _]; [simpl; tauto|done|]. destruct (plains_not 60 l2) as [Hi2 _]; [simpl; tauto|done|].
  destruct (plains_not 62 l1) as [Ho1 _]; [simpl; tauto|done|]. destruct (plains_not 62 l2) as [Ho2 _]; [simpl; tauto|done|].
  pose proof (execute_with_pipe_and_redirect_spec vs b l1 f1 l2 f2 tr Hs Hp1 Hp2 Hf1 Hf2 H1 H2 Ht) as Hpr.
  destruct f1 as [f1|].
  - unfold pipe_tokens in Hs. rewrite <- app_assoc in Hs. rewrite (bind_ok _ _ _ _ _ (find_at 60 vs b l1 _ tr Hs Hi1)).
    eassert (Hout : exists x, find_special_token b [62] (AT vs tr) = Ok (x, AT vs tr)) by (rewrite (find_special_token_spec t0 rest [62] _ vs b tr Hs); eauto).
    destruct Hout as [x Hx]. rewrite (bind_ok _ _ _ _ _ Hx). destruct x; exact Hpr.
  - unfold pipe_tokens in Hs. simpl in Hs. rewrite app_nil_r in Hs.
    rewrite (bind_ok _ _ _ _ _ (find_other 60 vs b _ tr Hs ltac:(rewrite forallb_app; simpl; rewrite forallb_app, Hi1, Hi2, forallb_redir by (simpl; tauto || lia || done); done))).
    destruct f2 as [f2|].
    + simpl in Hs. change ([124] :: l2 ++ [[62]; f2]) with (([124] :: l2) ++ [[62]; f2]) in Hs. rewrite app_assoc in Hs.
      destruct (find_some 62 vs b _ _ tr Hs) as [k' Ek']. rewrite (bind_ok _ _ _ _ _ Ek'). exact Hpr.
    + simpl in Hs. rewrite app_nil_r in Hs.
      rewrite (bind_ok _ _ _ _ _ (find_other 62 vs b _ tr Hs ltac:(rewrite forallb_app; simpl; rewrite Ho1, Ho2; done))).
      destruct (execute_with_pipe_spec vs b l1 l2 [124] tr Hs H1 H2 Ht eq_refl Hb1') as (vs' & tr' & E & Hcut & Hpipe).
      exists vs', tr'. split; [exact E|]. split; [done|].
      replace (<[0 := input None]> (<[1 := PipeW]> std)) with (<[1 := PipeW]> std) by (symmetry; apply std_input).
      replace (<[0 := PipeR]> (<[1 := output None]> std)) with (<[0 := PipeR]> std) by (symmetry; apply std_output).
      exact Hpipe.
Qed.

Lemma redirect_child_execs vs tr b l c f :
  seg vs b l -> l <> [] -> fds tr = std -> c = 60 \/ c = 62 ->
  child_execs (redirect_child o b c (Tok f)) vs tr l
    (if c =? 62 then <[1 := File (Tok f) true]> std else <[0 := File (Tok f) false]> std).
Proof.
  intros Hs Hl Ht Hc. unfold redirect_child.
  assert (H : forall n w, n = 0 \/ n = 1 -> child_execs
    (let! fd := (let! fd := sys o (SOpen (Tok f) w) in do! sys_ o (SDup2 fd n) in ret fd) in
     if fd =? -1 then do! emit (ErrOut (str "open failed")) in ret (ExitCode 1) else
     do! sys_ o (SClose fd) in execvp o b (str "execvp failed") 1) vs tr l (<[n := File (Tok f) w]> std)).
  { intros n w Hn. destruct (open_ok_fresh _ Hos tr (Tok f) w) as [Hx Hfresh]. rewrite Ht in Hfresh.
    pose proof (std_dom _ Hfresh) as Hd. set (x := result o tr (SOpen (Tok f) w)) in *.
    set (tr1 := tr ++ [Call (SOpen (Tok f) w) x]).
    eapply (child_step _ _ x vs tr [Call (SOpen (Tok f) w) x; Call (SDup2 x n) (result o tr1 (SDup2 x n))]).
    - unfold bind, sys_, sys, ret. cbn. unfold tr1. rewrite <- app_assoc. reflexivity.
    - rewrite (proj2 (Z.eqb_neq _ _)) by lia. apply child_sys.
      replace (tr ++ _) with (tr1 ++ [Call (SDup2 x n) (result o tr1 (SDup2 x n))]) by (unfold tr1; by rewrite <- app_assoc).
      eassert (Hfd : fds _ = _); [|rewrite <- Hfd; by apply child_exec]. rewrite fds_close, (fds_dup2 _ _ _ (File (Tok f) w)).
      2: { unfold tr1, x. rewrite fds_open. apply lookup_insert_eq. }
      unfold tr1, x. rewrite fds_open, Ht. fold x. map_tac. }
  destruct Hc as [-> | ->]; simpl; apply H; tauto.
Qed.
Lemma dispatch_redirect vs b l c f extra tr :
  seg vs b (l ++ [c] :: f :: extra) -> l <> [] -> forallb plain l = true -> fds tr = std -> plain f = true ->
  c = 60 \/ c = 62 -> forallb (fun t => negb (strcmp_eq t [124])) extra = true ->
  (c = 62 -> forallb (fun t => negb (strcmp_eq t [60])) extra = true) ->
  exists vs' pid evs x, dispatch o b (AT vs tr) = Ok (0, AT vs' (tr ++ [Child pid evs (Execed l); Call (SWaitpid pid) x])) /\
    cutdown vs vs' /\
    foldl fd_event std evs = if c =? 62 then <[1 := File (Tok f) true]> std else <[0 := File (Tok f) false]> std.
Proof.
  intros Hs Hl Hp Ht Hf Hc Hbar Hin. unfold dispatch.
  change (str "|") with [124]; change (str "<") with [60]; change (str ">") with [62].
  assert (Hnot : forall d, In d [59; 124; 60; 62] -> d <> c -> forallb (fun t => negb (strcmp_eq t [d])) extra = true ->
    forallb (fun t => negb (strcmp_eq t [d])) (l ++ [c] :: f :: extra) = true).
  { intros d Hd Hdc He. destruct (plains_not d l Hd Hp) as [Hd1 _]. destruct (plain_not d f Hd Hf) as [_ Hd2].
    rewrite forallb_app, Hd1. simpl. rewrite Hd2, He. unfold strcmp_eq.
    rewrite bool_decide_eq_false_2; [done|]. intros [= ?]. done. }
  rewrite (bind_ok _ _ _ _ _ (find_other 124 vs b _ tr Hs (Hnot 124 ltac:(simpl; tauto) ltac:(lia) Hbar))).
  assert (Hred : exists vs' pid evs x, execute_with_redirect o b c (AT vs tr) =
      Ok (0, AT vs' (tr ++ [Child pid evs (Execed l); Call (SWaitpid pid) x])) /\ cutdown vs vs' /\
    foldl fd_event std evs = if c =? 62 then <[1 := File (Tok f) true]> std else <[0 := File (Tok f) false]> std).
  { unfold execute_with_redirect. rewrite (bind_ok _ _ _ _ _ (eq_refl (get (AT vs tr)))).
    rewrite (bind_ok _ _ _ _ _ (find_first_char_spec t0 rest c _ vs b tr _ Hs (fuel_seg t0 rest _ _ _ tr Hs))).
    destruct (plains_not c l) as [_ Hcl]; [simpl; lia|done|]. rewrite pos_app; [|done|simpl; lia]. cbn [mbind option_bind].
    destruct (cut_seg t0 rest vs b l _ _ tr Hs) as (vs1 & Ec & Hs1 & Hs2 & Hcut & _). rewrite (bind_ok _ _ _ _ _ Ec).
    rewrite (bind_ok _ _ _ _ _ (at_seg_head t0 rest vs1 _ f extra tr Hs2)).
    destruct (fork_execs _ vs1 tr l _ (redirect_child_execs vs1 (tr ++ [Born]) b l c f Hs1 Hl ltac:(by rewrite fds_snoc) Hc))
      as (pid & evs & _ & Ef & HT). rewrite (bind_ok _ _ _ _ _ Ef). rewrite Ht in HT.
    eexists vs1, pid, evs, _. split; [|done]. unfold sys_, sys, bind, ret. cbn. rewrite <- app_assoc. reflexivity. }
  destruct Hc as [-> | ->].
  - destruct (plains_not 60 l) as [H60 _]; [simpl; tauto|done|].
    rewrite (bind_ok _ _ _ _ _ (find_at 60 vs b l _ tr Hs H60)).
    destruct (find_special_token b [62] (AT vs tr)) as [[x s']|] eqn:E.
    + rewrite (find_special_token_spec t0 rest [62] _ vs b tr Hs) in E. injection E as <- <-.
      rewrite (bind_ok _ _ _ _ _ (find_special_token_spec t0 rest [62] _ vs b tr Hs)). exact Hred.
    + by rewrite (find_special_token_spec t0 rest [62] _ vs b tr Hs) in E.
  - destruct (plains_not 62 l) as [H62 _]; [simpl; tauto|done|].
    rewrite (bind_ok _ _ _ _ _ (find_other 60 vs b _ tr Hs (Hnot 60 ltac:(simpl; tauto) ltac:(lia) (Hin eq_refl)))).
    rewrite (bind_ok _ _ _ _ _ (find_at 62 vs b l _ tr Hs H62)). exact Hred.
Qed.
End wiring.

(** *** The token array and its release *)

Lemma holds_at k st ws tr :
  holds k st ws -> exists rest, mk_shell st tr = at_state st rest (map Tok ws) tr /\ seg (map Tok ws) 0 ws.
Proof.
  intros (Hi & Hs & Hl & rest & Ht & Hc). exists rest. unfold at_state, set_tokens. rewrite <- Ht. split.
  - by destruct st.
  - by exists [], [].
Qed.

(** The strings of the slots that were set to NULL. *)
Definition cuts (vs : list slot) : Z := Z.of_nat (length (filter (fun v => v = Null) vs)).

Lemma free_strings_cut ws : forall vs pre rest st,
  cutdown (map Tok ws) vs -> tokens st = Some (pre ++ vs ++ Null :: rest) ->
  wp (free_strings (length ws) (Z.of_nat (length pre)))
    (fun _ st' => st' = add_live (cuts vs - Z.of_nat (length ws)) st) st.
Proof.
  induction ws as [|w ws IH]; intros vs pre rest st Hc Ht; simpl in Hc.
  - apply Forall2_nil_inv_l in Hc as ->. apply wp_ret. destruct st; unfold add_live, cuts; simpl. f_equal. lia.
  - apply Forall2_cons_inv_l in Hc as (v & vs' & Hv & Hc & ->). cbn [length free_strings].
    assert (Hstep : wp (do! free_string v in free_strings (length ws) (Z.of_nat (length pre) + 1))
      (fun _ st' => st' = add_live (cuts (v :: vs') - Z.of_nat (S (length ws))) st) st).
    { replace (Z.of_nat (length pre) + 1) with (Z.of_nat (length (pre ++ [v]))) by (rewrite length_app; simpl; lia).
      destruct Hv as [-> | ->]; unfold free_string; wp_pure.
      - eapply wp_mono; [apply (IH vs' (pre ++ [Tok w]) rest _ Hc); simpl; rewrite Ht, <- app_assoc; done|].
        intros _ st' ->. destruct st; unfold add_live, cuts; rewrite filter_cons_False by done. simpl. f_equal. lia.
      - eapply wp_mono; [apply (IH vs' (pre ++ [Null]) rest _ Hc); simpl; rewrite Ht, <- app_assoc; done|].
        intros _ st' ->. destruct st; unfold add_live, cuts; rewrite filter_cons_True by done. simpl. f_equal. lia. }
    rewrite wp_bind. rewrite wp_get_slot; [exact Hstep|exact Ht|apply znth_app_at|]. by destruct Hv as [-> | ->].
Qed.

Lemma free_tokens_cut k st ws vs rest tr :
  holds k st ws -> cutdown (map Tok ws) vs ->
  exists st', on_toks free_tokens (at_state st rest vs tr) = Ok (tt, mk_shell st' tr) /\ emptied (k + cuts vs) st' /\
    prev_command st' = prev_command st /\ oracle st' = oracle st.
Proof.
  intros (Hi & Hs & Hl & r & Ht & Hc) Hcut.
  assert (H : wp free_tokens (fun _ st' => emptied (k + cuts vs) st' /\ prev_command st' = prev_command st /\ oracle st' = oracle st)
    (set_tokens (Some (vs ++ Null :: rest)) st)).
  { unfold free_tokens. wp_pure. simpl. rewrite Hs, Nat2Z.id.
    eapply wp_mono; [apply (free_strings_cut ws vs [] rest); [done|done]|]. intros _ st' ->. wp_pure. simpl. wp_pure.
    split; [|done]. repeat split; try done. simpl. lia. }
  apply wp_run in H as ([] & st' & E & H). exists st'. split; [|done].
  unfold on_toks, zoom. simpl. by rewrite E.
Qed.

(** *** The main loop *)

Lemma holds_set_prev k st ws c : holds k st ws -> holds k (set_prev c st) ws.
Proof. done. Qed.

Lemma run_line_command o k depth input st n st1 w0 ws tr :
  get_tokens depth input st = Ok (n, st1) -> holds k st1 (w0 :: ws) ->
  w0 <> str "exit" -> w0 <> str "prev" -> last (w0 :: ws) <> Some (str ";") ->
  exists k' st2 tr', run_line o depth input (mk_shell st tr) = Ok (true, mk_shell st2 tr') /\ emptied k' st2 /\
    prev_command st2 = take 255 input /\ oracle st2 = oracle st1.
Proof.
  intros Eg Hh He Hp Hl. unfold run_line.
  assert (E1 : on_toks (get_tokens depth input) (mk_shell st tr) = Ok (n, mk_shell st1 tr))
    by (unfold on_toks, zoom; simpl; by rewrite Eg).
  rewrite (bind_ok _ _ _ _ _ E1). destruct (holds_at k st1 _ tr Hh) as (rest & E2 & Hseg). rewrite E2.
  rewrite (bind_ok _ _ _ _ _ (at_seg_head st1 rest _ 0 w0 ws tr Hseg)).
  unfold strcmp_eq. rewrite !bool_decide_eq_false_2 by done.
  apply (holds_set_prev _ _ _ (take 255 input)) in Hh.
  pose proof (shell_run_robust o (set_prev (take 255 input) st1) rest (map Tok (w0 :: ws)) 0 (w0 :: ws) tr Hseg ltac:(done) Hl) as H.
  apply wp_run in H as (code & s' & E3 & vs' & tr' & -> & Hcut).
  assert (E4 : on_toks (set_prev_command (Some input)) (at_state st1 rest (map Tok (w0 :: ws)) tr) =
    Ok (tt, at_state (set_prev (take 255 input) st1) rest (map Tok (w0 :: ws)) tr)) by done.
  destruct (free_tokens_cut k _ (w0 :: ws) vs' rest tr' Hh Hcut) as (st2 & E5 & Hem & Hpc & Ho).
  exists (k + cuts vs'), st2, tr'. split; [|done].
  unfold bind at 1. rewrite (bind_ok _ _ _ _ _ E4). rewrite (bind_ok _ _ _ _ _ E3). unfold ret at 1.
  by rewrite (bind_ok _ _ _ _ _ E5).
Qed.

Lemma fgets_line n l r : ~ In 10 l -> (length l < n)%nat -> fgets n (l ++ 10 :: r) = (l ++ [10], r).
Proof.
  revert n. induction l as [|c l IH]; intros [|n] Hl Hn; simpl in *; try lia; [done|].
  rewrite (proj2 (Z.eqb_neq c 10)) by tauto. rewrite IH by (tauto || lia). done.
Qed.

Lemma upto_line l : ~ In 10 l -> upto 10 (l ++ [10]) = l.
Proof.
  induction l as [|c l IH]; simpl; [done|]. intros H. rewrite (proj2 (Z.eqb_neq c 10)) by tauto.
  by rewrite IH by tauto.
Qed.

(** One turn of the loop on a line. *)
Lemma main_loop_line o fuel depth l r s :
  l <> [] -> ~ In 10 l -> (length l < 255)%nat ->
  main_loop o (S fuel) depth (l ++ 10 :: r) s =
  (let! more := run_line o depth l in if more then main_loop o fuel depth r else ret tt)
    (mk_shell (toks s) (trace s ++ [Out (str "shell $ ")])).
Proof.
  intros Hne Hl Hn. cbn [main_loop]. unfold emit, modify at 1, bind at 1.
  destruct (l ++ 10 :: r) as [|c l'] eqn:E; [by destruct l|]. rewrite <- E.
  rewrite fgets_line by done. rewrite upto_line by done. by destruct l.
Qed.

(** get_tokens gives the tokens of a command, or the recursion bound is hit. *)
Lemma get_tokens_command k depth st line ws :
  ready k st [] -> oracle st = [] -> line_words line = Some ws -> Z.of_nat (length ws) < 2 ^ 30 -> ws <> [str "prev"] ->
  get_tokens depth line st = Err OutOfFuel \/
  exists st1, get_tokens depth line st = Ok (Z.of_nat (length ws), st1) /\ holds k st1 ws /\
    prev_command st1 = prev_command st /\ oracle st1 = [].
Proof.
  intros Hr Ho Hw Hb Hp. destruct depth as [|d]; [by left|right].
  pose proof (get_tokens_other k d st [] line ws Hr Hw Hb Hp) as H. unfold runs in H.
  destruct (get_tokens (S d) line st) as [[n st1]|f]; [|naive_solver].
  destruct H as [(-> & Hh & Hpc) Ho1]. exists st1. auto.
Qed.

Lemma get_tokens_recall k depth st line ws :
  ready k st [] -> oracle st = [] -> line_words line = Some [str "prev"] ->
  prev_command st <> [] -> line_words (prev_command st) = Some ws -> Z.of_nat (length ws) < 2 ^ 30 -> ws <> [str "prev"] ->
  get_tokens depth line st = Err OutOfFuel \/
  exists st1, get_tokens depth line st = Ok (Z.of_nat (length ws), st1) /\ holds k st1 ws /\ oracle st1 = [].
Proof.
  intros Hr Ho Hl Hne Hw Hb Hp. destruct depth as [|d]; [by left|]. rewrite get_tokens_load.
  pose proof (load_tokens_spec k st [] line _ Hr Hl ltac:(simpl; lia)) as H. unfold runs in H.
  destruct (load_tokens line st) as [[n st1]|f] eqn:E1; [|naive_solver].
  destruct H as [(_ & Hh & Hp1) Ho1]. rewrite (bind_ok _ _ _ _ _ E1). unfold resolve_prev.
  rewrite <- bind_assoc. rewrite (bind_ok _ _ _ _ _ (is_prev_spec k st1 _ Hh)). rewrite bool_decide_eq_true_2 by done.
  pose proof (free_tokens_spec k st1 _ Hh) as H. apply wp_run in H as ([] & st2 & E2 & He & Hp2 & Ho2).
  rewrite (bind_ok _ _ _ _ _ E2). unfold get_prev_command, bind, gets. rewrite Hp2, Hp1.
  destruct (prev_command st) as [|c cmd] eqn:Ec; [done|].
  destruct (get_tokens_command k d st2 (c :: cmd) ws) as [H|(st3 & H & Hh3 & _ & Ho3)];
    [by right|rewrite Ho2; auto|done..| |]; rewrite H; [by left|right; eauto].
Qed.

(** ** Theorems *)

(** Commands before a semicolon, whatever their tokens, and a pipeline. *)
Lemma shell_run_commands o k st tr cs l1 f1 l2 f2 :
  os_ok o -> holds k st (sequence cs ++ pipe_tokens l1 f1 l2 f2) ->
  Forall (fun d => d <> [] /\ no_semicolon d = true) cs -> pipe_parts_ok l1 f1 l2 f2 -> fds tr = std ->
  exists s' evs, shell_run o 0 (mk_shell st tr) = Ok (0, s') /\ ran std cs evs /\
    pipeline (tr ++ evs) (trace s') l1 (<[0 := input f1]> (<[1 := PipeW]> std)) l2 (<[0 := PipeR]> (<[1 := output f2]> std)).
Proof.
  intros Hos Hh Hcs Hparts Ht. destruct (holds_at k st _ tr Hh) as (rest & -> & Hseg).
  destruct (shell_run_sequence o Hos st rest _ 0 tr cs _ Hseg Hcs (pipe_no_semicolon _ _ _ _ Hparts))
    as (vs1 & b & tr1 & E & Hs & _ & evs & -> & Hran & Hfd). rewrite Ht in Hran.
  destruct (dispatch_pipeline o Hos st rest vs1 b l1 f1 l2 f2 (tr ++ evs) Hs Hparts ltac:(congruence)) as (vs2 & tr2 & E2 & _ & Hp).
  exists (at_state st rest vs2 tr2), evs. rewrite E. done.
Qed.

(** A command the shell need not interpret: no operator among its tokens, and
    its name is not one of those the shell implements. *)
Definition is_builtin (t : list Z) : bool := existsb (strcmp_eq t) [str "cd"; str "pwd"; str "mkdir"; str "echo"; str "exit"; str "prev"].
Definition external (d : list (list Z)) : bool := match d with t :: _ => negb (is_builtin t) | [] => false end.

(** C11. Sequences and pipelines are wired as written.  With an operating system
    whose calls succeed, shell_run on programs with plain arguments separated by
    semicolons and, last, a pipeline with an optional [< f1] on its left and
    [> f2] on its right side, runs each earlier program with its tokens as
    arguments and the standard descriptors and waits for it before the next one
    starts; then it starts the two programs of the pipeline: the left one reads
    its input or [f1] and writes the pipe, the right one reads the pipe and
    writes its output or [f2], and neither holds another descriptor.  The shell
    closes both ends of the pipe, waits for two children and is left with the
    standard descriptors. *)
Theorem shell_runs_pipeline o k st tr cs l1 f1 l2 f2 :
  os_ok o -> holds k st (sequence cs ++ pipe_tokens l1 f1 l2 f2) ->
  Forall (fun d => external d = true /\ forallb plain d = true) cs -> pipe_parts_ok l1 f1 l2 f2 -> fds tr = std ->
  exists s' evs, shell_run o 0 (mk_shell st tr) = Ok (0, s') /\ ran std cs evs /\
    pipeline (tr ++ evs) (trace s') l1 (<[0 := input f1]> (<[1 := PipeW]> std)) l2 (<[0 := PipeR]> (<[1 := output f2]> std)).
Proof.
  intros Hos Hh Hcs. eapply shell_run_commands; [done|done|]. eapply Forall_impl; [exact Hcs|].
  intros d [Hx Hp]. split; [by intros ->|]. apply plains_not; [simpl; tauto|done].
Qed.

(** Before a semicolon nothing is interpreted: in [w ... > f ; l1 | l2] the
    first command, be it a built-in or not, is run as a program that gets [>]
    and [f] as arguments and the standard output. *)
Theorem sequence_ignores_redirect o k st tr w ws f l1 l2 :
  os_ok o -> holds k st (((w :: ws) ++ [str ">"; f]) ++ [str ";"] ++ l1 ++ [str "|"] ++ l2) ->
  forallb plain (w :: ws) = true -> plain f = true -> pipe_parts_ok l1 None l2 None -> fds tr = std ->
  exists s' pid evs x post, shell_run o 0 (mk_shell st tr) = Ok (0, s') /\
    trace s' = tr ++ Child pid evs (Execed ((w :: ws) ++ [str ">"; f])) :: Call (SWaitpid pid) x :: post /\ foldl fd_event std evs = std.
Proof.
  intros Hos Hh Hp Hf Hparts Ht. destruct (plains_not 59 (w :: ws)) as [Hs _]; [simpl; tauto|done|].
  destruct (plain_not 59 f) as [_ Hs']; [simpl; tauto|done|].
  destruct (shell_run_commands o k st tr [(w :: ws) ++ [str ">"; f]] l1 None l2 None) as (s' & evs & E & Hran & Hpipe); [done| | |done|done|].
  - unfold sequence, pipe_tokens. cbn [flat_map redir]. rewrite !app_nil_r, <- !app_assoc in *. exact Hh.
  - constructor; [|constructor]. split; [done|]. unfold no_semicolon. rewrite forallb_app, Hs. cbn [forallb]. rewrite Hs'. done.
  - inversion Hran as [|d cs pid evs1 x tr1 _ HT Hnil]; subst. inversion Hnil; subst.
    destruct Hpipe as (r & w' & p1 & e1 & p2 & e2 & c1 & c2 & x1 & x2 & x3 & x4 & Etr & _). rewrite <- app_assoc in Etr.
    eexists s', pid, evs1, x, _. split; [done|]. split; [exact Etr|done].
Qed.

(** One redirection is honoured, the first.  A command [l < f] or [l > f]
    without a pipe starts [l] with its input or output on [f] and waits for it;
    whatever follows the file name is neither passed to the program nor
    interpreted, so in [l < f > g] the output redirection is lost. *)
Theorem shell_runs_redirect o k st tr l c f extra :
  os_ok o -> holds k st (l ++ [c] :: f :: extra) -> l <> [] -> forallb plain l = true -> plain f = true ->
  c = 60 \/ c = 62 -> no_semicolon extra = true ->
  forallb (fun t => negb (strcmp_eq t [124])) extra = true ->
  (c = 62 -> forallb (fun t => negb (strcmp_eq t [60])) extra = true) -> fds tr = std ->
  exists s' pid evs x, shell_run o 0 (mk_shell st tr) = Ok (0, s') /\
    trace s' = tr ++ [Child pid evs (Execed l); Call (SWaitpid pid) x] /\
    foldl fd_event std evs = if c =? 62 then <[1 := File (Tok f) true]> std else <[0 := File (Tok f) false]> std.
Proof.
  intros Hos Hh Hl Hp Hf Hc Hsemi Hbar Hin Ht. destruct (holds_at k st _ tr Hh) as (rest & -> & Hseg).
  assert (Hns : forallb (fun t => negb (strcmp_eq t [59])) (l ++ [c] :: f :: extra) = true).
  { destruct (plains_not 59 l) as [H1 _]; [simpl; tauto|done|]. destruct (plain_not 59 f) as [_ H2]; [simpl; tauto|done|].
    rewrite forallb_app, H1. simpl. rewrite H2. unfold strcmp_eq at 1. rewrite bool_decide_eq_false_2; [done|].
    intros [= ->]. lia. }
  rewrite (shell_run_single o st rest _ 0 _ tr Hseg Hns).
  destruct (dispatch_redirect o Hos st rest _ 0 l c f extra tr Hseg Hl Hp Ht Hf Hc Hbar Hin) as (vs' & pid & evs & x & E & _ & HT).
  exists (at_state st rest vs' (tr ++ [Child pid evs (Execed l); Call (SWaitpid pid) x])), pid, evs, x. done.
Qed.

(** C34. shell_run always returns.  For every operating system, whatever its
    calls return, and every non-empty list of tokens that does not end in a
    semicolon, shell_run ends without a memory error, and free_tokens after it
    releases everything but the strings of the special tokens that were
    overwritten with NULL. *)
Theorem shell_run_total o k st tr ws :
  holds k st ws -> ws <> [] -> last ws <> Some (str ";") ->
  exists code s' n st' tr', shell_run o 0 (mk_shell st tr) = Ok (code, s') /\
    on_toks free_tokens s' = Ok (tt, mk_shell st' tr') /\ emptied (k + n) st' /\ 0 <= n <= Z.of_nat (length ws).
Proof.
  intros Hh Hne Hl. destruct (holds_at k st _ tr Hh) as (rest & -> & Hseg).
  pose proof (shell_run_robust o st rest _ 0 ws tr Hseg Hne Hl) as H.
  apply wp_run in H as (code & s' & E & vs' & tr' & -> & Hcut).
  destruct (free_tokens_cut k st ws vs' rest tr' Hh Hcut) as (st' & Ef & Hem & _).
  exists code, (at_state st rest vs' tr'), (cuts vs'), st', tr'. split; [done|]. split; [done|]. split; [done|].
  unfold cuts. split; [lia|]. apply Forall2_length in Hcut. rewrite length_map in Hcut. rewrite Hcut.
  apply inj_le, length_filter.
Qed.

(** Recalling the previous command twice never ends.  After any command
    line and two lines prev, main does not come back: the first prev runs the
    command again but stores the word prev as the previous command, and on the
    second one get_tokens calls itself forever; no recursion bound is enough,
    for any operating system. *)
Theorem main_prev_prev_diverges o depth cmd w0 ws more tr :
  line_words cmd = Some (w0 :: ws) -> (length cmd < 255)%nat -> ~ In 10 cmd ->
  w0 <> str "exit" -> w0 <> str "prev" -> last (w0 :: ws) <> Some (str ";") ->
  main o depth (cmd ++ [10] ++ str "prev" ++ [10] ++ str "prev" ++ [10] ++ more) (mk_shell (initial []) tr) = Err OutOfFuel.
Proof.
  intros Hw Hlen Hnl He Hp Hl.
  assert (Hb : Z.of_nat (length (w0 :: ws)) < 2 ^ 30) by (pose proof (words_length _ _ _ Hw); lia).
  assert (Hcmd : cmd <> []) by (intros ->; done).
  assert (Htake : take 255 cmd = cmd) by (apply take_ge; lia).
  assert (Hne : (w0 :: ws) <> [str "prev"]) by (intros [= ? ?]; done).
  unfold main. cbn [app].
  pose proof (runs_wp init_tokens _ (initial []) eq_refl (init_tokens_spec 0 (initial []) ltac:(done))) as H.
  apply wp_run in H as ([] & st0 & E0 & Hh0 & Hp0).
  assert (Ho0 : oracle st0 = []) by (vm_compute in E0; by injection E0 as <-).
  assert (E0' : on_toks init_tokens (mk_shell (initial []) tr) = Ok (tt, mk_shell st0 tr))
    by (unfold on_toks, zoom; cbn [toks]; by rewrite E0).
  rewrite (bind_ok _ _ _ _ _ E0'). unfold emit at 1, modify, bind at 1. cbn [toks trace]. apply bind_err.
  match goal with |- main_loop _ ?n _ _ _ = _ => assert (Hf : exists f, n = S (S (S f))) end.
  { exists (length cmd + length more + 9)%nat. rewrite length_app. simpl. lia. }
  destruct Hf as [f ->].
  rewrite main_loop_line by done. cbn [toks trace].
  destruct (get_tokens_command 0 depth st0 cmd (w0 :: ws)) as [E|(st1 & E & Hh1 & _ & Ho1)];
    [by left|done..| |].
  { apply bind_err. unfold run_line. apply bind_err. unfold on_toks, zoom. cbn [toks]. by rewrite E. }
  destruct (run_line_command o 0 depth cmd st0 _ st1 w0 ws ((tr ++ [Out (str "Welcome to mini-shell." ++ [10])]) ++ [Out (str "shell $ ")]) E Hh1 He Hp Hl)
    as (k2 & st2 & tr2 & E2 & Hem2 & Hp2 & Ho2). rewrite Htake in Hp2.
  rewrite (bind_ok _ _ _ _ _ E2).
  rewrite (main_loop_line o _ depth (str "prev")) by (done || (vm_compute; intuition discriminate) || (simpl; lia)). cbn [toks trace].
  destruct (get_tokens_recall k2 depth st2 (str "prev") (w0 :: ws)) as [E3|(st3 & E3 & Hh3 & Ho3)];
    [by right|congruence|done|congruence|congruence|done|done| |].
  { apply bind_err. unfold run_line. apply bind_err. unfold on_toks, zoom. cbn [toks]. by rewrite E3. }
  destruct (run_line_command o k2 depth (str "prev") st2 _ st3 w0 ws (tr2 ++ [Out (str "shell $ ")]) E3 Hh3 He Hp Hl)
    as (k4 & st4 & tr4 & E4 & Hem4 & Hp4 & Ho4). rewrite (bind_ok _ _ _ _ _ E4).
  rewrite (main_loop_line o _ depth (str "prev")) by (done || (vm_compute; intuition discriminate) || (simpl; lia)). cbn [toks trace].
  apply bind_err. unfold run_line. apply bind_err. unfold on_toks, zoom. cbn [toks].
  rewrite (prev_loops k4); [done|by right|congruence|done|by rewrite Hp4].
Qed.

(** ** Witnesses *)

(** An operating system whose calls succeed. *)
Definition fresh_fd (t : table) : Z := foldr Z.max 2 (map_to_list t).*1 + 1.

Definition demo_os : os := mk_os
  (fun tr c => match c with
               | SFork => 100 + Z.of_nat (length tr)
               | SOpen _ _ => fresh_fd (fds tr)
               | _ => 0
               end)
  (fun tr => (fresh_fd (fds tr), fresh_fd (fds tr) + 1)) (fun _ => 0) (fun _ => str "/") (fun _ => 0).

Lemma fresh_fd_above t n : 0 <= n -> t !! (fresh_fd t + n) = None.
Proof.
  intros Hn. apply eq_None_not_Some. intros [c Hc]. apply elem_of_map_to_list in Hc.
  apply (list_elem_of_fmap_2 fst) in Hc. simpl in Hc. revert Hc. unfold fresh_fd.
  generalize (map_to_list t).*1. intros l Hl.
  assert (H : forall x, x ∈ l -> x <= foldr Z.max 2 l).
  { clear. induction l as [|y l IH]; intros x; [by intros ?%not_elem_of_nil|].
    intros [->|Hx]%elem_of_cons; simpl; [lia|]. apply IH in Hx. lia. }
  apply H in Hl. lia.
Qed.

Lemma fresh_fd_pos t : 0 <= fresh_fd t.
Proof. unfold fresh_fd. induction ((map_to_list t).*1); simpl; lia. Qed.

Lemma demo_os_ok : os_ok demo_os.
Proof.
  split; intros tr; simpl; intros; try lia.
  - pose proof (fresh_fd_above (fds tr) 0 ltac:(lia)) as H. rewrite Z.add_0_r in H.
    split; [done|]. split; [by apply fresh_fd_above|lia].
  - split; [apply fresh_fd_pos|]. rewrite <- (Z.add_0_r (fresh_fd _)). by apply fresh_fd_above.
Qed.

(** A token module that holds [ws]. *)
Definition loaded (ws : list (list Z)) : state :=
  mk_state (Some (map Tok ws ++ Null :: replicate 100 Junk)) (Z.of_nat (length ws))
    (Z.of_nat (length ws + 1 + 100)) true [] (Z.of_nat (length ws) + 1) [].

Lemma loaded_holds ws : holds 0 (loaded ws) ws.
Proof. split; [done|]. split; [done|]. split; [done|]. exists (replicate 100 Junk). by rewrite length_replicate. Qed.

Lemma shell_runs_pipeline_witness :
  exists s' evs,
    shell_run demo_os 0 (mk_shell (loaded (sequence [[str "ls"; str "-l"]; [str "date"]] ++
      pipe_tokens [str "sort"; str "-n"] (Some (str "in")) [str "uniq"] None)) []) = Ok (0, s') /\
    ran std [[str "ls"; str "-l"]; [str "date"]] evs /\
    pipeline ([] ++ evs) (trace s') [str "sort"; str "-n"] (<[0 := input (Some (str "in"))]> (<[1 := PipeW]> std))
      [str "uniq"] (<[0 := PipeR]> (<[1 := output None]> std)).
Proof.
  apply (shell_runs_pipeline demo_os 0 _ [] [[str "ls"; str "-l"]; [str "date"]] [str "sort"; str "-n"] (Some (str "in")) [str "uniq"] None).
  - apply demo_os_ok.
  - apply loaded_holds.
  - by repeat constructor.
  - done.
  - done.
Defined.

Lemma sequence_ignores_redirect_witness :
  exists s' pid evs x post,
    shell_run demo_os 0 (mk_shell (loaded ([str "echo"; str "hi"; str ">"; str "f"; str ";"; str "ls"; str "|"; str "wc"])) []) = Ok (0, s') /\
    trace s' = Child pid evs (Execed [str "echo"; str "hi"; str ">"; str "f"]) :: Call (SWaitpid pid) x :: post /\ foldl fd_event std evs = std.
Proof.
  apply (sequence_ignores_redirect demo_os 0 _ [] (str "echo") [str "hi"] (str "f") [str "ls"] [str "wc"]);
    [apply demo_os_ok|apply (loaded_holds [str "echo"; str "hi"; str ">"; str "f"; str ";"; str "ls"; str "|"; str "wc"])|done..].
Defined.

Lemma shell_runs_redirect_witness :
  exists s' pid evs x,
    shell_run demo_os 0 (mk_shell (loaded ([str "cat"] ++ [60] :: str "in" :: [str ">"; str "out"])) []) = Ok (0, s') /\
    trace s' = [] ++ [Child pid evs (Execed [str "cat"]); Call (SWaitpid pid) x] /\
    foldl fd_event std evs = if 60 =? 62 then <[1 := File (Tok (str "in")) true]> std else <[0 := File (Tok (str "in")) false]> std.
Proof.
  apply (shell_runs_redirect demo_os 0 _ [] [str "cat"] 60 (str "in") [str ">"; str "out"]);
    [apply demo_os_ok|apply loaded_holds|done|done|done|by left|done|done|done|done].
Defined.

Lemma shell_run_total_witness :
  exists code s' n st' tr',
    shell_run demo_os 0 (mk_shell (loaded [str "a"; str "|"; str "b"]) []) = Ok (code, s') /\
    on_toks free_tokens s' = Ok (tt, mk_shell st' tr') /\ emptied (0 + n) st' /\ 0 <= n <= 3.
Proof. apply (shell_run_total demo_os 0 _ [] [str "a"; str "|"; str "b"]); [apply loaded_holds|done|done]. Defined.

Lemma main_prev_prev_diverges_witness :
  main demo_os 50 (str "ls -l" ++ [10] ++ str "prev" ++ [10] ++ str "prev" ++ [10] ++ []) (mk_shell (initial []) []) = Err OutOfFuel.
Proof.
  apply (main_prev_prev_diverges demo_os 50 (str "ls -l") (str "ls") [str "-l"] [] []);
    [done|simpl; lia|vm_compute; intuition discriminate|done|done|done].
Defined.
End Shell.
