(* ===== verification/Bio.v ===== *)
(** * Bio: the buffer cache of xv6

    bio.c, with the sleep locks of sleeplock.c that protect buffers and the
    memory disk of memide.c below it.  The code runs in one process: the spin
    locks of the cache are always free, and a sleep lock that is taken is never
    released by anyone else.  The circular list through [prev] and [next] is
    the sequence [lru] of buffer indices, from [head.next] to [head.prev].
    [writes] records the block writes the disk has received. *)
From stdpp Require Import base list gmap strings.
From Stdlib Require Import ZArith Lia.
From S2P Require Import Prelude.

Module Bio.

Definition BSIZE : Z := 512.
Definition NBUF : Z := 30.
Definition B_VALID : Z := 2.
Definition B_DIRTY : Z := 4.

Record sleeplock := mk_lock { locked : bool; pid : Z }.

Record buf := mk_buf {
  flags : Z;
  dev : Z;
  blockno : Z;
  lock : sleeplock;
  refcnt : Z;
  data : list Z
}.

Record state := mk_state {
  bufs : list buf;
  lru : list nat;
  memdisk : gmap Z (list Z);     (* blocks written so far; the others are zero *)
  disksize : Z;
  writes : list (Z * list Z);
  cur_pid : Z
}.

Definition zero_block : list Z := replicate (Z.to_nat BSIZE) 0.
Definition disk_block (st : state) (b : Z) : list Z := default zero_block (memdisk st !! b).

Definition set_flags (f : Z) (b : buf) : buf := mk_buf f (dev b) (blockno b) (lock b) (refcnt b) (data b).
Definition set_lock (l : sleeplock) (b : buf) : buf := mk_buf (flags b) (dev b) (blockno b) l (refcnt b) (data b).
Definition set_refcnt (n : Z) (b : buf) : buf := mk_buf (flags b) (dev b) (blockno b) (lock b) n (data b).
Definition set_data (d : list Z) (b : buf) : buf := mk_buf (flags b) (dev b) (blockno b) (lock b) (refcnt b) d.

(** A [struct buf *] is the index of a buffer. *)
Definition get_buf (i : nat) : M state buf :=
  let! st := get in of_option OutOfBounds (bufs st !! i).
Definition upd_buf (i : nat) (f : buf -> buf) : M state unit :=
  modify (fun st => mk_state (alter f i (bufs st)) (lru st) (memdisk st) (disksize st) (writes st) (cur_pid st)).
Definition set_lru (l : list nat) : M state unit :=
  modify (fun st => mk_state (bufs st) l (memdisk st) (disksize st) (writes st) (cur_pid st)).

(** ** sleeplock.c *)

Definition initsleeplock (i : nat) : M state unit := upd_buf i (set_lock (mk_lock false 0)).

(** A lock that is taken is waited for; no other process runs, so the wait does
    not end. *)
Definition acquiresleep (i : nat) : M state unit :=
  let! b := get_buf i in
  if locked (lock b) then fail OutOfFuel else
  let! st := get in
  upd_buf i (set_lock (mk_lock true (cur_pid st))).

Definition releasesleep (i : nat) : M state unit := upd_buf i (set_lock (mk_lock false 0)).

Definition holdingsleep (i : nat) : M state bool :=
  let! b := get_buf i in
  let! st := get in
  ret (locked (lock b) && (pid (lock b) =? cur_pid st)).

(** ** memide.c *)

Definition disk_write (b : Z) (d : list Z) : M state unit :=
  modify (fun st => mk_state (bufs st) (lru st) (<[b := d]> (memdisk st)) (disksize st) (writes st ++ [(b, d)]) (cur_pid st)).

Definition iderw (i : nat) : M state unit :=
  let! holding := holdingsleep i in
  if negb holding then fail (Panic "iderw: buf not locked") else
  let! b := get_buf i in
  if Z.land (flags b) (Z.lor B_VALID B_DIRTY) =? B_VALID then fail (Panic "iderw: nothing to do") else
  if negb (dev b =? 1) then fail (Panic "iderw: request not for disk 1") else
  let! st := get in
  if disksize st <=? blockno b then fail (Panic "iderw: block out of range") else
  do! (if negb (Z.land (flags b) B_DIRTY =? 0) then
         do! upd_buf i (fun b => set_flags (Z.land (flags b) (Z.lnot B_DIRTY)) b) in
         disk_write (blockno b) (data b)
       else upd_buf i (set_data (disk_block st (blockno b)))) in
  upd_buf i (fun b => set_flags (Z.lor (flags b) B_VALID) b).

(** ** bio.c *)

(** The buffers are in zeroed memory; every one is put at the head of the list. *)
Fixpoint binit_from (n i : nat) : M state unit :=
  match n with
  | O => ret tt
  | S n =>
      let! st := get in
      do! set_lru (i :: lru st) in
      do! initsleeplock i in
      binit_from n (S i)
  end.
Definition binit : M state unit :=
  do! set_lru [] in
  binit_from (Z.to_nat NBUF) 0.

Definition zero_buf : buf := mk_buf 0 0 0 (mk_lock false 0) 0 zero_block.

(** Memory at boot, with the disk image [d]. *)
Definition boot (d : gmap Z (list Z)) (size p : Z) : state :=
  mk_state (replicate (Z.to_nat NBUF) zero_buf) [] d size [] p.

(** The first index of the list whose buffer satisfies [p]. *)
Fixpoint find_buf (p : buf -> bool) (bs : list buf) (order : list nat) : option nat :=
  match order with
  | [] => None
  | i :: order =>
      match bs !! i with
      | Some b => if p b then Some i else find_buf p bs order
      | None => None
      end
  end.

Definition is_block (d n : Z) (b : buf) : bool := (dev b =? d) && (blockno b =? n).
Definition unused (b : buf) : bool := (refcnt b =? 0) && (Z.land (flags b) B_DIRTY =? 0).

Definition bget (d n : Z) : M state nat :=
  let! st := get in
  match find_buf (is_block d n) (bufs st) (lru st) with
  | Some i =>
      do! upd_buf i (fun b => set_refcnt (u32 (refcnt b + 1)) b) in
      do! acquiresleep i in
      ret i
  | None =>
      match find_buf unused (bufs st) (reverse (lru st)) with
      | Some i =>
          do! upd_buf i (fun b => mk_buf 0 d n (lock b) 1 (data b)) in
          do! acquiresleep i in
          ret i
      | None => fail (Panic "bget: no buffers")
      end
  end.

Definition bread (d n : Z) : M state nat :=
  let! i := bget d n in
  let! b := get_buf i in
  do! (if Z.land (flags b) B_VALID =? 0 then iderw i else ret tt) in
  ret i.

Definition bwrite (i : nat) : M state unit :=
  let! holding := holdingsleep i in
  if negb holding then fail (Panic "bwrite") else
  do! upd_buf i (fun b => set_flags (Z.lor (flags b) B_DIRTY) b) in
  iderw i.

Definition brelse (i : nat) : M state unit :=
  let! holding := holdingsleep i in
  if negb holding then fail (Panic "brelse") else
  do! releasesleep i in
  do! upd_buf i (fun b => set_refcnt (u32 (refcnt b - 1)) b) in
  let! b := get_buf i in
  if refcnt b =? 0 then
    let! st := get in
    set_lru (i :: filter (fun j => j <> i) (lru st))
  else ret tt.

(** ** What the cache promises

    [rep st c D H]: reading block [n] of disk 1 gives [c n]; the blocks of [D]
    are dirty, pinned in the cache until they are written; those of [H] are
    locked by the running process. *)
Definition buf_ok (st : state) (c : Z -> list Z) (D H : gset Z) (b : buf) : Prop :=
  (dev b = 0 /\ unused b = true /\ lock b = mk_lock false 0) \/
  (dev b = 1 /\
   flags b = (if bool_decide (blockno b ∈ D) then 6 else 2) /\
   lock b = (if bool_decide (blockno b ∈ H) then mk_lock true (cur_pid st) else mk_lock false 0) /\
   refcnt b = (if bool_decide (blockno b ∈ H) then 1 else 0) /\
   data b = c (blockno b)).

(** Buffer [i] holds block [n]. *)
Definition handle (st : state) (n : Z) (i : nat) : Prop :=
  exists b, bufs st !! i = Some b /\ dev b = 1 /\ blockno b = n.

Record rep (st : state) (c : Z -> list Z) (D H : gset Z) : Prop := {
  rep_len : length (bufs st) = Z.to_nat NBUF;
  rep_lru : lru st ≡ₚ seq 0 (Z.to_nat NBUF);
  rep_uniq n i j : handle st n i -> handle st n j -> i = j;
  rep_buf i b : bufs st !! i = Some b -> buf_ok st c D H b;
  rep_cached n : n ∈ D \/ n ∈ H -> exists i, handle st n i;
  rep_clean n : n ∉ D -> n ∉ H -> c n = disk_block st n
}.

(** What an operation on block [n] leaves alone: the disk's size, the process
    and the buffers of the other locked blocks. *)
Record frame (H : gset Z) (n : Z) (st st' : state) : Prop := {
  fr_size : disksize st' = disksize st;
  fr_pid : cur_pid st' = cur_pid st;
  fr_handle m i : m ∈ H -> m <> n -> handle st m i -> handle st' m i
}.

Section lookups.
Implicit Types (p : buf -> bool) (bs : list buf) (order : list nat).

Lemma find_buf_Some p bs order i :
  find_buf p bs order = Some i -> exists b, bs !! i = Some b /\ p b = true /\ i ∈ order.
Proof.
  induction order as [|j order IH]; simpl; [done|]. destruct (bs !! j) as [b|] eqn:E; [|done].
  destruct (p b) eqn:Ep.
  - intros [= <-]. exists b. split; [done|]. split; [done|]. apply elem_of_cons. by left.
  - intros H. destruct (IH H) as (b' & ? & ? & ?). exists b'. split; [done|]. split; [done|]. apply elem_of_cons. by right.
Qed.

Lemma find_buf_None p bs order :
  (forall i, i ∈ order -> (i < length bs)%nat) -> find_buf p bs order = None ->
  forall i b, i ∈ order -> bs !! i = Some b -> p b = false.
Proof.
  induction order as [|j order IH]; simpl; intros Hr Hn i b Hi Hb; [by apply not_elem_of_nil in Hi|].
  destruct (bs !! j) as [b'|] eqn:E.
  - destruct (p b') eqn:Ep; [done|]. apply elem_of_cons in Hi as [->|Hi]; [congruence|].
    apply (IH (fun k Hk => Hr k ltac:(apply elem_of_cons; by right)) Hn i b Hi Hb).
  - apply lookup_ge_None in E. specialize (Hr j ltac:(apply elem_of_cons; by left)). lia.
Qed.

Lemma lru_index st c D H i : rep st c D H -> i ∈ lru st <-> (i < length (bufs st))%nat.
Proof. intros R. rewrite (rep_lru _ _ _ _ R), (rep_len _ _ _ _ R), elem_of_seq. lia. Qed.
End lookups.

Lemma buf_ok_unused st c D H b : buf_ok st c D H b -> unused b = true -> dev b = 1 -> blockno b ∉ D /\ blockno b ∉ H.
Proof.
  intros [(H0 & _)|(_ & Hf & Hl & Hr & Hd)] Hu H1; [lia|]. unfold unused in Hu. rewrite Hf, Hr in Hu.
  repeat case_bool_decide; done.
Qed.

(** Buffer [i] becomes [b'], a buffer of block [n]. *)
Lemma rep_install st st' c c' D D' H H' i b b' n :
  rep st c D H -> bufs st !! i = Some b ->
  bufs st' = <[i := b']> (bufs st) -> lru st' ≡ₚ lru st -> cur_pid st' = cur_pid st ->
  dev b' = 1 -> blockno b' = n ->
  (forall j, handle st n j -> j = i) ->
  (dev b = 1 /\ blockno b = n) \/ unused b = true ->
  (forall m, m <> n -> (m ∈ D' <-> m ∈ D) /\ (m ∈ H' <-> m ∈ H) /\ c' m = c m /\ disk_block st' m = disk_block st m) ->
  buf_ok st' c' D' H' b' ->
  (n ∉ D' -> n ∉ H' -> c' n = disk_block st' n) ->
  rep st' c' D' H'.
Proof.
  intros R Hb Hbufs Hlru Hpid Hdev Hn Huniq Hold Hother Hok Hclean.
  assert (Hlen : (i < length (bufs st))%nat) by (by eapply lookup_lt_Some).
  assert (Hnew : handle st' n i).
  { exists b'. rewrite Hbufs, list_lookup_insert_eq by done. done. }
  assert (Hkeep : forall m j, m <> n -> handle st' m j -> handle st m j /\ j <> i).
  { intros m j Hm (a & Ha & Hd & Hbn). rewrite Hbufs in Ha. destruct (decide (i = j)) as [->|].
    - rewrite list_lookup_insert_eq in Ha by done. congruence.
    - rewrite list_lookup_insert_ne in Ha by done. split; [by exists a|done]. }
  assert (Hkeep' : forall m j, m <> n -> m ∈ D \/ m ∈ H -> handle st m j -> handle st' m j).
  { intros m j Hm HDH (a & Ha & Hd & Hbn). exists a. rewrite Hbufs. destruct (decide (i = j)) as [->|].
    - exfalso. rewrite Hb in Ha. injection Ha as <-. destruct Hold as [[_ ?]|Hu]; [congruence|].
      destruct (buf_ok_unused st c D H b (rep_buf _ _ _ _ R _ _ Hb) Hu Hd) as [? ?]. subst m. tauto.
    - by rewrite list_lookup_insert_ne. }
  split.
  - rewrite Hbufs, length_insert. apply R.
  - rewrite Hlru. apply R.
  - intros m j k Hj Hk. destruct (decide (m = n)) as [->|].
    + assert (Hx : forall j, handle st' n j -> j = i).
      { intros x (a & Ha & Hd & Hbn). destruct (decide (i = x)) as [|]; [done|].
        rewrite Hbufs, list_lookup_insert_ne in Ha by done. apply Huniq. by exists a. }
      by rewrite (Hx _ Hj), (Hx _ Hk).
    + apply (rep_uniq _ _ _ _ R m); by apply Hkeep.
  - intros j a Ha. rewrite Hbufs in Ha. destruct (decide (i = j)) as [->|Hij].
    + rewrite list_lookup_insert_eq in Ha by done. by injection Ha as <-.
    + rewrite list_lookup_insert_ne in Ha by done.
      destruct (rep_buf _ _ _ _ R _ _ Ha) as [Hz|(Hd & Hf & Hl & Hr & Hda)]; [by left|right].
      assert (Hne : blockno a <> n) by (intros E; apply Hij; symmetry; apply Huniq; by exists a).
      destruct (Hother _ Hne) as (HD & HH & Hc & _). rewrite Hpid, Hc.
      rewrite (bool_decide_ext _ _ HD), (bool_decide_ext _ _ HH). done.
  - intros m Hm. destruct (decide (m = n)) as [->|Hne]; [eauto|].
    destruct (Hother _ Hne) as (HD & HH & _). destruct (rep_cached _ _ _ _ R m) as [j Hj]; [tauto|].
    exists j. apply Hkeep'; [done|tauto|done].
  - intros m HmD HmH. destruct (decide (m = n)) as [->|Hne]; [by apply Hclean|].
    destruct (Hother _ Hne) as (HD & HH & -> & ->). apply (rep_clean _ _ _ _ R); tauto.
Qed.

(** ** The operations *)

(** The state with buffer [i] replaced. *)
Definition with_buf (i : nat) (b : buf) (st : state) : state :=
  mk_state (<[i := b]> (bufs st)) (lru st) (memdisk st) (disksize st) (writes st) (cur_pid st).

Lemma upd_buf_eq i f st b : bufs st !! i = Some b -> upd_buf i f st = Ok (tt, with_buf i (f b) st).
Proof.
  intros Hb. unfold upd_buf, modify, with_buf. do 3 f_equal. apply list_eq. intros j.
  destruct (decide (i = j)) as [->|].
  - rewrite list_lookup_alter_eq, Hb, list_lookup_insert_eq by (by eapply lookup_lt_Some). done.
  - by rewrite list_lookup_alter_ne, list_lookup_insert_ne.
Qed.

Lemma with_buf_lookup i b st a : bufs st !! i = Some a -> bufs (with_buf i b st) !! i = Some b.
Proof. intros H. simpl. apply list_lookup_insert_eq. by eapply lookup_lt_Some. Qed.

Lemma with_buf_twice i b b' st : with_buf i b' (with_buf i b st) = with_buf i b' st.
Proof. unfold with_buf. simpl. by rewrite list_insert_insert_eq. Qed.

Lemma get_buf_eq i st b : bufs st !! i = Some b -> get_buf i st = Ok (b, st).
Proof. intros H. unfold get_buf, bind, get. by rewrite H. Qed.

Lemma acquiresleep_eq i st b :
  bufs st !! i = Some b -> locked (lock b) = false ->
  acquiresleep i st = Ok (tt, with_buf i (set_lock (mk_lock true (cur_pid st)) b) st).
Proof.
  intros Hb Hl. unfold acquiresleep. rewrite (bind_ok _ _ _ _ _ (get_buf_eq _ _ _ Hb)), Hl.
  unfold bind, get. by apply upd_buf_eq.
Qed.

Lemma holdingsleep_eq i st b :
  bufs st !! i = Some b -> lock b = mk_lock true (cur_pid st) -> holdingsleep i st = Ok (true, st).
Proof.
  intros Hb Hl. unfold holdingsleep. rewrite (bind_ok _ _ _ _ _ (get_buf_eq _ _ _ Hb)), Hl.
  unfold bind, get, ret. simpl. by rewrite Z.eqb_refl.
Qed.

(** Reading a block into a locked buffer that is not valid. *)
Lemma iderw_read i st b :
  bufs st !! i = Some b -> lock b = mk_lock true (cur_pid st) -> flags b = 0 -> dev b = 1 -> blockno b < disksize st ->
  iderw i st = Ok (tt, with_buf i (set_flags 2 (set_data (disk_block st (blockno b)) b)) st).
Proof.
  intros Hb Hl Hf Hd Hn. unfold iderw. rewrite (bind_ok _ _ _ _ _ (holdingsleep_eq _ _ _ Hb Hl)). simpl.
  rewrite (bind_ok _ _ _ _ _ (get_buf_eq _ _ _ Hb)), Hf, Hd. simpl. unfold bind at 1, get.
  rewrite (proj2 (Z.leb_gt _ _)) by lia. rewrite (bind_ok _ _ _ _ _ (upd_buf_eq _ _ _ _ Hb)).
  rewrite (upd_buf_eq _ _ _ _ (with_buf_lookup _ _ _ _ Hb)), with_buf_twice. simpl. by rewrite Hf.
Qed.

(** Writing a dirty buffer. *)
Lemma iderw_write i st b :
  bufs st !! i = Some b -> lock b = mk_lock true (cur_pid st) -> flags b = 6 -> dev b = 1 -> blockno b < disksize st ->
  iderw i st = Ok (tt, mk_state (<[i := set_flags 2 b]> (bufs st)) (lru st) (<[blockno b := data b]> (memdisk st))
    (disksize st) (writes st ++ [(blockno b, data b)]) (cur_pid st)).
Proof.
  intros Hb Hl Hf Hd Hn. unfold iderw. rewrite (bind_ok _ _ _ _ _ (holdingsleep_eq _ _ _ Hb Hl)). simpl.
  rewrite (bind_ok _ _ _ _ _ (get_buf_eq _ _ _ Hb)), Hf, Hd. simpl. unfold bind at 1, get.
  rewrite (proj2 (Z.leb_gt _ _)) by lia. rewrite bind_assoc. rewrite (bind_ok _ _ _ _ _ (upd_buf_eq _ _ _ _ Hb)).
  unfold disk_write, modify, bind. simpl. erewrite upd_buf_eq; [|simpl; apply list_lookup_insert_eq; by eapply lookup_lt_Some].
  unfold with_buf. simpl. rewrite list_insert_insert_eq, Hf. done.
Qed.

(** A pinned or locked block leaves a buffer free when fewer than all are in use. *)
Lemma unused_exists st c D H :
  rep st c D H -> (size (D ∪ H) < Z.to_nat NBUF)%nat -> exists i, find_buf unused (bufs st) (reverse (lru st)) = Some i.
Proof.
  intros R Hsz. destruct (find_buf unused _ _) as [i|] eqn:E; [eauto|exfalso].
  assert (Hall : forall i b, bufs st !! i = Some b -> unused b = false).
  { intros i b Hb. eapply (find_buf_None unused); [|exact E| |exact Hb].
    - intros j. rewrite elem_of_reverse. by apply (lru_index _ _ _ _ _ R).
    - rewrite elem_of_reverse. apply (lru_index _ _ _ _ _ R). by eapply lookup_lt_Some. }
  assert (Hused : forall i b, bufs st !! i = Some b -> dev b = 1 /\ blockno b ∈ D ∪ H).
  { intros i b Hb. specialize (Hall i b Hb). destruct (rep_buf _ _ _ _ R _ _ Hb) as [(_ & Hu & _)|(Hd & Hf & _ & Hr & _)]; [congruence|].
    split; [done|]. apply elem_of_union. unfold unused in Hall. rewrite Hf, Hr in Hall.
    repeat case_bool_decide; auto; done. }
  assert (Hnd : NoDup (blockno <$> bufs st)).
  { apply NoDup_alt. intros i j n Hi Hj. apply list_lookup_fmap_Some in Hi as (a & -> & Ha).
    apply list_lookup_fmap_Some in Hj as (b & Heq & Hb).
    apply (rep_uniq _ _ _ _ R (blockno a)); [exists a|exists b]; split; auto; split; auto; by eapply Hused. }
  assert (Hsub : (list_to_set (blockno <$> bufs st) : gset Z) ⊆ D ∪ H).
  { intros n. rewrite elem_of_list_to_set, list_elem_of_fmap. intros (b & -> & Hb).
    apply list_elem_of_lookup in Hb as [i Hi]. by eapply Hused. }
  apply subseteq_size in Hsub. rewrite size_list_to_set, length_fmap, (rep_len _ _ _ _ R) in Hsub by done. lia.
Qed.

Lemma bread_spec st c D H n :
  rep st c D H -> n ∉ H -> n < disksize st -> (size (D ∪ H ∪ {[n]}) <= Z.to_nat NBUF)%nat ->
  exists i st', bread 1 n st = Ok (i, st') /\ rep st' c D (H ∪ {[n]}) /\ handle st' n i /\ frame H n st st' /\
    memdisk st' = memdisk st /\ writes st' = writes st.
Proof.
  intros R Hn Hsz Hcap. unfold bread, bget. rewrite bind_assoc. unfold bind at 1, get at 1.
  destruct (find_buf (is_block 1 n) (bufs st) (lru st)) as [i|] eqn:E.
  - apply find_buf_Some in E as (b & Hb & Hp & _). unfold is_block in Hp.
    assert (Hd : dev b = 1 /\ blockno b = n) by lia. destruct Hd as [Hd Hbn].
    destruct (rep_buf _ _ _ _ R _ _ Hb) as [(? & _)|(_ & Hf & Hl & Hr & Hda)]; [lia|].
    rewrite Hbn in *. rewrite bool_decide_eq_false_2 in Hl, Hr by done.
    rewrite bind_assoc. rewrite (bind_ok _ _ _ _ _ (upd_buf_eq _ _ _ _ Hb)). rewrite bind_assoc.
    pose proof (with_buf_lookup i (set_refcnt (u32 (refcnt b + 1)) b) st b Hb) as Hb1.
    rewrite (bind_ok _ _ _ _ _ (acquiresleep_eq _ _ _ Hb1 ltac:(simpl; by rewrite Hl))). rewrite with_buf_twice. unfold ret at 1.
    set (b' := set_lock _ _). set (st' := with_buf i b' st).
    assert (Hb' : bufs st' !! i = Some b') by (by eapply with_buf_lookup).
    unfold bind at 1. rewrite (bind_ok _ _ _ _ _ (get_buf_eq _ _ _ Hb')).
    assert (Hv : (Z.land (flags b') B_VALID =? 0) = false).
    { unfold b'. simpl. rewrite Hf. by case_bool_decide. }
    rewrite Hv. exists i, st'. split; [done|].
    assert (Hh : handle st' n i) by (by exists b').
    split; [|split; [done|split; [|done]]].
    + eapply (rep_install st st' c c D D H _ i b b' n R Hb); try done.
      * intros j Hj. apply (rep_uniq _ _ _ _ R n); [done|by exists b].
      * by left.
      * intros m Hm. set_solver.
      * right. unfold b'. simpl. rewrite Hbn, Hr. rewrite (bool_decide_eq_true_2 (n ∈ H ∪ {[n]})) by set_solver. done.
      * set_solver.
    + split; [done|done|]. intros m j Hm Hmn (a & Ha & Hda' & Hbm). exists a. split; [|done]. simpl.
      rewrite list_lookup_insert_ne; [done|]. intros <-. congruence.
  - assert (Hno : forall j, handle st n j -> False).
    { intros j (a & Ha & Hda & Hbn). eapply (find_buf_None (is_block 1 n) _ (lru st)) in E; [| |exact (proj2 (lru_index _ _ _ _ _ R) (lookup_lt_Some _ _ _ Ha))|exact Ha].
      - unfold is_block in E. lia.
      - intros k. apply (lru_index _ _ _ _ _ R). }
    assert (HnD : n ∉ D).
    { intros HD. destruct (rep_cached _ _ _ _ R n) as [j Hj]; [by left|]. eauto. }
    assert (HDH : n ∉ D ∪ H) by set_solver.
    destruct (unused_exists st c D H R) as [i Ei].
    { rewrite size_union, size_singleton in Hcap by set_solver. lia. }
    rewrite Ei. apply find_buf_Some in Ei as (b & Hb & Hu & _).
    assert (Hlk : lock b = mk_lock false 0).
    { destruct (rep_buf _ _ _ _ R _ _ Hb) as [(_ & _ & Hl)|(Hd & Hf & Hl & Hr & _)]; [done|].
      destruct (buf_ok_unused st c D H b (rep_buf _ _ _ _ R _ _ Hb) Hu Hd) as [_ Hh].
      by rewrite bool_decide_eq_false_2 in Hl. }
    rewrite bind_assoc. rewrite (bind_ok _ _ _ _ _ (upd_buf_eq _ _ _ _ Hb)). rewrite bind_assoc.
    pose proof (with_buf_lookup i (mk_buf 0 1 n (lock b) 1 (data b)) st b Hb) as Hb1.
    rewrite (bind_ok _ _ _ _ _ (acquiresleep_eq _ _ _ Hb1 ltac:(simpl; by rewrite Hlk))). rewrite with_buf_twice. unfold ret at 1.
    set (b' := set_lock _ _). set (st1 := with_buf i b' st).
    assert (Hb' : bufs st1 !! i = Some b') by (by eapply with_buf_lookup).
    unfold bind at 1. rewrite (bind_ok _ _ _ _ _ (get_buf_eq _ _ _ Hb')). simpl.
    rewrite (bind_ok _ _ _ _ _ (iderw_read _ _ _ Hb' eq_refl eq_refl eq_refl ltac:(simpl; lia))).
    unfold st1. rewrite with_buf_twice. set (b2 := set_flags _ _). set (st' := with_buf i b2 st).
    assert (Hb2 : bufs st' !! i = Some b2) by (by eapply with_buf_lookup).
    exists i, st'. split; [done|]. assert (Hh : handle st' n i) by (by exists b2).
    split; [|split; [done|split; [|done]]].
    + eapply (rep_install st st' c c D D H _ i b b2 n R Hb); try done.
      * intros j Hj. destruct (Hno j Hj).
      * by right.
      * intros m Hm. set_solver.
      * right. unfold b2. simpl. rewrite (bool_decide_eq_true_2 (n ∈ H ∪ {[n]})) by set_solver.
        rewrite bool_decide_eq_false_2 by done. split; [done|]. split; [done|]. split; [done|]. split; [done|].
        symmetry. by apply (rep_clean _ _ _ _ R).
      * set_solver.
    + split; [done|done|]. intros m j Hm Hmn (a & Ha & Hda' & Hbm). exists a. split; [|done]. simpl.
      rewrite list_lookup_insert_ne; [done|]. intros <-. rewrite Hb in Ha. injection Ha as <-.
      destruct (buf_ok_unused st c D H b (rep_buf _ _ _ _ R _ _ Hb) Hu Hda') as [_ Hx]. subst m. done.
Qed.

Lemma handle_held st c D H n i :
  rep st c D H -> n ∈ H -> handle st n i ->
  exists b, bufs st !! i = Some b /\ dev b = 1 /\ blockno b = n /\ flags b = (if bool_decide (n ∈ D) then 6 else 2) /\
    lock b = mk_lock true (cur_pid st) /\ refcnt b = 1 /\ data b = c n.
Proof.
  intros R HnH (b & Hb & Hd & Hn). exists b.
  destruct (rep_buf _ _ _ _ R _ _ Hb) as [(? & _)|(_ & Hf & Hl & Hr & Hda)]; [lia|].
  rewrite Hn in *. rewrite bool_decide_eq_true_2 in Hl, Hr by done. done.
Qed.

(** Replacing a locked buffer of block [n] keeps the others. *)
Lemma rep_held st st' c c' D D' H H' i b b' n :
  rep st c D H -> bufs st !! i = Some b -> dev b = 1 -> blockno b = n ->
  bufs st' = <[i := b']> (bufs st) -> lru st' ≡ₚ lru st -> cur_pid st' = cur_pid st -> disksize st' = disksize st ->
  dev b' = 1 -> blockno b' = n ->
  (forall m, m <> n -> (m ∈ D' <-> m ∈ D) /\ (m ∈ H' <-> m ∈ H) /\ c' m = c m /\ disk_block st' m = disk_block st m) ->
  buf_ok st' c' D' H' b' -> (n ∉ D' -> n ∉ H' -> c' n = disk_block st' n) ->
  rep st' c' D' H' /\ handle st' n i /\ frame H n st st'.
Proof.
  intros R Hb Hd Hn Hbufs Hlru Hpid Hsize Hd' Hn' Hother Hok Hclean.
  assert (Hlt : (i < length (bufs st))%nat) by (by eapply lookup_lt_Some).
  split; [|split; [|split]].
  - eapply (rep_install st st' c c' D D' H H' i b b' n R Hb); try done; [|by left].
    intros j Hj. apply (rep_uniq _ _ _ _ R n); [done|by exists b].
  - exists b'. by rewrite Hbufs, list_lookup_insert_eq.
  - done.
  - done.
  - intros m j Hm Hmn (a & Ha & Hda' & Hbm). exists a. split; [|done].
    rewrite Hbufs, list_lookup_insert_ne; [done|]. intros <-. congruence.
Qed.

(** The client writes to the data of a buffer it holds. *)
Definition set_block (c : Z -> list Z) (n : Z) (d : list Z) (m : Z) : list Z := if m =? n then d else c m.

Lemma set_data_spec st c D H n i d :
  rep st c D H -> n ∈ H -> handle st n i ->
  exists st', upd_buf i (set_data d) st = Ok (tt, st') /\ rep st' (set_block c n d) D H /\ handle st' n i /\
    frame H n st st' /\ memdisk st' = memdisk st /\ writes st' = writes st.
Proof.
  intros R HnH Hh. destruct (handle_held _ _ _ _ _ _ R HnH Hh) as (b & Hb & Hd & Hn & Hf & Hl & Hr & Hda).
  exists (with_buf i (set_data d b) st). split; [by apply upd_buf_eq|].
  destruct (rep_held st (with_buf i (set_data d b) st) c (set_block c n d) D D H H i b (set_data d b) n R Hb Hd Hn) as (? & ? & ?); try done.
  - intros m Hm. unfold set_block. rewrite (proj2 (Z.eqb_neq _ _)) by done. done.
  - right. simpl. rewrite Hn, Hf, Hl, Hr. rewrite (bool_decide_eq_true_2 (n ∈ H)) by done. unfold set_block. by rewrite Z.eqb_refl.
Qed.

(** [b->flags |= B_DIRTY]. *)
Lemma set_dirty_spec st c D H n i :
  rep st c D H -> n ∈ H -> handle st n i ->
  exists st', upd_buf i (fun b => set_flags (Z.lor (flags b) B_DIRTY) b) st = Ok (tt, st') /\ rep st' c (D ∪ {[n]}) H /\
    handle st' n i /\ frame H n st st' /\ memdisk st' = memdisk st /\ writes st' = writes st.
Proof.
  intros R HnH Hh. destruct (handle_held _ _ _ _ _ _ R HnH Hh) as (b & Hb & Hd & Hn & Hf & Hl & Hr & Hda).
  exists (with_buf i (set_flags (Z.lor (flags b) B_DIRTY) b) st). split; [by apply (upd_buf_eq _ (fun b => set_flags (Z.lor (flags b) B_DIRTY) b))|].
  destruct (rep_held st (with_buf i (set_flags (Z.lor (flags b) B_DIRTY) b) st) c c D (D ∪ {[n]}) H H i b _ n R Hb Hd Hn eq_refl) as (? & ? & ?); try done.
  - intros m Hm. set_solver.
  - right. simpl. rewrite Hn, Hf, Hl, Hr, Hda. rewrite (bool_decide_eq_true_2 (n ∈ H)), (bool_decide_eq_true_2 (n ∈ D ∪ {[n]})) by set_solver.
    by case_bool_decide.
Qed.

Lemma bwrite_spec st c D H n i :
  rep st c D H -> n ∈ H -> handle st n i -> n < disksize st ->
  exists st', bwrite i st = Ok (tt, st') /\ rep st' c (D ∖ {[n]}) H /\ handle st' n i /\ frame H n st st' /\
    memdisk st' = <[n := c n]> (memdisk st) /\ writes st' = writes st ++ [(n, c n)].
Proof.
  intros R HnH Hh Hsz. destruct (handle_held _ _ _ _ _ _ R HnH Hh) as (b & Hb & Hd & Hn & Hf & Hl & Hr & Hda).
  unfold bwrite. rewrite (bind_ok _ _ _ _ _ (holdingsleep_eq _ _ _ Hb Hl)). simpl.
  rewrite (bind_ok _ _ _ _ _ (upd_buf_eq _ _ _ _ Hb)).
  set (b1 := set_flags (Z.lor (flags b) B_DIRTY) b). pose proof (with_buf_lookup i b1 st b Hb) as Hb1.
  assert (Hf1 : flags b1 = 6) by (unfold b1; simpl; rewrite Hf; by case_bool_decide).
  rewrite (iderw_write i _ b1 Hb1 Hl Hf1 Hd ltac:(unfold b1; simpl; lia)).
  eexists. split; [done|]. unfold b1. simpl. rewrite list_insert_insert_eq, Hn, Hda.
  match goal with |- rep ?x _ _ _ /\ _ => set (st' := x) end.
  destruct (rep_held st st' c c D (D ∖ {[n]}) H H i b (set_flags 2 (set_flags (Z.lor (flags b) B_DIRTY) b)) n R Hb Hd Hn) as (? & ? & ?); try done.
  - intros m Hm. split; [set_solver|]. split; [done|]. split; [done|]. unfold disk_block, st'. simpl.
    by rewrite lookup_insert_ne.
  - right. simpl. rewrite Hn, Hl, Hr, Hda. rewrite (bool_decide_eq_true_2 (n ∈ H)) by done.
    rewrite (bool_decide_eq_false_2 (n ∈ D ∖ {[n]})) by set_solver. done.
Qed.

Lemma move_to_front (l : list nat) i : NoDup l -> i ∈ l -> i :: filter (fun j => j <> i) l ≡ₚ l.
Proof.
  intros Hnd Hi. apply NoDup_Permutation; [|done|].
  - constructor; [rewrite list_elem_of_filter; tauto|]. by apply NoDup_filter.
  - intros x. rewrite elem_of_cons, list_elem_of_filter. destruct (decide (x = i)); naive_solver.
Qed.

Lemma brelse_spec st c D H n i :
  rep st c D H -> n ∈ H -> handle st n i -> (n ∈ D \/ c n = disk_block st n) ->
  exists st', brelse i st = Ok (tt, st') /\ rep st' c D (H ∖ {[n]}) /\ frame H n st st' /\
    memdisk st' = memdisk st /\ writes st' = writes st.
Proof.
  intros R HnH Hh Hcl. destruct (handle_held _ _ _ _ _ _ R HnH Hh) as (b & Hb & Hd & Hn & Hf & Hl & Hr & Hda).
  unfold brelse. rewrite (bind_ok _ _ _ _ _ (holdingsleep_eq _ _ _ Hb Hl)). simpl. unfold releasesleep.
  rewrite (bind_ok _ _ _ _ _ (upd_buf_eq _ _ _ _ Hb)).
  pose proof (with_buf_lookup i (set_lock (mk_lock false 0) b) st b Hb) as Hb1.
  rewrite (bind_ok _ _ _ _ _ (upd_buf_eq _ _ _ _ Hb1)). rewrite with_buf_twice.
  set (b2 := set_refcnt _ _). pose proof (with_buf_lookup i b2 st b Hb) as Hb2.
  rewrite (bind_ok _ _ _ _ _ (get_buf_eq _ _ _ Hb2)).
  assert (Hr2 : refcnt b2 = 0) by (unfold b2; simpl; by rewrite Hr). rewrite Hr2. simpl.
  eexists. split; [done|]. match goal with |- rep ?x _ _ _ /\ _ => set (st' := x) end.
  destruct (rep_held st st' c c D D H (H ∖ {[n]}) i b b2 n R Hb Hd Hn) as (? & ? & ?); try done.
  - apply move_to_front; [rewrite (rep_lru _ _ _ _ R); apply NoDup_seq|]. apply (lru_index _ _ _ _ _ R). by eapply lookup_lt_Some.
  - intros m Hm. set_solver.
  - right. unfold b2. simpl. rewrite Hn, Hr, Hda, Hf. rewrite !(bool_decide_eq_false_2 (n ∈ H ∖ {[n]})) by set_solver. done.
  - intros HD _. change (disk_block st' n) with (disk_block st n). destruct Hcl; [done|done].
Qed.

(** binit links the buffers in reverse order; their locks are free already. *)
Lemma binit_from_spec n : forall i d size p ws l,
  binit_from n i (mk_state (replicate (Z.to_nat NBUF) zero_buf) l d size ws p) =
  Ok (tt, mk_state (replicate (Z.to_nat NBUF) zero_buf) (reverse (seq i n) ++ l) d size ws p).
Proof.
  induction n as [|n IH]; intros i d size p ws l; [done|]. cbn [binit_from].
  unfold initsleeplock, upd_buf, set_lru, bind, get, modify. cbn [bufs lru memdisk disksize writes cur_pid].
  assert (Ha : alter (set_lock (mk_lock false 0)) i (replicate (Z.to_nat NBUF) zero_buf) = replicate (Z.to_nat NBUF) zero_buf).
  { etrans; [|by apply (list_alter_id (fun b => b))]. apply list_alter_ext; [|done].
    intros b Hb. by apply lookup_replicate in Hb as [-> _]. }
  rewrite Ha, IH. cbn [seq]. by rewrite reverse_cons, <- app_assoc.
Qed.

(** An empty cache. *)
Lemma rep_empty d size p ws :
  rep (mk_state (replicate (Z.to_nat NBUF) zero_buf) (reverse (seq 0 (Z.to_nat NBUF))) d size ws p)
    (fun n => default zero_block (d !! n)) ∅ ∅.
Proof.
  assert (Hz : forall i b, replicate (Z.to_nat NBUF) zero_buf !! i = Some b -> b = zero_buf).
  { intros i b Hb. by apply lookup_replicate in Hb as [-> _]. }
  split.
  - apply length_replicate.
  - apply reverse_Permutation.
  - intros n i j (b & Hb & Hd & _). apply Hz in Hb as ->. done.
  - intros i b Hb. left. apply Hz in Hb as ->. done.
  - set_solver.
  - done.
Qed.

(** After binit nothing is cached. *)
Lemma binit_spec d size p :
  exists st, binit (boot d size p) = Ok (tt, st) /\ rep st (fun n => default zero_block (d !! n)) ∅ ∅ /\
    memdisk st = d /\ writes st = [] /\ disksize st = size /\ cur_pid st = p.
Proof.
  exists (mk_state (replicate (Z.to_nat NBUF) zero_buf) (reverse (seq 0 (Z.to_nat NBUF))) d size [] p). split.
  { unfold binit, boot, set_lru. unfold bind at 1, modify. cbn [bufs lru memdisk disksize writes cur_pid].
    rewrite binit_from_spec. by rewrite app_nil_r. }
  split; [apply rep_empty|done].
Qed.

(** ** The cache as a disk *)

Inductive op :=
  | Read (n : Z)
  | Write (n : Z) (x : list Z).

(** A client that reads a block, or overwrites one and writes it back. *)
Definition run_op (o : op) : M state (list Z) :=
  match o with
  | Read n =>
      let! i := bread 1 n in
      let! b := get_buf i in
      do! brelse i in
      ret (data b)
  | Write n x =>
      let! i := bread 1 n in
      do! upd_buf i (set_data x) in
      do! bwrite i in
      do! brelse i in
      ret x
  end.

Fixpoint run_ops (os : list op) : M state (list (list Z)) :=
  match os with
  | [] => ret []
  | o :: os => let! x := run_op o in let! xs := run_ops os in ret (x :: xs)
  end.

(** The same on a plain map from block numbers to contents. *)
Fixpoint spec_ops (c : Z -> list Z) (os : list op) : list (list Z) * (Z -> list Z) :=
  match os with
  | [] => ([], c)
  | Read n :: os => let (xs, c') := spec_ops c os in (c n :: xs, c')
  | Write n x :: os => let (xs, c') := spec_ops (set_block c n x) os in (x :: xs, c')
  end.

Definition op_block (o : op) : Z := match o with Read n => n | Write n _ => n end.

Definition idle (st : state) (c : Z -> list Z) (size : Z) : Prop := rep st c ∅ ∅ /\ disksize st = size.

Lemma size_one n : (base.size (∅ ∪ ∅ ∪ {[n]} : gset Z) <= Z.to_nat NBUF)%nat.
Proof. replace (∅ ∪ ∅ ∪ {[n]} : gset Z) with ({[n]} : gset Z) by set_solver. rewrite size_singleton. unfold NBUF. lia. Qed.

Lemma run_op_spec st c size o :
  idle st c size -> op_block o < size ->
  exists st', run_op o st = Ok (match o with Read n => c n | Write _ x => x end, st') /\
    idle st' (match o with Read _ => c | Write n x => set_block c n x end) size.
Proof.
  intros [R Hs] Hn. destruct o as [n|n x]; simpl in Hn; unfold run_op;
    destruct (bread_spec st c ∅ ∅ n R ltac:(set_solver) ltac:(lia) (size_one n)) as (i & st1 & E1 & R1 & Hh1 & F1 & Hd1 & _);
    rewrite (bind_ok _ _ _ _ _ E1); replace (∅ ∪ {[n]} : gset Z) with ({[n]} : gset Z) in R1 by set_solver;
    assert (HnH : n ∈ ({[n]} : gset Z)) by set_solver.
  - destruct (handle_held _ _ _ _ _ _ R1 HnH Hh1) as (b & Hb & _ & _ & _ & _ & _ & Hda).
    rewrite (bind_ok _ _ _ _ _ (get_buf_eq _ _ _ Hb)), Hda.
    destruct (brelse_spec st1 c ∅ {[n]} n i R1 HnH Hh1) as (st2 & E2 & R2 & F2 & _).
    { right. rewrite (rep_clean _ _ _ _ R n) by set_solver. unfold disk_block. by rewrite Hd1. }
    rewrite (bind_ok _ _ _ _ _ E2). exists st2. split; [done|]. split.
    + by replace ({[n]} ∖ {[n]} : gset Z) with (∅ : gset Z) in R2 by set_solver.
    + by rewrite (fr_size _ _ _ _ F2), (fr_size _ _ _ _ F1).
  - destruct (set_data_spec st1 c ∅ {[n]} n i x R1 HnH Hh1) as (st2 & E2 & R2 & Hh2 & F2 & _). rewrite (bind_ok _ _ _ _ _ E2).
    destruct (bwrite_spec st2 _ ∅ {[n]} n i R2 HnH Hh2) as (st3 & E3 & R3 & Hh3 & F3 & Hd3 & _).
    { rewrite (fr_size _ _ _ _ F2), (fr_size _ _ _ _ F1). lia. }
    rewrite (bind_ok _ _ _ _ _ E3).
    destruct (brelse_spec st3 _ _ {[n]} n i R3 HnH Hh3) as (st4 & E4 & R4 & F4 & _).
    { right. unfold disk_block. by rewrite Hd3, lookup_insert_eq. }
    rewrite (bind_ok _ _ _ _ _ E4). exists st4. split; [done|]. split.
    + replace ({[n]} ∖ {[n]} : gset Z) with (∅ : gset Z) in R4 by set_solver. by replace (∅ ∖ {[n]} : gset Z) with (∅ : gset Z) in R4 by set_solver.
    + by rewrite (fr_size _ _ _ _ F4), (fr_size _ _ _ _ F3), (fr_size _ _ _ _ F2), (fr_size _ _ _ _ F1).
Qed.

Lemma run_ops_spec os : forall st c size,
  idle st c size -> Forall (fun o => op_block o < size) os ->
  exists st', run_ops os st = Ok (fst (spec_ops c os), st') /\ idle st' (snd (spec_ops c os)) size.
Proof.
  induction os as [|o os IH]; intros st c size Hi Ho; [by exists st|]. apply Forall_cons in Ho as [Hn Ho].
  destruct (run_op_spec st c size o Hi Hn) as (st1 & E1 & Hi1). cbn [run_ops]. rewrite (bind_ok _ _ _ _ _ E1).
  destruct (IH st1 _ size Hi1 Ho) as (st2 & E2 & Hi2). rewrite (bind_ok _ _ _ _ _ E2). exists st2. unfold ret.
  destruct o as [n|n x]; cbn [spec_ops]; destruct (spec_ops _ os); done.
Qed.

(** ** Theorem *)

(** C19. The buffer cache refines the disk.  After binit on any disk image, every
    sequence of block reads and write-backs on blocks of the disk, however many
    blocks compete for the buffers, runs without a panic, gives every reader
    the last contents written to its block or those of the image, and leaves
    the same contents on the disk. *)
Theorem cache_refines_disk d size p os :
  Forall (fun o => op_block o < size) os ->
  exists st', (do! binit in run_ops os) (boot d size p) = Ok (fst (spec_ops (fun n => default zero_block (d !! n)) os), st') /\
    forall n, disk_block st' n = snd (spec_ops (fun n => default zero_block (d !! n)) os) n.
Proof.
  intros Ho. destruct (binit_spec d size p) as (st & E & R & _ & _ & Hs & _). rewrite (bind_ok _ _ _ _ _ E).
  destruct (run_ops_spec os st _ size (conj R Hs) Ho) as (st' & E' & R' & _). exists st'. split; [exact E'|].
  intros n. symmetry. apply (rep_clean _ _ _ _ R'); apply not_elem_of_empty.
Qed.

Lemma cache_refines_disk_witness :
  exists st', (do! binit in run_ops [Write 5 (replicate (Z.to_nat BSIZE) 1); Read 6; Read 5]) (boot ∅ 100 1) =
      Ok (fst (spec_ops (fun n => default zero_block ((∅ : gmap Z (list Z)) !! n)) [Write 5 (replicate (Z.to_nat BSIZE) 1); Read 6; Read 5]), st') /\
    forall n, disk_block st' n = snd (spec_ops (fun n => default zero_block ((∅ : gmap Z (list Z)) !! n)) [Write 5 (replicate (Z.to_nat BSIZE) 1); Read 6; Read 5]) n.
Proof. apply (cache_refines_disk ∅ 100 1 [Write 5 (replicate (Z.to_nat BSIZE) 1); Read 6; Read 5]). repeat constructor. Defined.
End Bio.
