(* ===== verification/Log.v ===== *)
(** * Log: the write-ahead log of xv6

    log.c over the buffer cache of Bio.v: recovery at start-up, begin_op,
    log_write and end_op around system calls, and commit.  The log header is a
    structure in the bytes of a disk block, little-endian as on the machine.
    The code runs in one process; begin_op gives back whether it would return
    or sleep. *)
From stdpp Require Import base list gmap strings.
From Stdlib Require Import ZArith Lia.
From S2P Require Import Prelude Bio.
Import Bio.

Module Log.

Definition MAXOPBLOCKS : Z := 10.
Definition LOGSIZE : Z := MAXOPBLOCKS * 3.

(** An [int] at byte [o] of a block. *)
Definition get32 (d : list Z) (o : nat) : Z :=
  i32 (d !!! o + 256 * (d !!! S o) + 65536 * (d !!! S (S o)) + 16777216 * (d !!! S (S (S o)))).
Definition put32 (d : list Z) (o : nat) (v : Z) : list Z :=
  <[o := v mod 256]> (<[S o := v / 256 mod 256]> (<[S (S o) := v / 65536 mod 256]> (<[S (S (S o)) := v / 16777216 mod 256]> d))).

(** [n] and [block[i]] of struct logheader; offsets in struct superblock. *)
Definition off_n : nat := 0.
Definition off_block (i : nat) : nat := 4 + 4 * i.
Definition off_nlog : nat := 12.
Definition off_logstart : nat := 16.
Definition sizeof_logheader : Z := 4 + 4 * LOGSIZE.

Record log := mk_log {
  start : Z;
  size : Z;
  outstanding : Z;
  committing : bool;
  ldev : Z;
  lh_n : Z;
  lh_block : list Z
}.

Record kernel := mk_kernel { bio : state; klog : log }.

Definition on_bio {A} (m : M state A) : M kernel A := zoom bio (fun b k => mk_kernel b (klog k)) m.
Definition upd_log (f : log -> log) : M kernel unit := modify (fun k => mk_kernel (bio k) (f (klog k))).

Definition set_n (n : Z) (l : log) : log := mk_log (start l) (size l) (outstanding l) (committing l) (ldev l) n (lh_block l).
Definition set_block_no (bs : list Z) (l : log) : log := mk_log (start l) (size l) (outstanding l) (committing l) (ldev l) (lh_n l) bs.
Definition set_outstanding (n : Z) (l : log) : log := mk_log (start l) (size l) n (committing l) (ldev l) (lh_n l) (lh_block l).
Definition set_committing (b : bool) (l : log) : log := mk_log (start l) (size l) (outstanding l) b (ldev l) (lh_n l) (lh_block l).

(** [log.lh.block[i]] *)
Definition get_block (i : Z) : M kernel Z :=
  let! k := get in of_option OutOfBounds (znth (lh_block (klog k)) i).
Definition put_block (i v : Z) : M kernel unit :=
  let! k := get in
  let! bs := of_option OutOfBounds (zupd (lh_block (klog k)) i v) in
  upd_log (set_block_no bs).

Definition bread_ (d n : Z) : M kernel nat := on_bio (bread (u32 d) (u32 n)).
Definition bwrite_ (i : nat) : M kernel unit := on_bio (bwrite i).
Definition brelse_ (i : nat) : M kernel unit := on_bio (brelse i).
Definition buf_data (i : nat) : M kernel (list Z) := let! b := on_bio (get_buf i) in ret (data b).
Definition buf_update (i : nat) (f : list Z -> list Z) : M kernel unit :=
  on_bio (upd_buf i (fun b => set_data (f (data b)) b)).

(** [memmove(to->data, from->data, BSIZE)] *)
Definition copy_block (to from : nat) : M kernel unit :=
  let! d := buf_data from in buf_update to (fun _ => d).

(** The loop of install_trans; [k] iterations remain. *)
Fixpoint install_from (k : nat) (tail : Z) : M kernel unit :=
  match k with
  | O => ret tt
  | S k =>
      let! s := get in
      let l := klog s in
      let! lbuf := bread_ (ldev l) (start l + tail + 1) in
      let! b := get_block tail in
      let! dbuf := bread_ (ldev l) b in
      do! copy_block dbuf lbuf in
      do! bwrite_ dbuf in
      do! brelse_ lbuf in
      do! brelse_ dbuf in
      install_from k (tail + 1)
  end.

Definition install_trans : M kernel unit :=
  let! s := get in install_from (Z.to_nat (lh_n (klog s))) 0.

Fixpoint read_blocks (k : nat) (i : Z) (d : list Z) : M kernel unit :=
  match k with
  | O => ret tt
  | S k =>
      do! put_block i (get32 d (off_block (Z.to_nat i))) in
      read_blocks k (i + 1) d
  end.

Definition read_head : M kernel unit :=
  let! s := get in
  let! buf := bread_ (ldev (klog s)) (start (klog s)) in
  let! d := buf_data buf in
  do! upd_log (set_n (get32 d off_n)) in
  do! read_blocks (Z.to_nat (get32 d off_n)) 0 d in
  brelse_ buf.

Fixpoint write_blocks (k : nat) (i : Z) (buf : nat) : M kernel unit :=
  match k with
  | O => ret tt
  | S k =>
      let! b := get_block i in
      do! buf_update buf (fun d => put32 d (off_block (Z.to_nat i)) b) in
      write_blocks k (i + 1) buf
  end.

Definition write_head : M kernel unit :=
  let! s := get in
  let! buf := bread_ (ldev (klog s)) (start (klog s)) in
  do! buf_update buf (fun d => put32 d off_n (lh_n (klog s))) in
  do! write_blocks (Z.to_nat (lh_n (klog s))) 0 buf in
  do! bwrite_ buf in
  brelse_ buf.

Definition recover_from_log : M kernel unit :=
  do! read_head in
  do! install_trans in
  do! upd_log (set_n 0) in
  write_head.

(** readsb of fs.c, for the two fields initlog uses. *)
Definition readsb (d : Z) : M kernel (Z * Z) :=
  let! bp := bread_ d 1 in
  let! b := buf_data bp in
  do! brelse_ bp in
  ret (get32 b off_logstart, get32 b off_nlog).

Definition initlog (d : Z) : M kernel unit :=
  if BSIZE <=? sizeof_logheader then fail (Panic "initlog: too big logheader") else
  let! '(logstart, nlog) := readsb d in
  do! upd_log (fun l => mk_log logstart nlog (outstanding l) (committing l) d (lh_n l) (lh_block l)) in
  recover_from_log.

(** One turn of the loop of begin_op: [true] when the call returns, [false]
    when it sleeps until the next wakeup. *)
Definition begin_op : M kernel bool :=
  let! s := get in
  let l := klog s in
  if committing l then ret false
  else if LOGSIZE <? lh_n l + (outstanding l + 1) * MAXOPBLOCKS then ret false
  else do! upd_log (set_outstanding (outstanding l + 1)) in ret true.

Fixpoint write_log_from (k : nat) (tail : Z) : M kernel unit :=
  match k with
  | O => ret tt
  | S k =>
      let! s := get in
      let l := klog s in
      let! to := bread_ (ldev l) (start l + tail + 1) in
      let! b := get_block tail in
      let! from := bread_ (ldev l) b in
      do! copy_block to from in
      do! bwrite_ to in
      do! brelse_ from in
      do! brelse_ to in
      write_log_from k (tail + 1)
  end.

Definition write_log : M kernel unit :=
  let! s := get in write_log_from (Z.to_nat (lh_n (klog s))) 0.

Definition commit : M kernel unit :=
  let! s := get in
  if 0 <? lh_n (klog s) then
    do! write_log in
    do! write_head in
    do! install_trans in
    do! upd_log (set_n 0) in
    write_head
  else ret tt.

Definition end_op : M kernel unit :=
  let! s := get in
  do! upd_log (set_outstanding (outstanding (klog s) - 1)) in
  if committing (klog s) then fail (Panic "log.committing") else
  if outstanding (klog s) - 1 =? 0 then
    do! upd_log (set_committing true) in
    do! commit in
    upd_log (set_committing false)
  else ret tt.

(** The index of block [n] among the first [k] of [bs] from index [i], or
    [i + k]. *)
Fixpoint absorb (bs : list Z) (n : Z) (k : nat) (i : nat) : nat :=
  match k with
  | O => i
  | S k => if bool_decide (bs !! i = Some n) then i else absorb bs n k (S i)
  end.

Definition log_write (i : nat) : M kernel unit :=
  let! s := get in
  let l := klog s in
  if (LOGSIZE <=? lh_n l) || (size l - 1 <=? lh_n l) then fail (Panic "too big a transaction") else
  if outstanding l <? 1 then fail (Panic "log_write outside of trans") else
  let! b := on_bio (get_buf i) in
  let j := absorb (lh_block l) (blockno b) (Z.to_nat (lh_n l)) 0 in
  do! put_block (Z.of_nat j) (blockno b) in
  do! (if Z.of_nat j =? lh_n l then upd_log (set_n (lh_n l + 1)) else ret tt) in
  on_bio (upd_buf i (fun b => set_flags (Z.lor (flags b) B_DIRTY) b)).

(** ** Integers in blocks *)

Lemma list_lookup_total_insert_if (d : list Z) i j x :
  (i < length d)%nat -> (<[i := x]> d) !!! j = if decide (i = j) then x else d !!! j.
Proof.
  intros Hi. rewrite !list_lookup_total_alt. destruct (decide (i = j)) as [->|].
  - by rewrite list_lookup_insert_eq.
  - by rewrite list_lookup_insert_ne.
Qed.

Lemma length_put32 d o v : length (put32 d o v) = length d.
Proof. unfold put32. by rewrite !length_insert. Qed.

Ltac bytes := unfold put32; rewrite !list_lookup_total_insert_if by (rewrite ?length_insert; lia);
  repeat (destruct (decide _); try lia).

Lemma get32_put32_mod d o v : (o + 4 <= length d)%nat -> get32 (put32 d o v) o = i32 (v mod 2 ^ 32).
Proof.
  intros Hl. unfold get32. bytes. f_equal. change (2 ^ 32) with (256 * (256 * (256 * 256))).
  rewrite (Z.rem_mul_r v 256), (Z.rem_mul_r (v / 256) 256), (Z.rem_mul_r (v / 256 / 256) 256) by lia.
  rewrite !Z.div_div by lia. change (256 * 256) with 65536. change (65536 * 256) with 16777216. ring.
Qed.

Lemma get32_put32 d o v :
  (o + 4 <= length d)%nat -> INT_MIN <= v <= INT_MAX -> get32 (put32 d o v) o = v.
Proof.
  intros Hl Hv. rewrite get32_put32_mod by done. unfold INT_MIN, INT_MAX, i32 in *. rewrite Zplus_mod_idemp_l. rewrite Z.mod_small; lia.
Qed.

Lemma get32_put32_other d o o' v :
  (o + 4 <= length d)%nat -> (o' + 4 <= o \/ o + 4 <= o')%nat -> get32 (put32 d o v) o' = get32 d o'.
Proof. intros Hl Ho. unfold get32. bytes. Qed.

(** ** The cache under the log *)

Definition dk (d : gmap Z (list Z)) (n : Z) : list Z := default zero_block (d !! n).

Definition apply_writes (d : gmap Z (list Z)) (ws : list (Z * list Z)) : gmap Z (list Z) :=
  foldl (fun d w => <[fst w := snd w]> d) d ws.

Section kernel.
(** The disk has [sz] blocks. *)
Context (sz : Z) (Hsz : sz <= 2 ^ 31).

(** The cache shows [c], the disk holds [d] and has received [ws]. *)
Record kok (k : kernel) (c : Z -> list Z) (D H : gset Z) (d : gmap Z (list Z)) (ws : list (Z * list Z)) (l : log) : Prop := {
  k_rep : rep (bio k) c D H;
  k_disk : memdisk (bio k) = d;
  k_writes : writes (bio k) = ws;
  k_size : disksize (bio k) = sz;
  k_log : klog k = l
}.

(** The content only matters pointwise. *)
Lemma kok_ext k c c' D H d ws l : (forall n, c' n = c n) -> kok k c D H d ws l -> kok k c' D H d ws l.
Proof.
  intros E [[R1 R2 R3 R4 R5 R6] K2 K3 K4 K5]. split; [|done..]. split; try done.
  - intros i b Hb. specialize (R4 i b Hb). unfold buf_ok in *. by rewrite E.
  - intros n HD HH. rewrite E. by apply R6.
Qed.

(** The process stays, and so do the buffers of the other held blocks. *)
Definition handles_kept (H : gset Z) (n : Z) (k k' : kernel) : Prop :=
  cur_pid (bio k') = cur_pid (bio k) /\ forall m j, m ∈ H -> m <> n -> handle (bio k) m j -> handle (bio k') m j.

Lemma wp_on_bio {A} (m : M state A) Q k b a :
  m (bio k) = Ok (a, b) -> Q a (mk_kernel b (klog k)) -> wp (on_bio m) Q k.
Proof. intros E H. unfold wp, on_bio, zoom. by rewrite E. Qed.

Lemma kok_clean k c D H d ws l n : kok k c D H d ws l -> n ∉ D -> n ∉ H -> c n = dk d n.
Proof. intros K HD HH. rewrite (rep_clean _ _ _ _ (k_rep _ _ _ _ _ _ _ K) n HD HH). unfold disk_block. by rewrite (k_disk _ _ _ _ _ _ _ K). Qed.

Lemma wp_bread k c D H d ws l n Q :
  kok k c D H d ws l -> n ∉ H -> 0 <= n < sz -> (base.size (D ∪ H ∪ {[n]}) <= Z.to_nat NBUF)%nat ->
  (forall i k', kok k' c D (H ∪ {[n]}) d ws l -> handle (bio k') n i -> handles_kept H n k k' -> Q i k') ->
  wp (bread_ 1 n) Q k.
Proof.
  intros K Hn Hr Hc HQ. unfold bread_. change (u32 1) with 1. rewrite (u32_small n) by (unfold UINT_MAX; lia).
  destruct (bread_spec (bio k) c D H n) as (i & b & E & R & Hh & F & Hd & Hw);
    [apply K|done|rewrite (k_size _ _ _ _ _ _ _ K); lia|done|].
  eapply wp_on_bio; [exact E|]. apply HQ.
  - split; simpl; [done|rewrite Hd; apply K|rewrite Hw; apply K|rewrite (fr_size _ _ _ _ F); apply K|apply K].
  - done.
  - split; [apply F|intros m j; apply F].
Qed.

Lemma wp_bwrite k c D H d ws l n i Q :
  kok k c D H d ws l -> n ∈ H -> handle (bio k) n i -> n < sz ->
  (forall k', kok k' c (D ∖ {[n]}) H (<[n := c n]> d) (ws ++ [(n, c n)]) l -> handle (bio k') n i -> handles_kept H n k k' -> Q tt k') ->
  wp (bwrite_ i) Q k.
Proof.
  intros K Hn Hh Hr HQ. unfold bwrite_.
  destruct (bwrite_spec (bio k) c D H n i) as (b & E & R & Hh' & F & Hd & Hw);
    [apply K|done|done|rewrite (k_size _ _ _ _ _ _ _ K); lia|].
  eapply wp_on_bio; [exact E|]. apply HQ.
  - split; simpl; [done|rewrite Hd; f_equal; apply K|rewrite Hw; f_equal; apply K|rewrite (fr_size _ _ _ _ F); apply K|apply K].
  - done.
  - split; [apply F|intros m j; apply F].
Qed.

Lemma wp_brelse k c D H d ws l n i Q :
  kok k c D H d ws l -> n ∈ H -> handle (bio k) n i -> (n ∈ D \/ c n = dk d n) ->
  (forall k', kok k' c D (H ∖ {[n]}) d ws l -> handles_kept H n k k' -> Q tt k') ->
  wp (brelse_ i) Q k.
Proof.
  intros K Hn Hh Hcl HQ. unfold brelse_.
  destruct (brelse_spec (bio k) c D H n i) as (b & E & R & F & Hd & Hw); [apply K|done|done| |].
  { unfold disk_block. rewrite (k_disk _ _ _ _ _ _ _ K). done. }
  eapply wp_on_bio; [exact E|]. apply HQ.
  - split; simpl; [done|rewrite Hd; apply K|rewrite Hw; apply K|rewrite (fr_size _ _ _ _ F); apply K|apply K].
  - split; [apply F|intros m j; apply F].
Qed.

Lemma wp_buf_data k c D H d ws l n i Q :
  kok k c D H d ws l -> n ∈ H -> handle (bio k) n i -> Q (c n) k -> wp (buf_data i) Q k.
Proof.
  intros K Hn Hh HQ. destruct (handle_held _ _ _ _ _ _ (k_rep _ _ _ _ _ _ _ K) Hn Hh) as (b & Hb & _ & _ & _ & _ & _ & Hda).
  unfold buf_data. rewrite wp_bind. eapply wp_on_bio; [by apply get_buf_eq|]. apply wp_ret. rewrite Hda. by destruct k.
Qed.

Lemma wp_buf_update k c D H d ws l n i f Q :
  kok k c D H d ws l -> n ∈ H -> handle (bio k) n i ->
  (forall k', kok k' (set_block c n (f (c n))) D H d ws l -> handle (bio k') n i -> handles_kept H n k k' -> Q tt k') ->
  wp (buf_update i f) Q k.
Proof.
  intros K Hn Hh HQ. destruct (handle_held _ _ _ _ _ _ (k_rep _ _ _ _ _ _ _ K) Hn Hh) as (b & Hb & _ & _ & _ & _ & _ & Hda).
  destruct (set_data_spec (bio k) c D H n i (f (c n))) as (b' & E & R & Hh' & F & Hd & Hw); [apply K|done|done|].
  unfold buf_update. eapply wp_on_bio.
  - rewrite (upd_buf_eq _ _ _ _ Hb), Hda. rewrite (upd_buf_eq _ _ _ _ Hb) in E. exact E.
  - apply HQ.
    + split; simpl; [done|rewrite Hd; apply K|rewrite Hw; apply K|rewrite (fr_size _ _ _ _ F); apply K|apply K].
    + done.
    + split; [apply F|intros m j; apply F].
Qed.

(** Copying a held block to another one, writing that and releasing both. *)
Lemma wp_copy {A} (rest : M kernel A) k c D d ws l src dst si di Q :
  kok k c D {[src; dst]} d ws l -> src <> dst -> handle (bio k) src si -> handle (bio k) dst di -> dst < sz ->
  (src ∈ D \/ c src = dk d src) ->
  (forall k', kok k' (set_block c dst (c src)) (D ∖ {[dst]}) ∅ (<[dst := c src]> d) (ws ++ [(dst, c src)]) l -> wp rest Q k') ->
  wp (do! copy_block di si in do! bwrite_ di in do! brelse_ si in do! brelse_ di in rest) Q k.
Proof.
  intros K Hne Hs Hd Hr Hcl HQ. unfold copy_block. rewrite !wp_bind.
  eapply (wp_buf_data _ _ _ _ _ _ _ src); [exact K|set_solver|exact Hs|].
  eapply (wp_buf_update _ _ _ _ _ _ _ dst); [exact K|set_solver|exact Hd|]. intros k1 K1 Hd1 Hk1.
  rewrite wp_bind. eapply (wp_bwrite _ _ _ _ _ _ _ dst); [exact K1|set_solver|done|done|]. intros k2 K2 Hd2 Hk2.
  assert (E : set_block c dst (c src) dst = c src) by (unfold set_block; by rewrite Z.eqb_refl). rewrite E in K2.
  assert (E' : set_block c dst (c src) src = c src) by (unfold set_block; by rewrite (proj2 (Z.eqb_neq _ _))).
  rewrite wp_bind. eapply (wp_brelse _ _ _ _ _ _ _ src); [exact K2|set_solver| | |].
  { apply Hk2; [set_solver|done|]. apply Hk1; [set_solver|done|done]. }
  { destruct Hcl as [Hcl|Hcl]; [left; set_solver|right]. rewrite E'. unfold dk. rewrite lookup_insert_ne by done. exact Hcl. }
  intros k3 K3 Hk3. rewrite wp_bind. eapply (wp_brelse _ _ _ _ _ _ _ dst); [exact K3|set_solver| | |].
  { apply Hk3; [set_solver|done|done]. }
  { right. rewrite E. unfold dk. by rewrite lookup_insert_eq. }
  intros k4 K4 _. apply HQ. replace ({[src; dst]} ∖ {[src]} ∖ {[dst]}) with (∅ : gset Z) in K4 by set_solver. exact K4.
Qed.

(** *** The two copying loops *)

(** The content after a list of block updates. *)
Definition csets (c : Z -> list Z) (ws : list (Z * list Z)) : Z -> list Z :=
  foldl (fun c w => set_block c (fst w) (snd w)) c ws.

(** The writes of install_trans and of write_log for the blocks [bs]. *)
Fixpoint home_writes (c : Z -> list Z) (s : Z) (bs : list Z) : list (Z * list Z) :=
  match bs with
  | [] => []
  | b :: bs => (b, c (s + 1)) :: home_writes c (s + 1) bs
  end.
Fixpoint log_writes (c : Z -> list Z) (s : Z) (bs : list Z) : list (Z * list Z) :=
  match bs with
  | [] => []
  | b :: bs => (s + 1, c b) :: log_writes c (s + 1) bs
  end.

Lemma home_writes_ext c c' bs : forall s,
  (forall x, s < x <= s + Z.of_nat (length bs) -> c' x = c x) -> home_writes c' s bs = home_writes c s bs.
Proof.
  induction bs as [|b bs IH]; intros s Hx; simpl in *; [done|]. rewrite Hx by lia. f_equal. apply IH. intros. apply Hx. lia.
Qed.

Lemma log_writes_ext c c' bs : forall s, (forall b, b ∈ bs -> c' b = c b) -> log_writes c' s bs = log_writes c s bs.
Proof.
  induction bs as [|b bs IH]; intros s Hx; simpl in *; [done|]. rewrite Hx by (apply elem_of_cons; by left).
  f_equal. apply IH. intros. apply Hx. apply elem_of_cons. by right.
Qed.

(** The log's parameters: home blocks are on the disk, outside the log. *)
Definition home (l : log) (b : Z) : Prop := 0 <= b < sz /\ ~ (start l <= b < start l + LOGSIZE).

Definition log_ok (l : log) : Prop :=
  ldev l = 1 /\ 0 <= start l /\ start l + LOGSIZE < sz /\ length (lh_block l) = Z.to_nat LOGSIZE.

Lemma wp_get_block k l pre b post Q :
  klog k = l -> lh_block l = pre ++ b :: post -> Q b k -> wp (get_block (Z.of_nat (length pre))) Q k.
Proof.
  intros Hl Hb HQ. unfold get_block. wp_pure. exists b. rewrite Hl, Hb. split; [|done].
  apply znth_Some. split; [lia|]. rewrite Nat2Z.id. by apply list_lookup_middle.
Qed.

Lemma cap_mono (D D' : gset Z) x y :
  (base.size (D ∪ {[x]} ∪ {[y]}) <= Z.to_nat NBUF)%nat -> D' ⊆ D -> (base.size (D' ∪ {[x]} ∪ {[y]}) <= Z.to_nat NBUF)%nat.
Proof. intros H Hs. assert (D' ∪ {[x]} ∪ {[y]} ⊆ D ∪ {[x]} ∪ {[y]}) as Hsub by set_solver. apply subseteq_size in Hsub. lia. Qed.

Section loops.
Context (l : log) (Hl : log_ok l).

Lemma install_spec bs : forall pre post k c D d ws,
  kok k c D ∅ d ws l -> lh_block l = pre ++ bs ++ post -> (length pre + length bs < Z.to_nat LOGSIZE)%nat -> Forall (home l) bs ->
  (forall x, x ∈ D -> home l x) ->
  (forall x b, b ∈ bs -> (base.size (D ∪ {[x]} ∪ {[b]}) <= Z.to_nat NBUF)%nat) ->
  wp (install_from (length bs) (Z.of_nat (length pre)))
    (fun _ k' => exists W, W = home_writes c (start l + Z.of_nat (length pre)) bs /\
       kok k' (csets c W) (D ∖ list_to_set bs) ∅ (apply_writes d W) (ws ++ W) l) k.
Proof.
  induction bs as [|b bs IH]; intros pre post k c D d ws K Hb Hplen Hbs HD Hcap.
  - apply wp_ret. exists []. split; [done|]. rewrite app_nil_r. simpl. by rewrite difference_empty_L.
  - apply Forall_cons in Hbs as [[Hbr Hbo] Hbs]. destruct Hl as (Hdev & Hs0 & Hs1 & Hlen).
    assert (HL : LOGSIZE = 30) by done. simpl in Hplen.
    cbn [length install_from]. wp_pure. cbv zeta. rewrite (k_log _ _ _ _ _ _ _ K), Hdev.
    set (x := start l + Z.of_nat (length pre) + 1).
    assert (HxD : x ∉ D) by (intros Hx; apply HD in Hx as [_ Hx]; unfold x in *; lia).
    assert (Hxb : x <> b) by (unfold x; lia).
    eapply (wp_bread _ _ _ _ _ _ _ x); [exact K|set_solver|unfold x; lia| |].
    { specialize (Hcap x b ltac:(apply elem_of_cons; by left)).
      assert (D ∪ ∅ ∪ {[x]} ⊆ D ∪ {[x]} ∪ {[b]}) as Hsub by set_solver. apply subseteq_size in Hsub. lia. }
    intros i1 k1 K1 Hh1 _. rewrite wp_bind. eapply wp_get_block; [apply K1|exact Hb|].
    rewrite wp_bind. eapply (wp_bread _ _ _ _ _ _ _ b); [exact K1|set_solver|lia| |].
    { specialize (Hcap x b ltac:(apply elem_of_cons; by left)).
      replace (D ∪ (∅ ∪ {[x]}) ∪ {[b]}) with (D ∪ {[x]} ∪ {[b]}) by set_solver. done. }
    intros i2 k2 K2 Hh2 Hk2. replace (∅ ∪ {[x]} ∪ {[b]}) with ({[x; b]} : gset Z) in K2 by set_solver.
    assert (Hclean : c x = dk d x) by (eapply kok_clean; [exact K|done|set_solver]).
    eapply (wp_copy _ k2 c D d ws l x b i1 i2);
      [exact K2|done|apply Hk2; [set_solver|done|done]|exact Hh2|lia|by right|].
    intros k3 K3. replace (Z.of_nat (length pre) + 1) with (Z.of_nat (length (pre ++ [b]))) by (rewrite length_app; simpl; lia).
    eapply wp_mono; [apply (IH (pre ++ [b]) post k3 _ _ _ _ K3)|].
    + rewrite Hb, <- app_assoc. done.
    + rewrite length_app. simpl. lia.
    + done.
    + intros y Hy. apply HD. set_solver.
    + intros y b' Hb'. eapply cap_mono; [apply Hcap; apply elem_of_cons; by right|set_solver].
    + intros _ k' (W & HW & K'). exists ((b, c x) :: W). split.
      * cbn [home_writes]. fold x. f_equal. rewrite HW. replace (start l + Z.of_nat (length (pre ++ [b]))) with x by (unfold x; rewrite length_app; simpl; lia).
        apply home_writes_ext. intros y Hy. unfold set_block. rewrite (proj2 (Z.eqb_neq _ _)); [done|]. unfold x in Hy. lia.
      * replace (D ∖ list_to_set (b :: bs)) with (D ∖ {[b]} ∖ list_to_set bs) by set_solver.
        rewrite <- app_assoc in K'. exact K'.
Qed.

Lemma write_log_spec bs : forall pre post k c D d ws,
  kok k c D ∅ d ws l -> lh_block l = pre ++ bs ++ post -> (length pre + length bs < Z.to_nat LOGSIZE)%nat -> Forall (home l) bs ->
  (forall x, x ∈ D -> home l x) ->
  (forall x b, b ∈ bs -> (base.size (D ∪ {[x]} ∪ {[b]}) <= Z.to_nat NBUF)%nat) ->
  wp (write_log_from (length bs) (Z.of_nat (length pre)))
    (fun _ k' => exists W, W = log_writes c (start l + Z.of_nat (length pre)) bs /\
       kok k' (csets c W) D ∅ (apply_writes d W) (ws ++ W) l) k.
Proof.
  induction bs as [|b bs IH]; intros pre post k c D d ws K Hb Hplen Hbs HD Hcap.
  - apply wp_ret. exists []. split; [done|]. rewrite app_nil_r. done.
  - pose proof Hbs as Hall. apply Forall_cons in Hbs as [[Hbr Hbo] Hbs]. destruct Hl as (Hdev & Hs0 & Hs1 & Hlen).
    assert (HL : LOGSIZE = 30) by done. simpl in Hplen.
    cbn [length write_log_from]. wp_pure. cbv zeta. rewrite (k_log _ _ _ _ _ _ _ K), Hdev.
    set (x := start l + Z.of_nat (length pre) + 1).
    assert (HxD : x ∉ D) by (intros Hx; apply HD in Hx as [_ Hx]; unfold x in *; lia).
    assert (Hxb : b <> x) by (unfold x; lia).
    eapply (wp_bread _ _ _ _ _ _ _ x); [exact K|set_solver|unfold x; lia| |].
    { specialize (Hcap x b ltac:(apply elem_of_cons; by left)).
      assert (D ∪ ∅ ∪ {[x]} ⊆ D ∪ {[x]} ∪ {[b]}) as Hsub by set_solver. apply subseteq_size in Hsub. lia. }
    intros i1 k1 K1 Hh1 _. rewrite wp_bind. eapply wp_get_block; [apply K1|exact Hb|].
    rewrite wp_bind. eapply (wp_bread _ _ _ _ _ _ _ b); [exact K1|set_solver|lia| |].
    { specialize (Hcap x b ltac:(apply elem_of_cons; by left)).
      replace (D ∪ (∅ ∪ {[x]}) ∪ {[b]}) with (D ∪ {[x]} ∪ {[b]}) by set_solver. done. }
    intros i2 k2 K2 Hh2 Hk2. replace (∅ ∪ {[x]} ∪ {[b]}) with ({[b; x]} : gset Z) in K2 by set_solver.
    assert (Hclean : b ∈ D \/ c b = dk d b).
    { destruct (decide (b ∈ D)); [by left|right]. eapply kok_clean; [exact K|done|set_solver]. }
    eapply (wp_copy _ k2 c D d ws l b x i2 i1);
      [exact K2|done|exact Hh2|apply Hk2; [set_solver|done|done]|unfold x; lia|done|].
    intros k3 K3. replace (D ∖ {[x]}) with D in K3 by set_solver.
    replace (Z.of_nat (length pre) + 1) with (Z.of_nat (length (pre ++ [b]))) by (rewrite length_app; simpl; lia).
    eapply wp_mono; [apply (IH (pre ++ [b]) post k3 _ _ _ _ K3)|].
    + rewrite Hb, <- app_assoc. done.
    + rewrite length_app. simpl. lia.
    + done.
    + done.
    + intros y b' Hb'. apply Hcap. apply elem_of_cons. by right.
    + intros _ k' (W & HW & K'). exists ((x, c b) :: W). split.
      * cbn [log_writes]. fold x. f_equal. rewrite HW. replace (start l + Z.of_nat (length (pre ++ [b]))) with x by (unfold x; rewrite length_app; simpl; lia).
        apply log_writes_ext. intros y Hy. unfold set_block. rewrite (proj2 (Z.eqb_neq _ _)); [done|].
        rewrite Forall_forall in Hbs. apply Hbs in Hy as [_ Hy]. unfold x. lia.
      * rewrite <- app_assoc in K'. exact K'.
Qed.

(** *** The header *)

(** The header block with the first [length bs] block numbers from index [i]
    written to it. *)
Fixpoint put_blocks (d : list Z) (i : nat) (bs : list Z) : list Z :=
  match bs with
  | [] => d
  | b :: bs => put_blocks (put32 d (off_block i) b) (S i) bs
  end.

Definition header (d : list Z) (bs : list Z) : list Z :=
  put_blocks (put32 d off_n (Z.of_nat (length bs))) 0 bs.

Lemma log_write_blocks_spec bs : forall pre post k c D H d ws s i,
  kok k c D H d ws l -> lh_block l = pre ++ bs ++ post -> s ∈ H -> handle (bio k) s i ->
  wp (write_blocks (length bs) (Z.of_nat (length pre)) i)
    (fun _ k' => kok k' (set_block c s (put_blocks (c s) (length pre) bs)) D H d ws l /\ handle (bio k') s i /\ handles_kept H s k k') k.
Proof.
  induction bs as [|b bs IH]; intros pre post k c D H d ws s i K Hb Hs Hh.
  - apply wp_ret. split; [|split; [done|by split]]. eapply kok_ext; [|exact K]. intros n. unfold set_block. simpl.
    destruct (Z.eqb_spec n s) as [->|]; done.
  - cbn [length write_blocks]. rewrite wp_bind. eapply wp_get_block; [apply K|exact Hb|].
    rewrite wp_bind, Nat2Z.id. eapply (wp_buf_update _ _ _ _ _ _ _ s); [exact K|done|done|]. intros k1 K1 Hh1 Hk1.
    replace (Z.of_nat (length pre) + 1) with (Z.of_nat (length (pre ++ [b]))) by (rewrite length_app; simpl; lia).
    eapply wp_mono; [apply (IH (pre ++ [b]) post k1 _ _ _ _ _ s i K1); [rewrite Hb, <- app_assoc; done|done|done]|].
    intros _ k' (K' & Hh' & Hk'). split; [|split; [done|]].
    + eapply kok_ext; [|exact K']. intros n. unfold set_block. cbn [put_blocks]. rewrite length_app, Z.eqb_refl.
      replace (length pre + length [b])%nat with (S (length pre)) by (simpl; lia).
      destruct (Z.eqb_spec n s) as [->|]; done.
    + destruct Hk1 as [P1 Hk1], Hk' as [P2 Hk']. split; [congruence|]. intros m j Hm Hn Hj. by apply Hk', Hk1.
Qed.

Lemma write_head_spec k c D d ws bs post :
  kok k c D ∅ d ws l -> lh_block l = bs ++ post -> lh_n l = Z.of_nat (length bs) ->
  (forall x, x ∈ D -> home l x) -> (base.size D < Z.to_nat NBUF)%nat ->
  wp write_head
    (fun _ k' => kok k' (set_block c (start l) (header (c (start l)) bs)) D ∅
       (<[start l := header (c (start l)) bs]> d) (ws ++ [(start l, header (c (start l)) bs)]) l) k.
Proof.
  intros K Hb Hn HD Hcap. destruct Hl as (Hdev & Hs0 & Hs1 & Hlen). set (s := start l).
  assert (HL : LOGSIZE = 30) by done.
  assert (HsD : s ∉ D) by (intros Hx; apply HD in Hx as [_ Hx]; unfold s in *; lia).
  unfold write_head. wp_pure. rewrite (k_log _ _ _ _ _ _ _ K), Hdev. fold s.
  eapply (wp_bread _ _ _ _ _ _ _ s); [exact K|set_solver|unfold s; lia| |].
  { replace (D ∪ ∅ ∪ {[s]}) with (D ∪ {[s]}) by set_solver. rewrite size_union, size_singleton by set_solver. lia. }
  intros i k1 K1 Hh1 _. rewrite wp_bind, Hn, Nat2Z.id. replace (∅ ∪ {[s]}) with ({[s]} : gset Z) in K1 by set_solver.
  eapply (wp_buf_update _ _ _ _ _ _ _ s); [exact K1|set_solver|done|]. intros k2 K2 Hh2 _.
  rewrite wp_bind. eapply wp_mono; [eapply (log_write_blocks_spec bs [] post k2 _ _ _ _ _ s i K2 Hb); [set_solver|done]|].
  intros _ k3 (K3 & Hh3 & _). rewrite wp_bind.
  assert (K3' : kok k3 (set_block c s (header (c s) bs)) D {[s]} d ws l).
  { eapply kok_ext; [|exact K3]. intros n. unfold set_block, header. rewrite Z.eqb_refl. destruct (Z.eqb_spec n s); done. }
  assert (E : set_block c s (header (c s) bs) s = header (c s) bs) by (unfold set_block; by rewrite Z.eqb_refl).
  eapply (wp_bwrite _ _ _ _ _ _ _ s); [exact K3'|set_solver|done|unfold s; lia|]. intros k4 K4 Hh4 _. rewrite E in K4.
  eapply (wp_brelse _ _ _ _ _ _ _ s); [exact K4|set_solver|done| |].
  { right. rewrite E. unfold dk. by rewrite lookup_insert_eq. }
  intros k5 K5 _. replace (D ∖ {[s]}) with D in K5 by set_solver. replace ({[s]} ∖ {[s]}) with (∅ : gset Z) in K5 by set_solver.
  exact K5.
Qed.
End loops.

(** *** Commit *)

(** Installing the blocks [bs] with the contents [c]. *)
Definition installs (c : Z -> list Z) (bs : list Z) : list (Z * list Z) := map (fun b => (b, c b)) bs.

Lemma csets_app c ws ws' n : csets c (ws ++ ws') n = csets (csets c ws) ws' n.
Proof. unfold csets. by rewrite foldl_app. Qed.

Lemma csets_log c bs : forall s c0 n,
  csets c0 (log_writes c s bs) n =
  if bool_decide (s < n <= s + Z.of_nat (length bs)) then c (bs !!! Z.to_nat (n - s - 1)) else c0 n.
Proof.
  induction bs as [|b bs IH]; intros s c0 n; cbn [log_writes length].
  - rewrite bool_decide_eq_false_2 by (simpl; lia). done.
  - change (csets c0 ((s + 1, c b) :: log_writes c (s + 1) bs)) with (csets (set_block c0 (s + 1) (c b)) (log_writes c (s + 1) bs)).
    rewrite IH. unfold set_block. destruct (Z.eqb_spec n (s + 1)) as [->|Hn].
    + rewrite bool_decide_eq_false_2, bool_decide_eq_true_2 by lia. replace (s + 1 - s - 1) with 0 by lia. done.
    + destruct (decide (s < n <= s + Z.of_nat (S (length bs)))) as [Hr|Hr].
      * rewrite !bool_decide_eq_true_2 by lia. replace (Z.to_nat (n - s - 1)) with (S (Z.to_nat (n - (s + 1) - 1))) by lia. done.
      * rewrite !bool_decide_eq_false_2 by lia. done.
Qed.

Lemma home_writes_installs c c' bs : forall s,
  (forall j b, bs !! j = Some b -> c' (s + 1 + Z.of_nat j) = c b) -> home_writes c' s bs = installs c bs.
Proof.
  induction bs as [|b bs IH]; intros s Hc; [done|]. cbn [home_writes installs map]. f_equal.
  - f_equal. rewrite <- (Hc 0%nat b) by done. f_equal. lia.
  - apply IH. intros j x Hj. rewrite <- (Hc (S j) x) by done. f_equal. lia.
Qed.

(** The writes of commit, in order. *)
Definition commit_writes (c : Z -> list Z) (s : Z) (bs : list Z) : list (Z * list Z) :=
  log_writes c s bs ++ [(s, header (c s) bs)] ++ installs c bs ++ [(s, header (header (c s) bs) [])].

Lemma csets_other c ws n : n ∉ map fst ws -> csets c ws n = c n.
Proof.
  revert c. induction ws as [|[m x] ws IH]; intros c Hn; [done|]. simpl in Hn.
  apply not_elem_of_cons in Hn as [Hm Hn]. change (csets c ((m, x) :: ws)) with (csets (set_block c m x) ws). rewrite IH by done.
  unfold set_block. by rewrite (proj2 (Z.eqb_neq _ _)).
Qed.

Lemma apply_writes_app d ws ws' : apply_writes d (ws ++ ws') = apply_writes (apply_writes d ws) ws'.
Proof. unfold apply_writes. by rewrite foldl_app. Qed.

Lemma installs_fst c bs : map fst (installs c bs) = bs.
Proof. unfold installs. rewrite map_map. simpl. apply map_id. Qed.

Lemma commit_spec k c d ws l bs post :
  kok k c (list_to_set bs) ∅ d ws l -> log_ok l -> lh_block l = bs ++ post -> lh_n l = Z.of_nat (length bs) ->
  Forall (home l) bs -> NoDup bs -> (0 < length bs < Z.to_nat LOGSIZE)%nat ->
  wp commit
    (fun _ k' => exists c', kok k' c' ∅ ∅ (apply_writes d (commit_writes c (start l) bs))
       (ws ++ commit_writes c (start l) bs) (set_n 0 l)) k.
Proof.
  intros K Hl Hb Hn Hbs Hnd Hlen. set (s := start l). set (D := list_to_set bs : gset Z) in *.
  assert (HL : LOGSIZE = 30) by done. assert (HN : NBUF = 30) by done.
  assert (HsizeD : base.size D = length bs) by (by apply size_list_to_set).
  assert (HD : forall x, x ∈ D -> home l x).
  { intros x Hx. apply elem_of_list_to_set in Hx. rewrite Forall_forall in Hbs. by apply Hbs. }
  assert (Hcap : forall x b, b ∈ bs -> (base.size (D ∪ {[x]} ∪ {[b]}) <= Z.to_nat NBUF)%nat).
  { intros x b Hx. replace (D ∪ {[x]} ∪ {[b]}) with (D ∪ {[x]}) by (unfold D; set_solver).
    pose proof (size_union_alt D {[x]}) as E. assert (base.size ({[x]} ∖ D) <= base.size ({[x]} : gset Z))%nat as E' by (apply subseteq_size; set_solver).
    rewrite size_singleton in E'. lia. }
  assert (Hnofirst : forall b, b ∈ bs -> b <> s /\ ~ (s < b <= s + Z.of_nat (length bs))).
  { intros b Hx. rewrite Forall_forall in Hbs. apply Hbs in Hx as [_ Hx]. fold s in Hx. lia. }
  unfold commit. wp_pure. rewrite (k_log _ _ _ _ _ _ _ K), Hn. rewrite (proj2 (Z.ltb_lt _ _)) by lia.
  rewrite wp_bind. unfold write_log at 1. rewrite wp_bind, wp_get, (k_log _ _ _ _ _ _ _ K), Hn, Nat2Z.id.
  eapply wp_mono; [apply (write_log_spec l Hl bs [] post k c D d ws K Hb ltac:(simpl; lia) Hbs HD Hcap)|].
  intros _ k1 (W1 & HW1 & K1). simpl in HW1. rewrite Z.add_0_r in HW1. fold s in HW1.
  assert (Hc1s : csets c W1 s = c s) by (rewrite HW1, csets_log, bool_decide_eq_false_2 by lia; done).
  rewrite wp_bind. eapply wp_mono; [apply (write_head_spec l Hl k1 _ D _ _ bs post K1 Hb Hn HD); lia|].
  fold s. rewrite Hc1s. intros _ k2 K2. set (H1 := header (c s) bs) in *.
  rewrite wp_bind. unfold install_trans at 1. rewrite wp_bind, wp_get, (k_log _ _ _ _ _ _ _ K2), Hn, Nat2Z.id.
  eapply wp_mono; [apply (install_spec l Hl bs [] post k2 _ D _ _ K2 Hb ltac:(simpl; lia) Hbs HD Hcap)|].
  intros _ k3 (W3 & HW3 & K3). simpl in HW3. rewrite Z.add_0_r in HW3. fold s in HW3.
  rewrite (home_writes_installs c) in HW3.
  2: { intros j b Hj. unfold set_block. rewrite (proj2 (Z.eqb_neq _ _)) by lia. rewrite HW1, csets_log.
       pose proof (lookup_lt_Some _ _ _ Hj). rewrite bool_decide_eq_true_2 by lia.
       replace (Z.to_nat (s + 1 + Z.of_nat j - s - 1)) with j by lia. f_equal. by apply list_lookup_total_correct. }
  rewrite wp_bind. unfold upd_log. rewrite wp_modify.
  assert (K4 : kok (mk_kernel (bio k3) (set_n 0 (klog k3))) (csets (set_block (csets c W1) s H1) W3) ∅ ∅
     (apply_writes (<[s := H1]> (apply_writes d W1)) W3) (((ws ++ W1) ++ [(s, H1)]) ++ W3) (set_n 0 l)).
  { destruct K3 as [R3 ? ? ? ?]. split; simpl; try done; [|congruence].
    by replace (D ∖ list_to_set bs) with (∅ : gset Z) in R3 by set_solver. }
  assert (Hl' : log_ok (set_n 0 l)) by exact Hl.
  eapply wp_mono; [apply (write_head_spec (set_n 0 l) Hl' _ _ ∅ _ _ [] (lh_block l) K4); [done|done|set_solver|rewrite size_empty; lia]|].
  simpl. fold s. intros _ k5 K5. eexists.
  assert (E3 : csets (set_block (csets c W1) s H1) W3 s = H1).
  { rewrite HW3, csets_other; [unfold set_block; by rewrite Z.eqb_refl|]. rewrite installs_fst. intros Hin. apply Hnofirst in Hin as [Hin _]. by apply Hin. }
  rewrite E3 in K5. unfold commit_writes. fold H1. rewrite <- HW1, <- HW3.
  rewrite !apply_writes_app. rewrite <- !app_assoc in K5. exact K5.
Qed.

(** *** Recovery *)

(** The header block [h] lists the blocks [bs]. *)
Definition lists (h : list Z) (bs : list Z) : Prop :=
  get32 h off_n = Z.of_nat (length bs) /\ forall j b, bs !! j = Some b -> get32 h (off_block j) = b.

Lemma log_read_blocks_spec h bs : forall pre old k,
  lh_block (klog k) = pre ++ old -> (length bs <= length old)%nat ->
  (forall j b, bs !! j = Some b -> get32 h (off_block (length pre + j)) = b) ->
  read_blocks (length bs) (Z.of_nat (length pre)) h k =
  Ok (tt, mk_kernel (bio k) (set_block_no (pre ++ bs ++ drop (length bs) old) (klog k))).
Proof.
  induction bs as [|b bs IH]; intros pre old k Hk Hlen Hh; cbn [length read_blocks].
  - simpl. rewrite drop_0, <- Hk. by destruct k as [? []].
  - destruct old as [|o old]; simpl in Hlen; [lia|].
    assert (E : get32 h (off_block (Z.to_nat (Z.of_nat (length pre)))) = b).
    { rewrite Nat2Z.id. specialize (Hh 0%nat b eq_refl). by rewrite Nat.add_0_r in Hh. }
    rewrite E. unfold put_block. rewrite bind_assoc. unfold bind at 1, get. rewrite Hk.
    rewrite zupd_in by (rewrite length_app; simpl; lia). rewrite Nat2Z.id.
    replace (<[length pre := b]> (pre ++ o :: old)) with ((pre ++ [b]) ++ old).
    2: { rewrite insert_app_r_alt by lia. rewrite Nat.sub_diag. by rewrite <- app_assoc. }
    unfold of_option, ret, bind, upd_log, modify. 
    replace (Z.of_nat (length pre) + 1) with (Z.of_nat (length (pre ++ [b]))) by (rewrite length_app; simpl; lia).
    rewrite (IH (pre ++ [b]) old); [|done|lia|].
    + simpl. by rewrite <- app_assoc.
    + intros j x Hj. rewrite length_app. simpl. replace (length pre + 1 + j)%nat with (length pre + S j)%nat by lia. by apply Hh.
Qed.

(** The log record after the header has been read. *)
Definition with_head (bs : list Z) (l : log) : log :=
  set_block_no (bs ++ drop (length bs) (lh_block l)) (set_n (Z.of_nat (length bs)) l).

Lemma read_head_spec k c d ws l bs :
  kok k c ∅ ∅ d ws l -> log_ok l -> lists (dk d (start l)) bs -> (length bs <= Z.to_nat LOGSIZE)%nat ->
  wp read_head (fun _ k' => kok k' c ∅ ∅ d ws (with_head bs l)) k.
Proof.
  intros K Hl [Hn Hj] Hlen. pose proof Hl as (Hdev & Hs0 & Hs1 & Hll). set (s := start l) in *.
  assert (HL : LOGSIZE = 30) by done.
  assert (Hcs : c s = dk d s) by (eapply kok_clean; [exact K|set_solver..]).
  unfold read_head. wp_pure. rewrite (k_log _ _ _ _ _ _ _ K), Hdev. fold s.
  eapply (wp_bread _ _ _ _ _ _ _ s); [exact K|set_solver|lia| |].
  { replace (∅ ∪ ∅ ∪ {[s]}) with ({[s]} : gset Z) by set_solver. rewrite size_singleton. unfold NBUF. lia. }
  intros i k1 K1 Hh1 _. replace (∅ ∪ {[s]}) with ({[s]} : gset Z) in K1 by set_solver.
  rewrite wp_bind. eapply (wp_buf_data _ _ _ _ _ _ _ s); [exact K1|set_solver|done|]. rewrite Hcs, Hn, Nat2Z.id.
  unfold upd_log. rewrite wp_bind, wp_modify, wp_bind.
  eapply wp_eq.
  { apply (log_read_blocks_spec (dk d s) bs [] (lh_block l)); [simpl; by rewrite (k_log _ _ _ _ _ _ _ K1)|lia|done]. }
  eapply (wp_brelse _ c ∅ {[s]} d ws (with_head bs l) s); [|set_solver|exact Hh1|right; exact Hcs|].
  - destruct K1 as [R1 ? ? ? Hk]. split; simpl; try done. unfold with_head. by rewrite Hk.
  - intros k2 K2 _. by replace ({[s]} ∖ {[s]}) with (∅ : gset Z) in K2 by set_solver.
Qed.

Lemma home_writes_fst c bs : forall s, map fst (home_writes c s bs) = bs.
Proof. induction bs as [|b bs IH]; intros s; simpl; [done|]. by rewrite IH. Qed.

(** The writes of recovery from a disk whose header lists [bs]. *)
Definition recovery_writes (d : gmap Z (list Z)) (s : Z) (bs : list Z) : list (Z * list Z) :=
  home_writes (dk d) s bs ++ [(s, header (dk d s) [])].

Lemma recover_spec k c d ws l bs :
  kok k c ∅ ∅ d ws l -> log_ok l -> lists (dk d (start l)) bs -> (length bs < Z.to_nat LOGSIZE)%nat -> Forall (home l) bs ->
  wp recover_from_log
    (fun _ k' => exists c', kok k' c' ∅ ∅ (apply_writes d (recovery_writes d (start l) bs))
       (ws ++ recovery_writes d (start l) bs) (set_n 0 (with_head bs l))) k.
Proof.
  intros K Hl Hlist Hlen Hbs. set (s := start l). set (l1 := with_head bs l).
  assert (Hc : forall n, c n = dk d n) by (intros n; eapply kok_clean; [exact K|set_solver..]).
  assert (Hl1 : log_ok l1).
  { destruct Hl as (? & ? & ? & Hll). split; [done|]. split; [done|]. split; [done|]. unfold l1. simpl.
    rewrite length_app, length_drop, Hll. lia. }
  unfold recover_from_log. rewrite wp_bind. eapply wp_mono; [apply (read_head_spec k c d ws l bs); [done|done|done|lia]|].
  intros [] k1 K1. cbv beta in K1. rewrite wp_bind. unfold install_trans. rewrite wp_bind, wp_get, (k_log _ _ _ _ _ _ _ K1).
  unfold with_head at 1. simpl lh_n. rewrite Nat2Z.id.
  eapply wp_mono; [apply (install_spec l1 Hl1 bs [] (drop (length bs) (lh_block l)) k1 c ∅ d ws K1 eq_refl ltac:(simpl; lia) Hbs); [set_solver|]|].
  { intros x b _. etrans; [apply (subseteq_size _ ({[x; b]} : gset Z)); set_solver|].
    rewrite size_union_alt, size_singleton. assert (base.size ({[b]} ∖ {[x]} : gset Z) <= base.size ({[b]} : gset Z))%nat as E by (apply subseteq_size; set_solver).
    rewrite size_singleton in E. unfold NBUF. lia. }
  intros _ k2 (W & HW & K2). simpl in HW. rewrite Z.add_0_r in HW. fold s in HW.
  rewrite (home_writes_ext (dk d) c) in HW by (intros; apply Hc).
  rewrite wp_bind. unfold upd_log. rewrite wp_modify.
  assert (K3 : kok (mk_kernel (bio k2) (set_n 0 (klog k2))) (csets c W) ∅ ∅ (apply_writes d W) (ws ++ W) (set_n 0 l1)).
  { destruct K2 as [R2 ? ? ? Hk]. split; simpl; try done; [|by rewrite Hk].
    by replace (∅ ∖ list_to_set bs) with (∅ : gset Z) in R2 by set_solver. }
  assert (Hs : csets c W s = dk d s).
  { rewrite csets_other; [apply Hc|]. rewrite HW, home_writes_fst. intros Hin'.
    rewrite Forall_forall in Hbs. apply Hbs in Hin' as [_ Hin']. fold s in Hin'. unfold LOGSIZE, MAXOPBLOCKS in *. lia. }
  eapply wp_mono; [apply (write_head_spec (set_n 0 l1) Hl1 _ _ ∅ _ _ [] (lh_block l1) K3); [done|done|set_solver|rewrite size_empty; unfold NBUF; lia]|].
  simpl. fold s. rewrite Hs. intros _ k4 K4. eexists. unfold recovery_writes. rewrite <- HW, apply_writes_app, app_assoc. exact K4.
Qed.

(** *** Start-up *)

Definition boot_log : log := mk_log 0 0 0 false 0 0 (replicate (Z.to_nat LOGSIZE) 0).

(** The file system part of start-up on a disk image: an empty cache, then the
    log's recovery. *)
Definition recover (p : Z) (d : gmap Z (list Z)) : res (unit * kernel) :=
  (do! on_bio binit in initlog 1) (mk_kernel (boot d sz p) boot_log).

Lemma recover_run p d s bs :
  get32 (dk d 1) off_logstart = s -> 1 < s -> s + LOGSIZE < sz ->
  lists (dk d s) bs -> (length bs < Z.to_nat LOGSIZE)%nat ->
  Forall (fun b => 0 <= b < sz /\ ~ (s <= b < s + LOGSIZE)) bs ->
  exists k, recover p d = Ok (tt, k) /\ memdisk (bio k) = apply_writes d (recovery_writes d s bs) /\
    writes (bio k) = recovery_writes d s bs.
Proof.
  intros Hsb Hs1 Hs2 Hlist Hlen Hbs. assert (HL : LOGSIZE = 30) by done.
  enough (W : wp (do! on_bio binit in initlog 1)
    (fun _ k => memdisk (bio k) = apply_writes d (recovery_writes d s bs) /\ writes (bio k) = recovery_writes d s bs)
    (mk_kernel (boot d sz p) boot_log)).
  { destruct (proj1 (wp_run _ _ _) W) as (u & k & E & H). destruct u. exists k. split; [exact E|exact H]. }
  rewrite wp_bind. destruct (binit_spec d sz p) as (st & E & R & Hd & Hw & Hz & _). eapply wp_on_bio; [exact E|].
  assert (K : kok (mk_kernel st boot_log) (dk d) ∅ ∅ d [] boot_log) by (split; [exact R|exact Hd|exact Hw|exact Hz|reflexivity]).
  clear R Hd Hw Hz E.
  unfold initlog. cbn [BSIZE]. rewrite (proj2 (Z.leb_gt _ _)) by (unfold sizeof_logheader, BSIZE; lia).
  rewrite wp_bind. unfold readsb. rewrite wp_bind.
  eapply (wp_bread _ _ _ _ _ _ _ 1); [exact K|apply not_elem_of_empty|lia| |].
  { replace (∅ ∪ ∅ ∪ {[1]}) with ({[1]} : gset Z) by set_solver. rewrite size_singleton. unfold NBUF. lia. }
  intros i k1 K1 Hh1 _. replace (∅ ∪ {[1]}) with ({[1]} : gset Z) in K1 by set_solver.
  rewrite wp_bind. eapply (wp_buf_data _ _ _ _ _ _ _ 1); [exact K1|set_solver|done|].
  rewrite wp_bind. eapply (wp_brelse _ _ _ _ _ _ _ 1); [exact K1|set_solver|done|by right|].
  intros k2 K2 _. replace ({[1]} ∖ {[1]}) with (∅ : gset Z) in K2 by set_solver. apply wp_ret. rewrite Hsb.
  rewrite wp_bind. unfold upd_log. rewrite wp_modify.
  set (l := mk_log s (get32 (dk d 1) off_nlog) 0 false 1 0 (replicate (Z.to_nat LOGSIZE) 0)).
  assert (K3 : kok (mk_kernel (bio k2) l) (dk d) ∅ ∅ d [] l) by (destruct K2; by split).
  rewrite (k_log _ _ _ _ _ _ _ K2). simpl.
  eapply wp_mono; [apply (recover_spec _ (dk d) d [] l bs K3); [|done|done|done]|].
  - split; [done|]. split; [simpl; lia|]. split; [done|]. apply length_replicate.
  - intros [] k3 (c' & K4). split; apply K4.
Qed.
End kernel.

(** ** Headers *)

Lemma length_put_blocks bs : forall h i, length (put_blocks h i bs) = length h.
Proof. induction bs as [|b bs IH]; intros h i; simpl; [done|]. by rewrite IH, length_put32. Qed.

Lemma length_header h bs : length (header h bs) = length h.
Proof. unfold header. by rewrite length_put_blocks, length_put32. Qed.

Lemma put_blocks_below bs : forall h i o,
  (off_block (i + length bs) <= length h)%nat -> (o + 4 <= off_block i)%nat -> get32 (put_blocks h i bs) o = get32 h o.
Proof.
  induction bs as [|b bs IH]; intros h i o Hl Ho; cbn [put_blocks length] in *; [done|]. unfold off_block in *.
  rewrite IH by (rewrite ?length_put32; unfold off_block; lia).
  apply get32_put32_other; unfold off_block; lia.
Qed.

Lemma put_blocks_lookup bs : forall h i j b,
  (off_block (i + length bs) <= length h)%nat -> Forall (fun b => INT_MIN <= b <= INT_MAX) bs ->
  bs !! j = Some b -> get32 (put_blocks h i bs) (off_block (i + j)) = b.
Proof.
  induction bs as [|a bs IH]; intros h i j b Hl Hb Hj; [done|]. apply Forall_cons in Hb as [Ha Hb].
  cbn [put_blocks length] in *. destruct j as [|j].
  - injection Hj as ->. rewrite Nat.add_0_r. rewrite put_blocks_below by (rewrite ?length_put32; unfold off_block in *; lia).
    apply get32_put32; [unfold off_block in *; lia|done].
  - replace (i + S j)%nat with (S i + j)%nat by lia. apply IH; [rewrite length_put32; unfold off_block in *; lia|done|done].
Qed.

Lemma header_lists h bs :
  length h = Z.to_nat BSIZE -> (length bs <= Z.to_nat LOGSIZE)%nat -> Forall (fun b => INT_MIN <= b <= INT_MAX) bs ->
  lists (header h bs) bs.
Proof.
  intros Hh Hl Hb. unfold BSIZE, LOGSIZE, MAXOPBLOCKS in *. unfold lists, header. split.
  - rewrite put_blocks_below by (rewrite ?length_put32; unfold off_block, off_n; lia).
    apply get32_put32; unfold off_n, INT_MIN, INT_MAX; lia.
  - intros j b Hj. apply (put_blocks_lookup bs _ 0 j b); [|done|done]. rewrite length_put32. unfold off_block. lia.
Qed.

(** ** Crashes *)

Lemma dk_apply ws : forall d n, dk (apply_writes d ws) n = csets (dk d) ws n.
Proof.
  induction ws as [|[m x] ws IH]; intros d n; [done|].
  change (apply_writes d ((m, x) :: ws)) with (apply_writes (<[m := x]> d) ws). rewrite IH. cbn [csets foldl fst snd].
  fold (csets (set_block (dk d) m x) ws). generalize (foldl_app (fun c w => set_block c (fst w) (snd w))). intros _.
  assert (E : forall y, dk (<[m := x]> d) y = set_block (dk d) m x y).
  { intros y. unfold dk, set_block. destruct (Z.eqb_spec y m) as [->|]; [by rewrite lookup_insert_eq|by rewrite lookup_insert_ne]. }
  clear IH. revert E. generalize (dk (<[m := x]> d)), (set_block (dk d) m x). induction ws as [|[m' x'] ws IH]; intros f g E; [apply E|].
  apply (IH (set_block f m' x') (set_block g m' x')). intros y. unfold set_block. by rewrite E.
Qed.

Lemma csets_installs c bs : forall c0 n, csets c0 (installs c bs) n = if bool_decide (n ∈ bs) then c n else c0 n.
Proof.
  induction bs as [|b bs IH]; intros c0 n; [done|].
  change (csets c0 (installs c (b :: bs)) n) with (csets (set_block c0 b (c b)) (installs c bs) n). rewrite IH. unfold set_block.
  destruct (decide (n ∈ bs)) as [Hin|Hin].
  - rewrite !bool_decide_eq_true_2; [done|apply elem_of_cons; by right|done].
  - rewrite bool_decide_eq_false_2 by done. destruct (Z.eqb_spec n b) as [->|Hn].
    + rewrite bool_decide_eq_true_2; [done|]. apply elem_of_cons. by left.
    + rewrite bool_decide_eq_false_2; [done|]. rewrite elem_of_cons. tauto.
Qed.

Lemma take_installs c bs j : take j (installs c bs) = installs c (take j bs).
Proof. unfold installs. by rewrite firstn_map. Qed.

Lemma take_log_writes c bs : forall j s, take j (log_writes c s bs) = log_writes c s (take j bs).
Proof. induction bs as [|b bs IH]; intros [|j] s; simpl; try done. by rewrite IH. Qed.

Lemma length_log_writes c bs : forall s, length (log_writes c s bs) = length bs.
Proof. induction bs as [|b bs IH]; intros s; simpl; [done|]. by rewrite IH. Qed.

(** Recovery, possibly interrupted by further crashes, from the disk [d] to the
    disk [d']. *)
Inductive recovers (sz p : Z) : gmap Z (list Z) -> gmap Z (list Z) -> Prop :=
  | rec_done d k : recover sz p d = Ok (tt, k) -> recovers sz p d (memdisk (bio k))
  | rec_crash d k j d' :
      recover sz p d = Ok (tt, k) -> recovers sz p (apply_writes d (take j (writes (bio k)))) d' -> recovers sz p d d'.

Section crash.
Context (sz p : Z) (Hsz : sz <= 2 ^ 31).
(** The disk before the transaction, the new contents, the log and the logged
    blocks. *)
Context (d0 : gmap Z (list Z)) (c : Z -> list Z) (s : Z) (bs : list Z).

Definition outside (m : Z) : Prop := ~ (s <= m < s + LOGSIZE).

Context (Hsb : get32 (dk d0 1) off_logstart = s) (Hs1 : 1 < s) (Hs2 : s + LOGSIZE < sz).
Context (Hbs : Forall (fun b => 0 <= b < sz /\ outside b) bs) (Hlen : (length bs < Z.to_nat LOGSIZE)%nat) (Hsb1 : 1 ∉ bs).
Context (Hcs : c s = dk d0 s) (Hhlen : length (dk d0 s) = Z.to_nat BSIZE) (Hclear : lists (dk d0 s) []).

(** The file system's blocks after the transaction. *)
Definition after (m : Z) : list Z := if bool_decide (m ∈ bs) then c m else dk d0 m.

(** The log is empty and the file system's blocks are [V]. *)
Definition clean (V : Z -> list Z) (d : gmap Z (list Z)) : Prop :=
  lists (dk d s) [] /\ length (dk d s) = Z.to_nat BSIZE /\ forall m, outside m -> dk d m = V m.

(** The log holds the transaction; the blocks it will overwrite are arbitrary. *)
Definition pending (d : gmap Z (list Z)) : Prop :=
  lists (dk d s) bs /\ length (dk d s) = Z.to_nat BSIZE /\
  (forall j b, bs !! j = Some b -> dk d (s + 1 + Z.of_nat j) = c b) /\
  forall m, outside m -> m ∉ bs -> dk d m = dk d0 m.

Lemma outside_1 : outside 1.
Proof. unfold outside. lia. Qed.

Lemma bs_outside b : b ∈ bs -> outside b.
Proof. rewrite Forall_forall in Hbs. intros H. by apply Hbs in H as [_ ?]. Qed.

Lemma bs_int : Forall (fun b => INT_MIN <= b <= INT_MAX) bs.
Proof. eapply Forall_impl; [exact Hbs|]. intros b [Hb _]. unfold INT_MIN, INT_MAX. lia. Qed.

(** A write to the header clears it; a write outside the log does not touch it. *)
Lemma cleared_header d V :
  length (dk d s) = Z.to_nat BSIZE -> (forall m, outside m -> dk d m = V m) ->
  clean V (apply_writes d [(s, header (dk d s) [])]).
Proof.
  intros Hl HV. assert (HL : LOGSIZE = 30) by done.
  assert (E : dk (apply_writes d [(s, header (dk d s) [])]) s = header (dk d s) []).
  { rewrite dk_apply. cbn. unfold set_block. by rewrite Z.eqb_refl. }
  split; [|split].
  - rewrite E. apply header_lists; [done|simpl; lia|constructor].
  - by rewrite E, length_header.
  - intros m Hm. rewrite dk_apply. cbn. unfold set_block. rewrite (proj2 (Z.eqb_neq _ _)); [by apply HV|].
    intros ->. apply Hm. lia.
Qed.

Lemma recover_clean V d :
  clean V d -> V 1 = dk d0 1 ->
  exists k, recover sz p d = Ok (tt, k) /\ clean V (memdisk (bio k)) /\
    forall j, clean V (apply_writes d (take j (writes (bio k)))).
Proof.
  intros (Hl & Hlen' & HV) HV1.
  assert (Hsb' : get32 (dk d 1) off_logstart = s) by (rewrite (HV 1 outside_1), HV1; exact Hsb).
  destruct (recover_run sz Hsz p d s [] Hsb' Hs1 Hs2 Hl ltac:(simpl; lia) ltac:(constructor)) as (k & E & Hd & Hw).
  exists k. split; [exact E|]. rewrite Hd, Hw. unfold recovery_writes. cbn [home_writes app].
  pose proof (cleared_header d V Hlen' HV) as Hc. split; [exact Hc|]. intros [|j]; [exact (conj Hl (conj Hlen' HV))|].
  rewrite take_ge by (simpl; lia). exact Hc.
Qed.

(** Installing some of the blocks keeps the transaction pending. *)
Lemma pending_installs d l : pending d -> l ⊆ bs -> pending (apply_writes d (installs c l)).
Proof.
  intros (Hl & Hlen' & Hlog & HV) Hsub. assert (HL : LOGSIZE = 30) by done.
  assert (E : forall n, ~ outside n -> dk (apply_writes d (installs c l)) n = dk d n).
  { intros n Hn. rewrite dk_apply, csets_installs, bool_decide_eq_false_2; [done|]. intros Hin. by apply Hn, bs_outside, Hsub. }
  assert (Hs : ~ outside s) by (unfold outside; lia).
  split; [|split; [|split]].
  - by rewrite E.
  - by rewrite E.
  - intros j b Hj. rewrite E; [by apply Hlog|]. apply lookup_lt_Some in Hj. unfold outside. lia.
  - intros m Hm Hnb. rewrite dk_apply, csets_installs, bool_decide_eq_false_2 by (intros Hin; by apply Hnb, Hsub). by apply HV.
Qed.

Lemma installed_after d : pending d -> forall m, outside m -> dk (apply_writes d (installs c bs)) m = after m.
Proof.
  intros (_ & _ & _ & HV) m Hm. rewrite dk_apply, csets_installs. unfold after. case_bool_decide; [done|]. by apply HV.
Qed.

Lemma recover_pending d :
  pending d ->
  exists k, recover sz p d = Ok (tt, k) /\ clean after (memdisk (bio k)) /\
    forall j, pending (apply_writes d (take j (writes (bio k)))) \/ clean after (apply_writes d (take j (writes (bio k)))).
Proof.
  intros Hp. pose proof Hp as (Hl & Hlen' & Hlog & HV).
  assert (Hsb' : get32 (dk d 1) off_logstart = s) by (rewrite (HV 1 outside_1 Hsb1); exact Hsb).
  destruct (recover_run sz Hsz p d s bs Hsb' Hs1 Hs2 Hl ltac:(lia) Hbs) as (k & E & Hd & Hw).
  exists k. split; [exact E|]. rewrite Hd, Hw. unfold recovery_writes.
  rewrite (home_writes_installs c) by (intros j b Hj; by apply Hlog).
  pose proof (pending_installs d bs Hp (reflexivity _)) as Hpi.
  assert (Hcl : clean after (apply_writes d (installs c bs ++ [(s, header (dk d s) [])]))).
  { rewrite apply_writes_app. destruct Hpi as (_ & Hi2 & _).
    assert (Eh : dk (apply_writes d (installs c bs)) s = dk d s).
    { rewrite dk_apply, csets_installs, bool_decide_eq_false_2; [done|]. intros Hin%bs_outside. apply Hin. unfold LOGSIZE, MAXOPBLOCKS. lia. }
    rewrite <- Eh. apply cleared_header; [done|]. by apply installed_after. }
  split; [exact Hcl|]. intros j. destruct (decide (j <= length bs)%nat) as [Hj|Hj].
  - left. rewrite take_app_le by (unfold installs; rewrite length_map; lia). rewrite take_installs. apply pending_installs; [done|].
    apply subseteq_take.
  - right. rewrite take_ge; [exact Hcl|]. rewrite length_app. unfold installs. rewrite length_map. simpl. lia.
Qed.

(** The blocks outside the log before the header is written. *)
Lemma logging_outside l m :
  (length l <= length bs)%nat -> ~ (s < m < s + LOGSIZE) -> dk (apply_writes d0 (log_writes c s l)) m = dk d0 m.
Proof. intros Hl Hm. assert (LOGSIZE = 30) by done. rewrite dk_apply, csets_log, bool_decide_eq_false_2; [done|]. lia. Qed.

(** The commit point: the header is written. *)
Lemma header_pending : pending (apply_writes d0 (log_writes c s bs ++ [(s, header (c s) bs)])).
Proof.
  assert (HL : LOGSIZE = 30) by done. rewrite apply_writes_app. set (d' := apply_writes d0 (log_writes c s bs)).
  assert (Es : dk (apply_writes d' [(s, header (c s) bs)]) s = header (c s) bs) by (rewrite dk_apply; cbn; unfold set_block; by rewrite Z.eqb_refl).
  assert (Eo : forall m, m <> s -> dk (apply_writes d' [(s, header (c s) bs)]) m = dk d' m).
  { intros m Hm. rewrite dk_apply. cbn. unfold set_block. by rewrite (proj2 (Z.eqb_neq _ _)). }
  split; [|split; [|split]].
  - rewrite Es. apply header_lists; [by rewrite Hcs|lia|apply bs_int].
  - by rewrite Es, length_header, Hcs.
  - intros j b Hj. rewrite Eo by lia. unfold d'. rewrite dk_apply, csets_log. pose proof (lookup_lt_Some _ _ _ Hj).
    rewrite bool_decide_eq_true_2 by lia. replace (Z.to_nat (s + 1 + Z.of_nat j - s - 1)) with j by lia. f_equal. by apply list_lookup_total_correct.
  - intros m Hm _. unfold outside in Hm. rewrite Eo by lia. apply logging_outside; [done|lia].
Qed.

(** The end of commit: the blocks are installed and the log is empty. *)
Lemma commit_done : clean after (apply_writes d0 (commit_writes c s bs)).
Proof.
  assert (HL : LOGSIZE = 30) by done. pose proof header_pending as Hp. set (d1 := apply_writes d0 _) in Hp.
  unfold commit_writes. rewrite (app_assoc (log_writes c s bs)), apply_writes_app. fold d1. rewrite apply_writes_app.
  destruct (pending_installs d1 bs Hp (reflexivity _)) as (_ & Hi2 & _).
  assert (Eh : dk (apply_writes d1 (installs c bs)) s = header (c s) bs).
  { rewrite dk_apply, csets_installs, bool_decide_eq_false_2 by (intros Hin%bs_outside; apply Hin; lia).
    unfold d1. rewrite apply_writes_app, dk_apply. cbn. unfold set_block. by rewrite Z.eqb_refl. }
  rewrite <- Eh at 1. apply cleared_header; [done|]. by apply installed_after.
Qed.

(** Every crash point of commit. *)
Lemma crash_points k :
  let d := apply_writes d0 (take k (commit_writes c s bs)) in
  if (k <=? length bs)%nat then clean (dk d0) d else pending d \/ clean after d.
Proof.
  cbv zeta. assert (HL : LOGSIZE = 30) by done. destruct (Nat.leb_spec k (length bs)) as [Hk|Hk].
  - unfold commit_writes. rewrite take_app_le by (rewrite length_log_writes; lia). rewrite take_log_writes.
    assert (Ht : (length (take k bs) <= length bs)%nat) by (rewrite length_take; lia).
    split; [|split]; [rewrite logging_outside by lia; done..|]. intros m Hm. unfold outside in Hm. apply logging_outside; lia.
  - pose proof commit_done as Hd. set (n := (length bs + 1 + length bs)%nat). destruct (decide (k <= n)%nat) as [Hj|Hj].
    + left. unfold commit_writes. rewrite app_assoc, take_app, take_ge by (rewrite length_app, length_log_writes; simpl; lia).
      rewrite apply_writes_app. rewrite length_app, length_log_writes. simpl length.
      rewrite take_app_le by (unfold installs; rewrite length_map; unfold n in Hj; lia). rewrite take_installs.
      apply pending_installs; [apply header_pending|apply subseteq_take].
    + right. rewrite take_ge; [exact Hd|]. unfold commit_writes. rewrite !length_app, length_log_writes. unfold installs. rewrite length_map. simpl. unfold n in Hj. lia.
Qed.

Lemma recovers_clean d d' V : recovers sz p d d' -> V 1 = dk d0 1 -> clean V d -> clean V d'.
Proof.
  intros H HV1. induction H as [d k E|d k j d' E H IH]; intros Hc;
    destruct (recover_clean V d Hc HV1) as (k' & E' & Hc' & Hj);
    rewrite E in E'; injection E' as <-; [exact Hc'|]. apply IH, Hj.
Qed.

Lemma recovers_after d d' : recovers sz p d d' -> pending d \/ clean after d -> clean after d'.
Proof.
  assert (HV1 : after 1 = dk d0 1) by (unfold after; by rewrite bool_decide_eq_false_2).
  intros H. induction H as [d k E|d k j d' E H IH]; intros [Hp|Hc].
  - destruct (recover_pending d Hp) as (k' & E' & Hc' & _). rewrite E in E'. by injection E' as <-.
  - destruct (recover_clean _ d Hc HV1) as (k' & E' & Hc' & _). rewrite E in E'. by injection E' as <-.
  - destruct (recover_pending d Hp) as (k' & E' & _ & Hj). rewrite E in E'. injection E' as <-. apply IH, Hj.
  - destruct (recover_clean _ d Hc HV1) as (k' & E' & _ & Hj). rewrite E in E'. injection E' as <-. apply IH. right. apply Hj.
Qed.

(** All or nothing, for every crash point of commit and of the recoveries after
    it. *)
Lemma commit_atomic j :
  let d := apply_writes d0 (take j (commit_writes c s bs)) in
  (exists k, recover sz p d = Ok (tt, k)) /\
  forall d', recovers sz p d d' -> forall m, outside m ->
    dk d' m = if (j <=? length bs)%nat then dk d0 m else after m.
Proof.
  cbv zeta. pose proof (crash_points j) as Hcp. cbv zeta in Hcp. destruct (Nat.leb j (length bs)).
  - split; [destruct (recover_clean _ _ Hcp eq_refl) as (k & E & _); eauto|].
    intros d' Hr. apply (recovers_clean _ _ _ Hr eq_refl) in Hcp. apply Hcp.
  - split.
    + destruct Hcp as [Hp|Hc]; [destruct (recover_pending _ Hp) as (k & E & _); eauto|].
      destruct (recover_clean _ _ Hc) as (k & E & _); [unfold after; by rewrite bool_decide_eq_false_2|eauto].
    + intros d' Hr. apply (recovers_after _ _ Hr) in Hcp. apply Hcp.
Qed.
End crash.

(** ** Transactions *)

(** A file system call as the log sees it: blocks are read, changed, logged and
    released. *)
Definition update (b : Z) (x : list Z) : M kernel unit :=
  let! i := bread_ 1 b in
  do! buf_update i (fun _ => x) in
  do! log_write i in
  brelse_ i.

Fixpoint updates (ups : list (Z * list Z)) : M kernel unit :=
  match ups with
  | [] => ret tt
  | (b, x) :: ups => do! update b x in updates ups
  end.

(** The call is admitted at once. *)
Definition transaction (ups : list (Z * list Z)) : M kernel unit :=
  let! admitted := begin_op in
  do! assert admitted in
  do! updates ups in
  end_op.

(** The blocks of the updates, each once, in the order of their first update. *)
Fixpoint logged (bs : list Z) (ups : list (Z * list Z)) : list Z :=
  match ups with
  | [] => bs
  | (b, _) :: ups => logged (if bool_decide (b ∈ bs) then bs else bs ++ [b]) ups
  end.

Lemma absorb_fresh bs post b : forall pre,
  b ∉ bs -> absorb (pre ++ bs ++ post) b (length bs) (length pre) = (length pre + length bs)%nat.
Proof.
  induction bs as [|a bs IH]; intros pre Hin; [simpl; lia|].
  apply not_elem_of_cons in Hin as [Ha Hin]. cbn [length absorb].
  assert (Hm : (pre ++ (a :: bs) ++ post) !! length pre = Some a) by (by apply (list_lookup_middle pre (bs ++ post) a)).
  rewrite Hm, bool_decide_eq_false_2 by congruence.
  replace (pre ++ (a :: bs) ++ post) with ((pre ++ [a]) ++ bs ++ post) by (by rewrite <- app_assoc).
  replace (S (length pre)) with (length (pre ++ [a])) by (rewrite length_app; simpl; lia).
  rewrite IH by done. rewrite length_app. simpl. lia.
Qed.

Lemma absorb_found bs post b : forall pre,
  b ∈ bs -> exists j, absorb (pre ++ bs ++ post) b (length bs) (length pre) = j /\ (j < length pre + length bs)%nat /\
    (pre ++ bs ++ post) !! j = Some b.
Proof.
  induction bs as [|a bs IH]; intros pre Hin; [by apply not_elem_of_nil in Hin|]. cbn [length absorb].
  assert (Hm : (pre ++ (a :: bs) ++ post) !! length pre = Some a) by (by apply (list_lookup_middle pre (bs ++ post) a)).
  case_bool_decide as E.
  - exists (length pre). split; [done|]. split; [lia|done].
  - rewrite Hm in E. apply elem_of_cons in Hin as [->|Hin]; [done|].
    replace (pre ++ (a :: bs) ++ post) with ((pre ++ [a]) ++ bs ++ post) by (by rewrite <- app_assoc).
    replace (S (length pre)) with (length (pre ++ [a])) by (rewrite length_app; simpl; lia).
    destruct (IH (pre ++ [a]) Hin) as (j & E' & Hj & Hl). exists j. split; [done|]. split; [|done]. rewrite length_app in Hj. simpl in Hj. lia.
Qed.

Section transactions.
Context (sz : Z) (Hsz : sz <= 2 ^ 31).

(** Inside a transaction that has logged the blocks [bs]. *)
Record txn (k : kernel) (c : Z -> list Z) (bs : list Z) (d : gmap Z (list Z)) (ws : list (Z * list Z)) (l : log) : Prop := {
  t_k : kok sz k c (list_to_set bs) ∅ d ws l;
  t_log : log_ok sz l;
  t_block : exists post, lh_block l = bs ++ post;
  t_n : lh_n l = Z.of_nat (length bs);
  t_home : Forall (home sz l) bs;
  t_nodup : NoDup bs;
  t_out : outstanding l = 1;
  t_com : committing l = false
}.

(** The log's fields that logging does not change. *)
Definition same_log (l l' : log) : Prop := start l' = start l /\ size l' = size l.

(** log_write of a held block. *)
Lemma log_write_spec k c bs H d ws l b i Q :
  kok sz k c (list_to_set bs) H d ws l -> b ∈ H -> log_ok sz l -> (exists post, lh_block l = bs ++ post) ->
  lh_n l = Z.of_nat (length bs) -> outstanding l = 1 -> handle (bio k) b i ->
  Z.of_nat (length bs) < LOGSIZE -> Z.of_nat (length bs) < size l - 1 ->
  (forall k' l', let bs' := if bool_decide (b ∈ bs) then bs else bs ++ [b] in
     kok sz k' c (list_to_set bs') H d ws l' -> log_ok sz l' -> (exists post, lh_block l' = bs' ++ post) ->
     lh_n l' = Z.of_nat (length bs') -> same_log l l' -> outstanding l' = 1 -> committing l' = committing l ->
     handle (bio k') b i -> handles_kept H b k k' -> Q tt k') ->
  wp (log_write i) Q k.
Proof.
  intros K HbH Hl (post & Hpost) Hn Ho Hh Hb1 Hb2 HQ.
  destruct (handle_held _ _ _ _ b i (k_rep _ _ _ _ _ _ _ _ K) HbH Hh) as (bf & Hbf & _ & Hbn & _).
  unfold log_write. wp_pure. cbv zeta. rewrite (k_log _ _ _ _ _ _ _ _ K), Hn, Ho.
  rewrite (proj2 (orb_false_iff _ _)) by lia. cbn [Z.ltb Z.compare]. change (1 <? 1) with false. cbv iota.
  rewrite wp_bind. eapply wp_on_bio; [by apply get_buf_eq|]. rewrite Hbn, Nat2Z.id. rewrite wp_bind.
  set (j := absorb (lh_block l) b (length bs) 0).
  set (bs' := if bool_decide (b ∈ bs) then bs else bs ++ [b]).
  assert (Hj : (j < length (lh_block l))%nat /\ (exists post', <[j := b]> (lh_block l) = bs' ++ post') /\
    (if Z.of_nat j =? Z.of_nat (length bs) then Z.of_nat (length bs) + 1 else Z.of_nat (length bs)) = Z.of_nat (length bs')).
  { destruct Hl as (_ & _ & _ & Hll). unfold LOGSIZE, MAXOPBLOCKS in *. unfold j, bs'. rewrite Hpost in Hll |- *. destruct (decide (b ∈ bs)) as [Hin|Hin].
    - destruct (absorb_found bs post b [] Hin) as (j' & Ej & Hj & Hlj). simpl in Ej, Hj, Hlj. rewrite Ej. rewrite bool_decide_eq_true_2 by done.
      split; [lia|]. split; [exists post; by rewrite list_insert_id|]. rewrite (proj2 (Z.eqb_neq _ _)) by lia. done.
    - pose proof (absorb_fresh bs post b [] Hin) as Ej. simpl in Ej. rewrite Ej. rewrite bool_decide_eq_false_2 by done.
      rewrite length_app in Hll |- *. split; [lia|]. rewrite Z.eqb_refl. split; [|simpl; rewrite length_app; simpl; lia].
      destruct post as [|q post]; [simpl in Hll; lia|]. exists post. rewrite insert_app_r_alt by lia. rewrite Nat.sub_diag. by rewrite <- app_assoc. }
  destruct Hj as (Hjl & (post' & Hpost') & Hn').
  unfold put_block, upd_log. rewrite wp_bind, wp_get. rewrite wp_bind, wp_of_option. simpl klog.
  rewrite (k_log _ _ _ _ _ _ _ _ K). rewrite zupd_in by lia. rewrite Nat2Z.id. eexists. split; [done|]. rewrite wp_modify.
  set (l1 := set_block_no (<[j := b]> (lh_block l)) l).
  set (l2 := set_n (Z.of_nat (length bs')) l1).
  rewrite wp_bind.
  apply (wp_mono _ (fun _ k' => k' = mk_kernel (bio k) l2)).
  { destruct (Z.of_nat j =? Z.of_nat (length bs)); [rewrite wp_modify|rewrite wp_ret]; unfold l2, l1; simpl.
    - by rewrite Hn'.
    - rewrite <- Hn', <- Hn. by destruct l. }
  intros [] k1 ->. destruct (set_dirty_spec (bio k) c (list_to_set bs) H b i) as (st & E & R & Hh' & F & Hd & Hw); [apply K|done|done|].
  eapply wp_on_bio; [exact E|]. apply (HQ (mk_kernel st l2) l2).
  - split; simpl; [|rewrite Hd; apply K|rewrite Hw; apply K|rewrite (fr_size _ _ _ _ F); apply K|done].
    replace (list_to_set bs' : gset Z) with (list_to_set bs ∪ {[b]} : gset Z); [done|].
    unfold bs'. case_bool_decide; [set_solver|]. rewrite list_to_set_app_L. set_solver.
  - destruct Hl as (? & ? & ? & Hll). split; [done|]. split; [done|]. split; [done|]. simpl. by rewrite length_insert.
  - by exists post'.
  - done.
  - done.
  - done.
  - done.
  - done.
  - split; [apply F|intros m j'; apply F].
Qed.

Lemma update_spec k c bs d ws l b x :
  txn k c bs d ws l -> home sz l b -> Z.of_nat (length bs) < LOGSIZE - 1 -> Z.of_nat (length bs) < size l - 1 ->
  wp (update b x)
    (fun _ k' => exists l', txn k' (set_block c b x) (if bool_decide (b ∈ bs) then bs else bs ++ [b]) d ws l' /\ same_log l l') k.
Proof.
  intros [K Hl Hp Hn Hbs Hnd Ho Hc] Hb Hb1 Hb2. unfold update. rewrite wp_bind.
  assert (HsizeD : base.size (list_to_set bs : gset Z) = length bs) by (by apply size_list_to_set).
  unfold LOGSIZE, MAXOPBLOCKS in Hb1.
  eapply (wp_bread sz Hsz _ _ _ _ _ _ _ b); [exact K|set_solver|apply Hb| |].
  { replace (list_to_set bs ∪ ∅ ∪ {[b]} : gset Z) with (list_to_set bs ∪ {[b]} : gset Z) by set_solver.
    pose proof (size_union_alt (list_to_set bs : gset Z) {[b]}) as E.
    assert (base.size ({[b]} ∖ list_to_set bs : gset Z) <= base.size ({[b]} : gset Z))%nat as E' by (apply subseteq_size; set_solver).
    rewrite size_singleton in E'. unfold NBUF. lia. }
  intros i k1 K1 Hh1 _. replace (∅ ∪ {[b]} : gset Z) with ({[b]} : gset Z) in K1 by set_solver.
  rewrite wp_bind. eapply (wp_buf_update _ _ _ _ _ _ _ _ b); [exact K1|set_solver|done|]. intros k2 K2 Hh2 _.
  rewrite wp_bind. eapply (log_write_spec k2 _ bs {[b]} d ws l b i); [exact K2|set_solver|done|done|done|done|done|unfold LOGSIZE, MAXOPBLOCKS; lia|lia|].
  cbv zeta. set (bs' := if bool_decide (b ∈ bs) then bs else bs ++ [b]). intros k3 l' K3 Hl' Hp' Hn' Hsame Ho' Hc' Hh3 _.
  eapply (wp_brelse _ _ _ _ _ _ _ _ b); [exact K3|set_solver|exact Hh3| |].
  { left. unfold bs'. case_bool_decide; set_solver. }
  intros k4 K4 _. replace ({[b]} ∖ {[b]} : gset Z) with (∅ : gset Z) in K4 by set_solver. exists l'. split; [|done].
  assert (Hhome : forall m, home sz l m -> home sz l' m).
  { destruct Hsame as [Hst _]. unfold home. by rewrite Hst. }
  split; try done; [| |congruence].
  - assert (Hbs' : Forall (home sz l) bs') by (unfold bs'; case_bool_decide; [done|]; apply Forall_app; split; [done|by constructor]).
    eapply Forall_impl; [exact Hbs'|done].
  - unfold bs'. case_bool_decide; [done|]. apply NoDup_app. split; [done|]. split; [set_solver|apply NoDup_singleton].
Qed.

Lemma logged_length ups : forall bs, (length bs <= length (logged bs ups))%nat.
Proof.
  induction ups as [|[b x] ups IH]; intros bs; simpl; [done|]. etrans; [|apply IH]. case_bool_decide; [done|]. rewrite length_app. lia.
Qed.

Lemma updates_spec ups : forall k c bs d ws l,
  txn k c bs d ws l -> Forall (fun u => home sz l (fst u)) ups ->
  Z.of_nat (length (logged bs ups)) < LOGSIZE - 1 -> Z.of_nat (length (logged bs ups)) < size l - 1 ->
  wp (updates ups) (fun _ k' => exists l', txn k' (csets c ups) (logged bs ups) d ws l' /\ same_log l l') k.
Proof.
  induction ups as [|[b x] ups IH]; intros k c bs d ws l T Hu Hb1 Hb2; [apply wp_ret; by exists l|].
  apply Forall_cons in Hu as [Hb Hu]. simpl in Hb. cbn [updates logged] in *. set (bs' := if bool_decide (b ∈ bs) then bs else bs ++ [b]) in *.
  pose proof (logged_length ups bs') as Hlen.
  assert (Hbb : (length bs <= length bs')%nat) by (unfold bs'; case_bool_decide; [done|rewrite length_app; lia]).
  rewrite wp_bind. eapply wp_mono; [apply (update_spec k c bs d ws l b x T Hb); lia|].
  intros [] k1 (l1 & T1 & Hst & Hsi). fold bs' in T1.
  eapply wp_mono; [apply (IH k1 _ bs' d ws l1 T1)|].
  - eapply Forall_impl; [exact Hu|]. intros u. unfold home. by rewrite Hst.
  - done.
  - by rewrite Hsi.
  - intros [] k2 (l2 & T2 & Hst2 & Hsi2). exists l2. split; [exact T2|]. split; congruence.
Qed.

Lemma elem_of_logged ups m : forall bs, m ∈ logged bs ups <-> m ∈ bs \/ m ∈ map fst ups.
Proof.
  induction ups as [|[b x] ups IH]; intros bs; cbn [logged map fst]; [by rewrite elem_of_nil; tauto|].
  rewrite IH, elem_of_cons. case_bool_decide; [|rewrite elem_of_app, list_elem_of_singleton; tauto].
  split; [tauto|]. intros [?|[->|?]]; tauto.
Qed.

(** The state between transactions: the cache shows the disk, the log is idle. *)
Record idle (k : kernel) (d : gmap Z (list Z)) (ws : list (Z * list Z)) (l : log) : Prop := {
  i_k : kok sz k (dk d) ∅ ∅ d ws l;
  i_log : log_ok sz l;
  i_n : lh_n l = 0;
  i_out : outstanding l = 0;
  i_com : committing l = false
}.

Definition txn_writes (d : gmap Z (list Z)) (s : Z) (ups : list (Z * list Z)) : list (Z * list Z) :=
  match ups with [] => [] | _ => commit_writes (csets (dk d) ups) s (logged [] ups) end.

Lemma begin_op_idle k d ws l :
  idle k d ws l -> begin_op k = Ok (true, mk_kernel (bio k) (set_outstanding 1 l)).
Proof.
  intros [K Hl Hn Ho Hc]. unfold begin_op, bind, get. rewrite (k_log _ _ _ _ _ _ _ _ K), Hc, Hn, Ho. cbv zeta.
  change (LOGSIZE <? 0 + (0 + 1) * MAXOPBLOCKS) with false. cbv iota. unfold upd_log, modify, ret. by rewrite (k_log _ _ _ _ _ _ _ _ K).
Qed.

Lemma kok_log k c D H d ws l l' : kok sz k c D H d ws l -> kok sz (mk_kernel (bio k) l') c D H d ws l'.
Proof. intros []. by split. Qed.

Lemma transaction_run k d ws l ups :
  idle k d ws l -> Forall (fun u => home sz l (fst u)) ups ->
  Z.of_nat (length (logged [] ups)) < LOGSIZE - 1 -> Z.of_nat (length (logged [] ups)) < size l - 1 ->
  wp (transaction ups)
    (fun _ k' => exists l', idle k' (apply_writes d (txn_writes d (start l) ups)) (ws ++ txn_writes d (start l) ups) l' /\ same_log l l') k.
Proof.
  intros Hi Hu Hb1 Hb2. pose proof Hi as [K Hl Hn Ho Hc]. unfold transaction. rewrite wp_bind.
  apply (wp_eq _ _ _ _ _ (begin_op_idle k d ws l Hi)). rewrite wp_bind, wp_assert. split; [done|]. rewrite wp_bind.
  assert (T : txn (mk_kernel (bio k) (set_outstanding 1 l)) (dk d) [] d ws (set_outstanding 1 l)).
  { split; [exact (kok_log _ _ _ _ _ _ _ _ K)|exact Hl|by exists (lh_block l)|exact Hn|constructor|constructor|done|exact Hc]. }
  eapply wp_mono; [apply (updates_spec ups _ _ _ _ _ _ T Hu Hb1 Hb2)|].
  intros [] k1 (l1 & [K1 Hl1 (post & Hpost) Hn1 Hbs1 Hnd1 Ho1 Hc1] & Hst & Hsi). simpl in Hst, Hsi.
  set (bs := logged [] ups) in *. unfold end_op, upd_log. rewrite wp_bind, wp_get, wp_bind, wp_modify.
  rewrite (k_log _ _ _ _ _ _ _ _ K1), Hc1, Ho1. change (1 - 1 =? 0) with true. cbv iota. rewrite wp_bind, wp_modify, wp_bind. simpl klog. simpl bio.
  set (l2 := set_committing true (set_outstanding (1 - 1) l1)).
  assert (K2 : kok sz (mk_kernel (bio k1) l2) (csets (dk d) ups) (list_to_set bs) ∅ d ws l2) by exact (kok_log _ _ _ _ _ _ _ _ K1).
  destruct ups as [|u ups'] eqn:Eu.
  - unfold commit. rewrite wp_bind, wp_get. simpl lh_n. rewrite Hn1. simpl. apply wp_ret. rewrite wp_modify.
    exists (set_committing false l2). split; [|done]. rewrite app_nil_r.
    split; try done. exact (kok_log _ _ _ _ _ _ _ _ K2).
  - rewrite <- Eu in *.
    assert (Hpos : (0 < length bs)%nat).
    { assert (Hx : fst u ∈ bs) by (unfold bs; rewrite elem_of_logged; right; rewrite ?Eu; simpl; apply elem_of_cons; by left).
      destruct (length bs) eqn:E0; [|lia]. apply nil_length_inv in E0. rewrite E0 in Hx. by apply not_elem_of_nil in Hx. }
    eapply wp_mono; [apply (commit_spec sz Hsz _ _ d ws l2 bs post K2 Hl1 Hpost Hn1 Hbs1 Hnd1); unfold NBUF, LOGSIZE, MAXOPBLOCKS in *; lia|].
    intros [] k3 (c' & K3). rewrite wp_modify. simpl start in K3. rewrite Hst in K3.
    assert (Etw : txn_writes d (start l) ups = commit_writes (csets (dk d) ups) (start l) bs) by (unfold txn_writes; by rewrite Eu).
    rewrite Etw. exists (set_committing false (set_n 0 l2)). split; [|done]. rewrite (k_log _ _ _ _ _ _ _ _ K3).
    split; try done. apply (kok_log _ _ _ _ _ _ (set_n 0 l2)). eapply kok_ext; [|exact K3]. intros n. symmetry. eapply kok_clean; [exact K3|set_solver..].
Qed.
End transactions.

(** ** Theorems *)

(** C1. Transactions are atomic under crashes.  From an idle log, a call that
    updates any blocks outside the log and the superblock, fewer distinct ones
    than the log holds, runs to its end.  If the machine stops after any number
    of its block writes, start-up succeeds on the disk it leaves, and, however
    often recovery is itself interrupted by crashes and run again, every block
    outside the log has its old contents if the header had not been written and
    its new contents if it had: all updates or none. *)
Theorem transaction_crash_atomic sz p k d ws l ups :
  sz <= 2 ^ 31 -> idle sz k d ws l ->
  get32 (dk d 1) off_logstart = start l -> 1 < start l ->
  length (dk d (start l)) = Z.to_nat BSIZE -> lists (dk d (start l)) [] ->
  Forall (fun u => home sz l (fst u) /\ fst u <> 1) ups ->
  Z.of_nat (length (logged [] ups)) < LOGSIZE - 1 -> Z.of_nat (length (logged [] ups)) < size l - 1 ->
  exists k' W, transaction ups k = Ok (tt, k') /\ writes (bio k') = ws ++ W /\ memdisk (bio k') = apply_writes d W /\
    forall j, (exists kr, recover sz p (apply_writes d (take j W)) = Ok (tt, kr)) /\
      forall d', recovers sz p (apply_writes d (take j W)) d' -> forall m, outside (start l) m ->
        dk d' m = if (j <=? length (logged [] ups))%nat then dk d m else csets (dk d) ups m.
Proof.
  intros Hsz Hi Hsb Hs1 Hhl Hclear Hu Hb1 Hb2. pose proof Hi as [K Hl _ _ _].
  assert (Hu' : Forall (fun u => home sz l (fst u)) ups) by (eapply Forall_impl; [exact Hu|]; by intros u [? _]).
  pose proof (transaction_run sz Hsz k d ws l ups Hi Hu' Hb1 Hb2) as W.
  destruct (proj1 (wp_run _ _ _) W) as (u & k' & E & l' & Hi' & _). destruct u. clear W.
  exists k', (txn_writes d (start l) ups). destruct Hi' as [K' _ _ _ _].
  split; [exact E|]. split; [apply K'|]. split; [apply K'|]. intros j.
  set (s := start l) in *. destruct Hl as (_ & Hs0 & Hs2 & _). fold s in Hs0, Hs2.
  destruct ups as [|u ups'] eqn:Eu.
  - change (txn_writes d s []) with (@nil (Z * list Z)). rewrite take_nil. assert (Hc : clean s (dk d) d) by (split; [exact Hclear|split; [exact Hhl|done]]).
    pose proof (recover_clean sz p Hsz d s [] Hsb Hs1 Hs2 ltac:(unfold LOGSIZE, MAXOPBLOCKS; simpl; lia) Hhl (dk d) d Hc eq_refl) as (kr & Er & _).
    split; [exists kr; exact Er|]. intros d' Hr m Hm.
    assert (Hc' : clean s (dk d) d') by (eapply (recovers_clean sz p Hsz d s []); [exact Hsb|exact Hs1|exact Hs2|unfold LOGSIZE, MAXOPBLOCKS; simpl; lia|exact Hhl|exact Hr|reflexivity|exact Hc]).
    destruct Hc' as (_ & _ & Hc'). rewrite (Hc' m Hm). by destruct (j <=? _)%nat.
  - rewrite <- Eu in *. assert (Etw : txn_writes d s ups = commit_writes (csets (dk d) ups) s (logged [] ups)) by (unfold txn_writes; by rewrite Eu).
    rewrite Etw. set (bs := logged [] ups) in *.
    assert (Hin : forall b, b ∈ bs -> exists x, (b, x) ∈ ups).
    { intros b Hb. unfold bs in Hb. rewrite elem_of_logged in Hb. destruct Hb as [Hb|Hb]; [by apply not_elem_of_nil in Hb|].
      apply list_elem_of_fmap in Hb as ([b' x] & -> & Hx). eauto. }
    rewrite Forall_forall in Hu.
    assert (Hbs : Forall (fun b => 0 <= b < sz /\ outside s b) bs).
    { apply Forall_forall. intros b Hb. destruct (Hin b Hb) as [x Hx]. apply Hu in Hx as [[? ?] _]. done. }
    assert (H1 : 1 ∉ bs) by (intros Hb; destruct (Hin 1 Hb) as [x Hx]; apply Hu in Hx as [_ Hx]; by apply Hx).
    assert (Hout : forall m, m ∉ bs -> csets (dk d) ups m = dk d m).
    { intros m Hm. apply csets_other. intros Hx. apply Hm. unfold bs. rewrite elem_of_logged. by right. }
    assert (Hcs : csets (dk d) ups s = dk d s).
    { apply Hout. intros Hb. destruct (Hin s Hb) as [x Hx]. apply Hu in Hx as [[_ Hx] _]. fold s in Hx. simpl in Hx. unfold LOGSIZE, MAXOPBLOCKS in Hx. lia. }
    destruct (commit_atomic sz p Hsz d (csets (dk d) ups) s bs Hsb Hs1 Hs2 Hbs ltac:(lia) H1 Hcs Hhl Hclear j) as [Hrun Hrec].
    split; [exact Hrun|]. intros d' Hr m Hm. rewrite (Hrec d' Hr m Hm). unfold after. destruct (j <=? _)%nat; [done|].
    case_bool_decide; [done|]. symmetry. by apply Hout.
Qed.

(** ** Reservations

    The two halves of end_op: the section under the log lock, which gives back
    whether this call has to commit, and the commit, which runs without it. *)
Definition end_op_enter : M kernel bool :=
  let! s := get in
  do! upd_log (set_outstanding (outstanding (klog s) - 1)) in
  if committing (klog s) then fail (Panic "log.committing") else
  if outstanding (klog s) - 1 =? 0 then do! upd_log (set_committing true) in ret true else ret false.

Definition end_op_commit : M kernel unit := do! commit in upd_log (set_committing false).

Lemma end_op_halves k : end_op k = (let! c := end_op_enter in if c then end_op_commit else ret tt) k.
Proof.
  unfold end_op, end_op_enter, end_op_commit, bind, get, upd_log, modify, ret, fail; simpl.
  destruct (committing (klog k)); [done|]. by destruct (_ =? 0).
Qed.

(** The blocks a call has logged, after it logs [b]. *)
Definition logs (b : Z) (u : list Z) : list Z := if decide (b ∈ u) then u else b :: u.

(** Several calls are in progress; [us] has for each of them the distinct blocks
    it has logged.  Steps of different calls interleave: a call enters the log,
    or sleeps in begin_op; any process does anything to the buffer cache
    (bread, changing the bytes of a buffer, brelse, bwrite); a call logs a block
    it has logged before, or a new one when it has logged fewer than
    MAXOPBLOCKS; a call leaves; the last one to leave commits. *)
Inductive lstep : kernel * list (list Z) -> kernel * list (list Z) -> Prop :=
  | ls_begin k k' us : begin_op k = Ok (true, k') -> lstep (k, us) (k', us ++ [[]])
  | ls_wait k k' us : begin_op k = Ok (false, k') -> lstep (k, us) (k', us)
  | ls_bio {A} (m : M state A) a k k' us : on_bio m k = Ok (a, k') -> lstep (k, us) (k', us)
  | ls_write k k' us1 u us2 i b :
      bufs (bio k) !! i = Some b -> blockno b ∈ u \/ Z.of_nat (length u) < MAXOPBLOCKS ->
      log_write i k = Ok (tt, k') -> lstep (k, us1 ++ u :: us2) (k', us1 ++ logs (blockno b) u :: us2)
  | ls_end k k' us1 u us2 c : end_op_enter k = Ok (c, k') -> lstep (k, us1 ++ u :: us2) (k', us1 ++ us2)
  | ls_commit k k' us : committing (klog k) = true -> end_op_commit k = Ok (tt, k') -> lstep (k, us) (k', us).

(** Computations that leave the log record alone. *)
Definition keeps_log {A} (m : M kernel A) : Prop := forall k a k', m k = Ok (a, k') -> klog k' = klog k.

Lemma keeps_ret {A} (a : A) : keeps_log (ret a).
Proof. by intros k b k' [= _ <-]. Qed.

Lemma keeps_bind {A B} (m : M kernel A) (f : A -> M kernel B) :
  keeps_log m -> (forall a, keeps_log (f a)) -> keeps_log (bind m f).
Proof.
  intros Hm Hf k b k'. unfold bind. destruct (m k) as [[a k1]|] eqn:E; [|done]. intros E'.
  rewrite (Hf a _ _ _ E'). by eapply Hm.
Qed.

Lemma keeps_on_bio {A} (m : M state A) : keeps_log (on_bio m).
Proof. intros k a k'. unfold on_bio, zoom. destruct (m (bio k)) as [[? ?]|]; [|done]. by intros [= _ <-]. Qed.

Lemma keeps_get : keeps_log get.
Proof. by intros k a k' [= _ <-]. Qed.

Lemma keeps_get_block i : keeps_log (get_block i).
Proof. apply keeps_bind; [apply keeps_get|]. intros k0 k a k'. destruct (znth _ i); [by intros [= _ <-]|done]. Qed.

#[local] Hint Resolve keeps_ret keeps_bind keeps_on_bio keeps_get keeps_get_block : core.

Lemma keeps_write_blocks n : forall i b, keeps_log (write_blocks n i b).
Proof. induction n as [|n IH]; intros i b; cbn [write_blocks]; [auto|]. unfold buf_update. auto. Qed.

Lemma keeps_write_head : keeps_log write_head.
Proof.
  unfold write_head, bread_, buf_update, bwrite_, brelse_. apply keeps_bind; [auto|]. intros s.
  repeat (apply keeps_bind; [auto using keeps_write_blocks|intros ?]). auto.
Qed.

(** The log's other fields, and whether it is empty, after a commit. *)
Definition after_commit (l l' : log) : Prop :=
  lh_n l' = (if 0 <? lh_n l then 0 else lh_n l) /\ outstanding l' = outstanding l /\ size l' = size l /\ committing l' = committing l /\ lh_block l' = lh_block l.

Lemma keeps_copy_loops n : forall i, keeps_log (write_log_from n i) /\ keeps_log (install_from n i).
Proof.
  induction n as [|n IH]; intros i; split; cbn [write_log_from install_from]; auto;
    unfold bread_, copy_block, buf_data, buf_update, bwrite_, brelse_;
    (apply keeps_bind; [auto|]); intros s; cbv zeta; repeat (apply keeps_bind; [auto|intros ?]); try apply IH; auto 6.
Qed.

Lemma commit_log k k' : commit k = Ok (tt, k') -> after_commit (klog k) (klog k').
Proof.
  unfold commit, after_commit. unfold bind at 1, get. destruct (0 <? lh_n (klog k)).
  - intros E. unfold bind at 1 in E. destruct (write_log k) as [[[] k1]|] eqn:E1; [|done].
    assert (H1 : klog k1 = klog k) by (unfold write_log, bind, get in E1; by apply keeps_copy_loops in E1).
    unfold bind at 1 in E. destruct (write_head k1) as [[[] k2]|] eqn:E2; [|done]. apply keeps_write_head in E2.
    unfold bind at 1 in E. destruct (install_trans k2) as [[[] k3]|] eqn:E3; [|done].
    assert (H3 : klog k3 = klog k2) by (unfold install_trans, bind, get in E3; by apply keeps_copy_loops in E3).
    unfold bind, upd_log, modify in E. apply keeps_write_head in E. rewrite E. simpl. by rewrite H3, E2, H1.
  - by intros [= <-].
Qed.

(** What the calls in progress may still log. *)
Fixpoint reserved (us : list (list Z)) : Z :=
  match us with [] => 0 | u :: us => MAXOPBLOCKS - Z.of_nat (length u) + reserved us end.

(** Block [b] is in the log. *)
Definition in_log (l : log) (b : Z) : Prop := exists j : nat, Z.of_nat j < lh_n l /\ lh_block l !! j = Some b.

Record reservation (size0 : Z) (k : kernel) (us : list (list Z)) : Prop := {
  r_out : outstanding (klog k) = Z.of_nat (length us);
  r_com : committing (klog k) = true -> us = [];
  r_size : size (klog k) = size0;
  r_n : 0 <= lh_n (klog k);
  r_len : length (lh_block (klog k)) = Z.to_nat LOGSIZE;
  r_us : Forall (fun u => Z.of_nat (length u) <= MAXOPBLOCKS /\ Forall (in_log (klog k)) u) us;
  r_room : lh_n (klog k) + reserved us <= LOGSIZE
}.

Lemma reserved_app us us' : reserved (us ++ us') = reserved us + reserved us'.
Proof. induction us as [|u us IH]; simpl; [done|]. lia. Qed.

Lemma reserved_bound us : Forall (fun u => Z.of_nat (length u) <= MAXOPBLOCKS) us -> 0 <= reserved us <= MAXOPBLOCKS * Z.of_nat (length us).
Proof. induction 1 as [|u us Hu Hus IH]; simpl; [lia|]. unfold MAXOPBLOCKS in *. lia. Qed.

(** A block among the first [k] is found, and an index below [i + k] holds it. *)
Lemma absorb_hit bs n k : forall i,
  (i <= absorb bs n k i <= i + k)%nat /\ ((absorb bs n k i < i + k)%nat -> bs !! absorb bs n k i = Some n) /\
  forall j, (i <= j < i + k)%nat -> bs !! j = Some n -> (absorb bs n k i < i + k)%nat.
Proof.
  induction k as [|k IH]; intros i; simpl; [repeat split; intros; lia|]. destruct (bool_decide_reflect (bs !! i = Some n)) as [E|E];
    [split; [lia|split; intros; [done|lia]]|].
  destruct (IH (S i)) as (H1 & H2 & H3). split; [lia|]. split; [intros; apply H2; lia|].
  intros j Hj Ej. assert (i <> j) by (by intros ->). specialize (H3 j ltac:(lia) Ej). lia.
Qed.

(** The log record after a log_write: the block is in the log, no other block
    leaves it, and it grows only by a block that was not there. *)
Lemma log_write_log i b k k' :
  bufs (bio k) !! i = Some b -> log_write i k = Ok (tt, k') -> 0 <= lh_n (klog k) ->
  outstanding (klog k') = outstanding (klog k) /\ committing (klog k') = committing (klog k) /\ size (klog k') = size (klog k) /\
  length (lh_block (klog k')) = length (lh_block (klog k)) /\
  lh_n (klog k) <= lh_n (klog k') <= lh_n (klog k) + 1 /\ (in_log (klog k) (blockno b) -> lh_n (klog k') = lh_n (klog k)) /\
  in_log (klog k') (blockno b) /\ forall x, in_log (klog k) x -> in_log (klog k') x.
Proof.
  unfold log_write. unfold bind at 1, get. cbv zeta. intros Eb E Hn. destruct (_ || _) in E; [done|]. destruct (_ <? 1) in E; [done|].
  unfold bind at 1, on_bio at 1, zoom, get_buf, bind at 1, get, of_option in E. rewrite Eb in E. cbn [ret] in E.
  set (n := Z.to_nat (lh_n (klog k))) in *. destruct (absorb_hit (lh_block (klog k)) (blockno b) n 0) as (Hj & Hhit & Hfind).
  set (j := absorb _ _ _ _) in *. unfold bind at 1, put_block, upd_log, bind, get, of_option in E.
  destruct (zupd _ _ _) as [bs|] eqn:Ez in E; [|done]. apply zupd_Some in Ez as [Hlt ->]. rewrite Nat2Z.id in *. cbn [klog] in *.
  unfold modify, ret, fail in E.
  assert (Hself : <[j := blockno b]> (lh_block (klog k)) !! j = Some (blockno b)) by (apply list_lookup_insert_eq; lia).
  assert (Hold : forall x j', (j' < n)%nat -> lh_block (klog k) !! j' = Some x -> <[j := blockno b]> (lh_block (klog k)) !! j' = Some x).
  { intros x j' Hj' Ex. destruct (decide (j = j')) as [<-|]; [|by rewrite list_lookup_insert_ne].
    rewrite Hself, <- Ex. symmetry. apply Hhit. lia. }
  destruct (Z.eqb_spec (Z.of_nat j) (lh_n (klog k))) as [Ej|Ej]; apply keeps_on_bio in E; rewrite E; simpl; (repeat split; rewrite ?length_insert; try lia).
  - intros (j' & Hj' & Ex). specialize (Hfind j' ltac:(lia) Ex). lia.
  - exists j. simpl. split; [lia|done].
  - intros x (j' & Hj' & Ex). exists j'. simpl. split; [lia|]. apply Hold; [lia|done].
  - exists j. simpl. split; [lia|done].
  - intros x (j' & Hj' & Ex). exists j'. simpl. split; [lia|]. apply Hold; [lia|done].
Qed.

(** With room in the log, inside a call, any buffer can be logged. *)
Lemma log_write_in i b k :
  bufs (bio k) !! i = Some b -> 0 <= lh_n (klog k) -> lh_n (klog k) < LOGSIZE -> lh_n (klog k) < size (klog k) - 1 ->
  1 <= outstanding (klog k) -> lh_n (klog k) < Z.of_nat (length (lh_block (klog k))) -> exists k', log_write i k = Ok (tt, k').
Proof.
  intros Eb H0 H1 H2 H3 H4. unfold log_write, bind at 1, get. cbv zeta.
  rewrite (proj2 (orb_false_iff _ _)) by lia. rewrite (proj2 (Z.ltb_ge _ _)) by lia.
  unfold on_bio, zoom, get_buf, put_block, upd_log, bind, get, of_option, modify, ret, fail, upd_buf. rewrite Eb. cbn [klog].
  destruct (absorb_hit (lh_block (klog k)) (blockno b) (Z.to_nat (lh_n (klog k))) 0) as (Hj & _).
  rewrite zupd_in by lia. destruct (_ =? _); simpl; rewrite ?Eb; eauto.
Qed.

Lemma sized (P : Z -> Prop) us :
  Forall (fun u => Z.of_nat (length u) <= MAXOPBLOCKS /\ Forall P u) us -> Forall (fun u => Z.of_nat (length u) <= MAXOPBLOCKS) us.
Proof. intros H. eapply Forall_impl; [exact H|]. by intros u []. Qed.

Lemma ls_begin_ok s0 k k' us : reservation s0 k us -> begin_op k = Ok (true, k') -> reservation s0 k' (us ++ [[]]).
Proof.
  intros [Ho Hc Hs Hn Hlen Hu Hb]. unfold begin_op, bind, get. destruct (committing (klog k)) eqn:Ec; [done|]. cbv zeta.
  destruct (Z.ltb_spec LOGSIZE (lh_n (klog k) + (outstanding (klog k) + 1) * MAXOPBLOCKS)); [done|].
  unfold upd_log, modify, ret. intros [= <-]. pose proof (reserved_bound _ (sized _ _ Hu)).
  split; simpl; rewrite ?length_app, ?reserved_app; simpl; [lia|congruence|done|done|done| |unfold MAXOPBLOCKS in *; lia].
  apply Forall_app. split; [exact Hu|]. repeat constructor. unfold MAXOPBLOCKS. simpl. lia.
Qed.

Lemma begin_op_waits k k' : begin_op k = Ok (false, k') -> k' = k.
Proof. unfold begin_op, bind, get. destruct (committing (klog k)); [by intros [= <-]|]. cbv zeta. destruct (_ <? _); [by intros [= <-]|done]. Qed.

Lemma ls_write_ok s0 k k' us1 u us2 i b :
  reservation s0 k (us1 ++ u :: us2) -> bufs (bio k) !! i = Some b -> blockno b ∈ u \/ Z.of_nat (length u) < MAXOPBLOCKS ->
  log_write i k = Ok (tt, k') -> reservation s0 k' (us1 ++ logs (blockno b) u :: us2).
Proof.
  intros [Ho Hc Hs Hn Hlen Hu Hb] Eb Hr E. destruct (log_write_log i b k k' Eb E Hn) as (E1 & E2 & E3 & El & E4 & E5 & E6 & E7).
  apply Forall_app in Hu as [Hu1 Hu2]. apply Forall_cons in Hu2 as [[Hl Hin] Hu2].
  assert (Hmono : forall vs, Forall (fun u => Z.of_nat (length u) <= MAXOPBLOCKS /\ Forall (in_log (klog k)) u) vs ->
            Forall (fun u => Z.of_nat (length u) <= MAXOPBLOCKS /\ Forall (in_log (klog k')) u) vs).
  { intros vs H. eapply Forall_impl; [exact H|]. intros v [? Hv]. split; [done|]. eapply Forall_impl; [exact Hv|]. apply E7. }
  assert (Hlogs : lh_n (klog k') + Z.of_nat (length u) <= lh_n (klog k) + Z.of_nat (length (logs (blockno b) u)) /\
                  Z.of_nat (length (logs (blockno b) u)) <= MAXOPBLOCKS).
  { unfold logs. destruct (decide (blockno b ∈ u)) as [Hin'|Hin']; [|simpl; destruct Hr; [done|lia]].
    rewrite E5; [lia|]. rewrite Forall_forall in Hin. by apply Hin. }
  rewrite length_app, reserved_app in *. simpl in *.
  split; rewrite ?E1, ?E2, ?E3, ?El, ?length_app, ?reserved_app; simpl; [lia| |done|lia|done| |lia].
  - intros Hcom. destruct us1; discriminate (Hc Hcom).
  - apply Forall_app. split; [by apply Hmono|]. constructor; [|by apply Hmono]. split; [lia|].
    assert (Hv : Forall (in_log (klog k')) u) by (eapply Forall_impl; [exact Hin|]; apply E7).
    unfold logs. destruct (decide (blockno b ∈ u)); [done|by constructor].
Qed.

Lemma ls_end_ok s0 k k' us1 u us2 c :
  reservation s0 k (us1 ++ u :: us2) -> end_op_enter k = Ok (c, k') -> reservation s0 k' (us1 ++ us2).
Proof.
  intros [Ho Hc Hs Hn Hlen Hu Hb]. unfold end_op_enter, upd_log, bind, get, modify, ret, fail.
  destruct (committing (klog k)) eqn:Ec; [done|]. apply Forall_app in Hu as [Hu1 Hu2]. apply Forall_cons in Hu2 as [[Hl _] Hu2].
  assert (Hu' := Forall_app_2 _ _ _ Hu1 Hu2). rewrite length_app, reserved_app in *. simpl in *.
  destruct (Z.eqb_spec (outstanding (klog k) - 1) 0) as [E|E]; intros [= _ <-];
    (split; simpl; rewrite ?length_app, ?reserved_app; [lia| |done|done|done|exact Hu'|lia]); [|congruence].
  intros _. apply length_zero_iff_nil. rewrite length_app. lia.
Qed.

Lemma ls_commit_ok s0 k k' us :
  reservation s0 k us -> committing (klog k) = true -> end_op_commit k = Ok (tt, k') -> reservation s0 k' us.
Proof.
  intros [Ho Hc Hs Hn Hlen _ Hb] Hcom. rewrite (Hc Hcom) in *. unfold end_op_commit, upd_log, bind, modify.
  destruct (commit k) as [[[] k1]|] eqn:Ek; [|done]. intros [= <-]. apply commit_log in Ek as (E1 & E2 & E3 & E4 & E5).
  split; simpl; rewrite ?E1, ?E2, ?E3, ?E5; [done|done|done| |done|constructor|]; destruct (Z.ltb_spec 0 (lh_n (klog k))); simpl in *; unfold LOGSIZE, MAXOPBLOCKS in *; lia.
Qed.

Lemma reservation_step s0 x y : lstep x y -> reservation s0 (fst x) (snd x) -> reservation s0 (fst y) (snd y).
Proof.
  intros Hst R. inversion Hst; subst; simpl in *.
  - by eapply ls_begin_ok.
  - match goal with H : begin_op _ = _ |- _ => apply begin_op_waits in H as -> end. done.
  - match goal with H : on_bio _ _ = _ |- _ => apply keeps_on_bio in H as Ek end. destruct R as [Ho Hc Hs Hn Hlen Hu Hb]. by split; rewrite ?Ek.
  - by eapply ls_write_ok.
  - by eapply ls_end_ok.
  - by eapply ls_commit_ok.
Qed.

Lemma reservation_run s0 x y : rtc lstep x y -> reservation s0 (fst x) (snd x) -> reservation s0 (fst y) (snd y).
Proof. induction 1 as [|x y z Hst _ IH]; [done|]. intros R. by eapply IH, reservation_step. Qed.

Lemma reservation_boot k : outstanding (klog k) = 0 -> committing (klog k) = false -> lh_n (klog k) = 0 ->
  length (lh_block (klog k)) = Z.to_nat LOGSIZE -> reservation (size (klog k)) k [].
Proof. intros Ho Hc Hn Hl. split; rewrite ?Ho, ?Hc, ?Hn; simpl; [done|done|done|lia|done|constructor|unfold LOGSIZE, MAXOPBLOCKS; lia]. Qed.


(** ** Witnesses *)

(** A disk with a superblock: the log starts at block 2 and has 30 blocks. *)
Definition demo_disk : gmap Z (list Z) := {[1 := put32 (put32 zero_block off_logstart 2) off_nlog 30]}.
Definition demo_log : log := mk_log 2 30 0 false 1 0 (replicate (Z.to_nat LOGSIZE) 0).
Definition demo_kernel : kernel :=
  mk_kernel (mk_state (replicate (Z.to_nat NBUF) zero_buf) (reverse (seq 0 (Z.to_nat NBUF))) demo_disk 1000 [] 1) demo_log.
Definition demo_ups : list (Z * list Z) := [(50, replicate (Z.to_nat BSIZE) 7); (60, replicate (Z.to_nat BSIZE) 8)].

Lemma demo_idle : idle 1000 demo_kernel demo_disk [] demo_log.
Proof.
  split; [|unfold log_ok; split; [done|]; split; [done|]; split; [done|apply length_replicate]|done|done|done].
  split; [apply rep_empty|done|done|done|done].
Qed.

Lemma transaction_crash_atomic_witness :
  exists k' W, transaction demo_ups demo_kernel = Ok (tt, k') /\ writes (bio k') = [] ++ W /\ memdisk (bio k') = apply_writes demo_disk W /\
    forall j, (exists kr, recover 1000 1 (apply_writes demo_disk (take j W)) = Ok (tt, kr)) /\
      forall d', recovers 1000 1 (apply_writes demo_disk (take j W)) d' -> forall m, outside 2 m ->
        dk d' m = if (j <=? length (logged [] demo_ups))%nat then dk demo_disk m else csets (dk demo_disk) demo_ups m.
Proof.
  apply (transaction_crash_atomic 1000 1 demo_kernel demo_disk [] demo_log demo_ups).
  - lia.
  - apply demo_idle.
  - vm_compute. reflexivity.
  - simpl. lia.
  - vm_compute. reflexivity.
  - split; [vm_compute; reflexivity|done].
  - repeat constructor; vm_compute; intuition discriminate.
  - vm_compute. reflexivity.
  - vm_compute. reflexivity.
Defined.

(** Call [c] of those in progress reads block [b], logs it and lets it go. *)
Definition demo_op (x : kernel * list (list Z)) (c : nat) (b : Z) : option (kernel * list (list Z)) :=
  match snd x !! c, bread_ 1 b (fst x) with
  | Some u, Ok (i, k1) =>
      match bufs (bio k1) !! i, log_write i k1 with
      | Some bf, Ok (_, k2) =>
          match brelse_ i k2 with
          | Ok (_, k3) =>
              if bool_decide (blockno bf ∈ u \/ Z.of_nat (length u) < MAXOPBLOCKS) then
                Some (k3, take c (snd x) ++ logs (blockno bf) u :: drop (S c) (snd x)) else None
          | Err _ => None
          end
      | _, _ => None
      end
  | _, _ => None
  end.

Lemma demo_op_run x c b y : demo_op x c b = Some y -> rtc lstep x y.
Proof.
  destruct x as [k us]. unfold demo_op. cbn [fst snd]. destruct (us !! c) as [u|] eqn:Eu; [|done].
  destruct (bread_ 1 b k) as [[i k1]|] eqn:E1; [|done]. destruct (bufs (bio k1) !! i) as [bf|] eqn:Eb; [|done].
  destruct (log_write i k1) as [[[] k2]|] eqn:E2; [|done]. destruct (brelse_ i k2) as [[[] k3]|] eqn:E3; [|done].
  case_bool_decide as Hu; [|done]. intros [= <-]. rewrite <- (take_drop_middle us c u Eu) at 1.
  eapply rtc_l; [by eapply ls_bio, E1|]. eapply rtc_l; [by eapply ls_write|]. apply rtc_once. by eapply ls_bio, E3.
Qed.

Fixpoint demo_ops (x : kernel * list (list Z)) (l : list (nat * Z)) : option (kernel * list (list Z)) :=
  match l with
  | [] => Some x
  | (c, b) :: l => match demo_op x c b with Some y => demo_ops y l | None => None end
  end.

Lemma demo_ops_run l : forall x y, demo_ops x l = Some y -> rtc lstep x y.
Proof.
  induction l as [|[c b] l IH]; intros x y; cbn [demo_ops]; [by intros [= ->]|].
  destruct (demo_op x c b) eqn:E; [|done]. intros H. etrans; [by eapply demo_op_run|by apply IH].
Qed.

(** Three calls that take turns; they log 29 different blocks and one of them
    again. *)
Definition demo_turns : list (nat * Z) :=
  let turn i := ((i mod 3)%nat, 50 + Z.of_nat i) in map turn (seq 0 9) ++ [(0%nat, 53)] ++ map turn (seq 9 20).
Definition demo_sized (n : Z) : kernel := mk_kernel (bio demo_kernel) (mk_log 2 n 0 false 1 0 (replicate (Z.to_nat LOGSIZE) 0)).
Definition demo_three (n : Z) : kernel := mk_kernel (bio demo_kernel) (set_outstanding 3 (klog (demo_sized n))).
Definition demo_full (n : Z) : kernel * list (list Z) := default (demo_kernel, []) (demo_ops (demo_three n, [[]; []; []]) demo_turns).

Lemma demo_three_run n : rtc lstep (demo_sized n, []) (demo_three n, [[]; []; []]).
Proof.
  eapply rtc_l; [by apply (ls_begin _ (mk_kernel (bio demo_kernel) (set_outstanding 1 (klog (demo_sized n)))) [])|].
  eapply rtc_l; [by apply (ls_begin _ (mk_kernel (bio demo_kernel) (set_outstanding 2 (klog (demo_sized n)))) [[]])|].
  apply rtc_once. by apply (ls_begin _ (demo_three n) [[]; []]).
Qed.

Lemma demo_full_run n : n = 30 \/ n = 31 -> rtc lstep (demo_sized n, []) (demo_full n).
Proof.
  intros Hn. etrans; [apply demo_three_run|]. apply (demo_ops_run demo_turns). unfold demo_full.
  destruct Hn as [-> | ->]; vm_compute; reflexivity.
Qed.

(** The check at the head of log_write asks for a block more than the log needs:
    with the LOGSIZE blocks mkfs reserves for it, three calls that each log at
    most MAXOPBLOCKS different blocks reach a log_write that panics. *)
Theorem log_write_off_by_one :
  exists k us (u : list Z) (i : nat) (b : buf), size (klog demo_kernel) = LOGSIZE /\ rtc lstep (demo_kernel, []) (k, us) /\ u ∈ us /\
    Z.of_nat (length u) < MAXOPBLOCKS /\ bufs (bio k) !! i = Some b /\ blockno b ∉ u /\ log_write i k = Err (Panic "too big a transaction").
Proof.
  exists (fst (demo_full 30)), (snd (demo_full 30)), [76; 73; 70; 67; 64; 61; 58; 55; 52], 0%nat.
  destruct (bufs (bio (fst (demo_full 30))) !! 0%nat) as [b|] eqn:Eb; [|vm_compute in Eb; discriminate]. exists b.
  split; [done|]. split; [rewrite <- surjective_pairing; by apply (demo_full_run 30); left|].
  split; [vm_compute; repeat (apply list_elem_of_here || apply list_elem_of_further)|]. split; [done|]. split; [done|].
  split; [|vm_compute; reflexivity]. revert Eb. vm_compute. intros [= <-]. set_solver.
Qed.

End Log.
