(* ===== verification/XString.v ===== *)
(** * XString: byte strings in the memory of xv6

    string.c (module [Kstring], the kernel's routines), ulib.c (module [Ulib],
    those of user programs) and the string instructions of x86.h they use.
    Memory maps the addresses a program may access to bytes; any other access
    faults.  Loops over a C string take as fuel one more than the size of
    memory: a string that ends is shorter than that. *)
From stdpp Require Import base list gmap strings.
From Stdlib Require Import ZArith Lia.
From S2P Require Import Prelude Cstr.

Module XString.

Notation mem := (gmap Z Z).

Definition load (a : Z) : M mem Z := let! m := get in of_option OutOfBounds (m !! a).
Definition store (a v : Z) : M mem unit :=
  let! m := get in
  match m !! a with
  | Some _ => put (<[a := u8 v]> m)
  | None => fail OutOfBounds
  end.

(** Fuel for a loop that looks for the end of a string. *)
Definition mem_fuel : M mem nat := let! m := get in ret (S (base.size m)).

(** ** x86.h *)

Fixpoint stosb (addr data : Z) (cnt : nat) : M mem unit :=
  match cnt with
  | O => ret tt
  | S cnt => do! store addr data in stosb (addr + 1) data cnt
  end.

(** The word is stored with its low byte first. *)
Fixpoint stosl (addr data : Z) (cnt : nat) : M mem unit :=
  match cnt with
  | O => ret tt
  | S cnt =>
      do! store addr data in
      do! store (addr + 1) (Z.shiftr data 8) in
      do! store (addr + 2) (Z.shiftr data 16) in
      do! store (addr + 3) (Z.shiftr data 24) in
      stosl (addr + 4) data cnt
  end.

(** ** string.c *)

Module Kstring.

Definition memset (dst c n : Z) : M mem Z :=
  do! (if (dst mod 4 =? 0) && (n mod 4 =? 0) then
         let c := Z.land c 255 in
         stosl dst (Z.lor (Z.lor (Z.lor (Z.shiftl c 24) (Z.shiftl c 16)) (Z.shiftl c 8)) c) (Z.to_nat (n / 4))
       else stosb dst c (Z.to_nat n)) in
  ret dst.

Fixpoint memcmp_loop (n : nat) (s1 s2 : Z) : M mem Z :=
  match n with
  | O => ret 0
  | S n =>
      let! a := load s1 in
      let! b := load s2 in
      if negb (a =? b) then ret (a - b) else memcmp_loop n (s1 + 1) (s2 + 1)
  end.
Definition memcmp (v1 v2 n : Z) : M mem Z := memcmp_loop (Z.to_nat n) v1 v2.

(** The copy that goes down from the ends. *)
Fixpoint copy_down (n : nat) (d s : Z) : M mem unit :=
  match n with
  | O => ret tt
  | S n =>
      let! c := load (s - 1) in
      do! store (d - 1) c in
      copy_down n (d - 1) (s - 1)
  end.
Fixpoint copy_up (n : nat) (d s : Z) : M mem unit :=
  match n with
  | O => ret tt
  | S n =>
      let! c := load s in
      do! store d c in
      copy_up n (d + 1) (s + 1)
  end.
Definition memmove (dst src n : Z) : M mem Z :=
  do! (if (src <? dst) && (dst <? src + n) then copy_down (Z.to_nat n) (dst + n) (src + n)
       else copy_up (Z.to_nat n) dst src) in
  ret dst.

Definition memcpy (dst src n : Z) : M mem Z := memmove dst src n.

Fixpoint strncmp_loop (n : nat) (p q : Z) : M mem Z :=
  match n with
  | O => ret 0
  | S n =>
      let! a := load p in
      let! b := load q in
      if negb (a =? 0) && (a =? b) then strncmp_loop n (p + 1) (q + 1) else ret (a - b)
  end.
Definition strncmp (p q n : Z) : M mem Z := strncmp_loop (Z.to_nat n) p q.

(** The copying loop of strncpy gives back where it stopped and how many bytes
    are left to pad. *)
Fixpoint strncpy_copy (n : nat) (s t : Z) : M mem (Z * nat) :=
  match n with
  | O => ret (s, O)
  | S n =>
      let! c := load t in
      do! store s c in
      if c =? 0 then ret (s + 1, n) else strncpy_copy n (s + 1) (t + 1)
  end.
Fixpoint strncpy_pad (n : nat) (s : Z) : M mem unit :=
  match n with
  | O => ret tt
  | S n => do! store s 0 in strncpy_pad n (s + 1)
  end.
Definition strncpy (s t n : Z) : M mem Z :=
  let! '(s', n') := strncpy_copy (Z.to_nat n) s t in
  do! strncpy_pad n' s' in
  ret s.

Definition safestrcpy (s t n : Z) : M mem Z :=
  if n <=? 0 then ret s else
  let! '(s', _) := strncpy_copy (Z.to_nat (n - 1)) s t in
  do! store s' 0 in
  ret s.

Fixpoint strlen_loop (fuel : nat) (s n : Z) : M mem Z :=
  match fuel with
  | O => fail OutOfFuel
  | S fuel =>
      let! c := load (s + n) in
      if c =? 0 then ret n else let! n := chk_int (n + 1) in strlen_loop fuel s n
  end.
Definition strlen (s : Z) : M mem Z := let! fuel := mem_fuel in strlen_loop fuel s 0.

End Kstring.

(** ** ulib.c *)

Module Ulib.

Fixpoint strcpy_loop (fuel : nat) (s t : Z) : M mem unit :=
  match fuel with
  | O => fail OutOfFuel
  | S fuel =>
      let! c := load t in
      do! store s c in
      if c =? 0 then ret tt else strcpy_loop fuel (s + 1) (t + 1)
  end.
Definition strcpy (s t : Z) : M mem Z :=
  let! fuel := mem_fuel in
  do! strcpy_loop fuel s t in
  ret s.

Fixpoint strcmp_loop (fuel : nat) (p q : Z) : M mem Z :=
  match fuel with
  | O => fail OutOfFuel
  | S fuel =>
      let! a := load p in
      let! b := load q in
      if negb (a =? 0) && (a =? b) then strcmp_loop fuel (p + 1) (q + 1) else ret (a - b)
  end.
Definition strcmp (p q : Z) : M mem Z := let! fuel := mem_fuel in strcmp_loop fuel p q.

Fixpoint strlen_loop (fuel : nat) (s n : Z) : M mem Z :=
  match fuel with
  | O => fail OutOfFuel
  | S fuel =>
      let! c := load (s + n) in
      if c =? 0 then ret n else let! n := chk_int (n + 1) in strlen_loop fuel s n
  end.
Definition strlen (s : Z) : M mem Z := let! fuel := mem_fuel in strlen_loop fuel s 0.

Definition memset (dst c n : Z) : M mem Z :=
  do! stosb dst c (Z.to_nat n) in
  ret dst.

Fixpoint strchr_loop (fuel : nat) (s c : Z) : M mem (option Z) :=
  match fuel with
  | O => fail OutOfFuel
  | S fuel =>
      let! d := load s in
      if d =? 0 then ret None
      else if d =? c then ret (Some s)
      else strchr_loop fuel (s + 1) c
  end.
Definition strchr (s c : Z) : M mem (option Z) := let! fuel := mem_fuel in strchr_loop fuel s c.

Definition isdigit (c : Z) : bool := (48 <=? c) && (c <=? 57).

Fixpoint atoi_loop (fuel : nat) (s n : Z) : M mem Z :=
  match fuel with
  | O => fail OutOfFuel
  | S fuel =>
      let! c := load s in
      if isdigit c then
        let! m := chk_int (n * 10) in
        let! m := chk_int (m + c) in
        let! m := chk_int (m - 48) in
        atoi_loop fuel (s + 1) m
      else ret n
  end.
Definition atoi (s : Z) : M mem Z := let! fuel := mem_fuel in atoi_loop fuel s 0.

Fixpoint memmove_loop (n : nat) (dst src : Z) : M mem unit :=
  match n with
  | O => ret tt
  | S n =>
      let! c := load src in
      do! store dst c in
      memmove_loop n (dst + 1) (src + 1)
  end.
Definition memmove (vdst vsrc n : Z) : M mem Z :=
  do! memmove_loop (Z.to_nat n) vdst vsrc in
  ret vdst.

(** gets reads standard input, [inp], one byte at a time. *)
Definition on_mem {A} (m : M mem A) : M (mem * list Z) A :=
  zoom fst (fun s t => (s, snd t)) m.
Definition read1 : M (mem * list Z) (option Z) :=
  let! '(m, inp) := get in
  match inp with
  | [] => ret None
  | c :: inp => do! put (m, inp) in ret (Some c)
  end.
Fixpoint gets_loop (fuel : nat) (buf i max : Z) : M (mem * list Z) Z :=
  match fuel with
  | O => ret i
  | S fuel =>
      if i + 1 <? max then
        let! cc := read1 in
        match cc with
        | None => ret i
        | Some c =>
            do! on_mem (store (buf + i) c) in
            if (c =? 10) || (c =? 13) then ret (i + 1) else gets_loop fuel buf (i + 1) max
        end
      else ret i
  end.
Definition gets (buf max : Z) : M (mem * list Z) Z :=
  let! i := gets_loop (Z.to_nat max) buf 0 max in
  do! on_mem (store (buf + i) 0) in
  ret buf.

End Ulib.

(** ** Byte sequences in memory *)

(** The bytes [l] are at address [a]. *)
Definition holds (m : mem) (a : Z) (l : list Z) : Prop :=
  forall i x, l !! i = Some x -> m !! (a + Z.of_nat i) = Some x.

(** A C string: its characters and the terminating zero. *)
Definition cstring (m : mem) (a : Z) (l : list Z) : Prop :=
  holds m a (l ++ [0]) /\ Forall (fun c => is_char c = true) l.

(** The [n] bytes at [a] may be accessed. *)
Definition mapped (m : mem) (a : Z) (n : nat) : Prop :=
  forall k, a <= k < a + Z.of_nat n -> is_Some (m !! k).

(** Memory after the bytes [l] are written at [a]. *)
Fixpoint wr (a : Z) (l : list Z) (m : mem) : mem :=
  match l with
  | [] => m
  | x :: l => wr (a + 1) l (<[a := x]> m)
  end.

Definition is_byte (c : Z) : bool := (0 <=? c) && (c <=? 255).
Definition bytes (l : list Z) : Prop := Forall (fun c => is_byte c = true) l.

Section byte_lists.
Implicit Types (m : mem) (l : list Z).

Lemma holds_cons m a x l : holds m a (x :: l) <-> m !! a = Some x /\ holds m (a + 1) l.
Proof.
  split.
  - intros H. split; [pose proof (H O x eq_refl) as E; by rewrite Z.add_0_r in E|].
    intros i y Hy. specialize (H (S i) y Hy). by replace (a + 1 + Z.of_nat i) with (a + Z.of_nat (S i)) by lia.
  - intros [H0 H] [|i] y Hy; [injection Hy as ->; by rewrite Z.add_0_r|].
    specialize (H i y Hy). by replace (a + Z.of_nat (S i)) with (a + 1 + Z.of_nat i) by lia.
Qed.

Lemma holds_app m a l l' : holds m a (l ++ l') <-> holds m a l /\ holds m (a + Z.of_nat (length l)) l'.
Proof.
  revert a. induction l as [|x l IH]; intros a; simpl.
  - rewrite Z.add_0_r. split; [by intros; split|by intros [_ ?]].
  - rewrite !holds_cons, IH. replace (a + 1 + Z.of_nat (length l)) with (a + Z.of_nat (S (length l))) by lia. tauto.
Qed.

Lemma holds_mapped m a l : holds m a l -> mapped m a (length l).
Proof.
  intros H k Hk. destruct (lookup_lt_is_Some_2 l (Z.to_nat (k - a))) as [x Hx]; [lia|].
  exists x. rewrite <- (H _ _ Hx). f_equal. lia.
Qed.

Lemma mapped_S m a n : mapped m a (S n) <-> is_Some (m !! a) /\ mapped m (a + 1) n.
Proof.
  split; [intros H; split; [apply H; lia|intros k Hk; apply H; lia]|].
  intros [H0 H] k Hk. destruct (Z.eq_dec k a) as [->|]; [done|apply H; lia].
Qed.

Lemma mapped_holds m a n : mapped m a n -> exists l, length l = n /\ holds m a l.
Proof.
  revert a. induction n as [|n IH]; intros a H; [by exists []|].
  apply mapped_S in H as [[x Hx] H]. destruct (IH _ H) as (l & Hl & Hh).
  exists (x :: l). split; [simpl; lia|]. by apply holds_cons.
Qed.

Lemma mapped_insert m a n k x : mapped m a n -> mapped (<[k := x]> m) a n.
Proof. intros H j Hj. apply lookup_insert_is_Some'. right. by apply H. Qed.

Lemma holds_insert_ne m a l k x : (k < a \/ a + Z.of_nat (length l) <= k) -> holds m a l -> holds (<[k := x]> m) a l.
Proof.
  intros Hk H i y Hy. assert (i < length l)%nat by (by eapply lookup_lt_Some).
  rewrite lookup_insert_ne by lia. by apply H.
Qed.

Lemma lookup_wr l : forall a m k,
  wr a l m !! k = if (a <=? k) && (k <? a + Z.of_nat (length l)) then l !! Z.to_nat (k - a) else m !! k.
Proof.
  induction l as [|x l IH]; intros a m k; simpl.
  - case_match; [lia|done].
  - rewrite IH. destruct (Z.eq_dec k a) as [->|].
    + rewrite (proj2 (Z.leb_gt (a + 1) a)) by lia. simpl. rewrite lookup_insert_eq.
      case_match; [|lia]. by rewrite Z.sub_diag.
    + rewrite lookup_insert_ne by done. repeat case_match; try lia; [|done].
      replace (Z.to_nat (k - a)) with (S (Z.to_nat (k - (a + 1)))) by lia. done.
Qed.

Lemma wr_holds a l m : holds (wr a l m) a l.
Proof.
  intros i x Hx. assert (i < length l)%nat by (by eapply lookup_lt_Some).
  rewrite lookup_wr. case_match; [|lia]. rewrite <- Hx. f_equal. lia.
Qed.

Lemma wr_other a l m b l' :
  (b + Z.of_nat (length l') <= a \/ a + Z.of_nat (length l) <= b) -> holds m b l' -> holds (wr a l m) b l'.
Proof.
  intros Hd H i x Hx. assert (i < length l')%nat by (by eapply lookup_lt_Some).
  rewrite lookup_wr. case_match; [lia|]. by apply H.
Qed.

Lemma wr_mapped a l m b n : mapped m b n -> mapped (wr a l m) b n.
Proof.
  intros H k Hk. rewrite lookup_wr. case_match; [|by apply H]. apply lookup_lt_is_Some_2. lia.
Qed.

Lemma wr_app a l l' m : wr a (l ++ l') m = wr (a + Z.of_nat (length l)) l' (wr a l m).
Proof.
  revert a m. induction l as [|x l IH]; intros a m; simpl; [by rewrite Z.add_0_r|].
  rewrite IH. f_equal. lia.
Qed.

Lemma wr_snoc a l x m : wr a (l ++ [x]) m = <[a + Z.of_nat (length l) := x]> (wr a l m).
Proof. by rewrite wr_app. Qed.

(** The bytes of a string fit in memory. *)
Lemma holds_size m a l : holds m a l -> (length l <= base.size m)%nat.
Proof.
  intros H. rewrite <- size_dom.
  set (ks := map (fun i => a + Z.of_nat i) (seq 0 (length l))).
  assert (HN : NoDup ks).
  { apply NoDup_fmap_2; [intros i j; lia|]. apply NoDup_seq. }
  replace (length l) with (length ks) by (unfold ks; by rewrite length_map, length_seq).
  rewrite <- (size_list_to_set (C := gset Z) ks HN). apply subseteq_size.
  intros k Hk. apply elem_of_list_to_set, list_elem_of_fmap in Hk as (i & -> & Hi%elem_of_seq).
  apply elem_of_dom. apply (holds_mapped m a l H). lia.
Qed.

Lemma u8_byte x : is_byte x = true -> u8 x = x.
Proof. unfold is_byte, u8. intros. apply Z.mod_small. lia. Qed.
End byte_lists.

(** ** What the routines do *)

Lemma load_ok (m : mem) a x : m !! a = Some x -> load a m = Ok (x, m).
Proof. intros H. unfold load, bind, get. by rewrite H. Qed.

Lemma store_ok (m : mem) a v : is_Some (m !! a) -> store a v m = Ok (tt, <[a := u8 v]> m).
Proof. intros [x H]. unfold store, bind, get. by rewrite H. Qed.

(** Run the next access of a loop. *)
Ltac run_load H := rewrite (bind_ok _ _ _ _ _ (load_ok _ _ _ H)); cbv beta.
Ltac run_store H := rewrite (bind_ok _ _ _ _ _ (store_ok _ _ _ H)); cbv beta.

Lemma stosb_fills n : forall (m : mem) a c,
  mapped m a n -> stosb a c n m = Ok (tt, wr a (replicate n (u8 c)) m).
Proof.
  induction n as [|n IH]; intros m a c H; [done|]. simpl.
  apply mapped_S in H as [H0 H]. run_store H0. by rewrite IH by by apply mapped_insert.
Qed.

(** The word memset builds has the byte [c] in each of its places. *)
Lemma memset_word c :
  is_byte c = true ->
  forall k, k = 0 \/ k = 8 \/ k = 16 \/ k = 24 ->
  u8 (Z.shiftr (Z.lor (Z.lor (Z.lor (Z.shiftl c 24) (Z.shiftl c 16)) (Z.shiftl c 8)) c) k) = c.
Proof.
  intros Hc k Hk.
  set (P := fun c k => u8 (Z.shiftr (Z.lor (Z.lor (Z.lor (Z.shiftl c 24) (Z.shiftl c 16)) (Z.shiftl c 8)) c) k) =? c).
  assert (A : forallb (fun n => forallb (P (Z.of_nat n)) [0; 8; 16; 24]) (seq 0 256) = true) by (vm_compute; reflexivity).
  rewrite forallb_forall in A. unfold is_byte in Hc.
  specialize (A (Z.to_nat c)). rewrite in_seq, forallb_forall in A. specialize (A ltac:(lia) k).
  rewrite Z2Nat.id in A by lia. apply Z.eqb_eq, A. simpl. intuition.
Qed.

Lemma stosl_S n a w (m : mem) :
  mapped m a 4 ->
  stosl a w (S n) m = stosl (a + 4) w n (wr a [u8 w; u8 (Z.shiftr w 8); u8 (Z.shiftr w 16); u8 (Z.shiftr w 24)] m).
Proof.
  intros H. cbn [stosl wr]. run_store (H a ltac:(lia)).
  pose proof (mapped_insert m a 4 a (u8 w) H) as H1. run_store (H1 (a + 1) ltac:(lia)).
  pose proof (mapped_insert _ a 4 (a + 1) (u8 (Z.shiftr w 8)) H1) as H2. run_store (H2 (a + 2) ltac:(lia)).
  pose proof (mapped_insert _ a 4 (a + 2) (u8 (Z.shiftr w 16)) H2) as H3. run_store (H3 (a + 3) ltac:(lia)).
  by replace (a + 1 + 1) with (a + 2) by lia; replace (a + 2 + 1) with (a + 3) by lia.
Qed.

Lemma stosl_fills n c w : forall (m : mem) a,
  (forall k, k = 0 \/ k = 8 \/ k = 16 \/ k = 24 -> u8 (Z.shiftr w k) = c) ->
  mapped m a (4 * n) -> stosl a w n m = Ok (tt, wr a (replicate (4 * n) c) m).
Proof.
  induction n as [|n IH]; intros m a Hw H; [done|].
  rewrite stosl_S by (intros k Hk; apply H; lia).
  pose proof (Hw 0 ltac:(auto)) as W0. rewrite Z.shiftr_0_r in W0. rewrite W0, !Hw by auto.
  rewrite IH; [|done|apply wr_mapped; intros k Hk; apply H; lia].
  replace (4 * S n)%nat with (4 + 4 * n)%nat by lia. rewrite replicate_add, wr_app. done.
Qed.

(** Copying up is right unless the destination starts inside the source. *)
Lemma copy_up_ok l : forall (m : mem) d s,
  bytes l -> holds m s l -> mapped m d (length l) -> (d <= s \/ s + Z.of_nat (length l) <= d) ->
  Kstring.copy_up (length l) d s m = Ok (tt, wr d l m).
Proof.
  induction l as [|x l IH]; intros m d s Hb Hs Hd Ho; [done|]. simpl length in *. simpl.
  apply holds_cons in Hs as [Hx Hs]. apply mapped_S in Hd as [H0 Hd]. inversion Hb as [|?? Bx Bl]; subst.
  run_load Hx. run_store H0. rewrite (u8_byte x Bx). apply IH; [done| |by apply mapped_insert|lia].
  apply holds_insert_ne; [lia|done].
Qed.

Lemma copy_down_ok l : forall (m : mem) d s,
  bytes l -> holds m s l -> mapped m d (length l) -> s < d ->
  Kstring.copy_down (length l) (d + Z.of_nat (length l)) (s + Z.of_nat (length l)) m = Ok (tt, wr d l m).
Proof.
  induction l as [|x l IH] using rev_ind; intros m d s Hb Hs Hd Ho; [done|].
  rewrite length_app in *. cbn [length] in *. rewrite Nat.add_1_r in *. simpl.
  replace (s + Z.of_nat (S (length l)) - 1) with (s + Z.of_nat (length l)) by lia.
  replace (d + Z.of_nat (S (length l)) - 1) with (d + Z.of_nat (length l)) by lia.
  apply holds_app in Hs as [Hs Hx]. apply holds_cons in Hx as [Hx _]. apply Forall_app in Hb as [Bl Bx]. inversion Bx as [|?? Bx' _]; subst.
  run_load Hx. rewrite (bind_ok _ _ _ _ _ (store_ok _ _ _ (Hd (d + Z.of_nat (length l)) ltac:(lia)))). cbv beta.
  rewrite (u8_byte x Bx'), IH; [|done|apply holds_insert_ne; [lia|done]|intros k Hk; apply mapped_insert with (n := S (length l)) (a := d); [done|lia]|done].
  do 2 f_equal. rewrite wr_snoc. apply map_eq. intros k. rewrite lookup_wr.
  destruct (Z.eq_dec k (d + Z.of_nat (length l))) as [->|].
  - rewrite !lookup_insert_eq. case_match; [lia|done].
  - rewrite !lookup_insert_ne by done. by rewrite lookup_wr.
Qed.

(** C37. The kernel's memmove copies the [n] bytes at [src] to [dst] and changes
    nothing else, however the two areas overlap; memcpy is the same function. *)
Theorem memmove_overlap (m : mem) dst src (l : list Z) :
  bytes l -> holds m src l -> mapped m dst (length l) ->
  Kstring.memmove dst src (Z.of_nat (length l)) m = Ok (dst, wr dst l m) /\
  Kstring.memcpy dst src (Z.of_nat (length l)) m = Ok (dst, wr dst l m) /\
  holds (wr dst l m) dst l.
Proof.
  intros Hb Hs Hd.
  assert (E : Kstring.memmove dst src (Z.of_nat (length l)) m = Ok (dst, wr dst l m)).
  { unfold Kstring.memmove. rewrite Nat2Z.id. case_match.
    - by rewrite (bind_ok _ _ _ _ _ (copy_down_ok l m dst src Hb Hs Hd ltac:(lia))).
    - by rewrite (bind_ok _ _ _ _ _ (copy_up_ok l m dst src Hb Hs Hd ltac:(lia))). }
  split; [done|]. split; [done|apply wr_holds].
Qed.

(** The overlapping areas 3..6 and 5..8 of a ten byte memory. *)
Definition demo_mem : mem := wr 0 [10; 11; 12; 13; 14; 15; 16; 17; 18; 19] ∅.
Lemma memmove_overlap_witness :
  Kstring.memmove 5 3 4 demo_mem = Ok (5, wr 5 [13; 14; 15; 16] demo_mem).
Proof.
  apply (memmove_overlap demo_mem 5 3 [13; 14; 15; 16]).
  - repeat constructor.
  - intros [|[|[|[|i]]]] x Hx; inversion Hx; subst; reflexivity.
  - intros k Hk. assert (k = 5 \/ k = 6 \/ k = 7 \/ k = 8) as [->|[->|[->| ->]]] by (simpl in Hk; lia); eexists; reflexivity.
Defined.

(** memset fills [n] bytes with the low byte of [c], whether it stores words
    or bytes; the user library's memset does the same. *)
Lemma memset_spec (m : mem) dst c n :
  0 <= n -> mapped m dst (Z.to_nat n) ->
  Kstring.memset dst c n m = Ok (dst, wr dst (replicate (Z.to_nat n) (u8 c)) m) /\
  Ulib.memset dst c n m = Ok (dst, wr dst (replicate (Z.to_nat n) (u8 c)) m).
Proof.
  intros Hn Hm. pose proof (stosb_fills _ m dst c Hm) as B.
  split; [|unfold Ulib.memset; by rewrite (bind_ok _ _ _ _ _ B)].
  unfold Kstring.memset. case_match eqn:E; [|by rewrite (bind_ok _ _ _ _ _ B)].
  assert (Hc : u8 c = Z.land c 255) by (unfold u8; by rewrite <- (Z.land_ones c 8)).
  rewrite Hc. assert (Hq : Z.to_nat n = (4 * Z.to_nat (n / 4))%nat).
  { pose proof (Z.div_mod n 4 ltac:(lia)). pose proof (Z.div_pos n 4 Hn ltac:(lia)). lia. }
  assert (Hb : is_byte (Z.land c 255) = true).
  { rewrite <- Hc. unfold is_byte, u8. pose proof (Z.mod_pos_bound c (2 ^ 8)). lia. }
  rewrite Hq in *. by rewrite (bind_ok _ _ _ _ _ (stosl_fills _ (Z.land c 255) _ m dst (memset_word _ Hb) Hm)).
Qed.

(** The difference of the first bytes in which two sequences differ. *)
Fixpoint diff (l1 l2 : list Z) : Z :=
  match l1, l2 with
  | x :: l1, y :: l2 => if x =? y then diff l1 l2 else x - y
  | _, _ => 0
  end.

Lemma diff_zero l1 l2 : length l1 = length l2 -> diff l1 l2 = 0 <-> l1 = l2.
Proof.
  revert l2. induction l1 as [|x l1 IH]; intros [|y l2] H; simplify_eq/=; [done|].
  case_Z; [subst; rewrite IH by done; naive_solver|]. split; [lia|naive_solver].
Qed.

Lemma memcmp_diff l1 : forall l2 (m : mem) a b,
  length l1 = length l2 -> holds m a l1 -> holds m b l2 ->
  Kstring.memcmp_loop (length l1) a b m = Ok (diff l1 l2, m).
Proof.
  induction l1 as [|x l1 IH]; intros [|y l2] m a b H Ha Hb; simplify_eq/=; [done|].
  apply holds_cons in Ha as [Hx Ha]. apply holds_cons in Hb as [Hy Hb]. run_load Hx. run_load Hy.
  case_Z; simpl; [by apply IH|done].
Qed.

Lemma cstring_cons (m : mem) a c l :
  cstring m a (c :: l) <-> m !! a = Some c /\ is_char c = true /\ cstring m (a + 1) l.
Proof. unfold cstring. simpl. rewrite holds_cons, Forall_cons. tauto. Qed.

Lemma cstring_nil (m : mem) a : cstring m a [] <-> m !! a = Some 0.
Proof.
  unfold cstring. simpl. rewrite holds_cons. split; [tauto|]. intros. split; [split; [done|]|constructor]. by intros i x Hx.
Qed.

Lemma is_char_nz c : is_char c = true -> (c =? 0) = false.
Proof. unfold is_char. lia. Qed.
Lemma is_char_byte c : is_char c = true -> is_byte c = true.
Proof. unfold is_char, is_byte. lia. Qed.
#[local] Hint Resolve is_char_byte : machine.

Lemma strncmp_diff l1 : forall l2 n (m : mem) a b,
  cstring m a l1 -> cstring m b l2 ->
  Kstring.strncmp_loop n a b m = Ok (diff (take n (l1 ++ [0])) (take n (l2 ++ [0])), m).
Proof.
  induction l1 as [|x l1 IH]; intros l2 [|n] m a b Ha Hb; try done.
  - apply cstring_nil in Ha. destruct l2 as [|y l2]; simpl.
    + apply cstring_nil in Hb. run_load Ha. run_load Hb. simpl. by destruct n.
    + apply cstring_cons in Hb as (Hy & Cy & _). run_load Ha. run_load Hy. by destruct y.
  - apply cstring_cons in Ha as (Hx & Cx & Ha). destruct l2 as [|y l2]; simpl.
    + apply cstring_nil in Hb. run_load Hx. run_load Hb. rewrite (is_char_nz x Cx). done.
    + apply cstring_cons in Hb as (Hy & Cy & Hb). run_load Hx. run_load Hy. rewrite (is_char_nz x Cx). simpl.
      case_Z; [by apply IH|done].
Qed.

(** memcmp and strncmp give 0 exactly when the bytes, or the first [n]
    characters of the strings, are equal, and otherwise the difference of the
    first that differ. *)
Theorem compare_bytes (m : mem) a b (l1 l2 s1 s2 : list Z) p q n :
  0 <= n ->
  length l1 = length l2 -> holds m a l1 -> holds m b l2 ->
  cstring m p s1 -> cstring m q s2 ->
  (exists r, Kstring.memcmp a b (Z.of_nat (length l1)) m = Ok (r, m) /\ r = diff l1 l2 /\ (r = 0 <-> l1 = l2)) /\
  (exists r, Kstring.strncmp p q n m = Ok (r, m) /\ r = diff (take (Z.to_nat n) (s1 ++ [0])) (take (Z.to_nat n) (s2 ++ [0])) /\
     (r = 0 <-> take (Z.to_nat n) s1 = take (Z.to_nat n) s2)).
Proof.
  intros Hn Hlen Ha Hb Hp Hq. split.
  - exists (diff l1 l2). unfold Kstring.memcmp. rewrite Nat2Z.id, (memcmp_diff l1 l2) by done.
    split; [done|]. split; [done|by apply diff_zero].
  - eexists. split; [by apply (strncmp_diff s1 s2)|]. split; [done|].
    destruct Hp as [_ C1], Hq as [_ C2]. generalize (Z.to_nat n) as k. clear - C1 C2. revert s2 C2.
    induction C1 as [|x s1 Cx C1 IH]; intros s2 C2 [|k]; try done; destruct C2 as [|y s2 Cy C2]; simpl.
    + by destruct k.
    + by destruct y.
    + rewrite (is_char_nz x Cx). unfold is_char in Cx. split; [lia|done].
    + case_Z; [|split; [lia|congruence]]. rewrite (IH s2 C2 k). split; congruence.
Qed.

(** "ab" at 1 and "ac" at 4. *)
Definition demo_strings : mem := wr 0 [9; 97; 98; 0; 97; 99; 0; 7; 7; 7; 7; 7] ∅.
Ltac prove_holds := let i := fresh in let x := fresh in let H := fresh in
  intros i x H; do 12 (destruct i as [|i]; [injection H as <-; reflexivity|try discriminate H]).
Lemma compare_bytes_witness :
  (exists r, Kstring.memcmp 1 4 1 demo_strings = Ok (r, demo_strings) /\ r = 0) /\
  (exists r, Kstring.strncmp 1 4 5 demo_strings = Ok (r, demo_strings) /\ r = -1).
Proof.
  destruct (compare_bytes demo_strings 1 4 [97] [97] [97; 98] [97; 99] 1 4 5) as [(r & E & Hr & _) (r' & E' & Hr' & _)];
    [lia|reflexivity|prove_holds|prove_holds|split; [prove_holds|repeat constructor]|split; [prove_holds|repeat constructor]|].
  split; [exists r; split; [exact E|exact Hr]|exists r'; split; [exact E'|exact Hr']].
Defined.

Lemma mem_fuel_bind {B} (k : nat -> M mem B) m : bind mem_fuel k m = k (S (base.size m)) m.
Proof. done. Qed.

(** ** Lengths and copies *)

Lemma strlen_loop_ok l : forall (m : mem) a s n fuel,
  cstring m a l -> s + n = a -> 0 <= n -> n + Z.of_nat (length l) <= INT_MAX -> (length l < fuel)%nat ->
  Kstring.strlen_loop fuel s n m = Ok (n + Z.of_nat (length l), m).
Proof.
  induction l as [|c l IH]; intros m a s n [|fuel] Hs <- Hn Hl Hf; simpl length in *; try lia; simpl.
  - apply cstring_nil in Hs. run_load Hs. by rewrite Z.add_0_r.
  - apply cstring_cons in Hs as (Hc & Cc & Hs). run_load Hc. rewrite (is_char_nz c Cc).
    unfold bind, chk_int. rewrite (proj2 (int_range_spec (n + 1))) by (unfold INT_MIN, INT_MAX in *; lia). unfold ret.
    rewrite (IH m (s + n + 1) s (n + 1) fuel); [do 2 f_equal; lia|done|lia|lia|lia|lia].
Qed.

Lemma cstring_fuel (m : mem) a l : cstring m a l -> (length l < S (base.size m))%nat.
Proof. intros [H _]. apply holds_size in H. rewrite length_app in H. simpl in H. lia. Qed.

Lemma strlen_ok (m : mem) a l :
  cstring m a l -> Z.of_nat (length l) <= INT_MAX -> Kstring.strlen a m = Ok (Z.of_nat (length l), m).
Proof.
  intros Hs Hl. unfold Kstring.strlen. rewrite mem_fuel_bind.
  by rewrite (strlen_loop_ok l m a) by (first [exact Hs|lia|by apply cstring_fuel in Hs]).
Qed.

(** The user library's strlen is the same loop. *)
Lemma ustrlen_eq fuel : forall s n, Ulib.strlen_loop fuel s n = Kstring.strlen_loop fuel s n.
Proof. done. Qed.

(** What strncpy_copy has written after a string [l] and [n] steps. *)
Lemma strncpy_copy_ok l : forall (m : mem) s t n,
  cstring m t l -> mapped m s n -> (s + Z.of_nat n <= t \/ t + Z.of_nat (length l) < s) ->
  Kstring.strncpy_copy n s t m =
    Ok ((s + Z.of_nat (length (take n (l ++ [0]))), (n - S (length l))%nat), wr s (take n (l ++ [0])) m).
Proof.
  induction l as [|c l IH]; intros m s t [|n] Hs Hm Hd; simpl length in *;
    try (simpl; by rewrite Z.add_0_r); simpl; apply mapped_S in Hm as [H0 Hm].
  - apply cstring_nil in Hs. run_load Hs. run_store H0. rewrite take_nil, Nat.sub_0_r. done.
  - apply cstring_cons in Hs as (Hc & Cc & Hs). run_load Hc. run_store H0.
    rewrite (is_char_nz c Cc), (u8_byte c (is_char_byte c Cc)).
    rewrite IH; [by replace (s + 1 + Z.of_nat (length (take n (l ++ [0])))) with (s + Z.of_nat (S (length (take n (l ++ [0]))))) by lia| |by apply mapped_insert|lia].
    destruct Hs as [Hh Cl]. split; [|done]. apply holds_insert_ne; [|done]. rewrite length_app. simpl. lia.
Qed.

Lemma strncpy_pad_ok n : forall (m : mem) s,
  mapped m s n -> Kstring.strncpy_pad n s m = Ok (tt, wr s (replicate n 0) m).
Proof.
  induction n as [|n IH]; intros m s H; [done|]. simpl. apply mapped_S in H as [H0 H]. run_store H0.
  by rewrite IH by by apply mapped_insert.
Qed.

(** C38. strncpy writes exactly [n] bytes: the characters of the source and
    zeros.  safestrcpy leaves a terminated string, the first [n-1] characters of
    the source, and writes at most [n] bytes. *)
Theorem bounded_copies (m : mem) s t n (l : list Z) :
  0 < n -> cstring m t l -> mapped m s (Z.to_nat n) ->
  (s + n <= t \/ t + Z.of_nat (length l) < s) ->
  Kstring.strncpy s t n m = Ok (s, wr s (take (Z.to_nat n) (l ++ replicate (Z.to_nat n) 0)) m) /\
  exists w m', Kstring.safestrcpy s t n m = Ok (s, m') /\ m' = wr s w m /\ (length w <= Z.to_nat n)%nat /\
    cstring m' s (take (Z.to_nat (n - 1)) l).
Proof.
  intros Hn Hs Hm Hd. split.
  - unfold Kstring.strncpy. rewrite (bind_ok _ _ _ _ _ (strncpy_copy_ok l m s t _ Hs Hm ltac:(lia))). cbv beta iota.
    erewrite bind_ok; [|apply strncpy_pad_ok].
    + unfold ret. do 2 f_equal. rewrite <- wr_app. f_equal. set (k := Z.to_nat n).
      rewrite !take_app, <- app_assoc. f_equal. rewrite take_replicate.
      destruct (k - length l)%nat as [|j] eqn:E; [by replace (k - S (length l))%nat with O by lia|].
      replace (k - S (length l))%nat with j by lia. rewrite Nat.min_l by lia. simpl. by rewrite take_nil.
    + apply wr_mapped. intros k Hk. apply Hm. rewrite length_take, length_app in Hk. simpl in Hk. lia.
  - pose proof (strncpy_copy_ok l m s t (Z.to_nat (n - 1)) Hs ltac:(intros k Hk; apply Hm; lia) ltac:(lia)) as E.
    unfold Kstring.safestrcpy. rewrite (proj2 (Z.leb_gt n 0)) by lia.
    set (w := take (Z.to_nat (n - 1)) (l ++ [0])) in *.
    assert (Hw : (length w <= Z.to_nat (n - 1))%nat) by (unfold w; rewrite length_take; lia).
    assert (H0 : is_Some (wr s w m !! (s + Z.of_nat (length w)))) by (apply (wr_mapped s w m s (Z.to_nat n) Hm); lia).
    exists (w ++ [0]), (wr s (w ++ [0]) m). rewrite (bind_ok _ _ _ _ _ E). cbv beta iota. run_store H0.
    rewrite wr_snoc. split; [done|]. split; [done|]. split; [rewrite length_app; simpl; lia|].
    rewrite <- wr_snoc. destruct Hs as [_ Cl]. split; [|by apply Forall_take].
    assert (P : exists r, w ++ [0] = (take (Z.to_nat (n - 1)) l ++ [0]) ++ r).
    { unfold w. rewrite take_app. destruct (Z.to_nat (n - 1) - length l)%nat as [|j]; simpl.
      - exists []. by rewrite !app_nil_r.
      - exists [0]. by rewrite take_nil. }
    destruct P as [r ->]. apply (holds_app _ _ _ r). apply wr_holds.
Qed.

Lemma bounded_copies_witness :
  exists w m', Kstring.safestrcpy 7 1 2 demo_strings = Ok (7, m') /\ m' = wr 7 w demo_strings /\
    (length w <= 2)%nat /\ cstring m' 7 [97].
Proof.
  apply (bounded_copies demo_strings 7 1 2 [97; 98]); [lia|split; [prove_holds|repeat constructor]| |simpl; lia].
  intros k Hk. assert (k = 7 \/ k = 8) as [->| ->] by (simpl in Hk; lia); eexists; reflexivity.
Defined.

(** ** The user library *)

Lemma strcpy_loop_ok l : forall (m : mem) s t fuel,
  cstring m t l -> mapped m s (S (length l)) -> (s + Z.of_nat (length l) < t \/ t + Z.of_nat (length l) < s) ->
  (length l < fuel)%nat -> Ulib.strcpy_loop fuel s t m = Ok (tt, wr s (l ++ [0]) m).
Proof.
  induction l as [|c l IH]; intros m s t [|fuel] Hs Hm Hd Hf; simpl length in *; try lia; simpl; apply mapped_S in Hm as [H0 Hm].
  - apply cstring_nil in Hs. run_load Hs. by run_store H0.
  - apply cstring_cons in Hs as (Hc & Cc & Hs). run_load Hc. run_store H0.
    rewrite (is_char_nz c Cc), (u8_byte c (is_char_byte c Cc)).
    apply IH; [|by apply mapped_insert|lia|lia].
    destruct Hs as [Hh Cl]. split; [|done]. apply holds_insert_ne; [|done]. rewrite length_app. simpl. lia.
Qed.

Lemma strcmp_loop_ok l1 : forall l2 (m : mem) a b fuel,
  cstring m a l1 -> cstring m b l2 -> (length l1 < fuel)%nat ->
  Ulib.strcmp_loop fuel a b m = Ok (diff (l1 ++ [0]) (l2 ++ [0]), m).
Proof.
  induction l1 as [|x l1 IH]; intros l2 m a b [|fuel] Ha Hb Hf; simpl length in *; try lia; simpl.
  - apply cstring_nil in Ha. destruct l2 as [|y l2]; simpl.
    + apply cstring_nil in Hb. run_load Ha. by run_load Hb.
    + apply cstring_cons in Hb as (Hy & Cy & _). run_load Ha. run_load Hy. by destruct y.
  - apply cstring_cons in Ha as (Hx & Cx & Ha). destruct l2 as [|y l2]; simpl.
    + apply cstring_nil in Hb. run_load Hx. run_load Hb. by rewrite (is_char_nz x Cx).
    + apply cstring_cons in Hb as (Hy & Cy & Hb). run_load Hx. run_load Hy. rewrite (is_char_nz x Cx). simpl.
      case_Z; [apply IH; [done|done|lia]|done].
Qed.

Lemma cstring_diff_zero (s1 s2 : list Z) :
  Forall (fun c => is_char c = true) s1 -> Forall (fun c => is_char c = true) s2 ->
  diff (s1 ++ [0]) (s2 ++ [0]) = 0 <-> s1 = s2.
Proof.
  intros C1. revert s2. induction C1 as [|x s1 Cx C1 IH]; intros s2 C2; destruct C2 as [|y s2 Cy C2]; simpl; [done| | |].
  - by destruct y.
  - rewrite (is_char_nz x Cx). unfold is_char in Cx. split; [lia|done].
  - case_Z; [|split; [lia|congruence]]. rewrite (IH s2 C2). split; congruence.
Qed.

(** The position of the first [c]. *)
Fixpoint index (c : Z) (l : list Z) : option nat :=
  match l with
  | [] => None
  | x :: l => if x =? c then Some O else S <$> index c l
  end.

Lemma index_app c l l' : ~ In c l -> index c (l ++ c :: l') = Some (length l).
Proof.
  induction l as [|x l IH]; simpl; intros H; [by rewrite Z.eqb_refl|].
  case_Z; [naive_solver|]. rewrite IH by tauto. done.
Qed.

Lemma index_None c l : ~ In c l -> index c l = None.
Proof. induction l as [|x l IH]; simpl; intros H; [done|]. case_Z; [naive_solver|]. rewrite IH by tauto. done. Qed.

Lemma strchr_loop_ok c l : forall (m : mem) a fuel,
  c <> 0 -> cstring m a l -> (length l < fuel)%nat ->
  Ulib.strchr_loop fuel a c m = Ok ((fun i => a + Z.of_nat i) <$> index c l, m).
Proof.
  induction l as [|x l IH]; intros m a [|fuel] Hc Hs Hf; simpl length in *; try lia; simpl.
  - apply cstring_nil in Hs. by run_load Hs.
  - apply cstring_cons in Hs as (Hx & Cx & Hs). run_load Hx. rewrite (is_char_nz x Cx).
    case_Z; [simpl; by rewrite Z.add_0_r|]. rewrite IH; [|done|done|lia].
    destruct (index c l) as [i|]; simpl; [|done]. do 3 f_equal. lia.
Qed.

Lemma strchr_ok c (m : mem) a l :
  c <> 0 -> cstring m a l -> Ulib.strchr a c m = Ok ((fun i => a + Z.of_nat i) <$> index c l, m).
Proof. intros. unfold Ulib.strchr. rewrite mem_fuel_bind. apply strchr_loop_ok; [done|done|by eapply cstring_fuel]. Qed.

(** The string functions of the user library on C strings: strcpy copies the
    string with its terminator, strcmp is 0 exactly for equal strings, strlen
    counts the characters and strchr finds the first occurrence. *)
Theorem ulib_strings (m : mem) s a b c (l1 l2 : list Z) :
  cstring m a l1 -> cstring m b l2 -> mapped m s (S (length l1)) ->
  (s + Z.of_nat (length l1) < a \/ a + Z.of_nat (length l1) < s) ->
  Z.of_nat (length l1) <= INT_MAX -> c <> 0 ->
  Ulib.strcpy s a m = Ok (s, wr s (l1 ++ [0]) m) /\ cstring (wr s (l1 ++ [0]) m) s l1 /\
  Ulib.strlen a m = Ok (Z.of_nat (length l1), m) /\
  Ulib.strchr a c m = Ok ((fun i => a + Z.of_nat i) <$> index c l1, m) /\
  exists r, Ulib.strcmp a b m = Ok (r, m) /\ (r = 0 <-> l1 = l2).
Proof.
  intros Ha Hb Hm Hd Hl Hc. pose proof (cstring_fuel m a l1 Ha) as Hf.
  split; [unfold Ulib.strcpy; rewrite mem_fuel_bind; by rewrite (bind_ok _ _ _ _ _ (strcpy_loop_ok l1 m s a _ Ha Hm Hd Hf))|].
  split; [split; [apply wr_holds|by destruct Ha]|].
  split; [unfold Ulib.strlen; rewrite mem_fuel_bind, ustrlen_eq; by rewrite (strlen_loop_ok l1 m a) by (first [exact Ha|exact Hf|lia])|].
  split; [by apply strchr_ok|].
  exists (diff (l1 ++ [0]) (l2 ++ [0])). unfold Ulib.strcmp. rewrite mem_fuel_bind.
  split; [by apply strcmp_loop_ok|]. destruct Ha as [_ Ca], Hb as [_ Cb]. by apply cstring_diff_zero.
Qed.

Lemma ulib_strings_witness :
  Ulib.strlen 1 demo_strings = Ok (2, demo_strings) /\ exists r, Ulib.strcmp 1 4 demo_strings = Ok (r, demo_strings) /\ r <> 0.
Proof.
  destruct (ulib_strings demo_strings 7 1 4 98 [97; 98] [97; 99]) as (_ & _ & E & _ & r & E' & Hr);
    [split; [prove_holds|repeat constructor]|split; [prove_holds|repeat constructor]| |simpl; lia|simpl; unfold INT_MAX; lia|lia|].
  - intros k Hk. assert (k = 7 \/ k = 8 \/ k = 9) as [->|[->| ->]] by (simpl in Hk; lia); eexists; reflexivity.
  - split; [exact E|]. exists r. split; [exact E'|]. intros H. apply Hr in H. discriminate H.
Defined.

(** The user library's memmove copies upwards only: it is right when the
    destination does not start inside the source. *)
Lemma umemmove_ok (m : mem) dst src l :
  bytes l -> holds m src l -> mapped m dst (length l) -> (dst <= src \/ src + Z.of_nat (length l) <= dst) ->
  Ulib.memmove dst src (Z.of_nat (length l)) m = Ok (dst, wr dst l m).
Proof.
  intros Hb Hs Hd Ho. unfold Ulib.memmove. rewrite Nat2Z.id.
  change (Ulib.memmove_loop (length l) dst src) with (Kstring.copy_up (length l) dst src).
  by rewrite (bind_ok _ _ _ _ _ (copy_up_ok l m dst src Hb Hs Hd Ho)).
Qed.

(** Moving bytes up by one position inside a buffer, the user library's
    memmove repeats the first byte where the kernel's keeps the bytes. *)
Theorem umemmove_smears (m : mem) a x y z :
  is_byte x = true -> is_byte y = true -> y <> x -> holds m a [x; y; z] ->
  (exists m', Ulib.memmove (a + 1) a 2 m = Ok (a + 1, m') /\ holds m' a [x; x; x]) /\
  (exists m', Kstring.memmove (a + 1) a 2 m = Ok (a + 1, m') /\ holds m' a [x; x; y]).
Proof.
  intros Bx By Hne H. assert (Hm : mapped m a 3) by (by apply (holds_mapped m a [x; y; z])).
  split.
  - apply holds_cons in H as [Hx H]. exists (<[a + 1 + 1 := x]> (<[a + 1 := x]> m)). split.
    + unfold Ulib.memmove. change (Z.to_nat 2) with 2%nat. cbn [Ulib.memmove_loop].
      rewrite bind_assoc. run_load Hx. rewrite bind_assoc. run_store (Hm (a + 1) ltac:(lia)).
      rewrite bind_assoc. rewrite (bind_ok _ _ _ _ _ (load_ok _ (a + 1) (u8 x) (lookup_insert_eq _ _ _))). cbv beta.
      rewrite bind_assoc. pose proof (mapped_insert m a 3 (a + 1) (u8 x) Hm) as Hm'. run_store (Hm' (a + 1 + 1) ltac:(lia)).
      unfold bind, ret. by rewrite !(u8_byte x Bx).
    + apply holds_cons. split; [by rewrite !lookup_insert_ne by lia|]. apply holds_cons.
      split; [rewrite lookup_insert_ne by lia; apply lookup_insert_eq|]. apply holds_cons.
      split; [apply lookup_insert_eq|]. by intros i w Hw.
  - exists (wr (a + 1) [x; y] m).
    assert (Hs : holds m a [x; y]) by (apply (holds_app m a [x; y] [z]); exact H).
    pose proof (copy_down_ok [x; y] m (a + 1) a ltac:(by repeat constructor) Hs ltac:(intros k Hk; apply Hm; simpl in Hk; lia) ltac:(lia)) as E.
    split.
    + unfold Kstring.memmove. rewrite (proj2 (Z.ltb_lt a (a + 1))) by lia. rewrite (proj2 (Z.ltb_lt (a + 1) (a + 2))) by lia.
      simpl length in E. change (Z.to_nat 2) with 2%nat. simpl andb. cbv iota. by rewrite (bind_ok _ _ _ _ _ E).
    + apply holds_cons in H as [Hx _]. apply holds_cons. split; [rewrite lookup_wr; case_match; [simpl in *; lia|done]|]. apply wr_holds.
Qed.

Lemma umemmove_smears_witness :
  exists m', Ulib.memmove 4 3 2 demo_mem = Ok (4, m') /\ holds m' 3 [13; 13; 13].
Proof. apply (umemmove_smears demo_mem 3 13 14 15); [reflexivity|reflexivity|lia|prove_holds]. Defined.

(** ** atoi and gets *)

(** The number the digits [l] continue from [n]. *)
Fixpoint value_from (n : Z) (l : list Z) : Z :=
  match l with
  | [] => n
  | c :: l => value_from (n * 10 + (c - 48)) l
  end.
Definition value (l : list Z) : Z := value_from 0 l.

Lemma value_from_ge l : forall n, 0 <= n -> Forall (fun c => Ulib.isdigit c = true) l -> n <= value_from n l.
Proof.
  induction l as [|c l IH]; intros n Hn H; simpl; [lia|]. inversion H as [|?? Hc Hl]; subst.
  unfold Ulib.isdigit in Hc. specialize (IH (n * 10 + (c - 48)) ltac:(lia) Hl). lia.
Qed.

Lemma atoi_loop_ok l c : forall (m : mem) a n fuel,
  Forall (fun c => Ulib.isdigit c = true) l -> holds m a (l ++ [c]) -> Ulib.isdigit c = false ->
  0 <= n -> value_from n l <= INT_MAX - 48 -> (length l < fuel)%nat ->
  Ulib.atoi_loop fuel a n m = Ok (value_from n l, m).
Proof.
  induction l as [|d l IH]; intros m a n [|fuel] Hl Hh Hc Hn Hv Hf; simpl length in *; try lia; simpl in Hh |- *;
    apply holds_cons in Hh as [Hd Hh]; run_load Hd.
  - by rewrite Hc.
  - inversion Hl as [|?? Hd' Hl']; subst. rewrite Hd'. unfold Ulib.isdigit in Hd'.
    pose proof (value_from_ge l (n * 10 + (d - 48)) ltac:(lia) Hl') as Hge. simpl in Hv.
    assert (R : forall x, 0 <= x <= INT_MAX -> chk_int (S := mem) x m = Ok (x, m)).
    { intros x Hx. unfold chk_int. by rewrite (proj2 (int_range_spec x)) by (unfold INT_MIN, INT_MAX in *; lia). }
    rewrite (bind_ok _ _ _ _ _ (R (n * 10) ltac:(lia))), (bind_ok _ _ _ _ _ (R (n * 10 + d) ltac:(lia))), (bind_ok _ _ _ _ _ (R (n * 10 + d - 48) ltac:(lia))).
    replace (n * 10 + d - 48) with (n * 10 + (d - 48)) by lia. apply IH; [done|done|done|lia|done|lia].
Qed.

(** atoi gives the value of the leading digits. *)
Lemma atoi_ok (m : mem) a l c :
  Forall (fun c => Ulib.isdigit c = true) l -> holds m a (l ++ [c]) -> Ulib.isdigit c = false ->
  value l <= INT_MAX - 48 -> Ulib.atoi a m = Ok (value l, m).
Proof.
  intros Hl Hh Hc Hv. unfold Ulib.atoi. rewrite mem_fuel_bind. apply (atoi_loop_ok l c); [done|done|done|lia|done|].
  apply holds_size in Hh. rewrite length_app in Hh. simpl in Hh. lia.
Qed.

(** The bytes gets takes: up to [k] of them, ending with a newline or a carriage
    return. *)
Fixpoint line (k : nat) (inp : list Z) : list Z :=
  match k, inp with
  | S k, c :: inp => if (c =? 10) || (c =? 13) then [c] else c :: line k inp
  | _, _ => []
  end.

Lemma line_prefix k : forall inp, exists rest, inp = line k inp ++ rest.
Proof.
  induction k as [|k IH]; intros [|c inp]; simpl; [by exists []|by eexists|by exists []|].
  case_match; [by exists inp|]. destruct (IH inp) as [r Hr]. exists r. by rewrite Hr at 1.
Qed.

Lemma line_length k inp : (length (line k inp) <= k)%nat.
Proof. revert inp. induction k as [|k IH]; intros [|c inp]; simpl; try lia. case_match; simpl; [lia|]. specialize (IH inp). lia. Qed.

Lemma on_mem_ok {A} (p : M mem A) m inp a m' : p m = Ok (a, m') -> Ulib.on_mem p (m, inp) = Ok (a, (m', inp)).
Proof. intros E. unfold Ulib.on_mem, zoom. simpl. by rewrite E. Qed.

Lemma gets_loop_ok k : forall (m : mem) inp buf i max fuel,
  bytes inp -> mapped m (buf + i) (S k) -> max = i + 1 + Z.of_nat k -> (k <= fuel)%nat ->
  Ulib.gets_loop fuel buf i max (m, inp) =
    Ok (i + Z.of_nat (length (line k inp)), (wr (buf + i) (line k inp) m, drop (length (line k inp)) inp)).
Proof.
  induction k as [|k IH]; intros m inp buf i max fuel Hb Hm -> Hf.
  - destruct fuel as [|fuel]; simpl; [by rewrite Z.add_0_r|]. case_Z; [lia|]. by rewrite Z.add_0_r.
  - destruct fuel as [|fuel]; [lia|]. cbn [Ulib.gets_loop]. case_Z; [|lia].
    destruct inp as [|c inp]; [simpl; by rewrite Z.add_0_r|].
    apply mapped_S in Hm as [H0 Hm]. inversion Hb as [|?? Bc Bi]; subst.
    rewrite (bind_ok Ulib.read1 _ (m, c :: inp) (Some c) (m, inp) eq_refl). cbv beta iota.
    rewrite (bind_ok _ _ _ _ _ (on_mem_ok _ m inp _ _ (store_ok _ _ c H0))). cbv beta. rewrite (u8_byte c Bc). cbn [line].
    case_match; [by simpl|]. rewrite (IH _ inp buf (i + 1)); [|done| |lia|lia].
    + cbn [length wr drop]. replace (buf + (i + 1)) with (buf + i + 1) by lia. do 2 f_equal. lia.
    + apply mapped_insert. by replace (buf + (i + 1)) with (buf + i + 1) by lia.
Qed.

(** gets stores the next line of the input, cut at [max - 1] bytes, and a
    terminating zero; the rest of the input stays for the next call. *)
Theorem gets_reads_line (m : mem) (inp : list Z) buf max :
  1 <= max -> bytes inp -> mapped m buf (Z.to_nat max) ->
  let l := line (Z.to_nat (max - 1)) inp in
  exists rest, inp = l ++ rest /\ Ulib.gets buf max (m, inp) = Ok (buf, (wr buf (l ++ [0]) m, rest)) /\
    (S (length l) <= Z.to_nat max)%nat.
Proof.
  intros Hm Hb Hmap l. destruct (line_prefix (Z.to_nat (max - 1)) inp) as [rest E]. fold l in E.
  pose proof (line_length (Z.to_nat (max - 1)) inp) as Hl. fold l in Hl.
  exists rest. split; [done|]. split; [|lia].
  pose proof (gets_loop_ok (Z.to_nat (max - 1)) m inp buf 0 max (Z.to_nat max) Hb) as G.
  rewrite Z.add_0_r in G. specialize (G ltac:(by replace (S (Z.to_nat (max - 1))) with (Z.to_nat max) by lia) ltac:(lia) ltac:(lia)).
  fold l in G. unfold Ulib.gets. rewrite (bind_ok _ _ _ _ _ G). cbv beta.
  assert (H0 : is_Some (wr buf l m !! (buf + (0 + Z.of_nat (length l))))) by (apply (wr_mapped buf l m buf _ Hmap); lia).
  rewrite (bind_ok _ _ _ _ _ (on_mem_ok _ _ _ _ _ (store_ok _ _ 0 H0))). unfold ret.
  rewrite wr_snoc, Z.add_0_l. do 3 f_equal. rewrite E at 1. rewrite drop_app_length. done.
Qed.

Lemma gets_reads_line_witness :
  exists rest, [104; 105; 10; 120] = [104; 105; 10] ++ rest /\
    Ulib.gets 0 6 (demo_mem, [104; 105; 10; 120]) = Ok (0, (wr 0 [104; 105; 10; 0] demo_mem, rest)) /\ (4 <= 6)%nat.
Proof.
  apply (gets_reads_line demo_mem [104; 105; 10; 120] 0 6); [lia|repeat constructor|].
  intros k Hk. assert (k = 0 \/ k = 1 \/ k = 2 \/ k = 3 \/ k = 4 \/ k = 5) as [->|[->|[->|[->|[->| ->]]]]] by (simpl in Hk; lia); eexists; reflexivity.
Defined.
End XString.
