(* ===== verification/Grep.v ===== *)
(** * Grep: the grep program of xv6

    grep.c: the matcher for patterns with the operators ^ . * $, the line
    buffer, and main.  The buffer is in a byte memory and is scanned with the
    functions of the user library ([XString.Ulib]).  An open file is the list
    of pieces its reads deliver: a read gives at most the bytes asked for and
    never more than the next piece, so a regular file is one piece and a pipe
    one piece for each write to it. *)
From stdpp Require Import base list gmap strings.
From Stdlib Require Import ZArith Lia.
From S2P Require Import Prelude Cstr XString.
Import XString.

Module Grep.

(** ** The matcher *)

(** matchstar: search for c*re at the beginning of text, where [here] is
    matchhere for re. *)
Fixpoint matchstar (here : list Z -> bool) (c : Z) (text : list Z) : bool :=
  if here text then true
  else match text with
       | x :: text => if (x =? c) || (c =? 46) then matchstar here c text else false
       | [] => false
       end.

Fixpoint matchhere (re text : list Z) {struct re} : bool :=
  match re with
  | [] => true
  | c :: re1 =>
      let one := match text with
                 | x :: text => if (c =? 46) || (c =? x) then matchhere re1 text else false
                 | [] => false
                 end in
      match re1 with
      | [] => if c =? 36 then bool_decide (text = []) else one
      | d :: re2 => if d =? 42 then matchstar (matchhere re2) c text else one
      end
  end.

Fixpoint match_any (re text : list Z) : bool :=
  if matchhere re text then true
  else match text with
       | x :: text => match_any re text
       | [] => false
       end.

Definition match_ (re text : list Z) : bool :=
  match re with
  | c :: re' => if c =? 94 then matchhere re' text else match_any re text
  | [] => match_any re text
  end.

(** ** The program *)

Record state := mk_state {
  memory : mem;
  fds : gmap Z (list (list Z));
  out : list (Z * list Z)             (* what was written, with its descriptor *)
}.

Definition buf : Z := 4096.
Definition sizeof_buf : Z := 1024.

Definition on_mem {A} (p : M mem A) : M state A :=
  zoom memory (fun m st => mk_state m (fds st) (out st)) p.

Fixpoint store_all (a : Z) (l : list Z) : M mem unit :=
  match l with
  | [] => ret tt
  | x :: l => do! store a x in store_all (a + 1) l
  end.
Fixpoint load_all (a : Z) (n : nat) : M mem (list Z) :=
  match n with
  | O => ret []
  | S n => let! x := load a in let! l := load_all (a + 1) n in ret (x :: l)
  end.

(** The system calls. *)
Definition read (fd addr n : Z) : M state Z :=
  let! st := get in
  match fds st !! fd with
  | None => ret (-1)
  | Some [] => ret 0
  | Some (c :: cs) =>
      let k := Z.to_nat n in
      do! modify (fun st => mk_state (memory st) (<[fd := if (k <? length c)%nat then drop k c :: cs else cs]> (fds st)) (out st)) in
      do! on_mem (store_all addr (take k c)) in
      ret (Z.of_nat (length (take k c)))
  end.
Definition put_out (fd : Z) (l : list Z) : M state unit :=
  modify (fun st => mk_state (memory st) (fds st) (out st ++ [(fd, l)])).
Definition write (fd addr n : Z) : M state unit :=
  let! l := on_mem (load_all addr (Z.to_nat n)) in
  put_out fd l.

(** The characters of the string at [p]. *)
Fixpoint string_at (fuel : nat) (p : Z) : M mem (list Z) :=
  match fuel with
  | O => fail OutOfFuel
  | S fuel =>
      let! c := load p in
      if c =? 0 then ret [] else let! l := string_at fuel (p + 1) in ret (c :: l)
  end.
Definition match_at (pattern : list Z) (p : Z) : M mem bool :=
  let! fuel := mem_fuel in
  let! text := string_at fuel p in
  ret (match_ pattern text).

(** The loop over the lines in the buffer gives back the final [p]. *)
Fixpoint scan (fuel : nat) (pattern : list Z) (p : Z) : M state Z :=
  match fuel with
  | O => fail OutOfFuel
  | S fuel =>
      let! q := on_mem (Ulib.strchr p 10) in
      match q with
      | None => ret p
      | Some q =>
          do! on_mem (store q 0) in
          let! yes := on_mem (match_at pattern p) in
          do! (if yes then do! on_mem (store q 10) in write 1 p (q + 1 - p) else ret tt) in
          scan fuel pattern (q + 1)
      end
  end.

Fixpoint grep_loop (fuel : nat) (pattern : list Z) (fd m : Z) : M state unit :=
  match fuel with
  | O => fail OutOfFuel
  | S fuel =>
      let! n := read fd (buf + m) (sizeof_buf - m - 1) in
      if 0 <? n then
        let m := m + n in
        do! on_mem (store (buf + m) 0) in
        let! p := scan (Z.to_nat sizeof_buf) pattern buf in
        let m := if p =? buf then 0 else m in
        let! m := (if 0 <? m then
                     let m := m - (p - buf) in
                     do! on_mem (Ulib.memmove buf p m) in
                     ret m
                   else ret m) in
        grep_loop fuel pattern fd m
      else ret tt
  end.

(** Every round reads a byte; the fuel is one more than there are. *)
Definition grep (pattern : list Z) (fd : Z) : M state unit :=
  let! st := get in
  grep_loop (S (length (concat (default [] (fds st !! fd))))) pattern fd 0.

Section main.
(** The files that can be opened. *)
Variable files : list Z -> option (list (list Z)).

Definition NOFILE : Z := 16.
Definition open_fd (m : gmap Z (list (list Z))) : option Z :=
  head (filter (fun k => m !! k = None) (map Z.of_nat (seq 0 (Z.to_nat NOFILE)))).
Definition open (name : list Z) : M state Z :=
  let! st := get in
  match files name, open_fd (fds st) with
  | Some cs, Some fd => do! put (mk_state (memory st) (<[fd := cs]> (fds st)) (out st)) in ret fd
  | _, _ => ret (-1)
  end.
Definition close (fd : Z) : M state unit :=
  modify (fun st => mk_state (memory st) (delete fd (fds st)) (out st)).

Fixpoint grep_files (pattern : list Z) (args : list (list Z)) : M state unit :=
  match args with
  | [] => ret tt
  | name :: args =>
      let! fd := open name in
      if fd <? 0 then put_out 1 (str "grep: cannot open " ++ name ++ [10]) else
      do! grep pattern fd in
      do! close fd in
      grep_files pattern args
  end.

Definition main (argv : list (list Z)) : M state unit :=
  match argv with
  | _ :: pattern :: args =>
      match args with
      | [] => grep pattern 0
      | _ => grep_files pattern args
      end
  | _ => put_out 2 (str "usage: grep pattern [file ...]" ++ [10])
  end.
End main.

(** ** Patterns and the texts they match *)

Inductive atom := Any | Lit (c : Z).
Inductive regex :=
  | Always                            (* the empty pattern: any text *)
  | AtEnd                             (* $ as the last character *)
  | One (a : atom) (r : regex)
  | Many (a : atom) (r : regex).

Definition atom_of (c : Z) : atom := if c =? 46 then Any else Lit c.
Fixpoint parse (re : list Z) : regex :=
  match re with
  | [] => Always
  | c :: re1 =>
      match re1 with
      | [] => if c =? 36 then AtEnd else One (atom_of c) (parse re1)
      | d :: re2 => if d =? 42 then Many (atom_of c) (parse re2) else One (atom_of c) (parse re1)
      end
  end.

Definition atom_ok (a : atom) (x : Z) : Prop :=
  match a with Any => True | Lit c => x = c end.

(** A beginning of the text matches the pattern. *)
Fixpoint matches (r : regex) (text : list Z) : Prop :=
  match r with
  | Always => True
  | AtEnd => text = []
  | One a r => exists x rest, text = x :: rest /\ atom_ok a x /\ matches r rest
  | Many a r => exists u rest, text = u ++ rest /\ Forall (atom_ok a) u /\ matches r rest
  end.

(** The pattern is found in the text: anywhere, or at its beginning with ^. *)
Definition found (re text : list Z) : Prop :=
  match re with
  | 94 :: re' => matches (parse re') text
  | _ => exists before rest, text = before ++ rest /\ matches (parse re) rest
  end.

Lemma atom_of_ok c x : atom_ok (atom_of c) x <-> (x =? c) || (c =? 46) = true.
Proof. unfold atom_of. case_Z; simpl; [rewrite orb_true_r; done|]. rewrite orb_false_r, Z.eqb_eq. done. Qed.

Lemma matchstar_spec here c r :
  (forall t, here t = true <-> matches r t) ->
  forall text, matchstar here c text = true <-> matches (Many (atom_of c) r) text.
Proof.
  intros Hh text. induction text as [|x text IH]; simpl.
  - destruct (here []) eqn:E.
    + split; [|done]. intros _. exists [], []. split; [done|]. split; [constructor|by apply Hh].
    + split; [done|]. intros (u & rest & Et & _ & Hr). symmetry in Et. apply app_nil in Et as [-> ->]. apply Hh in Hr. congruence.
  - destruct (here (x :: text)) eqn:E.
    + split; [|done]. intros _. exists [], (x :: text). split; [done|]. split; [constructor|by apply Hh].
    + destruct ((x =? c) || (c =? 46)) eqn:Ec.
      * rewrite IH. simpl. split.
        -- intros (u & rest & -> & Hu & Hr). exists (x :: u), rest. split; [done|]. split; [|done].
           constructor; [by apply atom_of_ok|done].
        -- intros ([|y u] & rest & Et & Hu & Hr); simplify_eq/=; [apply Hh in Hr; congruence|].
           inversion Hu; subst. by exists u, rest.
      * split; [done|]. intros ([|y u] & rest & Et & Hu & Hr); simplify_eq/=; [apply Hh in Hr; congruence|].
        inversion Hu as [|?? Hy _]; subst. apply atom_of_ok in Hy. congruence.
Qed.

Lemma one_spec c (here : list Z -> bool) r :
  (forall t, here t = true <-> matches r t) ->
  forall text,
  match text with x :: t => if (c =? 46) || (c =? x) then here t else false | [] => false end = true <->
  matches (One (atom_of c) r) text.
Proof.
  intros Hh [|x t]; simpl; [split; [done|naive_solver]|].
  rewrite orb_comm, (Z.eqb_sym c x). pose proof (atom_of_ok c x) as Ha.
  destruct ((x =? c) || (c =? 46)).
  - rewrite Hh. split; [intros H; exists x, t; tauto|naive_solver].
  - split; [done|]. intros (y & rest & [= <- <-] & Hy & _). apply Ha in Hy. done.
Qed.

Lemma matchhere_spec n : forall re, (length re <= n)%nat -> forall text, matchhere re text = true <-> matches (parse re) text.
Proof.
  induction n as [|n IH]; intros [|c re1] Hn text; simpl in Hn; try lia; try done.
  assert (H1 := fun H => one_spec c (matchhere re1) (parse re1) (IH re1 H) text).
  destruct re1 as [|d re2].
  - cbn [matchhere parse]. case_Z; [|exact (H1 ltac:(simpl in *; lia))]. by rewrite bool_decide_eq_true.
  - cbn [matchhere parse] in H1 |- *. case_Z; [|exact (H1 ltac:(simpl in *; lia))].
    apply matchstar_spec. intros t. apply IH. simpl in Hn. lia.
Qed.

Lemma match_any_spec re text :
  match_any re text = true <-> exists before rest, text = before ++ rest /\ matches (parse re) rest.
Proof.
  induction text as [|x text IH]; cbn [match_any]; destruct (matchhere re _) eqn:E.
  - split; [|done]. intros _. exists [], []. split; [done|]. by apply (matchhere_spec _ re (le_n _)).
  - split; [done|]. intros (b & r & Et & Hr). symmetry in Et. apply app_nil in Et as [-> ->].
    apply (matchhere_spec _ re (le_n _)) in Hr. congruence.
  - split; [|done]. intros _. exists [], (x :: text). split; [done|]. by apply (matchhere_spec _ re (le_n _)).
  - rewrite IH. split.
    + intros (b & r & -> & Hr). by exists (x :: b), r.
    + intros ([|y b] & r & Et & Hr); simplify_eq/=; [apply (matchhere_spec _ re (le_n _)) in Hr; congruence|]. by exists b, r.
Qed.

Lemma found_other c re text : c <> 94 ->
  found (c :: re) text <-> exists before rest, text = before ++ rest /\ matches (parse (c :: re)) rest.
Proof.
  intros Hc. unfold found. destruct c as [|p|p]; try done.
  do 7 (destruct p as [p|p|]; try done).
Qed.

Lemma match_iff re text : match_ re text = true <-> found re text.
Proof.
  destruct re as [|c re]; [apply match_any_spec|]. unfold match_. case_Z.
  - subst. apply (matchhere_spec _ re (le_n _)).
  - rewrite found_other by done. apply match_any_spec.
Qed.

(** C26. The matcher of grep finds a pattern exactly when the pattern, read as a
    regular expression, matches the text from some position, from the first one
    for a pattern that starts with ^. *)
Theorem match_finds_pattern re text : match_ re text = true <-> found re text.
Proof. apply match_iff. Qed.

(** ** Lines *)

(** The complete lines of a text, without their newlines, and what follows the
    last newline. *)
Fixpoint lines (l : list Z) : list (list Z) * list Z :=
  match l with
  | [] => ([], [])
  | c :: l =>
      let '(ls, r) := lines l in
      if c =? 10 then ([] :: ls, r)
      else match ls with
           | [] => ([], c :: r)
           | x :: ls => ((c :: x) :: ls, r)
           end
  end.

Lemma lines_none l : ~ In 10 l -> lines l = ([], l).
Proof.
  induction l as [|c l IH]; intros H; [done|]. cbn [lines]. rewrite IH by (simpl in H; tauto).
  case_Z; [simpl in H; exfalso; apply H; left; lia|done].
Qed.

Lemma lines_cons x y : ~ In 10 x -> lines (x ++ 10 :: y) = (x :: fst (lines y), snd (lines y)).
Proof.
  induction x as [|c x IH]; intros H; cbn [lines app].
  - destruct (lines y). done.
  - rewrite IH by (simpl in H; tauto). case_Z; [simpl in H; exfalso; apply H; left; lia|done].
Qed.

(** Split at the first newline. *)
Lemma first_newline (l : list Z) : ~ In 10 l \/ exists x y, l = x ++ 10 :: y /\ ~ In 10 x.
Proof.
  induction l as [|c l [IH|(x & y & -> & Hx)]]; [left; intros []| |]; (destruct (Z.eq_dec c 10) as [->|]; [right|]).
  - exists [], l. split; [done|intros []].
  - left. intros [?|?]; [lia|tauto].
  - exists [], (x ++ 10 :: y). split; [done|intros []].
  - right. exists (c :: x), y. split; [done|]. intros [?|?]; [lia|tauto].
Qed.

Lemma lines_app n : forall a b, (length a <= n)%nat ->
  lines (a ++ b) = (fst (lines a) ++ fst (lines (snd (lines a) ++ b)), snd (lines (snd (lines a) ++ b))).
Proof.
  induction n as [|n IH]; intros a b Ha; (destruct (first_newline a) as [H|(x & y & -> & Hx)];
    [rewrite (lines_none a H); simpl; by destruct (lines (a ++ b))|]); rewrite length_app in Ha; simpl in Ha; [lia|].
  rewrite <- app_assoc. simpl. rewrite !lines_cons by done. rewrite (IH y b) by lia. done.
Qed.

(** What precedes the rest ends with a newline, if there is any. *)
Lemma lines_rest n : forall l, (length l <= n)%nat ->
  exists a, l = a ++ snd (lines l) /\ ~ In 10 (snd (lines l)) /\ (a = [] <-> ~ In 10 l).
Proof.
  induction n as [|n IH]; intros l Hl; (destruct (first_newline l) as [H|(x & y & -> & Hx)];
    [exists []; rewrite (lines_none l H); done|]); rewrite length_app in Hl; simpl in Hl; [lia|].
  rewrite lines_cons by done. simpl. destruct (IH y ltac:(lia)) as (a & Ey & Hr & _).
  exists (x ++ 10 :: a). split; [rewrite Ey at 1; by rewrite <- app_assoc|]. split; [done|].
  split; [by destruct x|]. intros []. apply in_or_app. right. by left.
Qed.

(** ** Memory accesses of the program *)

Lemma on_memory_ok {A} (p : M mem A) st a m' :
  p (memory st) = Ok (a, m') -> on_mem p st = Ok (a, mk_state m' (fds st) (out st)).
Proof. intros E. unfold on_mem, zoom. by rewrite E. Qed.

Lemma store_all_ok l : forall (m : mem) a,
  bytes l -> mapped m a (length l) -> store_all a l m = Ok (tt, wr a l m).
Proof.
  induction l as [|x l IH]; intros m a Hb H; [done|]. simpl. inversion Hb as [|?? Bx Bl]; subst.
  apply mapped_S in H as [H0 H]. rewrite (bind_ok _ _ _ _ _ (store_ok _ _ _ H0)). rewrite (u8_byte x Bx).
  apply IH; [done|by apply mapped_insert].
Qed.

Lemma load_all_ok l : forall (m : mem) a, holds m a l -> load_all a (length l) m = Ok (l, m).
Proof.
  induction l as [|x l IH]; intros m a H; [done|]. simpl. apply holds_cons in H as [Hx H].
  rewrite (bind_ok _ _ _ _ _ (load_ok _ _ _ Hx)). by rewrite (bind_ok _ _ _ _ _ (IH _ _ H)).
Qed.

Lemma string_at_ok l : forall (m : mem) p fuel,
  cstring m p l -> (length l < fuel)%nat -> string_at fuel p m = Ok (l, m).
Proof.
  induction l as [|c l IH]; intros m p [|fuel] Hs Hf; simpl length in *; try lia; simpl.
  - apply cstring_nil in Hs. by rewrite (bind_ok _ _ _ _ _ (load_ok _ _ _ Hs)).
  - apply cstring_cons in Hs as (Hc & Cc & Hs). rewrite (bind_ok _ _ _ _ _ (load_ok _ _ _ Hc)), (is_char_nz c Cc).
    by rewrite (bind_ok _ _ _ _ _ (IH m (p + 1) fuel Hs ltac:(lia))).
Qed.

Lemma match_at_ok pattern l (m : mem) p : cstring m p l -> match_at pattern p m = Ok (match_ pattern l, m).
Proof.
  intros H. unfold match_at. rewrite mem_fuel_bind.
  by rewrite (bind_ok _ _ _ _ _ (string_at_ok l m p _ H (cstring_fuel m p l H))).
Qed.

(** The descriptor and bytes of the lines that are printed. *)
Definition printed (pattern : list Z) (ls : list (list Z)) : list (Z * list Z) :=
  map (fun l => (1, l ++ [10])) (filter (fun l => match_ pattern l = true) ls).

Definition same_dom (m m' : mem) : Prop := forall k, is_Some (m !! k) -> is_Some (m' !! k).

Lemma same_dom_insert (m : mem) k x : same_dom m (<[k := x]> m).
Proof. intros j Hj. apply lookup_insert_is_Some'. by right. Qed.

Notation chars l := (Forall (fun c => is_char c = true) l).
Implicit Types (st : state).

(** The line [x] that ends at [q] is terminated there, matched and printed. *)
Lemma scan_line pattern x y st p fuel :
  holds (memory st) p ((x ++ 10 :: y) ++ [0]) -> chars x -> ~ In 10 x -> chars y ->
  exists st', scan (S fuel) pattern p st = scan fuel pattern (p + Z.of_nat (length x) + 1) st' /\
    holds (memory st') (p + Z.of_nat (length x) + 1) (y ++ [0]) /\ fds st' = fds st /\
    out st' = out st ++ printed pattern [x] /\ same_dom (memory st) (memory st').
Proof.
  intros H Cx Hx Cy. set (q := p + Z.of_nat (length x)).
  assert (Hs : cstring (memory st) p (x ++ 10 :: y)) by (split; [done|]; apply Forall_app; split; [done|by constructor]).
  rewrite <- app_assoc in H. apply holds_app in H as [Hp Hq]. fold q in Hq. cbn [app] in Hq. apply holds_cons in Hq as [Hq Hy].
  set (m1 := <[q := 0]> (memory st)).
  assert (H1 : cstring m1 p x).
  { split; [|done]. apply holds_app. fold q. split; [apply holds_insert_ne; [lia|done]|].
    apply holds_cons. split; [apply lookup_insert_eq|by intros i w Hw]. }
  assert (Hy1 : holds m1 (q + 1) (y ++ [0])) by (apply holds_insert_ne; [lia|done]).
  cbn [scan]. rewrite (bind_ok _ _ _ _ _ (on_memory_ok _ _ _ _ (strchr_ok 10 _ _ _ ltac:(lia) Hs))), index_app by done.
  cbn [fmap option_fmap option_map]. fold q.
  rewrite (bind_ok _ _ _ _ _ (on_memory_ok _ (mk_state (memory st) (fds st) (out st)) _ _ (store_ok (memory st) q 0 ltac:(by eexists)))). cbv beta. change (u8 0) with 0. fold m1.
  rewrite (bind_ok _ _ _ _ _ (on_memory_ok _ (mk_state m1 (fds st) (out st)) _ _ (match_at_ok pattern x m1 p H1))). cbv beta.
  unfold printed. rewrite filter_cons. destruct (match_ pattern x).
  - rewrite decide_True by done. rewrite bind_assoc.
    rewrite (bind_ok _ _ _ _ _ (on_memory_ok _ (mk_state m1 (fds st) (out st)) _ _ (store_ok m1 q 10 ltac:(eexists; apply lookup_insert_eq)))). cbv beta.
    change (u8 10) with 10. set (m2 := <[q := 10]> m1). cbn [fds out].
    assert (H2 : holds m2 p (x ++ [10])).
    { apply holds_app. fold q. split; [do 2 (apply holds_insert_ne; [lia|]); done|].
      apply holds_cons. split; [apply lookup_insert_eq|by intros i w Hw]. }
    assert (L : length (x ++ [10]) = Z.to_nat (q + 1 - p)) by (rewrite length_app; simpl; unfold q; lia).
    unfold write. rewrite bind_assoc. rewrite <- L.
    rewrite (bind_ok _ _ _ _ _ (on_memory_ok _ (mk_state m2 (fds st) (out st)) _ _ (load_all_ok _ m2 p H2))).
    eexists. split; [reflexivity|]. cbn [memory fds out]. split; [apply holds_insert_ne; [lia|done]|].
    split; [done|]. split; [done|]. intros k Hk. do 2 apply same_dom_insert. done.
  - rewrite decide_False by done. eexists. split; [reflexivity|]. cbn [memory fds out map]. rewrite app_nil_r.
    split; [done|]. split; [done|]. split; [done|apply same_dom_insert].
Qed.

Lemma printed_app pattern l1 l2 : printed pattern (l1 ++ l2) = printed pattern l1 ++ printed pattern l2.
Proof. unfold printed. by rewrite filter_app, map_app. Qed.

Lemma scan_ok pattern n : forall text st p fuel,
  (length text <= n)%nat -> holds (memory st) p (text ++ [0]) -> chars text -> (length text < fuel)%nat ->
  exists st', scan fuel pattern p st = Ok (p + Z.of_nat (length text) - Z.of_nat (length (snd (lines text))), st') /\
    holds (memory st') (p + Z.of_nat (length text) - Z.of_nat (length (snd (lines text)))) (snd (lines text) ++ [0]) /\
    fds st' = fds st /\ out st' = out st ++ printed pattern (fst (lines text)) /\ same_dom (memory st) (memory st').
Proof.
  induction n as [|n IH]; intros text st p [|fuel] Hn H C Hf; try lia;
    (destruct (first_newline text) as [Hnl|(x & y & -> & Hx)]; [|try (rewrite length_app in Hn; simpl in Hn; lia)]).
  1,2: exists st; cbn [scan]; rewrite (bind_ok _ _ _ _ _ (on_memory_ok _ _ _ _ (strchr_ok 10 _ _ text ltac:(lia) (conj H C)))), (index_None 10 text Hnl);
      rewrite (lines_none text Hnl); cbn [fst snd]; replace (p + Z.of_nat (length text) - Z.of_nat (length text)) with p by lia;
      rewrite app_nil_r; (split; [by destruct st|]); (split; [exact H|]); (split; [done|]); (split; [done|by intros k]).
  apply Forall_app in C as [Cx Cy]. inversion Cy as [|?? _ Cy']; subst.
  rewrite length_app in *. cbn [length] in *.
  destruct (scan_line pattern x y st p fuel H Cx Hx Cy') as (st1 & E & Hy & Hfd & Ho & Hd). rewrite E.
  destruct (IH y st1 (p + Z.of_nat (length x) + 1) fuel ltac:(lia) Hy Cy' ltac:(lia)) as (st2 & E2 & Hy2 & Hfd2 & Ho2 & Hd2).
  exists st2. rewrite lines_cons by done. cbn [fst snd].
  replace (p + Z.of_nat (length x + S (length y))) with (p + Z.of_nat (length x) + 1 + Z.of_nat (length y)) by lia.
  split; [done|]. split; [done|]. split; [congruence|].
  split; [by rewrite Ho2, Ho, <- app_assoc, <- printed_app|]. intros k Hk. by apply Hd2, Hd.
Qed.

(** ** The read loop *)

(** The pieces left when [rest] remains of the first one. *)
Definition more (rest : list Z) (cs : list (list Z)) : list (list Z) :=
  if bool_decide (rest = []) then cs else rest :: cs.
Definition pieces (l : list Z) : list (list Z) := more l [].

Lemma chars_bytes l : chars l -> bytes l.
Proof. intros H. eapply Forall_impl; [exact H|]. intros c. apply is_char_byte. Qed.

Lemma read_ok fd a n inp cs st :
  fds st !! fd = Some (inp :: cs) -> bytes inp -> mapped (memory st) a (length (take (Z.to_nat n) inp)) ->
  read fd a n st = Ok (Z.of_nat (length (take (Z.to_nat n) inp)),
    mk_state (wr a (take (Z.to_nat n) inp) (memory st)) (<[fd := more (drop (Z.to_nat n) inp) cs]> (fds st)) (out st)).
Proof.
  intros Hfd Hb Hm. unfold read, bind at 1, get. rewrite Hfd. cbv zeta.
  rewrite (bind_ok _ _ _ _ _ eq_refl).
  rewrite (bind_ok _ _ _ _ _ (on_memory_ok _ (mk_state (memory st) _ (out st)) _ _ (store_all_ok _ (memory st) a (Forall_take _ _ _ Hb) Hm))).
  unfold ret. cbn [fds out memory]. do 4 f_equal. unfold more.
  destruct (Nat.ltb_spec (Z.to_nat n) (length inp)); case_bool_decide as Hd; try done.
  - apply (f_equal length) in Hd. rewrite length_drop in Hd. simpl in Hd. lia.
  - rewrite drop_ge in Hd by lia. done.
Qed.

(** Dropping a full buffer without a newline loses no line that is short
    enough. *)
Lemma lines_drop text rest :
  ~ In 10 text -> rest = [] \/ length text = 1023%nat ->
  Forall (fun l => (length l <= 1022)%nat) (fst (lines (text ++ rest))) ->
  fst (lines (text ++ rest)) = fst (lines rest).
Proof.
  intros Ht Hr HF. destruct (first_newline rest) as [H|(x & y & -> & Hx)].
  - rewrite (lines_none rest H). rewrite lines_none; [done|]. intros I. apply in_app_or in I. tauto.
  - exfalso. destruct Hr as [Hr|Hr]; [by destruct x|].
    rewrite app_assoc, lines_cons in HF by (intros I; apply in_app_or in I; tauto).
    inversion HF as [|?? H _]; subst. rewrite length_app in H. lia.
Qed.

Definition text_ok (l : list Z) : Prop := ~ In 10 l /\ chars l /\ (length l <= 1022)%nat.

#[local] Instance In_dec (x : Z) l : Decision (In x l) := in_dec Z.eq_dec x l.

(** The part of the buffer that is kept: what follows the last newline, and
    nothing when there is no newline. *)
Definition kept (text : list Z) : list Z := if decide (In 10 text) then snd (lines text) else [].

(** The end of a round: the lines of the buffer are printed and the rest is
    moved to its beginning. *)
Lemma grep_flush pattern fd text st fuel :
  holds (memory st) buf (text ++ [0]) -> chars text -> (0 < length text <= 1023)%nat -> mapped (memory st) buf 1024 ->
  exists st',
    bind (scan (Z.to_nat sizeof_buf) pattern buf) (fun p =>
      let m := if p =? buf then 0 else Z.of_nat (length text) in
      bind (if 0 <? m then let m := m - (p - buf) in bind (on_mem (Ulib.memmove buf p m)) (fun _ => ret m) else ret m)
        (grep_loop fuel pattern fd)) st = grep_loop fuel pattern fd (Z.of_nat (length (kept text))) st' /\
    fds st' = fds st /\ text_ok (kept text) /\ holds (memory st') buf (kept text) /\ mapped (memory st') buf 1024 /\
    out st' = out st ++ printed pattern (fst (lines text)).
Proof.
  intros H Ct Lt Hm.
  destruct (scan_ok pattern _ text st buf (Z.to_nat sizeof_buf) (le_n _) H Ct ltac:(unfold sizeof_buf; lia)) as (st3 & E3 & H3 & Hf3 & Ho3 & Hd3).
  rewrite (bind_ok _ _ _ _ _ E3). cbv beta. destruct (lines_rest _ text (le_n _)) as (a & Ea & Hr & Ha). unfold kept.
  set (r := snd (lines text)) in *. assert (La : length text = (length a + length r)%nat) by (rewrite Ea at 1; apply length_app).
  assert (Hm3 : mapped (memory st3) buf 1024) by (intros j Hj; apply Hd3; by apply Hm).
  replace (buf + Z.of_nat (length text) - Z.of_nat (length r)) with (buf + Z.of_nat (length a)) in * by lia. cbv zeta.
  destruct (Z.eqb_spec (buf + Z.of_nat (length a)) buf).
  - assert (a = []) by (destruct a; [done|simpl in *; lia]). assert (Hnl : ~ In 10 text) by tauto.
    rewrite decide_False by done. change (0 <? 0) with false. cbv iota.
    rewrite (bind_ok (ret 0) _ st3 0 st3 eq_refl). exists st3. split; [done|]. split; [done|].
    split; [split; [intros []|split; [constructor|simpl; lia]]|]. split; [by intros i w Hw|]. split; [done|exact Ho3].
  - assert (Hnl : In 10 text) by (destruct (decide (In 10 text)); [done|]; exfalso; assert (a = []) by tauto; subst a; simpl in *; lia).
    rewrite decide_True by done. rewrite (proj2 (Z.ltb_lt 0 (Z.of_nat (length text)))) by lia. rewrite bind_assoc.
    replace (Z.of_nat (length text) - (buf + Z.of_nat (length a) - buf)) with (Z.of_nat (length r)) by lia.
    assert (Cr : chars r) by (rewrite Ea in Ct; by apply Forall_app in Ct as [_ ?]).
    apply holds_app in H3 as [H3 _].
    pose proof (umemmove_ok (memory st3) buf (buf + Z.of_nat (length a)) r (chars_bytes _ Cr) H3 ltac:(intros j Hj; apply Hm3; lia) ltac:(lia)) as E4.
    rewrite (bind_ok _ _ _ _ _ (on_memory_ok _ _ _ _ E4)). cbv beta. rewrite (bind_ok (ret _) _ _ _ _ eq_refl).
    eexists. split; [reflexivity|]. cbn [fds memory out]. split; [done|].
    split; [split; [done|split; [done|lia]]|]. split; [apply wr_holds|]. split; [by apply wr_mapped|exact Ho3].
Qed.

(** One round takes a piece of the input. *)
Lemma grep_round pattern fd st part inp cs fuel :
  let k := (1023 - length part)%nat in
  inp <> [] -> fds st !! fd = Some (inp :: cs) -> text_ok part -> chars inp ->
  holds (memory st) buf part -> mapped (memory st) buf 1024 ->
  let text := part ++ take k inp in
  exists st',
    grep_loop (S fuel) pattern fd (Z.of_nat (length part)) st = grep_loop fuel pattern fd (Z.of_nat (length (kept text))) st' /\
    fds st' = <[fd := more (drop k inp) cs]> (fds st) /\ text_ok (kept text) /\
    holds (memory st') buf (kept text) /\ mapped (memory st') buf 1024 /\
    out st' = out st ++ printed pattern (fst (lines text)).
Proof.
  intros k Hinp Hfd (Hp & Cp & Lp) Ci Hh Hm text.
  assert (Kp : (k + length part = 1023)%nat) by (unfold k; lia).
  assert (Ct : chars text) by (apply Forall_app; split; [done|by apply Forall_take]).
  assert (Lb : (0 < length (take k inp))%nat) by (rewrite length_take; destruct inp; [done|]; simpl length; lia).
  assert (Lt : length text = (length part + length (take k inp))%nat) by apply length_app.
  assert (Lk : (length (take k inp) <= k)%nat) by (rewrite length_take; lia).
  assert (Hk : Z.to_nat (sizeof_buf - Z.of_nat (length part) - 1) = k) by (unfold sizeof_buf, k; lia).
  cbn [grep_loop].
  pose proof (read_ok fd (buf + Z.of_nat (length part)) (sizeof_buf - Z.of_nat (length part) - 1) inp cs st Hfd (chars_bytes _ Ci)) as R.
  rewrite Hk in R. specialize (R ltac:(intros j Hj; apply Hm; lia)).
  rewrite (bind_ok _ _ _ _ _ R). cbv beta. clear R.
  rewrite (proj2 (Z.ltb_lt 0 (Z.of_nat (length (take k inp))))) by lia. cbv zeta.
  replace (Z.of_nat (length part) + Z.of_nat (length (take k inp))) with (Z.of_nat (length text)) by lia.
  set (m1 := wr (buf + Z.of_nat (length part)) (take k inp) (memory st)).
  assert (H1 : holds m1 buf text) by (apply holds_app; split; [apply wr_other; [lia|done]|apply wr_holds]).
  assert (Hm1 : mapped m1 buf 1024) by by apply wr_mapped.
  rewrite (bind_ok _ _ _ _ _ (on_memory_ok _ (mk_state m1 _ (out st)) _ _ (store_ok m1 _ 0 (Hm1 (buf + Z.of_nat (length text)) ltac:(lia))))).
  cbv beta. change (u8 0) with 0. cbn [fds out].
  set (st2 := mk_state (<[buf + Z.of_nat (length text) := 0]> m1) (<[fd := more (drop k inp) cs]> (fds st)) (out st)).
  apply (grep_flush pattern fd text st2 fuel); [|done|lia|by apply mapped_insert].
  apply holds_app. split; [apply holds_insert_ne; [lia|done]|]. apply holds_cons. split; [apply lookup_insert_eq|by intros i w Hw].
Qed.

(** The lines of the input are those printed in this round and those of the
    next ones. *)
Lemma kept_lines part inp :
  let k := (1023 - length part)%nat in
  (length part <= 1022)%nat -> Forall (fun l => (length l <= 1022)%nat) (fst (lines (part ++ inp))) ->
  fst (lines (part ++ inp)) = fst (lines (part ++ take k inp)) ++ fst (lines (kept (part ++ take k inp) ++ drop k inp)).
Proof.
  intros k Lp HF. set (text := part ++ take k inp).
  assert (Et : part ++ inp = text ++ drop k inp) by (unfold text; by rewrite <- app_assoc, take_drop).
  rewrite Et in *. unfold kept. case_decide as Hnl; [by rewrite (lines_app _ text (drop k inp) (le_n _))|].
  rewrite (lines_none text Hnl). cbn [fst app]. apply lines_drop; [done| |done].
  destruct (drop k inp) eqn:Ed; [by left|right]. apply (f_equal length) in Ed. rewrite length_drop in Ed. simpl in Ed.
  unfold text. rewrite length_app, length_take. unfold k in *. lia.
Qed.

Lemma grep_loop_ok pattern fd n : forall part inp st fuel,
  (length inp <= n)%nat -> (length inp < fuel)%nat ->
  fds st !! fd = Some (pieces inp) -> text_ok part -> chars inp ->
  holds (memory st) buf part -> mapped (memory st) buf 1024 ->
  Forall (fun l => (length l <= 1022)%nat) (fst (lines (part ++ inp))) ->
  exists st', grep_loop fuel pattern fd (Z.of_nat (length part)) st = Ok (tt, st') /\
    fds st' = <[fd := []]> (fds st) /\ mapped (memory st') buf 1024 /\
    out st' = out st ++ printed pattern (fst (lines (part ++ inp))).
Proof.
  induction n as [|n IH]; intros part inp st [|fuel] Hn Hf Hfd Hp Ci Hh Hm HF; try lia;
    destruct (decide (inp = [])) as [->|Hne].
  1,3: exists st; rewrite app_nil_r, (lines_none part) by apply Hp; cbn [fst]; cbn [grep_loop];
      rewrite (bind_ok (read _ _ _) _ st 0 st) by (unfold read, bind, get; rewrite Hfd; done);
      (split; [done|]); (split; [by rewrite insert_id|]); (split; [done|]); unfold printed; simpl; by rewrite app_nil_r.
  { destruct inp; [done|simpl in Hn; lia]. }
  unfold pieces, more in Hfd. rewrite bool_decide_false in Hfd by done. pose proof Hp as (_ & _ & Lp).
  destruct (grep_round pattern fd st part inp [] fuel Hne Hfd Hp Ci Hh Hm) as (st1 & E & Hfd1 & Hp1 & Hh1 & Hm1 & Ho1).
  pose proof (kept_lines part inp Lp HF) as El.
  set (part' := kept (part ++ take (1023 - length part) inp)) in *.
  assert (L : (length (drop (1023 - length part) inp) < length inp)%nat).
  { rewrite length_drop. destruct inp; [done|]. simpl length. lia. }
  destruct (IH part' (drop (1023 - length part) inp) st1 fuel) as (st2 & E2 & Hfd2 & Hm2 & Ho2);
    [lia|lia|rewrite Hfd1; apply lookup_insert_eq|done|by apply Forall_drop|done|done|rewrite El in HF; by apply Forall_app in HF as [_ ?]|].
  exists st2. rewrite E. split; [done|]. split; [by rewrite Hfd2, Hfd1, insert_insert_eq|]. split; [done|].
  by rewrite Ho2, Ho1, El, printed_app, app_assoc.
Qed.

(** grep on a file that is read to the end of each request. *)
Lemma grep_ok pattern fd inp st :
  fds st !! fd = Some (pieces inp) -> chars inp -> mapped (memory st) buf 1024 ->
  Forall (fun l => (length l <= 1022)%nat) (fst (lines inp)) ->
  exists st', grep pattern fd st = Ok (tt, st') /\
    fds st' = <[fd := []]> (fds st) /\ mapped (memory st') buf 1024 /\
    out st' = out st ++ printed pattern (fst (lines inp)).
Proof.
  intros Hfd Ci Hm HF. unfold grep, bind, get. rewrite Hfd. cbn [default].
  assert (L : length (concat (pieces inp)) = length inp).
  { unfold pieces, more. case_bool_decide; [by subst|]. simpl. by rewrite app_nil_r. }
  cbn [from_option]. unfold id. rewrite L.
  apply (grep_loop_ok pattern fd (length inp) [] inp); [done|lia|done| |done|by intros i x Hx|done|done].
  split; [intros []|split; [constructor|simpl; lia]].
Qed.

(** ** main *)

Section main_spec.
Variable files : list Z -> option (list (list Z)).
(** Regular files: one piece each, of characters, in lines that fit the
    buffer. *)
Definition regular (name inp : list Z) : Prop :=
  files name = Some (pieces inp) /\ chars inp /\ Forall (fun l => (length l <= 1022)%nat) (fst (lines inp)).

Lemma open_fd_3 (m : gmap Z (list (list Z))) : dom m = {[0; 1; 2]} -> open_fd m = Some 3.
Proof.
  intros H. assert (D : forall k, m !! k = None <-> k <> 0 /\ k <> 1 /\ k <> 2).
  { intros k. rewrite <- not_elem_of_dom, H, !not_elem_of_union, !not_elem_of_singleton. tauto. }
  unfold open_fd. change (map Z.of_nat (seq 0 (Z.to_nat NOFILE))) with ([0; 1; 2] ++ 3 :: map Z.of_nat (seq 4 12)).
  rewrite !filter_app, !filter_cons. do 3 (rewrite decide_False by (rewrite D; lia)).
  rewrite decide_True by (rewrite D; lia). done.
Qed.

Lemma grep_files_ok pattern args inps : forall st,
  Forall2 regular args inps -> dom (fds st) = {[0; 1; 2]} -> mapped (memory st) buf 1024 ->
  exists st', grep_files files pattern args st = Ok (tt, st') /\
    fds st' = fds st /\ out st' = out st ++ concat (map (fun inp => printed pattern (fst (lines inp))) inps).
Proof.
  revert inps. induction args as [|name args IH]; intros inps st HF Hd Hm; inversion HF as [|? inp ? inps' Hr HF']; subst.
  - exists st. by rewrite app_nil_r.
  - destruct Hr as (Hfile & Ci & Hl). cbn [grep_files].
    assert (H3 : fds st !! 3 = None) by (apply not_elem_of_dom; rewrite Hd, !not_elem_of_union, !not_elem_of_singleton; lia).
    set (st1 := mk_state (memory st) (<[3 := pieces inp]> (fds st)) (out st)).
    rewrite (bind_ok (open files name) _ st 3 st1) by (unfold open, bind, get; rewrite Hfile, (open_fd_3 _ Hd); done). cbv beta.
    destruct (grep_ok pattern 3 inp st1) as (st2 & E2 & Hf2 & Hm2 & Ho2); [apply lookup_insert_eq|done|done|done|].
    cbn [Z.ltb]. change (3 <? 0) with false. cbv iota. rewrite (bind_ok _ _ _ _ _ E2). cbv beta.
    set (st3 := mk_state (memory st2) (delete 3 (fds st2)) (out st2)). rewrite (bind_ok (close 3) _ st2 tt st3 eq_refl). cbv beta.
    assert (Hf3 : fds st3 = fds st) by (cbn [fds st3]; rewrite Hf2; cbn [fds st1]; by rewrite insert_insert_eq, delete_insert_id).
    destruct (IH inps' st3 HF' ltac:(by rewrite Hf3) Hm2) as (st4 & E4 & Hf4 & Ho4).
    exists st4. split; [done|]. split; [congruence|]. rewrite Ho4. cbn [out st3]. rewrite Ho2. cbn [out st1 map concat]. by rewrite app_assoc.
Qed.

(** A text file: lines of characters, each ended by a newline, that fit the
    buffer with it. *)
Definition unlines (ls : list (list Z)) : list Z := concat (map (fun l => l ++ [10]) ls).
Definition text_line (l : list Z) : Prop := chars l /\ ~ In 10 l /\ (length l <= 1022)%nat.
Definition text_file (name : list Z) (ls : list (list Z)) : Prop := files name = Some (pieces (unlines ls)) /\ Forall text_line ls.

Lemma lines_unlines ls : Forall text_line ls -> lines (unlines ls) = (ls, []) /\ chars (unlines ls).
Proof.
  induction 1 as [|l ls (Hc & Hn & _) _ [IH1 IH2]]; [by split; [|constructor]|]. unfold unlines in *. cbn [map concat]. rewrite <- app_assoc. change ([10] ++ ?z) with (10 :: z).
  split; [by rewrite lines_cons, IH1 by done|]. apply Forall_app. split; [done|]. by constructor.
Qed.

(** C16. grep on text files: for files whose lines all end in a newline and have at
    most 1022 non-zero characters, and whose reads deliver all that is asked for
    up to the end of the file, grep prints, in order, exactly the lines that
    contain the pattern, each once and with its newline, and closes every file. *)
Theorem grep_prints_matches name pattern arg args texts st :
  Forall2 text_file (arg :: args) texts -> dom (fds st) = {[0; 1; 2]} -> mapped (memory st) buf 1024 ->
  exists st' ls, main files (name :: pattern :: arg :: args) st = Ok (tt, st') /\ fds st' = fds st /\
    out st' = out st ++ map (fun l => (1, l ++ [10])) ls /\
    ls = filter (fun l => match_ pattern l = true) (concat texts) /\
    forall l, l ∈ concat texts -> (l ∈ ls <-> found pattern l).
Proof.
  intros HF Hd Hm. assert (HR : Forall2 regular (arg :: args) (map unlines texts)).
  { clear Hd Hm. induction HF as [|a ls args' texts' [Hf Hl] HF IH]; simpl; constructor; [|done]. destruct (lines_unlines ls Hl) as [E C]. split; [done|]. split; [done|]. rewrite E. simpl.
    eapply Forall_impl; [exact Hl|]. by intros l (_ & _ & ?). }
  destruct (grep_files_ok pattern _ _ st HR Hd Hm) as (st' & E & Hf & Ho).
  exists st'. eexists. split; [exact E|]. split; [done|]. split; [|split; [reflexivity|]].
  - rewrite Ho. f_equal. clear -HF. induction HF as [|a ls args' texts' [_ Hl] HF IH]; [done|]. simpl. rewrite IH. destruct (lines_unlines ls Hl) as [E _]. rewrite E. unfold printed. simpl.
    by rewrite filter_app, map_app.
  - intros l Hl. rewrite list_elem_of_filter, match_iff. tauto.
Qed.

(** What follows the last newline of a file is never looked at: a file prints
    what it would print without that part. *)
Theorem grep_ignores_last_line name pattern arg ls tail st :
  files arg = Some (pieces (unlines ls ++ tail)) -> Forall text_line ls -> chars tail -> ~ In 10 tail -> dom (fds st) = {[0; 1; 2]} -> mapped (memory st) buf 1024 ->
  exists st', main files [name; pattern; arg] st = Ok (tt, st') /\ out st' = out st ++ printed pattern ls.
Proof.
  intros Hfile Hl Ct Ht Hd Hm. destruct (lines_unlines ls Hl) as [El Cl]. assert (E : fst (lines (unlines ls ++ tail)) = ls).
  { rewrite (lines_app (length (unlines ls))) by done. rewrite El. simpl. rewrite lines_none by done. simpl. by rewrite app_nil_r. }
  destruct (grep_files_ok pattern [arg] [unlines ls ++ tail] st) as (st' & E1 & _ & Ho); [|done|done|].
  - constructor; [|constructor]. split; [done|]. split; [apply Forall_app; by split|]. rewrite E. eapply Forall_impl; [exact Hl|]. by intros l (_ & _ & ?).
  - exists st'. split; [exact E1|]. rewrite Ho. simpl. by rewrite E, app_nil_r.
Qed.

End main_spec.

(** The program's memory: the buffer. *)
Definition start_mem : mem := wr buf (replicate 1024 0) ∅.
Definition start (stdin : list (list Z)) : state := mk_state start_mem (<[0 := stdin]> (<[1 := []]> (<[2 := []]> ∅))) [].

Definition demo_texts : list (list (list Z)) := [[str "abc"; str "xyz"; str "b"]; [str "cab"; []]].
Definition demo_files (name : list Z) : option (list (list Z)) :=
  if strcmp_eq name (str "f") then Some [unlines [str "abc"; str "xyz"; str "b"]] else if strcmp_eq name (str "g") then Some [unlines [str "cab"; []]] else None.

Lemma start_mapped stdin : mapped (memory (start stdin)) buf 1024.
Proof. apply (holds_mapped _ _ (replicate 1024 0)). apply wr_holds. Qed.

Lemma grep_prints_matches_witness :
  exists st' ls, main demo_files [str "grep"; str "b$"; str "f"; str "g"] (start []) = Ok (tt, st') /\ out st' = map (fun l => (1, l ++ [10])) ls /\ ls = [str "b"; str "cab"].
Proof.
  destruct (grep_prints_matches demo_files (str "grep") (str "b$") (str "f") [str "g"] demo_texts (start [])) as (st' & ls & E & _ & Ho & Hl & _).
  - assert (T : forall ls, forallb (fun l => forallb is_char l && forallb (fun c => negb (c =? 10)) l && (length l <=? 1022)%nat) ls = true -> Forall text_line ls).
    { intros ls H. apply Forall_forall. intros l Hin. rewrite forallb_forall in H. apply list_elem_of_In, H in Hin. apply andb_true_iff in Hin as [Hin H3]. apply andb_true_iff in Hin as [H1 H2].
      rewrite forallb_forall in H1, H2. split; [apply Forall_forall; intros c Hc; by apply H1, list_elem_of_In|]. split; [intros Hc; by apply H2 in Hc|by apply Nat.leb_le]. }
    apply Forall2_cons. split; [split; [reflexivity|apply T; vm_compute; reflexivity]|]. apply Forall2_cons. split; [split; [reflexivity|apply T; vm_compute; reflexivity]|]. constructor.
  - reflexivity.
  - apply start_mapped.
  - exists st', ls. split; [exact E|]. split; [exact Ho|]. rewrite Hl. vm_compute. reflexivity.
Defined.

(** A line that arrives in two reads, with no newline before it in the
    buffer, loses its first part [u]: grep prints as if only [v] had been
    written to the pipe, although the line it starts with is [u] followed by the
    first line of [v]. *)
Theorem grep_loses_split_line pattern (u v : list Z) :
  u <> [] -> ~ In 10 u -> chars u -> (length u <= 1023)%nat -> chars v ->
  Forall (fun l => (length l <= 1022)%nat) (fst (lines v)) ->
  exists st st', main demo_files [str "grep"; pattern] (start [u; v]) = Ok (tt, st) /\
    main demo_files [str "grep"; pattern] (start (pieces v)) = Ok (tt, st') /\
    out st = out st' /\ out st' = printed pattern (fst (lines v)).
Proof.
  intros Hu Hnl Cu Lu Cv HF. assert (L0 : (0 < length u)%nat) by (destruct u; [done|simpl; lia]).
  destruct (grep_ok pattern 0 v (start (pieces v))) as (st' & E' & _ & _ & Ho'); [apply lookup_insert_eq|done|apply start_mapped|done|].
  assert (H0 : text_ok []) by (split; [intros []|split; [constructor|simpl; lia]]).
  assert (F : grep pattern 0 (start [u; v]) = grep_loop (S (S (length (u ++ v) - 1))) pattern 0 0 (start [u; v])).
  { unfold grep, bind, get, start. cbn [fds]. rewrite lookup_insert_eq. cbn [default from_option]. unfold id.
    replace (concat [u; v]) with (u ++ v) by (simpl; by rewrite app_nil_r).
    rewrite length_app. f_equal. destruct u; [done|]. simpl. lia. }
  pose proof (grep_round pattern 0 (start [u; v]) [] u [v] (S (length (u ++ v) - 1)) Hu (lookup_insert_eq _ _ _) H0 Cu
    ltac:(by intros i x Hx) (start_mapped _)) as G. cbn [app length] in G. rewrite Nat.sub_0_r, take_ge, drop_ge in G by done.
  unfold kept in G. rewrite decide_False in G by done. cbn [length] in G. rewrite (lines_none u Hnl) in G.
  destruct G as (st1 & E1 & Hfd1 & _ & Hh1 & Hm1 & Ho1). unfold more in Hfd1. rewrite bool_decide_true in Hfd1 by done.
  destruct (decide (v = [])) as [->|Hv].
  - eexists _, st'. split; [|split; [exact E'|]].
    + cbn [main]. rewrite F. refine (eq_trans E1 _). cbn [grep_loop].
      rewrite (bind_ok _ _ _ _ _ (read_ok 0 _ _ [] [] st1 ltac:(rewrite Hfd1; apply lookup_insert_eq) (Forall_nil_2 _)
        ltac:(rewrite take_nil; intros j Hj; simpl in Hj; lia))). cbv beta. rewrite take_nil. reflexivity.
    + cbn [out]. by rewrite Ho1, Ho'.
  - destruct (grep_loop_ok pattern 0 (length v) [] v st1 (S (length (u ++ v) - 1))) as (st2 & E2 & _ & _ & Ho2);
      [lia|rewrite length_app; lia| |exact H0|exact Cv|exact Hh1|exact Hm1|exact HF|].
    + rewrite Hfd1, lookup_insert_eq. unfold pieces, more. by rewrite bool_decide_false.
    + exists st2, st'. split; [cbn [main]; rewrite F; exact (eq_trans E1 E2)|]. split; [exact E'|].
      by rewrite Ho2, Ho1, Ho'.
Qed.

Lemma grep_loses_split_line_witness :
  exists st st', main demo_files [str "grep"; str "ab"] (start [str "ab"; str "c" ++ [10]]) = Ok (tt, st) /\
    main demo_files [str "grep"; str "ab"] (start (pieces (str "c" ++ [10]))) = Ok (tt, st') /\
    out st = out st' /\ out st' = [].
Proof.
  apply (grep_loses_split_line (str "ab") (str "ab") (str "c" ++ [10])).
  - discriminate.
  - intros [H|[H|[]]]; discriminate H.
  - repeat constructor.
  - simpl. lia.
  - repeat constructor.
  - repeat constructor.
Defined.
End Grep.
