(* ===== verification/Spinlock.v ===== *)
(** * Spinlock: mutual exclusion between processors

    spinlock.c with mycpu of proc.c, for any number of processors and one lock.
    The operations are state transformers of the processor [p] that runs them;
    acquire and release are also given as the sequence of their shared memory
    accesses, [step], which a schedule interleaves.  [name] and [pcs], which
    only serve debugging, are left out. *)
From stdpp Require Import base list gmap strings.
From Stdlib Require Import ZArith Lia.
From S2P Require Import Prelude.

Module Spinlock.

(** Where a processor is in acquire and release. *)
Inductive pc :=
  | Idle
  | AHold1 | AHold2            (* holding, called by acquire *)
  | Spin
  | SetCpu
  | Critical                   (* acquire has returned *)
  | RHold1 | RHold2            (* holding, called by release *)
  | ClearCpu
  | Unlock
  | PopCli.

#[export] Instance pc_eq_dec : EqDecision pc.
Proof. solve_decision. Defined.

(** A processor: its APIC id and interrupt flag, its [struct cpu], and where it is. *)
Record processor := mk_proc {
  lapicid : Z;
  iflag : bool;
  apicid : Z;
  ncli : Z;
  intena : bool;
  at_pc : pc
}.

Record spinlock := mk_lock { locked : Z; lcpu : option nat }.

Record state := mk_state { procs : list processor; lk : spinlock }.

Definition get_proc (p : nat) : M state processor :=
  let! st := get in of_option OutOfBounds (procs st !! p).
Definition upd_proc (p : nat) (f : processor -> processor) : M state unit :=
  modify (fun st => mk_state (alter f p (procs st)) (lk st)).
Definition set_lk (l : spinlock) : M state unit := modify (fun st => mk_state (procs st) l).

Definition set_iflag (b : bool) (x : processor) : processor :=
  mk_proc (lapicid x) b (apicid x) (ncli x) (intena x) (at_pc x).
Definition set_ncli (n : Z) (x : processor) : processor :=
  mk_proc (lapicid x) (iflag x) (apicid x) n (intena x) (at_pc x).
Definition set_intena (b : bool) (x : processor) : processor :=
  mk_proc (lapicid x) (iflag x) (apicid x) (ncli x) b (at_pc x).
Definition set_pc (c : pc) (x : processor) : processor :=
  mk_proc (lapicid x) (iflag x) (apicid x) (ncli x) (intena x) c.

(** ** proc.c *)

Fixpoint find_cpu (id : Z) (l : list processor) (i : nat) : option nat :=
  match l with
  | [] => None
  | x :: l => if apicid x =? id then Some i else find_cpu id l (S i)
  end.
Definition mycpu (p : nat) : M state nat :=
  let! x := get_proc p in
  if iflag x then fail (Panic "mycpu called with interrupts enabled") else
  let! st := get in
  of_option (Panic "unknown apicid") (find_cpu (lapicid x) (procs st) 0).

(** ** spinlock.c *)

Definition initlock : M state unit := set_lk (mk_lock 0 None).

Definition pushcli (p : nat) : M state unit :=
  let! x := get_proc p in
  let eflags := iflag x in
  do! upd_proc p (set_iflag false) in
  let! c := mycpu p in
  let! y := get_proc c in
  do! (if ncli y =? 0 then upd_proc c (set_intena eflags) else ret tt) in
  let! c := mycpu p in
  let! y := get_proc c in
  let! n := chk_int (ncli y + 1) in
  upd_proc c (set_ncli n).

Definition popcli (p : nat) : M state unit :=
  let! x := get_proc p in
  if iflag x then fail (Panic "popcli - interruptible") else
  let! c := mycpu p in
  let! y := get_proc c in
  let! n := chk_int (ncli y - 1) in
  do! upd_proc c (set_ncli n) in
  if n <? 0 then fail (Panic "popcli") else
  let! c := mycpu p in
  let! y := get_proc c in
  if (ncli y =? 0) && intena y then upd_proc p (set_iflag true) else ret tt.

Definition holding (p : nat) : M state bool :=
  do! pushcli p in
  let! st := get in
  let! r := (if negb (locked (lk st) =? 0) then
               let! c := mycpu p in
               ret (bool_decide (lcpu (lk st) = Some c))
             else ret false) in
  do! popcli p in
  ret r.

(** A try of the loop: xchg stores 1 and gives the old value. *)
Definition xchg : M state Z :=
  let! st := get in
  do! set_lk (mk_lock 1 (lcpu (lk st))) in
  ret (locked (lk st)).

(** acquire and release of a processor that no other one interferes with: a
    lock that is taken is waited for without end. *)
Definition acquire (p : nat) : M state unit :=
  do! pushcli p in
  let! h := holding p in
  if h then fail (Panic "acquire") else
  let! old := xchg in
  if negb (old =? 0) then fail OutOfFuel else
  let! c := mycpu p in
  let! st := get in
  set_lk (mk_lock (locked (lk st)) (Some c)).

Definition release (p : nat) : M state unit :=
  let! h := holding p in
  if negb h then fail (Panic "release") else
  let! st := get in
  do! set_lk (mk_lock (locked (lk st)) None) in
  let! st := get in
  do! set_lk (mk_lock 0 (lcpu (lk st))) in
  popcli p.

(** ** The same code, one shared access at a time

    The processors call acquire and release in turn, for ever.  A step ends
    after an access to the lock; pushcli and popcli touch the processor's own
    data only. *)
Definition goto (p : nat) (c : pc) : M state unit := upd_proc p (set_pc c).

(** The two reads of [holding]. *)
Definition read_locked (p : nat) (yes no : M state unit) : M state unit :=
  do! pushcli p in
  let! st := get in
  if negb (locked (lk st) =? 0) then yes else do! popcli p in no.
Definition read_cpu (p : nat) (yes no : M state unit) : M state unit :=
  let! c := mycpu p in
  let! st := get in
  let r := bool_decide (lcpu (lk st) = Some c) in
  do! popcli p in
  if r then yes else no.

Definition step (p : nat) : M state unit :=
  let! x := get_proc p in
  match at_pc x with
  | Idle => do! pushcli p in goto p AHold1
  | AHold1 => read_locked p (goto p AHold2) (goto p Spin)
  | AHold2 => read_cpu p (fail (Panic "acquire")) (goto p Spin)
  | Spin => let! old := xchg in if negb (old =? 0) then ret tt else goto p SetCpu
  | SetCpu =>
      let! c := mycpu p in
      let! st := get in
      do! set_lk (mk_lock (locked (lk st)) (Some c)) in
      goto p Critical
  | Critical => goto p RHold1
  | RHold1 => read_locked p (goto p RHold2) (fail (Panic "release"))
  | RHold2 => read_cpu p (goto p ClearCpu) (fail (Panic "release"))
  | ClearCpu =>
      let! st := get in
      do! set_lk (mk_lock (locked (lk st)) None) in
      goto p Unlock
  | Unlock =>
      let! st := get in
      do! set_lk (mk_lock 0 (lcpu (lk st))) in
      goto p PopCli
  | PopCli => do! popcli p in goto p Idle
  end.

Fixpoint run (sched : list nat) : M state unit :=
  match sched with
  | [] => ret tt
  | p :: sched => do! step p in run sched
  end.

(** ** The invariant *)

(** How many times pushcli has been called and not undone. *)
Definition depth (c : pc) : Z :=
  match c with Idle => 0 | AHold2 | RHold2 => 2 | _ => 1 end.

(** Between the exchange that took the lock and the store that frees it. *)
Definition owns (c : pc) : bool :=
  match c with SetCpu | Critical | RHold1 | RHold2 | ClearCpu | Unlock => true | _ => false end.

(** While [lk->cpu] names the processor. *)
Definition named (c : pc) : bool :=
  match c with Critical | RHold1 | RHold2 | ClearCpu => true | _ => false end.

(** [fl] is the interrupt flag the processor had before acquire. *)
Definition proc_ok (x : processor) (fl : bool) : Prop :=
  ncli x = depth (at_pc x) /\
  (if bool_decide (at_pc x = Idle) then iflag x = fl else iflag x = false /\ intena x = fl).

Record ids_ok (l : list processor) : Prop := {
  ids_nodup : NoDup (map apicid l);
  ids_eq p x : l !! p = Some x -> lapicid x = apicid x
}.

(** [o] is the processor that has the lock. *)
Record Inv (fls : list bool) (o : option nat) (st : state) : Prop := {
  i_ids : ids_ok (procs st);
  i_proc p x : procs st !! p = Some x -> exists fl, fls !! p = Some fl /\ proc_ok x fl;
  i_locked : locked (lk st) = (if o then 1 else 0);
  i_owns p x : procs st !! p = Some x -> owns (at_pc x) = bool_decide (o = Some p);
  i_named p x : procs st !! p = Some x -> named (at_pc x) = bool_decide (lcpu (lk st) = Some p);
  i_lcpu p : lcpu (lk st) = Some p -> exists x, procs st !! p = Some x;
  i_range p : o = Some p -> (p < length (procs st))%nat
}.

Lemma find_cpu_ok l : forall p i x, NoDup (map apicid l) -> l !! p = Some x -> find_cpu (apicid x) l i = Some (i + p)%nat.
Proof.
  induction l as [|y l IH]; intros [|p] i x Hn Hx; try done; simpl in *.
  - injection Hx as ->. rewrite Z.eqb_refl. f_equal. lia.
  - inversion Hn as [|?? Hy Hn']; subst. case_Z.
    + exfalso. apply Hy. rewrite e. apply list_elem_of_fmap_2. by eapply list_elem_of_lookup_2.
    + rewrite (IH p (S i) x Hn' Hx). f_equal. lia.
Qed.

Lemma mycpu_ok st p x :
  ids_ok (procs st) -> procs st !! p = Some x -> iflag x = false -> mycpu p st = Ok (p, st).
Proof.
  intros [Hn He] Hx Hi. unfold mycpu, get_proc, bind, get, of_option. rewrite Hx. unfold ret. rewrite Hi.
  by rewrite (He p x Hx), (find_cpu_ok _ p 0 x Hn Hx).
Qed.

Lemma get_proc_ok st p x : procs st !! p = Some x -> get_proc p st = Ok (x, st).
Proof. intros H. unfold get_proc, bind, get. by rewrite H. Qed.

Lemma alter_insert_eq (l : list processor) p x f : l !! p = Some x -> alter f p l = <[p := f x]> l.
Proof.
  intros H. apply list_eq. intros q. destruct (decide (p = q)) as [<-|].
  - rewrite list_lookup_alter_eq, list_lookup_insert_eq by (by eapply lookup_lt_Some). by rewrite H.
  - by rewrite list_lookup_alter_ne, list_lookup_insert_ne.
Qed.

Lemma upd_proc_ok st p x f : procs st !! p = Some x -> upd_proc p f st = Ok (tt, mk_state (<[p := f x]> (procs st)) (lk st)).
Proof. intros H. unfold upd_proc, modify. by rewrite (alter_insert_eq _ p x). Qed.

(** Replacing processor [p] by one with the same ids. *)
Lemma ids_insert l p x y :
  ids_ok l -> l !! p = Some x -> apicid y = apicid x -> lapicid y = lapicid x -> ids_ok (<[p := y]> l).
Proof.
  intros [Hn He] Hx Ha Hl. assert (p < length l)%nat by (by eapply lookup_lt_Some).
  assert (E : map apicid (<[p := y]> l) = map apicid l).
  { apply list_eq. intros q. change (@map processor Z) with (@fmap list _ processor Z). rewrite !list_lookup_fmap.
    destruct (decide (p = q)) as [<-|]; [rewrite list_lookup_insert_eq, Hx by done; simpl; congruence|by rewrite list_lookup_insert_ne]. }
  split; [by rewrite E|]. intros q z. destruct (decide (p = q)) as [<-|].
  - rewrite list_lookup_insert_eq by done. intros [= <-]. rewrite Hl, Ha. by apply (He p).
  - rewrite list_lookup_insert_ne by done. apply He.
Qed.

Definition pushed (x : processor) : processor :=
  mk_proc (lapicid x) false (apicid x) (ncli x + 1) (if ncli x =? 0 then iflag x else intena x) (at_pc x).
Definition popped (x : processor) : processor :=
  mk_proc (lapicid x) ((ncli x - 1 =? 0) && intena x) (apicid x) (ncli x - 1) (intena x) (at_pc x).

Lemma lookup_insert_proc (l : list processor) p x y : l !! p = Some x -> <[p := y]> l !! p = Some y.
Proof. intros H. apply list_lookup_insert_eq. by eapply lookup_lt_Some. Qed.

(** Runs the next operation, which ends as lemma [H] says. *)
Ltac run_op H := rewrite (bind_ok _ _ _ _ _ H); cbv beta.

Lemma pushcli_ok st p x :
  ids_ok (procs st) -> procs st !! p = Some x -> -1 <= ncli x < INT_MAX ->
  pushcli p st = Ok (tt, mk_state (<[p := pushed x]> (procs st)) (lk st)).
Proof.
  intros Hids Hx Hr. unfold pushcli. run_op (get_proc_ok st p x Hx). run_op (upd_proc_ok st p x (set_iflag false) Hx).
  set (st1 := mk_state (<[p := set_iflag false x]> (procs st)) (lk st)).
  assert (H1 : procs st1 !! p = Some (set_iflag false x)) by (by eapply lookup_insert_proc).
  assert (I1 : ids_ok (procs st1)) by (by apply (ids_insert _ p x)).
  run_op (mycpu_ok st1 p _ I1 H1 eq_refl). run_op (get_proc_ok st1 p _ H1).
  set (y := if ncli x =? 0 then set_intena (iflag x) (set_iflag false x) else set_iflag false x).
  set (st2 := mk_state (<[p := y]> (procs st)) (lk st)).
  assert (E : (if ncli (set_iflag false x) =? 0 then upd_proc p (set_intena (iflag x)) else ret tt) st1 = Ok (tt, st2)).
  { unfold st2, y. cbn [ncli set_iflag]. case_Z; [|done]. rewrite (upd_proc_ok st1 p _ _ H1). unfold st1. cbn [procs lk].
    by rewrite list_insert_insert_eq. }
  run_op E. assert (H2 : procs st2 !! p = Some y) by (by eapply lookup_insert_proc).
  assert (I2 : ids_ok (procs st2)) by (apply (ids_insert _ p x); [done|done|unfold y; by destruct (ncli x =? 0)..]).
  assert (N : ncli y = ncli x) by (unfold y; by destruct (ncli x =? 0)).
  run_op (mycpu_ok st2 p y I2 H2 ltac:(unfold y; by destruct (ncli x =? 0))). run_op (get_proc_ok st2 p y H2).
  unfold bind, chk_int. rewrite N, (proj2 (int_range_spec _)) by (unfold INT_MIN, INT_MAX in *; lia). unfold ret.
  rewrite (upd_proc_ok st2 p y _ H2). unfold st2. cbn [procs lk]. rewrite list_insert_insert_eq.
  do 4 f_equal. unfold y, pushed, set_ncli. by destruct (ncli x =? 0).
Qed.

Lemma popcli_ok st p x :
  ids_ok (procs st) -> procs st !! p = Some x -> iflag x = false -> 1 <= ncli x <= INT_MAX ->
  popcli p st = Ok (tt, mk_state (<[p := popped x]> (procs st)) (lk st)).
Proof.
  intros Hids Hx Hi Hr. unfold popcli. run_op (get_proc_ok st p x Hx). rewrite Hi.
  run_op (mycpu_ok st p x Hids Hx Hi). run_op (get_proc_ok st p x Hx).
  unfold bind at 1, chk_int. rewrite (proj2 (int_range_spec _)) by (unfold INT_MIN, INT_MAX in *; lia). unfold ret at 1.
  run_op (upd_proc_ok st p x (set_ncli (ncli x - 1)) Hx). rewrite (proj2 (Z.ltb_ge (ncli x - 1) 0)) by lia.
  set (y := set_ncli (ncli x - 1) x). set (st1 := mk_state (<[p := y]> (procs st)) (lk st)).
  assert (H1 : procs st1 !! p = Some y) by (by eapply lookup_insert_proc).
  assert (I1 : ids_ok (procs st1)) by (by apply (ids_insert _ p x)).
  run_op (mycpu_ok st1 p y I1 H1 Hi). run_op (get_proc_ok st1 p y H1). cbn [ncli intena y set_ncli].
  unfold popped. destruct ((ncli x - 1 =? 0) && intena x) eqn:E.
  - rewrite (upd_proc_ok st1 p y _ H1). unfold st1. cbn [procs lk]. by rewrite list_insert_insert_eq.
  - unfold ret, st1, y, set_ncli. by rewrite Hi.
Qed.

Lemma inv_insert fls (o o' : option nat) st p x x' l' :
  Inv fls o st -> procs st !! p = Some x ->
  apicid x' = apicid x -> lapicid x' = lapicid x ->
  (forall fl, proc_ok x fl -> proc_ok x' fl) ->
  locked l' = (if o' then 1 else 0) ->
  owns (at_pc x') = bool_decide (o' = Some p) -> named (at_pc x') = bool_decide (lcpu l' = Some p) ->
  (forall q, q <> p -> bool_decide (o' = Some q) = bool_decide (o = Some q) /\
                       bool_decide (lcpu l' = Some q) = bool_decide (lcpu (lk st) = Some q)) ->
  Inv fls o' (mk_state (<[p := x']> (procs st)) l').
Proof.
  intros [Hi Hp Hl Ho Hn Hc Hr] Hx Ha Hla Hok Hl' Ho' Hn' Hq. assert (Hlen : (p < length (procs st))%nat) by (by eapply lookup_lt_Some).
  assert (L : forall q y, <[p := x']> (procs st) !! q = Some y -> (q = p /\ y = x') \/ (q <> p /\ procs st !! q = Some y)).
  { intros q y. destruct (decide (q = p)) as [->|Hne]; [rewrite list_lookup_insert_eq by done; intros [= <-]; auto|].
    rewrite list_lookup_insert_ne by done. auto. }
  split; cbn [procs lk]; [by apply (ids_insert _ p x)| |done| | | |];
    [intros q y Hy; apply L in Hy as [[-> ->]|[Hne Hy]]..| |].
  - destruct (Hp p x Hx) as (fl & Hf & Hx'). exists fl. auto.
  - by apply Hp.
  - done.
  - rewrite (proj1 (Hq q Hne)). by apply Ho.
  - done.
  - rewrite (proj2 (Hq q Hne)). by apply Hn.
  - intros q Hcq. destruct (decide (q = p)) as [->|Hne]; [by exists x'; eapply lookup_insert_proc|].
    rewrite list_lookup_insert_ne by done. apply Hc, (bool_decide_eq_true_1 _). rewrite <- (proj2 (Hq q Hne)). by apply bool_decide_eq_true_2.
  - intros q Hoq. rewrite length_insert. destruct (decide (q = p)) as [->|Hne]; [done|].
    apply Hr, (bool_decide_eq_true_1 _). rewrite <- (proj1 (Hq q Hne)). by apply bool_decide_eq_true_2.
Qed.

(** Only the owner is named. *)
Lemma named_owner fls o st q : Inv fls o st -> lcpu (lk st) = Some q -> o = Some q.
Proof.
  intros I Hq. destruct (i_lcpu _ _ _ I q Hq) as [y Hy]. apply (bool_decide_eq_true_1 _). rewrite <- (i_owns _ _ _ I q y Hy).
  pose proof (i_named _ _ _ I q y Hy) as Hn. rewrite Hq, bool_decide_true in Hn by done. by destruct (at_pc y).
Qed.

Lemma goto_ok st p x c : procs st !! p = Some x -> goto p c st = Ok (tt, mk_state (<[p := set_pc c x]> (procs st)) (lk st)).
Proof. intros H. by apply upd_proc_ok. Qed.

(** Where a step leads when the lock has the value [l]. *)
Definition next_pc (c : pc) (l : Z) : pc :=
  match c with
  | Idle => AHold1
  | AHold1 => if l =? 0 then Spin else AHold2
  | AHold2 => Spin
  | Spin => if l =? 0 then SetCpu else Spin
  | SetCpu => Critical
  | Critical => RHold1
  | RHold1 => RHold2
  | RHold2 => ClearCpu
  | ClearCpu => Unlock
  | Unlock => PopCli
  | PopCli => Idle
  end.

(** What a step does to the processor's own data. *)
Definition next_proc (x : processor) (l : Z) : processor :=
  set_pc (next_pc (at_pc x) l)
    match at_pc x with
    | Idle | RHold1 => pushed x
    | AHold1 => if l =? 0 then popped (pushed x) else pushed x
    | AHold2 | RHold2 | PopCli => popped x
    | _ => x
    end.

Lemma next_proc_ok x l fl : proc_ok x fl -> proc_ok (next_proc x l) fl.
Proof.
  destruct x as [la i a n e c]. unfold proc_ok, next_proc, pushed, popped, set_pc. intros [Hn Hc].
  destruct c; simpl in *; rewrite ?bool_decide_true in * by done; rewrite ?bool_decide_false in * by done; subst n;
    repeat case_Z; simpl; try lia; rewrite ?bool_decide_true by done; rewrite ?bool_decide_false by done; intuition congruence.
Qed.

(** What a step does to the lock. *)
Definition next_lk (p : nat) (c : pc) (l : spinlock) : spinlock :=
  match c with
  | Spin => mk_lock 1 (lcpu l)
  | SetCpu => mk_lock (locked l) (Some p)
  | ClearCpu => mk_lock (locked l) None
  | Unlock => mk_lock 0 (lcpu l)
  | _ => l
  end.

Definition next_owner (p : nat) (c : pc) (o : option nat) : option nat :=
  match c with
  | Spin => match o with None => Some p | Some _ => o end
  | Unlock => None
  | _ => o
  end.

(** A processor in [holding] after its first read. *)
Lemma read_cpu_ok st p x yes no :
  ids_ok (procs st) -> procs st !! p = Some x -> iflag x = false -> ncli x = 2 ->
  read_cpu p yes no st = (if bool_decide (lcpu (lk st) = Some p) then yes else no) (mk_state (<[p := popped x]> (procs st)) (lk st)).
Proof.
  intros Hi Hx Hf Hn. unfold read_cpu. run_op (mycpu_ok st p x Hi Hx Hf). rewrite (bind_ok get _ st st st eq_refl). cbv zeta.
  by run_op (popcli_ok st p x Hi Hx Hf ltac:(unfold INT_MAX; lia)).
Qed.

Lemma read_locked_ok st p x yes no :
  ids_ok (procs st) -> procs st !! p = Some x -> ncli x = 1 ->
  read_locked p yes no st =
    (if locked (lk st) =? 0 then no (mk_state (<[p := popped (pushed x)]> (procs st)) (lk st))
     else yes (mk_state (<[p := pushed x]> (procs st)) (lk st))).
Proof.
  intros Hi Hx Hn. unfold read_locked. run_op (pushcli_ok st p x Hi Hx ltac:(unfold INT_MAX; lia)).
  set (st1 := mk_state (<[p := pushed x]> (procs st)) (lk st)). rewrite (bind_ok get _ st1 st1 st1 eq_refl).
  cbn [lk st1]. case_Z; [|done]. cbn [negb].
  assert (H1 : procs st1 !! p = Some (pushed x)) by (by eapply lookup_insert_proc).
  run_op (popcli_ok st1 p _ ltac:(by apply (ids_insert _ p x)) H1 eq_refl ltac:(cbn [ncli pushed]; unfold INT_MAX; lia)).
  unfold st1. cbn [procs lk]. by rewrite list_insert_insert_eq.
Qed.

(** A step never panics, and does this. *)
Lemma step_eq fls o st p x :
  Inv fls o st -> procs st !! p = Some x ->
  step p st = Ok (tt, mk_state (<[p := next_proc x (locked (lk st))]> (procs st)) (next_lk p (at_pc x) (lk st))).
Proof.
  intros I Hx. pose proof (i_ids _ _ _ I) as Hi. destruct (i_proc _ _ _ I p x Hx) as (fl & _ & Hn & Hc).
  pose proof (i_owns _ _ _ I p x Hx) as Ho. pose proof (i_named _ _ _ I p x Hx) as Hm. pose proof (i_locked _ _ _ I) as Hl.
  assert (Own : owns (at_pc x) = true -> (locked (lk st) =? 0) = false).
  { intros E. rewrite E in Ho. symmetry in Ho. apply bool_decide_eq_true in Ho. by rewrite Hl, Ho. }
  assert (G : forall y c l, procs st !! p = Some x ->
    goto p c (mk_state (<[p := y]> (procs st)) l) = Ok (tt, mk_state (<[p := set_pc c y]> (procs st)) l)).
  { intros y c l _. rewrite (goto_ok _ p y c) by (by eapply lookup_insert_proc). cbn [procs lk]. by rewrite list_insert_insert_eq. }
  unfold step. run_op (get_proc_ok st p x Hx). unfold next_proc, next_lk.
  destruct (at_pc x) eqn:E; cbn [depth owns named next_pc] in *;
    rewrite ?bool_decide_true in Hc by done; rewrite ?bool_decide_false in Hc by done.
  - run_op (pushcli_ok st p x Hi Hx ltac:(unfold INT_MAX; lia)). by apply G.
  - rewrite (read_locked_ok st p x _ _ Hi Hx Hn). destruct (locked (lk st) =? 0); by apply G.
  - rewrite (read_cpu_ok st p x _ _ Hi Hx (proj1 Hc) Hn), <- Hm. by apply G.
  - rewrite (bind_ok xchg _ st (locked (lk st)) (mk_state (procs st) (mk_lock 1 (lcpu (lk st)))) eq_refl). cbv beta.
    destruct (locked (lk st) =? 0); cbn [negb]; [by apply (goto_ok (mk_state (procs st) _))|].
    unfold ret. do 3 f_equal. symmetry. apply list_insert_id. rewrite Hx. f_equal. destruct x; simpl in *; by subst.
  - run_op (mycpu_ok st p x Hi Hx (proj1 Hc)). by apply (goto_ok (mk_state (procs st) _)).
  - by apply goto_ok.
  - rewrite (read_locked_ok st p x _ _ Hi Hx Hn), Own by done. by apply G.
  - rewrite (read_cpu_ok st p x _ _ Hi Hx (proj1 Hc) Hn), <- Hm. by apply G.
  - by apply (goto_ok (mk_state (procs st) _)).
  - by apply (goto_ok (mk_state (procs st) _)).
  - run_op (popcli_ok st p x Hi Hx (proj1 Hc) ltac:(unfold INT_MAX; lia)). by apply G.
Qed.

Lemma step_inv fls o st p x :
  Inv fls o st -> procs st !! p = Some x ->
  Inv fls (next_owner p (at_pc x) o)
    (mk_state (<[p := next_proc x (locked (lk st))]> (procs st)) (next_lk p (at_pc x) (lk st))).
Proof.
  intros I Hx. pose proof (i_owns _ _ _ I p x Hx) as Ho. pose proof (i_named _ _ _ I p x Hx) as Hm. pose proof (i_locked _ _ _ I) as Hl.
  assert (L : forall q : nat, locked (lk st) = 0 -> o = Some q -> False) by (intros q H0 ->; rewrite Hl in H0; lia).
  apply (inv_insert fls o _ st p x); [done|done| | |intros fl; apply next_proc_ok| | | |].
  - unfold next_proc. destruct (at_pc x); try done. by destruct (locked (lk st) =? 0).
  - unfold next_proc. destruct (at_pc x); try done. by destruct (locked (lk st) =? 0).
  - unfold next_lk, next_owner. destruct (at_pc x); try done. by destruct o.
  - unfold next_proc. cbn [set_pc at_pc]. unfold next_owner, next_pc. destruct (at_pc x); try done; case_Z; try done.
    + destruct o; [exfalso; by eapply L|]. by rewrite bool_decide_true.
    + destruct o; [done|]. congruence.
  - unfold next_proc, next_lk. cbn [set_pc at_pc]. unfold next_pc. destruct (at_pc x); try done; try case_Z; try done; cbn [named lcpu]; by rewrite ?bool_decide_true.
  - intros q Hq. unfold next_owner, next_lk. destruct (at_pc x); cbn [lcpu owns named] in *; split; try done.
    + destruct o; [done|]. rewrite !bool_decide_false by congruence. done.
    + rewrite bool_decide_false by congruence. symmetry. apply bool_decide_eq_false. intros Hc.
      apply (named_owner fls o) in Hc; [|done]. symmetry in Ho. apply bool_decide_eq_true in Ho. congruence.
    + rewrite bool_decide_false by congruence. symmetry. apply bool_decide_eq_false. intros Hc.
      symmetry in Hm. apply bool_decide_eq_true in Hm. congruence.
    + rewrite bool_decide_false by congruence. symmetry. apply bool_decide_eq_false.
      symmetry in Ho. apply bool_decide_eq_true in Ho. congruence.
Qed.

(** ** Schedules *)

Lemma run_app s1 s2 st : run (s1 ++ s2) st = bind (run s1) (fun _ => run s2) st.
Proof.
  revert st. induction s1 as [|p s1 IH]; intros st; [done|]. cbn [app run]. rewrite bind_assoc.
  destruct (step p st) as [[[] st']|f] eqn:E; [rewrite !(bind_ok _ _ _ _ _ E); apply IH|by rewrite !(bind_err _ _ _ _ E)].
Qed.

Lemma run_inv fls sched : forall o st,
  Inv fls o st -> Forall (fun p => (p < length (procs st))%nat) sched ->
  exists o' st', run sched st = Ok (tt, st') /\ Inv fls o' st' /\ length (procs st') = length (procs st).
Proof.
  induction sched as [|p sched IH]; intros o st I HF; [by exists o, st|].
  inversion HF as [|?? Hp HF']; subst. destruct (lookup_lt_is_Some_2 _ _ Hp) as [x Hx]. simpl.
  run_op (step_eq fls o st p x I Hx). pose proof (step_inv fls o st p x I Hx) as I'.
  destruct (IH _ _ I') as (o' & st' & E & I2 & L); [cbn [procs]; by rewrite length_insert|].
  exists o', st'. split; [done|]. split; [done|]. cbn [procs] in L. by rewrite length_insert in L.
Qed.

(** The machine before the lock is used: every processor idle, with interrupts
    on or off. *)
Definition initial (ids : list Z) (fls : list bool) : state :=
  mk_state (zip_with (fun id fl => mk_proc id fl id 0 false Idle) ids fls) (mk_lock 0 None).

Lemma initial_lookup ids fls p x :
  procs (initial ids fls) !! p = Some x ->
  exists id fl, ids !! p = Some id /\ fls !! p = Some fl /\ x = mk_proc id fl id 0 false Idle.
Proof. cbn [procs initial]. intros H. apply lookup_zip_with_Some in H as (id & fl & -> & ? & ?). eauto. Qed.

Lemma initial_inv ids fls : NoDup ids -> length ids = length fls -> Inv fls None (initial ids fls).
Proof.
  intros Hn Hl. split.
  - split.
    + replace (map apicid (procs (initial ids fls))) with ids; [done|]. cbn [procs initial]. clear Hn. revert fls Hl.
      induction ids as [|id ids IH]; intros [|fl fls] Hl; simplify_eq/=; [done|]. by rewrite <- IH.
    + intros p x Hx. apply initial_lookup in Hx as (id & fl & _ & _ & ->). done.
  - intros p x Hx. apply initial_lookup in Hx as (id & fl & _ & Hf & ->). exists fl. done.
  - done.
  - intros p x Hx. apply initial_lookup in Hx as (id & fl & _ & _ & ->). done.
  - intros p x Hx. apply initial_lookup in Hx as (id & fl & _ & _ & ->). done.
  - done.
  - done.
Qed.

(** C9. Under every interleaving of any number of processors that acquire and
    release a spin lock, nobody panics, at most one processor is in its critical
    section, it has interrupts off there, and a processor that has released the
    lock has its interrupt flag back. *)
Theorem spinlock_mutual_exclusion ids fls sched :
  NoDup ids -> length ids = length fls -> Forall (fun p => (p < length ids)%nat) sched ->
  exists st, run sched (initial ids fls) = Ok (tt, st) /\
    (forall p q x y, procs st !! p = Some x -> procs st !! q = Some y ->
       at_pc x = Critical -> at_pc y = Critical -> p = q) /\
    (forall p x, procs st !! p = Some x -> at_pc x = Critical -> iflag x = false /\ lcpu (lk st) = Some p) /\
    (forall p x, procs st !! p = Some x -> at_pc x = Idle -> Some (iflag x) = fls !! p /\ ncli x = 0).
Proof.
  intros Hn Hl HF. destruct (run_inv fls sched None (initial ids fls)) as (o & st & E & I & _).
  { by apply initial_inv. }
  { cbn [procs initial]. by rewrite length_zip_with, <- Hl, Nat.min_id. }
  exists st. split; [done|]. split; [|split].
  - intros p q x y Hx Hy Cx Cy. pose proof (i_owns _ _ _ I p x Hx) as Ox. pose proof (i_owns _ _ _ I q y Hy) as Oy.
    rewrite Cx in Ox. rewrite Cy in Oy. symmetry in Ox, Oy. apply bool_decide_eq_true in Ox, Oy. congruence.
  - intros p x Hx Cx. destruct (i_proc _ _ _ I p x Hx) as (fl & _ & _ & Hc). rewrite Cx, bool_decide_false in Hc by done.
    pose proof (i_named _ _ _ I p x Hx) as Nx. rewrite Cx in Nx. symmetry in Nx. apply bool_decide_eq_true in Nx. by destruct Hc.
  - intros p x Hx Cx. destruct (i_proc _ _ _ I p x Hx) as (fl & Hf & Hd & Hc). rewrite Cx in *.
    rewrite bool_decide_true in Hc by done. split; [congruence|done].
Qed.

(** Two processors; 0 takes the lock while 1 spins. *)
Lemma spinlock_mutual_exclusion_witness :
  exists st, run [0; 1; 0; 1; 0; 0; 1; 1; 1]%nat (initial [5; 9] [true; false]) = Ok (tt, st) /\
    (forall p q x y, procs st !! p = Some x -> procs st !! q = Some y -> at_pc x = Critical -> at_pc y = Critical -> p = q).
Proof.
  destruct (spinlock_mutual_exclusion [5; 9] [true; false] [0; 1; 0; 1; 0; 0; 1; 1; 1]%nat) as (st & E & H & _).
  - apply (bool_decide_unpack _). vm_compute. exact I.
  - reflexivity.
  - repeat constructor.
  - exists st. split; [exact E|exact H].
Defined.

Lemma step_pc fls o st p x :
  Inv fls o st -> procs st !! p = Some x ->
  exists st' x', step p st = Ok (tt, st') /\ Inv fls (next_owner p (at_pc x) o) st' /\
    procs st' = <[p := x']> (procs st) /\ procs st' !! p = Some x' /\ at_pc x' = next_pc (at_pc x) (locked (lk st)).
Proof.
  intros I Hx. eexists _, _. split; [by apply (step_eq fls o)|]. split; [by apply step_inv|]. cbn [procs].
  split; [done|]. split; [by eapply lookup_insert_proc|done].
Qed.

(** Steps left until the lock is free again. *)
Definition to_leave (c : pc) : nat :=
  match c with SetCpu => 6 | Critical => 5 | RHold1 => 4 | RHold2 => 3 | ClearCpu => 2 | Unlock => 1 | _ => 0 end%nat.

Lemma owner_leaves fls n : forall st p x,
  Inv fls (Some p) st -> procs st !! p = Some x -> to_leave (at_pc x) = n ->
  exists st' x', run (replicate n p) st = Ok (tt, st') /\ Inv fls None st' /\ procs st' = <[p := x']> (procs st).
Proof.
  induction n as [|n IH]; intros st p x I Hx Hn; pose proof (i_owns _ _ _ I p x Hx) as Ho; rewrite bool_decide_true in Ho by done.
  - by destruct (at_pc x).
  - destruct (step_pc fls _ st p x I Hx) as (st1 & x1 & E & I1 & Hp & Hx1 & Hc). simpl. run_op E.
    destruct n as [|n].
    + exists st1, x1. destruct (at_pc x); try done.
    + assert (Ho1 : next_owner p (at_pc x) (Some p) = Some p) by (destruct (at_pc x); done).
      rewrite Ho1 in I1. destruct (IH st1 p x1 I1 Hx1) as (st2 & x2 & E2 & I2 & Hp2); [rewrite Hc; destruct (at_pc x); simpl in *; lia|].
      exists st2, x2. rewrite Hp, list_insert_insert_eq in Hp2. done.
Qed.

(** Steps left until acquire returns, with the lock free. *)
Definition to_enter (c : pc) : nat :=
  match c with PopCli => 6 | Idle => 5 | AHold1 => 4 | AHold2 => 3 | Spin => 2 | SetCpu => 1 | _ => 0 end%nat.

Lemma enters fls n : forall o st p x,
  Inv fls o st -> o = None \/ at_pc x = SetCpu /\ o = Some p -> procs st !! p = Some x -> (to_enter (at_pc x) <= n)%nat ->
  exists sched st' x', run sched st = Ok (tt, st') /\ Forall (eq p) sched /\ procs st' !! p = Some x' /\ at_pc x' = Critical.
Proof.
  induction n as [|n IH]; intros o st p x I Ho Hx Hn; pose proof (i_owns _ _ _ I p x Hx) as Hw.
  - exfalso. destruct Ho as [->|[Ho ->]]; destruct (at_pc x); simpl in *; try lia; done.
  - destruct (step_pc fls _ st p x I Hx) as (st1 & x1 & E & I1 & _ & Hx1 & Hc).
    destruct (decide (at_pc x = SetCpu)) as [Hs|Hs].
    + exists [p], st1, x1. simpl. run_op E. split; [done|]. split; [by repeat constructor|]. split; [done|]. by rewrite Hc, Hs.
    + destruct Ho as [->|[? _]]; [|done]. pose proof (i_locked _ _ _ I) as Hl. rewrite Hl in Hc.
      destruct (IH (next_owner p (at_pc x) None) st1 p x1 I1) as (sched & st2 & x2 & E2 & HF & Hx2 & Hc2); [|done| |].
      * rewrite Hc. destruct (at_pc x); simpl in *; auto.
      * rewrite Hc. destruct (at_pc x); simpl in *; try lia; done.
      * exists (p :: sched), st2, x2. simpl. run_op E. split; [done|]. split; [by constructor|done].
Qed.

(** C29. From every state the processors can reach, every processor can still
    enter its critical section: the one that has the lock reaches its release,
    and then acquire returns. *)
Theorem spinlock_no_deadlock ids fls sched p :
  NoDup ids -> length ids = length fls -> Forall (fun p => (p < length ids)%nat) sched -> (p < length ids)%nat ->
  exists sched' st x, run (sched ++ sched') (initial ids fls) = Ok (tt, st) /\
    procs st !! p = Some x /\ at_pc x = Critical.
Proof.
  intros Hn Hl HF Hp. assert (L0 : length (procs (initial ids fls)) = length ids).
  { cbn [procs initial]. by rewrite length_zip_with, <- Hl, Nat.min_id. }
  destruct (run_inv fls sched None (initial ids fls)) as (o & st & E & I & L); [by apply initial_inv|by rewrite L0|].
  assert (F : exists s1 st1, run s1 st = Ok (tt, st1) /\ Inv fls None st1 /\ (p < length (procs st1))%nat).
  { destruct o as [q|]; [|exists [], st; split; [done|]; split; [done|lia]].
    destruct (decide (q < length (procs st))%nat) as [Hq|Hq].
    - destruct (lookup_lt_is_Some_2 _ _ Hq) as [x Hx]. destruct (owner_leaves fls _ st q x I Hx eq_refl) as (st1 & x1 & E1 & I1 & P1).
      exists (replicate (to_leave (at_pc x)) q), st1. split; [done|]. split; [done|]. rewrite P1, length_insert. lia.
    - exfalso. apply Hq. by apply (i_range _ _ _ I). }
  destruct F as (s1 & st1 & E1 & I1 & Lp). destruct (lookup_lt_is_Some_2 _ _ Lp) as [x Hx].
  destruct (enters fls _ None st1 p x I1 (or_introl eq_refl) Hx (le_n _)) as (s2 & st2 & x2 & E2 & _ & Hx2 & Hc2).
  exists (s1 ++ s2), st2, x2. rewrite run_app. run_op E. rewrite run_app. run_op E1. done.
Qed.

Lemma spinlock_no_deadlock_witness :
  exists sched' st x, run ([0; 1; 0; 1; 0; 0; 1; 1; 1]%nat ++ sched') (initial [5; 9] [true; false]) = Ok (tt, st) /\
    procs st !! 1%nat = Some x /\ at_pc x = Critical.
Proof.
  apply (spinlock_no_deadlock [5; 9] [true; false] [0; 1; 0; 1; 0; 0; 1; 1; 1]%nat 1%nat).
  - apply (bool_decide_unpack _). vm_compute. exact I.
  - reflexivity.
  - repeat constructor.
  - simpl. lia.
Defined.

(** ** Clients

    What a component that takes the lock around its own work relies on: from a
    free lock, acquire returns holding it and release gives it back. *)
Record free_lock (p : nat) (st : state) : Prop := {
  f_ids : ids_ok (procs st);
  f_proc : exists x, procs st !! p = Some x /\ 0 <= ncli x < INT_MAX - 1 /\ (ncli x = 0 \/ iflag x = false);
  f_lk : lk st = mk_lock 0 None
}.

Record held_lock (p : nat) (st : state) : Prop := {
  h_ids : ids_ok (procs st);
  h_proc : exists x, procs st !! p = Some x /\ 1 <= ncli x < INT_MAX /\ iflag x = false;
  h_lk : lk st = mk_lock 1 (Some p)
}.

Lemma holding_ok st p x :
  ids_ok (procs st) -> procs st !! p = Some x -> iflag x = false -> 1 <= ncli x < INT_MAX ->
  exists st', holding p st = Ok (negb (locked (lk st) =? 0) && bool_decide (lcpu (lk st) = Some p), st') /\
    procs st' = <[p := popped (pushed x)]> (procs st) /\ lk st' = lk st.
Proof.
  intros Hi Hx Hf Hn. unfold holding. run_op (pushcli_ok st p x Hi Hx ltac:(lia)).
  set (st1 := mk_state (<[p := pushed x]> (procs st)) (lk st)). rewrite (bind_ok get _ st1 st1 st1 eq_refl).
  assert (H1 : procs st1 !! p = Some (pushed x)) by (by eapply lookup_insert_proc).
  assert (I1 : ids_ok (procs st1)) by (by apply (ids_insert _ p x)).
  pose proof (popcli_ok st1 p _ I1 H1 eq_refl ltac:(cbn [ncli pushed]; lia)) as P.
  exists (mk_state (<[p := popped (pushed x)]> (procs st1)) (lk st)). split; [|split; [|reflexivity]].
  - cbn [lk st1]. case_Z; cbn [negb andb].
    + rewrite (bind_ok (ret false) _ st1 false st1 eq_refl). cbv beta. run_op P. reflexivity.
    + rewrite bind_assoc. run_op (mycpu_ok st1 p _ I1 H1 eq_refl). rewrite (bind_ok (ret _) _ st1 _ st1 eq_refl). cbv beta. run_op P. reflexivity.
  - cbn [procs st1]. by rewrite list_insert_insert_eq.
Qed.

Lemma popped_pushed x : iflag x = false -> 1 <= ncli x -> popped (pushed x) = x.
Proof.
  intros Hi Hn. destruct x as [la i a n e c]. unfold popped, pushed. simpl in *. subst i.
  rewrite (proj2 (Z.eqb_neq n 0)) by lia. rewrite (proj2 (Z.eqb_neq (n + 1 - 1) 0)) by lia. simpl. f_equal. lia.
Qed.

Lemma acquire_ok p st : free_lock p st -> exists st', acquire p st = Ok (tt, st') /\ held_lock p st'.
Proof.
  intros [Hi (x & Hx & Hn & Hf) Hl]. unfold acquire. run_op (pushcli_ok st p x Hi Hx ltac:(lia)).
  set (st1 := mk_state (<[p := pushed x]> (procs st)) (lk st)).
  assert (H1 : procs st1 !! p = Some (pushed x)) by (by eapply lookup_insert_proc).
  assert (I1 : ids_ok (procs st1)) by (by apply (ids_insert _ p x)).
  destruct (holding_ok st1 p _ I1 H1 eq_refl ltac:(cbn [ncli pushed]; lia)) as (st2 & E2 & P2 & L2).
  rewrite popped_pushed in P2 by (cbn [iflag ncli pushed]; first [done|lia]).
  assert (Hst : procs st2 = procs st1) by (rewrite P2; by apply list_insert_id).
  run_op E2. cbn [lk st1]. rewrite Hl. cbn [locked lcpu]. change (0 =? 0) with true. cbn [negb andb].
  assert (X : xchg st2 = Ok (0, mk_state (procs st2) (mk_lock 1 None))).
  { unfold xchg, bind, get, set_lk, modify, ret. rewrite L2. cbn [lk st1]. by rewrite Hl. }
  run_op X. cbn [negb]. change (0 =? 0) with true. cbn [negb]. set (st3 := mk_state (procs st2) (mk_lock 1 None)).
  rewrite <- Hst in H1, I1. run_op (mycpu_ok st3 p _ I1 H1 eq_refl).
  eexists. split; [reflexivity|]. split; [done| |done]. exists (pushed x). split; [done|]. cbn [ncli iflag pushed]. split; [lia|done].
Qed.

Lemma release_ok p st : held_lock p st -> exists st', release p st = Ok (tt, st') /\ free_lock p st'.
Proof.
  intros [Hi (x & Hx & Hn & Hf) Hl]. unfold release.
  destruct (holding_ok st p x Hi Hx Hf ltac:(lia)) as (st2 & E2 & P2 & L2).
  rewrite popped_pushed, list_insert_id in P2 by (first [done|lia]).
  run_op E2. rewrite Hl. cbn [locked lcpu]. rewrite bool_decide_true by done. change (1 =? 0) with false. cbn [negb andb].
  rewrite (bind_ok get _ st2 st2 st2 eq_refl). cbv beta.
  rewrite (bind_ok (set_lk _) _ st2 tt (mk_state (procs st2) (mk_lock (locked (lk st2)) None)) eq_refl). cbv beta.
  rewrite (bind_ok get _ _ _ _ eq_refl). cbv beta. rewrite (bind_ok (set_lk _) _ _ _ _ eq_refl). cbv beta. cbn [procs lk lcpu locked].
  rewrite <- P2 in Hi, Hx. set (st3 := mk_state (procs st2) (mk_lock 0 None)).
  rewrite (popcli_ok st3 p x Hi Hx Hf ltac:(lia)). eexists. split; [reflexivity|]. split; cbn [procs lk].
  - by apply (ids_insert _ p x).
  - exists (popped x). split; [by eapply lookup_insert_proc|]. cbn [ncli iflag popped]. split; [lia|].
    case_Z; [by left|by right].
  - done.
Qed.
End Spinlock.
