(* ===== verification/Kalloc.v ===== *)
(** * Kalloc: the page allocator of xv6

    kalloc.c over the byte memory of [XString], with the link of a free page in
    its first word, filled by the kernel's memset and protected by a spin lock.
    [kend] is the linker's symbol [end], the first address after the kernel. *)
From stdpp Require Import base list gmap strings.
From Stdlib Require Import ZArith Lia.
From S2P Require Import Prelude XString Spinlock.
Import XString.

Module Kalloc.

Definition PGSIZE : Z := 4096.
Definition KERNBASE : Z := 2147483648.
Definition PHYSTOP : Z := 234881024.
Definition V2P (a : Z) : Z := u32 (a - KERNBASE).
Definition PGROUNDUP (sz : Z) : Z := Z.land (u32 (sz + PGSIZE - 1)) (u32 (Z.lnot (PGSIZE - 1))).

Record state := mk_state {
  memory : mem;
  use_lock : bool;
  freelist : Z;
  klock : Spinlock.state
}.

Definition on_mem {A} (m : M mem A) : M state A :=
  zoom memory (fun x st => mk_state x (use_lock st) (freelist st) (klock st)) m.
Definition on_lock {A} (m : M Spinlock.state A) : M state A :=
  zoom klock (fun x st => mk_state (memory st) (use_lock st) (freelist st) x) m.
Definition set_freelist (r : Z) : M state unit :=
  modify (fun st => mk_state (memory st) (use_lock st) r (klock st)).
Definition set_use_lock (b : bool) : M state unit :=
  modify (fun st => mk_state (memory st) b (freelist st) (klock st)).

(** A 32-bit word, low byte first. *)
Definition load32 (a : Z) : M mem Z :=
  let! b0 := load a in
  let! b1 := load (a + 1) in
  let! b2 := load (a + 2) in
  let! b3 := load (a + 3) in
  ret (b0 + 256 * b1 + 65536 * b2 + 16777216 * b3).
Definition store32 (a w : Z) : M mem unit :=
  do! store a w in
  do! store (a + 1) (Z.shiftr w 8) in
  do! store (a + 2) (Z.shiftr w 16) in
  store (a + 3) (Z.shiftr w 24).

Section allocator.
Variables (kend : Z) (cpu : nat).

Definition lock_if : M state unit :=
  let! st := get in if use_lock st then on_lock (Spinlock.acquire cpu) else ret tt.
Definition unlock_if : M state unit :=
  let! st := get in if use_lock st then on_lock (Spinlock.release cpu) else ret tt.

Definition kfree (v : Z) : M state unit :=
  if negb (v mod PGSIZE =? 0) || (v <? kend) || (PHYSTOP <=? V2P v) then fail (Panic "kfree") else
  do! on_mem (Kstring.memset v 1 PGSIZE) in
  do! lock_if in
  let! st := get in
  do! on_mem (store32 v (freelist st)) in
  do! set_freelist v in
  unlock_if.

Definition kalloc : M state Z :=
  do! lock_if in
  let! st := get in
  let r := freelist st in
  do! (if negb (r =? 0) then let! next := on_mem (load32 r) in set_freelist next else ret tt) in
  do! unlock_if in
  ret r.

(** The loop of freerange, with fuel for every page that begins in the range. *)
Fixpoint freerange_from (fuel : nat) (p vend : Z) : M state unit :=
  match fuel with
  | O => fail OutOfFuel
  | S fuel => if p + PGSIZE <=? vend then do! kfree p in freerange_from fuel (p + PGSIZE) vend else ret tt
  end.
Definition freerange (vstart vend : Z) : M state unit :=
  let p := PGROUNDUP vstart in
  freerange_from (S (S (Z.to_nat ((vend - p) / PGSIZE)))) p vend.

Definition kinit1 (vstart vend : Z) : M state unit :=
  do! on_lock Spinlock.initlock in
  do! set_use_lock false in
  freerange vstart vend.
Definition kinit2 (vstart vend : Z) : M state unit :=
  do! freerange vstart vend in
  set_use_lock true.

(** ** The free list *)

(** The word at [a]. *)
Definition word_at (m : mem) (a : Z) : option Z :=
  b0 ← m !! a; b1 ← m !! (a + 1); b2 ← m !! (a + 2); b3 ← m !! (a + 3);
  Some (b0 + 256 * b1 + 65536 * b2 + 16777216 * b3).

(** The pages reached from [a] through the links. *)
Fixpoint chain (m : mem) (a : Z) (l : list Z) : Prop :=
  match l with
  | [] => a = 0
  | p :: l => a = p /\ exists next, word_at m p = Some next /\ chain m next l
  end.

Definition page_ok (v : Z) : Prop := v mod PGSIZE = 0 /\ kend <= v < KERNBASE + PHYSTOP.

(** [rep st l A]: [l] are the free pages, in the order they will be given out;
    the pages of [A] are in use. *)
Record rep (st : state) (l A : list Z) : Prop := {
  r_chain : chain (memory st) (freelist st) l;
  r_nodup : NoDup (l ++ A);
  r_pages v : v ∈ l ++ A -> page_ok v /\ mapped (memory st) v (Z.to_nat PGSIZE);
  r_lock : Spinlock.free_lock cpu (klock st)
}.

(** The kernel is linked above KERNBASE. *)
Hypothesis kend_high : KERNBASE <= kend.

Definition le32 (w : Z) : list Z := [u8 w; u8 (Z.shiftr w 8); u8 (Z.shiftr w 16); u8 (Z.shiftr w 24)].

Lemma load32_ok m a w : word_at m a = Some w -> load32 a m = Ok (w, m).
Proof.
  unfold word_at. destruct (m !! a) as [b0|] eqn:H0; [|done]. destruct (m !! (a + 1)) as [b1|] eqn:H1; [|done].
  destruct (m !! (a + 2)) as [b2|] eqn:H2; [|done]. destruct (m !! (a + 3)) as [b3|] eqn:H3; [|done]. simpl. intros [= <-].
  unfold load32. run_load H0. run_load H1. run_load H2. by run_load H3.
Qed.

Lemma store32_ok m a w : mapped m a 4 -> store32 a w m = Ok (tt, wr a (le32 w) m).
Proof.
  intros H. unfold store32, le32. cbn [wr]. run_store (H a ltac:(lia)).
  pose proof (mapped_insert m a 4 a (u8 w) H) as H1. run_store (H1 (a + 1) ltac:(lia)).
  pose proof (mapped_insert _ a 4 (a + 1) (u8 (Z.shiftr w 8)) H1) as H2. run_store (H2 (a + 2) ltac:(lia)).
  pose proof (mapped_insert _ a 4 (a + 2) (u8 (Z.shiftr w 16)) H2) as H3. rewrite (store_ok _ (a + 3) _ (H3 (a + 3) ltac:(lia))).
  by replace (a + 1 + 1) with (a + 2) by lia; replace (a + 2 + 1) with (a + 3) by lia.
Qed.

Lemma word_at_le32 m a w : 0 <= w <= UINT_MAX -> holds m a (le32 w) -> word_at m a = Some w.
Proof.
  intros Hw H. unfold le32 in H. rewrite !holds_cons in H. destruct H as (H0 & H1 & H2 & H3 & _).
  unfold word_at. replace (a + 2) with (a + 1 + 1) by lia. replace (a + 3) with (a + 1 + 1 + 1) by lia.
  rewrite H0, H1, H2, H3. simpl. f_equal. unfold u8. rewrite !Z.shiftr_div_pow2 by lia.
  change (2 ^ 8) with 256. change (2 ^ 16) with 65536. change (2 ^ 24) with 16777216. unfold UINT_MAX in Hw.
  Z.to_euclidean_division_equations. lia.
Qed.

Lemma word_at_frame m m' a : (forall k, a <= k < a + 4 -> m' !! k = m !! k) -> word_at m' a = word_at m a.
Proof. intros H. unfold word_at. by rewrite !H by lia. Qed.

Lemma chain_frame m m' l : forall a,
  (forall p k, p ∈ l -> p <= k < p + 4 -> m' !! k = m !! k) -> chain m a l -> chain m' a l.
Proof.
  induction l as [|p l IH]; intros a Hf Hc; [done|]. destruct Hc as [-> (next & Hn & Hc)]. split; [done|].
  exists next. split.
  - rewrite (word_at_frame m m'); [done|]. intros k Hk. apply (Hf p); [apply elem_of_cons; by left|done].
  - apply IH; [|done]. intros q k Hq. apply Hf. apply elem_of_cons. by right.
Qed.

Lemma pages_disjoint v w : page_ok v -> page_ok w -> v <> w -> v + PGSIZE <= w \/ w + PGSIZE <= v.
Proof.
  intros [Hv _] [Hw _] Hne. unfold PGSIZE in *. apply Z.div_exact in Hv; [|lia]. apply Z.div_exact in Hw; [|lia]. nia.
Qed.

Lemma page_ok_check v : page_ok v -> negb (v mod PGSIZE =? 0) || (v <? kend) || (PHYSTOP <=? V2P v) = false.
Proof.
  intros [Hv Hr]. unfold V2P. rewrite u32_small by (unfold KERNBASE, PHYSTOP, UINT_MAX in *; lia). rewrite Hv. simpl. lia.
Qed.

Lemma on_mem_run {A} (p : M mem A) st a m' :
  p (memory st) = Ok (a, m') -> on_mem p st = Ok (a, mk_state m' (use_lock st) (freelist st) (klock st)).
Proof. intros E. unfold on_mem, zoom. by rewrite E. Qed.

(** The lock around the critical section. *)
Lemma lock_if_ok st :
  Spinlock.free_lock cpu (klock st) ->
  exists k, lock_if st = Ok (tt, mk_state (memory st) (use_lock st) (freelist st) k) /\
    (if use_lock st then Spinlock.held_lock cpu k else Spinlock.free_lock cpu k).
Proof.
  intros H. unfold lock_if, bind, get. destruct (use_lock st) eqn:E.
  - destruct (Spinlock.acquire_ok cpu (klock st) H) as (k & Ek & Hk). exists k. unfold on_lock, zoom. rewrite Ek, E. done.
  - exists (klock st). rewrite <- E. by destruct st.
Qed.

Lemma unlock_if_ok st :
  (if use_lock st then Spinlock.held_lock cpu (klock st) else Spinlock.free_lock cpu (klock st)) ->
  exists k, unlock_if st = Ok (tt, mk_state (memory st) (use_lock st) (freelist st) k) /\ Spinlock.free_lock cpu k.
Proof.
  intros H. unfold unlock_if, bind, get. destruct (use_lock st) eqn:E.
  - destruct (Spinlock.release_ok cpu (klock st) H) as (k & Ek & Hk). exists k. unfold on_lock, zoom. rewrite Ek, E. done.
  - exists (klock st). rewrite <- E. by destruct st.
Qed.

(** A write over the first bytes of another. *)
Lemma wr_prefix a l0 l1 (m : mem) :
  (length l1 <= length l0)%nat -> wr a l1 (wr a l0 m) = wr a (l1 ++ drop (length l1) l0) m.
Proof.
  intros H. apply map_eq. intros j. rewrite !lookup_wr, length_app, length_drop.
  repeat case_match; try lia; [by rewrite lookup_app_l by lia| |done].
  rewrite lookup_app_r, lookup_drop by lia. f_equal. lia.
Qed.

Lemma chain_head m a l : chain m a l -> a = match l with [] => 0 | p :: _ => p end.
Proof. destruct l; [done|by intros [-> _]]. Qed.

(** What a freed page contains: the link and junk. *)
Definition freed (next : Z) : list Z := le32 next ++ replicate 4092 1.

Lemma freed_length next : length (freed next) = Z.to_nat PGSIZE.
Proof. unfold freed. by rewrite length_app, length_replicate. Qed.

Lemma kfree_ok st l A v :
  rep st l (v :: A) ->
  exists st', kfree v st = Ok (tt, st') /\ rep st' (v :: l) A /\
    memory st' = wr v (freed (freelist st)) (memory st) /\ use_lock st' = use_lock st.
Proof.
  intros [Hc Hn Hp Hl]. destruct (Hp v ltac:(apply elem_of_app; right; apply elem_of_cons; by left)) as [Hv Hm].
  assert (Hperm : l ++ v :: A ≡ₚ (v :: l) ++ A) by (symmetry; apply Permutation_middle).
  assert (Hvl : v ∉ l) by (rewrite Hperm in Hn; simpl in Hn; apply NoDup_cons in Hn as [Hn _]; intros H; apply Hn, elem_of_app; by left).
  assert (Hr : 0 <= freelist st <= UINT_MAX).
  { rewrite (chain_head _ _ _ Hc). destruct l as [|p l]; [unfold UINT_MAX; lia|].
    destruct (Hp p ltac:(apply elem_of_cons; by left)) as [[_ Hpr] _]. unfold KERNBASE, PHYSTOP, UINT_MAX in *. lia. }
  unfold kfree. rewrite (page_ok_check v Hv).
  destruct (memset_spec (memory st) v 1 PGSIZE ltac:(unfold PGSIZE; lia) Hm) as [E1 _].
  rewrite (bind_ok _ _ _ _ _ (on_mem_run _ st _ _ E1)). cbv beta. change (u8 1) with 1. change (Z.to_nat PGSIZE) with (4 + 4092)%nat.
  set (m1 := wr v (replicate (4 + 4092) 1) (memory st)).
  destruct (lock_if_ok (mk_state m1 (use_lock st) (freelist st) (klock st)) Hl) as (k & E2 & Hk). cbn [memory use_lock freelist klock] in *.
  rewrite (bind_ok _ _ _ _ _ E2). cbv beta. rewrite (bind_ok get _ _ _ _ eq_refl). cbv beta. cbn [freelist].
  assert (M1 : mapped m1 v 4) by (apply wr_mapped; intros j Hj; apply Hm; unfold PGSIZE; lia).
  rewrite (bind_ok _ _ _ _ _ (on_mem_run _ (mk_state m1 (use_lock st) (freelist st) k) _ _ (store32_ok m1 v (freelist st) M1))). cbv beta.
  cbn [memory use_lock freelist klock]. rewrite (bind_ok (set_freelist v) _ _ _ _ eq_refl). cbv beta. cbn [memory use_lock freelist klock].
  set (m2 := wr v (le32 (freelist st)) m1).
  destruct (unlock_if_ok (mk_state m2 (use_lock st) v k) Hk) as (k' & E3 & Hk'). rewrite E3. cbn [memory use_lock freelist klock].
  assert (Em : m2 = wr v (freed (freelist st)) (memory st)).
  { unfold m2, m1, freed. rewrite wr_prefix by (rewrite length_replicate; simpl; lia). rewrite drop_replicate.
    by replace (4 + 4092 - length (le32 (freelist st)))%nat with 4092%nat by reflexivity. }
  eexists. split; [reflexivity|]. rewrite Em. cbn [memory use_lock]. split; [|by split]. clearbody m2 m1. split; cbn [memory use_lock freelist klock].
  - split; [done|]. exists (freelist st). split; [apply word_at_le32; [done|]; apply (holds_app _ _ _ (replicate 4092 1)); apply wr_holds|].
    eapply chain_frame; [|exact Hc]. intros p j Hpl Hj. rewrite lookup_wr.
    assert (Hd : v + PGSIZE <= p \/ p + PGSIZE <= v).
    { apply pages_disjoint; [exact Hv|apply Hp, elem_of_app; by left|]. intros E. apply Hvl. rewrite E. exact Hpl. }
    rewrite freed_length. unfold PGSIZE in *.
    destruct (_ && _) eqn:E; [lia|reflexivity].
  - by rewrite <- Hperm.
  - intros w Hw. rewrite <- Hperm in Hw. split; [by apply Hp|]. apply wr_mapped. by apply Hp.
  - done.
Qed.

Lemma rep_perm st l A A' : A ≡ₚ A' -> rep st l A -> rep st l A'.
Proof.
  intros P [Hc Hn Hp Hl]. split; [done|by rewrite <- P| |done]. intros v Hv. apply Hp. by rewrite P.
Qed.

Lemma kalloc_ok st l A :
  rep st l A ->
  exists st', kalloc st = Ok (match l with [] => 0 | p :: _ => p end, st') /\
    rep st' (tail l) (match l with [] => A | p :: _ => p :: A end) /\ memory st' = memory st /\ use_lock st' = use_lock st.
Proof.
  intros [Hc Hn Hp Hl]. unfold kalloc. destruct (lock_if_ok st Hl) as (k & E1 & Hk). rewrite (bind_ok _ _ _ _ _ E1). cbv beta.
  set (st1 := mk_state (memory st) (use_lock st) (freelist st) k). rewrite (bind_ok get _ st1 st1 st1 eq_refl). cbv beta zeta. cbn [freelist st1].
  pose proof (chain_head _ _ _ Hc) as Hh. rewrite Hh in *.
  assert (E2 : exists next, (if negb (match l with [] => 0 | p :: _ => p end =? 0) then let! next := on_mem (load32 (match l with [] => 0 | p :: _ => p end)) in set_freelist next else ret tt) st1 =
    Ok (tt, mk_state (memory st) (use_lock st) next k) /\ chain (memory st) next (tail l)).
  { destruct l as [|p l].
    - exists 0. split; [|done]. unfold st1. by rewrite Hh.
    - destruct Hc as [_ (next & Hw & Hc)]. exists next. split; [|done].
      destruct (Hp p ltac:(apply elem_of_cons; by left)) as [[_ Hr] _]. rewrite (proj2 (Z.eqb_neq p 0)) by (unfold KERNBASE in *; lia). cbn [negb].
      by rewrite (bind_ok _ _ _ _ _ (on_mem_run _ st1 _ _ (load32_ok _ _ _ Hw))). }
  destruct E2 as (next & E2 & Hc'). rewrite (bind_ok _ _ _ _ _ E2). cbv beta.
  destruct (unlock_if_ok (mk_state (memory st) (use_lock st) next k) Hk) as (k' & E3 & Hk'). rewrite (bind_ok _ _ _ _ _ E3). cbv beta.
  eexists. split; [reflexivity|]. split; [|done].
  assert (P : tail l ++ match l with [] => A | p :: _ => p :: A end ≡ₚ l ++ A) by (destruct l; [done|]; symmetry; apply Permutation_middle).
  split; cbn [memory freelist klock]; [done|by rewrite P| |done]. intros v Hv. apply Hp. by rewrite <- P.
Qed.

(** ** Refinement

    The allocator is a stack of free pages and a set of pages in use.  Clients
    free pages they have and write into them. *)
Inductive op := Alloc | Free (v : Z) | Write (a b : Z).

Definition exec (o : op) : M state Z :=
  match o with
  | Alloc => kalloc
  | Free v => do! kfree v in ret 0
  | Write a b => do! on_mem (store a b) in ret 0
  end.
Fixpoint exec_all (os : list op) : M state (list Z) :=
  match os with
  | [] => ret []
  | o :: os => let! r := exec o in let! rs := exec_all os in ret (r :: rs)
  end.

(** The stack and the pages in use; [None] when the client breaks its part. *)
Definition spec (o : op) (s : list Z * list Z) : option (Z * (list Z * list Z)) :=
  let '(l, A) := s in
  match o with
  | Alloc => match l with [] => Some (0, ([], A)) | p :: l => Some (p, (l, p :: A)) end
  | Free v => if bool_decide (v ∈ A) then Some (0, (v :: l, filter (fun w => w <> v) A)) else None
  | Write a b => if bool_decide (a / PGSIZE * PGSIZE ∈ A) then Some (0, (l, A)) else None
  end.
Fixpoint spec_all (os : list op) (s : list Z * list Z) : option (list Z * (list Z * list Z)) :=
  match os with
  | [] => Some ([], s)
  | o :: os =>
      match spec o s with
      | None => None
      | Some (r, s) => match spec_all os s with None => None | Some (rs, s) => Some (r :: rs, s) end
      end
  end.

(** Address [k] is in no page that is freed and is not written. *)
Definition keeps (k : Z) (o : op) : Prop :=
  match o with Alloc => True | Free v => k < v \/ v + PGSIZE <= k | Write a b => a <> k end.

Lemma filter_perm (A : list Z) v : v ∈ A -> NoDup A -> A ≡ₚ v :: filter (fun w => w <> v) A.
Proof.
  intros Hv Hn. apply NoDup_Permutation; [done| |].
  - apply NoDup_cons. split; [|by apply NoDup_filter]. intros H. apply list_elem_of_filter in H as [? _]. done.
  - intros w. rewrite elem_of_cons, list_elem_of_filter. split; [intros; destruct (decide (w = v)); auto|]. intros [->|[_ ?]]; done.
Qed.

Lemma exec_refines st l A o r l' A' :
  rep st l A -> spec o (l, A) = Some (r, (l', A')) ->
  exists st', exec o st = Ok (r, st') /\ rep st' l' A' /\ (forall k, keeps k o -> memory st' !! k = memory st !! k).
Proof.
  intros R. destruct o as [|v|a b]; simpl.
  - destruct (kalloc_ok st l A R) as (st' & E & R' & Hm & _). intros Hs. exists st'.
    destruct l; simplify_eq/=; (split; [done|]); (split; [done|]); intros; by rewrite Hm.
  - case_bool_decide as Hv; [|done]. intros [= <- <- <-].
    pose proof (r_nodup _ _ _ R) as Hn. apply NoDup_app in Hn as (_ & _ & HnA).
    destruct (kfree_ok st l _ v (rep_perm _ _ _ _ (filter_perm A v Hv HnA) R)) as (st' & E & R' & Hm & _).
    exists st'. rewrite (bind_ok _ _ _ _ _ E). split; [done|]. split; [done|]. intros k Hk.
    rewrite Hm, lookup_wr, freed_length. unfold PGSIZE in *. destruct (_ && _) eqn:B; [lia|done].
  - case_bool_decide as Hv; [|done]. intros [= <- <- <-]. destruct R as [Hc Hn Hp Hl].
    destruct (Hp _ (proj2 (elem_of_app _ _ _) (or_intror Hv))) as [Hpg Hmap].
    assert (Hin : a / PGSIZE * PGSIZE <= a < a / PGSIZE * PGSIZE + PGSIZE).
    { unfold PGSIZE. pose proof (Z.div_mod a 4096 ltac:(lia)). pose proof (Z.mod_pos_bound a 4096). lia. }
    rewrite (bind_ok _ _ _ _ _ (on_mem_run _ st _ _ (store_ok _ a b (Hmap a ltac:(unfold PGSIZE in *; lia))))).
    eexists. split; [reflexivity|]. split; [|intros k Hk; cbn [memory]; by rewrite lookup_insert_ne].
    split; cbn [memory freelist klock]; [|exact Hn| |exact Hl].
    + eapply chain_frame; [|exact Hc]. intros p k Hpl Hk. apply lookup_insert_ne. intros <-.
      assert (Hd : a / PGSIZE * PGSIZE + PGSIZE <= p \/ p + PGSIZE <= a / PGSIZE * PGSIZE).
      { apply pages_disjoint; [done|apply Hp, elem_of_app; by left|]. intros E. rewrite E in Hv.
        apply NoDup_app in Hn as (_ & Hn & _). by apply (Hn p). }
      unfold PGSIZE in *. lia.
    + intros v Hv'. split; [by apply Hp|]. apply mapped_insert. by apply Hp.
Qed.

(** C14. Calls of kalloc and kfree, interleaved with writes of the clients to the
    pages they have, return what a stack of free pages returns and keep the
    stack represented by the links in the pages; so no page is handed out twice,
    and a byte changes only when its page is freed or a client writes it. *)
Theorem kalloc_refines_stack st l A os rs l' A' :
  rep st l A -> spec_all os (l, A) = Some (rs, (l', A')) ->
  exists st', exec_all os st = Ok (rs, st') /\ rep st' l' A' /\ NoDup (l' ++ A') /\
    (forall k, Forall (keeps k) os -> memory st' !! k = memory st !! k).
Proof.
  revert st l A rs. induction os as [|o os IH]; intros st l A rs R Hs; cbn [spec_all] in Hs.
  - simplify_eq. exists st. split; [done|]. split; [done|]. split; [by apply (r_nodup _ _ _ R)|done].
  - destruct (spec o (l, A)) as [[r [l1 A1]]|] eqn:E1; [|done]. destruct (spec_all os (l1, A1)) as [[rs' s']|] eqn:E2; [|done]. simplify_eq.
    destruct (exec_refines st l A o r l1 A1 R E1) as (st1 & X1 & R1 & K1).
    destruct (IH st1 l1 A1 rs' R1 E2) as (st2 & X2 & R2 & N2 & K2).
    exists st2. simpl. rewrite (bind_ok _ _ _ _ _ X1). cbv beta. rewrite (bind_ok _ _ _ _ _ X2). split; [done|]. split; [done|]. split; [done|].
    intros k Hk. inversion Hk; subst. by rewrite K2, K1.
Qed.

(** ** Initialization *)

(** [n] pages from address [p] on. *)
Fixpoint page_list (p : Z) (n : nat) : list Z :=
  match n with O => [] | S n => p :: page_list (p + PGSIZE) n end.

Lemma freerange_from_ok n : forall fuel p vend st l A,
  rep st l (page_list p n ++ A) -> (n < fuel)%nat -> p + PGSIZE * Z.of_nat n <= vend \/ n = O -> vend < p + PGSIZE * Z.of_nat (S n) ->
  exists st', freerange_from fuel p vend st = Ok (tt, st') /\ rep st' (reverse (page_list p n) ++ l) A /\ use_lock st' = use_lock st.
Proof.
  induction n as [|n IH]; intros [|fuel] p vend st l A R Hf Hv Hend; try lia; cbn [freerange_from].
  - rewrite (proj2 (Z.leb_gt _ _)) by (unfold PGSIZE in *; lia). exists st. done.
  - cbn [page_list app] in R. rewrite (proj2 (Z.leb_le _ _)) by (unfold PGSIZE in *; lia).
    destruct (kfree_ok st l _ p R) as (st1 & E1 & R1 & _ & U1). rewrite (bind_ok _ _ _ _ _ E1). cbv beta.
    destruct (IH fuel (p + PGSIZE) vend st1 (p :: l) A R1) as (st2 & E2 & R2 & U2); [lia|unfold PGSIZE in *; lia|unfold PGSIZE in *; lia|].
    exists st2. split; [done|]. split; [|congruence]. cbn [page_list]. by rewrite reverse_cons, <- app_assoc.
Qed.

Lemma land_page x : 0 <= x < 2 ^ 32 -> Z.land x 4294963200 = x / PGSIZE * PGSIZE.
Proof.
  intros Hx. change PGSIZE with (2 ^ 12). rewrite <- Z.shiftr_div_pow2, <- Z.shiftl_mul_pow2 by lia.
  change 4294963200 with (Z.shiftl (Z.ones 20) 12). apply Z.bits_inj'. intros n Hn.
  rewrite Z.land_spec, !Z.shiftl_spec by lia. destruct (Z.ltb_spec n 12).
  - rewrite !(Z.testbit_neg_r _ (n - 12)) by lia. apply andb_false_r.
  - rewrite Z.shiftr_spec, Z.sub_add, Z.testbit_ones_nonneg by lia. destruct (Z.ltb_spec (n - 12) 20); [apply andb_true_r|].
    rewrite andb_false_r. symmetry. apply (Z.testbit_false x n Hn). rewrite Z.div_small; [done|].
    split; [lia|]. eapply Z.lt_le_trans; [apply Hx|]. apply Z.pow_le_mono_r; lia.
Qed.

Lemma pgroundup_eq v : 0 <= v <= UINT_MAX - 4095 -> PGROUNDUP v = (v + 4095) / PGSIZE * PGSIZE.
Proof.
  intros Hv. unfold PGROUNDUP. change (u32 (Z.lnot (PGSIZE - 1))) with 4294963200.
  replace (v + PGSIZE - 1) with (v + 4095) by (unfold PGSIZE; lia).
  rewrite u32_small by lia. apply land_page. unfold UINT_MAX in Hv. lia.
Qed.

Lemma page_list_elem n : forall p v, v ∈ page_list p n <-> exists i, v = p + PGSIZE * i /\ 0 <= i < Z.of_nat n.
Proof.
  induction n as [|n IH]; intros p v; cbn [page_list].
  - split; [intros H; by apply not_elem_of_nil in H|intros (i & _ & ?); lia].
  - rewrite elem_of_cons, IH. split.
    + intros [->|(i & -> & Hi)]; [exists 0|exists (i + 1)]; (split; [lia|lia]).
    + intros (i & -> & Hi). destruct (Z.eq_dec i 0) as [->|]; [left; lia|right]. exists (i - 1). split; lia.
Qed.

Lemma page_list_nodup n : forall p, NoDup (page_list p n).
Proof.
  induction n as [|n IH]; intros p; cbn [page_list]; [constructor|]. apply NoDup_cons. split; [|apply IH].
  rewrite page_list_elem. intros (i & Hi & ?). unfold PGSIZE in *. lia.
Qed.

(** The pages of a range. *)
Definition pages_in (vstart vend : Z) : list Z :=
  page_list (PGROUNDUP vstart) (Z.to_nat ((vend - PGROUNDUP vstart) / PGSIZE)).

Lemma pages_in_elem vstart vend v :
  0 <= vstart <= UINT_MAX - 4095 ->
  v ∈ pages_in vstart vend <-> v mod PGSIZE = 0 /\ vstart <= v /\ v + PGSIZE <= vend.
Proof.
  intros Hs. unfold pages_in. rewrite page_list_elem, pgroundup_eq by done. unfold PGSIZE in *.
  set (q := (vstart + 4095) / 4096). assert (Hq : q * 4096 <= vstart + 4095 < q * 4096 + 4096).
  { unfold q. pose proof (Z.div_mod (vstart + 4095) 4096 ltac:(lia)). pose proof (Z.mod_pos_bound (vstart + 4095) 4096). lia. }
  set (d := vend - q * 4096). assert (Hd : d / 4096 * 4096 <= d < d / 4096 * 4096 + 4096).
  { pose proof (Z.div_mod d 4096 ltac:(lia)). pose proof (Z.mod_pos_bound d 4096). lia. }
  split.
  - intros (i & -> & Hi). split; [|lia]. replace (q * 4096 + 4096 * i) with ((q + i) * 4096) by lia. by apply Z.mod_mul.
  - intros (Hm & Hlo & Hhi). apply Z.div_exact in Hm; [|lia]. exists (v / 4096 - q). unfold d in *. split; lia.
Qed.

(** C32. kinit1, at boot, and kinit2, later, put exactly the whole pages of their
    range on the free list, the highest first, and from kinit2 on the lock is
    used. *)
Theorem kinit_frees_pages st vstart vmid vend x :
  kend <= vstart -> vstart <= vmid <= vend -> vend <= KERNBASE + PHYSTOP -> vmid mod PGSIZE = 0 ->
  mapped (memory st) vstart (Z.to_nat (vend - vstart)) ->
  Spinlock.ids_ok (Spinlock.procs (klock st)) -> Spinlock.procs (klock st) !! cpu = Some x -> Spinlock.ncli x = 0 ->
  freelist st = 0 ->
  exists st1 st2, kinit1 vstart vmid st = Ok (tt, st1) /\ kinit2 vmid vend st1 = Ok (tt, st2) /\
    use_lock st1 = false /\ use_lock st2 = true /\
    rep st2 (reverse (pages_in vmid vend) ++ reverse (pages_in vstart vmid)) [] /\
    (forall v, v ∈ pages_in vmid vend ++ pages_in vstart vmid <->
       v mod PGSIZE = 0 /\ vstart <= v /\ v + PGSIZE <= vend).
Proof.
  intros Hs Hmid Hend Hmm Hmap Hids Hx Hcli Hfl.
  assert (Rs : forall v, kend <= v <= vend -> 0 <= v <= UINT_MAX - 4095) by (unfold KERNBASE, PHYSTOP, UINT_MAX in *; lia).
  assert (El := fun v => pages_in_elem vstart vmid v (Rs vstart ltac:(lia))).
  assert (Eh := fun v => pages_in_elem vmid vend v (Rs vmid ltac:(lia))).
  assert (All : forall v, v ∈ pages_in vmid vend ++ pages_in vstart vmid <-> v mod PGSIZE = 0 /\ vstart <= v /\ v + PGSIZE <= vend).
  { intros v. rewrite elem_of_app, El, Eh. split; [intros [?|?]; lia|]. intros (Hv & ? & ?).
    destruct (Z.lt_ge_cases v vmid); [right|left; lia]. split; [done|]. split; [done|].
    unfold PGSIZE in *. apply Z.div_exact in Hv; [|lia]. apply Z.div_exact in Hmm; [|lia]. lia. }
  set (st0 := mk_state (memory st) false (freelist st) (Spinlock.mk_state (Spinlock.procs (klock st)) (Spinlock.mk_lock 0 None))).
  assert (R0 : rep st0 [] (pages_in vstart vmid ++ pages_in vmid vend)).
  { split; cbn [memory freelist klock st0 app].
    - done.
    - apply NoDup_app. split; [apply page_list_nodup|]. split; [|apply page_list_nodup].
      intros v Hv Hv'. apply El in Hv. apply Eh in Hv'. unfold PGSIZE in *. lia.
    - intros v Hv. assert (Hv' := proj1 (All v) ltac:(rewrite elem_of_app in *; tauto)). split; [split; [tauto|unfold PGSIZE in *; lia]|].
      intros k Hk. apply Hmap. unfold PGSIZE in *. lia.
    - split; [done| |done]. exists x. split; [done|]. split; [unfold INT_MAX; lia|by left]. }
  assert (G : forall a b st l A, rep st l (pages_in a b ++ A) ->
     exists st', freerange a b st = Ok (tt, st') /\ rep st' (reverse (pages_in a b) ++ l) A /\ use_lock st' = use_lock st).
  { intros a b s l A R. unfold freerange, pages_in in *. pose proof (Z.div_mod (b - PGROUNDUP a) PGSIZE ltac:(unfold PGSIZE; lia)).
    pose proof (Z.mod_pos_bound (b - PGROUNDUP a) PGSIZE ltac:(unfold PGSIZE; lia)). apply freerange_from_ok; [done|lia|unfold PGSIZE in *; lia..]. }
  destruct (G vstart vmid st0 [] (pages_in vmid vend) R0) as (st1 & E1 & R1 & U1). rewrite app_nil_r in R1.
  destruct (G vmid vend st1 _ [] ltac:(by rewrite app_nil_r)) as (st2 & E2 & R2 & U2).
  exists st1, (mk_state (memory st2) true (freelist st2) (klock st2)). split; [exact E1|]. split.
  { unfold kinit2. by rewrite (bind_ok _ _ _ _ _ E2). }
  split; [done|]. split; [done|]. split; [|done]. destruct R2 as [? ? ? ?]. by split.
Qed.
End allocator.

(** Three pages above a kernel that ends at 0x80100000. *)
Definition demo_end : Z := 2148532224.
Definition demo_state : state :=
  mk_state (wr demo_end (replicate (Z.to_nat 12288) 0) ∅) false 0 (Spinlock.initial [0] [true]).

Lemma demo_mapped : mapped (memory demo_state) demo_end (Z.to_nat 12288).
Proof.
  cbn [memory demo_state]. rewrite <- (length_replicate (Z.to_nat 12288) 0) at 2. apply holds_mapped, wr_holds.
Qed.

Lemma kinit_frees_pages_witness :
  exists st1 st2, kinit1 demo_end 0 demo_end (demo_end + 4096) demo_state = Ok (tt, st1) /\
    kinit2 demo_end 0 (demo_end + 4096) (demo_end + 12288) st1 = Ok (tt, st2) /\ use_lock st2 = true /\
    rep demo_end 0 st2 [demo_end + 8192; demo_end + 4096; demo_end] [].
Proof.
  destruct (kinit_frees_pages demo_end 0%nat ltac:(unfold KERNBASE, demo_end; lia) demo_state demo_end (demo_end + 4096) (demo_end + 12288)
    (Spinlock.mk_proc 0 true 0 0 false Spinlock.Idle)) as (st1 & st2 & E1 & E2 & _ & U & R & _).
  - lia.
  - lia.
  - unfold demo_end, KERNBASE, PHYSTOP. lia.
  - reflexivity.
  - replace (demo_end + 12288 - demo_end) with 12288 by lia. exact demo_mapped.
  - apply (Spinlock.i_ids [true] None (Spinlock.initial [0] [true])). apply Spinlock.initial_inv; [|reflexivity]. repeat constructor. apply not_elem_of_nil.
  - reflexivity.
  - reflexivity.
  - reflexivity.
  - exists st1, st2. split; [exact E1|]. split; [exact E2|]. split; [exact U|exact R].
Defined.

(** Two free pages at the end of a chain, one of them taken and given back. *)
Definition demo_free : state :=
  mk_state (wr demo_end (freed (demo_end + 4096)) (wr (demo_end + 4096) (freed 0) ∅)) true demo_end (Spinlock.initial [0] [true]).

Lemma demo_free_rep : rep demo_end 0 demo_free [demo_end; demo_end + 4096] [].
Proof.
  assert (Hm : forall v, v = demo_end \/ v = demo_end + 4096 -> mapped (memory demo_free) v (Z.to_nat PGSIZE)).
  { intros v Hv. cbn [memory demo_free]. destruct Hv as [->| ->].
    - rewrite <- (freed_length (demo_end + 4096)). apply holds_mapped, wr_holds.
    - apply wr_mapped. rewrite <- (freed_length 0). apply holds_mapped, wr_holds. }
  split.
  - split; [reflexivity|]. exists (demo_end + 4096). split; [vm_compute; reflexivity|]. split; [reflexivity|]. exists 0. split; [vm_compute; reflexivity|reflexivity].
  - apply (bool_decide_unpack _). vm_compute. exact I.
  - intros v Hv. rewrite app_nil_r, !elem_of_cons in Hv. assert (v = demo_end \/ v = demo_end + 4096) as Hv'.
    { destruct Hv as [?|[?|Hv]]; [auto|auto|by apply not_elem_of_nil in Hv]. }
    split; [|by apply Hm]. destruct Hv' as [->| ->]; (split; [reflexivity|unfold demo_end, KERNBASE, PHYSTOP; lia]).
  - split.
    + apply (Spinlock.i_ids [true] None (Spinlock.initial [0] [true])). apply Spinlock.initial_inv; [|reflexivity]. repeat constructor. apply not_elem_of_nil.
    + exists (Spinlock.mk_proc 0 true 0 0 false Spinlock.Idle). split; [reflexivity|]. cbn. unfold INT_MAX. split; [lia|by left].
    + reflexivity.
Qed.

Lemma kalloc_refines_stack_witness :
  exists st', exec_all demo_end 0 [Alloc; Write (demo_end + 5) 77; Alloc; Alloc; Free demo_end; Alloc] demo_free =
      Ok ([demo_end; 0; demo_end + 4096; 0; 0; demo_end], st') /\
    rep demo_end 0 st' [] [demo_end; demo_end + 4096].
Proof.
  destruct (kalloc_refines_stack demo_end 0%nat ltac:(unfold KERNBASE, demo_end; lia) demo_free [demo_end; demo_end + 4096] []
    [Alloc; Write (demo_end + 5) 77; Alloc; Alloc; Free demo_end; Alloc] [demo_end; 0; demo_end + 4096; 0; 0; demo_end] [] [demo_end; demo_end + 4096])
    as (st' & E & R & _).
  - exact demo_free_rep.
  - vm_compute. reflexivity.
  - exists st'. split; [exact E|exact R].
Defined.
End Kalloc.
