(* ===== verification/Pipe.v ===== *)
(** * Pipe: the pipes of xv6

    pipe.c without pipealloc.  The functions hold the pipe's lock except while
    they sleep, so a call is a sequence of sections: a section runs from the
    start of the call, or from a wake-up, to the return or to the next sleep.
    The model of a function is its section: it takes the bytes still to be
    written, or the number of bytes wanted, and says how it ended and which
    channels it woke.  [nread] and [nwrite] are 32-bit counters that wrap. *)
From stdpp Require Import base list gmap strings.
From Stdlib Require Import ZArith Lia.
From S2P Require Import Prelude.

Module Pipe.

Definition PIPESIZE : Z := 512.

Record pipe := mk_pipe {
  data : list Z;
  nread : Z;
  nwrite : Z;
  readopen : bool;
  writeopen : bool
}.

(** The two channels a process can sleep on. *)
Inductive chan := ChRead | ChWrite.

(** How a section ends: the call returns, or sleeps with the work left. *)
Inductive outcome (A : Type) :=
  | Returns (r : Z)
  | Sleeps (left : A).
Arguments Returns {A} r.
Arguments Sleeps {A} left.

(** The pipe and the channels woken so far in this section. *)
Record state := mk_state { pp : pipe; woken : list chan }.

Definition set_pipe (p : pipe) : M state unit := modify (fun st => mk_state p (woken st)).
Definition wakeup (c : chan) : M state unit := modify (fun st => mk_state (pp st) (woken st ++ [c])).

(** What pipealloc stores in a new pipe; the data area is not initialised. *)
Definition new_pipe (junk : list Z) : pipe := mk_pipe junk 0 0 true true.

Definition full (p : pipe) : bool := nwrite p =? u32 (nread p + PIPESIZE).
Definition empty (p : pipe) : bool := nread p =? nwrite p.

(** [true] when the last end was closed and the page is freed. *)
Definition pipeclose (writable : bool) : M state bool :=
  let! st := get in
  let p := pp st in
  do! (if writable then
         do! set_pipe (mk_pipe (data p) (nread p) (nwrite p) (readopen p) false) in
         wakeup ChRead
       else
         do! set_pipe (mk_pipe (data p) (nread p) (nwrite p) false (writeopen p)) in
         wakeup ChWrite) in
  let! st := get in
  ret (negb (readopen (pp st)) && negb (writeopen (pp st))).

(** [addr] are the bytes addr[i..n-1]. *)
Fixpoint pipewrite (killed : bool) (n : Z) (addr : list Z) : M state (outcome (list Z)) :=
  match addr with
  | [] =>
      do! wakeup ChRead in
      ret (Returns n)
  | c :: rest =>
      let! st := get in
      let p := pp st in
      if full p then
        if negb (readopen p) || killed then ret (Returns (-1))
        else do! wakeup ChRead in ret (Sleeps addr)
      else
        let! data' := of_option OutOfBounds (zupd (data p) (nwrite p mod PIPESIZE) c) in
        do! set_pipe (mk_pipe data' (nread p) (u32 (nwrite p + 1)) (readopen p) (writeopen p)) in
        pipewrite killed n rest
  end.

(** The copying loop of piperead: the bytes it takes. *)
Fixpoint piperead_copy (n : nat) : M state (list Z) :=
  match n with
  | O => ret []
  | S n =>
      let! st := get in
      let p := pp st in
      if empty p then ret [] else
      let! c := of_option OutOfBounds (znth (data p) (nread p mod PIPESIZE)) in
      do! set_pipe (mk_pipe (data p) (u32 (nread p + 1)) (nwrite p) (readopen p) (writeopen p)) in
      let! l := piperead_copy n in
      ret (c :: l)
  end.

(** The outcome and the bytes stored at addr. *)
Definition piperead (killed : bool) (n : Z) : M state (outcome Z * list Z) :=
  let! st := get in
  let p := pp st in
  if empty p && writeopen p then
    if killed then ret (Returns (-1), []) else ret (Sleeps n, [])
  else
    let! l := piperead_copy (Z.to_nat n) in
    do! wakeup ChWrite in
    ret (Returns (Z.of_nat (length l)), l).

(** ** The pipe as a queue *)

(** [q] are the bytes in the pipe. *)
Record rep (p : pipe) (q : list Z) : Prop := {
  r_len : length (data p) = 512%nat;
  r_nread : 0 <= nread p <= UINT_MAX;
  r_nwrite : nwrite p = u32 (nread p + Z.of_nat (length q));
  r_size : (length q <= 512)%nat;
  r_data i c : q !! i = Some c -> znth (data p) ((nread p + Z.of_nat i) mod PIPESIZE) = Some c
}.

(** Counters modulo 2^32 index the array as unbounded counters would. *)
Lemma u32_mod x : u32 x mod PIPESIZE = x mod PIPESIZE.
Proof.
  unfold u32, PIPESIZE. change (2 ^ 32) with (512 * 8388608). rewrite Z.rem_mul_r by lia.
  rewrite (Z.mul_comm 512), Z.mod_add by lia. by rewrite Z.mod_mod.
Qed.

Lemma u32_add x y : u32 (u32 x + y) = u32 (x + y).
Proof. unfold u32. apply Z.add_mod_idemp_l. lia. Qed.

Lemma u32_inj x a b : 0 <= a <= 512 -> 0 <= b <= 512 -> u32 (x + a) = u32 (x + b) -> a = b.
Proof.
  unfold u32. intros Ha Hb H. change (2 ^ 32) with 4294967296 in H.
  Z.to_euclidean_division_equations. lia.
Qed.

Lemma full_spec p q : rep p q -> full p = bool_decide (length q = 512%nat).
Proof.
  intros R. unfold full. rewrite (r_nwrite _ _ R). pose proof (r_size _ _ R). destruct (Z.eqb_spec (u32 (nread p + Z.of_nat (length q))) (u32 (nread p + PIPESIZE))) as [E|E].
  - apply u32_inj in E; [|lia|unfold PIPESIZE; lia]. symmetry. apply bool_decide_eq_true. unfold PIPESIZE in E. lia.
  - symmetry. apply bool_decide_eq_false. intros Hq. apply E. unfold PIPESIZE. do 2 f_equal. lia.
Qed.

Lemma empty_spec p q : rep p q -> empty p = bool_decide (q = []).
Proof.
  intros R. unfold empty. rewrite (r_nwrite _ _ R). pose proof (r_size _ _ R). pose proof (r_nread _ _ R) as Hr.
  destruct (Z.eqb_spec (nread p) (u32 (nread p + Z.of_nat (length q)))) as [E|E].
  - rewrite <- (u32_small (nread p) Hr) in E at 1. rewrite <- (Z.add_0_r (nread p)) in E at 1. apply u32_inj in E; [|lia|lia].
    symmetry. apply bool_decide_eq_true. destruct q; [done|simpl in E; lia].
  - symmetry. apply bool_decide_eq_false. intros ->. apply E. simpl. by rewrite Z.add_0_r, u32_small.
Qed.

(** Writing one byte into a pipe that is not full. *)
Lemma rep_push p q c :
  rep p q -> (length q < 512)%nat ->
  exists d, zupd (data p) (nwrite p mod PIPESIZE) c = Some d /\
    rep (mk_pipe d (nread p) (u32 (nwrite p + 1)) (readopen p) (writeopen p)) (q ++ [c]).
Proof.
  intros R Hq. pose proof (Z.mod_pos_bound (nwrite p) PIPESIZE ltac:(unfold PIPESIZE; lia)) as Hi.
  destruct R as [Rl Rn Rw Rs Rd]. exists (<[Z.to_nat (nwrite p mod PIPESIZE) := c]> (data p)).
  assert (E : zupd (data p) (nwrite p mod PIPESIZE) c = Some (<[Z.to_nat (nwrite p mod PIPESIZE) := c]> (data p))) by (apply zupd_in; rewrite Rl; unfold PIPESIZE in *; lia).
  split; [done|]. split; cbn [data nread nwrite].
  - by rewrite length_insert.
  - done.
  - rewrite Rw, u32_add, length_app. simpl. f_equal. lia.
  - rewrite length_app. simpl. lia.
  - intros i x Hx. apply lookup_snoc_Some in Hx as [[Hi' Hx]|[-> ->]].
    + rewrite (znth_zupd_ne _ _ _ _ _ E); [by apply Rd|]. rewrite Rw, u32_mod. intros Ee. unfold PIPESIZE in Ee.
      Z.to_euclidean_division_equations. lia.
    + rewrite <- (u32_mod (nread p + Z.of_nat (length q))), <- Rw. by eapply znth_zupd_eq.
Qed.

Lemma rep_pop p q c :
  rep p (c :: q) ->
  znth (data p) (nread p mod PIPESIZE) = Some c /\
  rep (mk_pipe (data p) (u32 (nread p + 1)) (nwrite p) (readopen p) (writeopen p)) q.
Proof.
  intros [Rl Rn Rw Rs Rd]. split; [rewrite <- (Z.add_0_r (nread p)); by apply (Rd 0%nat)|].
  split; cbn [data nread nwrite].
  - done.
  - apply u32_range.
  - rewrite Rw, u32_add. simpl. f_equal. lia.
  - simpl in Rs. lia.
  - intros i x Hx. rewrite <- (Rd (S i) x Hx). f_equal.
    rewrite <- (u32_mod (u32 (nread p + 1) + Z.of_nat i)), u32_add, u32_mod. f_equal. lia.
Qed.

(** ** Sections *)

(** What a call to pipewrite does to a queue of [q]: it stores what fits. *)
Lemma pipewrite_ok killed n addr : forall st q,
  rep (pp st) q ->
  exists p', rep p' (q ++ take (512 - length q) addr) /\ readopen p' = readopen (pp st) /\ writeopen p' = writeopen (pp st) /\ nread p' = nread (pp st) /\
    pipewrite killed n addr st =
      Ok (if (length addr <=? 512 - length q)%nat then (Returns n, mk_state p' (woken st ++ [ChRead]))
          else if negb (readopen (pp st)) || killed then (Returns (-1), mk_state p' (woken st))
          else (Sleeps (drop (512 - length q) addr), mk_state p' (woken st ++ [ChRead]))).
Proof.
  induction addr as [|c addr IH]; intros st q R; pose proof (r_size _ _ R) as Hs.
  - exists (pp st). rewrite take_nil, app_nil_r. done.
  - cbn [pipewrite]. rewrite (bind_ok get _ st st st eq_refl). cbv beta zeta. rewrite (full_spec _ _ R). case_bool_decide as Hf.
    + exists (pp st). rewrite Hf, Nat.sub_diag. cbn [take drop]. rewrite app_nil_r. do 4 (split; [done|]).
      destruct (Nat.leb_spec (length (c :: addr)) 0) as [H|H]; [simpl in H; lia|]. destruct (_ || _); [by destruct st|done].
    + destruct (rep_push _ q c R ltac:(lia)) as (d & Ed & R1).
      rewrite (bind_ok (of_option _ _) _ st d st) by (by rewrite Ed). cbv beta.
      rewrite (bind_ok (set_pipe _) _ st tt _ eq_refl). cbv beta.
      set (st1 := mk_state (mk_pipe d (nread (pp st)) (u32 (nwrite (pp st) + 1)) (readopen (pp st)) (writeopen (pp st))) (woken st)).
      destruct (IH st1 (q ++ [c]) R1) as (p' & R' & Hro & Hwo & Hnr & E). exists p'.
      rewrite length_app in R', E. cbn [length] in R', E |- *. cbn [pp woken st1 readopen] in *.
      assert (Hk : (512 - length q = S (512 - (length q + 1)))%nat) by lia. rewrite Hk. cbn [take drop].
      split; [by rewrite <- app_assoc in R'|]. do 3 (split; [done|]). rewrite E. done.
Qed.

Lemma piperead_copy_ok n : forall st q,
  rep (pp st) q ->
  exists p', rep p' (drop n q) /\ readopen p' = readopen (pp st) /\ writeopen p' = writeopen (pp st) /\
    piperead_copy n st = Ok (take n q, mk_state p' (woken st)).
Proof.
  induction n as [|n IH]; intros st q R; [exists (pp st); by destruct st|]. cbn [piperead_copy].
  rewrite (bind_ok get _ st st st eq_refl). cbv beta zeta. rewrite (empty_spec _ _ R). destruct q as [|c q].
  - rewrite bool_decide_true by done. exists (pp st). by destruct st.
  - rewrite bool_decide_false by done. destruct (rep_pop _ _ _ R) as [Ec R1].
    rewrite (bind_ok (of_option _ _) _ st c st) by (by rewrite Ec). cbv beta. rewrite (bind_ok (set_pipe _) _ st tt _ eq_refl). cbv beta.
    destruct (IH (mk_state _ (woken st)) q R1) as (p' & R' & Hro & Hwo & E). exists p'. rewrite (bind_ok _ _ _ _ _ E).
    split; [exact R'|]. split; [exact Hro|]. split; [exact Hwo|reflexivity].
Qed.

Lemma piperead_ok killed n st q :
  rep (pp st) q ->
  exists p', rep p' (drop (Z.to_nat n) q) /\ readopen p' = readopen (pp st) /\ writeopen p' = writeopen (pp st) /\
    piperead killed n st =
      Ok (if bool_decide (q = []) && writeopen (pp st) then ((if killed then Returns (-1) else Sleeps n, []), st)
          else ((Returns (Z.of_nat (length (take (Z.to_nat n) q))), take (Z.to_nat n) q), mk_state p' (woken st ++ [ChWrite]))).
Proof.
  intros R. destruct (piperead_copy_ok (Z.to_nat n) st q R) as (p' & R' & Hro & Hwo & E). exists p'. do 3 (split; [done|]).
  unfold piperead. rewrite (bind_ok get _ st st st eq_refl). cbv beta zeta. rewrite (empty_spec _ _ R).
  destruct (bool_decide (q = []) && writeopen (pp st)); [by destruct killed|]. by rewrite (bind_ok _ _ _ _ _ E).
Qed.

(** ** Writers and readers *)

(** A process between calls, asleep in a call, or woken and about to run on. *)
Inductive proc (A : Type) := Idle | Asleep (left : A) | Ready (left : A).
Arguments Idle {A}.
Arguments Asleep {A} left.
Arguments Ready {A} left.

(** A writing process: where it is, whether it has been killed, the bytes of all
    its calls, and whether a call has returned -1. *)
Record wproc := mk_w { wst : proc (Z * list Z); wkilled : bool; asked : list Z; refused : bool }.
Record rproc := mk_r { rst : proc Z; rkilled : bool }.

(** The pipe and all processes that have an end open; [stored] are the bytes that
    were put into the pipe, each with the number of its writer, and [got] those
    that were taken out, in order. *)
Record sys := mk_sys {
  spipe : pipe;
  writers : list wproc;
  readers : list rproc;
  stored : list (nat * Z);
  got : list Z
}.

Inductive event :=
  | WCall (i : nat) (bytes : list Z) | WRun (i : nat) | KillW (i : nat)
  | RCall (j : nat) (n : Z) | RRun (j : nat) | KillR (j : nat)
  | CloseW | CloseR.

Definition wake {A} (b : bool) (p : proc A) : proc A :=
  match p with Asleep l => if b then Ready l else p | _ => p end.
Definition woke (c : chan) (l : list chan) : bool :=
  existsb (fun d => match c, d with ChRead, ChRead | ChWrite, ChWrite => true | _, _ => false end) l.
Definition wake_w (b : bool) (w : wproc) : wproc := mk_w (wake b (wst w)) (wkilled w) (asked w) (refused w).
Definition wake_r (b : bool) (r : rproc) : rproc := mk_r (wake b (rst r)) (rkilled r).
(** wakeup wakes every process that sleeps on the channel. *)
Definition wake_all (l : list chan) (ws : list wproc) (rs : list rproc) : list wproc * list rproc :=
  (wake_w (woke ChWrite l) <$> ws, wake_r (woke ChRead l) <$> rs).

Definition is_idle {A} (p : proc A) : bool := match p with Idle => true | _ => false end.

Definition write_section (s : sys) (i : nat) (w : wproc) (n : Z) (bytes : list Z) : res sys :=
  match pipewrite (wkilled w) n bytes (mk_state (spipe s) []) with
  | Err f => Err f
  | Ok (o, st) =>
      let w' := match o with
                | Returns r => mk_w Idle (wkilled w) (asked w) (refused w || (r <? 0))
                | Sleeps l => mk_w (Asleep (n, l)) (wkilled w) (asked w) (refused w)
                end in
      let (ws, rs) := wake_all (woken st) (<[i := w']> (writers s)) (readers s) in
      let k := Z.to_nat (u32 (nwrite (pp st) - nwrite (spipe s))) in
      Ok (mk_sys (pp st) ws rs (stored s ++ map (pair i) (take k bytes)) (got s))
  end.
Definition read_section (s : sys) (j : nat) (r : rproc) (n : Z) : res sys :=
  match piperead (rkilled r) n (mk_state (spipe s) []) with
  | Err f => Err f
  | Ok ((o, l), st) =>
      let r' := mk_r match o with Returns _ => Idle | Sleeps n => Asleep n end (rkilled r) in
      let (ws, rs) := wake_all (woken st) (writers s) (<[j := r']> (readers s)) in
      Ok (mk_sys (pp st) ws rs (stored s) (got s ++ l))
  end.
Definition close_section (s : sys) (writable : bool) : res sys :=
  match pipeclose writable (mk_state (spipe s) []) with
  | Err f => Err f
  | Ok (_, st) =>
      let (ws, rs) := wake_all (woken st) (writers s) (readers s) in
      Ok (mk_sys (pp st) ws rs (stored s) (got s))
  end.

(** An event that is not possible is skipped: a process makes one call at a time
    and none on an end that is closed, and an end is closed by the last process
    that has it open, which is not in a call.  kill marks a process and wakes it. *)
Definition sys_step (e : event) (s : sys) : res sys :=
  match e with
  | WCall i b =>
      match writers s !! i with
      | Some w =>
          if is_idle (wst w) && writeopen (spipe s)
          then write_section s i (mk_w Idle (wkilled w) (asked w ++ b) (refused w)) (Z.of_nat (length b)) b else Ok s
      | None => Ok s
      end
  | WRun i =>
      match writers s !! i with
      | Some w => match wst w with Ready (n, l) => write_section s i w n l | _ => Ok s end
      | None => Ok s
      end
  | KillW i =>
      Ok (mk_sys (spipe s) (alter (fun w => mk_w (wake true (wst w)) true (asked w) (refused w)) i (writers s)) (readers s) (stored s) (got s))
  | RCall j n =>
      match readers s !! j with
      | Some r => if is_idle (rst r) && readopen (spipe s) then read_section s j r n else Ok s
      | None => Ok s
      end
  | RRun j =>
      match readers s !! j with
      | Some r => match rst r with Ready n => read_section s j r n | _ => Ok s end
      | None => Ok s
      end
  | KillR j => Ok (mk_sys (spipe s) (writers s) (alter (fun r => mk_r (wake true (rst r)) true) j (readers s)) (stored s) (got s))
  | CloseW => if forallb (fun w => is_idle (wst w)) (writers s) && writeopen (spipe s) then close_section s true else Ok s
  | CloseR => if forallb (fun r => is_idle (rst r)) (readers s) && readopen (spipe s) then close_section s false else Ok s
  end.
Fixpoint sys_run (es : list event) (s : sys) : res sys :=
  match es with
  | [] => Ok s
  | e :: es => match sys_step e s with Ok s => sys_run es s | Err f => Err f end
  end.

Definition pending (w : wproc) : list Z :=
  match wst w with Idle => [] | Asleep (_, l) | Ready (_, l) => l end.
(** What writer [i] has put into the pipe. *)
Definition stored_by (i : nat) (l : list (nat * Z)) : list Z := map snd (List.filter (fun x => Nat.eqb (fst x) i) l).

(** What can be said of writer [i]: its bytes are stored in order; what was not
    stored is what the call in progress still has, unless a call has failed. *)
Definition writer_ok (i : nat) (l : list (nat * Z)) (w : wproc) : Prop :=
  stored_by i l ++ pending w `sublist_of` asked w /\ (refused w = false -> asked w = stored_by i l ++ pending w).
(** A killed writer has returned -1. *)
Definition gave_up (ws : list wproc) : Prop := exists i w, ws !! i = Some w /\ wkilled w = true /\ refused w = true.

(** [q] are the bytes in the pipe.  Whoever sleeps has reason to, but for
    readers after a killed writer gave up. *)
Record sys_ok (s : sys) (q : list Z) : Prop := {
  s_rep : rep (spipe s) q;
  s_bytes : map snd (stored s) = got s ++ q;
  s_writers i w : writers s !! i = Some w -> writer_ok i (stored s) w;
  s_reader j r n : readers s !! j = Some r -> rst r = Asleep n -> writeopen (spipe s) = true /\ (q = [] \/ gave_up (writers s));
  s_writer i w x : writers s !! i = Some w -> wst w = Asleep x -> length q = 512%nat /\ readopen (spipe s) = true;
  s_ropen j r : readers s !! j = Some r -> rst r <> Idle -> readopen (spipe s) = true;
  s_wopen i w : writers s !! i = Some w -> wst w <> Idle -> writeopen (spipe s) = true
}.

Lemma wake_asleep {A} b (p : proc A) l : wake b p = Asleep l -> b = false /\ p = Asleep l.
Proof. destruct p, b; naive_solver. Qed.
Lemma wake_idle {A} b (p : proc A) : wake b p <> Idle -> p <> Idle.
Proof. by destruct p. Qed.
Lemma wake_pending b w : pending (wake_w b w) = pending w.
Proof. destruct w as [[|[]|[]] ? ? ?], b; done. Qed.
Lemma wake_writer_ok b i l w : writer_ok i l w -> writer_ok i l (wake_w b w).
Proof. unfold writer_ok. by rewrite wake_pending. Qed.
Lemma gave_up_wake b ws : gave_up ws -> gave_up (wake_w b <$> ws).
Proof. intros (i & w & Hw & Hk & Hr). exists i, (wake_w b w). by rewrite list_lookup_fmap, Hw. Qed.

Lemma stored_by_app i l k : stored_by i (l ++ k) = stored_by i l ++ stored_by i k.
Proof. unfold stored_by. by rewrite List.filter_app, map_app. Qed.
Lemma stored_by_pairs i j l : stored_by i (map (pair j) l) = if Nat.eqb j i then l else [].
Proof.
  unfold stored_by. destruct (Nat.eqb j i) eqn:E.
  - induction l as [|c l IH]; [done|]. simpl. rewrite E. simpl. by rewrite IH.
  - induction l as [|c l IH]; [done|]. simpl. by rewrite E.
Qed.

(** The bytes a section has stored, from the counters. *)
Lemma stored_count p q p' l : rep p q -> rep p' (q ++ l) -> nread p' = nread p -> Z.to_nat (u32 (nwrite p' - nwrite p)) = length l.
Proof.
  intros R R' E. rewrite (r_nwrite _ _ R), (r_nwrite _ _ R'), E. pose proof (r_size _ _ R') as Hs. rewrite length_app in *.
  unfold u32. rewrite <- Zminus_mod. replace (nread p + Z.of_nat (length q + length l) - (nread p + Z.of_nat (length q))) with (Z.of_nat (length l)) by lia.
  rewrite Z.mod_small by lia. lia.
Qed.
Ltac lookups := repeat match goal with
  | H : (_ <$> _) !! _ = Some _ |- _ => apply list_lookup_fmap_Some in H as (? & -> & H)
  | H : <[_ := _]> _ !! _ = Some _ |- _ => apply list_lookup_insert_Some in H as [(<- & <- & H)|[? H]]
  end.

(** A section of writer [i], whose call has [bytes] left. *)
Lemma write_section_ok s q i w0 w n bytes :
  sys_ok s q -> writers s !! i = Some w0 -> wkilled w = wkilled w0 -> refused w = refused w0 -> writeopen (spipe s) = true ->
  stored_by i (stored s) ++ bytes `sublist_of` asked w -> (refused w = false -> asked w = stored_by i (stored s) ++ bytes) ->
  exists s', write_section s i w n bytes = Ok s' /\ sys_ok s' (q ++ take (512 - length q) bytes).
Proof.
  intros [R Hb Hws Hr Hw Hro Hwo] Hi Ek Ef Hopen Hsub Hall.
  destruct (pipewrite_ok (wkilled w) n bytes (mk_state (spipe s) []) q R) as (p' & R' & Er & Ew & En & E). cbn [pp woken app] in *.
  unfold write_section. rewrite E. pose proof (r_size _ _ R) as Hs. pose proof (r_size _ _ R') as Hs'. set (k := (512 - length q)%nat) in *.
  pose proof (stored_count _ _ _ _ R R' En) as Hk. assert (Htk : take (length (take k bytes)) bytes = take k bytes) by (rewrite length_take; destruct (Nat.le_gt_cases k (length bytes)); [by rewrite Nat.min_l|rewrite Nat.min_r, !take_ge by lia; done]).
  assert (Hfull : (k < length bytes)%nat -> length (q ++ take k bytes) = 512%nat) by (rewrite length_app, length_take; unfold k; lia).
  assert (Hst : forall j, stored_by j (stored s ++ map (pair i) (take k bytes)) = stored_by j (stored s) ++ (if Nat.eqb i j then take k bytes else []))
    by (intros j; by rewrite stored_by_app, stored_by_pairs).
  assert (Hmap : map snd (stored s ++ map (pair i) (take k bytes)) = got s ++ q ++ take k bytes) by (rewrite map_app, Hb, map_map; simpl; by rewrite map_id, app_assoc).
  assert (Hoth : forall j x b, i <> j -> writers s !! j = Some x -> writer_ok j (stored s ++ map (pair i) (take k bytes)) (wake_w b x)).
  { intros j x b Hne Hx. apply wake_writer_ok. destruct (Hws j x Hx) as [A B]. unfold writer_ok. rewrite Hst, (proj2 (Nat.eqb_neq i j) Hne), app_nil_r. done. }
  destruct (Nat.leb_spec (length bytes) k) as [Hle|Hgt]; [|destruct (negb (readopen (spipe s)) || wkilled w) eqn:Eb]; cbn [wake_all woken pp];
    rewrite Hk, Htk; (eexists; split; [reflexivity|]); split; cbn [spipe writers readers stored got]; try exact R'; try exact Hmap.
  - intros j x Hx. lookups; [|by apply Hoth]. apply wake_writer_ok. unfold writer_ok. cbn [pending wst asked refused]. rewrite Hst, Nat.eqb_refl, !app_nil_r, take_ge by lia.
    split; [done|]. intros [? _]%orb_false_iff. auto.
  - intros j r m Hx Ha. lookups. by apply wake_asleep in Ha as [? _].
  - intros j x m Hx Ha. lookups; apply wake_asleep in Ha as [_ Ha]; [done|]. destruct (Hw j _ _ Hx Ha) as [Hq ?]. rewrite Er. split; [|done]. rewrite length_app in *. lia.
  - intros j r Hx Ha. lookups. rewrite Er. apply (Hro j _ Hx). exact (wake_idle _ _ Ha).
  - intros. by rewrite Ew.
  - intros j x Hx. lookups; [|by apply Hoth]. apply wake_writer_ok. unfold writer_ok. cbn [pending wst asked refused]. rewrite Hst, Nat.eqb_refl, app_nil_r. split; [|by rewrite orb_true_r].
    etrans; [|exact Hsub]. apply sublist_app; [done|]. rewrite <- (take_drop k bytes) at 2. by apply sublist_inserts_r.
  - intros j r m Hx Ha. lookups. apply wake_asleep in Ha as [_ Ha]. destruct (Hr j _ m Hx Ha) as [Ho _]. rewrite Ew. split; [done|]. right.
    rewrite (Hro j _ Hx) in Eb by congruence. cbn [negb orb] in Eb. apply gave_up_wake. exists i. eexists. split; [apply list_lookup_insert_eq; by eapply lookup_lt_Some|]. cbn [wkilled refused].
    split; [done|]. by rewrite orb_true_r.
  - intros j x m Hx Ha. lookups; apply wake_asleep in Ha as [_ Ha]; [done|]. destruct (Hw j _ _ Hx Ha) as [Hq ?]. rewrite Er. split; [|done]. rewrite length_app in *. lia.
  - intros j r Hx Ha. lookups. rewrite Er. apply (Hro j _ Hx). exact (wake_idle _ _ Ha).
  - intros. by rewrite Ew.
  - intros j x Hx. lookups; [|by apply Hoth]. apply wake_writer_ok. unfold writer_ok. cbn [pending wst asked refused]. rewrite Hst, Nat.eqb_refl, <- app_assoc, take_drop. done.
  - intros j r m Hx Ha. lookups. by apply wake_asleep in Ha as [? _].
  - intros j x m Hx Ha. rewrite Er. apply orb_false_iff in Eb as [Eb _]. apply negb_false_iff in Eb. split; [by apply Hfull|done].
  - intros j r Hx Ha. lookups. rewrite Er. apply (Hro j _ Hx). exact (wake_idle _ _ Ha).
  - intros. by rewrite Ew.
Qed.

Lemma read_section_ok s q j r n :
  sys_ok s q -> readers s !! j = Some r -> readopen (spipe s) = true -> exists s' q', read_section s j r n = Ok s' /\ sys_ok s' q'.
Proof.
  intros [R Hb Hws Hr Hw Hro Hwo] Hj Hopen.
  destruct (piperead_ok (rkilled r) n (mk_state (spipe s) []) q R) as (p' & R' & Er & Ew & E). cbn [pp woken app] in *.
  unfold read_section. rewrite E. destruct (bool_decide (q = []) && writeopen (spipe s)) eqn:Ec.
  - apply andb_true_iff in Ec as [Hq Hwr]. apply bool_decide_eq_true in Hq. subst q. cbn [wake_all woken pp].
    assert (G : forall r', exists s' q', Ok (mk_sys (spipe s) (wake_w false <$> writers s) (wake_r false <$> <[j := r']> (readers s)) (stored s) (got s ++ [])) = Ok s' /\ sys_ok s' q').
    { intros r'. eexists _, []. split; [reflexivity|]. split; cbn [spipe writers readers stored got]; try done.
      - by rewrite Hb, !app_nil_r.
      - intros i x Hx. lookups. by apply wake_writer_ok, Hws.
      - intros i x m Hx Ha. split; [done|by left].
      - intros i x m Hx Ha. lookups. apply wake_asleep in Ha as [_ Ha]. by apply (Hw i _ m Hx). }
    destruct (rkilled r); apply G.
  - eexists _, _. cbn [wake_all woken pp]. split; [reflexivity|]. split; cbn [spipe writers readers stored got]; [exact R'| | | | | |].
    + rewrite Hb, <- app_assoc. by rewrite take_drop.
    + intros i x Hx. lookups. by apply wake_writer_ok, Hws.
    + intros i x m Hx Ha. rewrite Ew. lookups; apply wake_asleep in Ha as [_ Ha]; [done|]. destruct (Hr i _ m Hx Ha) as [Ho [->|Hg]].
      * rewrite Ho in Ec. by rewrite bool_decide_true in Ec by done.
      * split; [done|]. right. by apply gave_up_wake.
    + intros i x m Hx Ha. lookups. by apply wake_asleep in Ha as [? _].
    + intros. by rewrite Er.
    + intros i x Hx Ha. lookups. rewrite Ew. apply (Hwo i _ Hx). exact (wake_idle _ _ Ha).
Qed.

Lemma close_section_ok s q (wr : bool) :
  sys_ok s q -> (if wr then forallb (fun w => is_idle (wst w)) (writers s) else forallb (fun r => is_idle (rst r)) (readers s)) = true ->
  exists s', close_section s wr = Ok s' /\ sys_ok s' q.
Proof.
  intros [[Rl Rn Rw Rs Rd] Hb Hws Hr Hw Hro Hwo] Hi. assert (Hidle : forall A (p : proc A), is_idle p = true -> p = Idle) by (by intros A []).
  destruct wr; (eexists; split; [reflexivity|]); (split; cbn [spipe writers readers stored got pp woken woke existsb orb readopen writeopen app]; [by split|done| | | | |]);
    try (intros i x Hx; lookups; by apply wake_writer_ok, Hws).
  - intros j r n Hx Ha. lookups. by apply wake_asleep in Ha as [? _].
  - intros i x m Hx Ha. lookups. apply wake_asleep in Ha as [_ Ha]. by apply (Hw i _ m Hx).
  - intros j r Hx Ha. lookups. apply (Hro j _ Hx). exact (wake_idle _ _ Ha).
  - intros i x Hx Ha. lookups. apply wake_idle in Ha. rewrite forallb_forall in Hi. destruct Ha. apply Hidle, Hi. by apply list_elem_of_In, list_elem_of_lookup_2 with i.
  - intros j r n Hx Ha. lookups. apply wake_asleep in Ha as [_ Ha]. destruct (Hr j _ n Hx Ha) as [? [?|?]]; [auto|]. split; [done|]. right. by apply gave_up_wake.
  - intros i x m Hx Ha. lookups. by apply wake_asleep in Ha as [? _].
  - intros j r Hx Ha. lookups. apply wake_idle in Ha. rewrite forallb_forall in Hi. destruct Ha. apply Hidle, Hi. by apply list_elem_of_In, list_elem_of_lookup_2 with j.
  - intros i x Hx Ha. lookups. apply (Hwo i _ Hx). exact (wake_idle _ _ Ha).
Qed.

Lemma alter_Some {A} (f : A -> A) (i : nat) (l : list A) (k : nat) x : alter f i l !! k = Some x -> (k = i /\ exists y, l !! i = Some y /\ x = f y) \/ (k <> i /\ l !! k = Some x).
Proof.
  destruct (decide (k = i)) as [->|Hne]; [|rewrite list_lookup_alter_ne by done; by right]. rewrite list_lookup_alter_eq. destruct (l !! i) as [y|]; [|done]. intros [= <-]. left. eauto.
Qed.

(** kill. *)
Lemma kill_step_ok s q e s' : sys_ok s q -> (exists i, e = KillW i) \/ (exists j, e = KillR j) -> sys_step e s = Ok s' -> sys_ok s' q.
Proof.
  intros [R Hb Hws Hr Hw Hro Hwo] [[i ->]|[j ->]] [= <-]; (split; cbn [spipe writers readers stored got]; [done|done| | | | |]); try done.
  - intros k x Hx. apply alter_Some in Hx as [(-> & y & Hy & ->)|[? Hx]]; [|by apply Hws]. pose proof (Hws _ _ Hy) as H. by apply (wake_writer_ok true) in H.
  - intros k r n Hx Ha. destruct (Hr k r n Hx Ha) as [? [?|(m & w & Hm & Hk & Hf)]]; [auto|]. split; [done|]. right. destruct (decide (m = i)) as [->|Hne].
    + exists i. eexists. rewrite list_lookup_alter_eq, Hm. split; [reflexivity|]. done.
    + exists m, w. by rewrite list_lookup_alter_ne.
  - intros k x m Hx Ha. apply alter_Some in Hx as [(-> & y & Hy & ->)|[? Hx]]; [by apply wake_asleep in Ha as [? _]|]. by apply (Hw k x m).
  - intros k x Hx Ha. apply alter_Some in Hx as [(-> & y & Hy & ->)|[? Hx]]; [apply (Hwo _ _ Hy); exact (wake_idle _ _ Ha)|]. by apply (Hwo k x).
  - intros k x n Hx Ha. apply alter_Some in Hx as [(-> & y & Hy & ->)|[? Hx]]; [by apply wake_asleep in Ha as [? _]|]. by apply (Hr k x n).
  - intros k x Hx Ha. apply alter_Some in Hx as [(-> & y & Hy & ->)|[? Hx]]; [apply (Hro _ _ Hy); exact (wake_idle _ _ Ha)|]. by apply (Hro k x).
Qed.

Lemma sys_step_ok e s q : sys_ok s q -> exists s' q', sys_step e s = Ok s' /\ sys_ok s' q'.
Proof.
  intros I. assert (Same : exists s' q', Ok s = Ok s' /\ sys_ok s' q') by eauto. destruct e as [i b|i|i|j n|j|j| |]; cbn [sys_step].
  - destruct (writers s !! i) as [w|] eqn:Ew; [|done]. destruct (is_idle (wst w) && writeopen (spipe s)) eqn:Ei; [|done]. apply andb_true_iff in Ei as [Ei Ho].
    destruct (s_writers _ _ I i w Ew) as [A B]. unfold pending in A, B. destruct (wst w) eqn:Est; try done. rewrite app_nil_r in A, B.
    destruct (write_section_ok s q i w (mk_w Idle (wkilled w) (asked w ++ b) (refused w)) (Z.of_nat (length b)) b I Ew eq_refl eq_refl Ho) as (s' & E & I'); [| |eauto].
    + by apply sublist_app.
    + cbn [asked refused]. intros Hf. by rewrite (B Hf).
  - destruct (writers s !! i) as [w|] eqn:Ew; [|done]. destruct (wst w) as [|[n l]|[n l]] eqn:Est; try done. destruct (s_writers _ _ I i w Ew) as [A B]. unfold pending in A, B. rewrite Est in A, B.
    destruct (write_section_ok s q i w w n l I Ew eq_refl eq_refl) as (s' & E & I'); [apply (s_wopen _ _ I i w Ew); congruence|done|done|eauto].
  - eexists _, q. split; [reflexivity|]. eapply (kill_step_ok s q (KillW i)); eauto.
  - destruct (readers s !! j) as [r|] eqn:Er; [|done]. destruct (is_idle (rst r) && readopen (spipe s)) eqn:Ei; [|done]. apply andb_true_iff in Ei as [_ Ho]. by eapply read_section_ok.
  - destruct (readers s !! j) as [r|] eqn:Er; [|done]. destruct (rst r) eqn:Est; try done. eapply read_section_ok; [done|done|]. apply (s_ropen _ _ I j r Er). congruence.
  - eexists _, q. split; [reflexivity|]. eapply (kill_step_ok s q (KillR j)); eauto.
  - destruct (_ && _) eqn:Ei; [|done]. apply andb_true_iff in Ei as [Ei _]. destruct (close_section_ok s q true I Ei) as (s' & E & I'). eauto.
  - destruct (_ && _) eqn:Ei; [|done]. apply andb_true_iff in Ei as [Ei _]. destruct (close_section_ok s q false I Ei) as (s' & E & I'). eauto.
Qed.

(** A new pipe with [nw] writing and [nr] reading processes. *)
Definition start (nw nr : nat) (junk : list Z) : sys :=
  mk_sys (new_pipe junk) (replicate nw (mk_w Idle false [] false)) (replicate nr (mk_r Idle false)) [] [].

Lemma start_rep junk : length junk = 512%nat -> rep (new_pipe junk) [].
Proof. intros H. split; [done|cbn; unfold UINT_MAX; lia|done|simpl; lia|]. by intros i c Hc. Qed.
Lemma start_ok nw nr junk : length junk = 512%nat -> sys_ok (start nw nr junk) [].
Proof.
  intros H. split; [by apply start_rep|done| | | | |]; cbn [writers readers start].
  - by intros i w [-> _]%lookup_replicate.
  - by intros i w x [-> _]%lookup_replicate.
  - by intros i w x [-> _]%lookup_replicate.
  - by intros i w [-> _]%lookup_replicate.
  - by intros i w [-> _]%lookup_replicate.
Qed.

(** C8. A pipe is a bounded queue for any number of writing and reading processes,
    however their calls, sleeps, wake-ups, kills and the closing of the two ends are
    interleaved.  No section faults.  The bytes put into the pipe, in order, are the
    bytes taken out, in order, followed by the at most 512 bytes [q] that the ring
    holds.  Each writer's bytes are stored in the order of its calls; until a call
    of it returns -1, all of them are stored or left to the call in progress.  A
    writer sleeps only while the pipe is full and its reading end open.  A reader
    sleeps only while the writing end is open and the pipe is empty, except after a
    killed writer has given up: that one leaves without a wake-up. *)
Theorem pipe_is_fifo nw nr junk es :
  length junk = 512%nat ->
  exists s q, sys_run es (start nw nr junk) = Ok s /\ rep (spipe s) q /\ map snd (stored s) = got s ++ q /\
    (forall i w, writers s !! i = Some w ->
       stored_by i (stored s) ++ pending w `sublist_of` asked w /\ (refused w = false -> asked w = stored_by i (stored s) ++ pending w)) /\
    (forall i w x, writers s !! i = Some w -> wst w = Asleep x -> length q = 512%nat /\ readopen (spipe s) = true) /\
    (forall j r n, readers s !! j = Some r -> rst r = Asleep n -> writeopen (spipe s) = true /\ (q = [] \/ gave_up (writers s))).
Proof.
  intros Hj. assert (G : forall es s q, sys_ok s q -> exists s' q', sys_run es s = Ok s' /\ sys_ok s' q').
  { clear. induction es as [|e es IH]; intros s q I; [by exists s, q|]. simpl.
    destruct (sys_step_ok e s q I) as (s1 & q1 & -> & I1). eauto. }
  destruct (G es _ _ (start_ok nw nr junk Hj)) as (s & q & E & I). exists s, q. destruct I as [R Hb Hws Hr Hw Hro Hwo]. done.
Qed.

(** Two writers and two readers: the first writer fills the pipe and sleeps, both
    readers drain it, the second writer writes in between, and the first goes on. *)
Definition demo_run : list event :=
  [RCall 1 10; WCall 0 (replicate 600 7); WCall 1 [8; 9]; RRun 1; WRun 0; RCall 0 700; WRun 1; RCall 1 5; KillW 1; WRun 0; CloseW; RCall 0 0].
Lemma pipe_is_fifo_witness :
  exists s q, sys_run demo_run (start 2 2 (replicate 512 0)) = Ok s /\ rep (spipe s) q /\ map snd (stored s) = got s ++ q /\
    got s = replicate 522 7 ++ [8; 9].
Proof.
  destruct (pipe_is_fifo 2 2 (replicate 512 0) demo_run) as (s & q & E & R & B & _).
  - apply length_replicate.
  - exists s, q. split; [exact E|]. split; [exact R|]. split; [exact B|].
    assert (E0 : match sys_run demo_run (start 2 2 (replicate 512 0)) with Ok s => got s | Err _ => [] end = replicate 522 7 ++ [8; 9]) by (vm_compute; reflexivity).
    rewrite E in E0. exact E0.
Defined.

(** A killed writer that has filled the pipe returns without a wake-up, so
    what it stored since the last one is announced to nobody. *)
Theorem killed_writer_wakes_nobody st addr n :
  rep (pp st) [] -> (512 < length addr)%nat ->
  exists p', pipewrite true n addr st = Ok (Returns (-1), mk_state p' (woken st)) /\ rep p' (take 512 addr).
Proof.
  intros R Hl. destruct (pipewrite_ok true n addr st [] R) as (p' & R' & _ & _ & _ & E). exists p'.
  split; [|done]. rewrite E. cbn [length]. rewrite Nat.sub_0_r. destruct (Nat.leb_spec (length addr) 512); [lia|]. by rewrite orb_true_r.
Qed.

Lemma killed_writer_wakes_nobody_witness :
  exists p', pipewrite true 513 (replicate 513 1) (mk_state (new_pipe (replicate 512 0)) []) = Ok (Returns (-1), mk_state p' []) /\
    rep p' (take 512 (replicate 513 1)).
Proof.
  apply (killed_writer_wakes_nobody (mk_state (new_pipe (replicate 512 0)) []) (replicate 513 1) 513).
  - apply (start_rep (replicate 512 0) (length_replicate _ _)).
  - rewrite length_replicate. lia.
Defined.
End Pipe.
