(* ===== verification/File.v ===== *)
(** * File: open files and descriptors of xv6

    file.c, the descriptor calls of sysfile.c, pipealloc of pipe.c and the
    descriptor loops of fork and exit in proc.c.  The state is the table of open
    files, the descriptor table of every process, the pipes by the address of
    their page, and the free pages (a stack, as [Kalloc.kalloc_refines_stack]
    shows of the page allocator).  The inode layer is an interface: a class of
    operations on a state of its own with the laws the callers rely on.
    The arguments of a system call are given; fetching them from the user stack
    is not modelled, except that [ptr_ok] says whether the check of a buffer
    succeeds.  The spin lock of the table is not modelled: every operation of
    file.c that takes it is one atomic step. *)
From stdpp Require Import base list gmap strings.
From Stdlib Require Import ZArith Lia.
From S2P Require Import Prelude Pipe.

Module File.

Record stat := mk_stat { st_type : Z; st_dev : Z; st_ino : Z; st_nlink : Z; st_size : Z }.

(** The inode layer as file.c uses it; [ip] is a pointer to an inode. *)
Class InodeLayer (FS : Type) := {
  begin_op : FS -> FS;
  end_op : FS -> FS;
  ilock : Z -> FS -> FS;
  iunlock : Z -> FS -> FS;
  iput : Z -> FS -> FS;
  stati : Z -> FS -> stat;
  readi : Z -> Z -> Z -> FS -> (Z * list Z) * FS;
  writei : Z -> list Z -> Z -> FS -> Z * FS
}.

(** writei writes everything or fails; readi returns at most what it was asked. *)
Class InodeLaws (FS : Type) {ops : InodeLayer FS} := {
  writei_all ip l off s : fst (writei ip l off s) < 0 \/ fst (writei ip l off s) = Z.of_nat (length l);
  readi_bound ip off n s : 0 <= n -> fst (fst (readi ip off n s)) <= n
}.

Inductive fdtype := FD_NONE | FD_PIPE | FD_INODE.

#[export] Instance fdtype_eq_dec : EqDecision fdtype.
Proof. solve_decision. Defined.

Record file := mk_file {
  type : fdtype;
  ref : Z;
  readable : bool;
  writable : bool;
  fpipe : Z;
  ip : Z;
  off : Z;
  num_read_bytes : Z;
  num_write_bytes : Z
}.

Definition NFILE : Z := 100.
Definition NOFILE : Z := 16.
Definition MAXOPBLOCKS : Z := 10.

Section layer.
Context {FS : Type} {ops : InodeLayer FS}.

Record state := mk_state {
  ftable : list file;
  ofiles : list (list (option nat));
  pipes : gmap Z Pipe.pipe;
  pages : list Z;
  fs : FS
}.

Definition set_ftable (t : list file) (s : state) : state := mk_state t (ofiles s) (pipes s) (pages s) (fs s).
Definition set_ofiles (o : list (list (option nat))) (s : state) : state := mk_state (ftable s) o (pipes s) (pages s) (fs s).
Definition set_pipes (p : gmap Z Pipe.pipe) (s : state) : state := mk_state (ftable s) (ofiles s) p (pages s) (fs s).
Definition set_pages (p : list Z) (s : state) : state := mk_state (ftable s) (ofiles s) (pipes s) p (fs s).
Definition set_fs (x : FS) (s : state) : state := mk_state (ftable s) (ofiles s) (pipes s) (pages s) x.

Definition set_ref (n : Z) (f : file) : file :=
  mk_file (type f) n (readable f) (writable f) (fpipe f) (ip f) (off f) (num_read_bytes f) (num_write_bytes f).
Definition set_type (t : fdtype) (f : file) : file :=
  mk_file t (ref f) (readable f) (writable f) (fpipe f) (ip f) (off f) (num_read_bytes f) (num_write_bytes f).
Definition set_off (n : Z) (f : file) : file :=
  mk_file (type f) (ref f) (readable f) (writable f) (fpipe f) (ip f) n (num_read_bytes f) (num_write_bytes f).
Definition set_nread (n : Z) (f : file) : file :=
  mk_file (type f) (ref f) (readable f) (writable f) (fpipe f) (ip f) (off f) n (num_write_bytes f).
Definition set_nwrite (n : Z) (f : file) : file :=
  mk_file (type f) (ref f) (readable f) (writable f) (fpipe f) (ip f) (off f) (num_read_bytes f) n.

(** A [struct file *] is an index of the table, a null pointer [None]. *)
Definition get_file (i : nat) : M state file := let! s := get in of_option OutOfBounds (ftable s !! i).
Definition put_file (i : nat) (f : file) : M state unit := modify (fun s => set_ftable (<[i := f]> (ftable s)) s).
Definition on_fs {A} (g : FS -> A * FS) : M state A :=
  fun s => let '(a, x) := g (fs s) in Ok (a, set_fs x s).
Definition upd_fs (g : FS -> FS) : M state unit := modify (fun s => set_fs (g (fs s)) s).

(** ** file.c *)

Fixpoint find_free (l : list file) (i : nat) : option nat :=
  match l with
  | [] => None
  | f :: l => if ref f =? 0 then Some i else find_free l (S i)
  end.
Definition filealloc : M state (option nat) :=
  let! s := get in
  match find_free (ftable s) 0 with
  | Some i =>
      let! f := get_file i in
      do! put_file i (set_ref 1 f) in
      ret (Some i)
  | None => ret None
  end.

Definition filedup (i : nat) : M state nat :=
  let! f := get_file i in
  if ref f <? 1 then fail (Panic "filedup") else
  let! n := chk_int (ref f + 1) in
  do! put_file i (set_ref n f) in
  ret i.

(** The pipe at page [p]. *)
Definition on_pipe {A} (p : Z) (m : M Pipe.state A) : M state A :=
  let! s := get in
  let! pi := of_option UseAfterFree (pipes s !! p) in
  match m (Pipe.mk_state pi []) with
  | Ok (a, ps) => do! modify (set_pipes (<[p := Pipe.pp ps]> (pipes s))) in ret a
  | Err f => fail f
  end.
Definition kfree (p : Z) : M state unit := modify (fun s => set_pages (p :: pages s) s).
Definition kalloc : M state Z :=
  let! s := get in
  match pages s with
  | [] => ret 0
  | p :: l => do! put (set_pages l s) in ret p
  end.
Definition pipeclose (p : Z) (w : bool) : M state unit :=
  let! last := on_pipe p (Pipe.pipeclose w) in
  if last then
    do! modify (fun s => set_pipes (delete p (pipes s)) s) in
    kfree p
  else ret tt.

Definition fileclose (i : nat) : M state unit :=
  let! f := get_file i in
  if ref f <? 1 then fail (Panic "fileclose") else
  let r := ref f - 1 in
  do! put_file i (set_ref r f) in
  if 0 <? r then ret tt else
  let ff := set_ref r f in
  do! put_file i (set_type FD_NONE (set_ref 0 ff)) in
  match type ff with
  | FD_PIPE => pipeclose (fpipe ff) (writable ff)
  | FD_INODE =>
      do! upd_fs begin_op in
      do! upd_fs (iput (ip ff)) in
      upd_fs end_op
  | FD_NONE => ret tt
  end.

Definition filestat (i : nat) : M state (option stat) :=
  let! f := get_file i in
  match type f with
  | FD_INODE =>
      do! upd_fs (ilock (ip f)) in
      let! s := get in
      let r := stati (ip f) (fs s) in
      do! upd_fs (iunlock (ip f)) in
      ret (Some r)
  | _ => ret None
  end.

(** The result and the bytes stored at addr. *)
Definition fileread (killed : bool) (i : nat) (n : Z) : M state (Pipe.outcome Z * list Z) :=
  let! f := get_file i in
  if negb (readable f) then ret (Pipe.Returns (-1), []) else
  let! c := chk_int (num_read_bytes f + n) in
  let f := set_nread c f in
  do! put_file i f in
  match type f with
  | FD_PIPE => on_pipe (fpipe f) (Pipe.piperead killed n)
  | FD_INODE =>
      do! upd_fs (ilock (ip f)) in
      let! '(r, l) := on_fs (readi (ip f) (off f) n) in
      do! (if 0 <? r then put_file i (set_off (u32 (off f + r)) f) else ret tt) in
      do! upd_fs (iunlock (ip f)) in
      ret (Pipe.Returns r, l)
  | FD_NONE => fail (Panic "fileread")
  end.

Definition max_write : Z := Z.quot (MAXOPBLOCKS - 1 - 1 - 2) 2 * 512.

(** The loop of filewrite: [addr] are the bytes from [addr + i] on; the result
    is the final [i].  Every round but a failed one writes a byte. *)
Fixpoint filewrite_loop (fuel : nat) (i : nat) (k : Z) (addr : list Z) : M state Z :=
  match fuel with
  | O => fail OutOfFuel
  | S fuel =>
      match addr with
      | [] => ret k
      | _ =>
          let n1 := Z.min (Z.of_nat (length addr)) max_write in
          do! upd_fs begin_op in
          let! f := get_file i in
          do! upd_fs (ilock (ip f)) in
          let! r := on_fs (writei (ip f) (take (Z.to_nat n1) addr) (off f)) in
          do! (if 0 <? r then put_file i (set_off (u32 (off f + r)) f) else ret tt) in
          do! upd_fs (iunlock (ip f)) in
          do! upd_fs end_op in
          if r <? 0 then ret k
          else if negb (r =? n1) then fail (Panic "short filewrite")
          else filewrite_loop fuel i (k + r) (drop (Z.to_nat r) addr)
      end
  end.

Definition filewrite (killed : bool) (i : nat) (addr : list Z) : M state (Pipe.outcome (list Z)) :=
  let n := Z.of_nat (length addr) in
  let! f := get_file i in
  if negb (writable f) then ret (Pipe.Returns (-1)) else
  let! c := chk_int (num_write_bytes f + n) in
  let f := set_nwrite c f in
  do! put_file i f in
  match type f with
  | FD_PIPE => on_pipe (fpipe f) (Pipe.pipewrite killed n addr)
  | FD_INODE =>
      let! k := filewrite_loop (S (length addr)) i 0 addr in
      ret (Pipe.Returns (if k =? n then n else -1))
  | FD_NONE => fail (Panic "filewrite")
  end.

(** ** pipe.c: pipealloc *)

Definition pipealloc (junk : list Z) : M state (option (nat * nat)) :=
  let! f0 := filealloc in
  match f0 with
  | None => ret None
  | Some f0 =>
      let! f1 := filealloc in
      match f1 with
      | None => do! fileclose f0 in ret None
      | Some f1 =>
          let! p := kalloc in
          if p =? 0 then
            do! fileclose f0 in
            do! fileclose f1 in
            ret None
          else
            do! modify (fun s => set_pipes (<[p := Pipe.new_pipe junk]> (pipes s)) s) in
            let! x := get_file f0 in
            do! put_file f0 (mk_file FD_PIPE (ref x) true false p (ip x) (off x) (num_read_bytes x) (num_write_bytes x)) in
            let! y := get_file f1 in
            do! put_file f1 (mk_file FD_PIPE (ref y) false true p (ip y) (off y) (num_read_bytes y) (num_write_bytes y)) in
            ret (Some (f0, f1))
      end
  end.

(** ** sysfile.c *)

(** The descriptor table of process [me]. *)
Definition get_ofile (me : nat) : M state (list (option nat)) :=
  let! s := get in of_option OutOfBounds (ofiles s !! me).
Definition put_ofile (me : nat) (t : list (option nat)) : M state unit :=
  modify (fun s => set_ofiles (<[me := t]> (ofiles s)) s).
Definition set_fd (me : nat) (fd : Z) (x : option nat) : M state unit :=
  let! t := get_ofile me in
  let! t := of_option OutOfBounds (zupd t fd x) in
  put_ofile me t.

Definition argfd (me : nat) (fd : Z) : M state (option nat) :=
  if (fd <? 0) || (NOFILE <=? fd) then ret None else
  let! t := get_ofile me in
  of_option OutOfBounds (znth t fd).

Fixpoint find_fd (t : list (option nat)) (fd : Z) : Z :=
  match t with
  | [] => -1
  | None :: _ => fd
  | Some _ :: t => find_fd t (fd + 1)
  end.
Definition fdalloc (me : nat) (f : nat) : M state Z :=
  let! t := get_ofile me in
  let fd := find_fd t 0 in
  if fd <? 0 then ret (-1) else do! set_fd me fd (Some f) in ret fd.

Definition sys_dup (me : nat) (fd : Z) : M state Z :=
  let! f := argfd me fd in
  match f with
  | None => ret (-1)
  | Some f =>
      let! fd := fdalloc me f in
      if fd <? 0 then ret (-1) else
      do! filedup f in
      ret fd
  end.

Definition sys_read (me : nat) (killed ptr_ok : bool) (fd n : Z) : M state (Pipe.outcome Z * list Z) :=
  let! f := argfd me fd in
  match f with
  | None => ret (Pipe.Returns (-1), [])
  | Some f => if (n <? 0) || negb ptr_ok then ret (Pipe.Returns (-1), []) else fileread killed f n
  end.

Definition sys_write (me : nat) (killed ptr_ok : bool) (fd : Z) (l : list Z) : M state (Pipe.outcome (list Z)) :=
  let! f := argfd me fd in
  match f with
  | None => ret (Pipe.Returns (-1))
  | Some f => if negb ptr_ok then ret (Pipe.Returns (-1)) else filewrite killed f l
  end.

Definition sys_close (me : nat) (fd : Z) : M state Z :=
  let! f := argfd me fd in
  match f with
  | None => ret (-1)
  | Some f =>
      do! set_fd me fd None in
      do! fileclose f in
      ret 0
  end.

Definition sys_fstat (me : nat) (ptr_ok : bool) (fd : Z) : M state (option stat) :=
  let! f := argfd me fd in
  match f with
  | None => ret None
  | Some f => if negb ptr_ok then ret None else filestat f
  end.

(** The result and the counters stored at IoStatsData; the descriptor is not
    checked before it indexes the table. *)
Definition getiostats (me : nat) (fd : Z) : M state (Z * option (Z * Z)) :=
  let! t := get_ofile me in
  let! f := of_option OutOfBounds (znth t fd) in
  match f with
  | None => ret (-1, None)
  | Some i =>
      let! st := filestat i in
      match st with
      | None => ret (-1, None)
      | Some st =>
          let! f := get_file i in
          (* the comparison is unsigned *)
          ret (0, Some (if st_size st <? u32 (num_read_bytes f) then i32 (st_size st) else num_read_bytes f,
                        num_write_bytes f))
      end
  end.
Definition sys_getiostats (me : nat) (fd : Z) : M state (Z * option (Z * Z)) := getiostats me fd.

(** iunlockput of fs.c. *)
Definition iunlockput (i : Z) : M state unit := do! upd_fs (iunlock i) in upd_fs (iput i).

(** The end of sys_open, when the inode [i] has been found: allocate a file and
    a descriptor; the flags are those of omode. *)
Definition open_inode (me : nat) (i : Z) (wronly rdwr : bool) : M state Z :=
  let! f := filealloc in
  let! fd := (match f with Some f => fdalloc me f | None => ret (-1) end) in
  match f with
  | Some f =>
      if fd <? 0 then
        do! fileclose f in
        do! iunlockput i in
        do! upd_fs end_op in
        ret (-1)
      else
        do! upd_fs (iunlock i) in
        do! upd_fs end_op in
        let! x := get_file f in
        do! put_file f (mk_file FD_INODE (ref x) (negb wronly) (wronly || rdwr) (fpipe x) i 0 0 0) in
        ret fd
  | None =>
      do! iunlockput i in
      do! upd_fs end_op in
      ret (-1)
  end.

Definition sys_pipe (me : nat) (ptr_ok : bool) (junk : list Z) : M state (option (Z * Z)) :=
  if negb ptr_ok then ret None else
  let! r := pipealloc junk in
  match r with
  | None => ret None
  | Some (rf, wf) =>
      let! fd0 := fdalloc me rf in
      let! fd1 := (if fd0 <? 0 then ret (-1) else fdalloc me wf) in
      if (fd0 <? 0) || (fd1 <? 0) then
        do! (if 0 <=? fd0 then set_fd me fd0 None else ret tt) in
        do! fileclose rf in
        do! fileclose wf in
        ret None
      else ret (Some (fd0, fd1))
  end.

(** ** proc.c *)

(** The loop of fork that copies the descriptors of [me] to the new process
    [np], whose table is empty. *)
Fixpoint fork_files (n : nat) (i : Z) (me np : nat) : M state unit :=
  match n with
  | O => ret tt
  | S n =>
      let! t := get_ofile me in
      let! f := of_option OutOfBounds (znth t i) in
      do! (match f with Some f => let! f := filedup f in set_fd np i (Some f) | None => ret tt end) in
      fork_files n (i + 1) me np
  end.

(** The loop of exit that closes the descriptors. *)
Fixpoint exit_files (n : nat) (fd : Z) (me : nat) : M state unit :=
  match n with
  | O => ret tt
  | S n =>
      let! t := get_ofile me in
      let! f := of_option OutOfBounds (znth t fd) in
      do! (match f with Some f => do! fileclose f in set_fd me fd None | None => ret tt end) in
      exit_files n (fd + 1) me
  end.

(** The loop of exec that resets the counters of the open files. *)
Fixpoint exec_files (n : nat) (fd : Z) (me : nat) : M state unit :=
  match n with
  | O => ret tt
  | S n =>
      let! t := get_ofile me in
      let! f := of_option OutOfBounds (znth t fd) in
      do! (match f with
           | Some i => let! f := get_file i in put_file i (set_nwrite 0 (set_nread 0 f))
           | None => ret tt
           end) in
      exec_files n (fd + 1) me
  end.
End layer.

(** ** The invariant

    [R] lists the references to open files: one for every descriptor that holds
    one, and one for every pointer a running call owns. *)
Section invariant.
Context {FS : Type} {ops : InodeLayer FS}.
Notation state := (state (FS := FS)).
Implicit Types (s : state) (R : list nat).

Notation count R i := (count_occ Nat.eq_dec R i).

(** The end of a pipe a file stands for. *)
Definition end_open (w : bool) (pi : Pipe.pipe) : bool := if w then Pipe.writeopen pi else Pipe.readopen pi.

Record FInv (s : state) (R : list nat) (b : Z) : Prop := {
  i_len : length (ftable s) = Z.to_nat NFILE;
  i_dom i : i ∈ R -> (i < Z.to_nat NFILE)%nat;
  i_size : Z.of_nat (length R) <= 2048;
  i_ref i f : ftable s !! i = Some f -> ref f = Z.of_nat (count R i);
  i_none i f : ftable s !! i = Some f -> ref f = 0 -> type f = FD_NONE;
  i_pipe i f : ftable s !! i = Some f -> type f = FD_PIPE ->
    readable f = negb (writable f) /\
    exists pi q, pipes s !! fpipe f = Some pi /\ Pipe.rep pi q /\ end_open (writable f) pi = true;
  i_ends i j f g : ftable s !! i = Some f -> ftable s !! j = Some g ->
    type f = FD_PIPE -> type g = FD_PIPE -> fpipe f = fpipe g -> writable f = writable g -> i = j;
  i_live p pi : pipes s !! p = Some pi ->
    p <> 0 /\ (exists w, end_open w pi = true) /\
    forall w, end_open w pi = true ->
      exists i f, ftable s !! i = Some f /\ type f = FD_PIPE /\ fpipe f = p /\ writable f = w;
  i_pages : NoDup (pages s);
  i_page p : p ∈ pages s -> p <> 0 /\ pipes s !! p = None;
  i_cnt i f : ftable s !! i = Some f -> 0 <= num_read_bytes f <= b /\ 0 <= num_write_bytes f <= b
}.

Lemma FInv_perm s R R' b : R ≡ₚ R' -> FInv s R b -> FInv s R' b.
Proof.
  intros P [H1 H2 H3 H4 H5 H6 H7 H8 H9 H10 H11]. split; try done.
  - intros i Hi. apply H2. by rewrite P.
  - by rewrite <- P.
  - intros i f Hf. rewrite (H4 i f Hf). f_equal. by apply (Permutation_count_occ Nat.eq_dec).
Qed.

Lemma FInv_mono s R b b' : b <= b' -> FInv s R b -> FInv s R b'.
Proof.
  intros Hb [H1 H2 H3 H4 H5 H6 H7 H8 H9 H10 H11]. split; try done. intros i f Hf. specialize (H11 i f Hf). lia.
Qed.

Lemma FInv_ofiles s o R b : FInv (set_ofiles o s) R b <-> FInv s R b.
Proof. split; intros [H1 H2 H3 H4 H5 H6 H7 H8 H9 H10 H11]; by split. Qed.

Lemma FInv_ext s s' R b :
  ftable s' = ftable s -> pipes s' = pipes s -> pages s' = pages s -> FInv s R b -> FInv s' R b.
Proof. intros E1 E2 E3 [H1 H2 H3 H4 H5 H6 H7 H8 H9 H10 H11]. split; rewrite ?E1, ?E2, ?E3; done. Qed.

Lemma FInv_fs s x R b : FInv (set_fs x s) R b <-> FInv s R b.
Proof. split; intros [H1 H2 H3 H4 H5 H6 H7 H8 H9 H10 H11]; by split. Qed.

Lemma get_file_ok s i f : ftable s !! i = Some f -> get_file i s = Ok (f, s).
Proof. intros H. unfold get_file, bind, get. by rewrite H. Qed.

Lemma file_exists s R b i : FInv s R b -> (i < Z.to_nat NFILE)%nat -> exists f, ftable s !! i = Some f.
Proof. intros I Hi. apply lookup_lt_is_Some_2. by rewrite (i_len _ _ _ I). Qed.

(** A lookup in an updated table. *)
Lemma ftable_insert (t : list file) i f j g :
  <[i := f]> t !! j = Some g -> (i < length t)%nat -> (j = i /\ g = f) \/ (j <> i /\ t !! j = Some g).
Proof.
  intros H Hi. destruct (decide (i = j)) as [<-|].
  - rewrite list_lookup_insert_eq in H by done. left. split; congruence.
  - rewrite list_lookup_insert_ne in H by done. auto.
Qed.

(** Changing the position and the counters of a file. *)
Lemma FInv_file s R b i f f' :
  FInv s R b -> ftable s !! i = Some f ->
  type f' = type f -> ref f' = ref f -> readable f' = readable f -> writable f' = writable f -> fpipe f' = fpipe f ->
  0 <= num_read_bytes f' <= b -> 0 <= num_write_bytes f' <= b ->
  FInv (set_ftable (<[i := f']> (ftable s)) s) R b.
Proof.
  intros [H1 H2 H3 H4 H5 H6 H7 H8 H9 H10 H11] Hf Et Er Erd Ewr Ep Hr Hw.
  assert (Hlen : (i < length (ftable s))%nat) by (by eapply lookup_lt_Some).
  assert (L : forall j g, <[i := f']> (ftable s) !! j = Some g ->
    exists g', ftable s !! j = Some g' /\ type g = type g' /\ ref g = ref g' /\ readable g = readable g' /\ writable g = writable g' /\ fpipe g = fpipe g').
  { intros j g Hj. apply ftable_insert in Hj as [[-> ->]|[_ Hj]]; [exists f|exists g|]; done. }
  split; cbn [ftable pipes pages set_ftable].
  - by rewrite length_insert.
  - done.
  - done.
  - intros j g Hj. apply L in Hj as (g' & Hg & _ & -> & _). by apply H4.
  - intros j g Hj. apply L in Hj as (g' & Hg & -> & -> & _). by apply (H5 j).
  - intros j g Hj. apply L in Hj as (g' & Hg & -> & _ & -> & -> & ->). by apply (H6 j).
  - intros j k g h Hj Hk. apply L in Hj as (g' & Hg & -> & _ & _ & -> & ->). apply L in Hk as (h' & Hh & -> & _ & _ & -> & ->). by apply H7.
  - intros p pi Hp. destruct (H8 p pi Hp) as (Hp0 & Hw' & Hall). split; [done|]. split; [done|]. intros w Ho.
    destruct (Hall w Ho) as (j & g & Hj & Ht & Hfp & Hwr). destruct (decide (i = j)) as [<-|].
    + exists i, f'. rewrite list_lookup_insert_eq by done. split; [done|]. split_and!; congruence.
    + exists j, g. by rewrite list_lookup_insert_ne.
  - done.
  - done.
  - intros j g Hj. apply ftable_insert in Hj as [[-> ->]|[_ Hj]]; [done|by apply (H11 j)|done].
Qed.

(** Changing the reference count of a file that stays in use. *)
Lemma FInv_ref s R R' b i f n :
  FInv s R b -> ftable s !! i = Some f ->
  n = Z.of_nat (count R' i) -> (n = 0 -> type f = FD_NONE) ->
  (forall j, j <> i -> count R' j = count R j) -> (forall j, j ∈ R' -> (j < Z.to_nat NFILE)%nat) -> Z.of_nat (length R') <= 2048 ->
  FInv (set_ftable (<[i := set_ref n f]> (ftable s)) s) R' b.
Proof.
  intros [H1 H2 H3 H4 H5 H6 H7 H8 H9 H10 H11] Hf Hn Hn0 Hc Hd Hs.
  assert (Hlen : (i < length (ftable s))%nat) by (by eapply lookup_lt_Some).
  assert (L : forall j g, <[i := set_ref n f]> (ftable s) !! j = Some g ->
    exists g', ftable s !! j = Some g' /\ type g = type g' /\ readable g = readable g' /\ writable g = writable g' /\ fpipe g = fpipe g' /\
      num_read_bytes g = num_read_bytes g' /\ num_write_bytes g = num_write_bytes g').
  { intros j g Hj. apply ftable_insert in Hj as [[-> ->]|[_ Hj]]; [exists f|exists g|]; done. }
  split; cbn [ftable pipes pages set_ftable].
  - by rewrite length_insert.
  - done.
  - done.
  - intros j g Hj. apply ftable_insert in Hj as [[-> ->]|[Hne Hj]]; [done| |done]. rewrite Hc by done. by apply H4.
  - intros j g Hj. apply ftable_insert in Hj as [[-> ->]|[_ Hj]]; [done|by apply (H5 j)|done].
  - intros j g Hj. apply L in Hj as (g' & Hg & -> & -> & -> & -> & _). by apply (H6 j).
  - intros j k g h Hj Hk. apply L in Hj as (g' & Hg & -> & _ & -> & -> & _). apply L in Hk as (h' & Hh & -> & _ & -> & -> & _). by apply H7.
  - intros p pi Hp. destruct (H8 p pi Hp) as (Hp0 & Hw' & Hall). split; [done|]. split; [done|]. intros w Ho.
    destruct (Hall w Ho) as (j & g & Hj & Ht & Hfp & Hwr). destruct (decide (i = j)) as [<-|].
    + exists i, (set_ref n f). rewrite list_lookup_insert_eq by done. simplify_eq. done.
    + exists j, g. by rewrite list_lookup_insert_ne.
  - done.
  - done.
  - intros j g Hj. apply L in Hj as (g' & Hg & _ & _ & _ & _ & -> & ->). by apply (H11 j).
Qed.
(** ** The operations of file.c *)

Lemma find_free_ok l : forall k i, find_free l k = Some i -> exists f, (k <= i)%nat /\ l !! (i - k)%nat = Some f /\ ref f = 0.
Proof.
  induction l as [|f l IH]; intros k i H; [done|]. simpl in H. destruct (Z.eqb_spec (ref f) 0).
  - injection H as <-. exists f. rewrite Nat.sub_diag. done.
  - destruct (IH _ _ H) as (g & Hk & Hg & Hr). exists g. split; [lia|]. split; [|done].
    replace (i - k)%nat with (S (i - S k)) by lia. done.
Qed.

Lemma count_zero R i : count R i = 0%nat <-> i ∉ R.
Proof. rewrite list_elem_of_In. symmetry. apply count_occ_not_In. Qed.

Lemma count_cons_ne R i j : j <> i -> count (i :: R) j = count R j.
Proof. intros. apply count_occ_cons_neq. congruence. Qed.

Lemma count_cons_same R i : count (i :: R) i = S (count R i).
Proof. by apply count_occ_cons_eq. Qed.

Lemma put_file_ok s i f : put_file i f s = Ok (tt, set_ftable (<[i := f]> (ftable s)) s).
Proof. done. Qed.

Lemma set_ftable_twice s t t' : set_ftable t (set_ftable t' s) = set_ftable t s.
Proof. done. Qed.

(** What the operations keep of the files other references point to. *)
Definition same_files (s s' : state) R : Prop :=
  ofiles s' = ofiles s /\ forall j, j ∈ R -> type <$> ftable s' !! j = type <$> ftable s !! j.

Lemma filealloc_ok s R b :
  FInv s R b -> Z.of_nat (length R) < 2048 ->
  filealloc s = Ok (None, s) \/
  exists i f, filealloc s = Ok (Some i, set_ftable (<[i := set_ref 1 f]> (ftable s)) s) /\
    ftable s !! i = Some f /\ type f = FD_NONE /\ i ∉ R /\
    FInv (set_ftable (<[i := set_ref 1 f]> (ftable s)) s) (i :: R) b.
Proof.
  intros I Hs. unfold filealloc. rewrite (bind_ok get _ s s s eq_refl). destruct (find_free (ftable s) 0) as [i|] eqn:E; [right|by left].
  apply find_free_ok in E as (f & _ & Hf & Hr). rewrite Nat.sub_0_r in Hf. exists i, f.
  rewrite (bind_ok _ _ _ _ _ (get_file_ok s i f Hf)). split; [done|]. split; [done|]. split; [by apply (i_none _ _ _ I i)|].
  assert (Hi : i ∉ R) by (apply count_zero; pose proof (i_ref _ _ _ I i f Hf); lia). split; [done|].
  apply (FInv_ref s R _ b i f 1); [done|done| |lia| | |].
  - rewrite count_cons_same, (proj2 (count_zero R i) Hi). done.
  - intros j Hj. by apply count_cons_ne.
  - intros j Hj. apply elem_of_cons in Hj as [->|Hj]; [|by apply (i_dom _ _ _ I)]. rewrite <- (i_len _ _ _ I). by eapply lookup_lt_Some.
  - simpl length. lia.
Qed.

Lemma filedup_ok s R b i :
  FInv s R b -> i ∈ R -> Z.of_nat (length R) < 2048 ->
  exists s', filedup i s = Ok (i, s') /\ FInv s' (i :: R) b /\ same_files s s' R.
Proof.
  intros I Hi Hs. destruct (file_exists s R b i I (i_dom _ _ _ I i Hi)) as [f Hf].
  pose proof (i_ref _ _ _ I i f Hf) as Hr. assert (Hc : (0 < count R i)%nat) by (apply count_occ_In; by apply list_elem_of_In).
  pose proof (count_occ_bound Nat.eq_dec i R) as Hb.
  unfold filedup. rewrite (bind_ok _ _ _ _ _ (get_file_ok s i f Hf)). rewrite (proj2 (Z.ltb_ge (ref f) 1)) by lia.
  rewrite (bind_ok (chk_int _) _ s (ref f + 1) s) by (unfold chk_int; by rewrite (proj2 (int_range_spec _)) by (unfold INT_MIN, INT_MAX; lia)).
  rewrite (bind_ok _ _ _ _ _ (put_file_ok s i _)). eexists. split; [reflexivity|]. split.
  - apply (FInv_ref s R); [done|done| |lia| | |].
    + rewrite count_cons_same. lia.
    + intros j Hj. by apply count_cons_ne.
    + intros j Hj. apply elem_of_cons in Hj as [->|Hj]; by apply (i_dom _ _ _ I).
    + simpl length. lia.
  - split; [done|]. intros j Hj. cbn [ftable set_ftable]. destruct (decide (i = j)) as [<-|]; [|by rewrite list_lookup_insert_ne].
    rewrite list_lookup_insert_eq by (by eapply lookup_lt_Some). by rewrite Hf.
Qed.

(** The last reference to a file is dropped: the slot is free again.  [pp'] and
    [pg'] are the pipes and free pages then. *)
Definition closed (f : file) : file := set_type FD_NONE (set_ref 0 (set_ref 0 f)).

Lemma FInv_closed s R b i f pp' pg' :
  FInv s (i :: R) b -> ftable s !! i = Some f -> i ∉ R ->
  (forall p, p <> fpipe f \/ type f <> FD_PIPE -> pp' !! p = pipes s !! p) ->
  (type f = FD_PIPE -> forall pi q, pipes s !! fpipe f = Some pi -> Pipe.rep pi q ->
     if end_open (negb (writable f)) pi then
       exists pi', pp' !! fpipe f = Some pi' /\ Pipe.rep pi' q /\ end_open (writable f) pi' = false /\ end_open (negb (writable f)) pi' = true
     else pp' !! fpipe f = None) ->
  NoDup pg' -> (forall p, p ∈ pg' -> p <> 0 /\ pp' !! p = None) ->
  FInv (set_pages pg' (set_pipes pp' (set_ftable (<[i := closed f]> (ftable s)) s))) R b.
Proof.
  intros [H1 H2 H3 H4 H5 H6 H7 H8 H9 H10 H11] Hf Hi Hother Hself Hnd Hpg.
  assert (Hlen : (i < length (ftable s))%nat) by (by eapply lookup_lt_Some).
  assert (L : forall j g, <[i := closed f]> (ftable s) !! j = Some g -> type g = FD_PIPE -> j <> i /\ ftable s !! j = Some g).
  { intros j g Hj Ht. apply ftable_insert in Hj as [[-> ->]|Hj]; done. }
  split; cbn [ftable pipes pages set_ftable set_pipes set_pages].
  - by rewrite length_insert.
  - intros j Hj. apply H2. apply elem_of_cons. by right.
  - simpl length in H3. lia.
  - intros j g Hj. apply ftable_insert in Hj as [[-> ->]|[Hne Hj]]; [cbn; by rewrite (proj2 (count_zero R i) Hi)| |done].
    rewrite <- (count_cons_ne R i j Hne). by apply H4.
  - intros j g Hj. apply ftable_insert in Hj as [[-> ->]|[_ Hj]]; [done|by apply (H5 j)|done].
  - intros j g Hj Ht. destruct (L j g Hj Ht) as [Hne Hg]. destruct (H6 j g Hg Ht) as (Hrw & pi & q & Hpi & Hrep & Ho).
    split; [done|]. destruct (decide (fpipe g = fpipe f /\ type f = FD_PIPE)) as [[Ep Etf]|Hd].
    + rewrite Ep in *. assert (Hw : writable g = negb (writable f)).
      { destruct (bool_decide (writable g = writable f)) eqn:Eb; [|destruct (writable g), (writable f); done].
        apply bool_decide_eq_true in Eb. exfalso. apply Hne. by apply (H7 j i g f). }
      specialize (Hself Etf pi q Hpi Hrep). rewrite <- Hw, Ho in Hself. destruct Hself as (pi' & Hp' & Hrep' & _ & Ho'). exists pi', q. auto.
    + exists pi, q. rewrite Hother; [done|]. destruct (decide (fpipe g = fpipe f)); [right|left]; tauto.
  - intros j k g h Hj Hk Htg Hth. apply (L j g) in Hj as [_ Hj]; [|done]. apply (L k h) in Hk as [_ Hk]; [|done]. by apply H7.
  - intros p pi' Hp. destruct (decide (p = fpipe f /\ type f = FD_PIPE)) as [[-> Etf]|Hd].
    + destruct (H6 i f Hf Etf) as (_ & pi & q & Hpi & Hrep & Ho). specialize (Hself Etf pi q Hpi Hrep).
      destruct (end_open (negb (writable f)) pi) eqn:Eo; [|congruence]. destruct Hself as (pi2 & Hp2 & _ & Hc & Ho2). rewrite Hp in Hp2. injection Hp2 as <-.
      destruct (H8 _ _ Hpi) as (Hp0 & _ & Hall). split; [done|]. split; [eauto|]. intros w Hw.
      assert (w = negb (writable f)) as -> by (destruct w, (writable f); simpl in *; congruence).
      destruct (Hall _ Eo) as (j & g & Hj & Ht & Hfp & Hwr). exists j, g. rewrite list_lookup_insert_ne; [done|].
      intros <-. rewrite Hf in Hj. injection Hj as <-. by destruct (writable f).
    + rewrite (Hother p) in Hp by (destruct (decide (p = fpipe f)); [right|left]; tauto). destruct (H8 p pi' Hp) as (Hp0 & Hw' & Hall). split; [done|]. split; [done|].
      intros w Ho. destruct (Hall w Ho) as (j & g & Hj & Ht & Hfp & Hwr). exists j, g. rewrite list_lookup_insert_ne; [done|].
      intros <-. rewrite Hf in Hj. injection Hj as <-. apply Hd. split; [congruence|done].
  - done.
  - done.
  - intros j g Hj. apply ftable_insert in Hj as [[-> ->]|[_ Hj]]; [cbn; by apply (H11 i)|by apply (H11 j)|done].
Qed.

(** What pipeclose does to a pipe. *)
Definition close_end (w : bool) (pi : Pipe.pipe) : Pipe.pipe :=
  Pipe.mk_pipe (Pipe.data pi) (Pipe.nread pi) (Pipe.nwrite pi) (w && Pipe.readopen pi) (negb w && Pipe.writeopen pi).

Lemma pipe_pipeclose w pi :
  Pipe.pipeclose w (Pipe.mk_state pi []) =
    Ok (negb (end_open (negb w) pi), Pipe.mk_state (close_end w pi) [if w then Pipe.ChRead else Pipe.ChWrite]).
Proof. destruct pi as [d nr nw [] []], w; reflexivity. Qed.

Lemma on_pipe_ok {A} s p (m : M Pipe.state A) pi a ps :
  pipes s !! p = Some pi -> m (Pipe.mk_state pi []) = Ok (a, ps) ->
  on_pipe p m s = Ok (a, set_pipes (<[p := Pipe.pp ps]> (pipes s)) s).
Proof.
  intros Hp E. unfold on_pipe. rewrite (bind_ok get _ s s s eq_refl). cbv beta. rewrite Hp.
  rewrite (bind_ok (of_option _ (Some pi)) _ s pi s eq_refl). cbv beta. by rewrite E.
Qed.

Lemma pipeclose_ok s p w pi :
  pipes s !! p = Some pi ->
  exists pi', pipeclose p w s = Ok (tt,
      if end_open (negb w) pi then set_pipes (<[p := pi']> (pipes s)) s
      else set_pages (p :: pages s) (set_pipes (delete p (pipes s)) s)) /\
    (forall q, Pipe.rep pi q -> Pipe.rep pi' q) /\ end_open w pi' = false /\ end_open (negb w) pi' = end_open (negb w) pi.
Proof.
  intros Hp. exists (close_end w pi). split; [|split; [|by destruct w]].
  - unfold pipeclose. rewrite (bind_ok _ _ _ _ _ (on_pipe_ok s p _ pi _ _ Hp (pipe_pipeclose w pi))). cbv beta.
    destruct (end_open (negb w) pi); [done|]. cbn [negb Pipe.pp].
    unfold bind, modify, kfree, modify, set_pages, set_pipes. cbn [ftable ofiles pipes pages fs]. by rewrite delete_insert_eq.
  - intros q [R1 R2 R3 R4 R5]. by split.
Qed.

Lemma fileclose_ok s R b i :
  FInv s (i :: R) b ->
  exists s', fileclose i s = Ok (tt, s') /\ FInv s' R b /\ same_files s s' R.
Proof.
  intros I. destruct (file_exists s _ b i I (i_dom _ _ _ I i ltac:(apply elem_of_cons; by left))) as [f Hf].
  pose proof (i_ref _ _ _ I i f Hf) as Hr. rewrite count_cons_same in Hr.
  assert (Hlen : (i < length (ftable s))%nat) by (by eapply lookup_lt_Some).
  unfold fileclose. rewrite (bind_ok _ _ _ _ _ (get_file_ok s i f Hf)). rewrite (proj2 (Z.ltb_ge (ref f) 1)) by lia.
  cbv zeta. rewrite (bind_ok _ _ _ _ _ (put_file_ok s i _)). cbv beta. case_Z.
  - eexists. split; [reflexivity|]. split.
    + apply (FInv_ref s (i :: R)); [done|done|lia|lia| | |].
      * intros j Hj. by rewrite count_cons_ne.
      * intros j Hj. apply (i_dom _ _ _ I). apply elem_of_cons. by right.
      * pose proof (i_size _ _ _ I) as Hs. simpl length in Hs. lia.
    + split; [done|]. intros j Hj. cbn [ftable set_ftable]. destruct (decide (i = j)) as [<-|]; [|by rewrite list_lookup_insert_ne].
      rewrite list_lookup_insert_eq by done. by rewrite Hf.
  - assert (Hi : i ∉ R) by (apply count_zero; lia). replace (ref f - 1) with 0 by lia.
    rewrite (bind_ok _ _ _ _ _ (put_file_ok _ i _)). cbv beta. rewrite set_ftable_twice. cbn [ftable set_ftable]. rewrite list_insert_insert_eq.
    change (set_type FD_NONE (set_ref 0 (set_ref 0 f))) with (closed f). cbn [type set_ref fpipe writable ip].
    set (s1 := set_ftable (<[i := closed f]> (ftable s)) s).
    assert (Same : forall s', ofiles s' = ofiles s -> ftable s' = <[i := closed f]> (ftable s) -> same_files s s' R).
    { intros s' Ho Ht. split; [done|]. intros j Hj. rewrite Ht, list_lookup_insert_ne; [done|]. intros <-. done. }
    destruct (type f) eqn:Et.
    + exists s1. split; [done|]. split; [|by apply Same].
      apply (FInv_closed s R b i f (pipes s) (pages s) I Hf Hi); [done|congruence|apply (i_pages _ _ _ I)|apply (i_page _ _ _ I)].
    + destruct (i_pipe _ _ _ I i f Hf Et) as (_ & pi & q & Hpi & Hrep & Ho).
      destruct (pipeclose_ok s1 (fpipe f) (writable f) pi Hpi) as (pi' & E & Hrep' & Hc & Ho'). rewrite E.
      assert (Hpn : forall p, p ∈ pages s -> p <> fpipe f) by (intros p Hp ->; apply (i_page _ _ _ I) in Hp as [_ Hp]; congruence).
      destruct (end_open (negb (writable f)) pi) eqn:Eo.
      * eexists. split; [reflexivity|]. split; [|by apply Same].
        eapply FInv_ext; [| | |apply (FInv_closed s R b i f (<[fpipe f := pi']> (pipes s)) (pages s) I Hf Hi)]; [reflexivity..| | |apply (i_pages _ _ _ I)|].
        -- intros p [Hp|?]; [by rewrite lookup_insert_ne|done].
        -- intros _ pi2 q2 Hpi2 Hrep2. rewrite Hpi in Hpi2. injection Hpi2 as <-. rewrite Eo. exists pi'. rewrite lookup_insert_eq. auto.
        -- intros p Hp. cbn [pipes s1 set_ftable]. rewrite lookup_insert_ne by (intros <-; by eapply Hpn). by apply (i_page _ _ _ I).
      * eexists. split; [reflexivity|]. split; [|by apply Same].
        eapply FInv_ext; [| | |apply (FInv_closed s R b i f (delete (fpipe f) (pipes s)) (fpipe f :: pages s) I Hf Hi)]; [reflexivity..| | | |].
        -- intros p [Hp|?]; [by rewrite lookup_delete_ne|done].
        -- intros _ pi2 q2 Hpi2 Hrep2. rewrite Hpi in Hpi2. injection Hpi2 as <-. rewrite Eo. apply lookup_delete_eq.
        -- apply NoDup_cons. split; [|apply (i_pages _ _ _ I)]. intros Hp. by apply (Hpn _ Hp).
        -- intros p Hp. apply elem_of_cons in Hp as [->|Hp]; [split; [by destruct (i_live _ _ _ I _ _ Hpi)|apply lookup_delete_eq]|].
           cbn [pipes s1 set_ftable]. rewrite lookup_delete_ne by (intros <-; by eapply Hpn). by apply (i_page _ _ _ I).
    + eexists. split; [reflexivity|]. split; [|by apply Same].
      do 3 apply FInv_fs. apply (FInv_closed s R b i f (pipes s) (pages s) I Hf Hi); [done|congruence|apply (i_pages _ _ _ I)|apply (i_page _ _ _ I)].
Qed.
(** ** Reading and writing *)

Lemma FInv_pipe_data s R b p pi pi' q :
  FInv s R b -> pipes s !! p = Some pi -> Pipe.rep pi' q ->
  Pipe.readopen pi' = Pipe.readopen pi -> Pipe.writeopen pi' = Pipe.writeopen pi ->
  FInv (set_pipes (<[p := pi']> (pipes s)) s) R b.
Proof.
  intros [H1 H2 H3 H4 H5 H6 H7 H8 H9 H10 H11] Hp Hrep Hro Hwo.
  assert (Ho : forall w, end_open w pi' = end_open w pi) by (intros []; simpl; congruence).
  split; cbn [ftable pipes pages set_pipes]; try done.
  - intros i f Hf Ht. destruct (H6 i f Hf Ht) as (Hrw & pi0 & q0 & Hpi & Hrep0 & Hopen). split; [done|].
    destruct (decide (fpipe f = p)) as [E|]; [|rewrite lookup_insert_ne by congruence; eauto].
    rewrite E in *. exists pi', q. rewrite lookup_insert_eq, Ho. split; [done|]. split; [done|]. congruence.
  - intros p' pi0 Hp'. destruct (decide (p' = p)) as [->|].
    + rewrite lookup_insert_eq in Hp'. injection Hp' as <-. destruct (H8 p pi Hp) as (Hp0 & (w & Hw) & Hall). split; [done|].
      split; [exists w; by rewrite Ho|]. intros w'. rewrite Ho. apply Hall.
    + rewrite lookup_insert_ne in Hp' by congruence. by apply H8.
  - intros p' Hp'. destruct (H10 p' Hp') as [Hp0 Hn]. split; [done|]. rewrite lookup_insert_ne; [done|]. intros <-. congruence.
Qed.

Lemma same_files_trans s s1 s2 R : same_files s s1 R -> same_files s1 s2 R -> same_files s s2 R.
Proof. intros [E1 T1] [E2 T2]. split; [congruence|]. intros j Hj. by rewrite T2, T1. Qed.

Lemma same_files_put s i f f' R : ftable s !! i = Some f -> type f' = type f -> same_files s (set_ftable (<[i := f']> (ftable s)) s) R.
Proof.
  intros Hf Ht. split; [done|]. intros j _. cbn [ftable set_ftable]. destruct (decide (i = j)) as [<-|]; [|by rewrite list_lookup_insert_ne].
  rewrite list_lookup_insert_eq by (by eapply lookup_lt_Some). rewrite Hf. simpl. congruence.
Qed.

Lemma chk_ok x s : 0 <= x <= INT_MAX -> chk_int x s = Ok (x, s).
Proof. intros H. unfold chk_int. by rewrite (proj2 (int_range_spec x)) by (unfold INT_MIN; lia). Qed.

(** A file of type FD_PIPE or FD_INODE that is referenced. *)
Definition typed (s : state) R : Prop := forall j, j ∈ R -> type <$> ftable s !! j <> Some FD_NONE.

Lemma typed_same s s' R : typed s R -> same_files s s' R -> typed s' R.
Proof. intros T [_ E] j Hj. rewrite E by done. by apply T. Qed.

Lemma put_off s R b i f r :
  FInv s R b -> ftable s !! i = Some f ->
  exists s', (if 0 <? r then put_file i (set_off (u32 (off f + r)) f) else ret tt) s = Ok (tt, s') /\
    FInv s' R b /\ same_files s s' R /\ fs s' = fs s /\
    exists f', ftable s' !! i = Some f' /\ type f' = type f /\ ip f' = ip f.
Proof.
  intros I Hf. destruct (i_cnt _ _ _ I i f Hf) as [Hr Hw]. case_Z; [|exists s; split; [done|]; split; [done|]; split; [done|]; eauto].
  eexists. split; [reflexivity|]. split; [by apply (FInv_file s R b i f)|]. split; [by apply (same_files_put s i f)|]. split; [done|].
  eexists. cbn [ftable set_ftable]. rewrite list_lookup_insert_eq by (by eapply lookup_lt_Some). done.
Qed.

Lemma fileread_ok s R b killed i n :
  FInv s R b -> typed s R -> i ∈ R -> 0 <= n -> b + n <= INT_MAX ->
  exists r s', fileread killed i n s = Ok (r, s') /\ FInv s' R (b + n) /\ same_files s s' R.
Proof.
  intros I T Hi Hn Hb. destruct (file_exists s R b i I (i_dom _ _ _ I i Hi)) as [f Hf]. destruct (i_cnt _ _ _ I i f Hf) as [Hr Hw].
  unfold fileread. rewrite (bind_ok _ _ _ _ _ (get_file_ok s i f Hf)). destruct (readable f); cbn [negb].
  2: { eexists _, s. split; [reflexivity|]. split; [by apply (FInv_mono s R b); [lia|]|done]. }
  rewrite (bind_ok _ _ _ _ _ (chk_ok (num_read_bytes f + n) s ltac:(lia))). cbv beta zeta.
  set (f' := set_nread (num_read_bytes f + n) f). rewrite (bind_ok _ _ _ _ _ (put_file_ok s i f')). cbv beta.
  set (s1 := set_ftable (<[i := f']> (ftable s)) s).
  assert (I1 : FInv s1 R (b + n)) by (apply (FInv_file s R (b + n) i f); cbn; first [done|lia|apply (FInv_mono s R b); [lia|done]]).
  assert (S1 : same_files s s1 R) by (by apply (same_files_put s i f)).
  assert (Hf1 : ftable s1 !! i = Some f') by (apply list_lookup_insert_eq; by eapply lookup_lt_Some).
  change (type f') with (type f). destruct (type f) eqn:Et.
  - exfalso. apply (T i Hi). rewrite Hf. simpl. congruence.
  - destruct (i_pipe _ _ _ I1 i f' Hf1 Et) as (_ & pi & q & Hpi & Hrep & _).
    destruct (Pipe.piperead_ok killed n (Pipe.mk_state pi []) q Hrep) as (p' & Hrep' & Hro & Hwo & E).
    cbn [Pipe.pp Pipe.woken] in *. destruct (bool_decide (q = []) && Pipe.writeopen pi);
      rewrite (on_pipe_ok s1 _ _ pi _ _ Hpi E); eexists _, _; (split; [reflexivity|]); (split; [|exact S1]); cbn [Pipe.pp].
    + by apply (FInv_pipe_data s1 R (b + n) _ pi pi q).
    + by apply (FInv_pipe_data s1 R (b + n) _ pi p' (drop (Z.to_nat n) q)).
  - rewrite (bind_ok (upd_fs _) _ s1 tt _ eq_refl). cbv beta. set (s2 := set_fs (ilock (ip f') (fs s1)) s1).
    destruct (readi (ip f') (off f') n (fs s2)) as [[r l] x] eqn:Er.
    rewrite (bind_ok (on_fs _) _ s2 (r, l) (set_fs x s2)) by (unfold on_fs; by rewrite Er). cbv beta iota.
    assert (I2 : FInv (set_fs x s2) R (b + n)) by (by do 2 apply FInv_fs).
    destruct (put_off (set_fs x s2) R (b + n) i f' r I2 Hf1) as (s3 & E3 & I3 & S3 & _). rewrite (bind_ok _ _ _ _ _ E3). cbv beta.
    rewrite (bind_ok (upd_fs _) _ s3 tt _ eq_refl). eexists _, _. split; [reflexivity|]. split; [by apply FInv_fs|].
    eapply same_files_trans; [exact S1|]. exact S3.
Qed.

Lemma filewrite_loop_ok {laws : InodeLaws FS} R b i fuel : forall s k addr f,
  FInv s R b -> ftable s !! i = Some f -> (length addr < fuel)%nat ->
  exists k' s', filewrite_loop fuel i k addr s = Ok (k', s') /\ FInv s' R b /\ same_files s s' R.
Proof.
  induction fuel as [|fuel IH]; intros s k addr f I Hf Hl; [lia|]. destruct addr as [|c addr']; [by exists k, s|].
  cbn [filewrite_loop]. set (addr := c :: addr') in *. cbv zeta. set (n1 := Z.min (Z.of_nat (length addr)) max_write).
  assert (Hn1 : 1 <= n1 <= Z.of_nat (length addr)) by (unfold n1, addr, max_write; simpl length; change (Z.quot (MAXOPBLOCKS - 1 - 1 - 2) 2 * 512) with 1536; lia).
  rewrite (bind_ok (upd_fs _) _ s tt _ eq_refl). cbv beta.
  rewrite (bind_ok _ _ _ _ _ (get_file_ok (set_fs (begin_op (fs s)) s) i f Hf)). cbv beta.
  rewrite (bind_ok (upd_fs _) _ _ tt _ eq_refl). cbv beta. set (s2 := set_fs _ (set_fs _ s)).
  destruct (writei (ip f) (take (Z.to_nat n1) addr) (off f) (fs s2)) as [r x] eqn:Er.
  rewrite (bind_ok (on_fs _) _ s2 r (set_fs x s2)) by (unfold on_fs; by rewrite Er). cbv beta iota.
  assert (I2 : FInv (set_fs x s2) R b) by (by do 3 apply FInv_fs).
  destruct (put_off (set_fs x s2) R b i f r I2 Hf) as (s3 & E3 & I3 & S3 & _ & f3 & Hf3 & _). rewrite (bind_ok _ _ _ _ _ E3). cbv beta.
  rewrite (bind_ok (upd_fs _) _ s3 tt _ eq_refl), (bind_ok (upd_fs _) _ _ tt _ eq_refl). cbv beta. set (s4 := set_fs _ (set_fs _ s3)).
  assert (I4 : FInv s4 R b) by (by do 2 apply FInv_fs). assert (S4 : same_files s s4 R) by (destruct S3 as [? ?]; split; done).
  pose proof (writei_all (ip f) (take (Z.to_nat n1) addr) (off f) (fs s2)) as W. rewrite Er, length_take in W. cbn [fst] in W.
  destruct (Z.ltb_spec r 0); [by exists k, s4|]. assert (r = n1) as -> by lia. rewrite Z.eqb_refl. cbn [negb].
  destruct (IH s4 (k + n1) (drop (Z.to_nat n1) addr) f3 I4 Hf3 ltac:(rewrite length_drop; lia)) as (k' & s5 & E5 & I5 & S5).
  exists k', s5. split; [done|]. split; [done|]. by eapply same_files_trans.
Qed.

Lemma filewrite_ok {laws : InodeLaws FS} s R b killed i addr :
  FInv s R b -> typed s R -> i ∈ R -> b + Z.of_nat (length addr) <= INT_MAX ->
  exists r s', filewrite killed i addr s = Ok (r, s') /\ FInv s' R (b + Z.of_nat (length addr)) /\ same_files s s' R.
Proof.
  intros I T Hi Hb. destruct (file_exists s R b i I (i_dom _ _ _ I i Hi)) as [f Hf]. destruct (i_cnt _ _ _ I i f Hf) as [Hr Hw].
  unfold filewrite. set (n := Z.of_nat (length addr)) in *. assert (Hn : 0 <= n) by lia.
  rewrite (bind_ok _ _ _ _ _ (get_file_ok s i f Hf)). destruct (writable f) eqn:Ew; cbn [negb].
  2: { eexists _, s. split; [reflexivity|]. split; [by apply (FInv_mono s R b); [lia|]|done]. }
  rewrite (bind_ok _ _ _ _ _ (chk_ok (num_write_bytes f + n) s ltac:(lia))). cbv beta zeta.
  set (f' := set_nwrite (num_write_bytes f + n) f). rewrite (bind_ok _ _ _ _ _ (put_file_ok s i f')). cbv beta.
  set (s1 := set_ftable (<[i := f']> (ftable s)) s).
  assert (I1 : FInv s1 R (b + n)) by (apply (FInv_file s R (b + n) i f); cbn; first [done|lia|apply (FInv_mono s R b); [lia|done]]).
  assert (S1 : same_files s s1 R) by (by apply (same_files_put s i f)).
  assert (Hf1 : ftable s1 !! i = Some f') by (apply list_lookup_insert_eq; by eapply lookup_lt_Some).
  change (type f') with (type f). destruct (type f) eqn:Et.
  - exfalso. apply (T i Hi). rewrite Hf. simpl. congruence.
  - destruct (i_pipe _ _ _ I1 i f' Hf1 Et) as (_ & pi & q & Hpi & Hrep & _).
    destruct (Pipe.pipewrite_ok killed n addr (Pipe.mk_state pi []) q Hrep) as (p' & Hrep' & Hro & Hwo & _ & E).
    assert (E' : exists o w, Pipe.pipewrite killed n addr (Pipe.mk_state pi []) = Ok (o, Pipe.mk_state p' w)) by (rewrite E; repeat (match goal with |- context [if ?c then _ else _] => destruct c end); eauto).
    destruct E' as (o & w & E'). rewrite (on_pipe_ok s1 _ _ pi _ _ Hpi E'). eexists _, _. split; [reflexivity|]. split; [|exact S1].
    by apply (FInv_pipe_data s1 R (b + n) _ pi p' (q ++ take (512 - length q) addr)).
  - destruct (filewrite_loop_ok R (b + n) i (S (length addr)) s1 0 addr f' I1 Hf1 ltac:(lia)) as (k & s2 & E2 & I2 & S2).
    rewrite (bind_ok _ _ _ _ _ E2). eexists _, s2. split; [reflexivity|]. split; [done|]. by eapply same_files_trans.
Qed.
(** ** New files *)

(** A fresh file becomes one of an inode. *)
Lemma FInv_inode s R b i f f' :
  FInv s R b -> ftable s !! i = Some f -> type f = FD_NONE -> i ∈ R ->
  type f' = FD_INODE -> ref f' = ref f -> 0 <= num_read_bytes f' <= b -> 0 <= num_write_bytes f' <= b ->
  FInv (set_ftable (<[i := f']> (ftable s)) s) R b.
Proof.
  intros [H1 H2 H3 H4 H5 H6 H7 H8 H9 H10 H11] Hf Ht0 Hi Ht Hr Hcr Hcw.
  assert (Hlen : (i < length (ftable s))%nat) by (by eapply lookup_lt_Some).
  assert (Hc : (0 < count R i)%nat) by (apply count_occ_In; by apply list_elem_of_In).
  assert (L : forall j g, <[i := f']> (ftable s) !! j = Some g -> type g = FD_PIPE -> ftable s !! j = Some g).
  { intros j g Hj Htg. apply ftable_insert in Hj as [[-> ->]|[_ Hj]]; [congruence|done|done]. }
  split; cbn [ftable pipes pages set_ftable].
  - by rewrite length_insert.
  - done.
  - done.
  - intros j g Hj. apply ftable_insert in Hj as [[-> ->]|[_ Hj]]; [rewrite Hr; by apply H4|by apply H4|done].
  - intros j g Hj Hz. apply ftable_insert in Hj as [[-> ->]|[_ Hj]]; [|by apply (H5 j)|done].
    rewrite Hr, (H4 i f Hf) in Hz. lia.
  - intros j g Hj Htg. by apply (H6 j), Htg; apply L.
  - intros j k g h Hj Hk Htg Hth. apply H7; auto.
  - intros p pi Hp. destruct (H8 p pi Hp) as (Hp0 & Hw' & Hall). split; [done|]. split; [done|]. intros w Ho.
    destruct (Hall w Ho) as (j & g & Hj & Htg & Hfp & Hwr). exists j, g. rewrite list_lookup_insert_ne; [done|]. intros <-. congruence.
  - done.
  - done.
  - intros j g Hj. apply ftable_insert in Hj as [[-> ->]|[_ Hj]]; [done|by apply (H11 j)|done].
Qed.

(** Two fresh files become the ends of a new pipe. *)
Lemma FInv_new_pipe s R b i j f g p junk :
  FInv s R b -> ftable s !! i = Some f -> ftable s !! j = Some g -> i <> j ->
  type f = FD_NONE -> type g = FD_NONE -> i ∈ R -> j ∈ R ->
  p <> 0 -> pipes s !! p = None -> p ∉ pages s -> length junk = 512%nat ->
  FInv (set_ftable (<[j := mk_file FD_PIPE (ref g) false true p (ip g) (off g) (num_read_bytes g) (num_write_bytes g)]>
         (<[i := mk_file FD_PIPE (ref f) true false p (ip f) (off f) (num_read_bytes f) (num_write_bytes f)]> (ftable s)))
       (set_pipes (<[p := Pipe.new_pipe junk]> (pipes s)) s)) R b.
Proof.
  intros [H1 H2 H3 H4 H5 H6 H7 H8 H9 H10 H11] Hf Hg Hij Tf Tg Hi Hj Hp Hpn Hpg Hjunk.
  assert (Hli : (i < length (ftable s))%nat) by (by eapply lookup_lt_Some). assert (Hlj : (j < length (ftable s))%nat) by (by eapply lookup_lt_Some).
  assert (Hci : (0 < count R i)%nat) by (apply count_occ_In; by apply list_elem_of_In).
  assert (Hcj : (0 < count R j)%nat) by (apply count_occ_In; by apply list_elem_of_In).
  set (f' := mk_file FD_PIPE (ref f) true false p (ip f) (off f) (num_read_bytes f) (num_write_bytes f)).
  set (g' := mk_file FD_PIPE (ref g) false true p (ip g) (off g) (num_read_bytes g) (num_write_bytes g)).
  set (t := <[j := g']> (<[i := f']> (ftable s))).
  assert (Li : t !! i = Some f') by (unfold t; rewrite list_lookup_insert_ne by done; by apply list_lookup_insert_eq).
  assert (Lj : t !! j = Some g') by (unfold t; apply list_lookup_insert_eq; by rewrite length_insert).
  assert (Lk : forall k, k <> i -> k <> j -> t !! k = ftable s !! k) by (intros k ? ?; unfold t; by rewrite !list_lookup_insert_ne by congruence).
  assert (Cases : forall k x, t !! k = Some x -> (k = i /\ x = f') \/ (k = j /\ x = g') \/ (k <> i /\ k <> j /\ ftable s !! k = Some x)).
  { intros k x Hk. destruct (decide (k = i)) as [->|]; [left; split; congruence|]. destruct (decide (k = j)) as [->|]; [right; left; split; congruence|].
    right; right. rewrite <- Lk by done. done. }
  assert (Rep : Pipe.rep (Pipe.new_pipe junk) []) by (by apply Pipe.start_rep).
  assert (Old : forall k x, ftable s !! k = Some x -> type x = FD_PIPE -> fpipe x <> p).
  { intros k x Hk Hx E. destruct (H6 k x Hk Hx) as (_ & pi & q & Hpi & _). congruence. }
  split; cbn [ftable pipes pages set_ftable set_pipes].
  - unfold t. by rewrite !length_insert.
  - done.
  - done.
  - intros k x Hk. apply Cases in Hk as [[-> ->]|[[-> ->]|(_ & _ & Hk)]]; [by apply (H4 i f)|by apply (H4 j g)|by apply H4].
  - intros k x Hk Hz. apply Cases in Hk as [[-> ->]|[[-> ->]|(_ & _ & Hk)]]; [| |by apply (H5 k)].
    + cbn [ref f'] in Hz. rewrite (H4 i f Hf) in Hz. lia.
    + cbn [ref g'] in Hz. rewrite (H4 j g Hg) in Hz. lia.
  - intros k x Hk Hx. apply Cases in Hk as [[-> ->]|[[-> ->]|(_ & _ & Hk)]].
    + split; [done|]. exists (Pipe.new_pipe junk), []. cbn [fpipe f']. rewrite lookup_insert_eq. done.
    + split; [done|]. exists (Pipe.new_pipe junk), []. cbn [fpipe g']. rewrite lookup_insert_eq. done.
    + destruct (H6 k x Hk Hx) as (Hrw & pi & q & Hpi & Hrest). split; [done|]. exists pi, q. rewrite lookup_insert_ne; [done|]. intros E. by apply (Old k x).
  - intros k l x y Hk Hl Hx Hy Ep Ew. apply Cases in Hk as [[-> ->]|[[-> ->]|(_ & _ & Hk)]]; apply Cases in Hl as [[-> ->]|[[-> ->]|(_ & _ & Hl)]]; try done.
    + cbn [fpipe f'] in Ep. exfalso. by apply (Old l y).
    + cbn [fpipe g'] in Ep. exfalso. by apply (Old l y).
    + cbn [fpipe f'] in Ep. exfalso. by apply (Old k x).
    + cbn [fpipe g'] in Ep. exfalso. by apply (Old k x).
    + by apply (H7 k l x y).
  - intros p' pi Hp'. destruct (decide (p' = p)) as [->|Hne].
    + rewrite lookup_insert_eq in Hp'. injection Hp' as <-. split; [done|]. split; [by exists true|]. intros [] _; [exists j, g'|exists i, f']; done.
    + rewrite lookup_insert_ne in Hp' by congruence. destruct (H8 p' pi Hp') as (Hp0 & Hw & Hall). split; [done|]. split; [done|].
      intros w Ho. destruct (Hall w Ho) as (k & x & Hk & Hx & Hfp & Hwr). exists k, x. rewrite Lk; [done| |]; intros ->; congruence.
  - done.
  - intros p' Hp'. destruct (H10 p' Hp') as [Hp0 Hn]. split; [done|]. rewrite lookup_insert_ne; [done|]. intros <-. done.
  - intros k x Hk. apply Cases in Hk as [[-> ->]|[[-> ->]|(_ & _ & Hk)]]; [by apply (H11 i f)|by apply (H11 j g)|by apply (H11 k)].
Qed.

Lemma FInv_pages s R b l :
  FInv s R b -> NoDup l -> (forall p, p ∈ l -> p ∈ pages s) -> FInv (set_pages l s) R b.
Proof. intros [H1 H2 H3 H4 H5 H6 H7 H8 H9 H10 H11] Hn Hl. split; try done. intros p Hp. by apply H10, Hl. Qed.

Lemma pipealloc_ok s R b junk :
  FInv s R b -> Z.of_nat (length R) < 2046 -> length junk = 512%nat ->
  exists r s', pipealloc junk s = Ok (r, s') /\ same_files s s' R /\
    match r with
    | None => FInv s' R b
    | Some (i, j) => FInv s' (i :: j :: R) b /\ type <$> ftable s' !! i = Some FD_PIPE /\ type <$> ftable s' !! j = Some FD_PIPE
    end.
Proof.
  intros I Hs Hj. unfold pipealloc.
  destruct (filealloc_ok s R b I ltac:(lia)) as [E0|(i & f & E0 & Hf & Tf & Hi & I1)]; rewrite (bind_ok _ _ _ _ _ E0); cbv beta iota.
  { exists None, s. done. }
  set (s1 := set_ftable (<[i := set_ref 1 f]> (ftable s)) s) in *.
  assert (Hf1 : ftable s1 !! i = Some (set_ref 1 f)) by (apply list_lookup_insert_eq; by eapply lookup_lt_Some).
  assert (S1 : same_files s s1 R) by (by apply (same_files_put s i f)).
  destruct (filealloc_ok s1 (i :: R) b I1 ltac:(simpl length; lia)) as [E1|(j & g & E1 & Hg & Tg & Hji & I2)]; rewrite (bind_ok _ _ _ _ _ E1); cbv beta iota.
  { destruct (fileclose_ok s1 R b i I1) as (s2 & E2 & I2 & S2). rewrite (bind_ok _ _ _ _ _ E2). exists None, s2. split; [done|]. split; [by eapply same_files_trans|done]. }
  set (s2 := set_ftable (<[j := set_ref 1 g]> (ftable s1)) s1) in *.
  apply not_elem_of_cons in Hji as [Hne HjR].
  assert (S2 : same_files s s2 R) by (eapply same_files_trans; [exact S1|]; by apply (same_files_put s1 j g)).
  unfold kalloc. rewrite bind_assoc, (bind_ok get _ s2 s2 s2 eq_refl). cbv beta. destruct (pages s2) as [|p l] eqn:Ep.
  - rewrite (bind_ok (ret 0) _ s2 0 s2 eq_refl). cbv beta. change (0 =? 0) with true. cbv iota.
    destruct (fileclose_ok s2 (j :: R) b i) as (s3 & E3 & I3 & S3); [by apply (FInv_perm s2 (j :: i :: R)); [constructor|]|].
    rewrite (bind_ok _ _ _ _ _ E3). cbv beta. destruct (fileclose_ok s3 R b j I3) as (s4 & E4 & I4 & S4). rewrite (bind_ok _ _ _ _ _ E4).
    exists None, s4. split; [done|]. split; [|done]. eapply same_files_trans; [exact S2|]. eapply same_files_trans; [|exact S4].
    destruct S3 as [? T3]. split; [done|]. intros k Hk. apply T3. apply elem_of_cons. by right.
  - rewrite bind_assoc, (bind_ok (put _) _ s2 tt _ eq_refl). cbv beta. rewrite (bind_ok (ret p) _ _ p _ eq_refl). cbv beta.
    destruct (i_page _ _ _ I2 p ltac:(rewrite Ep; apply elem_of_cons; by left)) as [Hp0 Hpn]. rewrite (proj2 (Z.eqb_neq p 0) Hp0).
    pose proof (i_pages _ _ _ I2) as Hnd. rewrite Ep in Hnd. apply NoDup_cons in Hnd as [Hpl Hnd].
    set (s3 := set_pages l s2). assert (I3 : FInv s3 (j :: i :: R) b) by (apply FInv_pages; [done|done|]; intros q Hq; rewrite Ep; apply elem_of_cons; by right).
    rewrite (bind_ok (modify _) _ s3 tt _ eq_refl). cbv beta.
    assert (Hli : ftable s3 !! i = Some (set_ref 1 f)) by (cbn [ftable s3 set_pages s2 set_ftable]; by rewrite list_lookup_insert_ne).
    assert (Hlj : ftable s3 !! j = Some (set_ref 1 g)) by (cbn [ftable s3 set_pages s2 set_ftable]; apply list_lookup_insert_eq; by eapply lookup_lt_Some).
    pose proof (FInv_new_pipe s3 _ b i j _ _ p junk I3 Hli Hlj ltac:(congruence) Tf Tg ltac:(apply elem_of_cons; right; apply elem_of_cons; by left)
      ltac:(apply elem_of_cons; by left) Hp0 Hpn Hpl Hj) as I4.
    set (s4 := set_pipes (<[p := Pipe.new_pipe junk]> (pipes s3)) s3).
    rewrite (bind_ok _ _ _ _ _ (get_file_ok s4 i _ Hli)). cbv beta. rewrite (bind_ok _ _ _ _ _ (put_file_ok s4 i _)). cbv beta. set (s5 := set_ftable _ s4).
    assert (Hlj5 : ftable s5 !! j = Some (set_ref 1 g)) by (cbn [ftable s5 set_ftable]; rewrite list_lookup_insert_ne by congruence; exact Hlj).
    rewrite (bind_ok _ _ _ _ _ (get_file_ok s5 j _ Hlj5)). cbv beta. rewrite (bind_ok _ _ _ _ _ (put_file_ok s5 j _)). cbv beta.
    eexists (Some (i, j)), _. split; [reflexivity|]. split; [|split; [|split]].
    + destruct S2 as [So St]. split; [done|]. intros k Hk. rewrite <- St by done. cbn [ftable set_ftable s5 s4 set_pipes s3 set_pages].
      rewrite !list_lookup_insert_ne; [done| |]; intros <-; done.
    + eapply (FInv_perm _ (j :: i :: R)); [constructor|]. eapply FInv_ext; [| | |exact I4]; reflexivity.
    + cbn [ftable set_ftable s5 s4 set_pipes]. rewrite list_lookup_insert_ne by congruence. rewrite list_lookup_insert_eq by (by eapply lookup_lt_Some). done.
    + cbn [ftable set_ftable]. rewrite list_lookup_insert_eq by (by eapply lookup_lt_Some). done.
Qed.
(** ** Descriptor tables *)

Definition refs (s : state) : list nat := omap id (concat (ofiles s)).
Definition opt (x : option nat) : list nat := match x with Some i => [i] | None => [] end.

(** Every descriptor is a reference to a file that is in use. *)
Record good (s : state) (b : Z) : Prop := {
  g_inv : FInv s (refs s) b;
  g_typed : typed s (refs s);
  g_tab : Forall (fun t => length t = Z.to_nat NOFILE) (ofiles s);
  g_procs : (length (ofiles s) <= 64)%nat
}.

Definition upd_slot (s : state) (me k : nat) (t : list (option nat)) (y : option nat) : state :=
  set_ofiles (<[me := <[k := y]> t]> (ofiles s)) s.

Lemma refs_slot s me t k x :
  ofiles s !! me = Some t -> t !! k = Some x ->
  exists R0, refs s ≡ₚ opt x ++ R0 /\ forall y, refs (upd_slot s me k t y) ≡ₚ opt y ++ R0.
Proof.
  intros Ht Hx. exists (omap id (concat (take me (ofiles s)) ++ take k t ++ drop (S k) t ++ concat (drop (S me) (ofiles s)))).
  assert (G : forall y, omap id (concat (take me (ofiles s) ++ (take k t ++ y :: drop (S k) t) :: drop (S me) (ofiles s))) ≡ₚ
     opt y ++ omap id (concat (take me (ofiles s)) ++ take k t ++ drop (S k) t ++ concat (drop (S me) (ofiles s)))).
  { intros y. rewrite concat_app. cbn [concat]. rewrite !omap_app. simpl omap. destruct y as [i|]; simpl.
    - rewrite <- !app_assoc. simpl. rewrite <- !Permutation_middle. done.
    - by rewrite <- !app_assoc. }
  split.
  - unfold refs. rewrite <- (take_drop_middle _ _ _ Ht) at 1. rewrite <- (take_drop_middle _ _ _ Hx) at 1. apply G.
  - intros y. unfold refs, upd_slot. cbn [ofiles set_ofiles]. rewrite insert_take_drop by (by eapply lookup_lt_Some).
    rewrite (insert_take_drop t) by (by eapply lookup_lt_Some). apply G.
Qed.

Lemma refs_length s : Forall (fun t => length t = Z.to_nat NOFILE) (ofiles s) -> (length (ofiles s) <= 64)%nat -> Z.of_nat (length (refs s)) <= 1024.
Proof.
  intros Ht Hp. unfold refs. assert (L : forall l : list (option nat), (length (omap id l) <= length l)%nat).
  { induction l as [|x l IH]; [done|]. change (omap id (x :: l)) with (match x with Some y => y :: omap id l | None => omap id l end). destruct x; simpl length; lia. }
  specialize (L (concat (ofiles s))). assert (length (concat (ofiles s)) = 16 * length (ofiles s))%nat; [|lia].
  clear L Hp. induction Ht as [|t l Ht1 Ht IH]; [done|]. simpl. rewrite length_app, IH, Ht1. change (Z.to_nat NOFILE) with 16%nat. lia.
Qed.

Lemma good_refs s b : good s b -> Z.of_nat (length (refs s)) <= 1024.
Proof. intros G. apply refs_length; [apply (g_tab _ _ G)|apply (g_procs _ _ G)]. Qed.

Lemma good_table s b me : good s b -> (me < length (ofiles s))%nat -> exists t, ofiles s !! me = Some t /\ length t = Z.to_nat NOFILE.
Proof.
  intros G Hm. destruct (lookup_lt_is_Some_2 _ _ Hm) as [t Ht]. exists t. split; [done|].
  exact (proj1 (Forall_lookup _ _) (g_tab _ _ G) me t Ht).
Qed.

(** A state with the tables of [s], one slot of which is changed. *)
Lemma good_intro s s' R b :
  FInv s' R b -> typed s' R -> refs s' ≡ₚ R ->
  Forall (fun t => length t = Z.to_nat NOFILE) (ofiles s') -> (length (ofiles s') <= 64)%nat -> good s' b.
Proof.
  intros I T P Ht Hp. split; [by apply (FInv_perm _ R)| |done|done]. intros j Hj. apply T. by rewrite <- P.
Qed.

Lemma upd_slot_tab s me k t y :
  Forall (fun t => length t = Z.to_nat NOFILE) (ofiles s) -> ofiles s !! me = Some t ->
  Forall (fun t => length t = Z.to_nat NOFILE) (ofiles (upd_slot s me k t y)).
Proof.
  intros HF Ht. cbn [ofiles upd_slot set_ofiles]. apply Forall_insert; [done|]. rewrite length_insert.
  exact (proj1 (Forall_lookup _ _) HF me t Ht).
Qed.

Lemma set_fd_ok s me t fd y :
  ofiles s !! me = Some t -> 0 <= fd < Z.of_nat (length t) -> set_fd me fd y s = Ok (tt, upd_slot s me (Z.to_nat fd) t y).
Proof.
  intros Ht Hfd. unfold set_fd, get_ofile. rewrite bind_assoc, (bind_ok get _ s s s eq_refl). cbv beta. rewrite Ht.
  rewrite (bind_ok (of_option _ (Some t)) _ s t s eq_refl). cbv beta. rewrite zupd_in by done. done.
Qed.

Lemma get_ofile_ok s me t : ofiles s !! me = Some t -> get_ofile me s = Ok (t, s).
Proof. intros Ht. unfold get_ofile, bind, get. by rewrite Ht. Qed.

Lemma argfd_ok s me t fd :
  ofiles s !! me = Some t -> length t = Z.to_nat NOFILE ->
  argfd me fd s = Ok (None, s) \/
  exists f, argfd me fd s = Ok (Some f, s) /\ 0 <= fd < NOFILE /\ t !! Z.to_nat fd = Some (Some f).
Proof.
  intros Ht Hl. unfold argfd. destruct ((fd <? 0) || (NOFILE <=? fd)) eqn:E; [by left|].
  rewrite (bind_ok _ _ _ _ _ (get_ofile_ok s me t Ht)). destruct (znth_is_Some t fd) as [x Hx]; [rewrite Hl; lia|]. rewrite Hx.
  apply znth_Some in Hx as [_ Hx]. destruct x as [f|]; [right|by left]. exists f. split; [done|]. split; [lia|done].
Qed.

Lemma find_fd_ok t : forall fd0, 0 <= fd0 ->
  find_fd t fd0 = -1 \/ (fd0 <= find_fd t fd0 < fd0 + Z.of_nat (length t) /\ t !! Z.to_nat (find_fd t fd0 - fd0) = Some None).
Proof.
  induction t as [|[x|] t IH]; intros fd0 H0; simpl; [by left| |].
  - destruct (IH (fd0 + 1) ltac:(lia)) as [?|[Hr Hx]]; [by left|right]. split; [lia|].
    replace (Z.to_nat (find_fd t (fd0 + 1) - fd0)) with (S (Z.to_nat (find_fd t (fd0 + 1) - (fd0 + 1)))) by lia. done.
  - right. split; [lia|]. by rewrite Z.sub_diag.
Qed.

Lemma fdalloc_ok s me t f :
  ofiles s !! me = Some t -> length t = Z.to_nat NOFILE ->
  fdalloc me f s = Ok (-1, s) \/
  exists fd, fdalloc me f s = Ok (fd, upd_slot s me (Z.to_nat fd) t (Some f)) /\ 0 <= fd < NOFILE /\ t !! Z.to_nat fd = Some None.
Proof.
  intros Ht Hl. unfold fdalloc. rewrite (bind_ok _ _ _ _ _ (get_ofile_ok s me t Ht)). cbv zeta.
  destruct (find_fd_ok t 0 ltac:(lia)) as [->|[Hr Hx]]; [by left|right]. exists (find_fd t 0). rewrite (proj2 (Z.ltb_ge _ 0)) by lia.
  rewrite (bind_ok _ _ _ _ _ (set_fd_ok s me t (find_fd t 0) _ Ht ltac:(lia))). rewrite Z.sub_0_r in Hx.
  split; [done|]. split; [unfold NOFILE in *; lia|done].
Qed.

(** ** The calls keep every state good *)

Lemma slot_in s me t k f : ofiles s !! me = Some t -> t !! k = Some (Some f) -> f ∈ refs s.
Proof. intros Ht Hx. destruct (refs_slot s me t k _ Ht Hx) as (R0 & P & _). rewrite P. simpl. apply elem_of_cons. by left. Qed.

Lemma sys_dup_good s b me fd :
  good s b -> (me < length (ofiles s))%nat -> exists r s', sys_dup me fd s = Ok (r, s') /\ good s' b /\ length (ofiles s') = length (ofiles s).
Proof.
  intros G Hm. destruct (good_table s b me G Hm) as (t & Ht & Hl). pose proof (good_refs s b G) as Hlen. unfold sys_dup.
  destruct (argfd_ok s me t fd Ht Hl) as [E|(f & E & Hr & Hx)]; rewrite (bind_ok _ _ _ _ _ E); cbv beta iota; [by exists (-1), s|].
  destruct (fdalloc_ok s me t f Ht Hl) as [E1|(k & E1 & Hk & Hn)]; rewrite (bind_ok _ _ _ _ _ E1); cbv beta; [by exists (-1), s|].
  rewrite (proj2 (Z.ltb_ge k 0)) by lia. set (s1 := upd_slot s me (Z.to_nat k) t (Some f)).
  assert (I1 : FInv s1 (refs s) b) by (apply FInv_ofiles, (g_inv _ _ G)).
  destruct (filedup_ok s1 (refs s) b f I1 (slot_in s me t _ f Ht Hx) ltac:(lia)) as (s2 & E2 & I2 & S2).
  rewrite (bind_ok _ _ _ _ _ E2). exists k, s2. split; [done|]. pose proof S2 as [So St].
  destruct (refs_slot s me t _ _ Ht Hn) as (R0 & P & P'). split; [|rewrite So; cbn [ofiles s1 upd_slot set_ofiles]; by rewrite length_insert].
  apply (good_intro s s2 (f :: refs s)); [done| | | |].
  - intros j Hj. assert (Hj' : j ∈ refs s) by (apply elem_of_cons in Hj as [->|?]; [by apply (slot_in s me t (Z.to_nat fd))|done]).
    rewrite St by done. by apply (g_typed _ _ G).
  - unfold refs at 1. rewrite So. change (refs s1 ≡ₚ f :: refs s). unfold s1. rewrite P', P. done.
  - rewrite So. apply upd_slot_tab; [apply (g_tab _ _ G)|done].
  - rewrite So. cbn [ofiles s1 upd_slot set_ofiles]. rewrite length_insert. apply (g_procs _ _ G).
Qed.

Lemma sys_close_good s b me fd :
  good s b -> (me < length (ofiles s))%nat -> exists r s', sys_close me fd s = Ok (r, s') /\ good s' b /\ length (ofiles s') = length (ofiles s).
Proof.
  intros G Hm. destruct (good_table s b me G Hm) as (t & Ht & Hl). unfold sys_close.
  destruct (argfd_ok s me t fd Ht Hl) as [E|(f & E & Hr & Hx)]; rewrite (bind_ok _ _ _ _ _ E); cbv beta iota; [by exists (-1), s|].
  rewrite (bind_ok _ _ _ _ _ (set_fd_ok s me t fd None Ht ltac:(rewrite Hl; lia))). cbv beta. set (s1 := upd_slot s me (Z.to_nat fd) t None).
  destruct (refs_slot s me t _ _ Ht Hx) as (R0 & P & P').
  assert (I1 : FInv s1 (f :: R0) b) by (apply FInv_ofiles, (FInv_perm s (refs s)); [exact P|apply (g_inv _ _ G)]).
  destruct (fileclose_ok s1 R0 b f I1) as (s2 & E2 & I2 & S2). rewrite (bind_ok _ _ _ _ _ E2). exists 0, s2. split; [done|].
  pose proof S2 as [So St]. split; [|rewrite So; cbn [ofiles s1 upd_slot set_ofiles]; by rewrite length_insert].
  apply (good_intro s s2 R0); [done| | | |].
  - intros j Hj. rewrite St by done. apply (g_typed _ _ G). rewrite P. apply elem_of_cons. by right.
  - unfold refs at 1. rewrite So. change (refs s1 ≡ₚ R0). unfold s1. by rewrite P'.
  - rewrite So. apply upd_slot_tab; [apply (g_tab _ _ G)|done].
  - rewrite So. cbn [ofiles s1 upd_slot set_ofiles]. rewrite length_insert. apply (g_procs _ _ G).
Qed.

Lemma good_same s s' b b' : good s b -> FInv s' (refs s) b' -> same_files s s' (refs s) -> good s' b' /\ length (ofiles s') = length (ofiles s).
Proof.
  intros G I S. pose proof S as [So St]. split; [|by rewrite So].
  apply (good_intro s s' (refs s)); [done|by apply (typed_same s); [apply (g_typed _ _ G)|]|unfold refs; by rewrite So|rewrite So; apply (g_tab _ _ G)|rewrite So; apply (g_procs _ _ G)].
Qed.

Lemma good_mono s b b' : b <= b' -> good s b -> good s b'.
Proof. intros Hb [I T Ht Hp]. split; [by apply (FInv_mono s _ b)|done|done|done]. Qed.

Lemma sys_read_good s b me killed ptr_ok fd n :
  good s b -> (me < length (ofiles s))%nat -> b + Z.max 0 n <= INT_MAX ->
  exists r s', sys_read me killed ptr_ok fd n s = Ok (r, s') /\ good s' (b + Z.max 0 n) /\ length (ofiles s') = length (ofiles s).
Proof.
  intros G Hm Hb. destruct (good_table s b me G Hm) as (t & Ht & Hl). assert (G' : good s (b + Z.max 0 n)) by (apply (good_mono s b); [lia|done]). unfold sys_read.
  destruct (argfd_ok s me t fd Ht Hl) as [E|(f & E & Hr & Hx)]; rewrite (bind_ok _ _ _ _ _ E); cbv beta iota; [eauto|].
  destruct ((n <? 0) || negb ptr_ok) eqn:En; [eauto|].
  destruct (fileread_ok s (refs s) b killed f n (g_inv _ _ G) (g_typed _ _ G) (slot_in s me t _ f Ht Hx) ltac:(lia) ltac:(lia)) as (r & s' & E' & I' & S').
  exists r, s'. split; [done|]. apply (good_same s s' b); [done| |done]. replace (Z.max 0 n) with n by lia. done.
Qed.

Lemma sys_write_good {laws : InodeLaws FS} s b me killed ptr_ok fd l :
  good s b -> (me < length (ofiles s))%nat -> b + Z.of_nat (length l) <= INT_MAX ->
  exists r s', sys_write me killed ptr_ok fd l s = Ok (r, s') /\ good s' (b + Z.of_nat (length l)) /\ length (ofiles s') = length (ofiles s).
Proof.
  intros G Hm Hb. destruct (good_table s b me G Hm) as (t & Ht & Hl). assert (G' : good s (b + Z.of_nat (length l))) by (apply (good_mono s b); [lia|done]). unfold sys_write.
  destruct (argfd_ok s me t fd Ht Hl) as [E|(f & E & Hr & Hx)]; rewrite (bind_ok _ _ _ _ _ E); cbv beta iota; [eauto|].
  destruct (negb ptr_ok) eqn:En; [eauto|].
  destruct (filewrite_ok s (refs s) b killed f l (g_inv _ _ G) (g_typed _ _ G) (slot_in s me t _ f Ht Hx) ltac:(lia)) as (r & s' & E' & I' & S').
  exists r, s'. split; [done|]. by apply (good_same s s' b).
Qed.
Lemma good_slot s s1 s2 b me t k x y R0 R' :
  good s b -> ofiles s !! me = Some t -> t !! k = Some x -> s1 = upd_slot s me k t y ->
  refs s ≡ₚ opt x ++ R0 -> refs s1 ≡ₚ R' -> ofiles s2 = ofiles s1 -> FInv s2 R' b -> typed s2 R' ->
  good s2 b /\ length (ofiles s2) = length (ofiles s).
Proof.
  intros G Ht Hx -> P P' So I T. split; [|rewrite So; cbn [ofiles upd_slot set_ofiles]; by rewrite length_insert].
  apply (good_intro s s2 R'); [done|done|unfold refs; by rewrite So| |].
  - rewrite So. apply upd_slot_tab; [apply (g_tab _ _ G)|done].
  - rewrite So. cbn [ofiles upd_slot set_ofiles]. rewrite length_insert. apply (g_procs _ _ G).
Qed.

Lemma good_fs s x b : good s b -> good (set_fs x s) b.
Proof. intros [I T Ht Hp]. split; [by apply FInv_fs|done|done|done]. Qed.
Lemma open_inode_good s b me i wronly rdwr :
  0 <= b -> good s b -> (me < length (ofiles s))%nat ->
  exists r s', open_inode me i wronly rdwr s = Ok (r, s') /\ good s' b /\ length (ofiles s') = length (ofiles s).
Proof.
  intros Hb G Hm. destruct (good_table s b me G Hm) as (t & Ht & Hl). pose proof (good_refs s b G) as Hlen. unfold open_inode.
  destruct (filealloc_ok s (refs s) b (g_inv _ _ G) ltac:(lia)) as [E|(f & x & E & Hx & Tx & Hf & I1)]; rewrite (bind_ok _ _ _ _ _ E); cbv beta iota.
  { eexists (-1), _. split; [reflexivity|]. split; [|done]. by do 3 apply good_fs. }
  set (s1 := set_ftable (<[f := set_ref 1 x]> (ftable s)) s) in *.
  assert (S1 : same_files s s1 (refs s)) by (by apply (same_files_put s f x)).
  destruct (fdalloc_ok s1 me t f Ht Hl) as [E1|(k & E1 & Hk & Hn)]; rewrite (bind_ok _ _ _ _ _ E1); cbv beta.
  - change (-1 <? 0) with true. cbv iota. destruct (fileclose_ok s1 (refs s) b f I1) as (s2 & E2 & I2 & S2). rewrite (bind_ok _ _ _ _ _ E2).
    eexists (-1), _. split; [reflexivity|]. destruct (good_same s s2 b b G I2 (same_files_trans _ _ _ _ S1 S2)) as [G2 L2]. split; [|done]. by do 3 apply good_fs.
  - rewrite (proj2 (Z.ltb_ge k 0)) by lia. set (s2 := upd_slot s1 me (Z.to_nat k) t (Some f)).
    do 2 rewrite (bind_ok (upd_fs _) _ _ tt _ eq_refl). cbv beta. set (s3 := set_fs _ (set_fs _ s2)).
    assert (Hx2 : ftable s3 !! f = Some (set_ref 1 x)) by (apply list_lookup_insert_eq; by eapply lookup_lt_Some).
    rewrite (bind_ok _ _ _ _ _ (get_file_ok s3 f _ Hx2)). cbv beta. rewrite (bind_ok _ _ _ _ _ (put_file_ok s3 f _)).
    destruct (refs_slot s me t _ _ Ht Hn) as (R0 & P & P').
    eexists k, _. split; [reflexivity|].
    apply (good_slot s (upd_slot s me (Z.to_nat k) t (Some f)) _ b me t (Z.to_nat k) None (Some f) R0 (f :: refs s)); [exact G|exact Ht|exact Hn|reflexivity|exact P| |reflexivity| |].
    + by rewrite P', P.
    + eapply FInv_inode; [by do 2 apply FInv_fs; apply FInv_ofiles|exact Hx2|done|apply elem_of_cons; by left|done|done|done|done].
    + intros j Hj. cbn [ftable set_ftable]. destruct (decide (f = j)) as [<-|Hne].
      * rewrite list_lookup_insert_eq by (by eapply lookup_lt_Some). done.
      * rewrite list_lookup_insert_ne by done. apply elem_of_cons in Hj as [->|Hj]; [done|]. destruct S1 as [_ St]. change (ftable s3) with (ftable s1).
        rewrite St by done. by apply (g_typed _ _ G).
Qed.

Lemma sys_pipe_good s b me ptr_ok junk :
  good s b -> (me < length (ofiles s))%nat -> length junk = 512%nat ->
  exists r s', sys_pipe me ptr_ok junk s = Ok (r, s') /\ good s' b /\ length (ofiles s') = length (ofiles s).
Proof.
  intros G Hm Hj. destruct (good_table s b me G Hm) as (t & Ht & Hl). pose proof (good_refs s b G) as Hlen. unfold sys_pipe.
  destruct ptr_ok; cbn [negb]; [|eauto].
  destruct (pipealloc_ok s (refs s) b junk (g_inv _ _ G) ltac:(lia) Hj) as (r & s1 & E & S1 & Hr). rewrite (bind_ok _ _ _ _ _ E). cbv beta.
  destruct r as [[i j]|]; [|exists None, s1; split; [done|]; by apply (good_same s s1 b)]. destruct Hr as (I1 & Ti & Tj). pose proof S1 as [So St].
  assert (Fail : forall s2 t', ofiles s2 = ofiles s1 -> FInv s2 (i :: j :: refs s) b -> same_files s1 s2 (refs s) -> t' = t ->
    exists s', (do! fileclose i in do! fileclose j in ret None) s2 = Ok (None (A := Z * Z), s') /\ good s' b /\ length (ofiles s') = length (ofiles s)).
  { intros s2 _ Ho2 I2 S2 _. destruct (fileclose_ok s2 (j :: refs s) b i I2) as (s3 & E3 & I3 & S3). rewrite (bind_ok _ _ _ _ _ E3). cbv beta.
    destruct (fileclose_ok s3 (refs s) b j I3) as (s4 & E4 & I4 & S4). rewrite (bind_ok _ _ _ _ _ E4). exists s4. split; [done|].
    apply (good_same s s4 b); [done|done|]. eapply same_files_trans; [exact S1|]. eapply same_files_trans; [exact S2|]. eapply same_files_trans; [|exact S4].
    destruct S3 as [? T3]. split; [done|]. intros k Hk. apply T3. apply elem_of_cons. by right. }
  assert (Ht1 : ofiles s1 !! me = Some t) by (by rewrite So).
  destruct (fdalloc_ok s1 me t i Ht1 Hl) as [E0|(k & E0 & Hk & Hn)]; rewrite (bind_ok _ _ _ _ _ E0); cbv beta.
  { change (-1 <? 0) with true. cbv iota. rewrite (bind_ok (ret (-1)) _ s1 (-1) s1 eq_refl). cbv beta. cbn [orb]. change (0 <=? -1) with false. cbv iota.
    rewrite (bind_ok (ret tt) _ s1 tt s1 eq_refl). cbv beta. destruct (Fail s1 t eq_refl I1 ltac:(done) eq_refl) as (s' & E' & G'). eauto. }
  rewrite (proj2 (Z.ltb_ge k 0)) by lia. set (t2 := <[Z.to_nat k := Some i]> t). set (s2 := upd_slot s1 me (Z.to_nat k) t (Some i)).
  assert (Lme : (me < length (ofiles s1))%nat) by (by eapply lookup_lt_Some).
  assert (Ht2 : ofiles s2 !! me = Some t2) by (by apply list_lookup_insert_eq). assert (Hl2 : length t2 = Z.to_nat NOFILE) by (unfold t2; by rewrite length_insert).
  assert (Lk : (Z.to_nat k < length t)%nat) by (by eapply lookup_lt_Some).
  destruct (fdalloc_ok s2 me t2 j Ht2 Hl2) as [E1|(k' & E1 & Hk' & Hn')]; rewrite (bind_ok _ _ _ _ _ E1); cbv beta.
  - change (-1 <? 0) with true. cbn [orb]. rewrite (proj2 (Z.leb_le 0 k)) by lia.
    rewrite (bind_ok _ _ _ _ _ (set_fd_ok s2 me t2 k None Ht2 ltac:(unfold t2; rewrite length_insert; lia))). cbv beta.
    set (s3 := upd_slot s2 me (Z.to_nat k) t2 None).
    assert (Ho3 : ofiles s3 = ofiles s1).
    { cbn [ofiles s3 s2 upd_slot set_ofiles]. unfold t2. rewrite !list_insert_insert_eq, (list_insert_id t) by done. by apply list_insert_id. }
    destruct (Fail s3 t Ho3) as (s' & E' & G'); [by do 2 apply FInv_ofiles| |done|eauto]. split; [done|]. done.
  - rewrite (proj2 (Z.ltb_ge k' 0)) by lia. cbn [orb]. eexists _, _. split; [reflexivity|].
    assert (Hne : Z.to_nat k <> Z.to_nat k').
    { intros Ek. rewrite <- Ek in Hn'. unfold t2 in Hn'. rewrite list_lookup_insert_eq in Hn' by done. done. }
    assert (Hnk : t !! Z.to_nat k' = Some None) by (unfold t2 in Hn'; by rewrite list_lookup_insert_ne in Hn').
    destruct (refs_slot s1 me t _ _ Ht1 Hn) as (R0 & P & P'). destruct (refs_slot s2 me t2 _ _ Ht2 Hn') as (R1 & Q & Q').
    assert (Er : refs s1 = refs s) by (unfold refs; by rewrite So).
    assert (PR : refs (upd_slot s2 me (Z.to_nat k') t2 (Some j)) ≡ₚ i :: j :: refs s).
    { rewrite Q'. simpl in *. rewrite <- Q. change (refs s2) with (refs (upd_slot s1 me (Z.to_nat k) t (Some i))). rewrite P'. simpl. rewrite <- P, Er. constructor. }
    split; [|cbn [ofiles upd_slot set_ofiles s2]; rewrite !length_insert; by rewrite So].
    apply (good_intro s _ (i :: j :: refs s)); [by do 2 apply FInv_ofiles| |done| |].
    + intros m Hmr. apply elem_of_cons in Hmr as [->|Hmr]; [cbn; rewrite Ti; done|]. apply elem_of_cons in Hmr as [->|Hmr]; [cbn; rewrite Tj; done|].
      change (ftable (upd_slot s2 me (Z.to_nat k') t2 (Some j))) with (ftable s1). rewrite St by done. by apply (g_typed _ _ G).
    + apply upd_slot_tab; [|done]. apply upd_slot_tab; [rewrite So; apply (g_tab _ _ G)|done].
    + cbn [ofiles upd_slot set_ofiles s2]. rewrite !length_insert, So. apply (g_procs _ _ G).
Qed.

(** A round of the loop of exit. *)
Lemma exit_files_good n : forall s b fd me,
  good s b -> (me < length (ofiles s))%nat -> 0 <= fd -> fd + Z.of_nat n <= NOFILE ->
  exists s', exit_files n fd me s = Ok (tt, s') /\ good s' b /\ length (ofiles s') = length (ofiles s).
Proof.
  induction n as [|n IH]; intros s b fd me G Hm H0 Hn; [by exists s|]. destruct (good_table s b me G Hm) as (t & Ht & Hl). cbn [exit_files].
  rewrite (bind_ok _ _ _ _ _ (get_ofile_ok s me t Ht)). cbv beta. destruct (znth_is_Some t fd) as [x Hx]; [rewrite Hl; unfold NOFILE in *; lia|].
  rewrite Hx. rewrite (bind_ok (of_option _ (Some x)) _ s x s eq_refl). cbv beta. apply znth_Some in Hx as [_ Hx].
  assert (Step : exists s1, (match x with Some f => do! fileclose f in set_fd me fd None | None => ret tt end) s = Ok (tt, s1) /\ good s1 b /\ length (ofiles s1) = length (ofiles s)).
  { destruct x as [f|]; [|by exists s]. destruct (refs_slot s me t _ _ Ht Hx) as (R0 & P & P').
    destruct (fileclose_ok s R0 b f (FInv_perm s (refs s) _ b P (g_inv _ _ G))) as (s1 & E1 & I1 & S1). rewrite (bind_ok _ _ _ _ _ E1). cbv beta.
    pose proof S1 as [So St]. assert (Ht1 : ofiles s1 !! me = Some t) by (by rewrite So).
    rewrite (set_fd_ok s1 me t fd None Ht1 ltac:(rewrite Hl; unfold NOFILE in *; lia)). eexists. split; [reflexivity|].
    apply (good_slot s (upd_slot s me (Z.to_nat fd) t None) _ b me t (Z.to_nat fd) (Some f) None R0 R0); [exact G|exact Ht|exact Hx|reflexivity|exact P| | | |].
    - exact (P' None).
    - cbn [ofiles upd_slot set_ofiles]. by rewrite So.
    - by apply FInv_ofiles.
    - intros j Hj. change (ftable (upd_slot s1 me (Z.to_nat fd) t None)) with (ftable s1). rewrite St by done. apply (g_typed _ _ G). rewrite P. apply elem_of_cons. by right. }
  destruct Step as (s1 & E1 & G1 & L1). rewrite (bind_ok _ _ _ _ _ E1). cbv beta.
  destruct (IH s1 b (fd + 1) me G1 ltac:(lia) ltac:(lia) ltac:(lia)) as (s2 & E2 & G2 & L2). exists s2. split; [done|]. split; [done|congruence].
Qed.

(** The loop of fork: the new table has no entry from [i] on. *)
Lemma fork_files_good n : forall s b i me np t,
  good s b -> (me < length (ofiles s))%nat -> me <> np -> ofiles s !! np = Some t ->
  (forall k, Z.to_nat i <= k -> k < length t -> t !! k = Some None)%nat -> 0 <= i -> i + Z.of_nat n <= NOFILE ->
  exists s', fork_files n i me np s = Ok (tt, s') /\ good s' b /\ length (ofiles s') = length (ofiles s).
Proof.
  induction n as [|n IH]; intros s b i me np t G Hm Hne Hnp Hnone H0 Hn; [by exists s|]. destruct (good_table s b me G Hm) as (tm & Ht & Hl).
  destruct (good_table s b np G ltac:(by eapply lookup_lt_Some)) as (t' & Hnp' & Hlt). rewrite Hnp in Hnp'. injection Hnp' as <-. cbn [fork_files].
  rewrite (bind_ok _ _ _ _ _ (get_ofile_ok s me tm Ht)). cbv beta. destruct (znth_is_Some tm i) as [x Hx]; [rewrite Hl; unfold NOFILE in *; lia|].
  rewrite Hx. rewrite (bind_ok (of_option _ (Some x)) _ s x s eq_refl). cbv beta. apply znth_Some in Hx as [_ Hx]. pose proof (good_refs s b G) as Hlen.
  assert (Step : exists s1 t1, (match x with Some f => let! f := filedup f in set_fd np i (Some f) | None => ret tt end) s = Ok (tt, s1) /\ good s1 b /\
     length (ofiles s1) = length (ofiles s) /\ ofiles s1 !! np = Some t1 /\ (forall k, Z.to_nat (i + 1) <= k -> k < length t1 -> t1 !! k = Some None)%nat).
  { destruct x as [f|]; [|exists s, t; split; [done|]; split; [done|]; split; [done|]; split; [done|]; intros k Hk; apply Hnone; lia].
    pose proof (slot_in s me tm _ f Ht Hx) as Hf. destruct (filedup_ok s (refs s) b f (g_inv _ _ G) Hf ltac:(lia)) as (s1 & E1 & I1 & S1).
    rewrite (bind_ok _ _ _ _ _ E1). cbv beta. pose proof S1 as [So St]. assert (Hnp1 : ofiles s1 !! np = Some t) by (by rewrite So).
    assert (Hi : (Z.to_nat i < length t)%nat) by (rewrite Hlt; unfold NOFILE in *; lia).
    pose proof (Hnone (Z.to_nat i) ltac:(lia) Hi) as Hslot. destruct (refs_slot s np t _ _ Hnp Hslot) as (R0 & P & P').
    rewrite (set_fd_ok s1 np t i _ Hnp1 ltac:(lia)). eexists _, (<[Z.to_nat i := Some f]> t). split; [reflexivity|].
    assert (Gs : good (upd_slot s1 np (Z.to_nat i) t (Some f)) b /\ length (ofiles (upd_slot s1 np (Z.to_nat i) t (Some f))) = length (ofiles s)).
    { apply (good_slot s (upd_slot s np (Z.to_nat i) t (Some f)) _ b np t (Z.to_nat i) None (Some f) R0 (f :: refs s)); [exact G|exact Hnp|exact Hslot|reflexivity|exact P| | | |].
      - by rewrite P', P.
      - cbn [ofiles upd_slot set_ofiles]. by rewrite So.
      - by apply FInv_ofiles.
      - intros j Hj. change (ftable (upd_slot s1 np (Z.to_nat i) t (Some f))) with (ftable s1).
        assert (Hj' : j ∈ refs s) by (apply elem_of_cons in Hj as [->|?]; done). rewrite St by done. by apply (g_typed _ _ G). }
    destruct Gs as [Gs Ls]. split; [done|]. split; [done|]. split; [apply list_lookup_insert_eq; by eapply lookup_lt_Some|].
    intros k Hk Hk'. rewrite length_insert in Hk'. rewrite list_lookup_insert_ne by lia. apply Hnone; lia. }
  destruct Step as (s1 & t1 & E1 & G1 & L1 & Hnp1 & Hnone1). rewrite (bind_ok _ _ _ _ _ E1). cbv beta.
  destruct (IH s1 b (i + 1) me np t1 G1 ltac:(lia) Hne Hnp1 Hnone1 ltac:(lia) ltac:(lia)) as (s2 & E2 & G2 & L2).
  exists s2. split; [done|]. split; [done|congruence].
Qed.

Lemma exec_files_good n : forall s b fd me,
  0 <= b -> good s b -> (me < length (ofiles s))%nat -> 0 <= fd -> fd + Z.of_nat n <= NOFILE ->
  exists s', exec_files n fd me s = Ok (tt, s') /\ good s' b /\ length (ofiles s') = length (ofiles s).
Proof.
  induction n as [|n IH]; intros s b fd me Hb G Hm H0 Hn; [by exists s|]. destruct (good_table s b me G Hm) as (t & Ht & Hl). cbn [exec_files].
  rewrite (bind_ok _ _ _ _ _ (get_ofile_ok s me t Ht)). cbv beta. destruct (znth_is_Some t fd) as [x Hx]; [rewrite Hl; unfold NOFILE in *; lia|].
  rewrite Hx. rewrite (bind_ok (of_option _ (Some x)) _ s x s eq_refl). cbv beta. apply znth_Some in Hx as [_ Hx].
  assert (Step : exists s1, (match x with Some i => let! f := get_file i in put_file i (set_nwrite 0 (set_nread 0 f)) | None => ret tt end) s = Ok (tt, s1) /\
     good s1 b /\ length (ofiles s1) = length (ofiles s)).
  { destruct x as [i|]; [|by exists s]. pose proof (slot_in s me t _ i Ht Hx) as Hi.
    destruct (file_exists s _ b i (g_inv _ _ G) (i_dom _ _ _ (g_inv _ _ G) i Hi)) as [f Hf]. rewrite (bind_ok _ _ _ _ _ (get_file_ok s i f Hf)). cbv beta.
    eexists. split; [reflexivity|]. apply (good_same s _ b); [done| |by apply (same_files_put s i f)].
    apply (FInv_file s _ b i f); try done. apply (g_inv _ _ G). }
  destruct Step as (s1 & E1 & G1 & L1). rewrite (bind_ok _ _ _ _ _ E1). cbv beta.
  destruct (IH s1 b (fd + 1) me Hb G1 ltac:(lia) ltac:(lia) ltac:(lia)) as (s2 & E2 & G2 & L2). exists s2. split; [done|]. split; [done|congruence].
Qed.

(** fstat and getiostats leave the tables alone. *)
Lemma filestat_good s b i : good s b -> i ∈ refs s -> exists r x, filestat i s = Ok (r, set_fs x s).
Proof.
  intros G Hi. destruct (file_exists s _ b i (g_inv _ _ G) (i_dom _ _ _ (g_inv _ _ G) i Hi)) as [f Hf]. unfold filestat.
  rewrite (bind_ok _ _ _ _ _ (get_file_ok s i f Hf)). destruct s. destruct (type f); eexists _, _; reflexivity.
Qed.

Lemma sys_fstat_good s b me ptr_ok fd :
  good s b -> (me < length (ofiles s))%nat -> exists r s', sys_fstat me ptr_ok fd s = Ok (r, s') /\ good s' b /\ length (ofiles s') = length (ofiles s).
Proof.
  intros G Hm. destruct (good_table s b me G Hm) as (t & Ht & Hl). unfold sys_fstat.
  destruct (argfd_ok s me t fd Ht Hl) as [E|(f & E & Hr & Hx)]; rewrite (bind_ok _ _ _ _ _ E); cbv beta iota; [eauto|].
  destruct ptr_ok; cbn [negb]; [|eauto]. destruct (filestat_good s b f G (slot_in s me t _ f Ht Hx)) as (r & x & E'). eexists _, _. split; [exact E'|]. split; [by apply good_fs|done].
Qed.

Lemma sys_getiostats_good s b me fd :
  good s b -> (me < length (ofiles s))%nat -> 0 <= fd < NOFILE ->
  exists r s', sys_getiostats me fd s = Ok (r, s') /\ good s' b /\ length (ofiles s') = length (ofiles s).
Proof.
  intros G Hm Hfd. destruct (good_table s b me G Hm) as (t & Ht & Hl). unfold sys_getiostats, getiostats.
  rewrite (bind_ok _ _ _ _ _ (get_ofile_ok s me t Ht)). cbv beta. destruct (znth_is_Some t fd) as [x Hx]; [rewrite Hl; unfold NOFILE in *; lia|].
  rewrite Hx. rewrite (bind_ok (of_option _ (Some x)) _ s x s eq_refl). cbv beta. apply znth_Some in Hx as [_ Hx]. destruct x as [i|]; [|eauto].
  pose proof (slot_in s me t _ i Ht Hx) as Hi. destruct (filestat_good s b i G Hi) as (r & x & E). rewrite (bind_ok _ _ _ _ _ E). cbv beta.
  destruct r as [st|]; [|eexists _, _; split; [reflexivity|]; split; [by apply good_fs|done]].
  destruct (file_exists s _ b i (g_inv _ _ G) (i_dom _ _ _ (g_inv _ _ G) i Hi)) as [f Hf].
  rewrite (bind_ok _ _ _ _ _ (get_file_ok (set_fs x s) i f Hf)). eexists _, _. split; [reflexivity|]. split; [by apply good_fs|done].
Qed.
(** ** Sequences of calls *)

Inductive call :=
  | Dup (fd : Z)
  | Close (fd : Z)
  | Read (killed ptr_ok : bool) (fd n : Z)
  | Write (killed ptr_ok : bool) (fd : Z) (l : list Z)
  | Open (ip : Z) (wronly rdwr : bool)
  | MkPipe (ptr_ok : bool) (junk : list Z)
  | Fork (np : nat)
  | Exit
  | Exec
  | Fstat (ptr_ok : bool) (fd : Z)
  | Iostats (fd : Z).

Definition run_call (me : nat) (c : call) : M state unit :=
  match c with
  | Dup fd => let! _ := sys_dup me fd in ret tt
  | Close fd => let! _ := sys_close me fd in ret tt
  | Read k p fd n => let! _ := sys_read me k p fd n in ret tt
  | Write k p fd l => let! _ := sys_write me k p fd l in ret tt
  | Open i w r => let! _ := open_inode me i w r in ret tt
  | MkPipe p junk => let! _ := sys_pipe me p junk in ret tt
  | Fork np =>
      (* allocproc gives a process without open files *)
      let! t := get_ofile np in
      if bool_decide (me <> np) && forallb (fun x => match x with None => true | _ => false end) t
      then fork_files (Z.to_nat NOFILE) 0 me np else ret tt
  | Exit => exit_files (Z.to_nat NOFILE) 0 me
  | Exec => exec_files (Z.to_nat NOFILE) 0 me
  | Fstat p fd => let! _ := sys_fstat me p fd in ret tt
  | Iostats fd => let! _ := sys_getiostats me fd in ret tt
  end.
Fixpoint run_calls (cs : list (nat * call)) : M state unit :=
  match cs with
  | [] => ret tt
  | (me, c) :: cs => do! run_call me c in run_calls cs
  end.

(** The bytes a call asks for. *)
Definition cost (c : call) : Z :=
  match c with Read _ _ _ n => Z.max 0 n | Write _ _ _ l => Z.of_nat (length l) | _ => 0 end.
Definition call_ok (procs : nat) (mc : nat * call) : Prop :=
  (fst mc < procs)%nat /\
  match snd mc with
  | MkPipe _ junk => length junk = 512%nat
  | Fork np => (np < procs)%nat
  | Iostats fd => 0 <= fd < NOFILE
  | _ => True
  end.

Lemma run_call_good {laws : InodeLaws FS} s b me c :
  0 <= b -> good s b -> call_ok (length (ofiles s)) (me, c) -> b + cost c <= INT_MAX ->
  exists s', run_call me c s = Ok (tt, s') /\ good s' (b + cost c) /\ length (ofiles s') = length (ofiles s).
Proof.
  intros Hb G [Hm Hc] Hcost. cbn [fst snd] in *.
  assert (D : forall A (m : M state A) b', (exists r s', m s = Ok (r, s') /\ good s' b' /\ length (ofiles s') = length (ofiles s)) ->
     exists s', (let! _ := m in ret tt) s = Ok (tt, s') /\ good s' b' /\ length (ofiles s') = length (ofiles s)).
  { intros A m b' (r & s' & E & Gs). exists s'. by rewrite (bind_ok _ _ _ _ _ E). }
  destruct c as [fd|fd|k p fd n|k p fd l|i w r|p junk|np| | |p fd|fd]; cbn [run_call cost] in *; rewrite ?Z.add_0_r; first [apply D | idtac].
  - by apply sys_dup_good.
  - by apply sys_close_good.
  - by apply sys_read_good.
  - by apply sys_write_good.
  - by apply open_inode_good.
  - by apply sys_pipe_good.
  - destruct (good_table s b np G Hc) as (t & Ht & Hl). rewrite (bind_ok _ _ _ _ _ (get_ofile_ok s np t Ht)). cbv beta.
    destruct (bool_decide (me <> np) && _) eqn:E; [|by exists s]. apply andb_true_iff in E as [Hne Hall]. apply bool_decide_eq_true in Hne.
    apply (fork_files_good _ s b 0 me np t); try done. intros k _ Hk. destruct (lookup_lt_is_Some_2 t k Hk) as [x Hx].
    rewrite forallb_forall in Hall. specialize (Hall x). rewrite <- list_elem_of_In in Hall. specialize (Hall (list_elem_of_lookup_2 _ _ _ Hx)). by destruct x.
  - by apply exit_files_good.
  - by apply exec_files_good.
  - by apply sys_fstat_good.
  - by apply sys_getiostats_good.
Qed.

(** *** Pages

    Every page is free or holds a pipe, and the calls keep it so. *)
Section pages.
Context (pg : list Z) (Hnd : NoDup pg) (H0 : 0 ∉ pg).

Definition owned s : list Z := pages s ++ elements (dom (pipes s)).
Definition kp {A} (m : M state A) : Prop := forall s a s', owned s ≡ₚ pg -> m s = Ok (a, s') -> owned s' ≡ₚ pg.

Lemma kp_ret {A} (a : A) : kp (ret a).
Proof. by intros s b s' H [= _ <-]. Qed.
Lemma kp_fail {A} f : kp (fail (A := A) f).
Proof. done. Qed.
Lemma kp_get : kp get.
Proof. by intros s a s' H [= _ <-]. Qed.
Lemma kp_opt {A} f (o : option A) : kp (of_option f o).
Proof. destruct o; [apply kp_ret|apply kp_fail]. Qed.
Lemma kp_chk x : kp (chk_int x).
Proof. unfold chk_int. destruct (_ x); [apply kp_ret|apply kp_fail]. Qed.
Lemma kp_bind {A B} (m : M state A) (f : A -> M state B) : kp m -> (forall a, kp (f a)) -> kp (bind m f).
Proof. intros Hm Hf s b s' H. unfold bind. destruct (m s) as [[a s1]|] eqn:E; [|done]. intros E'. eapply Hf, E'. by eapply Hm. Qed.
Lemma kp_modify f : (forall s, pages (f s) = pages s /\ pipes (f s) = pipes s) -> kp (modify f).
Proof. intros Hf s a s' H [= _ <-]. unfold owned in *. by destruct (Hf s) as [-> ->]. Qed.
Lemma kp_upd_fs g : kp (upd_fs g).
Proof. by apply kp_modify. Qed.
Lemma kp_put_file i f : kp (put_file i f).
Proof. by apply kp_modify. Qed.
Lemma kp_put_ofile me t : kp (put_ofile me t).
Proof. by apply kp_modify. Qed.
Lemma kp_on_fs {A} (g : FS -> A * FS) : kp (on_fs g).
Proof. intros s a s' H. unfold on_fs. destruct (g (fs s)). by intros [= _ <-]. Qed.

Lemma on_pipe_inv {A} p (m : M Pipe.state A) s a s' :
  on_pipe p m s = Ok (a, s') -> exists pi, is_Some (pipes s !! p) /\ s' = set_pipes (<[p := pi]> (pipes s)) s.
Proof.
  unfold on_pipe, bind at 1, get. unfold bind at 1, of_option. destruct (pipes s !! p) as [pi|] eqn:E; [|done]. cbn [ret].
  destruct (m _) as [[b ps]|]; [|done]. intros [= _ <-]. eauto.
Qed.

Lemma kp_on_pipe {A} p (m : M Pipe.state A) : kp (on_pipe p m).
Proof. intros s a s' H (pi & Hp & ->)%on_pipe_inv. unfold owned in *. cbn [pages pipes set_pipes]. by rewrite dom_insert_lookup_L. Qed.

(** The last close of a pipe gives its page back. *)
Lemma kp_pipeclose p w : kp (pipeclose p w).
Proof.
  intros s a s' H. unfold pipeclose, bind at 1. destruct (on_pipe p _ s) as [[last s1]|] eqn:E; [|done].
  pose proof (kp_on_pipe _ _ _ _ _ H E) as H1. apply on_pipe_inv in E as (pi & Hp & ->). destruct last; [|by intros [= _ <-]].
  intros [= _ <-]. rewrite <- H1. unfold owned. cbn [pages pipes set_pages set_pipes].
  rewrite delete_insert_eq, dom_delete_L, dom_insert_lookup_L by done. assert (Hd : p ∈ dom (pipes s)) by (by apply elem_of_dom).
  rewrite (union_difference_singleton_L p (dom (pipes s)) Hd) at 2. rewrite elements_union_singleton by set_solver. apply Permutation_middle.
Qed.

Hint Resolve kp_ret kp_fail kp_get kp_opt kp_chk kp_upd_fs kp_put_file kp_put_ofile kp_on_fs kp_on_pipe kp_pipeclose : kp.
Ltac kp := repeat (first [solve [eauto with kp] | apply kp_bind; [|intros ?] | progress cbv zeta | case_match]).

Lemma kp_get_file i : kp (get_file i).
Proof. unfold get_file. kp. Qed.
Lemma kp_get_ofile me : kp (get_ofile me).
Proof. unfold get_ofile. kp. Qed.
Hint Resolve kp_get_file kp_get_ofile : kp.
Lemma kp_filealloc : kp filealloc.
Proof. unfold filealloc. kp. Qed.
Lemma kp_filedup i : kp (filedup i).
Proof. unfold filedup. kp. Qed.
Lemma kp_fileclose i : kp (fileclose i).
Proof. unfold fileclose. kp. Qed.
Lemma kp_filestat i : kp (filestat i).
Proof. unfold filestat. kp. Qed.
Lemma kp_set_fd me fd x : kp (set_fd me fd x).
Proof. unfold set_fd. kp. Qed.
Lemma kp_argfd me fd : kp (argfd me fd).
Proof. unfold argfd. kp. Qed.
Hint Resolve kp_filealloc kp_filedup kp_fileclose kp_filestat kp_set_fd kp_argfd : kp.
Lemma kp_fdalloc me f : kp (fdalloc me f).
Proof. unfold fdalloc. kp. Qed.
Hint Resolve kp_fdalloc : kp.

(** A new pipe takes a free page. *)
Lemma kp_pipealloc junk : kp (pipealloc junk).
Proof.
  unfold pipealloc. apply kp_bind; [kp|]. intros [f0|]; [|kp]. apply kp_bind; [kp|]. intros [f1|]; [|kp].
  intros s a s' H. destruct (pages s) as [|p l] eqn:Ep.
  - rewrite (bind_ok kalloc _ s 0 s) by (unfold kalloc, bind, get; by rewrite Ep). cbn [Z.eqb].
    assert (K : kp (do! fileclose f0 in do! fileclose f1 in ret (None (A := nat * nat)))) by kp. intros E. exact (K _ _ _ H E).
  - rewrite (bind_ok kalloc _ s p (set_pages l s)) by (unfold kalloc, bind, get; by rewrite Ep).
    assert (Hp : p ∈ pg) by (rewrite <- H; unfold owned; rewrite Ep; set_solver). rewrite (proj2 (Z.eqb_neq p 0)) by (by intros ->).
    rewrite (bind_ok (modify _) _ _ tt _ eq_refl). apply (kp_bind (get_file f0)); [kp|intros ?; kp|].
    assert (Hd : p ∉ dom (pipes s)).
    { assert (N : NoDup (owned s)) by (by rewrite H). unfold owned in N. rewrite Ep in N. apply NoDup_app in N as (_ & N & _). specialize (N p). set_solver. }
    rewrite <- H. unfold owned. cbn [pages pipes set_pages set_pipes]. rewrite dom_insert_L, elements_union_singleton, Ep by done. symmetry. apply Permutation_middle.
Qed.
Hint Resolve kp_pipealloc : kp.

Lemma kp_write_loop n : forall i k l, kp (filewrite_loop n i k l).
Proof. induction n as [|n IH]; intros i k l; cbn [filewrite_loop]; kp. Qed.
Lemma kp_fork_files n : forall i me np, kp (fork_files n i me np).
Proof. induction n as [|n IH]; intros i me np; cbn [fork_files]; kp. Qed.
Lemma kp_exit_files n : forall fd me, kp (exit_files n fd me).
Proof. induction n as [|n IH]; intros fd me; cbn [exit_files]; kp. Qed.
Lemma kp_exec_files n : forall fd me, kp (exec_files n fd me).
Proof. induction n as [|n IH]; intros fd me; cbn [exec_files]; kp. Qed.
Hint Resolve kp_write_loop kp_fork_files kp_exit_files kp_exec_files : kp.

Lemma kp_run_call me c : kp (run_call me c).
Proof.
  destruct c; cbn [run_call];
    unfold sys_dup, sys_close, sys_read, fileread, sys_write, filewrite, open_inode, iunlockput, sys_pipe, sys_fstat, sys_getiostats, getiostats; kp.
Qed.

Lemma kp_run_calls cs : kp (run_calls cs).
Proof. induction cs as [|[me c] cs IH]; cbn [run_calls]; [kp|]. apply kp_bind; [apply kp_run_call|done]. Qed.
End pages.

(** The ends of the pipes in a good state. *)
Lemma good_ends s b p pi : good s b -> pipes s !! p = Some pi ->
  (exists w, end_open w pi = true) /\
  forall w, end_open w pi = true <->
    exists i f, ftable s !! i = Some f /\ 0 < ref f /\ type f = FD_PIPE /\ fpipe f = p /\ writable f = w.
Proof.
  intros G Hp. pose proof (g_inv _ _ G) as I. destruct (i_live _ _ _ I p pi Hp) as (_ & Ho & Hall). split; [done|]. intros w. split.
  - intros Hw. destruct (Hall w Hw) as (i & f & Hf & Ht & Hfp & Hwr). exists i, f. split_and!; try done.
    pose proof (i_ref _ _ _ I i f Hf) as Hr. destruct (Z.eq_dec (ref f) 0) as [E|]; [|lia].
    pose proof (i_none _ _ _ I i f Hf E). congruence.
  - intros (i & f & Hf & _ & Ht & <- & <-). destruct (i_pipe _ _ _ I i f Hf Ht) as (_ & pi' & q & Hp' & _ & Hw). congruence.
Qed.

Lemma good_no_refs s b : good s b -> refs s = [] -> pipes s = ∅ /\ forall i f, ftable s !! i = Some f -> ref f = 0 /\ type f = FD_NONE.
Proof.
  intros G Er. pose proof (g_inv _ _ G) as I. rewrite Er in I. assert (Z0 : forall i f, ftable s !! i = Some f -> ref f = 0 /\ type f = FD_NONE).
  { intros i f Hf. assert (Hr : ref f = 0) by (by rewrite (i_ref _ _ _ I i f Hf)). split; [done|by apply (i_none _ _ _ I i)]. }
  split; [|done]. apply map_empty. intros p. destruct (pipes s !! p) as [pi|] eqn:Ep; [|done].
  destruct (i_live _ _ _ I p pi Ep) as (_ & (w & Hw) & Hall). destruct (Hall w Hw) as (i & f & Hf & Ht & _). destruct (Z0 i f Hf). congruence.
Qed.

(** The state at boot: no open files, [n] processes, free pages [pg]. *)
Definition boot (n : nat) (pg : list Z) (x : FS) : state :=
  mk_state (replicate (Z.to_nat NFILE) (mk_file FD_NONE 0 false false 0 0 0 0 0)) (replicate n (replicate (Z.to_nat NOFILE) None)) ∅ pg x.

Lemma boot_good n pg x : (n <= 64)%nat -> NoDup pg -> 0 ∉ pg -> good (boot n pg x) 0.
Proof.
  intros Hn Hpg H0. assert (Er : refs (boot n pg x) = []).
  { unfold refs. cbn [ofiles boot]. induction n as [|n IH]; [done|]. cbn [replicate concat]. rewrite omap_app, IH by lia. done. }
  assert (L : forall i f, ftable (boot n pg x) !! i = Some f -> f = mk_file FD_NONE 0 false false 0 0 0 0 0).
  { intros i f Hf. by apply lookup_replicate in Hf as [-> _]. }
  split; rewrite ?Er.
  - split; try done.
    + intros i Hi. by apply not_elem_of_nil in Hi.
    + intros i f Hf. by rewrite (L i f Hf).
    + intros i f Hf. by rewrite (L i f Hf).
    + intros i f Hf. by rewrite (L i f Hf).
    + intros i j f g Hf. by rewrite (L i f Hf).
    + intros p Hp. split; [intros ->; done|done].
    + intros i f Hf. by rewrite (L i f Hf).
  - intros j Hj. by apply not_elem_of_nil in Hj.
  - apply Forall_replicate. apply length_replicate.
  - cbn [ofiles boot]. rewrite length_replicate. done.
Qed.


(** getiostats does not check its descriptor: one past the table is read out
    of bounds. *)
Theorem getiostats_unchecked s b me :
  good s b -> (me < length (ofiles s))%nat -> sys_getiostats me NOFILE s = Err OutOfBounds /\ argfd me NOFILE s = Ok (None, s).
Proof.
  intros G Hm. destruct (good_table s b me G Hm) as (t & Ht & Hl). split; [|done].
  unfold sys_getiostats, getiostats. rewrite (bind_ok _ _ _ _ _ (get_ofile_ok s me t Ht)). cbv beta.
  unfold znth. change (0 <=? NOFILE) with true. cbv iota. rewrite lookup_ge_None_2 by lia. done.
Qed.

(** The read counter grows by what a call asks for, not by what it gets: a
    read of [n] bytes from a file that has none left adds [n]. *)
Theorem fileread_counts_requested s i f n x :
  ftable s !! i = Some f -> type f = FD_INODE -> readable f = true ->
  0 <= n -> 0 <= num_read_bytes f -> num_read_bytes f + n <= INT_MAX ->
  readi (ip f) (off f) n (ilock (ip f) (fs s)) = (0, [], x) ->
  exists s' f', fileread false i n s = Ok (Pipe.Returns 0, [], s') /\ ftable s' !! i = Some f' /\
    num_read_bytes f' = num_read_bytes f + n.
Proof.
  intros Hf Ht Hr Hn H0 Hb Er. unfold fileread. rewrite (bind_ok _ _ _ _ _ (get_file_ok s i f Hf)), Hr. cbn [negb].
  rewrite (bind_ok _ _ _ _ _ (chk_ok (num_read_bytes f + n) s ltac:(lia))). cbv beta zeta. rewrite (bind_ok _ _ _ _ _ (put_file_ok s i _)). cbv beta.
  cbn [type set_nread]. rewrite Ht. rewrite (bind_ok (upd_fs _) _ _ tt _ eq_refl). cbv beta. set (s2 := set_fs _ _).
  assert (Er2 : on_fs (readi (ip f) (off f) n) s2 = Ok ((0, []), set_fs x s2)) by (unfold on_fs; change (fs s2) with (ilock (ip f) (fs s)); by rewrite Er).
  cbn [ip off set_nread]. rewrite (bind_ok _ _ _ _ _ Er2). cbv beta iota.
  change (0 <? 0) with false. cbv iota. rewrite (bind_ok (ret tt) _ _ tt _ eq_refl), (bind_ok (upd_fs _) _ _ tt _ eq_refl).
  eexists _, _. split; [reflexivity|]. cbn [ftable set_fs set_ftable s2]. rewrite list_lookup_insert_eq by (by eapply lookup_lt_Some). done.
Qed.
End invariant.

(** ** An inode layer: one file of five bytes, at inode 1 *)
#[export] Instance demo_layer : InodeLayer (list Z) := {|
  begin_op := id; end_op := id;
  ilock := fun _ s => s; iunlock := fun _ s => s; iput := fun _ s => s;
  stati := fun i s => mk_stat 2 1 i 1 (Z.of_nat (length s));
  readi := fun _ off n s => ((Z.of_nat (length (take (Z.to_nat n) (drop (Z.to_nat off) s))), take (Z.to_nat n) (drop (Z.to_nat off) s)), s);
  writei := fun _ l off s => (Z.of_nat (length l), take (Z.to_nat off) s ++ l ++ drop (Z.to_nat off + length l) s)
|}.

#[export] Instance demo_laws : InodeLaws (list Z).
Proof.
  split.
  - intros. right. reflexivity.
  - intros. cbn. rewrite length_take. lia.
Defined.

Definition demo_calls : list (nat * call) :=
  [(0%nat, MkPipe true (replicate 512 0)); (0%nat, Open 1 false true); (0%nat, Fork 1); (1%nat, Close 0); (0%nat, Read false true 2 3);
   (1%nat, Write false true 1 [7; 8]); (0%nat, Iostats 2); (0%nat, Fstat true 0); (0%nat, Exit); (1%nat, Dup 2)].


Lemma getiostats_unchecked_witness :
  sys_getiostats 0 NOFILE (boot 1 [4096] [1; 2; 3]) = Err OutOfBounds.
Proof.
  apply (getiostats_unchecked (boot 1 [4096] [1; 2; 3]) 0 0%nat); [|simpl; lia].
  apply boot_good; [lia|apply (bool_decide_unpack _); vm_compute; exact I..].
Defined.

Definition demo_file : file := mk_file FD_INODE 1 true false 0 1 5 5 0.
Definition demo_open : state := mk_state [demo_file] [] ∅ [] [1; 2; 3; 4; 5].

Lemma fileread_counts_requested_witness :
  exists s' f', fileread false 0 100 demo_open = Ok (Pipe.Returns 0, [], s') /\ ftable s' !! 0%nat = Some f' /\ num_read_bytes f' = 105.
Proof.
  apply (fileread_counts_requested demo_open 0%nat demo_file 100 [1; 2; 3; 4; 5]); try reflexivity; cbn; unfold INT_MAX; lia.
Defined.
End File.
