(* ===== verification/Printf.v ===== *)
(** * Printf: formatted output of xv6's user programs

    printf.c.  The characters written are recorded with their descriptor; the
    format is a C string, the arguments that follow it are 32-bit words, and an
    argument of %s points to a string in memory. *)
From stdpp Require Import base list gmap strings.
From Stdlib Require Import ZArith Lia.
From S2P Require Import Prelude Cstr XString.
Import XString.

Module Printf.

Record state := mk_state { memory : mem; out : list (Z * Z) }.

Definition on_mem {A} (m : M mem A) : M state A := zoom memory (fun x st => mk_state x (out st)) m.

Definition putc (fd c : Z) : M state unit :=
  modify (fun st => mk_state (memory st) (out st ++ [(fd, u8 c)])).

Definition digits : list Z := str "0123456789ABCDEF".

(** The do-while loop fills [buf], 16 bytes, from its beginning; a 32-bit number
    has at most 32 digits. *)
Fixpoint digit_loop (fuel : nat) (x base : Z) (buf : list Z) : M state (list Z) :=
  match fuel with
  | O => fail OutOfFuel
  | S fuel =>
      let! d := of_option OutOfBounds (znth digits (x mod base)) in
      if 16 <=? Z.of_nat (length buf) then fail OutOfBounds else
      let buf := buf ++ [d] in
      let x := x / base in
      if x =? 0 then ret buf else digit_loop fuel x base buf
  end.

(** [while(--i >= 0) putc(fd, buf[i])] *)
Fixpoint put_all (fd : Z) (l : list Z) : M state unit :=
  match l with
  | [] => ret tt
  | c :: l => do! putc fd c in put_all fd l
  end.

Definition printint (fd xx base : Z) (sgn : bool) : M state unit :=
  let! '(neg, x) := (if sgn && (xx <? 0) then let! y := chk_int (- xx) in ret (true, u32 y)
                     else ret (false, u32 xx)) in
  let! buf := digit_loop 32 x base [] in
  let! buf := (if neg then
                 if 16 <=? Z.of_nat (length buf) then fail OutOfBounds else ret (buf ++ [45])
               else ret buf) in
  put_all fd (rev buf).

(** The string at [s]. *)
Fixpoint put_string (fuel : nat) (fd s : Z) : M state unit :=
  match fuel with
  | O => fail OutOfFuel
  | S fuel =>
      let! c := on_mem (load s) in
      if c =? 0 then ret tt else do! putc fd c in put_string fuel fd (s + 1)
  end.

(** The conversion that [c], after a percent sign, stands for; the result is
    the arguments left. *)
Definition convert (fd c : Z) (ap : list Z) : M state (list Z) :=
  let arg := of_option OutOfBounds (head ap) in
  if c =? 100 then let! a := arg in do! printint fd (i32 a) 10 true in ret (tail ap)
  else if (c =? 120) || (c =? 112) then let! a := arg in do! printint fd (i32 a) 16 false in ret (tail ap)
  else if c =? 115 then
    let! s := arg in
    do! (if s =? 0 then put_all fd (str "(null)")
         else let! st := get in put_string (S (base.size (memory st))) fd s) in
    ret (tail ap)
  else if c =? 99 then let! a := arg in do! putc fd a in ret (tail ap)
  else if c =? 37 then do! putc fd c in ret ap
  else do! putc fd 37 in do! putc fd c in ret ap.

(** [percent] is the variable state of the loop. *)
Fixpoint printf_loop (fd : Z) (fmt : list Z) (percent : bool) (ap : list Z) : M state unit :=
  match fmt with
  | [] => ret tt
  | c :: fmt =>
      if percent then let! ap := convert fd c ap in printf_loop fd fmt false ap
      else if c =? 37 then printf_loop fd fmt true ap
      else do! putc fd c in printf_loop fd fmt false ap
  end.
Definition printf (fd : Z) (fmt : list Z) (ap : list Z) : M state unit := printf_loop fd fmt false ap.

(** ** Notation of numbers *)

(** The value of a digit, [None] for another character. *)
Definition digit (c : Z) : option Z :=
  if (48 <=? c) && (c <=? 57) then Some (c - 48)
  else if (65 <=? c) && (c <=? 70) then Some (c - 55) else None.

(** [l] is [x] in the given base, without leading zeros. *)
Inductive numeral (base : Z) : Z -> list Z -> Prop :=
  | num_digit c d : digit c = Some d -> d < base -> numeral base d [c]
  | num_more x l c d : numeral base x l -> 0 < x -> digit c = Some d -> d < base -> numeral base (x * base + d) (l ++ [c]).

Lemma digits_ok d : 0 <= d < 16 -> exists c, znth digits d = Some c /\ digit c = Some d.
Proof.
  intros Hd. exists (nth (Z.to_nat d) digits 0).
  assert (d = 0 \/ d = 1 \/ d = 2 \/ d = 3 \/ d = 4 \/ d = 5 \/ d = 6 \/ d = 7 \/ d = 8 \/ d = 9 \/ d = 10 \/
    d = 11 \/ d = 12 \/ d = 13 \/ d = 14 \/ d = 15) as C by lia.
  repeat destruct C as [->|C]; try subst d; split; vm_compute; reflexivity.
Qed.

(** The loop leaves the numeral of [x], last digit first, when it has at most
    [n] digits and the buffer has room for them. *)
Lemma digit_loop_ok n : forall fuel x base buf st,
  2 <= base <= 16 -> 0 <= x < base ^ Z.of_nat n -> (0 < n <= fuel)%nat -> Z.of_nat (length buf) + Z.of_nat n <= 16 ->
  exists l, digit_loop fuel x base buf st = Ok (buf ++ rev l, st) /\ numeral base x l /\ (length l <= n)%nat.
Proof.
  induction n as [|n IH]; intros [|fuel] x base buf st Hb Hx Hf Hlen; [lia..|]. cbn [digit_loop].
  pose proof (Z.mod_pos_bound x base ltac:(lia)) as Hm. destruct (digits_ok (x mod base) ltac:(lia)) as (c & Hc & Hd). rewrite Hc.
  rewrite (bind_ok (of_option _ (Some c)) _ st c st eq_refl). cbv beta zeta. rewrite (proj2 (Z.leb_gt 16 _)) by lia.
  pose proof (Z.div_mod x base ltac:(lia)) as Hdm. destruct (Z.eqb_spec (x / base) 0) as [E|E].
  - exists [c]. split; [done|]. split; [|simpl; lia]. replace x with (x mod base) by lia. apply num_digit; [done|lia].
  - assert (Hq : 0 < x / base) by (pose proof (Z.div_pos x base ltac:(lia) ltac:(lia)); lia).
    destruct n as [|n]; [change (base ^ Z.of_nat 1) with (base ^ 1) in Hx; rewrite Z.pow_1_r in Hx; rewrite Z.div_small in E by lia; done|].
    destruct (IH fuel (x / base) base (buf ++ [c]) st Hb) as (l & El & Hl & Ll).
    + split; [lia|]. apply Z.div_lt_upper_bound; [lia|]. rewrite <- Z.pow_succ_r, <- Nat2Z.inj_succ by lia. lia.
    + lia.
    + rewrite length_app. simpl length. lia.
    + exists (l ++ [c]). rewrite El, rev_app_distr, <- app_assoc. split; [done|]. split; [|rewrite length_app; simpl; lia].
      replace x with (x / base * base + x mod base) by lia. apply num_more; [done|done|done|lia].
Qed.

(** A number has one numeral. *)
Lemma digit_range c d : digit c = Some d -> 0 <= d < 16 /\ u8 c = c.
Proof.
  unfold digit, u8. intros H. destruct ((48 <=? c) && (c <=? 57)) eqn:A; [|destruct ((65 <=? c) && (c <=? 70)) eqn:B; [|done]];
    injection H as <-; rewrite Z.mod_small by lia; lia.
Qed.
Lemma numeral_bytes base x l : numeral base x l -> (u8 <$> l) = l.
Proof.
  induction 1 as [c d Hd _|x l c d _ IH _ Hd _]; [|rewrite fmap_app, IH]; simpl; by rewrite (proj2 (digit_range _ _ Hd)).
Qed.

(** ** Output *)

Definition add_out (fd : Z) (l : list Z) (st : state) : state :=
  mk_state (memory st) (out st ++ ((fd,.) <$> l)).
Lemma add_out_nil fd st : add_out fd [] st = st.
Proof. destruct st. unfold add_out. simpl. by rewrite app_nil_r. Qed.
Lemma add_out_app fd l l' st : add_out fd l' (add_out fd l st) = add_out fd (l ++ l') st.
Proof. unfold add_out. simpl. by rewrite fmap_app, app_assoc. Qed.

Lemma put_all_ok fd l : forall st, (u8 <$> l) = l -> put_all fd l st = Ok (tt, add_out fd l st).
Proof.
  induction l as [|c l IH]; intros st H; [by rewrite add_out_nil|]. injection H as Hc Hl.
  cbn [put_all]. unfold putc at 1, modify, bind at 1. rewrite Hc, (IH _ Hl). f_equal. f_equal. apply (add_out_app fd [c] l).
Qed.

Lemma put_string_ok fd l : forall fuel s st,
  cstring (memory st) s l -> (length l < fuel)%nat -> put_string fuel fd s st = Ok (tt, add_out fd l st).
Proof.
  induction l as [|c l IH]; intros [|fuel] s st H Hf; simpl length in *; [lia| |lia|]; cbn [put_string].
  - apply cstring_nil in H. unfold on_mem, zoom, load, get, bind at 1. cbn. rewrite H. cbn. f_equal. by rewrite add_out_nil; destruct st.
  - apply cstring_cons in H as (H & Hc & Hl). unfold on_mem, zoom, load, get, bind at 1. cbn -[put_string]. rewrite H. cbn -[put_string].
    unfold is_char in Hc. rewrite (proj2 (Z.eqb_neq c 0)) by lia. unfold bind at 1. cbn -[put_string].
    rewrite (IH fuel (s + 1)) by (done || lia). unfold u8. rewrite Z.mod_small by lia.
    f_equal. f_equal. destruct st. apply (add_out_app fd [c] l).
Qed.

(** The text of a signed decimal number. *)
Definition decimal (n : Z) (l : list Z) : Prop :=
  exists ds, numeral 10 (Z.abs n) ds /\ l = (if n <? 0 then 45 :: ds else ds).

Lemma digit_inj c c' d : digit c = Some d -> digit c' = Some d -> c = c'.
Proof.
  unfold digit. intros H H'.
  destruct ((48 <=? c) && (c <=? 57)) eqn:A; [|destruct ((65 <=? c) && (c <=? 70)) eqn:B; [|done]];
    (destruct ((48 <=? c') && (c' <=? 57)) eqn:A'; [|destruct ((65 <=? c') && (c' <=? 70)) eqn:B'; [|done]]); injection H; injection H'; lia.
Qed.
Lemma numeral_fun base x l : numeral base x l -> forall l', numeral base x l' -> l = l'.
Proof.
  induction 1 as [c d Hd Hlt|x l c d Hx IH Hpos Hd Hlt]; intros l' H'; inversion H' as [c' d' Hd' Hlt'|x' m c' d' Hx' Hpos' Hd' Hlt' E]; subst;
    pose proof (digit_range _ _ Hd); pose proof (digit_range _ _ Hd'); try nia.
  - by rewrite (digit_inj _ _ _ Hd Hd').
  - assert (x' = x) as -> by nia. assert (d' = d) as -> by nia. by rewrite (IH _ Hx'), (digit_inj _ _ _ Hd Hd').
Qed.

(** The digits of a 32-bit number fit into [buf] with room for a sign. *)
Lemma digit_loop_word x base st : base = 10 \/ base = 16 -> 0 <= x < 2 ^ 32 ->
  exists l, digit_loop 32 x base [] st = Ok (rev l, st) /\ numeral base x l /\ (length l <= 10)%nat.
Proof.
  intros Hb Hx. apply (digit_loop_ok 10 32 x base []); [lia| |lia|simpl; lia].
  split; [lia|]. apply Z.lt_le_trans with (2 ^ 32); [lia|]. destruct Hb as [-> | ->]; vm_compute; discriminate.
Qed.

Lemma printint_dec fd n l st : INT_MIN < n <= INT_MAX -> decimal n l -> printint fd n 10 true st = Ok (tt, add_out fd l st).
Proof.
  unfold INT_MIN, INT_MAX. intros Hn (ds & Hds & ->). unfold printint. cbn [andb].
  destruct (digit_loop_word (Z.abs n) 10 st) as (l & El & Hl & Ll); [lia..|]. rewrite <- (numeral_fun _ _ _ Hds _ Hl) in *.
  assert (E : (if n <? 0 then let! y := chk_int (- n) in ret (true, u32 y) else ret (false, u32 n)) st = Ok ((n <? 0, Z.abs n), st)).
  { destruct (Z.ltb_spec n 0).
    - unfold chk_int. rewrite (proj2 (int_range_spec (- n))) by (unfold INT_MIN, INT_MAX; lia). unfold bind, ret, u32. rewrite Z.mod_small by lia.
      by rewrite Z.abs_neq by lia.
    - unfold ret, u32. rewrite Z.mod_small, Z.abs_eq by lia. done. }
  rewrite (bind_ok _ _ _ _ _ E). cbv beta iota. rewrite (bind_ok _ _ _ _ _ El). rewrite length_rev.
  rewrite (proj2 (Z.leb_gt 16 _)) by lia. pose proof (numeral_bytes _ _ _ Hds) as B. destruct (n <? 0).
  - rewrite (bind_ok (ret _) _ _ _ _ eq_refl), rev_app_distr, rev_involutive. apply put_all_ok. cbn [app rev]. rewrite fmap_cons, B. done.
  - rewrite (bind_ok (ret _) _ _ _ _ eq_refl), rev_involutive. by apply put_all_ok.
Qed.

Lemma printint_hex fd a l st : 0 <= a < 2 ^ 32 -> numeral 16 a l -> printint fd (i32 a) 16 false st = Ok (tt, add_out fd l st).
Proof.
  intros Ha Hl. unfold printint. cbn [andb]. rewrite (bind_ok (ret _) _ _ _ _ eq_refl). cbv beta iota.
  assert (u32 (i32 a) = a) as ->.
  { unfold u32, i32. rewrite Zminus_mod_idemp_l. replace (a + 2 ^ 31 - 2 ^ 31) with a by lia. by apply Z.mod_small. }
  destruct (digit_loop_word a 16 st) as (l' & El & Hl' & _); [lia..|]. rewrite <- (numeral_fun _ _ _ Hl _ Hl') in *.
  rewrite (bind_ok _ _ _ _ _ El), (bind_ok (ret _) _ _ _ _ eq_refl), rev_involutive. apply put_all_ok. by eapply numeral_bytes.
Qed.

(** ** What a format means

    [text m fmt args l]: with the words [args] after it and the strings of [m],
    the format [fmt] stands for the characters [l]. *)
Inductive piece (m : mem) : list Z -> list Z -> list Z -> Prop :=
  | p_char c : is_char c = true -> c <> 37 -> piece m [c] [] [c]
  | p_dec n l : INT_MIN < n <= INT_MAX -> decimal n l -> piece m (str "%d") [u32 n] l
  | p_hex c a l : c = 120 \/ c = 112 -> 0 <= a < 2 ^ 32 -> numeral 16 a l -> piece m [37; c] [a] l
  | p_str s l : s <> 0 -> cstring m s l -> piece m (str "%s") [s] l
  | p_null : piece m (str "%s") [0] (str "(null)")
  | p_chr a : piece m (str "%c") [a] [u8 a]
  | p_percent : piece m (str "%%") [] (str "%")
  | p_unknown c : is_char c = true -> ~ In c (str "dxpsc%") -> piece m [37; c] [] [37; c].
Inductive text (m : mem) : list Z -> list Z -> list Z -> Prop :=
  | t_nil : text m [] [] []
  | t_cons f a l fs aa ll : piece m f a l -> text m fs aa ll -> text m (f ++ fs) (a ++ aa) (l ++ ll).

Lemma i32_u32 n : INT_MIN < n <= INT_MAX -> i32 (u32 n) = n.
Proof.
  unfold INT_MIN, INT_MAX, i32, u32. intros H. rewrite Zplus_mod_idemp_l, Z.mod_small by lia. lia.
Qed.

Lemma loop_convert fd c fmt ap ap' st st' :
  convert fd c ap st = Ok (ap', st') -> printf_loop fd (37 :: c :: fmt) false ap st = printf_loop fd fmt false ap' st'.
Proof. intros H. cbn [printf_loop]. rewrite Z.eqb_refl. by rewrite (bind_ok _ _ _ _ _ H). Qed.

(** Each piece of the format prints its characters and takes its arguments. *)
Lemma piece_ok fd f a l fmt ap st : piece (memory st) f a l ->
  printf_loop fd (f ++ fmt) false (a ++ ap) st = printf_loop fd fmt false ap (add_out fd l st).
Proof.
  intros H. destruct H as [c Hc Hn|n l Hn Hl|c a l Hc Ha Hl|s l Hs Hl| |a| |c Hc Hn].
  - cbn [app printf_loop]. rewrite (proj2 (Z.eqb_neq c 37)) by done. unfold bind at 1. cbn -[printf_loop u8].
    unfold is_char in Hc. unfold u8. by rewrite Z.mod_small by lia.
  - change (str "%d") with [37; 100]. cbn [app]. apply loop_convert. unfold convert, of_option. cbn [Z.eqb Pos.eqb head tail].
    rewrite (bind_ok (ret _) _ _ _ _ eq_refl), i32_u32 by done. by rewrite (bind_ok _ _ _ _ _ (printint_dec fd n l st Hn Hl)).
  - cbn [app]. apply loop_convert. unfold convert, of_option. rewrite (proj2 (Z.eqb_neq c 100)) by lia.
    replace ((c =? 120) || (c =? 112)) with true by lia. cbn [head tail].
    rewrite (bind_ok (ret _) _ _ _ _ eq_refl). by rewrite (bind_ok _ _ _ _ _ (printint_hex fd a l st Ha Hl)).
  - change (str "%s") with [37; 115]. cbn [app]. apply loop_convert. unfold convert, of_option. cbn [Z.eqb Pos.eqb head tail orb].
    rewrite (bind_ok (ret _) _ _ _ _ eq_refl), (proj2 (Z.eqb_neq s 0)) by done.
    assert (E : (let! st := get in put_string (S (base.size (memory st))) fd s) st = Ok (tt, add_out fd l st)).
    { unfold get, bind. apply put_string_ok; [done|]. destruct Hl as [Hl _]. apply holds_size in Hl. rewrite length_app in Hl. simpl in Hl. lia. }
    by rewrite (bind_ok _ _ _ _ _ E).
  - change (str "%s") with [37; 115]. cbn [app]. apply loop_convert. unfold convert, of_option. cbn [Z.eqb Pos.eqb head tail orb].
    rewrite (bind_ok (ret _) _ _ _ _ eq_refl). cbn [Z.eqb]. by rewrite (bind_ok _ _ _ _ _ (put_all_ok fd (str "(null)") st eq_refl)).
  - change (str "%c") with [37; 99]. cbn [app]. apply loop_convert. reflexivity.
  - change (str "%%") with [37; 37]. cbn [app]. apply loop_convert. reflexivity.
  - cbn [app]. apply loop_convert. change (str "dxpsc%") with [100; 120; 112; 115; 99; 37] in Hn. simpl in Hn. unfold convert.
    unfold is_char in Hc. rewrite !(proj2 (Z.eqb_neq c _)) by (intros ->; tauto). cbn [orb].
    assert (E : (u8 <$> [37; c]) = [37; c]) by (cbn; unfold u8; rewrite !Z.mod_small by lia; done).
    pose proof (put_all_ok fd [37; c] st E) as P. cbn [put_all] in P.
    unfold bind, putc, modify, ret in *. cbn [memory out] in *. injection P as P. unfold add_out. by rewrite P.
Qed.

(** printf writes to its descriptor what the format stands for: characters as
    they are, %d as a signed decimal number, %x and %p as a hexadecimal number
    without leading zeros, %s as the string or (null), %c as a byte, %% as a
    percent sign, and an unknown conversion unchanged; it does not fault and
    leaves memory alone. *)
Theorem printf_prints fd fmt args l m o :
  text m fmt args l -> printf fd fmt args (mk_state m o) = Ok (tt, mk_state m (o ++ ((fd,.) <$> l))).
Proof.
  intros H. unfold printf. revert o. induction H as [|f a l fs aa ll Hp Ht IH]; intros o; [cbn; by rewrite app_nil_r|].
  rewrite piece_ok with (l := l) by done. unfold add_out. cbn [memory out]. rewrite IH, <- app_assoc, <- fmap_app. done.
Qed.
Definition demo_text : mem := list_to_map [(64, 104); (65, 105); (66, 0)].
Lemma printf_prints_witness :
  printf 1 (str "%s %d%%: %x") [64; u32 (-42); 255] (mk_state demo_text [])
  = Ok (tt, mk_state demo_text ((1,.) <$> str "hi -42%: FF")).
Proof.
  apply (printf_prints 1 _ _ _ demo_text []).
  apply (t_cons _ (str "%s") [64] (str "hi") (str " %d%%: %x") [u32 (-42); 255]).
  { apply p_str; [lia|]. split; [|repeat constructor]. prove_holds. }
  apply (t_cons _ (str " ") [] (str " ") (str "%d%%: %x")); [by constructor|].
  apply (t_cons _ (str "%d") [u32 (-42)] (str "-42") (str "%%: %x")).
  { apply p_dec; [done|]. exists (str "42"). split; [|done]. apply (num_more 10 4 (str "4") 50 2); [|lia|done|lia]. by apply num_digit. }
  apply (t_cons _ (str "%%") [] (str "%") (str ": %x")); [constructor|].
  apply (t_cons _ (str ":") [] (str ":") (str " %x")); [by constructor|].
  apply (t_cons _ (str " ") [] (str " ") (str "%x")); [by constructor|].
  apply (t_cons _ (str "%x") [255] (str "FF") [] []); [|constructor].
  apply p_hex; [by left|lia|]. apply (num_more 16 15 (str "F") 70 15); [|lia|done|lia]. by apply num_digit.
Defined.

(** ** Reading back *)

Lemma value_from_app l c : forall n, value_from n (l ++ [c]) = value_from n l * 10 + (c - 48).
Proof. induction l as [|d l IH]; intros n; [done|]. apply IH. Qed.
Lemma numeral_value x l : numeral 10 x l -> value l = x /\ Forall (fun c => Ulib.isdigit c = true) l.
Proof.
  assert (D : forall c d, digit c = Some d -> d < 10 -> c - 48 = d /\ Ulib.isdigit c = true).
  { unfold digit, Ulib.isdigit. intros c d H Hd. destruct ((48 <=? c) && (c <=? 57)) eqn:A; [injection H; lia|].
    destruct ((65 <=? c) && (c <=? 70)) eqn:B; [injection H; lia|done]. }
  unfold value. induction 1 as [c d Hd Hlt|x l c d _ [IH IHd] _ Hd Hlt]; destruct (D _ _ Hd Hlt) as [V I].
  - split; [|by repeat constructor]. cbn [value_from]. lia.
  - rewrite value_from_app, IH, V. split; [done|]. apply Forall_app. by repeat constructor.
Qed.

(** C39. What atoi makes of a number printed with %d, for every number above INT_MIN
    and up to INT_MAX - 48: a number that is not negative is read back as the same
    number; a negative one is read as 0, because atoi knows no sign.  Above
    INT_MAX - 48 the sum n*10 + *s in atoi overflows. *)
Theorem printf_atoi_roundtrip fd n st : INT_MIN < n <= INT_MAX - 48 ->
  exists l, printf fd (str "%d") [u32 n] st = Ok (tt, add_out fd l st) /\
    forall m a, cstring m a l -> Ulib.atoi a m = Ok (if n <? 0 then 0 else n, m).
Proof.
  intros Hn. destruct (digit_loop_word (Z.abs n) 10 st) as (l & _ & Hl & _); [lia|unfold INT_MIN, INT_MAX in Hn; lia|].
  set (l' := if n <? 0 then 45 :: l else l). exists l'. split.
  - rewrite <- (app_nil_r (str "%d")), <- (app_nil_r [u32 n]). unfold printf. rewrite (piece_ok fd _ _ l'); [done|].
    apply p_dec; [unfold INT_MIN, INT_MAX in *; lia|]. exists l. split; [done|]. unfold l'. by destruct (n <? 0).
  - intros m a [H _]. unfold l' in H. destruct (Z.ltb_spec n 0).
    + change ((45 :: l) ++ [0]) with ([45] ++ (l ++ [0])) in H. apply holds_app in H as [H _]. by rewrite (atoi_ok m a [] 45).
    + rewrite Z.abs_eq in Hl by lia. destruct (numeral_value _ _ Hl) as [V D]. rewrite (atoi_ok m a l 0); [by rewrite V|done|done|done|lia].
Qed.
Lemma printf_atoi_roundtrip_witness :
  exists l, printf 1 (str "%d") [u32 1024] (mk_state ∅ []) = Ok (tt, add_out 1 l (mk_state ∅ [])) /\
    forall m a, cstring m a l -> Ulib.atoi a m = Ok (1024, m).
Proof. apply (printf_atoi_roundtrip 1 1024 (mk_state ∅ [])). unfold INT_MIN, INT_MAX. lia. Defined.
End Printf.
