(* ===== verification/Proc.v ===== *)
(** * Proc: the processes of xv6

    proc.c on any number of processors.  A section that holds [ptable.lock] is
    one step (mutual exclusion of such sections is shown of spinlock.c); what
    fork, exit and wait do outside the lock are steps of their own, so that the
    calls of several processes interleave.  A [struct proc *] is the index of
    its slot.  Memory and open files of a process are reached through an
    interface ([Kernel]); saved registers are the trap frame's result register
    and the others; contexts and stacks' contents are not modelled. *)
From stdpp Require Import base list gmap strings.
From Stdlib Require Import ZArith Lia FunctionalExtensionality.
From S2P Require Import Prelude Cstr.

Module Proc.

Definition NPROC : nat := 64.

Inductive procstate := UNUSED | EMBRYO | SLEEPING | RUNNABLE | RUNNING | ZOMBIE.
#[export] Instance procstate_eq_dec : EqDecision procstate.
Proof. solve_decision. Defined.

(** What a process sleeps on: wait uses the address of the process, other code
    the addresses of its own objects. *)
Inductive channel := ChProc (p : nat) | ChAddr (a : Z).
#[export] Instance channel_eq_dec : EqDecision channel.
Proof. solve_decision. Defined.

Record trapframe := mk_tf { eax : Z; regs : list Z }.

Record proc := mk_proc {
  sz : Z;
  pgdir : Z;
  kstack : Z;
  pstate : procstate;
  pid : Z;
  parent : option nat;
  tf : trapframe;
  chan : option channel;
  killed : bool;
  name : list Z
}.
Definition set_sz x p := mk_proc x (pgdir p) (kstack p) (pstate p) (pid p) (parent p) (tf p) (chan p) (killed p) (name p).
Definition set_pgdir x p := mk_proc (sz p) x (kstack p) (pstate p) (pid p) (parent p) (tf p) (chan p) (killed p) (name p).
Definition set_kstack x p := mk_proc (sz p) (pgdir p) x (pstate p) (pid p) (parent p) (tf p) (chan p) (killed p) (name p).
Definition set_pstate x p := mk_proc (sz p) (pgdir p) (kstack p) x (pid p) (parent p) (tf p) (chan p) (killed p) (name p).
Definition set_pid x p := mk_proc (sz p) (pgdir p) (kstack p) (pstate p) x (parent p) (tf p) (chan p) (killed p) (name p).
Definition set_parent x p := mk_proc (sz p) (pgdir p) (kstack p) (pstate p) (pid p) x (tf p) (chan p) (killed p) (name p).
Definition set_tf x p := mk_proc (sz p) (pgdir p) (kstack p) (pstate p) (pid p) (parent p) x (chan p) (killed p) (name p).
Definition set_chan x p := mk_proc (sz p) (pgdir p) (kstack p) (pstate p) (pid p) (parent p) (tf p) x (killed p) (name p).
Definition set_killed x p := mk_proc (sz p) (pgdir p) (kstack p) (pstate p) (pid p) (parent p) (tf p) (chan p) x (name p).
Definition set_name x p := mk_proc (sz p) (pgdir p) (kstack p) (pstate p) (pid p) (parent p) (tf p) (chan p) (killed p) x.

(** What proc.c uses of the rest of the kernel, on a state [W] of its own:
    pages, address spaces, and the open files and current directory of the
    process in a slot ([dup_files] is the loop of fork with idup, [close_files]
    the loop of exit with iput, [root_dir] starts in the root directory). *)
Class Kernel (W : Type) := {
  kalloc : M W Z;
  kfree : Z -> M W unit;
  copyuvm : Z -> Z -> M W Z;
  freevm : Z -> M W unit;
  setupkvm : M W Z;
  inituvm : Z -> M W unit;
  allocuvm : Z -> Z -> Z -> M W Z;
  deallocuvm : Z -> Z -> Z -> M W Z;
  root_dir : nat -> M W unit;
  dup_files : nat -> nat -> M W unit;
  close_files : nat -> M W unit
}.

(** [wok E P D w]: the slots [E] have no open files, the pages [P] are handed out
    by kalloc, and [D] are the page directories in use. *)
Class KernelLaws (W : Type) {ops : Kernel W} := {
  wok : (nat -> Prop) -> (Z -> Prop) -> (Z -> Prop) -> W -> Prop;
  wok_ext E E' P P' D D' w : (forall i, E' i -> E i) -> (forall p, P p <-> P' p) -> (forall d, D d <-> D' d) -> wok E P D w -> wok E' P' D' w;
  kalloc_law E P D w : wok E P D w ->
    wp kalloc (fun p w' => (p = 0 /\ wok E P D w') \/ (p <> 0 /\ ~ P p /\ wok E (fun q => q = p \/ P q) D w')) w;
  kfree_law E P D w p : wok E P D w -> P p -> wp (kfree p) (fun _ w' => wok E (fun q => q <> p /\ P q) D w') w;
  setupkvm_law E P D w : wok E P D w ->
    wp setupkvm (fun r w' => (r = 0 /\ wok E P D w') \/ (r <> 0 /\ ~ D r /\ wok E P (fun q => q = r \/ D q) w')) w;
  copyuvm_law E P D w d n : wok E P D w -> D d ->
    wp (copyuvm d n) (fun r w' => (r = 0 /\ wok E P D w') \/ (r <> 0 /\ ~ D r /\ wok E P (fun q => q = r \/ D q) w')) w;
  freevm_law E P D w d : wok E P D w -> D d -> wp (freevm d) (fun _ w' => wok E P (fun q => q <> d /\ D q) w') w;
  inituvm_law E P D w d : wok E P D w -> D d -> inituvm d w = Err NullDeref \/ wp (inituvm d) (fun _ w' => wok E P D w') w;
  allocuvm_law E P D w d a b : wok E P D w -> D d -> wp (allocuvm d a b) (fun _ w' => wok E P D w') w;
  deallocuvm_law E P D w d a b : wok E P D w -> D d -> wp (deallocuvm d a b) (fun _ w' => wok E P D w') w;
  root_dir_law E P D w p : wok E P D w -> wp (root_dir p) (fun _ w' => wok E P D w') w;
  dup_files_law E P D w me np : wok E P D w -> E np -> me <> np -> (me < NPROC)%nat -> (np < NPROC)%nat ->
    wp (dup_files me np) (fun _ w' => wok (fun i => i <> np /\ E i) P D w') w;
  close_files_law E P D w me : wok E P D w -> (me < NPROC)%nat ->
    wp (close_files me) (fun _ w' => wok (fun i => i = me \/ E i) P D w') w
}.

Section proc.
Context {W : Type} {ops : Kernel W}.

Record state := mk_state {
  ptable : nat -> proc;
  initproc : option nat;
  nextpid : Z;
  world : W
}.
Definition set_ptable t s := mk_state t (initproc s) (nextpid s) (world s).

Definition upd {A} (i : nat) (x : A) (t : nat -> A) : nat -> A := fun j => if Nat.eqb j i then x else t j.

Definition get_proc (i : nat) : M state proc := let! s := get in ret (ptable s i).
Definition upd_proc (i : nat) (f : proc -> proc) : M state unit :=
  modify (fun s => set_ptable (upd i (f (ptable s i)) (ptable s)) s).
Definition on_world {A} (m : M W A) : M state A :=
  zoom world (fun w s => mk_state (ptable s) (initproc s) (nextpid s) w) m.

Definition slots : list nat := seq 0 NPROC.

(** ** allocproc and fork *)

(** The section of allocproc that holds the lock. *)
Definition allocproc_slot : M state (option nat) :=
  let! s := get in
  match find (fun i => bool_decide (pstate (ptable s i) = UNUSED)) slots with
  | None => ret None
  | Some p =>
      do! upd_proc p (set_pstate EMBRYO) in
      do! upd_proc p (set_pid (nextpid s)) in
      let! n := chk_int (nextpid s + 1) in
      do! modify (fun s => mk_state (ptable s) (initproc s) n (world s)) in
      ret (Some p)
  end.
(** The kernel stack; the result says whether there is one. *)
Definition allocproc_stack (p : nat) : M state bool :=
  let! k := on_world kalloc in
  do! upd_proc p (set_kstack k) in
  if k =? 0 then
    do! upd_proc p (set_pstate UNUSED) in
    ret false
  else ret true.
Definition allocproc : M state (option nat) :=
  let! p := allocproc_slot in
  match p with
  | None => ret None
  | Some p => let! ok := allocproc_stack p in ret (if ok then Some p else None)
  end.

(** The first process; its trap frame is for the segments of user code. *)
Definition PGSIZE : Z := 4096.
Definition user_tf : trapframe :=
  (* cs, ds, es, ss, eflags, esp, eip *)
  let ucode := Z.lor (Z.shiftl 3 3) 3 in let udata := Z.lor (Z.shiftl 4 3) 3 in
  mk_tf 0 [ucode; udata; udata; udata; 512; PGSIZE; 0].
Definition userinit : M state unit :=
  let! p := allocproc in
  do! modify (fun s => mk_state (ptable s) p (nextpid s) (world s)) in
  let! p := of_option NullDeref p in
  let! d := on_world setupkvm in
  do! upd_proc p (set_pgdir d) in
  if d =? 0 then fail (Panic "userinit: out of memory?") else
  do! on_world (inituvm d) in
  do! upd_proc p (set_sz PGSIZE) in
  do! upd_proc p (set_tf user_tf) in
  do! upd_proc p (set_name (str "initcode")) in
  do! on_world (root_dir p) in
  upd_proc p (set_pstate RUNNABLE).

Definition growproc (curproc : nat) (n : Z) : M state Z :=
  let! p := get_proc curproc in
  let! r := (if 0 <? n then on_world (allocuvm (pgdir p) (sz p) (u32 (sz p + n)))
             else if n <? 0 then on_world (deallocuvm (pgdir p) (sz p) (u32 (sz p + n)))
             else ret (sz p)) in
  if negb (n =? 0) && (r =? 0) then ret (-1) else
  do! upd_proc curproc (set_sz r) in
  ret 0.

(** Copy the address space; the result says whether that succeeded. *)
Definition fork_vm (curproc np : nat) : M state bool :=
  let! p := get_proc curproc in
  let! d := on_world (copyuvm (pgdir p) (sz p)) in
  do! upd_proc np (set_pgdir d) in
  if d =? 0 then
    let! q := get_proc np in
    do! on_world (kfree (kstack q)) in
    do! upd_proc np (set_kstack 0) in
    do! upd_proc np (set_pstate UNUSED) in
    ret false
  else
    do! upd_proc np (set_sz (sz p)) in
    do! upd_proc np (set_parent (Some curproc)) in
    do! upd_proc np (set_tf (tf p)) in
    do! upd_proc np (fun q => set_tf (mk_tf 0 (regs (tf q))) q) in
    ret true.
(** The name is a string of at most 15 characters. *)
Definition fork_files (curproc np : nat) : M state Z :=
  do! on_world (dup_files curproc np) in
  let! p := get_proc curproc in
  do! upd_proc np (set_name (take 15 (name p))) in
  let! q := get_proc np in
  ret (pid q).
Definition fork_run (np : nat) : M state unit := upd_proc np (set_pstate RUNNABLE).
Definition fork (curproc : nat) : M state Z :=
  let! np := allocproc in
  match np with
  | None => ret (-1)
  | Some np =>
      let! ok := fork_vm curproc np in
      if ok then
        let! pid := fork_files curproc np in
        do! fork_run np in
        ret pid
      else ret (-1)
  end.

(** ** sleep and wakeup *)

Definition wake (ch : channel) (p : proc) : proc :=
  if bool_decide (pstate p = SLEEPING) && bool_decide (chan p = Some ch) then set_pstate RUNNABLE p else p.
Fixpoint for_procs (l : list nat) (f : nat -> M state unit) : M state unit :=
  match l with
  | [] => ret tt
  | p :: l => do! f p in for_procs l f
  end.
Definition wakeup1 (ch : channel) : M state unit := for_procs slots (fun p => upd_proc p (wake ch)).
Definition wakeup (ch : channel) : M state unit := wakeup1 ch.

(** ** Locks of a processor *)

(** The locks the processor holds, the depth of pushcli, the interrupt flag saved
    at depth zero, and the flag itself.  Sections under [ptable.lock] are single
    steps, so what a processor holds is a value that the section passes on. *)
Inductive lockname := PtableLock | Lock (a : Z).
#[export] Instance lockname_eq_dec : EqDecision lockname.
Proof. solve_decision. Defined.
Record lcpu := mk_lcpu { held : list lockname; ncli : Z; intena : bool; fl_if : bool }.

Definition pushcli (l : lcpu) : lcpu :=
  mk_lcpu (held l) (ncli l + 1) (if ncli l =? 0 then fl_if l else intena l) false.
Definition popcli (l : lcpu) : M state lcpu :=
  if fl_if l then fail (Panic "popcli - interruptible")
  else if ncli l - 1 <? 0 then fail (Panic "popcli")
  else ret (mk_lcpu (held l) (ncli l - 1) (intena l) ((ncli l - 1 =? 0) && intena l)).
Definition holding (lk : lockname) (l : lcpu) : bool := bool_decide (lk ∈ held l).
Definition acquire (lk : lockname) (l : lcpu) : M state lcpu :=
  let l := pushcli l in
  if holding lk l then fail (Panic "acquire") else ret (mk_lcpu (lk :: held l) (ncli l) (intena l) (fl_if l)).
Definition release (lk : lockname) (l : lcpu) : M state lcpu :=
  if negb (holding lk l) then fail (Panic "release") else
  popcli (mk_lcpu (List.filter (fun k => negb (bool_decide (k = lk))) (held l)) (ncli l) (intena l) (fl_if l)).

(** A system call begins with interrupts on, the timer's handler with interrupts
    off; a process that the scheduler switches to finds [ptable.lock] held and
    gets back the flag that sched saved for it. *)
Definition in_syscall : lcpu := mk_lcpu [] 0 false true.
Definition in_timer : lcpu := mk_lcpu [] 0 false false.
Definition switched (saved : bool) : lcpu := mk_lcpu [PtableLock] 1 saved false.

(** sched, up to the switch. *)
Definition sched (l : lcpu) (curproc : nat) : M state unit :=
  if negb (holding PtableLock l) then fail (Panic "sched ptable.lock") else
  if negb (ncli l =? 1) then fail (Panic "sched locks") else
  let! p := get_proc curproc in
  if bool_decide (pstate p = RUNNING) then fail (Panic "sched running") else
  if fl_if l then fail (Panic "sched interruptible") else ret tt.
(** sleep up to the switch, and what it does when the process runs again; no
    process and no lock are null pointers. *)
Definition sleep (l : lcpu) (curproc : option nat) (ch : channel) (lk : option lockname) : M state unit :=
  match curproc, lk with
  | None, _ => fail (Panic "sleep")
  | _, None => fail (Panic "sleep without lk")
  | Some p, Some lk =>
      let! l := (if bool_decide (lk <> PtableLock) then let! l := acquire PtableLock l in release lk l else ret l) in
      do! upd_proc p (set_chan (Some ch)) in
      do! upd_proc p (set_pstate SLEEPING) in
      sched l p
  end.
Definition sleep_return (l : lcpu) (p : nat) (lk : lockname) : M state lcpu :=
  do! upd_proc p (set_chan None) in
  if bool_decide (lk <> PtableLock) then let! l := release PtableLock l in acquire lk l else ret l.
Definition yield (l : lcpu) (curproc : nat) : M state unit :=
  let! l := acquire PtableLock l in
  do! upd_proc curproc (set_pstate RUNNABLE) in
  sched l curproc.

Fixpoint kill_from (l : list nat) (id : Z) : M state Z :=
  match l with
  | [] => ret (-1)
  | p :: l =>
      let! q := get_proc p in
      if pid q =? id then
        do! upd_proc p (set_killed true) in
        do! (if bool_decide (pstate q = SLEEPING) then upd_proc p (set_pstate RUNNABLE) else ret tt) in
        ret 0
      else kill_from l id
  end.
Definition kill (id : Z) : M state Z := kill_from slots id.

(** ** exit and wait *)

(** exit before it takes the lock. *)
Definition exit_files (curproc : nat) : M state unit :=
  let! s := get in
  if bool_decide (initproc s = Some curproc) then fail (Panic "init exiting") else
  on_world (close_files curproc).
(** A child of an exiting process is passed to init. *)
Definition reparent (curproc p : nat) : M state unit :=
  let! s := get in
  let! q := get_proc p in
  if bool_decide (parent q = Some curproc) then
    do! upd_proc p (set_parent (initproc s)) in
    if bool_decide (pstate q = ZOMBIE) then
      match initproc s with Some i => wakeup1 (ChProc i) | None => ret tt end
    else ret tt
  else ret tt.
Definition exit_zombie (curproc : nat) : M state unit :=
  let! l := acquire PtableLock in_syscall in
  let! p := get_proc curproc in
  do! (match parent p with Some q => wakeup1 (ChProc q) | None => ret tt end) in
  do! for_procs slots (reparent curproc) in
  do! upd_proc curproc (set_pstate ZOMBIE) in
  sched l curproc.
Definition exit (curproc : nat) : M state unit :=
  do! exit_files curproc in exit_zombie curproc.

(** The slot of a process that has been waited for. *)
Definition reap (p : nat) : M state Z :=
  let! q := get_proc p in
  do! on_world (kfree (kstack q)) in
  do! upd_proc p (set_kstack 0) in
  do! (if pgdir q =? 0 then fail (Panic "freevm: no pgdir") else on_world (freevm (pgdir q))) in
  do! upd_proc p (set_pid 0) in
  do! upd_proc p (set_parent None) in
  do! upd_proc p (set_name []) in
  do! upd_proc p (set_killed false) in
  do! upd_proc p (set_pstate UNUSED) in
  ret (pid q).
(** The scan: the pid of a child that was reaped, or whether there are children. *)
Fixpoint wait_scan (l : list nat) (curproc : nat) (havekids : bool) : M state (Z + bool) :=
  match l with
  | [] => ret (inr havekids)
  | p :: l =>
      let! q := get_proc p in
      if negb (bool_decide (parent q = Some curproc)) then wait_scan l curproc havekids
      else if bool_decide (pstate q = ZOMBIE) then let! pid := reap p in ret (inl pid)
      else wait_scan l curproc true
  end.
(** One round of wait, with the lock held: [None] when the process went to
    sleep. *)
Definition wait_round (l : lcpu) (curproc : nat) : M state (option Z) :=
  let! r := wait_scan slots curproc false in
  match r with
  | inl pid => let! _ := release PtableLock l in ret (Some pid)
  | inr havekids =>
      let! p := get_proc curproc in
      if negb havekids || killed p then let! _ := release PtableLock l in ret (Some (-1))
      else do! sleep l (Some curproc) (ChProc curproc) (Some PtableLock) in ret None
  end.

(** ** Processors *)

(** What a process in the kernel does next.  Every other process runs user
    code, or kernel code that does not touch the table. *)
Inductive kont :=
  | User
  | ForkStack (np : nat)
  | ForkVm (np : nat)
  | ForkFiles (np : nat)
  | ForkRun (np : nat)
  | Waiting
  | SleepRet (lk : Z)
  | Exiting.

Record cpu := mk_cpu { cproc : option nat; scan : nat }.
Record machine := mk_machine { kern : state; cpus : nat -> cpu; konts : nat -> kont }.

Definition on_kern {A} (m : M state A) : M machine A :=
  zoom kern (fun s x => mk_machine s (cpus x) (konts x)) m.
Definition set_kont (p : nat) (k : kont) : M machine unit :=
  modify (fun x => mk_machine (kern x) (cpus x) (upd p k (konts x))).
Definition set_cpu (c : nat) (v : cpu) : M machine unit :=
  modify (fun x => mk_machine (kern x) (upd c v (cpus x)) (konts x)).

(** The loop of scheduler at one slot; the process returns to it by
    [leave]. *)
Definition scheduler (c : nat) : M machine unit :=
  let! x := get in
  let p := scan (cpus x c) in
  if bool_decide (pstate (ptable (kern x) p) <> RUNNABLE) then
    set_cpu c (mk_cpu None (if Nat.eqb (S p) NPROC then O else S p))
  else
    do! set_cpu c (mk_cpu (Some p) p) in
    on_kern (upd_proc p (set_pstate RUNNING)).
Definition leave (c : nat) : M machine unit :=
  let! x := get in
  let p := scan (cpus x c) in
  set_cpu c (mk_cpu None (if Nat.eqb (S p) NPROC then O else S p)).

Inductive syscall :=
  | SFork
  | SExit
  | SWait
  | SSleep (a lk : Z)
  | SWakeup (a : Z)
  | SKill (id : Z)
  | SSbrk (n : Z).

#[export] Instance syscall_eq_dec : EqDecision syscall.
Proof. solve_decision. Defined.

Definition wait_step (l : lcpu) (c me : nat) : M machine unit :=
  let! r := on_kern (wait_round l me) in
  match r with
  | Some _ => set_kont me User
  | None => do! set_kont me Waiting in leave c
  end.

(** A process in the kernel goes on. *)
Definition resume (c me : nat) : M machine unit :=
  let! x := get in
  match konts x me with
  | User => ret tt
  | ForkStack np => let! ok := on_kern (allocproc_stack np) in set_kont me (if ok then ForkVm np else User)
  | ForkVm np => let! ok := on_kern (fork_vm me np) in set_kont me (if ok then ForkFiles np else User)
  | ForkFiles np => let! _ := on_kern (fork_files me np) in set_kont me (ForkRun np)
  | ForkRun np => do! on_kern (fork_run np) in do! set_kont np User in set_kont me User
  | Waiting => let! l := on_kern (sleep_return (switched true) me PtableLock) in wait_step l c me
  | SleepRet lk =>
      let! l := on_kern (sleep_return (switched true) me (Lock lk)) in
      let! _ := on_kern (release (Lock lk) l) in
      set_kont me User
  | Exiting => do! on_kern (exit_zombie me) in do! set_kont me User in leave c
  end.

Definition call (c me : nat) (a : syscall) : M machine unit :=
  match a with
  | SFork =>
      let! np := on_kern allocproc_slot in
      match np with Some np => set_kont me (ForkStack np) | None => ret tt end
  | SExit => do! on_kern (exit_files me) in set_kont me Exiting
  | SWait => let! l := on_kern (acquire PtableLock in_syscall) in wait_step l c me
  | SSleep a lk =>
      let! l := on_kern (acquire (Lock lk) in_syscall) in
      do! on_kern (sleep l (Some me) (ChAddr a) (Some (Lock lk))) in
      do! set_kont me (SleepRet lk) in
      leave c
  | SWakeup a => on_kern (wakeup (ChAddr a))
  | SKill id => let! _ := on_kern (kill id) in ret tt
  | SSbrk n => let! _ := on_kern (growproc me n) in ret tt
  end.

(** What processor [c] does: it goes on, with the scheduler or the process it
    runs; the process makes a system call; or the timer interrupts it.  A
    process that waits or returns from sleep holds the lock and is not
    interrupted. *)
Inductive event := Go (c : nat) | Call (c : nat) (a : syscall) | Timer (c : nat).

Definition preemptible (k : kont) : bool :=
  match k with Waiting | SleepRet _ => false | _ => true end.
Definition step (e : event) : M machine unit :=
  let! x := get in
  match e with
  | Go c => match cproc (cpus x c) with None => scheduler c | Some me => resume c me end
  | Call c a =>
      match cproc (cpus x c) with
      | Some me => match konts x me with User => call c me a | _ => ret tt end
      | None => ret tt
      end
  | Timer c =>
      match cproc (cpus x c) with
      | Some me => if preemptible (konts x me) then do! on_kern (yield in_timer me) in leave c else ret tt
      | None => ret tt
      end
  end.
Fixpoint run (es : list event) : M machine unit :=
  match es with
  | [] => ret tt
  | e :: es => do! step e in run es
  end.
End proc.

(** ** The invariant *)

Definition alive (s : procstate) : bool := match s with SLEEPING | RUNNABLE | RUNNING => true | _ => false end.
Definition born (s : procstate) : bool := match s with UNUSED | EMBRYO => false | _ => true end.
(** The slot a forking process fills. *)
Definition target (k : kont) : option nat :=
  match k with ForkStack np | ForkVm np | ForkFiles np | ForkRun np => Some np | _ => None end.
(** How far the new process is set up. *)
Definition embryo_ok (k : kont) (me : nat) (q : proc) : Prop :=
  match k with
  | ForkStack _ => kstack q = 0 /\ parent q = None
  | ForkVm _ => kstack q <> 0 /\ parent q = None
  | ForkFiles _ | ForkRun _ => kstack q <> 0 /\ pgdir q <> 0 /\ parent q = Some me
  | _ => True
  end.
(** When a process can be where it is. *)
Definition kont_ok (k : kont) (s : procstate) : bool :=
  match k with
  | User => true
  | Waiting | SleepRet _ => alive s
  | _ => match s with RUNNING | RUNNABLE => true | _ => false end
  end.

(** The process table with initial process [ini] and next process number [n]. *)
Record TabInv (t : nat -> proc) (k : nat -> kont) (ini : nat) (n : Z) : Prop := {
  v_range p : (NPROC <= p)%nat -> pstate (t p) = UNUSED;
  v_pid p : pstate (t p) <> UNUSED -> 0 < pid (t p) < n;
  v_pids p q : pstate (t p) <> UNUSED -> pstate (t q) <> UNUSED -> pid (t p) = pid (t q) -> p = q;
  v_stack p q : kstack (t p) = kstack (t q) -> kstack (t p) <> 0 -> p = q;
  v_born p : born (pstate (t p)) = true -> kstack (t p) <> 0 /\ pgdir (t p) <> 0;
  v_free p : pstate (t p) = UNUSED -> kstack (t p) = 0 /\ parent (t p) = None;
  v_kont p : kont_ok (k p) (pstate (t p)) = true;
  v_idle p : alive (pstate (t p)) = false -> k p = User;
  v_fork p np : target (k p) = Some np -> pstate (t np) = EMBRYO /\ embryo_ok (k p) p (t np);
  v_forks p q np : target (k p) = Some np -> target (k q) = Some np -> p = q;
  v_embryo p q : pstate (t p) = EMBRYO -> parent (t p) = Some q -> target (k q) = Some p;
  v_init : alive (pstate (t ini)) = true /\ k ini <> Exiting /\ parent (t ini) = None;
  v_parent p : born (pstate (t p)) = true -> p <> ini ->
    exists q, parent (t p) = Some q /\ q <> p /\ alive (pstate (t q)) = true;
  v_sleep p : pstate (t p) = SLEEPING ->
    ((exists lk, k p = SleepRet lk) /\ exists a, chan (t p) = Some (ChAddr a)) \/
    (k p = Waiting /\ chan (t p) = Some (ChProc p) /\ (exists q, parent (t q) = Some p) /\
     forall q, parent (t q) = Some p -> pstate (t q) <> ZOMBIE)
}.

(** Processors and running processes. *)
Record CpuInv (cs : nat -> cpu) (t : nat -> proc) : Prop := {
  c_scan c : (scan (cs c) < NPROC)%nat;
  c_run c p : cproc (cs c) = Some p -> pstate (t p) = RUNNING /\ scan (cs c) = p;
  c_one c c' p : cproc (cs c) = Some p -> cproc (cs c') = Some p -> c = c';
  c_on p : pstate (t p) = RUNNING -> exists c, cproc (cs c) = Some p
}.

Section inv.
Context {W : Type} {ops : Kernel W} {laws : KernelLaws W}.
Notation state := (state (W := W)).
Notation machine := (machine (W := W)).
Implicit Types (s : state) (x : machine) (t : nat -> proc) (k : nat -> kont).

Definition nofiles t k (p : nat) : Prop :=
  pstate (t p) = UNUSED \/ pstate (t p) = ZOMBIE \/ k p = Exiting \/
  exists q, k q = ForkStack p \/ k q = ForkVm p \/ k q = ForkFiles p.
Definition stacks t (a : Z) : Prop := a <> 0 /\ exists p, kstack (t p) = a.

(** Processes with an address space: page directories are not shared.  The
    field of a free slot may still name the directory of its last process. *)
Definition hasdir t k (p : nat) : Prop := born (pstate (t p)) = true \/ exists q, k q = ForkFiles p \/ k q = ForkRun p.
Definition dirs t k (a : Z) : Prop := exists p, hasdir t k p /\ pgdir (t p) = a.
Definition DirInv t k : Prop := forall p q, hasdir t k p -> hasdir t k q -> pgdir (t p) = pgdir (t q) -> p = q.
Definition World t k (w : W) : Prop := DirInv t k /\ wok (nofiles t k) (stacks t) (dirs t k) w.

Record Inv x : Prop := {
  m_cpu : CpuInv (cpus x) (ptable (kern x));
  m_tab : exists ini, initproc (kern x) = Some ini /\ TabInv (ptable (kern x)) (konts x) ini (nextpid (kern x));
  m_world : World (ptable (kern x)) (konts x) (world (kern x))
}.

Lemma upd_eq {A} i (v : A) f : upd i v f i = v.
Proof. unfold upd. by rewrite Nat.eqb_refl. Qed.
Lemma upd_ne {A} i j (v : A) f : j <> i -> upd i v f j = f j.
Proof. intros H. unfold upd. by rewrite (proj2 (Nat.eqb_neq j i)). Qed.

Lemma wp_zoom {S T A} (view : T -> S) (up : S -> T -> T) (m : M S A) Q y :
  wp (zoom view up m) Q y <-> wp m (fun a z => Q a (up z y)) (view y).
Proof. unfold wp, zoom. destruct (m (view y)) as [[a z]|f]; done. Qed.

Lemma slots_in p : In p slots <-> (p < NPROC)%nat.
Proof. unfold slots. rewrite in_seq. lia. Qed.

(** A slot changes without a change of who runs. *)
Lemma CpuInv_same cs t t' : (forall p, pstate (t p) = RUNNING <-> pstate (t' p) = RUNNING) -> CpuInv cs t -> CpuInv cs t'.
Proof.
  intros E [H1 H2 H3 H4]. split; [done| |done|].
  - intros c p Hc. rewrite <- E. by apply H2.
  - intros p Hp. apply H4. by apply E.
Qed.

(** Each process keeps its identity, and its state up to waking up and taking
    turns; what it sleeps on changes only when it is awake. *)
Definition similar t t' : Prop := forall p,
  pid (t' p) = pid (t p) /\ kstack (t' p) = kstack (t p) /\ pgdir (t' p) = pgdir (t p) /\ parent (t' p) = parent (t p) /\
  ((pstate (t' p) = pstate (t p) /\ (pstate (t p) = SLEEPING -> chan (t' p) = chan (t p))) \/
   (alive (pstate (t p)) = true /\ (pstate (t' p) = RUNNABLE \/ pstate (t' p) = RUNNING))).

Lemma similar_facts t t' p : similar t t' ->
  (forall st, alive st = false -> pstate (t' p) = st <-> pstate (t p) = st) /\
  alive (pstate (t' p)) = alive (pstate (t p)) /\ born (pstate (t' p)) = born (pstate (t p)) /\
  (pstate (t' p) = SLEEPING -> pstate (t p) = SLEEPING /\ chan (t' p) = chan (t p)).
Proof.
  intros S. destruct (S p) as (_ & _ & _ & _ & [[E C]|[A [E|E]]]); rewrite ?E; [tauto| |];
    (split; [intros st Hst; split; intros H; [by subst|by rewrite H in A; congruence]|]);
    rewrite A; (split; [done|split; [by destruct (pstate (t p))|done]]).
Qed.

Lemma TabInv_similar t t' k ini n : similar t t' -> TabInv t k ini n -> TabInv t' k ini n.
Proof.
  intros S I. pose proof (fun p => similar_facts t t' p S) as F.
  assert (Sk : forall p, kstack (t' p) = kstack (t p)) by (intros p; apply S). assert (Sp : forall p, parent (t' p) = parent (t p)) by (intros p; apply S).
  assert (Si : forall p, pid (t' p) = pid (t p)) by (intros p; apply S). assert (Sd : forall p, pgdir (t' p) = pgdir (t p)) by (intros p; apply S).
  assert (Fu : forall p, pstate (t' p) = UNUSED <-> pstate (t p) = UNUSED) by (intros p; by apply F).
  assert (Fz : forall p, pstate (t' p) = ZOMBIE <-> pstate (t p) = ZOMBIE) by (intros p; by apply F).
  assert (Fe : forall p, pstate (t' p) = EMBRYO <-> pstate (t p) = EMBRYO) by (intros p; by apply F).
  assert (Fa : forall p, alive (pstate (t' p)) = alive (pstate (t p))) by (intros p; apply F).
  assert (Fb : forall p, born (pstate (t' p)) = born (pstate (t p))) by (intros p; apply F).
  split.
  - intros p Hp. apply Fu. by apply (v_range _ _ _ _ I).
  - intros p Hp. rewrite Si. apply (v_pid _ _ _ _ I). by rewrite <- Fu.
  - intros p q Hp Hq. rewrite !Si. apply (v_pids _ _ _ _ I); by rewrite <- Fu.
  - intros p q. rewrite !Sk. apply (v_stack _ _ _ _ I).
  - intros p. rewrite Fb, Sk, Sd. apply (v_born _ _ _ _ I).
  - intros p. rewrite Fu, Sk, Sp. apply (v_free _ _ _ _ I).
  - intros p. pose proof (v_kont _ _ _ _ I p) as K. destruct (S p) as (_ & _ & _ & _ & [[E C]|[A [E|E]]]); rewrite E; [done|by destruct (k p)..].
  - intros p. rewrite Fa. apply (v_idle _ _ _ _ I).
  - intros p np H. rewrite Fe. destruct (v_fork _ _ _ _ I p np H) as [E O]. split; [done|]. unfold embryo_ok in *. rewrite Sk, Sd, Sp. done.
  - apply (v_forks _ _ _ _ I).
  - intros p q. rewrite Fe, Sp. apply (v_embryo _ _ _ _ I).
  - rewrite Fa, Sp. apply (v_init _ _ _ _ I).
  - intros p. rewrite Fb, Sp. intros H1 H2. destruct (v_parent _ _ _ _ I p H1 H2) as (q & H). exists q. by rewrite Fa.
  - intros p Hs. destruct (F p) as (_ & _ & _ & Hc). destruct (Hc Hs) as [Hs' Ec]. rewrite Ec.
    destruct (v_sleep _ _ _ _ I p Hs') as [H|(H1 & H2 & (q & H3) & H4)]; [by left|right]. split; [done|]. split; [done|]. split; [exists q; by rewrite Sp|].
    intros r. rewrite Sp, Fz. apply H4.
Qed.

Lemma similar_nofiles t t' k p : similar t t' -> nofiles t' k p <-> nofiles t k p.
Proof. intros S. destruct (similar_facts t t' p S) as (F & _). unfold nofiles. by rewrite !F. Qed.
Lemma similar_stacks t t' a : similar t t' -> stacks t' a <-> stacks t a.
Proof. intros S. unfold stacks. split; intros (H & p & Hp); (split; [done|exists p]); destruct (S p) as (_ & E & _); congruence. Qed.
(** The processes with address spaces, and these, are the same. *)
Definition same_dirs t k t' k' : Prop := forall p, (hasdir t' k' p <-> hasdir t k p) /\ (hasdir t k p -> pgdir (t' p) = pgdir (t p)).
Lemma World_intro E P D t k w : wok E P D w -> (forall i, nofiles t k i -> E i) -> (forall a, P a <-> stacks t a) ->
  (forall a, D a <-> dirs t k a) -> DirInv t k -> World t k w.
Proof. intros H1 H2 H3 H4 H5. split; [done|]. by apply (wok_ext E _ P _ D). Qed.
Lemma World_same E P t k t' k' w : DirInv t k -> same_dirs t k t' k' -> wok E P (dirs t k) w ->
  (forall i, nofiles t' k' i -> E i) -> (forall a, P a <-> stacks t' a) -> World t' k' w.
Proof.
  intros HD S Hw HE HP. eapply World_intro; [exact Hw|done|done| |].
  - intros a. split; intros (p & Hp & Ha); exists p; destruct (S p) as [S1 S2]; [split; [by apply S1|by rewrite S2]|].
    apply S1 in Hp. split; [done|]. by rewrite <- S2.
  - intros p q Hp Hq E'. apply S in Hp, Hq. rewrite (proj2 (S p) Hp), (proj2 (S q) Hq) in E'. by apply HD.
Qed.
Lemma same_dirs_similar t t' k : similar t t' -> same_dirs t k t' k.
Proof.
  intros S p. destruct (similar_facts t t' p S) as (_ & _ & F & _). unfold hasdir. rewrite F. split; [done|]. intros _. apply S.
Qed.
Lemma World_similar t t' k w : similar t t' -> World t k w -> World t' k w.
Proof.
  intros S [HD Hw]. eapply World_same; [exact HD|by apply same_dirs_similar|exact Hw| |]; intros i; [by apply (similar_nofiles t t')|by rewrite (similar_stacks t t')].
Qed.

Lemma similar_upd t p q :
  pid q = pid (t p) -> kstack q = kstack (t p) -> pgdir q = pgdir (t p) -> parent q = parent (t p) ->
  (pstate q = pstate (t p) /\ (pstate (t p) = SLEEPING -> chan q = chan (t p))) \/
  (alive (pstate (t p)) = true /\ (pstate q = RUNNABLE \/ pstate q = RUNNING)) -> similar t (upd p q t).
Proof.
  intros H1 H2 H3 H4 H5 r. destruct (decide (r = p)) as [->|Hr]; [by rewrite upd_eq|]. rewrite upd_ne by done.
  do 4 (split; [done|]). by left.
Qed.
Lemma similar_refl t : similar t t.
Proof. intros p. do 4 (split; [done|]). by left. Qed.
Lemma similar_trans t t' t'' : similar t t' -> similar t' t'' -> similar t t''.
Proof.
  intros S S' p. destruct (similar_facts t t' p S) as (_ & Fa & _). destruct (S p) as (A & B & C & D & E), (S' p) as (A' & B' & C' & D' & E').
  do 4 (split; [congruence|]). destruct E' as [[E1 E2]|[E1 E2]]; [|by right; rewrite <- Fa].
  rewrite E1. destruct E as [[F1 F2]|F]; [left|by right]. split; [done|]. intros Hs. rewrite E2, F2 by congruence. done.
Qed.

(** Case analysis on whether a slot is the one that changed. *)
Ltac slot_cases :=
  repeat (rewrite ?upd_eq in *;
    match goal with
    | |- context [upd ?i _ _ ?j] => destruct (decide (j = i)) as [?|?]; [subst; rewrite ?upd_eq in *|rewrite ?(upd_ne i j) in * by done]
    | H : context [upd ?i _ _ ?j] |- _ => destruct (decide (j = i)) as [?|?]; [subst; rewrite ?upd_eq in *|rewrite ?(upd_ne i j) in * by done]
    end); cbn in *.
(** A clause of the invariant [I], as it is. *)
Ltac use_inv I :=
  first [ by eapply (v_range _ _ _ _ I) | by eapply (v_pid _ _ _ _ I) | by eapply (v_pids _ _ _ _ I) | by eapply (v_stack _ _ _ _ I)
        | by eapply (v_born _ _ _ _ I) | by eapply (v_free _ _ _ _ I) | by eapply (v_kont _ _ _ _ I) | by eapply (v_idle _ _ _ _ I)
        | by eapply (v_fork _ _ _ _ I) | by eapply (v_forks _ _ _ _ I) | by eapply (v_embryo _ _ _ _ I) | by eapply (v_init _ _ _ _ I)
        | by eapply (v_parent _ _ _ _ I) | by eapply (v_sleep _ _ _ _ I) ].

Lemma no_target t k ini n p np : TabInv t k ini n -> pstate (t np) <> EMBRYO -> target (k p) <> Some np.
Proof. intros I H E. by destruct (v_fork _ _ _ _ I p np E). Qed.

(** The clauses on parents and sleepers of another slot than the one that
    changes. *)
Lemma keep_parent t k ini n np v p : TabInv t k ini n -> born (pstate (t p)) = true -> p <> ini ->
  (alive (pstate (t np)) = true -> alive (pstate v) = true) ->
  exists q, parent (t p) = Some q /\ q <> p /\ alive (pstate (upd np v t q)) = true.
Proof.
  intros I Hb Hi Ha. destruct (v_parent _ _ _ _ I p Hb Hi) as (q & H1 & H2 & H3). exists q. do 2 (split; [done|]).
  destruct (decide (q = np)) as [->|?]; [rewrite upd_eq; auto|by rewrite upd_ne].
Qed.
Lemma keep_sleep t k ini n np v p : TabInv t k ini n -> pstate (t p) = SLEEPING ->
  (parent (t np) = Some p -> parent v = Some p) ->
  (parent v = Some p -> pstate v = ZOMBIE -> parent (t np) = Some p /\ pstate (t np) = ZOMBIE) ->
  ((exists lk, k p = SleepRet lk) /\ exists a, chan (t p) = Some (ChAddr a)) \/
  (k p = Waiting /\ chan (t p) = Some (ChProc p) /\ (exists q, parent (upd np v t q) = Some p) /\
   forall q, parent (upd np v t q) = Some p -> pstate (upd np v t q) <> ZOMBIE).
Proof.
  intros I Hs H1 H2. destruct (v_sleep _ _ _ _ I p Hs) as [L|(A & B & (q & C) & D)]; [by left|right].
  do 2 (split; [done|]). split.
  - exists q. destruct (decide (q = np)) as [->|?]; [rewrite upd_eq; auto|by rewrite upd_ne].
  - intros r. destruct (decide (r = np)) as [->|?]; [rewrite upd_eq|by rewrite upd_ne; auto]. intros E Z. destruct (H2 E Z). by apply (D np).
Qed.
Ltac tab I :=
  intros; slot_cases; try use_inv I; try congruence;
  try (eapply keep_parent; [exact I|by eauto|by eauto|cbn; congruence]);
  try (eapply keep_sleep; [exact I|by eauto|cbn; congruence|cbn; congruence]).

(** The process [me], running, goes to another point of the kernel. *)
Lemma TabInv_kont t k ini n me j :
  TabInv t k ini n -> pstate (t me) = RUNNING -> target (k me) = None -> target j = None -> (j = Exiting -> me <> ini) ->
  TabInv t (upd me j k) ini n.
Proof.
  intros I Hr Hk Hj Hx. split; tab I.
  - rewrite Hr. by destruct j.
  - by rewrite Hr in *.
  - pose proof (v_embryo _ _ _ _ I p me H H0). congruence.
  - destruct (v_init _ _ _ _ I) as (A & B & C). split; [done|]. split; [|done]. intros ->. by apply Hx.
Qed.

Lemma TabInv_sleep t k ini n me ch j :
  TabInv t k ini n -> pstate (t me) = RUNNING -> target (k me) = None ->
  ((exists lk, j = SleepRet lk) /\ exists a, ch = ChAddr a) \/
  (j = Waiting /\ ch = ChProc me /\ (exists q, parent (t q) = Some me) /\ forall q, parent (t q) = Some me -> pstate (t q) <> ZOMBIE) ->
  TabInv (upd me (set_pstate SLEEPING (set_chan (Some ch) (t me))) t) (upd me j k) ini n.
Proof.
  intros I Hr Hk Hj. assert (Tj : target j = None) by (destruct Hj as [[[? ->] _]|[-> _]]; done).
  assert (Nx : j <> Exiting) by (destruct Hj as [[[? ->] _]|[-> _]]; done).
  assert (I2 : pstate (t me) <> UNUSED) by congruence. assert (I3 : born (pstate (t me)) = true) by (by rewrite Hr).
  split; tab I.
  - by rewrite (v_range _ _ _ _ I) in Hr.
  - destruct Hj as [[[? ->] _]|[-> _]]; done.
  - by apply (no_target t k ini n p me I) in H; [|congruence].
  - pose proof (v_embryo _ _ _ _ I p me H H0). congruence.
  - destruct (v_init _ _ _ _ I) as (A & B & C). done.
  - destruct Hj as [[[lk ->] [a ->]]|(-> & -> & (q & C) & D)]; [left; eauto|right]. do 2 (split; [done|]). split.
    + exists q. destruct (decide (q = me)) as [->|?]; [by rewrite upd_eq|by rewrite upd_ne].
    + intros r. destruct (decide (r = me)) as [->|?]; [by rewrite upd_eq|]. rewrite upd_ne by done. apply D.
Qed.

(** A step of fork by [me] on the slot [np]: it is given up, set up further, or
    handed to the scheduler. *)
Lemma TabInv_fork t k ini n n' me np v j :
  TabInv t k ini n -> pstate (t me) = RUNNING -> (np < NPROC)%nat -> n <= n' ->
  (target (k me) = None /\ pstate (t np) = UNUSED) \/ target (k me) = Some np ->
  (kstack v <> 0 -> kstack v = kstack (t np) \/ ~ stacks t (kstack v)) ->
  (pstate v <> UNUSED -> 0 < pid v < n' /\ forall r, r <> np -> pstate (t r) <> UNUSED -> pid (t r) <> pid v) ->
  (pstate v = UNUSED /\ kstack v = 0 /\ parent v = None /\ j = User) \/
  (pstate v = EMBRYO /\ target j = Some np /\ embryo_ok j me v) \/
  (pstate v = RUNNABLE /\ j = User /\ kstack v <> 0 /\ pgdir v <> 0 /\ parent v = Some me) ->
  TabInv (upd np v t) (upd me j k) ini n'.
Proof.
  intros I Hr Hn Hle Hk Hstk Hpid Hv.
  assert (Hnp : pstate (t np) = UNUSED \/ pstate (t np) = EMBRYO) by (destruct Hk as [[_ ->]|Hk]; [by left|right; by destruct (v_fork _ _ _ _ I me np Hk)]).
  assert (Hne : me <> np) by (intros ->; destruct Hnp; congruence).
  assert (Hkn : k np = User) by (apply (v_idle _ _ _ _ I); by destruct Hnp as [-> | ->]).
  assert (Hini : np <> ini) by (intros ->; destruct (v_init _ _ _ _ I) as [A _]; destruct Hnp as [E|E]; by rewrite E in A).
  assert (Hot : forall p, target (k p) = Some np -> p = me).
  { intros p Hp. destruct Hk as [[_ Hu]|Hk]; [by apply (no_target t k ini n p np I) in Hp; [|congruence]|by apply (v_forks _ _ _ _ I p me np)]. }
  assert (Hpar : forall p, parent (t np) = Some p -> p = me).
  { intros p Hp. destruct Hnp as [E|E]; [destruct (v_free _ _ _ _ I np E); congruence|]. apply Hot. by apply (v_embryo _ _ _ _ I). }
  assert (Hvp : parent v = None \/ parent v = Some me).
  { destruct Hv as [(_ & _ & -> & _)|[(_ & T & O)|(_ & _ & _ & _ & ->)]]; [by left| |by right]. destruct j; try done; destruct O; naive_solver. }
  assert (Hvz : pstate v <> ZOMBIE /\ pstate v <> SLEEPING /\ (born (pstate v) = true -> kstack v <> 0 /\ pgdir v <> 0 /\ parent v = Some me)).
  { destruct Hv as [(-> & _)|[(-> & _)|(-> & _ & ? & ? & ?)]]; done. }
  destruct Hvz as (Hvz & Hvs & Hvb).
  split; tab I.
  - lia.
  - by apply Hpid.
  - pose proof (v_pid _ _ _ _ I p H). lia.
  - exfalso. by apply (proj2 (Hpid H) q); [|done|].
  - exfalso. by apply (proj2 (Hpid H0) p).
  - exfalso. destruct (Hstk H0) as [E|E]; [assert (np = q) by (apply (v_stack _ _ _ _ I); congruence); congruence|]. apply E. split; [done|exists q; congruence].
  - exfalso. assert (Hz : kstack v <> 0) by congruence. destruct (Hstk Hz) as [E|E]; [assert (p = np) by (apply (v_stack _ _ _ _ I); congruence); congruence|].
    apply E. split; [done|exists p; congruence].
  - by destruct (Hvb H) as (? & ? & _).
  - destruct Hv as [(_ & ? & ? & _)|[(E & _)|(E & _)]]; [done|congruence..].
  - rewrite Hr. destruct Hv as [(_ & _ & _ & ->)|[(_ & E & _)|(_ & -> & _)]]; [done| |done]. by destruct j.
  - by rewrite Hkn.
  - by rewrite Hr in H.
  - destruct Hv as [(_ & _ & _ & ->)|[(E & _ & O)|(_ & -> & _)]]; done.
  - rewrite (Hot p H) in *. done.
  - exfalso. destruct Hv as [(_ & _ & _ & ->)|[(_ & E & _)|(_ & -> & _)]]; [done|congruence|done].
  - destruct Hv as [(_ & _ & _ & ->)|[(_ & E & _)|(_ & -> & _)]]; [done| |done]. apply Hot. congruence.
  - destruct Hv as [(_ & _ & _ & ->)|[(_ & E & _)|(_ & -> & _)]]; [done| |done]. symmetry. apply Hot. congruence.
  - destruct Hv as [(E & _)|[(_ & E & _)|(E & _)]]; congruence.
  - exfalso. pose proof (v_embryo _ _ _ _ I p me H H0) as E. destruct Hk as [[Hk _]|Hk]; congruence.
  - exfalso. destruct Hvp; congruence.
  - destruct (v_init _ _ _ _ I) as (A & B & C). split; [done|]. split; [|done]. destruct Hv as [(_ & _ & _ & ->)|[(_ & E & _)|(_ & -> & _)]]; [done| |done]. by intros ->.
  - exists me. destruct (Hvb H) as (_ & _ & E). rewrite upd_ne by done. rewrite Hr. done.
  - eapply keep_parent; [exact I|done|done|]. destruct Hnp as [-> | ->]; done.
  - eapply keep_sleep; [exact I|done| |done]. intros E. rewrite (Hpar p E) in H. congruence.
Qed.

(** A zombie's slot is freed by its parent. *)
Lemma TabInv_reap t k ini n me np v :
  TabInv t k ini n -> pstate (t np) = ZOMBIE -> parent (t np) = Some me -> pstate (t me) = RUNNING ->
  pstate v = UNUSED -> kstack v = 0 -> parent v = None -> TabInv (upd np v t) k ini n.
Proof.
  intros I Hz Hp Hr H1 H2 H3. assert (Hkn : k np = User) by (apply (v_idle _ _ _ _ I); by rewrite Hz).
  assert (Hini : np <> ini) by (intros ->; destruct (v_init _ _ _ _ I) as [A _]; by rewrite Hz in A).
  split; tab I.
  - by rewrite H1 in H.
  - done.
  - by rewrite Hkn.
  - by apply (no_target t k ini n p np I) in H; [|congruence].
  - by rewrite H1 in H.
  - eapply keep_parent; [exact I|done|done|]. by rewrite Hz.
Qed.

(** ** Loops over the table *)

Lemma get_upd i f s : upd_proc i f s = Ok (tt, set_ptable (upd i (f (ptable s i)) (ptable s)) s).
Proof. done. Qed.

Lemma wake_idem ch q : wake ch (wake ch q) = wake ch q.
Proof. unfold wake. destruct (bool_decide (pstate q = SLEEPING) && _) eqn:E; [done|]. by rewrite E. Qed.
Lemma wake_loop ch l : forall s, exists t',
  for_procs l (fun p => upd_proc p (wake ch)) s = Ok (tt, set_ptable t' s) /\
  (forall j, In j l -> t' j = wake ch (ptable s j)) /\ (forall j, ~ In j l -> t' j = ptable s j).
Proof.
  induction l as [|p l IH]; intros s; [exists (ptable s); split; [by destruct s|]; done|]. cbn [for_procs].
  rewrite (bind_ok _ _ _ _ _ (get_upd p (wake ch) s)). cbv beta.
  destruct (IH (set_ptable (upd p (wake ch (ptable s p)) (ptable s)) s)) as (t' & E & H1 & H2). cbn [ptable set_ptable] in *. exists t'. split; [done|]. split.
  - intros j Hj. destruct (in_dec Nat.eq_dec j l) as [Hl|Hl].
    + rewrite H1 by done. destruct (decide (j = p)) as [->|?]; [rewrite upd_eq; apply wake_idem|by rewrite upd_ne].
    + rewrite H2 by done. destruct Hj as [->|?]; [by rewrite upd_eq|done].
  - intros j Hj. rewrite H2 by (intros ?; apply Hj; by right). apply upd_ne. intros ->. apply Hj. by left.
Qed.

(** Sleepers on [ch] wake up; nothing else happens. *)
Definition woken (ch : channel) t t' : Prop := forall j, (j < NPROC)%nat -> t' j = wake ch (t j).
Lemma wakeup1_ok ch s : exists t', wakeup1 ch s = Ok (tt, set_ptable t' s) /\ woken ch (ptable s) t' /\ forall j, (NPROC <= j)%nat -> t' j = ptable s j.
Proof.
  destruct (wake_loop ch slots s) as (t' & E & H1 & H2). exists t'. split; [done|]. split; intros j Hj; [apply H1|apply H2]; rewrite slots_in; lia.
Qed.

(** What waking up leaves as it was. *)
Definition stirred t t' : Prop := forall j,
  pid (t' j) = pid (t j) /\ kstack (t' j) = kstack (t j) /\ pgdir (t' j) = pgdir (t j) /\ chan (t' j) = chan (t j) /\
  (pstate (t' j) = pstate (t j) \/ (pstate (t j) = SLEEPING /\ pstate (t' j) = RUNNABLE)).
Lemma stirred_refl t : stirred t t.
Proof. intros j. do 4 (split; [done|]). by left. Qed.
Lemma stirred_trans t t' t'' : stirred t t' -> stirred t' t'' -> stirred t t''.
Proof.
  intros S S' j. destruct (S j) as (A & B & C & D & E), (S' j) as (A' & B' & C' & D' & E'). do 4 (split; [congruence|]).
  destruct E as [E|[E F]], E' as [E'|[E' F']]; [left; congruence|right; split; congruence|right; split; congruence|congruence].
Qed.
Lemma wake_cases ch q : wake ch q = q /\ (pstate q = SLEEPING -> chan q <> Some ch) \/ (pstate q = SLEEPING /\ chan q = Some ch /\ wake ch q = set_pstate RUNNABLE q).
Proof.
  unfold wake. destruct (bool_decide_reflect (pstate q = SLEEPING)) as [A|A]; [|by left]. destruct (bool_decide_reflect (chan q = Some ch)) as [B|B]; [by right|by left].
Qed.
Lemma woken_stirred ch t t' : woken ch t t' -> (forall j, (NPROC <= j)%nat -> t' j = t j) -> stirred t t' /\ forall j, parent (t' j) = parent (t j).
Proof.
  intros Hw Ho. assert (C : forall j, t' j = t j \/ (pstate (t j) = SLEEPING /\ t' j = set_pstate RUNNABLE (t j))).
  { intros j. destruct (Nat.lt_ge_cases j NPROC) as [Hj|Hj]; [rewrite (Hw j Hj)|rewrite (Ho j Hj); by left].
    destruct (wake_cases ch (t j)) as [[-> _]|(A & _ & ->)]; [by left|by right]. }
  split; intros j; destruct (C j) as [E|[A E]]; rewrite E; [by apply (stirred_refl t)| |done|done]. do 4 (split; [done|]). by right.
Qed.

#[local] Instance in_decision (j : nat) l : Decision (In j l) := in_dec Nat.eq_dec j l.
(** The loop of exit: the children of [me] become children of init, which wakes
    up if one of them is a zombie. *)
Definition adopted (l : list nat) (me ini : nat) t t' : Prop :=
  stirred t t' /\
  (forall j, parent (t' j) = if bool_decide (In j l /\ parent (t j) = Some me) then Some ini else parent (t j)) /\
  ((exists q, In q l /\ parent (t q) = Some me /\ pstate (t q) = ZOMBIE) ->
   forall j, (j < NPROC)%nat -> pstate (t' j) = SLEEPING -> chan (t' j) <> Some (ChProc ini)).

Lemma adopt_same ini p t : stirred t (upd p (set_parent ini (t p)) t).
Proof. intros j. destruct (decide (j = p)) as [->|?]; [rewrite upd_eq|rewrite upd_ne by done]; do 4 (split; [done|]); by left. Qed.

Lemma reparent_ok me ini p s : initproc s = Some ini -> me <> ini ->
  exists t', reparent me p s = Ok (tt, set_ptable t' s) /\ adopted [p] me ini (ptable s) t'.
Proof.
  intros Hi Hne. unfold reparent, get_proc. unfold bind at 1 2 3. cbn [get ret]. set (t := ptable s).
  destruct (bool_decide_reflect (parent (t p) = Some me)) as [Hp|Hp].
  - rewrite (bind_ok _ _ _ _ _ (get_upd p _ s)). cbv beta. fold t. rewrite Hi. set (t1 := upd p (set_parent (Some ini) (t p)) t).
    assert (S1 : stirred t t1) by (apply adopt_same).
    assert (P1 : forall j, parent (t1 j) = if bool_decide (In j [p] /\ parent (t j) = Some me) then Some ini else parent (t j)).
    { intros j. unfold t1. destruct (decide (j = p)) as [->|Hj]; [rewrite upd_eq, bool_decide_true by (split; [by left|done]); done|].
      rewrite upd_ne, bool_decide_false by (done || intros [[->|[]] _]; done). done. }
    destruct (bool_decide_reflect (pstate (t p) = ZOMBIE)) as [Hz|Hz].
    + destruct (wakeup1_ok (ChProc ini) (set_ptable t1 s)) as (t2 & E & Hw & Ho). cbn [ptable set_ptable] in *. exists t2. split; [done|].
      destruct (woken_stirred _ _ _ Hw Ho) as [S2 P2]. split; [by eapply stirred_trans|]. split; [intros j; by rewrite P2|].
      intros _ j Hj Hs. rewrite (Hw j Hj) in *. destruct (wake_cases (ChProc ini) (t1 j)) as [[E' N]|(_ & _ & E')]; rewrite E' in *; [by apply N|done].
    + exists t1. split; [done|]. split; [done|]. split; [done|]. intros (q & [->|[]] & _ & Hq). done.
  - exists t. split; [by destruct s|]. split; [apply stirred_refl|]. split; [|intros (q & [->|[]] & Hq & _); done].
    intros j. rewrite bool_decide_false by (intros [[->|[]] ?]; done). done.
Qed.

Lemma adopted_trans p l me ini t t' t'' : me <> ini ->
  adopted [p] me ini t t' -> adopted l me ini t' t'' -> adopted (p :: l) me ini t t''.
Proof.
  intros Hne (S1 & P1 & Z1) (S2 & P2 & Z2). split; [by eapply stirred_trans|]. split.
  - intros j. rewrite P2, P1. destruct (bool_decide_reflect (In j [p] /\ parent (t j) = Some me)) as [[A B]|A].
    + rewrite (bool_decide_false (In j l /\ _)) by (intros [_ ?]; congruence). rewrite bool_decide_true; [done|]. split; [|done]. destruct A as [->|[]]. by left.
    + destruct (bool_decide_reflect (In j l /\ parent (t j) = Some me)) as [[C D]|C].
      * rewrite bool_decide_true; [done|]. split; [by right|done].
      * rewrite bool_decide_false; [done|]. intros [[->|C'] D]; [apply A; split; [by left|done]|by apply C].
  - intros (q & Hq & Hp & Hz) j Hj Hs. destruct (S2 j) as (_ & _ & _ & Ec & Es).
    destruct (decide (q = p)) as [->|Hqp].
    + rewrite Ec. apply (Z1 ltac:(exists p; split; [by left|done]) j Hj). destruct Es as [Es|[Es _]]; congruence.
    + destruct Hq as [->|Hq]; [done|]. apply Z2; [|done|done]. exists q. split; [done|]. rewrite P1, bool_decide_false by (intros [[->|[]] _]; done).
      split; [done|]. destruct (S1 q) as (_ & _ & _ & _ & [E|[E _]]); congruence.
Qed.

Lemma reparent_loop me ini l : forall s, initproc s = Some ini -> me <> ini ->
  exists t', for_procs l (reparent me) s = Ok (tt, set_ptable t' s) /\ adopted l me ini (ptable s) t'.
Proof.
  induction l as [|p l IH]; intros s Hi Hne.
  - exists (ptable s). split; [by destruct s|]. split; [apply stirred_refl|]. split; [intros j; by rewrite bool_decide_false by (intros [[] _])|by intros (q & [] & _)].
  - destruct (reparent_ok me ini p s Hi Hne) as (t1 & E1 & A1). cbn [for_procs]. rewrite (bind_ok _ _ _ _ _ E1). cbv beta.
    destruct (IH (set_ptable t1 s) Hi Hne) as (t2 & E2 & A2). exists t2. split; [done|]. by eapply adopted_trans.
Qed.

Lemma stirred_facts t t' : stirred t t' ->
  (forall j, alive (pstate (t' j)) = alive (pstate (t j))) /\ (forall j, born (pstate (t' j)) = born (pstate (t j))) /\
  (forall j st, st <> SLEEPING -> st <> RUNNABLE -> pstate (t' j) = st <-> pstate (t j) = st) /\
  (forall j, pstate (t' j) = SLEEPING -> pstate (t j) = SLEEPING).
Proof.
  intros S. repeat split; intros; destruct (S j) as (_ & _ & _ & _ & [E|[E F]]); congruence || (rewrite E; try rewrite F; done).
Qed.

(** The last section of exit. *)
Lemma TabInv_exit t t' k ini n me :
  TabInv t k ini n -> pstate (t me) = RUNNING -> target (k me) = None -> me <> ini -> stirred t t' ->
  (forall j, parent (t' j) = if bool_decide (parent (t j) = Some me) then Some ini else parent (t j)) ->
  (forall j q, parent (t me) = Some q -> pstate (t' j) = SLEEPING -> chan (t' j) <> Some (ChProc q)) ->
  ((exists q, parent (t q) = Some me /\ pstate (t q) = ZOMBIE) -> forall j, pstate (t' j) = SLEEPING -> chan (t' j) <> Some (ChProc ini)) ->
  TabInv (upd me (set_pstate ZOMBIE (t' me)) t') (upd me User k) ini n.
Proof.
  intros I Hr Hk Hne S P N1 N2. destruct (stirred_facts t t' S) as (Fa & Fb & Fs & Fl).
  assert (Fu : forall j, pstate (t' j) = UNUSED <-> pstate (t j) = UNUSED) by (intros j; by apply Fs).
  assert (Fe : forall j, pstate (t' j) = EMBRYO <-> pstate (t j) = EMBRYO) by (intros j; by apply Fs).
  assert (Fz : forall j, pstate (t' j) = ZOMBIE <-> pstate (t j) = ZOMBIE) by (intros j; by apply Fs).
  assert (Si : forall p, pid (t' p) = pid (t p)) by (intros p; apply S). assert (Sk : forall p, kstack (t' p) = kstack (t p)) by (intros p; apply S).
  assert (Sd : forall p, pgdir (t' p) = pgdir (t p)) by (intros p; apply S). assert (Sc : forall p, chan (t' p) = chan (t p)) by (intros p; apply S).
  assert (Bm : born (pstate (t me)) = true) by (by rewrite Hr). destruct (v_parent _ _ _ _ I me Bm Hne) as (pm & Hpm & Hpm' & Apm).
  assert (Pme : parent (t' me) = Some pm) by (rewrite P, bool_decide_false by congruence; done).
  assert (Um : pstate (t me) <> UNUSED) by congruence.
  split; intros; slot_cases; rewrite ?Si, ?Sk, ?Sd, ?Sc, ?Fa, ?Fb, ?Fu, ?Fe in *; try use_inv I; try congruence.
  - by rewrite (v_range _ _ _ _ I) in Hr.
  - destruct (v_free _ _ _ _ I p) as [A B]; [done|]. split; [done|]. rewrite P, B. done.
  - pose proof (v_kont _ _ _ _ I p) as K. destruct (S p) as (_ & _ & _ & _ & [E|[_ E]]); rewrite E; [done|by destruct (k p)].
  - by apply (no_target t k ini n p me I) in H; [|congruence].
  - destruct (v_fork _ _ _ _ I p np H) as [E O]. split; [done|]. destruct (k p); try done; cbn in *; rewrite ?Sk, ?Sd, P;
      (rewrite bool_decide_false by naive_solver); done.
  - exfalso. rewrite P in H0. destruct (bool_decide_reflect (parent (t p) = Some me)); congruence.
  - apply (v_embryo _ _ _ _ I); [done|]. rewrite P in H0. destruct (bool_decide_reflect (parent (t p) = Some me)) as [E|_]; [|done].
    pose proof (v_embryo _ _ _ _ I p me H E). congruence.
  - destruct (v_init _ _ _ _ I) as (A & B & C). do 2 (split; [done|]). rewrite P, C. done.
  - exists pm. split; [done|]. split; [done|]. by rewrite upd_ne, Fa.
  - rewrite P. destruct (bool_decide_reflect (parent (t p) = Some me)) as [E|E].
    + exists ini. split; [done|]. split; [done|]. rewrite upd_ne, Fa by done. apply (v_init _ _ _ _ I).
    + destruct (v_parent _ _ _ _ I p H H0) as (q & A & B & C). exists q. split; [done|]. split; [done|]. by rewrite upd_ne, Fa by congruence.
  - destruct (v_sleep _ _ _ _ I p (Fl p H)) as [L|(A & B & (q & C) & D)]; [by left|right]. split; [done|]. split; [done|].
    assert (Npm : pm <> p) by (intros ->; apply (N1 p p); [done|done|by rewrite Sc]). split.
    + exists q. destruct (decide (q = me)) as [->|?]; [congruence|]. rewrite upd_ne, P, bool_decide_false by congruence. done.
    + intros r. destruct (decide (r = me)) as [->|?]; [rewrite upd_eq; cbn; congruence|]. rewrite upd_ne, P, Fz by done.
      destruct (bool_decide_reflect (parent (t r) = Some me)) as [E|E]; [|apply D]. intros [= <-] Z.
      apply (N2 ltac:(exists r; done) ini); [done|by rewrite Sc].
Qed.

(** ** Processors *)

Lemma upd_upd {A} i (u v : A) f : upd i v (upd i u f) = upd i v f.
Proof. apply functional_extensionality. intros j. unfold upd. by destruct (Nat.eqb j i). Qed.
Lemma upd_same {A} i (f : nat -> A) : upd i (f i) f = f.
Proof. apply functional_extensionality. intros j. unfold upd. by destruct (Nat.eqb_spec j i) as [->|]. Qed.

Definition next_scan (p : nat) : nat := if Nat.eqb (S p) NPROC then O else S p.
Lemma next_scan_lt p : (p < NPROC)%nat -> (next_scan p < NPROC)%nat.
Proof. unfold next_scan, NPROC. destruct (Nat.eqb_spec (S p) 64); lia. Qed.

Lemma CpuInv_scan cs t c i : CpuInv cs t -> cproc (cs c) = None -> (i < NPROC)%nat -> CpuInv (upd c (mk_cpu None i) cs) t.
Proof.
  intros [H1 H2 H3 H4] Hc Hi. split.
  - intros d. destruct (decide (d = c)) as [->|?]; [by rewrite upd_eq|by rewrite upd_ne].
  - intros d p. destruct (decide (d = c)) as [->|?]; [by rewrite upd_eq|rewrite upd_ne by done; apply H2].
  - intros d e p. destruct (decide (d = c)) as [->|?]; [by rewrite upd_eq|]. destruct (decide (e = c)) as [->|?]; [by rewrite upd_eq|]. rewrite !upd_ne by done. apply H3.
  - intros p Hp. destruct (H4 p Hp) as [d Hd]. exists d. rewrite upd_ne; [done|]. congruence.
Qed.
Lemma CpuInv_enter cs t t' c p :
  CpuInv cs t -> cproc (cs c) = None -> pstate (t p) <> RUNNING -> (p < NPROC)%nat ->
  (forall j, pstate (t' j) = RUNNING <-> j = p \/ pstate (t j) = RUNNING) -> CpuInv (upd c (mk_cpu (Some p) p) cs) t'.
Proof.
  intros [H1 H2 H3 H4] Hc Hp Hl Ht. split.
  - intros d. destruct (decide (d = c)) as [->|?]; [by rewrite upd_eq|by rewrite upd_ne].
  - intros d q. rewrite Ht. destruct (decide (d = c)) as [->|?]; [rewrite upd_eq; cbn; intros [= <-]; auto|]. rewrite upd_ne by done. intros Hd.
    destruct (H2 d q Hd). auto.
  - intros d e q. destruct (decide (d = c)) as [->|?], (decide (e = c)) as [->|?]; rewrite ?upd_eq, ?(upd_ne c d), ?(upd_ne c e) by done; cbn; [done| | |apply H3].
    + intros [= <-] He. destruct (H2 e p He). done.
    + intros Hd [= <-]. destruct (H2 d p Hd). done.
  - intros q Hq. apply Ht in Hq as [->|Hq]; [exists c; by rewrite upd_eq|]. destruct (H4 q Hq) as [d Hd]. exists d. rewrite upd_ne; [done|]. congruence.
Qed.
Lemma CpuInv_leave cs t t' c me i :
  CpuInv cs t -> cproc (cs c) = Some me -> (i < NPROC)%nat ->
  (forall j, pstate (t' j) = RUNNING <-> j <> me /\ pstate (t j) = RUNNING) -> CpuInv (upd c (mk_cpu None i) cs) t'.
Proof.
  intros [H1 H2 H3 H4] Hc Hi Ht. split.
  - intros d. destruct (decide (d = c)) as [->|?]; [by rewrite upd_eq|by rewrite upd_ne].
  - intros d q. rewrite Ht. destruct (decide (d = c)) as [->|Hd]; [by rewrite upd_eq|]. rewrite upd_ne by done. intros Hq. destruct (H2 d q Hq).
    split; [|done]. split; [|done]. intros ->. by apply Hd, (H3 d c me).
  - intros d e q. destruct (decide (d = c)) as [->|?]; [by rewrite upd_eq|]. destruct (decide (e = c)) as [->|?]; [by rewrite upd_eq|]. rewrite !upd_ne by done. apply H3.
  - intros q Hq. apply Ht in Hq as [Hne Hq]. destruct (H4 q Hq) as [d Hd]. exists d. rewrite upd_ne; [done|]. congruence.
Qed.

(** ** The world *)

Lemma stacks_same np v t a : kstack v = kstack (t np) -> stacks (upd np v t) a <-> stacks t a.
Proof.
  intros E. unfold stacks. split; intros (H & p & Hp); (split; [done|]); exists p; (destruct (decide (p = np)) as [->|?]; [rewrite upd_eq in *|rewrite upd_ne in * by done]); congruence.
Qed.
Lemma stacks_new np v t a : kstack (t np) = 0 -> kstack v <> 0 -> stacks (upd np v t) a <-> a = kstack v \/ stacks t a.
Proof.
  intros E H0. unfold stacks. split.
  - intros (H & p & Hp). destruct (decide (p = np)) as [->|?]; [rewrite upd_eq in Hp; by left|rewrite upd_ne in Hp by done; right; eauto].
  - intros [->|(H & p & Hp)]; [split; [done|]; exists np; by rewrite upd_eq|]. split; [done|]. exists p. rewrite upd_ne; [done|]. congruence.
Qed.
Lemma stacks_drop np v t k ini n a : TabInv t k ini n -> kstack (t np) <> 0 -> kstack v = 0 ->
  stacks (upd np v t) a <-> a <> kstack (t np) /\ stacks t a.
Proof.
  intros I E H0. unfold stacks. split.
  - intros (H & p & Hp). destruct (decide (p = np)) as [->|Hne]; [rewrite upd_eq in Hp; congruence|rewrite upd_ne in Hp by done]. split; [|eauto].
    intros ->. apply Hne. by apply (v_stack _ _ _ _ I); congruence.
  - intros (Hne & H & p & Hp). split; [done|]. exists p. rewrite upd_ne; [done|]. congruence.
Qed.
(** A step of fork before the files are copied. *)
Lemma nofiles_fork t k me np v j p : nofiles t k np -> (target j = None \/ target j = Some np) -> j <> Exiting ->
  nofiles (upd np v t) (upd me j k) p -> nofiles t k p.
Proof.
  intros Hn Hj Hx H. destruct (decide (p = np)) as [->|Hp]; [done|]. unfold nofiles in H. rewrite (upd_ne np) in H by done.
  destruct H as [H|[H|[H|(q & H)]]]; [by left|by right; left|right; right; left|right; right; right].
  - destruct (decide (p = me)) as [->|?]; [by rewrite upd_eq in H|by rewrite upd_ne in H].
  - exists q. destruct (decide (q = me)) as [->|?]; [|by rewrite upd_ne in H].
    rewrite upd_eq in H. destruct H as [-> |[-> | ->]]; cbn in Hj; naive_solver congruence.
Qed.
(** A step of [me] that is not in fork. *)
Lemma nofiles_kont t k me j p : target j = None -> j <> Exiting -> nofiles t (upd me j k) p -> nofiles t k p.
Proof.
  intros Hj Hx [H|[H|[H|(q & H)]]]; [by left|by right; left|right; right; left|right; right; right].
  - destruct (decide (p = me)) as [->|?]; [by rewrite upd_eq in H|by rewrite upd_ne in H].
  - exists q. destruct (decide (q = me)) as [->|?]; [|by rewrite upd_ne in H].
    rewrite upd_eq in H. destruct H as [-> |[-> | ->]]; done.
Qed.

(** Address spaces after a step of fork, at the slot it is about and elsewhere. *)
Lemma hasdir_fork t k me np v j p : (target (k me) = None \/ target (k me) = Some np) -> (target j = None \/ target j = Some np) ->
  p <> np -> hasdir (upd np v t) (upd me j k) p <-> hasdir t k p.
Proof.
  intros Hk Hj Hp. unfold hasdir. rewrite (upd_ne np) by done.
  assert (Q : (exists q, upd me j k q = ForkFiles p \/ upd me j k q = ForkRun p) <-> exists q, k q = ForkFiles p \/ k q = ForkRun p); [|by rewrite Q].
  split; intros (q & H); exists q; destruct (decide (q = me)) as [->|?]; rewrite ?upd_eq, ?upd_ne in * by done; try done.
  - destruct H as [-> | ->]; cbn in Hj; naive_solver congruence.
  - destruct H as [H|H]; rewrite H in Hk; cbn in Hk; naive_solver congruence.
Qed.
Lemma hasdir_kont t k me j p : target (k me) = None -> target j = None -> hasdir t (upd me j k) p <-> hasdir t k p.
Proof.
  intros Hk Hj. unfold hasdir.
  assert (Q : (exists q, upd me j k q = ForkFiles p \/ upd me j k q = ForkRun p) <-> exists q, k q = ForkFiles p \/ k q = ForkRun p); [|by rewrite Q].
  split; intros (q & H); exists q; destruct (decide (q = me)) as [->|?]; rewrite ?upd_eq, ?upd_ne in * by done; try done.
  - by destruct H as [-> | ->].
  - by destruct H as [H|H]; rewrite H in Hk.
Qed.
Lemma hasdir_born t k np v p : born (pstate v) = born (pstate (t np)) -> hasdir (upd np v t) k p <-> hasdir t k p.
Proof. intros E. unfold hasdir. destruct (decide (p = np)) as [->|?]; [rewrite upd_eq, E|rewrite upd_ne by done]; done. Qed.
Lemma same_dirs_upd t k np v : born (pstate v) = born (pstate (t np)) -> pgdir v = pgdir (t np) -> same_dirs t k (upd np v t) k.
Proof.
  intros Hb Hp p. split; [by apply hasdir_born|]. intros _. destruct (decide (p = np)) as [->|?]; [by rewrite upd_eq|by rewrite upd_ne].
Qed.
Lemma same_dirs_kont t t' k me j : same_dirs t k t' k -> target (k me) = None -> target j = None -> same_dirs t k t' (upd me j k).
Proof. intros S Hk Hj p. rewrite hasdir_kont by done. apply S. Qed.

(** ** Steps *)

Lemma wp_upd_proc i f Q s : wp (upd_proc i f) Q s <-> Q tt (set_ptable (upd i (f (ptable s i)) (ptable s)) s).
Proof. done. Qed.
Lemma wp_get_proc i Q s : wp (get_proc i) Q s <-> Q (ptable s i) s.
Proof. done. Qed.
Lemma wp_on_world {A} (m : M W A) Q s :
  wp (on_world m) Q s <-> wp m (fun a z => Q a (mk_state (ptable s) (initproc s) (nextpid s) z)) (world s).
Proof. apply wp_zoom. Qed.
Lemma wp_on_kern {A} (m : M state A) Q x : wp (on_kern m) Q x <-> wp m (fun a z => Q a (mk_machine z (cpus x) (konts x))) (kern x).
Proof. apply wp_zoom. Qed.
Lemma wp_set_kont p j Q x : wp (set_kont p j) Q x <-> Q tt (mk_machine (kern x) (cpus x) (upd p j (konts x))).
Proof. done. Qed.
Ltac wp_kern :=
  repeat (first [ progress wp_pure | rewrite wp_on_kern | rewrite wp_on_world | rewrite wp_upd_proc | rewrite wp_get_proc | rewrite wp_set_kont
                | rewrite upd_upd | rewrite upd_eq ]; cbn [kern cpus konts ptable initproc nextpid world set_ptable]).

Definition after (n : Z) (_ : unit) x : Prop := Inv x /\ nextpid (kern x) <= n + 1.

Section steps.
Variables (cs : nat -> cpu) (t : nat -> proc) (k : nat -> kont) (ini : nat) (n : Z) (w : W).
Hypothesis C : CpuInv cs t.
Hypothesis I : TabInv t k ini n.
Hypothesis Wk : World t k w.
Notation x := (mk_machine (mk_state t (Some ini) n w) cs k).

Lemma mk_after cs' t' k' n' w' : CpuInv cs' t' -> TabInv t' k' ini n' -> n' <= n + 1 -> World t' k' w' ->
  after n tt (mk_machine (mk_state t' (Some ini) n' w') cs' k').
Proof. intros H1 H2 H3 H4. split; [|done]. split; [done| |done]. by exists ini. Qed.
Lemma in_table p : pstate (t p) <> UNUSED -> (p < NPROC)%nat.
Proof. intros H. destruct (Nat.lt_ge_cases p NPROC) as [|Hp]; [done|]. by apply (v_range _ _ _ _ I) in Hp. Qed.

Lemma scheduler_inv c : cproc (cs c) = None -> wp (scheduler c) (after n) x.
Proof.
  intros Hc. unfold scheduler. wp_pure. cbn [cpus kern ptable]. set (p := scan (cs c)). pose proof (c_scan _ _ C c) as Hp. fold p in Hp.
  destruct (bool_decide_reflect (pstate (t p) <> RUNNABLE)) as [H|H].
  - apply mk_after; [|done|cbn; lia|done]. apply CpuInv_scan; [done|done|]. by apply next_scan_lt.
  - assert (Hr : pstate (t p) = RUNNABLE) by (destruct (pstate (t p)); try done; exfalso; apply H; done).
    assert (S : similar t (upd p (set_pstate RUNNING (t p)) t)) by (apply similar_upd; try done; right; rewrite Hr; auto).
    apply mk_after; [|by apply (TabInv_similar t)|cbn; lia|by apply (World_similar t)].
    apply (CpuInv_enter cs t); [done|done|congruence|done|]. intros j. destruct (decide (j = p)) as [->|?]; [rewrite upd_eq; cbn; tauto|rewrite upd_ne by done]. naive_solver.
Qed.

Section running.
Variables (c me : nat).
Hypothesis Hc : cproc (cs c) = Some me.

Lemma me_running : pstate (t me) = RUNNING /\ scan (cs c) = me /\ (me < NPROC)%nat /\ born (pstate (t me)) = true.
Proof.
  destruct (c_run _ _ C c me Hc) as [Hr Hs]. split; [done|]. split; [done|]. split; [apply in_table; congruence|by rewrite Hr].
Qed.

(** A change that keeps who runs. *)
Lemma after_similar t' k' w' : similar t t' -> (forall p, pstate (t p) = RUNNING <-> pstate (t' p) = RUNNING) ->
  TabInv t k' ini n -> World t k' w' -> after n tt (mk_machine (mk_state t' (Some ini) n w') cs k').
Proof. intros S R I' W'. apply mk_after; [by apply (CpuInv_same cs t)|by apply (TabInv_similar t)|cbn; lia|by apply (World_similar t)]. Qed.

(** The process gives up the processor, with the table [t'] and points [k']. *)
Lemma after_leave t' k' w' : (forall j, pstate (t' j) = RUNNING <-> j <> me /\ pstate (t j) = RUNNING) ->
  TabInv t' k' ini n -> World t' k' w' -> wp (leave c) (after n) (mk_machine (mk_state t' (Some ini) n w') cs k').
Proof.
  intros R I' W'. destruct me_running as (_ & Hs & Hl & _). unfold leave. wp_pure. cbn [cpus]. rewrite Hs.
  apply mk_after; [|done|cbn; lia|done]. eapply CpuInv_leave; [exact C|done| |done]. by apply next_scan_lt.
Qed.

Lemma sched_ok b p (s : state) : pstate (ptable s p) <> RUNNING -> sched (switched b) p s = Ok (tt, s).
Proof.
  intros H. unfold sched. change (holding PtableLock (switched b)) with true. cbn [negb ncli switched Z.eqb Pos.eqb fl_if]. unfold get_proc, bind, get, ret. by rewrite bool_decide_false by done.
Qed.

Lemma yield_inv : wp (do! on_kern (yield in_timer me) in leave c) (after n) x.
Proof.
  destruct me_running as (Hr & _). unfold yield. wp_kern. rewrite (wp_eq (acquire PtableLock in_timer) _ _ (switched false) (mk_state t (Some ini) n w)) by reflexivity.
  wp_kern. rewrite wp_eq by (apply sched_ok; cbn; by rewrite upd_eq). cbn.
  assert (S : similar t (upd me (set_pstate RUNNABLE (t me)) t)) by (apply similar_upd; try done; right; rewrite Hr; auto).
  apply after_leave; [|by apply (TabInv_similar t)|by apply (World_similar t)].
  intros j. destruct (decide (j = me)) as [->|?]; [rewrite upd_eq; cbn; split; [discriminate|by intros [? _]]|rewrite upd_ne by done]. tauto.
Qed.

Lemma sleep_ok p ch (s : state) :
  sleep (switched true) (Some p) ch (Some PtableLock) s = Ok (tt, set_ptable (upd p (set_pstate SLEEPING (set_chan (Some ch) (ptable s p))) (ptable s)) s).
Proof.
  unfold sleep. rewrite bool_decide_false by tauto. rewrite (bind_ok (ret _) _ _ _ _ eq_refl). rewrite (bind_ok _ _ _ _ _ (get_upd p _ s)). cbv beta. rewrite (bind_ok _ _ _ _ _ (get_upd p _ _)). cbv beta.
  cbn [ptable set_ptable]. rewrite upd_eq, upd_upd. apply sched_ok. cbn [ptable set_ptable]. by rewrite upd_eq.
Qed.
(** With another lock, [lk], held: it is exchanged for that of the table. *)
Definition with_lock (lk : Z) : lcpu := mk_lcpu [Lock lk] 1 true false.
Lemma sleep_lock_ok p ch lk (s : state) :
  sleep (with_lock lk) (Some p) ch (Some (Lock lk)) s = Ok (tt, set_ptable (upd p (set_pstate SLEEPING (set_chan (Some ch) (ptable s p))) (ptable s)) s).
Proof.
  unfold sleep. rewrite bool_decide_true by done. erewrite bind_ok.
  2: { rewrite (bind_ok (acquire PtableLock (with_lock lk)) _ s (mk_lcpu [PtableLock; Lock lk] 2 true false) s eq_refl). unfold release, holding. cbn [held]. rewrite bool_decide_true by (right; left). cbn [negb List.filter].
       rewrite (bool_decide_true (Lock lk = Lock lk)) by done. reflexivity. }
  rewrite (bind_ok _ _ _ _ _ (get_upd p _ s)). cbv beta. rewrite (bind_ok _ _ _ _ _ (get_upd p _ _)). cbv beta.
  cbn [ptable set_ptable]. rewrite upd_eq, upd_upd. apply (sched_ok true). cbn [ptable set_ptable]. by rewrite upd_eq.
Qed.
Lemma release_lock_ok lk (s : state) : release (Lock lk) (with_lock lk) s = Ok (mk_lcpu [] 0 true true, s).
Proof. unfold release, holding. cbn [held with_lock]. rewrite bool_decide_true by left. cbn [negb List.filter]. rewrite (bool_decide_true (Lock lk = Lock lk)) by done. reflexivity. Qed.

(** [me] goes to sleep at the point [j]. *)
Lemma sleep_inv ch j : target (k me) = None ->
  ((exists lk, j = SleepRet lk) /\ exists a, ch = ChAddr a) \/
  (j = Waiting /\ ch = ChProc me /\ (exists q, parent (t q) = Some me) /\ forall q, parent (t q) = Some me -> pstate (t q) <> ZOMBIE) ->
  wp (leave c) (after n) (mk_machine (mk_state (upd me (set_pstate SLEEPING (set_chan (Some ch) (t me))) t) (Some ini) n w) cs (upd me j k)).
Proof.
  intros Hk Hj. destruct me_running as (Hr & _). apply after_leave; [|by apply TabInv_sleep|].
  - intros i. destruct (decide (i = me)) as [->|?]; [rewrite upd_eq; cbn; split; [discriminate|by intros [? _]]|rewrite upd_ne by done]. tauto.
  - destruct Wk as [HD Hw]. assert (Tj : target j = None) by (by destruct Hj as [[[? ->] _]|[-> _]]).
    eapply World_same; [exact HD|apply same_dirs_kont; [|done|done]|exact Hw| |intros a; symmetry; by apply stacks_same]; [apply same_dirs_upd; [by rewrite Hr|done]|].
    intros i H. apply nofiles_kont in H; [|by destruct Hj as [[[? ->] _]|[-> _]]..]. unfold nofiles in *. destruct (decide (i = me)) as [->|?]; [rewrite upd_eq in H|by rewrite upd_ne in H].
    cbn in H. destruct H as [H|[H|H]]; [done|done|auto].
Qed.

Lemma run_same np v : pstate (t np) <> RUNNING -> pstate v <> RUNNING -> forall j, pstate (t j) = RUNNING <-> pstate (upd np v t j) = RUNNING.
Proof. intros H1 H2 j. destruct (decide (j = np)) as [->|?]; [rewrite upd_eq; tauto|by rewrite upd_ne]. Qed.

(** A step of fork on the slot [np], with a new world. *)
Lemma fork_inv np v j n' w' :
  (np < NPROC)%nat -> n <= n' <= n + 1 -> pstate v <> RUNNING ->
  (target (k me) = None /\ pstate (t np) = UNUSED) \/ target (k me) = Some np ->
  (kstack v <> 0 -> kstack v = kstack (t np) \/ ~ stacks t (kstack v)) ->
  (pstate v <> UNUSED -> 0 < pid v < n' /\ forall r, r <> np -> pstate (t r) <> UNUSED -> pid (t r) <> pid v) ->
  (pstate v = UNUSED /\ kstack v = 0 /\ parent v = None /\ j = User) \/
  (pstate v = EMBRYO /\ target j = Some np /\ embryo_ok j me v) \/
  (pstate v = RUNNABLE /\ j = User /\ kstack v <> 0 /\ pgdir v <> 0 /\ parent v = Some me) ->
  World (upd np v t) (upd me j k) w' ->
  after n tt (mk_machine (mk_state (upd np v t) (Some ini) n' w') cs (upd me j k)).
Proof.
  intros Hn Hle Hv Hk H1 H2 H3 W'. destruct me_running as (Hr & _). apply mk_after; [|apply (TabInv_fork t k ini n); [done|done|done|lia|done..]|lia|done].
  apply (CpuInv_same cs t); [|done]. apply run_same; [|done].
  destruct Hk as [[_ ->]|Hk]; [done|]. destruct (v_fork _ _ _ _ I me np Hk) as [-> _]. done.
Qed.

(** The world after a step of fork: the slot has no address space, keeps it, or
    gets one. *)
Lemma fork_world E P D np v j w' :
  (target (k me) = None /\ pstate (t np) = UNUSED) \/ target (k me) = Some np -> (target j = None \/ target j = Some np) ->
  wok E P D w' -> (forall i, nofiles (upd np v t) (upd me j k) i -> E i) -> (forall a, P a <-> stacks (upd np v t) a) ->
  let old := k me = ForkFiles np \/ k me = ForkRun np in
  let new := born (pstate v) = true \/ j = ForkFiles np \/ j = ForkRun np in
  (((~ old /\ ~ new) \/ (old /\ new /\ pgdir v = pgdir (t np))) /\ (forall a, D a <-> dirs t k a)) \/
  (~ old /\ new /\ ~ dirs t k (pgdir v) /\ forall a, D a <-> a = pgdir v \/ dirs t k a) ->
  World (upd np v t) (upd me j k) w'.
Proof.
  intros Hk Hj Hw HE HP old new Hc'. destruct Wk as [HD _].
  assert (Hot : forall p, target (k p) = Some np -> p = me).
  { intros p Hp. destruct Hk as [[_ Hu]|Hk]; [by apply (no_target t k ini n p np I) in Hp; [|congruence]|by apply (v_forks _ _ _ _ I p me np)]. }
  assert (Hk' : target (k me) = None \/ target (k me) = Some np) by tauto.
  assert (Nb : born (pstate (t np)) = false) by (destruct Hk as [[_ ->]|Hk]; [done|by destruct (v_fork _ _ _ _ I me np Hk) as [-> _]]).
  assert (Ho : hasdir t k np <-> old).
  { unfold hasdir. rewrite Nb. split; [|intros [H|H]; right; exists me; auto]. intros [?|(q & H)]; [done|].
    assert (q = me) as -> by (apply Hot; by destruct H as [-> | ->]). done. }
  assert (Hn : hasdir (upd np v t) (upd me j k) np <-> new).
  { unfold hasdir. rewrite upd_eq. split; [|intros [H|H]; [by left|right; exists me; by rewrite upd_eq]]. intros [?|(q & H)]; [by left|right].
    destruct (decide (q = me)) as [->|Hq]; [by rewrite upd_eq in H|]. rewrite upd_ne in H by done. destruct Hq. apply Hot. by destruct H as [-> | ->]. }
  destruct Hc' as [[Hs Hd]|(No & Ne & Nd & Hd)].
  - eapply World_same; [exact HD| |eapply wok_ext; [| |exact Hd|exact Hw]; [exact HE|exact HP]|done|done].
    intros p. destruct (decide (p = np)) as [->|Hp]; [rewrite upd_eq; tauto|]. rewrite (upd_ne np) by done. split; [by apply hasdir_fork|done].
  - eapply World_intro; [exact Hw|done|done| |].
    + intros a. rewrite Hd. split.
      * intros [->|(p & Hp & Ha)]; [exists np; rewrite upd_eq; split; [by apply Hn|done]|]. assert (p <> np) by (intros ->; tauto).
        exists p. rewrite (upd_ne np) by done. split; [by apply hasdir_fork|done].
      * intros (p & Hp & Ha). destruct (decide (p = np)) as [->|Hne]; [left; by rewrite upd_eq in Ha|right]. rewrite (upd_ne np) in Ha by done.
        exists p. split; [|done]. by apply hasdir_fork in Hp.
    + intros p q Hp Hq Eq. destruct (decide (p = np)) as [->|Hpn], (decide (q = np)) as [->|Hqn]; [done| | |];
        rewrite ?upd_eq, ?(upd_ne np) in Eq by done; rewrite ?hasdir_fork in * by done.
      * destruct Nd. exists q. split; [done|congruence].
      * destruct Nd. exists p. split; [done|congruence].
      * by apply HD.
Qed.

Lemma npid_pos : 0 < n.
Proof. destruct (v_init _ _ _ _ I) as [A _]. assert (U : pstate (t ini) <> UNUSED) by (intros E; by rewrite E in A). pose proof (v_pid _ _ _ _ I ini U). lia. Qed.

Lemma slot_inv : n < INT_MAX -> k me = User -> wp (call c me SFork) (after n) x.
Proof.
  intros Hn Hk. pose proof npid_pos as Hp. unfold call, allocproc_slot. wp_kern.
  destruct (find _ slots) as [p|] eqn:E; wp_kern; [|by apply mk_after; [done|done|cbn; lia|done]].
  apply find_some in E as [Hin Hu]. apply slots_in in Hin. apply bool_decide_eq_true in Hu.
  split; [apply int_range_spec; unfold INT_MIN in *; lia|].
  apply fork_inv; cbn; [done|lia|done|left; by rewrite Hk| | | |].
  - intros _. by left.
  - intros _. split; [lia|]. intros r _ Hr. pose proof (v_pid _ _ _ _ I r Hr). lia.
  - right. left. destruct (v_free _ _ _ _ I p Hu). done.
  - destruct Wk as [_ Hw]. eapply fork_world; [left; by rewrite Hk|by right|exact Hw| |intros a; symmetry; by apply stacks_same|].
    + intros i. apply nofiles_fork; [by left|by right|done].
    + left. split; [left|done]. rewrite Hk. cbn. split; naive_solver.
Qed.

(** What holds of the slot while [me] forks. *)
Lemma forking np : target (k me) = Some np -> (np < NPROC)%nat /\ pstate (t np) = EMBRYO /\ embryo_ok (k me) me (t np) /\
  (forall n', n <= n' -> 0 < pid (t np) < n' /\ forall r, r <> np -> pstate (t r) <> UNUSED -> pid (t r) <> pid (t np)).
Proof.
  intros Hk. destruct (v_fork _ _ _ _ I me np Hk) as [E O]. assert (U : pstate (t np) <> UNUSED) by congruence.
  split; [by apply in_table|]. split; [done|]. split; [done|]. intros n' Hn. pose proof (v_pid _ _ _ _ I np U). split; [lia|].
  intros r Hr Hu Ep. by apply Hr, (v_pids _ _ _ _ I).
Qed.

Lemma stack_inv np : k me = ForkStack np -> wp (resume c me) (after n) x.
Proof.
  intros Hk. destruct (forking np) as (Hn & E & O & Hp); [by rewrite Hk|]. rewrite Hk in O. destruct O as [O1 O2].
  unfold resume. wp_kern. rewrite Hk. unfold allocproc_stack. wp_kern.
  assert (Nf : nofiles t k np) by (right; right; right; exists me; by left).
  eapply wp_mono; [apply (kalloc_law _ _ _ w (proj2 Wk))|]. cbn beta. intros a w' [[-> W']|(H0 & Hns & W')]; wp_kern.
  - cbn [Z.eqb]. wp_kern. apply fork_inv; cbn; [done|lia|done|right; by rewrite Hk|done|done|by left|].
    eapply fork_world; [right; by rewrite Hk|by left|exact W'| |intros b; symmetry; by apply stacks_same|]; [intros i; apply nofiles_fork; [done|by left|done]|].
    left. split; [left|done]. rewrite Hk. cbn. split; naive_solver.
  - rewrite (proj2 (Z.eqb_neq a 0)) by done. wp_kern. apply fork_inv; cbn; [done|lia|congruence|right; by rewrite Hk|by right|intros _; by apply Hp|by right; left|].
    eapply fork_world; [right; by rewrite Hk|by right|exact W'| |intros b; symmetry; by apply stacks_new|]; [intros i; apply nofiles_fork; [done|by right|done]|].
    left. split; [left|done]. rewrite Hk. cbn. rewrite E. split; naive_solver.
Qed.

Lemma vm_inv np : k me = ForkVm np -> wp (resume c me) (after n) x.
Proof.
  intros Hk. destruct me_running as (Hr & _ & _ & Hb). destruct (forking np) as (Hn & E & O & Hp); [by rewrite Hk|]. rewrite Hk in O. destruct O as [O1 O2].
  unfold resume. wp_kern. rewrite Hk. unfold fork_vm. wp_kern. assert (Nf : nofiles t k np) by (right; right; right; exists me; auto).
  assert (Hne : np <> me) by congruence.
  eapply wp_mono; [apply (copyuvm_law _ _ _ w _ _ (proj2 Wk)); exists me; split; [by left|done]|]. cbn beta. intros d w' Hd'. wp_kern.
  destruct Hd' as [[-> W']|(Hd & Nd & W')]; [|rewrite (proj2 (Z.eqb_neq d 0)) by done].
  - cbn [Z.eqb]. wp_kern. eapply wp_mono; [apply (kfree_law _ _ _ w' (kstack (t np)) W'); split; [done|by exists np]|]. cbn beta. intros _ w2 W2. wp_kern.
    apply fork_inv; cbn; [done|lia|done|right; by rewrite Hk|done|done|by left|].
    eapply fork_world; [right; by rewrite Hk|by left|exact W2| |intros b; symmetry; by eapply stacks_drop|]; [intros i; apply nofiles_fork; [done|by left|done]|].
    left. split; [left|done]. rewrite Hk. cbn. split; naive_solver.
  - wp_kern. apply fork_inv; cbn; [done|lia|congruence|right; by rewrite Hk|by left|intros _; by apply Hp|by right; left|].
    eapply fork_world; [right; by rewrite Hk|by right|exact W'| |intros b; symmetry; by apply stacks_same|]; [intros i; apply nofiles_fork; [done|by right|done]|].
    right. rewrite Hk. cbn. split; [naive_solver|]. auto.
Qed.

Lemma files_inv np : k me = ForkFiles np -> wp (resume c me) (after n) x.
Proof.
  intros Hk. destruct me_running as (Hr & _ & Hl & Hb). destruct (forking np) as (Hn & E & O & Hp); [by rewrite Hk|]. rewrite Hk in O. destruct O as (O1 & O2 & O3).
  unfold resume. wp_kern. rewrite Hk. unfold fork_files. wp_kern. assert (Nf : nofiles t k np) by (right; right; right; exists me; auto).
  assert (Hne : me <> np) by congruence.
  eapply wp_mono; [by apply (dup_files_law _ _ _ w me np (proj2 Wk))|]. cbn beta. intros _ w' W'. wp_kern.
  apply fork_inv; cbn; [done|lia|congruence|right; by rewrite Hk|by left|intros _; by apply Hp|by right; left|].
  eapply fork_world; [right; by rewrite Hk|by right|exact W'| |intros b; symmetry; by apply stacks_same|left; split; [right; rewrite Hk; auto|done]].
  intros i Hi. cbn beta. split; [|apply (nofiles_fork t k me np) in Hi; [exact Hi|exact Nf|by right|done]]. intros ->.
  destruct Hi as [Hi|[Hi|[Hi|(q & Hi)]]]; rewrite ?upd_eq in Hi; cbn in Hi; [congruence|congruence| |].
  - rewrite upd_ne in Hi by done. assert (Ku : k np = User) by (apply (v_idle _ _ _ _ I); by rewrite E). congruence.
  - destruct (decide (q = me)) as [->|Hq]; [rewrite upd_eq in Hi; naive_solver|]. rewrite upd_ne in Hi by done.
    apply Hq, (v_forks _ _ _ _ I q me np); [|by rewrite Hk]. destruct Hi as [-> |[-> | ->]]; done.
Qed.

Lemma fork_run_inv np : k me = ForkRun np -> wp (resume c me) (after n) x.
Proof.
  intros Hk. destruct (forking np) as (Hn & E & O & Hp); [by rewrite Hk|]. rewrite Hk in O. destruct O as (O1 & O2 & O3).
  assert (Ku : k np = User) by (apply (v_idle _ _ _ _ I); by rewrite E).
  unfold resume. wp_kern. rewrite Hk. unfold fork_run. wp_kern. replace (upd np User k) with k by (rewrite <- Ku; symmetry; apply upd_same).
  apply fork_inv; cbn; [done|lia|done|right; by rewrite Hk|by left|intros _; by apply Hp|by right; right|].
  eapply fork_world; [right; by rewrite Hk|by left|exact (proj2 Wk)| |intros b; symmetry; by apply stacks_same|left; split; [right; rewrite Hk; auto|done]]. intros i Hi.
  apply (nofiles_kont _ k me) in Hi; [|done|done]. destruct (decide (i = np)) as [->|Hne]; [|unfold nofiles in *; by rewrite upd_ne in Hi].
  destruct Hi as [Hi|[Hi|[Hi|(q & Hi)]]]; rewrite ?upd_eq in Hi; [done|done|congruence|].
  assert (q = me) as -> by (apply (v_forks _ _ _ _ I q me np); [|by rewrite Hk]; destruct Hi as [-> |[-> | ->]]; done). rewrite Hk in Hi. naive_solver.
Qed.

(** [me] goes on to [j]; the table changes only in ways that keep the invariant. *)
Lemma goto_inv t' j w' : similar t t' -> (forall p, pstate (t p) = RUNNING <-> pstate (t' p) = RUNNING) -> target (k me) = None -> target j = None -> j <> Exiting ->
  World t k w' -> after n tt (mk_machine (mk_state t' (Some ini) n w') cs (upd me j k)).
Proof.
  intros S R Hk Hj Hx W'. destruct me_running as (Hr & _). apply after_similar; [done|done|by apply TabInv_kont|].
  destruct W' as [HD Hw]. eapply World_same; [exact HD|apply same_dirs_kont; [|done|done]|exact Hw| |done]; [by intros p; split|]. intros i. by apply nofiles_kont.
Qed.

Lemma wait_scan_ok l : forall hk (s : state),
  (exists p, In p l /\ parent (ptable s p) = Some me /\ pstate (ptable s p) = ZOMBIE /\ wait_scan l me hk s = (let! pid := reap p in ret (inl pid)) s) \/
  (exists b, wait_scan l me hk s = Ok (inr b, s) /\ (forall q, In q l -> parent (ptable s q) = Some me -> pstate (ptable s q) <> ZOMBIE) /\
    (b = true -> hk = true \/ exists q, parent (ptable s q) = Some me) /\ (b = false -> hk = false /\ forall q, In q l -> parent (ptable s q) <> Some me)).
Proof.
  induction l as [|p l IH]; intros hk s; [right; exists hk; repeat split; auto|]. cbn [wait_scan]. rewrite (bind_ok (get_proc p) _ s (ptable s p) s eq_refl). cbv beta.
  destruct (bool_decide_reflect (parent (ptable s p) = Some me)) as [Hp|Hp]; cbn [negb].
  - destruct (bool_decide_reflect (pstate (ptable s p) = ZOMBIE)) as [Hz|Hz]; [left; exists p; split; [by left|done]|].
    destruct (IH true s) as [(q & A & B)|(b & A & B & D & F)]; [left; exists q; split; [by right|done]|right]. exists b. split; [done|]. split; [intros q [<-|Hq]; auto|].
    split; [intros _; right; by exists p|]. intros Hb. by destruct (F Hb).
  - destruct (IH hk s) as [(q & A & B)|(b & A & B & D & F)]; [left; exists q; split; [by right|done]|right]. exists b. split; [done|].
    split; [intros q [<-|Hq]; [done|auto]|]. split; [done|]. intros Hb. destruct (F Hb) as [F1 F2]. split; [done|]. intros q [<-|Hq]; [done|auto].
Qed.

(** The address space of a zombie goes away. *)
Lemma World_drop np v j : DirInv t k -> target (k me) = None -> target j = None -> pstate (t np) = ZOMBIE -> pstate v = UNUSED ->
  DirInv (upd np v t) (upd me j k) /\ forall a, a <> pgdir (t np) /\ dirs t k a <-> dirs (upd np v t) (upd me j k) a.
Proof.
  intros HD Hk Hj Hz Hv.
  assert (H : forall p, hasdir (upd np v t) (upd me j k) p <-> p <> np /\ hasdir t k p).
  { intros p. rewrite hasdir_kont by done. unfold hasdir. destruct (decide (p = np)) as [->|Hp]; [rewrite upd_eq, Hv|rewrite upd_ne by done; tauto].
    split; [|tauto]. intros [?|(q & Hq)]; [done|]. exfalso. apply (no_target t k ini n q np I); [congruence|]. by destruct Hq as [-> | ->]. }
  assert (Hn : hasdir t k np) by (left; by rewrite Hz). split.
  - intros p q Hp Hq E. apply H in Hp as [Hp Hp'], Hq as [Hq Hq']. rewrite !upd_ne in E by done. by apply HD.
  - intros a. split.
    + intros [Ha (p & Hp & E)]. assert (p <> np) by (intros ->; done). exists p. rewrite (upd_ne np) by done. split; [by apply H|done].
    + intros (p & Hp & E). apply H in Hp as [Hne Hp]. rewrite (upd_ne np) in E by done. split; [|by exists p]. intros ->. by apply Hne, HD.
Qed.

(** The slot of a zombie child is freed. *)
Lemma reap_inv np j : target (k me) = None -> target j = None -> j <> Exiting -> parent (t np) = Some me -> pstate (t np) = ZOMBIE ->
  wp (reap np) (fun _ s => after n tt (mk_machine s cs (upd me j k))) (mk_state t (Some ini) n w).
Proof.
  intros Hk Hj Hx Hp Hz. destruct me_running as (Hr & _). destruct (v_born _ _ _ _ I np) as [Hs Hd]; [by rewrite Hz|].
  unfold reap. wp_kern. eapply wp_mono; [apply (kfree_law _ _ _ w (kstack (t np)) (proj2 Wk)); split; [done|by exists np]|]. cbn beta. intros _ w' W'. wp_kern.
  rewrite (proj2 (Z.eqb_neq _ 0)) by done. wp_kern. eapply wp_mono; [apply (freevm_law _ _ _ w' (pgdir (t np)) W'); exists np; split; [left; by rewrite Hz|done]|]. cbn beta. intros _ w2 W2. wp_kern.
  set (v := set_pstate UNUSED _). apply mk_after.
  - apply (CpuInv_same cs t); [|done]. apply run_same; [by rewrite Hz|done].
  - apply TabInv_kont; [by apply (TabInv_reap t k ini n me np)| |done|done|done]. rewrite upd_ne by congruence. done.
  - cbn. lia.
  - destruct (World_drop np v j (proj1 Wk) Hk Hj Hz eq_refl) as [HD' Hdirs].
    eapply World_intro; [exact W2| |intros b; symmetry; by eapply stacks_drop|exact Hdirs|exact HD'].
    intros i Hi. apply nofiles_kont in Hi; [|done|done]. destruct (decide (i = np)) as [->|Hne]; [by right; left|]. unfold nofiles in *. by rewrite upd_ne in Hi.
Qed.

Lemma wait_inv : target (k me) = None -> wp (wait_step (switched true) c me) (after n) x.
Proof.
  intros Hk. unfold wait_step, wait_round. wp_kern.
  destruct (wait_scan_ok slots false (mk_state t (Some ini) n w)) as [(p & _ & Hp & Hz & E)|(b & E & Hz & Hb & _)]; cbn [ptable] in *.
  - unfold wp at 1. rewrite E. change (wp (let! pid := reap p in ret (inl pid)) (fun r s => wp (match r with inl pid => let! _ := release PtableLock (switched true) in ret (Some pid) | inr havekids => let! q := get_proc me in if negb havekids || killed q then let! _ := release PtableLock (switched true) in ret (Some (-1)) else do! sleep (switched true) (Some me) (ChProc me) (Some PtableLock) in ret None end)
      (fun a z => wp match a with Some _ => set_kont me User | None => do! set_kont me Waiting in leave c end (after n) (mk_machine z cs k)) s) (mk_state t (Some ini) n w)).
    wp_kern. eapply wp_mono; [by apply (reap_inv p User)|]. cbn beta. intros pid s H. wp_kern. rewrite (wp_eq (release PtableLock (switched true)) _ _ _ s eq_refl). wp_kern. exact H.
  - rewrite (wp_eq _ _ _ _ _ E). wp_kern. destruct (negb b || killed (t me)) eqn:Eb; wp_kern.
    + rewrite (wp_eq (release PtableLock (switched true)) _ _ _ _ eq_refl). wp_kern. apply goto_inv; [apply similar_refl|done..].
    + apply orb_false_iff in Eb as [Eb _]. apply negb_false_iff in Eb. rewrite wp_eq by apply sleep_ok. wp_kern. cbn [set_ptable ptable].
      apply sleep_inv; [done|]. right. split; [done|]. split; [done|]. destruct (Hb Eb) as [?|Hq]; [done|]. split; [done|].
      intros q Hpq. apply Hz; [|done]. apply slots_in. apply in_table. intros Hu. destruct (v_free _ _ _ _ I q Hu). congruence.
Qed.

Lemma exit_files_inv : k me = User -> me <> ini -> wp (call c me SExit) (after n) x.
Proof.
  intros Hk Hne. destruct me_running as (Hr & _ & Hl & _). unfold call, exit_files. wp_kern. rewrite bool_decide_false by congruence. wp_kern.
  eapply wp_mono; [by apply (close_files_law _ _ _ w me (proj2 Wk))|]. cbn beta. intros _ w' W'. wp_kern.
  apply mk_after; [done|apply TabInv_kont; [done|done|by rewrite Hk|done|done]|cbn; lia|].
  eapply World_same; [exact (proj1 Wk)|apply same_dirs_kont; [by intros p; split|by rewrite Hk|done]|exact W'| |done].
  intros i Hi. cbn beta. destruct (decide (i = me)) as [->|Hi']; [by left|right].
  destruct Hi as [Hi|[Hi|[Hi|(q & Hi)]]]; [by left|by right; left|right; right; left; by rewrite upd_ne in Hi|right; right; right].
  exists q. destruct (decide (q = me)) as [->|?]; [rewrite upd_eq in Hi; naive_solver|by rewrite upd_ne in Hi].
Qed.

Lemma stirred_similar t' : stirred t t' -> (forall j, parent (t' j) = parent (t j)) -> similar t t'.
Proof.
  intros S P j. destruct (S j) as (A & B & D & E & F). do 3 (split; [done|]). split; [apply P|]. destruct F as [F|[F G]]; [left; done|right]. rewrite F, G. auto.
Qed.
Lemma stirred_running t1 t2 p : stirred t1 t2 -> pstate (t1 p) = RUNNING <-> pstate (t2 p) = RUNNING.
Proof. intros S. destruct (stirred_facts t1 t2 S) as (_ & _ & F & _). symmetry. by apply F. Qed.

Lemma exit_zombie_inv : k me = Exiting -> wp (resume c me) (after n) x.
Proof.
  intros Hk. destruct me_running as (Hr & _ & Hl & Hb). assert (Hne : me <> ini) by (intros ->; by destruct (v_init _ _ _ _ I) as (_ & ? & _)).
  destruct (v_parent _ _ _ _ I me Hb Hne) as (pm & Hpm & _). unfold resume. wp_kern. rewrite Hk. unfold exit_zombie. wp_kern. rewrite (wp_eq (acquire PtableLock in_syscall) _ _ (switched true) (mk_state t (Some ini) n w)) by reflexivity. wp_kern. rewrite Hpm.
  destruct (wakeup1_ok (ChProc pm) (mk_state t (Some ini) n w)) as (t1 & E1 & Hw & Ho). cbn [ptable] in *. rewrite (wp_eq _ _ _ _ _ E1).
  destruct (woken_stirred _ _ _ Hw Ho) as [S1 P1].
  destruct (reparent_loop me ini slots (set_ptable t1 (mk_state t (Some ini) n w)) eq_refl Hne) as (t2 & E2 & S2 & P2 & Z2). cbn [ptable set_ptable] in *.
  wp_kern. rewrite (wp_eq _ _ _ _ _ E2). wp_kern. rewrite wp_eq by (apply sched_ok; cbn; by rewrite upd_eq). wp_kern. cbn [set_ptable ptable].
  assert (S : stirred t t2) by (by eapply stirred_trans). destruct (stirred_facts t1 t2 S2) as (_ & _ & F2 & L2).
  assert (Rg : forall p, parent (t p) <> None -> (p < NPROC)%nat) by (intros p Hp; apply in_table; intros U; by destruct (v_free _ _ _ _ I p U)).
  assert (Rs : forall p, pstate (t2 p) = SLEEPING -> (p < NPROC)%nat) by (intros p Hp; apply in_table; destruct (stirred_facts t t2 S) as (_ & _ & _ & L); rewrite (L p Hp); done).
  apply after_leave.
  - intros j. destruct (decide (j = me)) as [->|?]; [rewrite upd_eq; cbn; split; [discriminate|by intros [? _]]|]. rewrite upd_ne by done. pose proof (stirred_running t t2 j S). tauto.
  - apply (TabInv_exit t t2); [done|done|by rewrite Hk|done|done| | |].
    + intros j. rewrite P2, P1. destruct (bool_decide_reflect (parent (t j) = Some me)) as [E|E].
      * rewrite bool_decide_true; [done|]. split; [|done]. apply slots_in, Rg. congruence.
      * rewrite bool_decide_false; [done|]. tauto.
    + intros j q Hq Hs Hch. rewrite Hpm in Hq. injection Hq as <-. pose proof (Rs j Hs) as Hj. destruct (S2 j) as (_ & _ & _ & Ec & _).
      pose proof (L2 j Hs) as Hs1. rewrite Ec, (Hw j Hj) in Hch. rewrite (Hw j Hj) in Hs1.
      destruct (wake_cases (ChProc pm) (t j)) as [[E N]|(_ & _ & E)]; rewrite E in *; [by apply N|done].
    + intros (q & Hq & Hz) j Hs. apply Z2; [|by apply Rs|done]. exists q. rewrite P1. split; [apply slots_in, Rg; congruence|]. split; [done|].
      destruct (stirred_facts t t1 S1) as (_ & _ & F1 & _). by apply F1.
  - destruct (stirred_facts t t2 S) as (_ & Fb & F & _). eapply World_same; [exact (proj1 Wk)| |exact (proj2 Wk)| |].
    + apply same_dirs_kont; [|by rewrite Hk|done]. intros p. unfold hasdir. destruct (S p) as (_ & _ & Ed & _).
      destruct (decide (p = me)) as [->|?]; [rewrite upd_eq; cbn; rewrite Hr; auto|]. rewrite upd_ne by done. rewrite Fb. auto.
    + intros i Hi. destruct (decide (i = me)) as [->|Hne']; [by right; right; left|]. apply nofiles_kont in Hi; [|done|done].
      unfold nofiles in *. rewrite upd_ne in Hi by done. by rewrite !F in Hi.
    + intros a. rewrite stacks_same by done. unfold stacks. split; intros (H0 & p & Hp); (split; [done|exists p]); destruct (S p) as (_ & E & _); congruence.
Qed.

Lemma kill_ok id l : forall (s : state), exists r t', kill_from l id s = Ok (r, set_ptable t' s) /\ stirred (ptable s) t' /\ forall j, parent (t' j) = parent (ptable s j).
Proof.
  induction l as [|p l IH]; intros s; [exists (-1), (ptable s); split; [by destruct s|split; [apply stirred_refl|done]]|]. cbn [kill_from].
  rewrite (bind_ok (get_proc p) _ s (ptable s p) s eq_refl). cbv beta. destruct (pid (ptable s p) =? id); [|apply IH].
  rewrite (bind_ok _ _ _ _ _ (get_upd p _ s)). cbv beta. destruct (bool_decide_reflect (pstate (ptable s p) = SLEEPING)) as [Hs|Hs].
  - rewrite (bind_ok _ _ _ _ _ (get_upd p _ _)). cbn [ptable set_ptable]. rewrite upd_eq, upd_upd. eexists 0, _. split; [reflexivity|].
    split; intros j; (destruct (decide (j = p)) as [->|?]; [rewrite upd_eq|rewrite upd_ne by done; by try apply (stirred_refl (ptable s))]); [|done].
    do 4 (split; [done|]). by right.
  - rewrite (bind_ok (ret tt) _ _ tt _ eq_refl). eexists 0, _. split; [reflexivity|].
    split; intros j; (destruct (decide (j = p)) as [->|?]; [rewrite upd_eq|rewrite upd_ne by done; by try apply (stirred_refl (ptable s))]); [|done].
    do 4 (split; [done|]). by left.
Qed.

(** The calls that do not change the order of things. *)
Lemma mild_inv t' w' : stirred t t' -> (forall j, parent (t' j) = parent (t j)) -> World t k w' ->
  after n tt (mk_machine (mk_state t' (Some ini) n w') cs k).
Proof. intros S P W'. apply after_similar; [by apply stirred_similar|intros p; by apply stirred_running|done|done]. Qed.

Lemma call_inv a : n < INT_MAX -> k me = User -> (a = SExit -> me <> ini) -> wp (call c me a) (after n) x.
Proof.
  intros Hn Hk Hx. assert (Hk' : target (k me) = None) by (by rewrite Hk). destruct me_running as (Hr & _ & Hl & Hb). destruct a as [| | |a lk|a|id|m].
  - by apply slot_inv.
  - apply exit_files_inv; [done|by apply Hx].
  - unfold call. wp_kern. rewrite (wp_eq (acquire PtableLock in_syscall) _ _ (switched true) (mk_state t (Some ini) n w)) by reflexivity. by apply wait_inv.
  - unfold call. wp_kern. rewrite (wp_eq (acquire (Lock lk) in_syscall) _ _ (with_lock lk) (mk_state t (Some ini) n w)) by reflexivity. wp_kern.
    rewrite wp_eq by apply sleep_lock_ok. wp_kern. cbn [set_ptable ptable]. apply sleep_inv; [done|left; eauto].
  - unfold call, wakeup. wp_kern. destruct (wakeup1_ok (ChAddr a) (mk_state t (Some ini) n w)) as (t1 & E1 & Hw & Ho). rewrite (wp_eq _ _ _ _ _ E1).
    destruct (woken_stirred _ _ _ Hw Ho) as [S1 P1]. by apply mild_inv.
  - unfold call, kill. wp_kern. destruct (kill_ok id slots (mk_state t (Some ini) n w)) as (r & t1 & E1 & S1 & P1). rewrite (wp_eq _ _ _ _ _ E1). wp_kern. by apply mild_inv.
  - destruct (v_born _ _ _ _ I me Hb) as [_ Hd]. unfold call, growproc. wp_kern.
    assert (G : forall (r : Z) w', World t k w' ->
      wp (if negb (m =? 0) && (r =? 0) then ret (-1) else do! upd_proc me (set_sz r) in ret 0)
        (fun _ z => wp (ret tt) (after n) (mk_machine z cs k)) (mk_state t (Some ini) n w')).
    { intros r w' W'. destruct (negb (m =? 0) && (r =? 0)); wp_kern; apply mild_inv; try done; [apply stirred_refl| |].
      - intros j. destruct (decide (j = me)) as [->|?]; [rewrite upd_eq|rewrite upd_ne by done]; do 4 (split; [done|]); by left.
      - intros j. destruct (decide (j = me)) as [->|?]; [by rewrite upd_eq|by rewrite upd_ne]. }
    destruct (0 <? m); [|destruct (m <? 0)]; wp_kern.
    + eapply wp_mono; [apply (allocuvm_law _ _ _ w _ _ _ (proj2 Wk)); exists me; split; [by left|done]|]. cbn beta. intros r w' W'. apply G. split; [exact (proj1 Wk)|done].
    + eapply wp_mono; [apply (deallocuvm_law _ _ _ w _ _ _ (proj2 Wk)); exists me; split; [by left|done]|]. cbn beta. intros r w' W'. apply G. split; [exact (proj1 Wk)|done].
    + by apply G.
Qed.

(** The chan of a running process does not matter. *)
Lemma sleep_return_similar : similar t (upd me (set_chan None (t me)) t) /\
  forall p, pstate (t p) = RUNNING <-> pstate (upd me (set_chan None (t me)) t p) = RUNNING.
Proof.
  destruct me_running as (Hr & _). split.
  - apply similar_upd; try done. right. cbn. rewrite Hr. auto.
  - intros p. destruct (decide (p = me)) as [->|?]; [by rewrite upd_eq|by rewrite upd_ne].
Qed.
End running.
End steps.

Lemma resume_inv cs t k ini n w c me : CpuInv cs t -> TabInv t k ini n -> World t k w -> cproc (cs c) = Some me ->
  wp (resume c me) (after n) (mk_machine (mk_state t (Some ini) n w) cs k).
Proof.
  intros C I Wk Hc. destruct (k me) as [|np|np|np|np| |lk|] eqn:Hk.
  - unfold resume. wp_kern. rewrite Hk. wp_kern. by apply mk_after; [done|done|cbn; lia|].
  - by eapply stack_inv.
  - by eapply vm_inv.
  - by eapply files_inv.
  - by eapply fork_run_inv.
  - destruct (sleep_return_similar cs t k ini n C I c me Hc) as [S R]. unfold resume. wp_kern. rewrite Hk. unfold sleep_return. rewrite bool_decide_false by tauto. wp_kern.
    apply wait_inv; [by apply (CpuInv_same cs t)|by apply (TabInv_similar t)|by apply (World_similar t)|done|by rewrite Hk].
  - destruct (sleep_return_similar cs t k ini n C I c me Hc) as [S R]. unfold resume. wp_kern. rewrite Hk. unfold sleep_return. rewrite bool_decide_true by done. wp_kern.
    rewrite (wp_eq (release PtableLock (switched true)) _ _ (mk_lcpu [] 0 true true) _) by reflexivity. wp_kern. rewrite (wp_eq (acquire (Lock lk) _) _ _ (with_lock lk) _) by reflexivity. wp_kern.
    rewrite wp_eq by apply release_lock_ok. wp_kern. apply (goto_inv cs t k ini n C I c me Hc); [done|done|by rewrite Hk|done|done|done].
  - by eapply exit_zombie_inv.
Qed.

Lemma machine_step_inv x e : Inv x -> nextpid (kern x) < INT_MAX ->
  wp (step e) (after (nextpid (kern x))) x \/
  (step e x = Err (Panic "init exiting") /\ exists c, e = Call c SExit /\ cproc (cpus x c) = initproc (kern x)).
Proof.
  destruct x as [[t i n w] cs k]. intros [C (ini & Hi & I) Wk] Hn. cbn in *. subst i. destruct e as [c|c a|c]; unfold step.
  - left. wp_kern. destruct (cproc (cs c)) as [me|] eqn:Hc; [by apply resume_inv|by apply scheduler_inv].
  - destruct (cproc (cs c)) as [me|] eqn:Hc; [|left; wp_kern; rewrite Hc; wp_kern; apply mk_after; [done|done|cbn; lia|done]].
    destruct (k me) eqn:Hk; try (left; wp_kern; rewrite Hc, Hk; wp_kern; apply mk_after; [done|done|cbn; lia|done]).
    destruct (decide (a = SExit /\ me = ini)) as [[-> ->]|Hx].
    + right. split; [|by exists c]. unfold call.
      assert (E : on_kern (exit_files ini) (mk_machine (mk_state t (Some ini) n w) cs k) = Err (Panic "init exiting")).
      { unfold exit_files, on_kern, zoom, bind, get. cbn [kern initproc]. by rewrite bool_decide_true. }
      unfold bind. by rewrite E.
    + left. wp_kern. rewrite Hc, Hk. apply (call_inv cs t k ini n w); try done. intros ->. naive_solver.
  - left. wp_kern. destruct (cproc (cs c)) as [me|] eqn:Hc; [|wp_kern; apply mk_after; [done|done|cbn; lia|done]].
    destruct (preemptible (k me)); [|wp_kern; apply mk_after; [done|done|cbn; lia|done]]. by apply (yield_inv cs t k ini n w).
Qed.

(** The one way for a run to end early: the first process exits. *)
Definition init_exits (es : list event) x : Prop :=
  exists es1 c es2 x1, es = es1 ++ Call c SExit :: es2 /\ run es1 x = Ok (tt, x1) /\ cproc (cpus x1 c) = initproc (kern x1).

Lemma run_inv_all es : forall x, Inv x -> nextpid (kern x) + Z.of_nat (length es) <= INT_MAX ->
  (exists x', run es x = Ok (tt, x') /\ Inv x') \/ (run es x = Err (Panic "init exiting") /\ init_exits es x).
Proof.
  induction es as [|e es IH]; intros x Ix Hn; [left; by exists x|]. cbn [length] in Hn. cbn [run].
  destruct (machine_step_inv x e Ix ltac:(lia)) as [H|(H & c & -> & Hc)]; [|right; split; [unfold bind; by rewrite H|by exists [], c, es, x]].
  apply wp_run in H as ([] & x1 & E & Ix1 & Hn1). rewrite (bind_ok _ _ _ _ _ E).
  destruct (IH x1 Ix1 ltac:(lia)) as [?|(Hr & es1 & c & es2 & x2 & -> & H1 & H2)]; [by left|right]. split; [done|].
  exists (e :: es1), c, es2, x2. split; [done|]. split; [|done]. cbn [run]. by rewrite (bind_ok _ _ _ _ _ E).
Qed.

(** ** From boot *)

(** Before userinit: an empty table, and processors in their schedulers. *)
Definition no_proc : proc := mk_proc 0 0 0 UNUSED 0 None (mk_tf 0 []) None false [].
Definition boot (w : W) (cs : nat -> cpu) : machine :=
  mk_machine (mk_state (fun _ => no_proc) None 1 w) cs (fun _ => User).
Definition start (es : list event) : M machine unit := do! on_kern userinit in run es.

Definition idle_cpus (cs : nat -> cpu) : Prop := forall c, cproc (cs c) = None /\ (scan (cs c) < NPROC)%nat.

Lemma first_process w cs d a nm : idle_cpus cs -> a <> 0 -> d <> 0 -> wok (fun _ => True) (fun q => q = a \/ False) (fun q => q = d \/ False) w ->
  Inv (mk_machine (mk_state (upd 0%nat (set_pstate RUNNABLE (mk_proc PGSIZE d a EMBRYO 1 None user_tf None false nm)) (fun _ => no_proc)) (Some 0%nat) 2 w) cs (fun _ => User)).
Proof.
  intros Hc Ha Hd Hw. set (v := set_pstate RUNNABLE _). split; cbn [kern cpus konts ptable initproc nextpid world].
  - split; [intros c; apply Hc|intros c p H; by rewrite (proj1 (Hc c)) in H|intros c c' p H; by rewrite (proj1 (Hc c)) in H|].
    intros p. destruct (decide (p = 0%nat)) as [->|?]; [by rewrite upd_eq|by rewrite upd_ne].
  - exists 0%nat. split; [done|]. split; intros; slot_cases; try done; try lia; try (unfold NPROC in *; lia).
  - assert (Hd' : forall p, hasdir (upd 0%nat v (fun _ => no_proc)) (fun _ => User) p <-> p = 0%nat).
    { intros p. unfold hasdir. destruct (decide (p = 0%nat)) as [->|?]; [rewrite upd_eq; cbn; tauto|]. rewrite upd_ne by done. cbn. split; [|done]. intros [?|(q & [?|?])]; done. }
    eapply World_intro; [exact Hw|done| | |intros p q Hp Hq _; apply Hd' in Hp, Hq; congruence].
    2: { intros q. cbn beta. split; [intros [->|[]]; exists 0%nat; rewrite upd_eq; split; [by apply Hd'|done]|]. intros (p & Hp & E). apply Hd' in Hp as ->. rewrite upd_eq in E. by left. }
    intros q. cbn beta. unfold stacks. split.
    + intros [->|[]]. split; [done|]. exists 0%nat. by rewrite upd_eq.
    + intros (H & p & Hp). left. destruct (decide (p = 0%nat)) as [->|?]; [by rewrite upd_eq in Hp|rewrite upd_ne in Hp by done]. cbn in Hp. congruence.
Qed.

Lemma on_world_ok {A} (m : M W A) s a w : m (world s) = Ok (a, w) -> on_world m s = Ok (a, mk_state (ptable s) (initproc s) (nextpid s) w).
Proof. intros H. unfold on_world, zoom. by rewrite H. Qed.

Lemma bind_on_world {A B} (m : M W A) (f : A -> M state B) s a w :
  m (world s) = Ok (a, w) -> (let! y := on_world m in f y) s = f a (mk_state (ptable s) (initproc s) (nextpid s) w).
Proof. intros H. apply bind_ok. by apply on_world_ok. Qed.

Lemma bind_on_world_err {A B} (m : M W A) (f : A -> M state B) s e : m (world s) = Err e -> (let! y := on_world m in f y) s = Err e.
Proof. intros H. unfold bind, on_world, zoom. by rewrite H. Qed.

(** Memory is too short for the first process: its stack, its page directory or
    its page cannot be had.  [f] is what userinit then ends with. *)
Definition boot_short (w : W) (f : fault) : Prop :=
  (exists w1, kalloc w = Ok (0, w1) /\ f = NullDeref) \/
  exists a w1, kalloc w = Ok (a, w1) /\
    ((exists w2, setupkvm w1 = Ok (0, w2) /\ f = Panic "userinit: out of memory?") \/
     exists d w2, setupkvm w1 = Ok (d, w2) /\ inituvm d w2 = Err f /\ f = NullDeref).

(** userinit sets up the first process, or runs out of memory. *)
Lemma userinit_ok w cs : idle_cpus cs -> wok (fun _ => True) (fun _ => False) (fun _ => False) w ->
  (exists x, on_kern userinit (boot w cs) = Ok (tt, x) /\ Inv x /\ nextpid (kern x) = 2) \/
  exists f, on_kern userinit (boot w cs) = Err f /\ boot_short w f.
Proof.
  intros Hc Hw. set (x0 := boot w cs).
  destruct (proj1 (wp_run _ _ _) (kalloc_law _ _ _ w Hw)) as (a & w1 & E1 & H1).
  pose (e := mk_proc 0 0 a EMBRYO 1 None (mk_tf 0 []) None false []).
  assert (Es : allocproc_slot (kern x0) = Ok (Some 0%nat, mk_state (upd 0%nat (set_kstack 0 e) (fun _ => no_proc)) None 2 w)).
  { unfold allocproc_slot. rewrite (bind_ok get _ _ _ _ eq_refl). change (find _ slots) with (Some 0%nat). cbv beta iota.
    rewrite (bind_ok _ _ _ _ _ (get_upd 0 _ _)). cbv beta. rewrite (bind_ok _ _ _ _ _ (get_upd 0 _ _)). cbn [ptable set_ptable kern x0 boot]. rewrite upd_eq, upd_upd. reflexivity. }
  assert (Ea : allocproc (kern x0) = Ok (if a =? 0 then None else Some 0%nat,
     mk_state (upd 0%nat (if a =? 0 then set_pstate UNUSED e else e) (fun _ => no_proc)) None 2 w1)).
  { assert (Et : allocproc_stack 0 (mk_state (upd 0%nat (set_kstack 0 e) (fun _ => no_proc)) None 2 w)
       = Ok (negb (a =? 0), mk_state (upd 0%nat (if a =? 0 then set_pstate UNUSED e else e) (fun _ => no_proc)) None 2 w1)).
    { unfold allocproc_stack. erewrite bind_on_world by exact E1. cbv beta.
      rewrite (bind_ok _ _ _ _ _ (get_upd 0 _ _)). cbn [ptable set_ptable initproc nextpid world]. rewrite upd_eq, upd_upd.
      destruct (Z.eqb_spec a 0) as [->|Hne]; [|reflexivity]. rewrite (bind_ok _ _ _ _ _ (get_upd 0 _ _)). cbn [ptable set_ptable initproc nextpid world]. by rewrite upd_eq, upd_upd. }
    unfold allocproc. rewrite (bind_ok _ _ _ _ _ Es). cbv beta iota. rewrite (bind_ok _ _ _ _ _ Et). by destruct (a =? 0). }
  unfold on_kern, zoom, userinit. rewrite (bind_ok _ _ _ _ _ Ea). cbv beta.
  destruct (Z.eqb_spec a 0) as [->|Ha]; [right; exists NullDeref; split; [reflexivity|left; by exists w1]|]. destruct H1 as [[? _]|(_ & _ & Hw1)]; [done|].
  destruct (proj1 (wp_run _ _ _) (setupkvm_law _ _ _ w1 Hw1)) as (d & w2 & E2 & Hw2').
  rewrite (bind_ok (modify _) _ _ tt _ eq_refl). cbv beta. rewrite (bind_ok (of_option NullDeref (Some 0%nat)) _ _ 0%nat _ eq_refl). cbv beta.
  erewrite bind_on_world by exact E2. cbv beta. rewrite (bind_ok _ _ _ _ _ (get_upd 0 _ _)). cbn [ptable set_ptable initproc nextpid world]. rewrite upd_eq, upd_upd.
  destruct (Z.eqb_spec d 0) as [->|Hd]; [right; eexists; split; [reflexivity|right; exists a, w1; split; [done|]; left; by exists w2]|]. destruct Hw2' as [[? _]|(_ & _ & Hw2)]; [done|].
  destruct (inituvm_law _ _ _ w2 d Hw2 ltac:(by left)) as [E3|H3].
  { right. exists NullDeref. split; [erewrite bind_on_world_err by exact E3; done|]. right. exists a, w1. split; [done|]. right. by exists d, w2. }
  left. destruct (proj1 (wp_run _ _ _) H3) as ([] & w3 & E3 & Hw3).
  destruct (proj1 (wp_run _ _ _) (root_dir_law _ _ _ w3 0%nat Hw3)) as ([] & w4 & E4 & Hw4).
  erewrite bind_on_world by exact E3. cbn [ptable set_ptable initproc nextpid world].
  do 3 (rewrite (bind_ok _ _ _ _ _ (get_upd 0 _ _)); cbn [ptable set_ptable initproc nextpid world]; rewrite upd_eq, upd_upd).
  erewrite bind_on_world by exact E4. rewrite get_upd. cbn [ptable set_ptable initproc nextpid world]. rewrite upd_eq, upd_upd.
  eexists. split; [reflexivity|]. split; [|done]. by apply (first_process w4 cs d a).
Qed.

(** After boot, however the processors take turns and whatever system calls
    processes make: no step panics or faults, unless there is no memory for the
    first process or that process exits. *)
Lemma start_sound w cs es : idle_cpus cs -> wok (fun _ => True) (fun _ => False) (fun _ => False) w -> Z.of_nat (length es) <= INT_MAX - 2 ->
  match start es (boot w cs) with
  | Ok (_, x) => Inv x
  | Err f => boot_short w f \/
      (f = Panic "init exiting" /\ exists x0, on_kern userinit (boot w cs) = Ok (tt, x0) /\ init_exits es x0)
  end.
Proof.
  intros Hc Hw Hn. unfold start, bind. destruct (userinit_ok w cs Hc Hw) as [(x & E & Ix & En)|(f & E & Hf)]; rewrite E; [|by left].
  destruct (run_inv_all es x Ix ltac:(rewrite En; lia)) as [(x' & Er & Ix')|[Er Hx]]; rewrite Er; [done|]. right. split; [done|]. by exists x.
Qed.

(** ** What the calls return *)

(** What is left of a process that has been waited for. *)
Definition freed (p : proc) : proc := mk_proc (sz p) (pgdir p) 0 UNUSED 0 None (tf p) (chan p) false [].

(** C31. wait, with the lock of the table held, releases it and returns or goes to
    sleep.  If a child is a zombie, its stack and its address space are given
    back, its slot is reset (no stack, number, parent or name, not killed, unused),
    its number is returned, and nothing else in the table changes.  Without
    children, or when the process was killed, -1 is returned and nothing changes.
    Otherwise only the calling process changes: it sleeps on itself. *)
Theorem wait_result x c me : Inv x -> cproc (cpus x c) = Some me ->
  let t := ptable (kern x) in
  let zombies := fun p => parent (t p) = Some me /\ pstate (t p) = ZOMBIE in
  exists r s', wait_round (switched true) me (kern x) = Ok (r, s') /\ initproc s' = initproc (kern x) /\ nextpid s' = nextpid (kern x) /\
    match r with
    | Some id =>
        (id = -1 /\ s' = kern x /\ (forall p, ~ zombies p) /\ ((forall p, parent (t p) <> Some me) \/ killed (t me) = true)) \/
        (0 < id /\ exists p w1, zombies p /\ id = pid (t p) /\ ptable s' p = freed (t p) /\ (forall q, q <> p -> ptable s' q = t q) /\
          kfree (kstack (t p)) (world (kern x)) = Ok (tt, w1) /\ freevm (pgdir (t p)) w1 = Ok (tt, world s'))
    | None => (forall p, ~ zombies p) /\ (exists p, parent (t p) = Some me) /\ killed (t me) = false /\ world s' = world (kern x) /\
        ptable s' me = set_pstate SLEEPING (set_chan (Some (ChProc me)) (t me)) /\ forall q, q <> me -> ptable s' q = t q
    end.
Proof.
  destruct x as [[t i n w] cs k]. intros [C (ini & Hi & I) Wk] Hc. cbn in *. subst i.
  destruct (me_running cs t k ini n C I c me Hc) as (Hr & _). assert (Ht := in_table t k ini n I). unfold wait_round.
  assert (Rg : forall q, parent (t q) = Some me -> In q slots) by (intros q Hq; apply slots_in, Ht; intros U; destruct (v_free _ _ _ _ I q U); congruence).
  destruct (wait_scan_ok me slots false (mk_state t (Some ini) n w)) as [(p & _ & Hp & Hz & E)|(b & E & Hz & Hb & Hf)]; cbn [ptable] in *.
  - destruct (v_born _ _ _ _ I p) as [Hs Hd]; [by rewrite Hz|]. assert (Hu : pstate (t p) <> UNUSED) by congruence. pose proof (v_pid _ _ _ _ I p Hu).
    destruct (proj1 (wp_run _ _ _) (kfree_law _ _ _ w (kstack (t p)) (proj2 Wk) ltac:(split; [done|by exists p]))) as ([] & w1 & E1 & W1).
    destruct (proj1 (wp_run _ _ _) (freevm_law _ _ _ w1 (pgdir (t p)) W1 ltac:(exists p; split; [left; by rewrite Hz|done]))) as ([] & w2 & E2 & W2).
    assert (Er : reap p (mk_state t (Some ini) n w) = Ok (pid (t p), mk_state (upd p (freed (t p)) t) (Some ini) n w2)).
    { unfold reap. rewrite (bind_ok (get_proc p) _ _ _ _ eq_refl). cbn [ptable]. erewrite bind_on_world by exact E1. rewrite (bind_ok _ _ _ _ _ (get_upd p _ _)).
      cbn [ptable set_ptable initproc nextpid world]. rewrite (proj2 (Z.eqb_neq _ 0)) by done. erewrite bind_on_world by exact E2. cbn [ptable set_ptable initproc nextpid world].
      do 5 (rewrite (bind_ok _ _ _ _ _ (get_upd p _ _)); cbn [ptable set_ptable initproc nextpid world]; rewrite upd_eq, upd_upd). done. }
    exists (Some (pid (t p))), (mk_state (upd p (freed (t p)) t) (Some ini) n w2). split; [unfold bind at 1; rewrite E, (bind_ok _ _ _ _ _ Er); done|].
    split; [done|]. split; [done|]. right. split; [lia|]. exists p, w1. cbn [ptable world]. rewrite upd_eq. do 3 (split; [done|]). split; [|done]. intros q Hq. by apply upd_ne.
  - rewrite (bind_ok _ _ _ _ _ E). cbv beta iota. rewrite (bind_ok (get_proc me) _ _ _ _ eq_refl). cbn [ptable].
    assert (Nz : forall p, ~ (parent (t p) = Some me /\ pstate (t p) = ZOMBIE)) by (intros p [A B]; by apply (Hz p (Rg p A) A)).
    destruct (negb b || killed (t me)) eqn:Eb.
    + eexists _, _. split; [reflexivity|]. split; [done|]. split; [done|]. left. do 3 (split; [done|]). apply orb_true_iff in Eb as [Eb|Eb]; [left|by right].
      apply negb_true_iff in Eb. destruct (Hf Eb) as [_ F]. intros p Hp. by apply (F p (Rg p Hp)).
    + apply orb_false_iff in Eb as [Eb Ek]. apply negb_false_iff in Eb. rewrite (bind_ok _ _ _ _ _ (sleep_ok me (ChProc me) _)).
      eexists _, _. split; [reflexivity|]. split; [done|]. split; [done|]. cbn [ptable set_ptable world]. rewrite upd_eq. split; [done|]. split; [destruct (Hb Eb) as [?|Hq]; done|].
      do 3 (split; [done|]). intros q Hq. by apply upd_ne.
Qed.


(** C30. No exit is missed: in every state reached from boot, a process asleep in
    wait has a child, and none of its children has exited. *)
Theorem wait_misses_no_exit w cs es x p :
  idle_cpus cs -> wok (fun _ => True) (fun _ => False) (fun _ => False) w -> Z.of_nat (length es) <= INT_MAX - 2 ->
  start es (boot w cs) = Ok (tt, x) -> pstate (ptable (kern x) p) = SLEEPING -> chan (ptable (kern x) p) = Some (ChProc p) ->
  (exists q, parent (ptable (kern x) q) = Some p) /\
  forall q, parent (ptable (kern x) q) = Some p -> pstate (ptable (kern x) q) <> ZOMBIE.
Proof.
  intros Hc Hw Hn E Hs Hp. pose proof (start_sound w cs es Hc Hw Hn) as H. rewrite E in H. destruct H as [_ (ini & _ & I) _].
  destruct (v_sleep _ _ _ _ I p Hs) as [(_ & a & A)|(_ & _ & B)]; [congruence|done].
Qed.

(** fork: the new process has the number handed out next and copies of the
    parent's size, registers and name, returns 0 there, and keeps the killed
    flag its slot had; or -1, when nobody's state changes and there is no slot or
    no memory. *)
Definition forked (t : nat -> proc) (n : Z) (me np : nat) (d a : Z) : proc :=
  mk_proc (sz (t me)) d a RUNNABLE n (Some me) (mk_tf 0 (regs (tf (t me)))) (chan (t np)) (killed (t np)) (take 15 (name (t me))).
Definition first_free t : option nat := find (fun i => bool_decide (pstate (t i) = UNUSED)) slots.

Lemma fork_result x c me : Inv x -> cproc (cpus x c) = Some me -> nextpid (kern x) < INT_MAX ->
  let t := ptable (kern x) in
  wp (fork me) (fun r s' =>
      (r = -1 /\ (forall p, pstate (ptable s' p) = pstate (t p)) /\
        (first_free t = None \/ (exists w1, kalloc (world (kern x)) = Ok (0, w1)) \/
         exists a w1 w2, kalloc (world (kern x)) = Ok (a, w1) /\ copyuvm (pgdir (t me)) (sz (t me)) w1 = Ok (0, w2))) \/
      (exists np d a, first_free t = Some np /\ r = nextpid (kern x) /\ d <> 0 /\ a <> 0 /\
         ptable s' np = forked t r me np d a /\ forall q, q <> np -> ptable s' q = t q)) (kern x).
Proof.
  destruct x as [[t i n w] cs k]. intros [C (ini & Hi & I) Wk] Hc Hn. cbn [kern ptable initproc nextpid world cpus konts] in *. subst i.
  destruct (me_running cs t k ini n C I c me Hc) as (Hr & _ & Hl & Hb). pose proof (npid_pos t k ini n I) as H0.
  unfold fork, allocproc, allocproc_slot. wp_kern. fold (first_free t). destruct (first_free t) as [np|] eqn:E; wp_kern; [|left; auto].
  apply find_some in E as [Hin Hu]. apply slots_in in Hin. apply bool_decide_eq_true in Hu. assert (Hne : me <> np) by congruence.
  split; [apply int_range_spec; unfold INT_MIN in *; lia|]. unfold allocproc_stack. wp_kern.
  assert (Same : forall v, pstate v = UNUSED -> forall p, pstate (upd np v t p) = pstate (t p)).
  { intros v Hv p. destruct (decide (p = np)) as [->|?]; [rewrite upd_eq; congruence|by rewrite upd_ne]. }
  destruct (proj1 (wp_run _ _ _) (kalloc_law _ _ _ w (proj2 Wk))) as (a & w1 & Ea & Ha). rewrite (wp_eq _ _ _ _ _ Ea). destruct Ha as [[-> W1]|(Ha & Hns & W1)]; wp_kern.
  { cbn [Z.eqb]. wp_kern. left. split; [done|]. split; [by apply Same|]. right. left. by exists w1. }
  rewrite (proj2 (Z.eqb_neq a 0)) by done. wp_kern. unfold fork_vm. wp_kern. rewrite (upd_ne np me) by done.
  destruct (proj1 (wp_run _ _ _) (copyuvm_law _ _ _ w1 (pgdir (t me)) (sz (t me)) W1 ltac:(exists me; split; [by left|done]))) as (d & w2 & Ed & Hd).
  rewrite (wp_eq _ _ _ _ _ Ed). destruct Hd as [[-> W2]|(Hd & Nd & W2)]; wp_kern; [cbn [Z.eqb]; wp_kern|rewrite (proj2 (Z.eqb_neq d 0)) by done; wp_kern].
  { eapply wp_mono; [apply (kfree_law _ _ _ w2 a W2); by left|]. cbn beta. intros _ w3 W3. wp_kern. left. split; [done|]. split; [by apply Same|]. right. right. by exists a, w1, w2. }
  unfold fork_files. wp_kern.
  eapply wp_mono; [by apply (dup_files_law _ _ _ w2 me np W2); [left|..]|]. cbn beta. intros _ w3 W3. wp_kern. rewrite (upd_ne np me) by done. unfold fork_run. wp_kern.
  right. exists np, d, a. rewrite upd_eq.
  cbn [set_pstate set_name set_tf set_parent set_sz set_pgdir set_kstack set_pid sz pgdir kstack pstate pid parent tf chan killed name regs eax].
  do 5 (split; [done|]). intros q Hq. by apply upd_ne.
Qed.

(** C40. kill does not check that a slot is in use: kill(0) succeeds by marking
    the first free slot, if that was never used or has been waited for, and the
    next process that fork creates there, when there is memory for it, is killed
    from the beginning. *)
Theorem kill_zero_kills_next_child x c me p a w1 d w2 : Inv x -> cproc (cpus x c) = Some me -> nextpid (kern x) < INT_MAX ->
  first_free (ptable (kern x)) = Some p -> pid (ptable (kern x) p) = 0 ->
  kalloc (world (kern x)) = Ok (a, w1) -> a <> 0 -> copyuvm (pgdir (ptable (kern x) me)) (sz (ptable (kern x) me)) w1 = Ok (d, w2) -> d <> 0 ->
  exists s1 r s2, kill 0 (kern x) = Ok (0, s1) /\ fork me s1 = Ok (r, s2) /\
    r = nextpid (kern x) /\ pid (ptable s2 p) = r /\ parent (ptable s2 p) = Some me /\ pstate (ptable s2 p) = RUNNABLE /\ killed (ptable s2 p) = true.
Proof.
  destruct x as [[t i n w] cs k]. intros [C (ini & Hi & I) Wk] Hc Hn Hf Hp Ea Ha Ed Hd. cbn [kern ptable initproc nextpid world cpus konts] in *. subst i.
  set (s := mk_state t (Some ini) n w). unfold first_free in Hf. pose proof Hf as Hf'. apply find_some in Hf' as [Hin Hu]. apply bool_decide_eq_true in Hu.
  assert (K : forall l, find (fun i => bool_decide (pstate (t i) = UNUSED)) l = Some p ->
     kill_from l 0 s = Ok (0, set_ptable (upd p (set_killed true (t p)) t) s)).
  { induction l as [|q l IH]; intros Hl; [done|]. cbn [kill_from find] in *. rewrite (bind_ok (get_proc q) _ s (t q) s eq_refl). cbv beta.
    destruct (bool_decide_reflect (pstate (t q) = UNUSED)) as [Hq|Hq].
    - injection Hl as ->. rewrite Hp. cbn [Z.eqb]. rewrite (bind_ok _ _ _ _ _ (get_upd p _ s)), bool_decide_false by congruence. done.
    - pose proof (v_pid _ _ _ _ I q Hq). rewrite (proj2 (Z.eqb_neq _ 0)) by lia. by apply IH. }
  set (t1 := upd p (set_killed true (t p)) t). exists (set_ptable t1 s).
  assert (S : similar t t1) by (apply similar_upd; try done; by left).
  assert (I1 : Inv (mk_machine (set_ptable t1 s) cs k)).
  { split; cbn; [|exists ini; split; [done|by apply (TabInv_similar t)]|by apply (World_similar t)].
    apply (CpuInv_same cs t); [|done]. intros q. unfold t1. destruct (decide (q = p)) as [->|?]; [by rewrite upd_eq|by rewrite upd_ne]. }
  assert (Et : first_free t1 = first_free t).
  { unfold first_free. assert (B : forall l, find (fun i => bool_decide (pstate (t1 i) = UNUSED)) l = find (fun i => bool_decide (pstate (t i) = UNUSED)) l);
      [|apply B]. induction l as [|q l IH]; [done|]. cbn [find]. rewrite IH. unfold t1. destruct (decide (q = p)) as [->|?]; [by rewrite upd_eq|by rewrite upd_ne]. }
  assert (Hm : t1 me = t me). { destruct (me_running cs t k ini n C I c me Hc) as (Hr & _). unfold t1. apply upd_ne. congruence. }
  destruct (proj1 (wp_run _ _ _) (fork_result _ c me I1 Hc Hn)) as (r & s2 & Er2 & Hfr). exists r, s2. split; [by apply K|]. split; [exact Er2|].
  destruct Hfr as [(_ & _ & Hfail)|(np & d' & a' & E & Er & _ & _ & Ef & _)].
  { exfalso. cbn [ptable kern set_ptable s world] in Hfail. rewrite Et, Hm, Ea in Hfail. unfold first_free in Hfail. rewrite Hf in Hfail.
    destruct Hfail as [?|[(? & ?)|(a' & w1' & w2' & Ea' & Ed')]]; [done|congruence|]. injection Ea' as <- <-. congruence. }
  cbn [ptable kern set_ptable s] in E. rewrite Et in E. unfold first_free in E. rewrite Hf in E. injection E as <-. rewrite Ef. cbn. unfold t1. rewrite upd_eq. done.
Qed.
End inv.

(** ** A small kernel

    Pages are a stack; address spaces and open files take no memory. *)
#[export] Instance demo_kernel : Kernel (list Z) := {|
  kalloc := fun w => match w with [] => Ok (0, []) | p :: w => Ok (p, w) end;
  kfree := fun p w => Ok (tt, p :: w);
  copyuvm := fun _ _ w => match w with [] => Ok (0, []) | p :: w => Ok (p, w) end;
  freevm := fun p w => Ok (tt, p :: w);
  setupkvm := fun w => match w with [] => Ok (0, []) | p :: w => Ok (p, w) end;
  inituvm := fun _ => ret tt;
  allocuvm := fun _ _ n => ret n;
  deallocuvm := fun _ _ n => ret n;
  root_dir := fun _ => ret tt;
  dup_files := fun _ _ => ret tt;
  close_files := fun _ => ret tt
|}.
(** A directory is the page it was allocated from. *)
Definition pages_ok (E : nat -> Prop) (P D : Z -> Prop) (w : list Z) : Prop :=
  NoDup w /\ 0 ∉ w /\ (forall p, P p \/ D p -> p <> 0 /\ p ∉ w) /\ forall p, P p -> ~ D p.

(** Taking a page and giving one back. *)
Lemma pages_take E P D p w : pages_ok E P D (p :: w) -> p <> 0 /\ ~ P p /\ ~ D p /\ pages_ok E (fun q => q = p \/ P q) D w /\ pages_ok E P (fun q => q = p \/ D q) w.
Proof.
  intros (H1 & H2 & H3 & H4). apply NoDup_cons in H1 as [H1 H1']. apply not_elem_of_cons in H2 as [H2 H2'].
  assert (Np : ~ P p /\ ~ D p) by (split; intros Hp; destruct (H3 p ltac:(auto)) as [_ Hn]; apply Hn; by left).
  assert (R : forall q, P q \/ D q -> q <> 0 /\ q ∉ w) by (intros q Hq; destruct (H3 q Hq) as [Hz Hn]; split; [done|intros Hw; apply Hn; by right]).
  destruct Np as [Np Nd]. do 3 (split; [done|]). split; (split; [done|]; split; [done|]; split).
  - intros q [[->|Hq]|Hq]; auto.
  - intros q [->|Hq]; auto.
  - intros q [Hq|[->|Hq]]; auto.
  - intros q Hq [->|Hd]; [done|]. by apply (H4 q).
Qed.
Lemma pages_give E P D p w : pages_ok E P D w -> P p \/ D p -> pages_ok E (fun q => q <> p /\ P q) (fun q => q <> p /\ D q) (p :: w).
Proof.
  intros (H1 & H2 & H3 & H4) Hp. destruct (H3 p Hp) as [Hz Hn]. split; [by apply NoDup_cons|]. split; [apply not_elem_of_cons; done|]. split.
  - intros q Hq. assert (A : q <> p /\ (P q \/ D q)) by tauto. destruct A as [A B]. destruct (H3 q B). split; [done|]. by apply not_elem_of_cons.
  - intros q [_ Hq] [_ Hd]. by apply (H4 q).
Qed.
Lemma pages_ext E E' P P' D D' w : (forall p, P p <-> P' p) -> (forall p, D p <-> D' p) -> pages_ok E P D w -> pages_ok E' P' D' w.
Proof.
  intros HP HD (H1 & H2 & H3 & H4). split; [done|]. split; [done|]. split; [intros p Hp; apply H3; by rewrite HP, HD|]. intros p. rewrite <- HP, <- HD. apply H4.
Qed.
#[export] Instance demo_kernel_laws : KernelLaws (list Z).
Proof.
  refine {| wok := pages_ok |}; try done; unfold wp; cbn.
  - intros E E' P P' D D' w _. apply pages_ext.
  - intros E P D [|p w] H; [by left|right]. by destruct (pages_take _ _ _ _ _ H) as (? & ? & _ & ? & _).
  - intros E P D w p H Hp. eapply pages_ext; [| |apply (pages_give _ _ _ p _ H); by left]; [done|]. intros q. split; [tauto|]. intros Hq. split; [|done].
    intros ->. destruct H as (_ & _ & _ & H). by apply (H p).
  - intros E P D [|p w] H; [by left|right]. by destruct (pages_take _ _ _ _ _ H) as (? & _ & ? & _ & ?).
  - intros E P D [|p w] d _ H _; [by left|right]. by destruct (pages_take _ _ _ _ _ H) as (? & _ & ? & _ & ?).
  - intros E P D w d H Hd. eapply pages_ext; [| |apply (pages_give _ _ _ d _ H); by right]; [|done]. intros q. split; [tauto|]. intros Hq. split; [|done].
    intros ->. destruct H as (_ & _ & _ & H). by apply (H d).
  - intros. by right.
Defined.

(** Two processors; the first process forks and the child exits. *)
Definition demo_cpus : nat -> cpu := fun _ => mk_cpu None 0.
Definition demo_boot := boot [4096; 8192; 12288; 16384; 20480] demo_cpus.
Definition demo_fork : list event := [Go 0; Call 0 SFork; Go 0; Go 0; Go 0; Go 0].
Definition demo_wait : list event := demo_fork ++ [Go 1; Call 0 SWait; Go 1; Call 1 (SKill 7)].
Definition demo_exit : list event := demo_fork ++ [Go 1; Go 1; Call 1 SExit; Go 1].
Definition result (es : list event) : machine (W := list Z) :=
  match start es demo_boot with Ok (_, x) => x | Err _ => demo_boot end.
Lemma demo_cpus_idle : idle_cpus demo_cpus.
Proof. intros c. split; [done|]. unfold NPROC. simpl. lia. Qed.
Lemma demo_pages : wok (fun _ => True) (fun _ => False) (fun _ => False) [4096; 8192; 12288; 16384; 20480].
Proof. split; [|split; [|split; [naive_solver|done]]]; [apply (bool_decide_eq_true_1 _); vm_compute; reflexivity|]. rewrite !elem_of_cons, elem_of_nil. lia. Qed.
Lemma demo_inv es : Z.of_nat (length es) <= INT_MAX - 2 -> (match start es demo_boot with Ok _ => true | Err _ => false end) = true -> Inv (result es).
Proof.
  intros Hn E. pose proof (start_sound [4096; 8192; 12288; 16384; 20480] demo_cpus es demo_cpus_idle demo_pages Hn) as H. unfold result. fold demo_boot in H.
  by destruct (start es demo_boot) as [[[] x]|f].
Qed.


Lemma wait_misses_no_exit_witness :
  (exists q, parent (ptable (kern (result demo_wait)) q) = Some 0%nat) /\
  forall q, parent (ptable (kern (result demo_wait)) q) = Some 0%nat -> pstate (ptable (kern (result demo_wait)) q) <> ZOMBIE.
Proof.
  apply (wait_misses_no_exit [4096; 8192; 12288; 16384; 20480] demo_cpus demo_wait (result demo_wait) 0 demo_cpus_idle demo_pages).
  - vm_compute. discriminate.
  - change (boot [4096; 8192; 12288; 16384; 20480] demo_cpus) with demo_boot. unfold result. destruct (start demo_wait demo_boot) as [[[] x]|f] eqn:E; [reflexivity|].
    exfalso. apply (f_equal (fun r => match r with Ok _ => true | Err _ => false end)) in E. vm_compute in E. discriminate.
  - vm_compute. reflexivity.
  - vm_compute. reflexivity.
Defined.

Lemma wait_result_witness :
  exists r s', wait_round (switched true) 0 (kern (result demo_exit)) = Ok (r, s') /\ r = Some 2 /\
    ptable s' 1%nat = freed (ptable (kern (result demo_exit)) 1%nat) /\ world s' = [16384; 12288; 20480].
Proof.
  destruct (wait_result (result demo_exit) 0 0 (demo_inv demo_exit ltac:(vm_compute; discriminate) ltac:(vm_compute; reflexivity)) ltac:(vm_compute; reflexivity)) as (r & s' & E & _).
  exists r, s'. split; [exact E|]. pose (view := fun y : res (option Z * state (W := list Z)) => match y with Ok (r, s) => (r, ptable s 1%nat, world s) | Err _ => (None, no_proc, []) end).
  assert (E0 : view (wait_round (switched true) 0 (kern (result demo_exit))) = (Some 2, freed (ptable (kern (result demo_exit)) 1%nat), [16384; 12288; 20480])) by (vm_compute; reflexivity).
  rewrite E in E0. split; [exact (f_equal (fun z => fst (fst z)) E0)|]. split; [exact (f_equal (fun z => snd (fst z)) E0)|exact (f_equal snd E0)].
Defined.

(** With two more pages: the process that is created is marked. *)
Definition rich_pages : list Z := [4096; 8192; 12288; 16384; 20480; 24576].
Definition rich : machine (W := list Z) := match start demo_fork (boot rich_pages demo_cpus) with Ok (_, x) => x | Err _ => demo_boot end.
Lemma rich_ok : wok (fun _ => True) (fun _ => False) (fun _ => False) rich_pages.
Proof. split; [|split; [|split; [naive_solver|done]]]; [apply (bool_decide_eq_true_1 _); vm_compute; reflexivity|]. unfold rich_pages. rewrite !elem_of_cons, elem_of_nil. lia. Qed.
Lemma rich_inv : Inv rich.
Proof.
  pose proof (start_sound rich_pages demo_cpus demo_fork demo_cpus_idle rich_ok ltac:(vm_compute; discriminate)) as H. unfold rich.
  destruct (start demo_fork (boot rich_pages demo_cpus)) as [[[] x]|f] eqn:E; [done|]. exfalso.
  apply (f_equal (fun r => match r with Ok _ => true | Err _ => false end)) in E. vm_compute in E. discriminate.
Qed.

Lemma kill_zero_kills_next_child_witness :
  exists s1 r s2, kill 0 (kern rich) = Ok (0, s1) /\ fork 0 s1 = Ok (r, s2) /\ r = 3 /\
    pid (ptable s2 2%nat) = r /\ parent (ptable s2 2%nat) = Some 0%nat /\ pstate (ptable s2 2%nat) = RUNNABLE /\ killed (ptable s2 2%nat) = true.
Proof.
  apply (kill_zero_kills_next_child rich 0 0 2 20480 [24576] 24576 [] rich_inv); vm_compute; try reflexivity; discriminate.
Defined.
End Proc.
