(* ===== verification/Fs.v ===== *)
(** * Fs: blocks, inodes, directories and paths of xv6

    fs.c over the log of Log.v and the buffer cache of Bio.v: the block
    allocator, the inode cache, the contents of files, directories and path
    names.  Structures on disk are read and written in the bytes of their block.
    The code runs in one process: the spin lock of the inode cache is always
    free, and a sleep lock that is taken is never released by anyone else.  A
    [struct inode *] is an index of the cache, a null pointer [None].  Strings
    are lists of characters, read as a zero past their end.  The table of
    devices, which drivers fill in, is an argument of the calls that use it. *)
From stdpp Require Import base list gmap strings.
From Stdlib Require Import ZArith Lia.
From S2P Require Import Prelude Bio Log.
Import Bio Log.

Module Fs.

Definition ROOTDEV : Z := 1.
Definition ROOTINO : Z := 1.
Definition NINODE : Z := 50.
Definition NDEV : Z := 10.
Definition NDIRECT : Z := 12.
Definition NINDIRECT : Z := BSIZE / 4.
Definition MAXFILE : Z := NDIRECT + NINDIRECT.
Definition sizeof_dinode : Z := 64.
Definition IPB : Z := BSIZE / sizeof_dinode.
Definition BPB : Z := BSIZE * 8.
Definition DIRSIZ : nat := 14.
Definition sizeof_dirent : Z := 16.
Definition T_DIR : Z := 1.
Definition T_FILE : Z := 2.
Definition T_DEV : Z := 3.

Record superblock := mk_sb {
  sb_size : Z;
  nblocks : Z;
  ninodes : Z;
  nlog : Z;
  logstart : Z;
  inodestart : Z;
  bmapstart : Z
}.

Record inode := mk_inode {
  idev : Z;
  inum : Z;
  iref : Z;
  ilk : sleeplock;
  valid : bool;
  type : Z;
  major : Z;
  minor : Z;
  nlink : Z;
  isize : Z;
  addrs : list Z
}.

Record fs := mk_fs { kern : kernel; icache : list inode; sb : superblock }.

Record stat := mk_stat { st_type : Z; st_dev : Z; st_ino : Z; st_nlink : Z; st_size : Z }.

Definition IBLOCK (i : Z) (sb : superblock) : Z := i / IPB + inodestart sb.
Definition BBLOCK (b : Z) (sb : superblock) : Z := b / BPB + bmapstart sb.

(** ** Integers in the bytes of a block *)

Definition getu32 (d : list Z) (o : nat) : Z := u32 (get32 d o).
Definition getu16 (d : list Z) (o : nat) : Z := d !!! o + 256 * (d !!! S o).
Definition i16 (x : Z) : Z := (x + 2 ^ 15) mod 2 ^ 16 - 2 ^ 15.
Definition get16 (d : list Z) (o : nat) : Z := i16 (getu16 d o).
Definition put16 (d : list Z) (o : nat) (v : Z) : list Z := <[o := v mod 256]> (<[S o := v / 256 mod 256]> d).

(** [memmove(d + o, l, length l)]. *)
Definition put_bytes (d : list Z) (o : nat) (l : list Z) : list Z := take o d ++ l ++ drop (o + length l) d.

Fixpoint get32s (n : nat) (d : list Z) (o : nat) : list Z :=
  match n with
  | O => []
  | S n => getu32 d o :: get32s n d (o + 4)
  end.
Fixpoint put32s (d : list Z) (o : nat) (l : list Z) : list Z :=
  match l with
  | [] => d
  | v :: l => put32s (put32 d o v) (o + 4) l
  end.

(** ** State *)

Definition set_kern (k : kernel) (s : fs) : fs := mk_fs k (icache s) (sb s).
Definition set_icache (l : list inode) (s : fs) : fs := mk_fs (kern s) l (sb s).
Definition on_kern {A} (m : M kernel A) : M fs A := zoom kern set_kern m.

Definition set_lk (l : sleeplock) (p : inode) : inode :=
  mk_inode (idev p) (inum p) (iref p) l (valid p) (type p) (major p) (minor p) (nlink p) (isize p) (addrs p).
Definition set_ref (n : Z) (p : inode) : inode :=
  mk_inode (idev p) (inum p) n (ilk p) (valid p) (type p) (major p) (minor p) (nlink p) (isize p) (addrs p).
Definition set_valid (v : bool) (p : inode) : inode :=
  mk_inode (idev p) (inum p) (iref p) (ilk p) v (type p) (major p) (minor p) (nlink p) (isize p) (addrs p).
Definition set_type (t : Z) (p : inode) : inode :=
  mk_inode (idev p) (inum p) (iref p) (ilk p) (valid p) t (major p) (minor p) (nlink p) (isize p) (addrs p).
Definition set_nlink (n : Z) (p : inode) : inode :=
  mk_inode (idev p) (inum p) (iref p) (ilk p) (valid p) (type p) (major p) (minor p) n (isize p) (addrs p).
Definition set_devno (a b : Z) (p : inode) : inode :=
  mk_inode (idev p) (inum p) (iref p) (ilk p) (valid p) (type p) a b (nlink p) (isize p) (addrs p).
Definition set_size (n : Z) (p : inode) : inode :=
  mk_inode (idev p) (inum p) (iref p) (ilk p) (valid p) (type p) (major p) (minor p) (nlink p) n (addrs p).
Definition set_addrs (l : list Z) (p : inode) : inode :=
  mk_inode (idev p) (inum p) (iref p) (ilk p) (valid p) (type p) (major p) (minor p) (nlink p) (isize p) l.

Definition get_inode (i : nat) : M fs inode := let! s := get in of_option OutOfBounds (icache s !! i).
Definition upd_inode (i : nat) (f : inode -> inode) : M fs unit := modify (fun s => set_icache (alter f i (icache s)) s).
Definition get_addr (i : nat) (bn : Z) : M fs Z :=
  let! p := get_inode i in of_option OutOfBounds (znth (addrs p) bn).
Definition put_addr (i : nat) (bn v : Z) : M fs unit :=
  upd_inode i (fun p => set_addrs (<[Z.to_nat bn := v]> (addrs p)) p).

(** Calls of the layers below. *)
Definition bread (dev n : Z) : M fs nat := on_kern (bread_ dev n).
Definition brelse (b : nat) : M fs unit := on_kern (brelse_ b).
Definition data (b : nat) : M fs (list Z) := on_kern (buf_data b).
Definition modify_data (b : nat) (f : list Z -> list Z) : M fs unit := on_kern (buf_update b f).
Definition log_write (b : nat) : M fs unit := on_kern (Log.log_write b).

(** ** Blocks *)

Definition get_sb (d : list Z) : superblock :=
  mk_sb (getu32 d 0) (getu32 d 4) (getu32 d 8) (getu32 d 12) (getu32 d 16) (getu32 d 20) (getu32 d 24).

Definition readsb (dev : Z) : M fs superblock :=
  let! bp := bread dev 1 in
  let! d := data bp in
  do! brelse bp in
  ret (get_sb d).

Definition bzero (dev bno : Z) : M fs unit :=
  let! bp := bread dev bno in
  do! modify_data bp (fun _ => zero_block) in
  do! log_write bp in
  brelse bp.

(** [data[bi/8] & (1 << (bi % 8))] is not zero. *)
Definition bit_set (d : list Z) (bi : Z) : bool :=
  negb (Z.land (d !!! Z.to_nat (bi / 8)) (Z.shiftl 1 (bi mod 8)) =? 0).
Definition mark (bi : Z) (d : list Z) : list Z :=
  <[Z.to_nat (bi / 8) := Z.lor (d !!! Z.to_nat (bi / 8)) (Z.shiftl 1 (bi mod 8))]> d.
Definition unmark (bi : Z) (d : list Z) : list Z :=
  <[Z.to_nat (bi / 8) := Z.land (d !!! Z.to_nat (bi / 8)) (Z.lnot (Z.shiftl 1 (bi mod 8)))]> d.

(** The inner loop of balloc from bit [bi], of which [n] remain. *)
Fixpoint scan (n : nat) (d : list Z) (size b bi : Z) : option Z :=
  match n with
  | O => None
  | S n => if b + bi <? size then
             if bit_set d bi then scan n d size b (bi + 1) else Some bi
           else None
  end.

Fixpoint balloc_from (fuel : nat) (dev b : Z) : M fs Z :=
  match fuel with
  | O => fail OutOfFuel
  | S fuel =>
      let! s := get in
      if b <? sb_size (sb s) then
        let! bp := bread dev (BBLOCK b (sb s)) in
        let! d := data bp in
        match scan (Z.to_nat BPB) d (sb_size (sb s)) b 0 with
        | Some bi =>
            do! modify_data bp (mark bi) in
            do! log_write bp in
            do! brelse bp in
            do! bzero dev (b + bi) in
            ret (b + bi)
        | None =>
            do! brelse bp in
            let! b := chk_int (b + BPB) in
            balloc_from fuel dev b
        end
      else fail (Panic "balloc: out of blocks")
  end.
Definition balloc (dev : Z) : M fs Z :=
  let! s := get in balloc_from (S (S (Z.to_nat (sb_size (sb s) / BPB)))) dev 0.

Definition bfree (dev b : Z) : M fs unit :=
  let! s := get in
  let! bp := bread dev (BBLOCK b (sb s)) in
  let bi := b mod BPB in
  let! d := data bp in
  if bit_set d bi then
    do! modify_data bp (unmark bi) in
    do! log_write bp in
    brelse bp
  else fail (Panic "freeing free block").

(** ** Sleep locks of inodes *)

Definition acquiresleep (i : nat) : M fs unit :=
  let! p := get_inode i in
  if locked (ilk p) then fail OutOfFuel else
  let! s := get in
  upd_inode i (set_lk (mk_lock true (cur_pid (bio (kern s))))).
Definition releasesleep (i : nat) : M fs unit := upd_inode i (set_lk (mk_lock false 0)).
Definition holdingsleep (i : nat) : M fs bool :=
  let! p := get_inode i in
  let! s := get in
  ret (locked (ilk p) && (pid (ilk p) =? cur_pid (bio (kern s)))).

(** ** Inodes *)

Fixpoint iinit_from (n i : nat) : M fs unit :=
  match n with
  | O => ret tt
  | S n => do! upd_inode i (set_lk (mk_lock false 0)) in iinit_from n (S i)
  end.
(** The line printed on the console is left out. *)
Definition iinit (dev : Z) : M fs unit :=
  do! iinit_from (Z.to_nat NINODE) 0 in
  let! sb := readsb dev in
  modify (fun s => mk_fs (kern s) (icache s) sb).

(** The first entry that holds the inode, and the first one that is free. *)
Fixpoint iget_scan (l : list inode) (dev n : Z) (i : nat) (empty : option nat) : option nat * option nat :=
  match l with
  | [] => (None, empty)
  | p :: l =>
      if (0 <? iref p) && (idev p =? dev) && (inum p =? n) then (Some i, empty)
      else iget_scan l dev n (S i) (match empty with None => if iref p =? 0 then Some i else None | _ => empty end)
  end.

Definition iget (dev n : Z) : M fs nat :=
  let! s := get in
  match iget_scan (icache s) dev n 0 None with
  | (Some i, _) =>
      let! p := get_inode i in
      let! r := chk_int (iref p + 1) in
      do! upd_inode i (set_ref r) in
      ret i
  | (None, None) => fail (Panic "iget: no inodes")
  | (None, Some i) =>
      do! upd_inode i (fun p => mk_inode dev n 1 (ilk p) false (type p) (major p) (minor p) (nlink p) (isize p) (addrs p)) in
      ret i
  end.

Definition idup (i : nat) : M fs nat :=
  let! p := get_inode i in
  let! r := chk_int (iref p + 1) in
  do! upd_inode i (set_ref r) in
  ret i.

(** Where inode [n] is in its block. *)
Definition dinode_off (n : Z) : nat := Z.to_nat (n mod IPB * sizeof_dinode).

(** [memset(dip, 0, sizeof( *dip)); dip->type = type]. *)
Definition clear_dinode (o : nat) (t : Z) (d : list Z) : list Z :=
  put16 (put_bytes d o (replicate (Z.to_nat sizeof_dinode) 0)) o t.

Fixpoint ialloc_from (fuel : nat) (dev t n : Z) : M fs nat :=
  match fuel with
  | O => fail OutOfFuel
  | S fuel =>
      let! s := get in
      if n <? ninodes (sb s) then
        let! bp := bread dev (IBLOCK n (sb s)) in
        let! d := data bp in
        if get16 d (dinode_off n) =? 0 then
          do! modify_data bp (clear_dinode (dinode_off n) t) in
          do! log_write bp in
          do! brelse bp in
          iget dev n
        else
          do! brelse bp in
          let! n := chk_int (n + 1) in
          ialloc_from fuel dev t n
      else fail (Panic "ialloc: no inodes")
  end.
Definition ialloc (dev t : Z) : M fs nat :=
  let! s := get in ialloc_from (S (Z.to_nat (ninodes (sb s)))) dev t 1.

(** The stores into the dinode at byte [o]. *)
Definition put_dinode (o : nat) (p : inode) (d : list Z) : list Z :=
  put32s (put32 (put16 (put16 (put16 (put16 d o (type p)) (o + 2) (major p)) (o + 4) (minor p)) (o + 6) (nlink p))
    (o + 8) (isize p)) (o + 12) (addrs p).

Definition iupdate (i : nat) : M fs unit :=
  let! p := get_inode i in
  let! s := get in
  let! bp := bread (idev p) (IBLOCK (inum p) (sb s)) in
  do! modify_data bp (put_dinode (dinode_off (inum p)) p) in
  do! log_write bp in
  brelse bp.

(** The loads from the dinode at byte [o]. *)
Definition get_dinode (o : nat) (d : list Z) (p : inode) : inode :=
  mk_inode (idev p) (inum p) (iref p) (ilk p) (valid p) (get16 d o) (get16 d (o + 2)) (get16 d (o + 4)) (get16 d (o + 6))
    (getu32 d (o + 8)) (get32s (Z.to_nat NDIRECT + 1) d (o + 12)).

Definition ilock (ip : option nat) : M fs unit :=
  match ip with
  | None => fail (Panic "ilock")
  | Some i =>
      let! p := get_inode i in
      if iref p <? 1 then fail (Panic "ilock") else
      do! acquiresleep i in
      if valid p then ret tt else
      let! s := get in
      let! bp := bread (idev p) (IBLOCK (inum p) (sb s)) in
      let! d := data bp in
      do! upd_inode i (get_dinode (dinode_off (inum p)) d) in
      do! brelse bp in
      do! upd_inode i (set_valid true) in
      let! p := get_inode i in
      if type p =? 0 then fail (Panic "ilock: no type") else ret tt
  end.

Definition iunlock (ip : option nat) : M fs unit :=
  match ip with
  | None => fail (Panic "iunlock")
  | Some i =>
      let! h := holdingsleep i in
      if negb h then fail (Panic "iunlock") else
      let! p := get_inode i in
      if iref p <? 1 then fail (Panic "iunlock") else
      releasesleep i
  end.

(** ** Contents *)

(** [a[bn]] in the indirect block at [addr]. *)
Definition bmap_entry (dev bn addr : Z) : M fs Z :=
  let! bp := bread dev addr in
  let! a := data bp in
  let addr := getu32 a (Z.to_nat (4 * bn)) in
  let! addr := (if addr =? 0 then
                  let! addr := balloc dev in
                  do! modify_data bp (fun a => put32 a (Z.to_nat (4 * bn)) addr) in
                  do! log_write bp in
                  ret addr
                else ret addr) in
  do! brelse bp in
  ret addr.

Definition bmap (i : nat) (bn : Z) : M fs Z :=
  let! p := get_inode i in
  if bn <? NDIRECT then
    let! addr := get_addr i bn in
    if addr =? 0 then
      let! addr := balloc (idev p) in
      do! put_addr i bn addr in
      ret addr
    else ret addr
  else
    let bn := bn - NDIRECT in
    if bn <? NINDIRECT then
      let! addr := get_addr i NDIRECT in
      let! addr := (if addr =? 0 then
                      let! addr := balloc (idev p) in
                      do! put_addr i NDIRECT addr in
                      ret addr
                    else ret addr) in
      bmap_entry (idev p) bn addr
    else fail (Panic "bmap: out of range").

(** The loop over the direct blocks; [n] remain. *)
Fixpoint itrunc_direct (n : nat) (i : nat) (j : Z) : M fs unit :=
  match n with
  | O => ret tt
  | S n =>
      let! addr := get_addr i j in
      do! (if addr =? 0 then ret tt
           else let! p := get_inode i in
                do! bfree (idev p) addr in
                put_addr i j 0) in
      itrunc_direct n i (j + 1)
  end.
(** The loop over the entries of the indirect block. *)
Fixpoint itrunc_indirect (dev : Z) (l : list Z) : M fs unit :=
  match l with
  | [] => ret tt
  | a :: l => do! (if a =? 0 then ret tt else bfree dev a) in itrunc_indirect dev l
  end.

Definition itrunc (i : nat) : M fs unit :=
  do! itrunc_direct (Z.to_nat NDIRECT) i 0 in
  let! addr := get_addr i NDIRECT in
  do! (if addr =? 0 then ret tt
       else
         let! p := get_inode i in
         let! bp := bread (idev p) addr in
         let! a := data bp in
         do! itrunc_indirect (idev p) (get32s (Z.to_nat NINDIRECT) a 0) in
         do! brelse bp in
         do! bfree (idev p) addr in
         put_addr i NDIRECT 0) in
  do! upd_inode i (set_size 0) in
  iupdate i.

Definition iput (i : nat) : M fs unit :=
  do! acquiresleep i in
  let! p := get_inode i in
  do! (if valid p && (nlink p =? 0) then
         if iref p =? 1 then
           do! itrunc i in
           do! upd_inode i (set_type 0) in
           do! iupdate i in
           upd_inode i (set_valid false)
         else ret tt
       else ret tt) in
  do! releasesleep i in
  let! p := get_inode i in
  let! r := chk_int (iref p - 1) in
  upd_inode i (set_ref r).

Definition iunlockput (i : nat) : M fs unit := do! iunlock (Some i) in iput i.

Definition stati (i : nat) : M fs stat :=
  let! p := get_inode i in ret (mk_stat (type p) (idev p) (inum p) (nlink p) (isize p)).

Section devices.
(** [devsw[major].read] and [devsw[major].write], if they are set. *)
Context (dev_read : Z -> option (nat -> Z -> M fs (Z * list Z))) (dev_write : Z -> option (nat -> list Z -> M fs Z)).

(** The loop of readi; [n] bytes remain, [acc] was read. *)
Fixpoint readi_loop (fuel : nat) (i : nat) (off n : Z) (acc : list Z) : M fs (list Z) :=
  match fuel with
  | O => fail OutOfFuel
  | S fuel =>
      if 0 <? n then
        let! p := get_inode i in
        let! addr := bmap i (off / BSIZE) in
        let! bp := bread (idev p) addr in
        let m := Z.min n (BSIZE - off mod BSIZE) in
        let! d := data bp in
        do! brelse bp in
        readi_loop fuel i (off + m) (n - m) (acc ++ take (Z.to_nat m) (drop (Z.to_nat (off mod BSIZE)) d))
      else ret acc
  end.

(** The result and the bytes stored from [dst] on. *)
Definition readi (i : nat) (off n : Z) : M fs (Z * list Z) :=
  let! p := get_inode i in
  if type p =? T_DEV then
    match dev_read (major p) with
    | Some read => if (major p <? 0) || (NDEV <=? major p) then ret (-1, []) else read i (i32 n)
    | None => ret (-1, [])
    end
  else if (isize p <? off) || (u32 (off + n) <? off) then ret (-1, [])
  else
    let n := if isize p <? u32 (off + n) then isize p - off else n in
    let! l := readi_loop (S (Z.to_nat n)) i off n [] in
    ret (i32 n, l).

(** The loop of writei; [src] remains.  The result is the offset it ends at. *)
Fixpoint writei_loop (fuel : nat) (i : nat) (off : Z) (src : list Z) : M fs Z :=
  match fuel with
  | O => fail OutOfFuel
  | S fuel =>
      if (0 <? length src)%nat then
        let! p := get_inode i in
        let! addr := bmap i (off / BSIZE) in
        let! bp := bread (idev p) addr in
        let m := Z.min (Z.of_nat (length src)) (BSIZE - off mod BSIZE) in
        do! modify_data bp (fun d => put_bytes d (Z.to_nat (off mod BSIZE)) (take (Z.to_nat m) src)) in
        do! log_write bp in
        do! brelse bp in
        writei_loop fuel i (off + m) (drop (Z.to_nat m) src)
      else ret off
  end.

(** writei of the [n] bytes [src]. *)
Definition writei (i : nat) (src : list Z) (off : Z) : M fs Z :=
  let n := Z.of_nat (length src) in
  let! p := get_inode i in
  if type p =? T_DEV then
    match dev_write (major p) with
    | Some write => if (major p <? 0) || (NDEV <=? major p) then ret (-1) else write i src
    | None => ret (-1)
    end
  else if (isize p <? off) || (u32 (off + n) <? off) then ret (-1)
  else if MAXFILE * BSIZE <? u32 (off + n) then ret (-1)
  else
    let! off := writei_loop (S (length src)) i off src in
    let! p := get_inode i in
    do! (if (0 <? n) && (isize p <? off) then
           do! upd_inode i (set_size off) in
           iupdate i
         else ret tt) in
    ret n.

(** ** Directories *)

(** strncmp of string.c on strings. *)
Fixpoint strncmp (n : nat) (p q : list Z) : Z :=
  match n with
  | O => 0
  | S n =>
      let a := hd 0 p in let b := hd 0 q in
      if negb (a =? 0) && (a =? b) then strncmp n (tl p) (tl q) else a - b
  end.
Definition namecmp (s t : list Z) : Z := strncmp DIRSIZ s t.

(** strncpy into an array of [n] characters. *)
Fixpoint strncpy (n : nat) (t : list Z) : list Z :=
  match n with
  | O => []
  | S n => match t with [] => 0 :: strncpy n [] | c :: t => c :: strncpy n t end
  end.

Definition de_inum (de : list Z) : Z := getu16 de 0.
Definition de_name (de : list Z) : list Z := drop 2 de.
Definition mk_dirent (name : list Z) (n : Z) : list Z := [n mod 256; n / 256 mod 256] ++ strncpy DIRSIZ name.

Fixpoint dirlookup_loop (fuel : nat) (dp : nat) (name : list Z) (off : Z) : M fs (option (nat * Z)) :=
  match fuel with
  | O => fail OutOfFuel
  | S fuel =>
      let! p := get_inode dp in
      if off <? isize p then
        let! '(r, de) := readi dp off sizeof_dirent in
        if negb (r =? sizeof_dirent) then fail (Panic "dirlookup read") else
        if de_inum de =? 0 then dirlookup_loop fuel dp name (u32 (off + sizeof_dirent)) else
        if namecmp name (de_name de) =? 0 then
          let! ip := iget (idev p) (de_inum de) in
          ret (Some (ip, off))
        else dirlookup_loop fuel dp name (u32 (off + sizeof_dirent))
      else ret None
  end.

(** The inode found and the offset of its entry. *)
Definition dirlookup (dp : nat) (name : list Z) : M fs (option (nat * Z)) :=
  let! p := get_inode dp in
  if negb (type p =? T_DIR) then fail (Panic "dirlookup not DIR") else
  dirlookup_loop (S (Z.to_nat (isize p))) dp name 0.

Fixpoint dirlink_loop (fuel : nat) (dp : nat) (off : Z) : M fs Z :=
  match fuel with
  | O => fail OutOfFuel
  | S fuel =>
      let! p := get_inode dp in
      if off <? isize p then
        let! '(r, de) := readi dp off sizeof_dirent in
        if negb (r =? sizeof_dirent) then fail (Panic "dirlink read") else
        if de_inum de =? 0 then ret off else
        let! off := chk_int (off + sizeof_dirent) in
        dirlink_loop fuel dp off
      else ret off
  end.

Definition dirlink (dp : nat) (name : list Z) (n : Z) : M fs Z :=
  let! r := dirlookup dp name in
  match r with
  | Some (ip, _) => do! iput ip in ret (-1)
  | None =>
      let! p := get_inode dp in
      let! off := dirlink_loop (S (Z.to_nat (isize p))) dp 0 in
      let! r := writei dp (mk_dirent name n) off in
      if negb (r =? sizeof_dirent) then fail (Panic "dirlink") else ret 0
  end.

(** ** Paths *)

Definition SLASH : Z := 47.

(** [while( *path == '/') path++] *)
Fixpoint skip_slashes (path : list Z) : list Z :=
  match path with
  | c :: path' => if c =? SLASH then skip_slashes path' else path
  | [] => []
  end.
(** The characters up to the next slash or the end, and the rest. *)
Fixpoint span_elem (path : list Z) : list Z * list Z :=
  match path with
  | c :: path' => if c =? SLASH then ([], path) else let '(e, r) := span_elem path' in (c :: e, r)
  | [] => ([], [])
  end.

(** The rest of the path and the name, or nothing. *)
Definition skipelem (path : list Z) : option (list Z * list Z) :=
  match skip_slashes path with
  | [] => None
  | path =>
      let '(s, rest) := span_elem path in
      let name := if (DIRSIZ <=? length s)%nat then take DIRSIZ s else s in
      Some (skip_slashes rest, name)
  end.

(** The loop of namex; [name] is the buffer of the caller. *)
Fixpoint namex_loop (fuel : nat) (ip : nat) (path : list Z) (nameiparent : bool) (name : list Z) : M fs (option nat * list Z) :=
  match fuel with
  | O => fail OutOfFuel
  | S fuel =>
      match skipelem path with
      | Some (path, name) =>
          do! ilock (Some ip) in
          let! p := get_inode ip in
          if negb (type p =? T_DIR) then do! iunlockput ip in ret (None, name) else
          if nameiparent && bool_decide (path = []) then do! iunlock (Some ip) in ret (Some ip, name) else
          let! next := dirlookup ip name in
          match next with
          | None => do! iunlockput ip in ret (None, name)
          | Some (next, _) => do! iunlockput ip in namex_loop fuel next path nameiparent name
          end
      | None => if nameiparent then do! iput ip in ret (None, name) else ret (Some ip, name)
      end
  end.

(** [cwd] is the working directory of the running process. *)
Definition namex (cwd : nat) (path : list Z) (nameiparent : bool) (name : list Z) : M fs (option nat * list Z) :=
  let! ip := (if bool_decide (hd 0 path = SLASH) then iget ROOTDEV ROOTINO else idup cwd) in
  namex_loop (S (length path)) ip path nameiparent name.

Definition namei (cwd : nat) (path : list Z) : M fs (option nat) :=
  let! '(ip, _) := namex cwd path false [] in ret ip.
Definition nameiparent (cwd : nat) (path : list Z) (name : list Z) : M fs (option nat * list Z) := namex cwd path true name.
End devices.

(** ** Structures in bytes *)

Lemma total_insert_ne (l : list Z) i j x : i <> j -> <[i := x]> l !!! j = l !!! j.
Proof. intros. rewrite !list_lookup_total_alt. by rewrite list_lookup_insert_ne. Qed.
Lemma total_insert_eq (l : list Z) i x : (i < length l)%nat -> <[i := x]> l !!! i = x.
Proof. intros. rewrite list_lookup_total_alt. by rewrite list_lookup_insert_eq. Qed.

Section encoding.
Implicit Types (d l : list Z) (o i : nat) (v : Z).

Lemma put16_other d o v i : (i < o \/ o + 2 <= i)%nat -> put16 d o v !!! i = d !!! i.
Proof. intros. unfold put16. by rewrite !total_insert_ne by lia. Qed.
Lemma put32_other d o v i : (i < o \/ o + 4 <= i)%nat -> put32 d o v !!! i = d !!! i.
Proof. intros. unfold put32. by rewrite !total_insert_ne by lia. Qed.
Lemma put32s_other l : forall d o i, (i < o \/ o + 4 * length l <= i)%nat -> put32s d o l !!! i = d !!! i.
Proof. induction l as [|v l IH]; intros d o i Hi; simpl in *; [done|]. rewrite IH by lia. apply put32_other. lia. Qed.

Lemma length_put16 d o v : length (put16 d o v) = length d.
Proof. unfold put16. by rewrite !length_insert. Qed.
Lemma length_put32s l : forall d o, length (put32s d o l) = length d.
Proof. induction l as [|v l IH]; intros d o; simpl; [done|]. by rewrite IH, length_put32. Qed.
Lemma length_put_bytes d o l : (o + length l <= length d)%nat -> length (put_bytes d o l) = length d.
Proof. intros. unfold put_bytes. rewrite !length_app, length_take, length_drop. lia. Qed.

Lemma put_bytes_lookup d o l i :
  (o + length l <= length d)%nat -> put_bytes d o l !!! i = if decide (o <= i < o + length l)%nat then l !!! (i - o)%nat else d !!! i.
Proof.
  intros Ho. unfold put_bytes. rewrite !list_lookup_total_alt. case_decide as Hi.
  - rewrite lookup_app_r by (rewrite length_take; lia). rewrite length_take, lookup_app_l by lia. by replace (i - o `min` length d)%nat with (i - o)%nat by lia.
  - destruct (decide (i < o)%nat).
    + rewrite lookup_app_l by (rewrite length_take; lia). by rewrite lookup_take_lt.
    + rewrite lookup_app_r, length_take by (rewrite length_take; lia). rewrite lookup_app_r by lia. rewrite lookup_drop.
      by replace (o + length l + (i - o `min` length d - length l))%nat with i by lia.
Qed.

Lemma get16_ext d d' o : d !!! o = d' !!! o -> d !!! S o = d' !!! S o -> get16 d o = get16 d' o.
Proof. unfold get16, getu16. by intros -> ->. Qed.
Lemma getu32_ext d d' o : (forall i, (o <= i < o + 4)%nat -> d !!! i = d' !!! i) -> getu32 d o = getu32 d' o.
Proof. intros H. unfold getu32, get32. by rewrite !H by lia. Qed.
Lemma get32s_ext n : forall d d' o, (forall i, (o <= i < o + 4 * n)%nat -> d !!! i = d' !!! i) -> get32s n d o = get32s n d' o.
Proof. induction n as [|n IH]; intros d d' o H; simpl; [done|]. f_equal; [apply getu32_ext|apply IH]; intros; apply H; lia. Qed.

Lemma getu16_put16 d o v : (o + 2 <= length d)%nat -> getu16 (put16 d o v) o = v mod 2 ^ 16.
Proof.
  intros Ho. unfold getu16, put16. rewrite total_insert_eq by (rewrite length_insert; lia). rewrite total_insert_ne, total_insert_eq by lia.
  change (2 ^ 16) with (256 * 256). rewrite Z.rem_mul_r by lia. lia.
Qed.
Lemma get16_put16 d o v : (o + 2 <= length d)%nat -> - 2 ^ 15 <= v < 2 ^ 15 -> get16 (put16 d o v) o = v.
Proof. intros Ho Hv. unfold get16. rewrite getu16_put16 by done. unfold i16. rewrite Zplus_mod_idemp_l. rewrite Z.mod_small; lia. Qed.

Lemma getu32_put32 d o v : (o + 4 <= length d)%nat -> 0 <= v <= UINT_MAX -> getu32 (put32 d o v) o = v.
Proof.
  intros Ho Hv. unfold getu32. rewrite get32_put32_mod by done. unfold u32, i32. unfold UINT_MAX in Hv.
  rewrite Zminus_mod_idemp_l. replace (v mod 2 ^ 32 + 2 ^ 31 - 2 ^ 31) with (v mod 2 ^ 32) by lia. rewrite Z.mod_mod by lia. apply Z.mod_small. lia.
Qed.

Lemma get32s_put32s l : forall d o, (o + 4 * length l <= length d)%nat -> Forall (fun v => 0 <= v <= UINT_MAX) l ->
  get32s (length l) (put32s d o l) o = l.
Proof.
  induction l as [|v l IH]; intros d o Ho Hl; simpl; [done|]. apply Forall_cons in Hl as [Hv Hl]. simpl in Ho. f_equal.
  - etrans; [|apply (getu32_put32 d o v); (done || lia)]. apply getu32_ext. intros i Hi. apply put32s_other. lia.
  - apply IH; [rewrite length_put32; lia|done].
Qed.

(** An inode that fits the fields of struct dinode. *)
Definition fits (p : inode) : Prop :=
  - 2 ^ 15 <= type p < 2 ^ 15 /\ - 2 ^ 15 <= major p < 2 ^ 15 /\ - 2 ^ 15 <= minor p < 2 ^ 15 /\ - 2 ^ 15 <= nlink p < 2 ^ 15 /\
  0 <= isize p <= UINT_MAX /\ length (addrs p) = 13%nat /\ Forall (fun v => 0 <= v <= UINT_MAX) (addrs p).

(** The disk part of [p] with the rest of [q]. *)
Definition disk_part (p q : inode) : inode :=
  mk_inode (idev q) (inum q) (iref q) (ilk q) (valid q) (type p) (major p) (minor p) (nlink p) (isize p) (addrs p).

Lemma length_put_dinode o p d : length (put_dinode o p d) = length d.
Proof. unfold put_dinode. by rewrite length_put32s, length_put32, !length_put16. Qed.

Lemma put_dinode_other o p d i : length (addrs p) = 13%nat -> (i < o \/ o + 64 <= i)%nat -> put_dinode o p d !!! i = d !!! i.
Proof. intros Hl Hi. unfold put_dinode. rewrite put32s_other, put32_other, !put16_other by lia. done. Qed.

Lemma get_put_dinode o p d q : (o + 64 <= length d)%nat -> fits p -> get_dinode o (put_dinode o p d) q = disk_part p q.
Proof.
  intros Ho (H1 & H2 & H3 & H4 & H5 & H6 & H7). unfold get_dinode, disk_part, put_dinode.
  assert (L16 : forall d o v, length (put16 d o v) = length d) by apply length_put16.
  f_equal.
  - erewrite get16_ext; [apply (get16_put16 d o); [lia|done]| |]; rewrite put32s_other, put32_other, !(put16_other (put16 _ _ _)) by lia; done.
  - erewrite get16_ext; [apply (get16_put16 (put16 d o (type p)) (o + 2)); [rewrite !L16; lia|done]| |]; rewrite put32s_other, put32_other, !(put16_other (put16 (put16 _ _ _) _ _)) by lia; done.
  - erewrite get16_ext; [apply (get16_put16 (put16 (put16 d o (type p)) (o + 2) (major p)) (o + 4)); [rewrite !L16; lia|done]| |];
      rewrite put32s_other, put32_other, !(put16_other (put16 (put16 (put16 _ _ _) _ _) _ _)) by lia; done.
  - erewrite get16_ext; [apply get16_put16; [|done]| |]; try (rewrite put32s_other, put32_other by lia; reflexivity). rewrite !L16. lia.
  - erewrite getu32_ext; [apply getu32_put32; [|done]|]; [|intros i Hi; rewrite put32s_other by lia; reflexivity]. rewrite !L16. lia.
  - replace (Z.to_nat NDIRECT + 1)%nat with (length (addrs p)) by (rewrite H6; done). apply get32s_put32s; [rewrite length_put32, !L16; lia|done].
Qed.
End encoding.
End Fs.
