(* ===== verification/FsTx.v ===== *)
(** * FsTx: blocks inside a transaction

    Rules for the code of fs.c that runs between begin_op and end_op: the
    contents of the blocks, the blocks logged so far and the buffers held.  Then
    the block allocator: the free map as a set of blocks. *)
From stdpp Require Import base list gmap strings.
From Stdlib Require Import ZArith Lia.
From S2P Require Import Prelude Bio Log Fs.
Import Bio Log Fs.

Module FsTx.

Lemma wp_kern {A} (m : M kernel A) (Q : A -> fs -> Prop) (s : fs) :
  wp m (fun a k => Q a (set_kern k s)) (kern s) -> wp (on_kern m) Q s.
Proof. unfold wp, on_kern, zoom. by destruct (m (kern s)) as [[a k]|f]. Qed.

Lemma set_kern_kern s : set_kern (kern s) s = s.
Proof. by destruct s. Qed.

(** The log after block [b] was logged. *)
Definition logs (bs : list Z) (b : Z) : list Z := if bool_decide (b ∈ bs) then bs else bs ++ [b].

Lemma elem_of_logs bs b n : n ∈ logs bs b <-> n ∈ bs \/ n = b.
Proof.
  unfold logs. case_bool_decide as E; [|by rewrite elem_of_app, list_elem_of_singleton].
  split; [by left|]. intros [?| ->]; done.
Qed.

Lemma length_logs bs b : (length bs <= length (logs bs b) <= S (length bs))%nat.
Proof. unfold logs. case_bool_decide; rewrite ?length_app; simpl; lia. Qed.

Section tx.
(** The disk has [sz] blocks; when the transaction began it held [d0] and had
    received the writes [ws0].  The log is at [ls] and has [lsz] blocks, as many
    as mkfs gives it or more.  Process [pd] runs;
    [w] says whether it is inside a transaction, so that it may write. *)
Context (sz : Z) (Hsz : sz <= 2 ^ 31) (d0 : gmap Z (list Z)) (ws0 : list (Z * list Z)) (ls lsz pd : Z) (w : bool) (Hlsz : LOGSIZE <= lsz).

(** A block after the log. *)
Definition homeb (b : Z) : Prop := 0 <= b < sz /\ ls + LOGSIZE <= b.

(** The log in memory during the transaction. *)
Definition open_log (l : log) (bs : list Z) : Prop :=
  log_ok sz l /\ (exists post, lh_block l = bs ++ post) /\ lh_n l = Z.of_nat (length bs) /\
  outstanding l = (if w then 1 else 0) /\ committing l = false /\ start l = ls /\ size l = lsz.

(** The blocks hold [c]; those of [bs] have been logged; the buffers [hs] are
    held, by the block they hold. *)
Record tx (s : fs) (c : Z -> list Z) (bs : list Z) (hs : gmap Z nat) : Prop := {
  tx_log : exists l, kok sz (kern s) c (list_to_set bs) (dom hs) d0 ws0 l /\ open_log l bs;
  tx_home : Forall homeb bs;
  tx_nodup : NoDup bs;
  tx_handle n i : hs !! n = Some i -> handle (bio (kern s)) n i;
  tx_clean n : n ∉ bs -> c n = dk d0 n;
  tx_pid : cur_pid (bio (kern s)) = pd;
  tx_len n : length (c n) = Z.to_nat BSIZE
}.

Lemma tx_ext s c c' bs hs : (forall n, c' n = c n) -> tx s c bs hs -> tx s c' bs hs.
Proof.
  intros E [(l & K & L) T2 T3 T4 T5 Tp T6]. split; [|done|done|done| |done|].
  - exists l. split; [by eapply kok_ext|done].
  - intros n Hn. by rewrite E, T5.
  - intros n. by rewrite E.
Qed.

Lemma tx_same_kern s s' c bs hs : kern s' = kern s -> tx s c bs hs -> tx s' c bs hs.
Proof. intros E [T1 T2 T3 T4 T5 Tp T6]. split; rewrite ?E; done. Qed.

Lemma handles_insert (hs : gmap Z nat) n i k k' :
  (forall m j, hs !! m = Some j -> handle (bio k) m j) -> handles_kept (dom hs) n k k' -> handle (bio k') n i ->
  forall m j, <[n := i]> hs !! m = Some j -> handle (bio k') m j.
Proof.
  intros T [_ Hk] Hh m j Hm. destruct (decide (n = m)) as [<-|Hne].
  - rewrite lookup_insert_eq in Hm. by injection Hm as <-.
  - rewrite lookup_insert_ne in Hm by done. apply (Hk m j); [by apply elem_of_dom_2 in Hm|done|by apply T].
Qed.

Lemma size_union_le (X Y : gset Z) : (base.size (X ∪ Y) <= base.size X + base.size Y)%nat.
Proof. rewrite size_union_alt. assert (base.size (Y ∖ X) <= base.size Y)%nat by (apply subseteq_size; set_solver). lia. Qed.

Lemma tx_bread s c bs hs n Q :
  tx s c bs hs -> hs !! n = None -> 0 <= n < sz -> (length bs + base.size hs < Z.to_nat NBUF)%nat ->
  (forall i k, tx (set_kern k s) c bs (<[n := i]> hs) -> Q i (set_kern k s)) ->
  wp (bread 1 n) Q s.
Proof.
  intros [(l & K & L) T2 T3 T4 T5 Tp T6] Hn Hr Hc HQ. apply wp_kern.
  eapply (wp_bread sz Hsz); [exact K|by apply not_elem_of_dom|done| |].
  - etrans; [apply size_union_le|]. pose proof (size_union_le (list_to_set bs) (dom hs)).
    rewrite size_list_to_set, size_dom in * by done. rewrite size_singleton. lia.
  - intros i k K' Hh Hk. apply HQ. split; simpl; try done; [|by eapply handles_insert|by rewrite (proj1 Hk)].
    exists l. split; [|done]. rewrite dom_insert_L. by rewrite union_comm_L.
Qed.

Lemma tx_data s c bs hs n i Q : tx s c bs hs -> hs !! n = Some i -> Q (c n) s -> wp (data i) Q s.
Proof.
  intros [(l & K & L) T2 T3 T4 T5 Tp T6] Hn HQ. apply wp_kern.
  eapply wp_buf_data; [exact K|by eapply elem_of_dom_2|by apply T4|]. by rewrite set_kern_kern.
Qed.

Lemma tx_brelse s c bs hs n i Q :
  tx s c bs hs -> hs !! n = Some i -> (forall k, tx (set_kern k s) c bs (delete n hs) -> Q tt (set_kern k s)) ->
  wp (brelse i) Q s.
Proof.
  intros [(l & K & L) T2 T3 T4 T5 Tp T6] Hn HQ. apply wp_kern.
  eapply wp_brelse; [exact K|by eapply elem_of_dom_2|by apply T4| |].
  - destruct (decide (n ∈ bs)); [left; by apply elem_of_list_to_set|right; auto].
  - intros k K' [Hp Hk]. apply HQ. split; simpl; try done; [| |congruence].
    + exists l. split; [|done]. by rewrite dom_delete_L.
    + intros m j Hm. apply lookup_delete_Some in Hm as [Hne Hm]. apply (Hk m j); [by eapply elem_of_dom_2|done|by apply T4].
Qed.

(** ** The free map *)

Lemma bit_set_testbit d bi : bit_set d bi = Z.testbit (d !!! Z.to_nat (bi / 8)) (bi mod 8).
Proof.
  unfold bit_set. pose proof (Z.mod_pos_bound bi 8 ltac:(lia)) as Hm. rewrite Z.shiftl_1_l. set (x := d !!! _).
  destruct (Z.testbit x (bi mod 8)) eqn:E.
  - apply negb_true_iff, Z.eqb_neq. intros H0.
    assert (H : Z.testbit (Z.land x (2 ^ (bi mod 8))) (bi mod 8) = true) by (rewrite Z.land_spec, E, Z.pow2_bits_true by lia; done).
    by rewrite H0, Z.bits_0 in H.
  - apply negb_false_iff, Z.eqb_eq, Z.bits_inj'. intros n Hn. rewrite Z.land_spec, Z.bits_0, Z.pow2_bits_eqb by lia.
    destruct (Z.eqb_spec (bi mod 8) n) as [<-|]; [by rewrite E|apply andb_false_r].
Qed.

(** Setting the byte of bit [bi] to [x] changes the bits of that byte. *)
Lemma bit_set_byte d bi bj x :
  length d = Z.to_nat BSIZE -> 0 <= bi < BPB -> 0 <= bj < BPB ->
  bit_set (<[Z.to_nat (bi / 8) := x]> d) bj = if bi / 8 =? bj / 8 then Z.testbit x (bj mod 8) else bit_set d bj.
Proof.
  unfold BPB, BSIZE. intros Hd Hi Hj. rewrite !bit_set_testbit.
  assert (0 <= bi / 8 < 512) by (split; [apply Z.div_pos|apply Z.div_lt_upper_bound]; lia).
  assert (0 <= bj / 8 < 512) by (split; [apply Z.div_pos|apply Z.div_lt_upper_bound]; lia).
  rewrite list_lookup_total_insert_if by lia. case_decide; case_Z; try lia; done.
Qed.

Lemma same_bit bi bj : bi / 8 = bj / 8 -> (bj mod 8 =? bi mod 8) = (bi =? bj).
Proof. intros. pose proof (Z.div_mod bi 8 ltac:(lia)). pose proof (Z.div_mod bj 8 ltac:(lia)). apply eq_true_iff_eq. rewrite !Z.eqb_eq. lia. Qed.

Lemma bit_set_mark d bi bj :
  length d = Z.to_nat BSIZE -> 0 <= bi < BPB -> 0 <= bj < BPB -> bit_set (mark bi d) bj = (bi =? bj) || bit_set d bj.
Proof.
  intros Hd Hi Hj. unfold mark. rewrite bit_set_byte by done. rewrite !bit_set_testbit.
  pose proof (Z.mod_pos_bound bi 8 ltac:(lia)). pose proof (Z.mod_pos_bound bj 8 ltac:(lia)).
  destruct (Z.eqb_spec (bi / 8) (bj / 8)) as [E|E].
  - rewrite Z.lor_spec, Z.shiftl_1_l, Z.pow2_bits_eqb by lia. rewrite (Z.eqb_sym (bi mod 8)), same_bit, E by done. apply orb_comm.
  - destruct (Z.eqb_spec bi bj) as [->|]; done.
Qed.

Lemma bit_set_unmark d bi bj :
  length d = Z.to_nat BSIZE -> 0 <= bi < BPB -> 0 <= bj < BPB -> bit_set (unmark bi d) bj = negb (bi =? bj) && bit_set d bj.
Proof.
  intros Hd Hi Hj. unfold unmark. rewrite bit_set_byte by done. rewrite !bit_set_testbit.
  pose proof (Z.mod_pos_bound bi 8 ltac:(lia)). pose proof (Z.mod_pos_bound bj 8 ltac:(lia)).
  destruct (Z.eqb_spec (bi / 8) (bj / 8)) as [E|E].
  - rewrite Z.land_spec, Z.lnot_spec, Z.shiftl_1_l, Z.pow2_bits_eqb by lia. rewrite (Z.eqb_sym (bi mod 8)), same_bit, E by done. apply andb_comm.
  - destruct (Z.eqb_spec bi bj) as [->|]; done.
Qed.

(** The inner loop of balloc finds the first free block, if there is one. *)
Lemma scan_spec n d size bi : 0 <= bi ->
  match scan n d size 0 bi with
  | Some b => bi <= b < bi + Z.of_nat n /\ b < size /\ bit_set d b = false /\ forall b', bi <= b' < b -> bit_set d b' = true
  | None => forall b', bi <= b' < bi + Z.of_nat n -> b' < size -> bit_set d b' = true
  end.
Proof.
  revert bi. induction n as [|n IH]; intros bi Hbi; simpl; [lia|]. case_Z; [|intros; lia].
  destruct (bit_set d bi) eqn:E; [|split; [lia|]; split; [lia|]; split; [done|lia]].
  specialize (IH (bi + 1) ltac:(lia)). destruct (scan n d size 0 (bi + 1)) as [b|].
  - destruct IH as (? & ? & ? & Hall). split; [lia|]. split; [done|]. split; [done|]. intros b' Hb'.
    destruct (decide (b' = bi)) as [->|]; [done|]. apply Hall. lia.
  - intros b' Hb' Hs. destruct (decide (b' = bi)) as [->|]; [done|]. apply IH; lia.
Qed.

(** ** Allocation

    The layout mkfs makes: the log, the inodes, one block of free map, data. *)
Context (B : superblock).

Record layout : Prop := {
  lay_size : bmapstart B < sb_size B <= BPB;
  lay_disk : sb_size B <= sz;
  lay_log : 0 <= ls /\ ls + LOGSIZE <= inodestart B;
  lay_inodes : 0 < ninodes B /\ (ninodes B - 1) / IPB + inodestart B < bmapstart B
}.
Context (HB : layout).

Notation BM := (bmapstart B).
Definition data_block (b : Z) : Prop := BM < b < sb_size B.
Definition used (c : Z -> list Z) (b : Z) : bool := bit_set (c BM) b.

(** The blocks before the data are in use. *)
Definition map_ok (c : Z -> list Z) : Prop := forall b, 0 <= b < sb_size B -> used c b = false -> data_block b.

Definition free_blocks (c : Z -> list Z) : list Z := filter (fun b => used c b = false) (seqZ 0 (sb_size B)).
Definition nfree (c : Z -> list Z) : nat := length (free_blocks c).

Lemma map_pos : 0 < BM.
Proof. destruct HB as [? ? [? ?] [? ?]]. pose proof (Z.div_pos (ninodes B - 1) IPB ltac:(lia) ltac:(done)). unfold LOGSIZE, MAXOPBLOCKS in *. lia. Qed.

Lemma map_home : homeb BM.
Proof.
  destruct HB as [? ? [? ?] [? ?]]. pose proof (Z.div_pos (ninodes B - 1) IPB ltac:(lia) ltac:(done)).
  unfold homeb, LOGSIZE, MAXOPBLOCKS in *. lia.
Qed.

Lemma data_home b : data_block b -> homeb b.
Proof. intros [? ?]. destruct map_home as [? ?], HB as [? ? [? ?] [? ?]]. pose proof (Z.div_pos (ninodes B - 1) IPB ltac:(lia) ltac:(done)). unfold homeb, LOGSIZE, MAXOPBLOCKS in *. lia. Qed.

Lemma inode_home n : 0 <= n < ninodes B -> homeb (IBLOCK n B) /\ IBLOCK n B < BM.
Proof.
  intros [? ?]. destruct HB as [? ? [? ?] [? ?]]. pose proof (Z.div_pos n IPB ltac:(lia) ltac:(done)).
  pose proof (Z.div_le_mono n (ninodes B - 1) IPB ltac:(done) ltac:(lia)).
  unfold homeb, IBLOCK, LOGSIZE, MAXOPBLOCKS in *. lia.
Qed.

Lemma data_BPB b : data_block b -> 0 <= b < BPB.
Proof. intros [? ?]. pose proof map_pos. destruct HB as [? ? ? ?]. lia. Qed.

Lemma elem_of_free c b : b ∈ free_blocks c <-> 0 <= b < sb_size B /\ used c b = false.
Proof. unfold free_blocks. rewrite list_elem_of_filter, elem_of_seqZ. rewrite Z.add_0_l. tauto. Qed.

Lemma NoDup_free c : NoDup (free_blocks c).
Proof. apply NoDup_filter, NoDup_seqZ. Qed.

(** The free blocks after [b] was taken or given back. *)
Lemma nfree_take c c' b :
  0 <= b < sb_size B -> used c b = false -> (forall x, 0 <= x < sb_size B -> used c' x = (b =? x) || used c x) ->
  nfree c = S (nfree c').
Proof.
  intros Hb Hu H. unfold nfree. transitivity (length (b :: free_blocks c')); [|done]. apply Permutation_length, NoDup_Permutation.
  - apply NoDup_free.
  - constructor; [|apply NoDup_free]. rewrite elem_of_free. intros [_ E]. rewrite H, Z.eqb_refl in E by done. done.
  - intros x. rewrite elem_of_cons, !elem_of_free. split.
    + intros [Hx E]. destruct (decide (x = b)); [by left|right]. split; [done|]. rewrite H by done. by rewrite (proj2 (Z.eqb_neq b x)).
    + intros [->|[Hx E]]; [done|]. rewrite H in E by done. apply orb_false_iff in E. tauto.
Qed.

Lemma nfree_pos c : (0 < nfree c)%nat -> exists b, 0 <= b < sb_size B /\ used c b = false.
Proof.
  unfold nfree. destruct (free_blocks c) as [|b l] eqn:E; simpl; [lia|]. intros _. exists b. apply elem_of_free. rewrite E. apply elem_of_cons. by left.
Qed.

Lemma nfree_same c c' : c' BM = c BM -> nfree c' = nfree c.
Proof. intros E. unfold nfree, free_blocks, used. by rewrite E. Qed.

Lemma set_block_eq (c : Z -> list Z) n d : set_block c n d n = d.
Proof. unfold set_block. by rewrite Z.eqb_refl. Qed.
Lemma set_block_ne (c : Z -> list Z) n d m : m <> n -> set_block c n d m = c m.
Proof. intros. unfold set_block. by rewrite (proj2 (Z.eqb_neq _ _)). Qed.

(** The blocks after [b] was allocated. *)
Definition alloc_block (c : Z -> list Z) (b : Z) : Z -> list Z := set_block (set_block c BM (mark b (c BM))) b zero_block.

Lemma alloc_used c b x :
  data_block b -> length (c BM) = Z.to_nat BSIZE -> 0 <= x < BPB -> used (alloc_block c b) x = (b =? x) || used c x.
Proof.
  intros Hb Hl Hx. unfold used, alloc_block. rewrite set_block_ne, set_block_eq by (unfold data_block in Hb; lia).
  apply bit_set_mark; [done|by apply data_BPB|done].
Qed.

Lemma alloc_other c b n : n <> BM -> n <> b -> alloc_block c b n = c n.
Proof. intros. unfold alloc_block. by rewrite !set_block_ne. Qed.

Lemma alloc_new c b : alloc_block c b b = zero_block.
Proof. apply set_block_eq. Qed.

Lemma alloc_nfree c b : data_block b -> length (c BM) = Z.to_nat BSIZE -> used c b = false -> nfree c = S (nfree (alloc_block c b)).
Proof.
  intros Hb Hl Hu. pose proof (data_BPB b Hb). pose proof (lay_size HB). apply (nfree_take c _ b); [unfold data_block in Hb; lia|done|].
  intros x Hx. apply alloc_used; [done|done|lia].
Qed.

Lemma alloc_map_ok c b : data_block b -> length (c BM) = Z.to_nat BSIZE -> map_ok c -> map_ok (alloc_block c b).
Proof.
  intros Hb Hl Hok x Hx Hu. pose proof (lay_size HB). rewrite alloc_used in Hu by (done || lia).
  apply orb_false_iff in Hu as [_ Hu]. by apply Hok.
Qed.

(** The blocks after [b] was freed. *)
Definition free_block (c : Z -> list Z) (b : Z) : Z -> list Z := set_block c BM (unmark b (c BM)).

Lemma free_used c b x :
  data_block b -> length (c BM) = Z.to_nat BSIZE -> 0 <= x < BPB -> used (free_block c b) x = negb (b =? x) && used c x.
Proof.
  intros Hb Hl Hx. unfold used, free_block. rewrite set_block_eq. apply bit_set_unmark; [done|by apply data_BPB|done].
Qed.

Lemma free_other c b n : n <> BM -> free_block c b n = c n.
Proof. intros. unfold free_block. by rewrite set_block_ne. Qed.

Lemma free_map_ok c b : data_block b -> length (c BM) = Z.to_nat BSIZE -> map_ok c -> map_ok (free_block c b).
Proof.
  intros Hb Hl Hok x Hx Hu. pose proof (lay_size HB). rewrite free_used in Hu by (done || lia).
  destruct (Z.eqb_spec b x) as [<-|]; [done|]. by apply Hok.
Qed.

(** From here on inside a transaction. *)
Context (Hw : w = true).

(** A change of a held block, and its log_write. *)
Lemma tx_write {A} s c bs hs n i f (rest : M fs A) Q :
  tx s c bs hs -> hs !! n = Some i -> homeb n -> (length bs < 29)%nat ->
  length (f (c n)) = Z.to_nat BSIZE ->
  (forall k, tx (set_kern k s) (set_block c n (f (c n))) (logs bs n) hs -> wp rest Q (set_kern k s)) ->
  wp (do! modify_data i f in do! log_write i in rest) Q s.
Proof.
  intros [(l & K & Hl & Hp & Hn' & Ho & Hc & Hst & Hsi) T2 T3 T4 T5 Tp T6] Hn Hh H1 Hf HQ. rewrite wp_bind. apply wp_kern.
  eapply wp_buf_update; [exact K|by eapply elem_of_dom_2|by apply T4|]. intros k1 K1 Hh1 [Hp1 Hk1]. rewrite wp_bind. apply wp_kern.
  eapply (log_write_spec sz Hsz _ _ bs); [exact K1|by eapply elem_of_dom_2|done|done|done|by rewrite Ho, Hw|exact Hh1|unfold LOGSIZE, MAXOPBLOCKS in *; lia..|].
  cbv zeta. intros k2 l' K2 Hl2 Hp2 Hn2 [Hst2 Hsi2] Ho2 Hc2 Hh2 [Hpd Hk2]. apply (HQ k2).
  assert (Hin : n ∈ logs bs n) by (apply elem_of_logs; by right). split; simpl.
  - exists l'. split; [exact K2|]. split; [done|]. split; [done|]. split; [done|]. split; [by rewrite Hw|]. split; [congruence|]. split; congruence.
  - unfold logs. case_bool_decide; [done|]. apply Forall_app. split; [done|by constructor].
  - unfold logs. case_bool_decide; [done|]. apply NoDup_app. split; [done|]. split; [set_solver|apply NoDup_singleton].
  - intros m j Hm. destruct (decide (m = n)) as [->|Hne].
    + rewrite Hn in Hm. injection Hm as <-. done.
    + apply (Hk2 m j); [by eapply elem_of_dom_2|done|]. apply (Hk1 m j); [by eapply elem_of_dom_2|done|by apply T4].
  - intros m Hm. rewrite elem_of_logs in Hm. unfold set_block. rewrite (proj2 (Z.eqb_neq _ _)) by tauto. apply T5. tauto.
  - cbn [kern set_kern] in *. congruence.
  - intros m. unfold set_block. case_Z; [done|apply T6].
Qed.

Lemma bzero_spec s c bs hs b Q :
  tx s c bs hs -> hs !! b = None -> homeb b -> (length bs + base.size hs < 29)%nat ->
  (forall k, tx (set_kern k s) (set_block c b zero_block) (logs bs b) hs -> Q tt (set_kern k s)) ->
  wp (bzero 1 b) Q s.
Proof.
  intros T Hh Hb Hr HQ. unfold bzero. rewrite wp_bind. eapply tx_bread; [exact T|done|apply Hb|unfold NBUF; lia|].
  intros i k1 T1. eapply tx_write; [exact T1|by rewrite lookup_insert_eq|done|lia|done|].
  intros k2 T2. eapply tx_brelse; [exact T2|by rewrite lookup_insert_eq|]. intros k3 T3. apply HQ.
  by rewrite delete_insert_id in T3.
Qed.

Lemma balloc_spec s c bs hs Q :
  tx s c bs hs -> sb s = B -> map_ok c -> hs !! BM = None -> (forall b, data_block b -> used c b = false -> hs !! b = None) ->
  (0 < nfree c)%nat -> (length bs + base.size hs < 28)%nat ->
  (forall k b, data_block b -> used c b = false -> (forall b', 0 <= b' < b -> used c b' = true) ->
     tx (set_kern k s) (alloc_block c b) (logs (logs bs BM) b) hs -> Q b (set_kern k s)) ->
  wp (balloc 1) Q s.
Proof.
  intros T Hsb Hok Hbm Hfree Hnf Hr HQ. pose proof (lay_size HB). pose proof map_pos. pose proof map_home as Hbh.
  unfold balloc. wp_pure. cbn [balloc_from]. wp_pure. rewrite Hsb, (proj2 (Z.ltb_lt _ _)) by lia. wp_pure.
  replace (BBLOCK 0 B) with BM by done. eapply tx_bread; [exact T|done|apply Hbh|unfold NBUF; lia|]. intros i k1 T1.
  wp_pure. eapply tx_data; [exact T1|apply lookup_insert_eq|].
  pose proof (scan_spec (Z.to_nat BPB) (c BM) (sb_size B) 0 ltac:(lia)) as Hs.
  destruct (scan (Z.to_nat BPB) (c BM) (sb_size B) 0 0) as [b|].
  2: { exfalso. destruct (nfree_pos c Hnf) as (b & Hb & Hu). unfold used in Hu. rewrite Hs in Hu by lia. done. }
  destruct Hs as (Hb & Hbs & Hu & Hfirst). assert (Hd : data_block b) by (apply Hok; [lia|done]).
  eapply tx_write; [exact T1|apply lookup_insert_eq|done|lia|unfold mark; rewrite length_insert; apply T|]. intros k2 T2.
  rewrite wp_bind. eapply tx_brelse; [exact T2|apply lookup_insert_eq|]. intros k3 T3. rewrite delete_insert_id in T3 by done.
  rewrite wp_bind. rewrite Z.add_0_l. pose proof (length_logs bs BM).
  eapply bzero_spec; [exact T3|by apply Hfree|by apply data_home|lia|]. intros k4 T4. apply wp_ret. by apply (HQ k4).
Qed.

Lemma bfree_start s c bs hs b (Q : unit -> fs -> Prop) :
  tx s c bs hs -> sb s = B -> data_block b -> hs !! BM = None -> (length bs + base.size hs < 29)%nat ->
  (forall i k, tx (set_kern k s) c bs (<[BM := i]> hs) ->
     wp (if used c b then do! modify_data i (unmark b) in do! log_write i in brelse i
         else fail (Panic "freeing free block")) Q (set_kern k s)) ->
  wp (bfree 1 b) Q s.
Proof.
  intros T Hsb Hb Hbm Hr HQ. pose proof (data_BPB b Hb). unfold bfree. wp_pure. rewrite Hsb.
  replace (BBLOCK b B) with BM by (unfold BBLOCK; by rewrite Z.div_small). rewrite (Z.mod_small b) by done.
  eapply tx_bread; [exact T|done|apply map_home|unfold NBUF; lia|]. intros i k1 T1. cbv zeta. wp_pure.
  eapply tx_data; [exact T1|apply lookup_insert_eq|]. exact (HQ i k1 T1).
Qed.

Lemma bfree_spec s c bs hs b Q :
  tx s c bs hs -> sb s = B -> data_block b -> used c b = true -> hs !! BM = None -> (length bs + base.size hs < 29)%nat ->
  (forall k, tx (set_kern k s) (free_block c b) (logs bs BM) hs -> Q tt (set_kern k s)) ->
  wp (bfree 1 b) Q s.
Proof.
  intros T Hsb Hb Hu Hbm Hr HQ. eapply bfree_start; [exact T|done|done|done|done|]. intros i k1 T1. rewrite Hu.
  eapply tx_write; [exact T1|apply lookup_insert_eq|apply map_home|lia|unfold unmark; rewrite length_insert; apply T|]. intros k2 T2.
  eapply tx_brelse; [exact T2|apply lookup_insert_eq|]. intros k3 T3. rewrite delete_insert_id in T3 by done. exact (HQ k3 T3).
Qed.
End tx.

(** ** Whole transactions *)

(** A system call's body between begin_op and end_op, admitted at once. *)
Definition in_tx {A} (m : M fs A) : M fs A :=
  let! admitted := on_kern begin_op in
  do! assert admitted in
  let! a := m in
  do! on_kern end_op in
  ret a.

(** The block writes of the commit. *)
Definition tx_writes (c : Z -> list Z) (ls : Z) (bs : list Z) : list (Z * list Z) :=
  match bs with [] => [] | _ => commit_writes c ls bs end.

Section whole.
Context (sz p : Z) (Hsz : sz <= 2 ^ 31).

Lemma begin_tx s d ws l :
  idle sz (kern s) d ws l -> (forall n, length (dk d n) = Z.to_nat BSIZE) ->
  exists k, begin_op (kern s) = Ok (true, k) /\ tx sz d ws (start l) (size l) (cur_pid (bio (kern s))) true (set_kern k s) (dk d) [] ∅.
Proof.
  intros Hi Hl. exists (mk_kernel (bio (kern s)) (set_outstanding 1 l)). split; [by eapply begin_op_idle|]. pose proof Hi as [K L Hn Ho Hc].
  split; simpl; [|constructor|constructor|done|done|done|done]. exists (set_outstanding 1 l). split; [by eapply kok_log|].
  split; [done|]. split; [by exists (lh_block l)|]. done.
Qed.

Lemma end_tx s d ws ls lsz pd c bs :
  tx sz d ws ls lsz pd true s c bs ∅ -> (length bs < 29)%nat ->
  wp end_op (fun _ k' => exists l', idle sz k' (apply_writes d (tx_writes c ls bs)) (ws ++ tx_writes c ls bs) l' /\ start l' = ls /\ size l' = lsz) (kern s).
Proof.
  intros [(l & K & Hl & (post & Hpost) & Hn & Ho & Hc & Hst & Hsi) T2 T3 _ T5 _ _] Hlen. rewrite dom_empty_L in K.
  assert (HL : LOGSIZE = 30) by done.
  unfold end_op, upd_log. rewrite wp_bind, wp_get, wp_bind, wp_modify. rewrite (k_log _ _ _ _ _ _ _ _ K), Hc, Ho.
  change (1 - 1 =? 0) with true. cbv iota. rewrite wp_bind, wp_modify, wp_bind. simpl klog. simpl bio.
  set (l2 := set_committing true (set_outstanding (1 - 1) l)).
  assert (K2 : kok sz (mk_kernel (bio (kern s)) l2) c (list_to_set bs) ∅ d ws l2) by exact (kok_log _ _ _ _ _ _ _ _ _ K).
  destruct bs as [|b bs'] eqn:Eb.
  - unfold commit. rewrite wp_bind, wp_get. simpl lh_n. rewrite Hn. simpl. apply wp_ret. rewrite wp_modify.
    exists (set_committing false l2). split; [|done]. rewrite app_nil_r. split; try done.
    eapply kok_ext; [|exact (kok_log _ _ _ _ _ _ _ _ _ K2)]. intros n. symmetry. apply T5, not_elem_of_nil.
  - rewrite <- Eb in *. assert (Hpos : (0 < length bs)%nat) by (rewrite Eb; simpl; lia).
    assert (Hhome : Forall (home sz l2) bs) by (eapply Forall_impl; [exact T2|]; intros x [? ?]; unfold home; simpl; lia).
    eapply wp_mono; [apply (commit_spec sz Hsz _ _ d ws l2 bs post K2 Hl Hpost Hn Hhome T3); lia|].
    intros [] k3 (c' & K3). rewrite wp_modify. simpl start in K3. rewrite Hst in K3.
    replace (tx_writes c ls bs) with (commit_writes c ls bs) by (unfold tx_writes; by rewrite Eb).
    exists (set_committing false (set_n 0 l2)). split; [|done]. rewrite (k_log _ _ _ _ _ _ _ _ K3).
    split; try done. apply (kok_log sz _ _ _ _ _ _ (set_n 0 l2)). eapply kok_ext; [|exact K3]. intros n. symmetry. eapply kok_clean; [exact K3|set_solver..].
Qed.

(** Outside a transaction the blocks can be read. *)
Lemma read_tx s d ws l :
  idle sz (kern s) d ws l -> (forall n, length (dk d n) = Z.to_nat BSIZE) ->
  tx sz d ws (start l) (size l) (cur_pid (bio (kern s))) false s (dk d) [] ∅.
Proof.
  intros [K L Hn Ho Hc] Hl. split; [|constructor|constructor|done|done|done|done]. exists l. split; [by rewrite dom_empty_L|].
  split; [done|]. split; [by exists (lh_block l)|]. done.
Qed.

Lemma tx_read s d ws ls lsz pd :
  tx sz d ws ls lsz pd false s (dk d) [] ∅ -> exists l, idle sz (kern s) d ws l /\ start l = ls /\ size l = lsz.
Proof.
  intros [(l & K & Hl & _ & Hn & Ho & Hc & Hst & Hsi) _ _ _ _ _ _]. rewrite dom_empty_L in K. exists l. by split.
Qed.

(** A crash at any block write of the commit, and in the recoveries after it. *)
Definition crash_atomic (d : gmap Z (list Z)) (ls : Z) (bs : list Z) (c' : Z -> list Z) (W : list (Z * list Z)) : Prop :=
  forall j, (exists kr, recover sz p (apply_writes d (take j W)) = Ok (tt, kr)) /\
    forall d', recovers sz p (apply_writes d (take j W)) d' -> forall m, outside ls m ->
      dk d' m = if (j <=? length bs)%nat then dk d m else c' m.

Lemma tx_crash_atomic s d ws ls lsz pd c bs :
  tx sz d ws ls lsz pd true s c bs ∅ -> (length bs < 29)%nat ->
  get32 (dk d 1) off_logstart = ls -> 1 < ls -> length (dk d ls) = Z.to_nat BSIZE -> lists (dk d ls) [] ->
  crash_atomic d ls bs c (tx_writes c ls bs).
Proof.
  intros T Hlen Hsb Hs1 Hhl Hclear j. destruct T as [(l & K & Hl & _ & _ & _ & _ & Hst & _) T2 T3 _ T5 _ _].
  destruct Hl as (_ & _ & Hs2 & _). rewrite Hst in Hs2. assert (HL : LOGSIZE = 30) by done. rewrite Forall_forall in T2.
  assert (Hns : forall n, n ∈ bs -> ls + LOGSIZE <= n) by (intros n Hn; by apply T2 in Hn as [_ ?]).
  destruct bs as [|b bs'] eqn:Eb.
  - simpl tx_writes. rewrite take_nil. assert (Hc : clean ls (dk d) d) by (split; [exact Hclear|split; [exact Hhl|done]]).
    pose proof (recover_clean sz p Hsz d ls [] Hsb Hs1 Hs2 ltac:(simpl; lia) Hhl (dk d) d Hc eq_refl) as (kr & Er & _).
    split; [exists kr; exact Er|]. intros d' Hr m Hm.
    assert (Hc' : clean ls (dk d) d') by (eapply (recovers_clean sz p Hsz d ls []); [exact Hsb|exact Hs1|exact Hs2|simpl; lia|exact Hhl|exact Hr|reflexivity|exact Hc]).
    destruct Hc' as (_ & _ & Hc'). rewrite (Hc' m Hm). destruct (j <=? _)%nat; [done|]. symmetry. apply T5, not_elem_of_nil.
  - rewrite <- Eb in *. replace (tx_writes c ls bs) with (commit_writes c ls bs) by (unfold tx_writes; by rewrite Eb).
    assert (Hbs : Forall (fun b => 0 <= b < sz /\ outside ls b) bs).
    { apply Forall_forall. intros n Hn. split; [by apply T2 in Hn as [? _]|]. apply Hns in Hn. unfold outside. lia. }
    destruct (commit_atomic sz p Hsz d c ls bs Hsb Hs1 Hs2 Hbs ltac:(lia)) with (j := j) as [Hrun Hrec]; [| |done|done|].
    + intros Hn%Hns. lia.
    + apply T5. intros Hn%Hns. lia.
    + split; [exact Hrun|]. intros d' Hr m Hm. rewrite (Hrec d' Hr m Hm). unfold after. destruct (j <=? _)%nat; [done|].
      case_bool_decide; [done|]. symmetry. by apply T5.
Qed.

(** The disk after the commit. *)
Lemma tx_done s d ws ls lsz pd c bs :
  tx sz d ws ls lsz pd true s c bs ∅ -> (length bs < 29)%nat -> 1 < ls -> length (dk d ls) = Z.to_nat BSIZE -> lists (dk d ls) [] ->
  clean ls c (apply_writes d (tx_writes c ls bs)).
Proof.
  intros [_ T2 T3 _ T5 _ _] Hlen Hs1 Hhl Hclear. assert (HL : LOGSIZE = 30) by done. rewrite Forall_forall in T2.
  destruct bs as [|b bs'] eqn:Eb.
  - split; [done|]. split; [done|]. intros m _. symmetry. apply T5, not_elem_of_nil.
  - rewrite <- Eb in *. replace (tx_writes c ls bs) with (commit_writes c ls bs) by (unfold tx_writes; by rewrite Eb).
    assert (Hbs : Forall (fun b => 0 <= b < sz /\ outside ls b) bs).
    { apply Forall_forall. intros n Hn. apply T2 in Hn as [? ?]. unfold outside. lia. }
    assert (Hcs : c ls = dk d ls) by (apply T5; intros Hn%T2; unfold homeb in Hn; lia).
    destruct (commit_done sz Hsz d c ls bs Hbs ltac:(lia) Hcs Hhl) as (D1 & D2 & D3). split; [done|]. split; [done|].
    intros m Hm. rewrite D3 by done. unfold after. case_bool_decide; [done|]. symmetry. by apply T5.
Qed.

(** A body that runs in a transaction. *)
Lemma in_tx_spec {A} (m : M fs A) s d ws l (P : A -> fs -> (Z -> list Z) -> list Z -> Prop) :
  idle sz (kern s) d ws l -> (forall n, length (dk d n) = Z.to_nat BSIZE) ->
  get32 (dk d 1) off_logstart = start l -> 1 < start l -> lists (dk d (start l)) [] ->
  (forall k, tx sz d ws (start l) (size l) (cur_pid (bio (kern s))) true (set_kern k s) (dk d) [] ∅ ->
     wp m (fun a s' => exists c' bs', tx sz d ws (start l) (size l) (cur_pid (bio (kern s))) true s' c' bs' ∅ /\ (length bs' < 29)%nat /\ P a s' c' bs') (set_kern k s)) ->
  exists a s' k l' c' bs', in_tx m s = Ok (a, set_kern k s') /\ P a s' c' bs' /\ (forall n, length (c' n) = Z.to_nat BSIZE) /\
    let W := tx_writes c' (start l) bs' in
    idle sz k (apply_writes d W) (ws ++ W) l' /\ start l' = start l /\ size l' = size l /\ clean (start l) c' (apply_writes d W) /\ crash_atomic d (start l) bs' c' W.
Proof.
  intros Hi Hl Hsb Hs1 Hclear Hm. destruct (begin_tx s d ws l Hi Hl) as (k & Ek & T). specialize (Hm k T).
  apply wp_run in Hm as (a & s' & Em & c' & bs' & T' & Hlen & HP). pose proof (end_tx _ _ _ _ _ _ _ _ T' Hlen) as He.
  apply wp_run in He as ([] & k' & Ee & l' & Hi' & Hst & Hsi).
  exists a, s', k', l', c', bs'. split; [|split; [exact HP|]; split; [apply T'|]; split; [exact Hi'|]; split; [done|]; split; [done|]; split].
  - unfold in_tx, on_kern, zoom, bind. rewrite Ek. simpl. rewrite Em, Ee. done.
  - eapply tx_done; [exact T'|done|done|apply Hl|done].
  - eapply tx_crash_atomic; [exact T'|done|done|done|apply Hl|done].
Qed.
End whole.
End FsTx.
