(* ===== verification/FsFile.v ===== *)
(** * FsFile: the contents of files in xv6

    The block map of an inode as a function of the blocks of the disk, and what
    bmap, readi, writei, iupdate and itrunc do to it, inside a transaction. *)
From stdpp Require Import base list gmap strings.
From Stdlib Require Import ZArith Lia.
From S2P Require Import Prelude Bio Log Fs FsTx.
Import Bio Log Fs FsTx.

Module FsFile.

(** Evaluate the constants of the layout. *)
Ltac consts :=
  change MAXFILE with 140 in *; change NINDIRECT with 128 in *; change NDIRECT with 12 in *; change BPB with 4096 in *;
  change (Z.to_nat BSIZE) with 512%nat in *; change BSIZE with 512 in *.

(** ** The block map *)

Section map.
Implicit Types (c : Z -> list Z) (ad : list Z) (bn : Z).

Definition ind ad : Z := ad !!! 12%nat.

(** The address of block [bn] of the file, zero if there is none. *)
Definition faddr c ad bn : Z :=
  if bn <? NDIRECT then ad !!! Z.to_nat bn
  else if ind ad =? 0 then 0 else getu32 (c (ind ad)) (Z.to_nat (4 * (bn - NDIRECT))).

Definition fblock c ad bn : list Z := if faddr c ad bn =? 0 then zero_block else c (faddr c ad bn).

(** The data blocks and the indirect block. *)
Definition owned c ad (b : Z) : Prop := b <> 0 /\ (b = ind ad \/ exists bn, 0 <= bn < MAXFILE /\ faddr c ad bn = b).

Context (B : superblock).
Notation used := (used B).
Notation data_block := (data_block B).
Notation BM := (bmapstart B).

Record file_ok c ad : Prop := {
  f_len : length ad = 13%nat;
  f_ind : ind ad <> 0 -> data_block (ind ad) /\ used c (ind ad) = true;
  f_blk bn : 0 <= bn < MAXFILE -> faddr c ad bn <> 0 -> data_block (faddr c ad bn) /\ used c (faddr c ad bn) = true;
  f_inj bn bn' : 0 <= bn < MAXFILE -> 0 <= bn' < MAXFILE -> faddr c ad bn <> 0 -> faddr c ad bn = faddr c ad bn' -> bn = bn';
  f_sep bn : 0 <= bn < MAXFILE -> faddr c ad bn <> 0 -> faddr c ad bn <> ind ad
}.

(** The file [c', ad'] has the blocks of [c, ad] and perhaps more that were
    free; nothing else changed but the free map. *)
Record ext c ad c' ad' : Prop := {
  e_ok : file_ok c' ad';
  e_keep bn : 0 <= bn < MAXFILE -> faddr c ad bn <> 0 -> faddr c' ad' bn = faddr c ad bn;
  e_ind : ind ad <> 0 -> ind ad' = ind ad;
  e_new b : owned c' ad' b -> owned c ad b \/ used c b = false;
  e_used b : 0 <= b < BPB -> used c b = true -> used c' b = true;
  e_only b : 0 <= b < BPB -> used c' b = true -> used c b = true \/ owned c' ad' b;
  e_other b : 0 <= b < BPB -> used c b = true -> ~ owned c ad b -> b <> BM -> c' b = c b
}.

Lemma owned_data c ad b : file_ok c ad -> owned c ad b -> data_block b /\ used c b = true.
Proof. intros [? F2 F3 ? ?] [Hb [->|(bn & Hbn & <-)]]; auto. Qed.

Lemma ext_refl c ad : file_ok c ad -> ext c ad c ad.
Proof. intros F. split; auto. Qed.

Lemma ext_trans c1 a1 c2 a2 c3 a3 : ext c1 a1 c2 a2 -> ext c2 a2 c3 a3 -> (0 <= BM) -> sb_size B <= BPB -> ext c1 a1 c3 a3.
Proof.
  intros [O1 K1 I1 N1 U1 L1 X1] [O2 K2 I2 N2 U2 L2 X2] HBM Hsz. split.
  - done.
  - intros bn Hbn Hnz. rewrite K2; [by apply K1|done|by rewrite K1].
  - intros Hnz. rewrite I2; [by apply I1|by rewrite I1].
  - intros b Ho. destruct (owned_data _ _ _ O2 Ho) as [[? ?] _]. destruct (N2 b Ho) as [Ho2|Hu]; [by apply N1|]. destruct (used c1 b) eqn:E; [|by right].
    rewrite (U1 b) in Hu by (done || lia). done.
  - auto.
  - intros b Hb Hu. destruct (L2 b Hb Hu) as [Hu2|]; [|by right]. destruct (L1 b Hb Hu2) as [|[Hnz Ho]]; [by left|]. right. split; [done|].
    destruct Ho as [->|(bn & Hbn & <-)].
    + left. symmetry. by apply I2.
    + right. exists bn. split; [done|]. by apply K2.
  - intros b Hb Hu Hn HM. rewrite X2; [by apply X1|done|by apply U1| |done]. intros Ho. destruct (N1 b Ho); [done|congruence].
Qed.

(** One block more: the free block [b] becomes block [w] of the file, or its
    indirect block. *)
Record one_more c ad c' ad' (b : Z) (w : option Z) : Prop := {
  o_free : data_block b /\ used c b = false;
  o_used x : 0 <= x < BPB -> used c' x = (b =? x) || used c x;
  o_len : length ad' = 13%nat;
  o_addr bn : 0 <= bn < MAXFILE -> Some bn <> w -> faddr c' ad' bn = faddr c ad bn;
  o_ind : w <> None -> ind ad' = ind ad;
  o_where : match w with None => ind ad = 0 /\ ind ad' = b | Some bn => 0 <= bn < MAXFILE /\ faddr c ad bn = 0 /\ faddr c' ad' bn = b end;
  o_other x : x <> BM -> x <> b -> (x <> 0 -> x <> ind ad) -> c' x = c x;
  o_new : c' b = zero_block
}.

Lemma one_more_cases c ad c' ad' b w bn :
  one_more c ad c' ad' b w -> 0 <= bn < MAXFILE -> (faddr c' ad' bn = b /\ w = Some bn) \/ (faddr c' ad' bn = faddr c ad bn).
Proof.
  intros O Hbn. destruct (decide (Some bn = w)) as [<-|]; [left|right; by apply (o_addr _ _ _ _ _ _ O)].
  pose proof (o_where _ _ _ _ _ _ O) as Hw. cbv iota in Hw. split; [apply Hw|done].
Qed.

Lemma one_more_ind c ad c' ad' b w : one_more c ad c' ad' b w -> ind ad' = ind ad \/ (ind ad = 0 /\ ind ad' = b /\ w = None).
Proof.
  intros O. destruct w; [left; by apply (o_ind _ _ _ _ _ _ O)|right]. destruct (o_where _ _ _ _ _ _ O). done.
Qed.

Lemma one_more_ok c ad c' ad' b w :
  0 <= BM -> sb_size B <= BPB -> file_ok c ad -> one_more c ad c' ad' b w -> file_ok c' ad'.
Proof.
  intros HBM Hsz F O. pose proof F as [F1 F2 F3 F4 F5]. destruct (o_free _ _ _ _ _ _ O) as [Hb Hu].
  assert (Hbb : 0 <= b < BPB) by (unfold FsTx.data_block in Hb; lia).
  assert (Hold : forall x, data_block x /\ used c x = true -> data_block x /\ used c' x = true).
  { intros x [Hx Ux]. split; [done|]. rewrite (o_used _ _ _ _ _ _ O) by (unfold FsTx.data_block in Hx; lia). by rewrite Ux, orb_true_r. }
  assert (Hnew : data_block b /\ used c' b = true) by (split; [done|]; rewrite (o_used _ _ _ _ _ _ O), Z.eqb_refl by done; done).
  assert (Hne : forall x, used c x = true -> x <> b) by congruence.
  split.
  - apply O.
  - intros Hnz. destruct (one_more_ind _ _ _ _ _ _ O) as [E|(_ & -> & _)]; [rewrite E in *; auto|done].
  - intros bn Hbn Hnz. destruct (one_more_cases _ _ _ _ _ _ bn O Hbn) as [[-> _]|E]; [done|]. rewrite E in *. auto.
  - intros bn bn' Hbn Hbn' Hnz Heq.
    destruct (one_more_cases _ _ _ _ _ _ bn O Hbn) as [[E Ew]|E], (one_more_cases _ _ _ _ _ _ bn' O Hbn') as [[E' Ew']|E'].
    + congruence.
    + exfalso. apply (Hne (faddr c ad bn')); [apply F3; congruence|congruence].
    + exfalso. apply (Hne (faddr c ad bn)); [apply F3; congruence|congruence].
    + apply F4; congruence.
  - intros bn Hbn Hnz.
    destruct (one_more_cases _ _ _ _ _ _ bn O Hbn) as [[E Ew]|E], (one_more_ind _ _ _ _ _ _ O) as [Ei|(Ez & Ei & Ew')].
    + rewrite E, Ei. intros Eb. apply (Hne (ind ad)); [apply F2; congruence|done].
    + congruence.
    + rewrite E, Ei. apply F5; congruence.
    + rewrite E, Ei. apply Hne, F3; congruence.
Qed.

Lemma one_more_ext c ad c' ad' b w :
  0 <= BM -> sb_size B <= BPB -> file_ok c ad -> one_more c ad c' ad' b w -> ext c ad c' ad'.
Proof.
  intros HBM Hsz F O. pose proof F as [F1 F2 F3 F4 F5]. destruct (o_free _ _ _ _ _ _ O) as [Hb Hu].
  assert (Hbb : 0 <= b < BPB) by (unfold FsTx.data_block in Hb; lia).
  assert (Hown : owned c' ad' b).
  { split; [unfold FsTx.data_block in Hb; lia|]. pose proof (o_where _ _ _ _ _ _ O) as Hw. destruct w as [bn|]; [right; exists bn; tauto|left; symmetry; tauto]. }
  split.
  - by eapply one_more_ok.
  - intros bn Hbn Hnz. destruct (one_more_cases _ _ _ _ _ _ bn O Hbn) as [[E Ew]|E]; [|done].
    pose proof (o_where _ _ _ _ _ _ O) as Hw. rewrite Ew in Hw. cbv iota in Hw. tauto.
  - intros Hnz. destruct (one_more_ind _ _ _ _ _ _ O) as [?|[? _]]; done.
  - intros x [Hx Ho]. destruct (decide (x = b)) as [->|Hne]; [by right|]. left. split; [done|]. destruct Ho as [->|(bn & Hbn & <-)].
    + left. destruct (one_more_ind _ _ _ _ _ _ O) as [?|(_ & ? & _)]; done.
    + right. exists bn. split; [done|]. destruct (one_more_cases _ _ _ _ _ _ bn O Hbn) as [[? _]|?]; done.
  - intros x Hx Ux. rewrite (o_used _ _ _ _ _ _ O) by done. by rewrite Ux, orb_true_r.
  - intros x Hx. rewrite (o_used _ _ _ _ _ _ O) by done. destruct (Z.eqb_spec b x) as [<-|]; [by right|by left].
  - intros x Hx Ux Hn HM. apply (o_other _ _ _ _ _ _ O); [done|congruence|]. intros Hnz E. apply Hn. split; [done|by left].
Qed.

Lemma one_more_fblock c ad c' ad' b w bn :
  0 <= BM -> file_ok c ad -> one_more c ad c' ad' b w -> 0 <= bn < MAXFILE -> fblock c' ad' bn = fblock c ad bn.
Proof.
  intros HBM F O Hbn. destruct (o_free _ _ _ _ _ _ O) as [Hb Hu]. unfold fblock.
  destruct (one_more_cases _ _ _ _ _ _ bn O Hbn) as [[E Ew]|E].
  - pose proof (o_where _ _ _ _ _ _ O) as Hw. rewrite Ew in Hw. cbv iota in Hw. destruct Hw as (_ & -> & _). rewrite E.
    rewrite (proj2 (Z.eqb_neq b 0)) by (unfold FsTx.data_block in Hb; lia). apply O.
  - rewrite E. case_Z; [done|]. destruct (f_blk _ _ F bn Hbn) as [[? ?] ?]; [done|]. apply (o_other _ _ _ _ _ _ O); [lia|congruence|].
    intros _. by apply (f_sep _ _ F).
Qed.

(** The three places where bmap allocates. *)

Context (HBM : 0 < BM) (Hsz : sb_size B <= BPB).

Lemma getu32_zero o : (o + 4 <= Z.to_nat BSIZE)%nat -> getu32 zero_block o = 0.
Proof.
  intros Ho. assert (E : forall i, (i < Z.to_nat BSIZE)%nat -> zero_block !!! i = 0) by (intros i Hi; by apply lookup_total_replicate_2).
  unfold getu32, get32. by rewrite !E by lia.
Qed.

Lemma getu32_put32_other d o o' v :
  (o + 4 <= length d)%nat -> (o' + 4 <= o \/ o + 4 <= o')%nat -> getu32 (put32 d o v) o' = getu32 d o'.
Proof. intros. unfold getu32. by rewrite get32_put32_other. Qed.

Context (c : Z -> list Z) (ad : list Z) (Hlen : forall n, length (c n) = Z.to_nat BSIZE) (F : file_ok c ad).
Context (HB : forall x b, data_block b -> 0 <= x < BPB -> used (alloc_block B c b) x = (b =? x) || used c x).
Context (b : Z) (Hb : data_block b) (Hu : used c b = false).

Lemma alloc_direct bn : 0 <= bn < NDIRECT -> ad !!! Z.to_nat bn = 0 ->
  one_more c ad (alloc_block B c b) (<[Z.to_nat bn := b]> ad) b (Some bn).
Proof.
  intros Hbn H0. pose proof (f_len _ _ F) as Hl. unfold NDIRECT in Hbn.
  assert (Ei : ind (<[Z.to_nat bn := b]> ad) = ind ad) by (unfold ind; apply total_insert_ne; lia).
  assert (E : faddr (alloc_block B c b) (<[Z.to_nat bn := b]> ad) bn = b).
  { unfold faddr, NDIRECT. rewrite (proj2 (Z.ltb_lt bn 12)) by lia. apply total_insert_eq. lia. }
  split; [done|by intros; apply HB|by rewrite length_insert| |done| | |apply set_block_eq].
  - intros bn' Hbn' Hne. unfold faddr. rewrite Ei. destruct (Z.ltb_spec bn' NDIRECT); [apply total_insert_ne; intros ?; apply Hne; f_equal; lia|].
    case_Z; [done|]. destruct (f_ind _ _ F) as [[? ?] ?]; [done|]. rewrite alloc_other by (lia || congruence). done.
  - split; [consts; lia|]. split; [|done]. unfold faddr, NDIRECT. by rewrite (proj2 (Z.ltb_lt bn 12)) by lia.
  - intros x ? ? _. by apply alloc_other.
Qed.

Lemma alloc_ind : ind ad = 0 -> one_more c ad (alloc_block B c b) (<[12%nat := b]> ad) b None.
Proof.
  intros H0. pose proof (f_len _ _ F) as Hl.
  assert (Ei : ind (<[12%nat := b]> ad) = b) by (unfold ind; apply total_insert_eq; lia).
  split; [done|by intros; apply HB|by rewrite length_insert| |done|done| |apply set_block_eq].
  - intros bn Hbn _. unfold faddr. rewrite Ei, H0. destruct (Z.ltb_spec bn NDIRECT) as [Hlt|]; [apply total_insert_ne; unfold NDIRECT in Hlt; lia|].
    unfold FsTx.data_block in Hb. rewrite (proj2 (Z.eqb_neq b 0)) by lia. rewrite alloc_new. apply getu32_zero.
    consts. lia.
  - intros x ? ? _. by apply alloc_other.
Qed.

Lemma alloc_entry bn : NDIRECT <= bn < MAXFILE -> ind ad <> 0 -> faddr c ad bn = 0 ->
  one_more c ad (set_block (alloc_block B c b) (ind ad) (put32 (c (ind ad)) (Z.to_nat (4 * (bn - NDIRECT))) b)) ad b (Some bn).
Proof.
  intros Hbn Hi H0. destruct (f_ind _ _ F Hi) as [[? ?] Ui]. consts.
  assert (Hbi : b <> ind ad) by congruence. unfold FsTx.data_block in Hb.
  assert (Hnum : 0 <= b <= UINT_MAX) by (unfold UINT_MAX; consts; lia).
  pose proof (Hlen (ind ad)) as Hli. consts.
  split; [done| |apply F| |done| | |by rewrite set_block_ne by done; apply set_block_eq].
  - intros x Hx. rewrite <- (HB x b) by done. unfold FsTx.used. by rewrite set_block_ne by lia.
  - intros bn' Hbn' Hne. unfold faddr. destruct (Z.ltb_spec bn' NDIRECT); [done|]. rewrite (proj2 (Z.eqb_neq _ _)) by done. rewrite set_block_eq.
    apply getu32_put32_other; [rewrite Hli; lia|]. assert (bn' <> bn) by congruence. consts. lia.
  - split; [consts; lia|]. split; [done|]. unfold faddr. consts. destruct (Z.ltb_spec bn 12); [lia|].
    rewrite (proj2 (Z.eqb_neq _ _)) by done. rewrite set_block_eq. apply getu32_put32; [rewrite Hli; lia|done].
  - intros x Hx ? Hxi. destruct (decide (x = ind ad)) as [->|]; [by destruct Hxi|]. rewrite set_block_ne by done. by apply alloc_other.
Qed.
End map.

(** ** Operations *)

Section ops.
Context (sz : Z) (Hsz : sz <= 2 ^ 31) (d0 : gmap Z (list Z)) (ws0 : list (Z * list Z)) (ls lsz pd : Z) (w : bool) (Hlsz : LOGSIZE <= lsz).
Context (B : superblock) (HB : layout sz ls B).
Notation tx := (FsTx.tx sz d0 ws0 ls lsz pd w).
Notation BM := (bmapstart B).

Lemma BM_pos : 0 < BM.
Proof. by eapply map_pos. Qed.
Lemma size_BPB : sb_size B <= BPB.
Proof. apply HB. Qed.

Lemma wp_get_inode s i p (Q : inode -> fs -> Prop) : icache s !! i = Some p -> Q p s -> wp (get_inode i) Q s.
Proof using. intros Hi HQ. unfold get_inode. wp_pure. eauto. Qed.

Lemma wp_upd_inode s i p f (Q : unit -> fs -> Prop) :
  icache s !! i = Some p -> Q tt (set_icache (<[i := f p]> (icache s)) s) -> wp (upd_inode i f) Q s.
Proof using.
  intros Hi HQ. unfold upd_inode. rewrite wp_modify.
  rewrite (list_alter_ext f (fun _ => f p) _ (icache s) i); [by rewrite <- list_insert_alter| |done].
  intros x Hx. congruence.
Qed.

Lemma wp_get_addr s i p bn (Q : Z -> fs -> Prop) :
  icache s !! i = Some p -> length (addrs p) = 13%nat -> 0 <= bn <= NDIRECT -> Q (addrs p !!! Z.to_nat bn) s -> wp (get_addr i bn) Q s.
Proof using.
  intros Hi Hl Hbn HQ. unfold get_addr. rewrite wp_bind. eapply wp_get_inode; [done|]. wp_pure.
  destruct (znth_is_Some (addrs p) bn) as [x Hx]; [consts; lia|]. exists x. split; [done|].
  apply znth_Some in Hx as [_ Hx]. by rewrite (list_lookup_total_correct _ _ _ Hx) in HQ.
Qed.

(** The blocks a file may still take: the free ones and, once, its indirect block. *)
Definition credit c ad : Z := Z.of_nat (nfree B c) + (if ind ad =? 0 then 0 else 1).

(** What bmap may have done to reach block [bn], from the log [bs]. *)
Record mapped c ad (bs : list Z) bn c' ad' (bs' : list Z) : Prop := {
  m_ext : ext B c ad c' ad';
  m_block bn' : 0 <= bn' < MAXFILE -> fblock c' ad' bn' = fblock c ad bn';
  m_map : map_ok B c';
  m_addr : faddr c' ad' bn <> 0;
  m_free : credit c ad <= credit c' ad' + 1;
  m_logs x : x ∈ bs' -> x ∈ bs \/ x = BM \/ (x = ind ad' /\ ind ad' <> 0) \/ x = faddr c' ad' bn;
  m_same : faddr c ad bn <> 0 -> c' = c /\ ad' = ad /\ bs' = bs
}.

(** Allocating the block that entry [j] of the addresses will hold. *)
Lemma balloc_addr_spec {A} (rest : Z -> M fs A) s c bs i p j v Q :
  w = true -> tx s c bs ∅ -> sb s = B -> map_ok B c -> icache s !! i = Some p -> file_ok B c (addrs p) ->
  (0 < nfree B c)%nat -> (length bs < 28)%nat ->
  (forall b, data_block B b -> used B c b = false -> one_more B c (addrs p) (alloc_block B c b) (<[Z.to_nat j := b]> (addrs p)) b v) ->
  (forall s' b, let c' := alloc_block B c b in let ad' := <[Z.to_nat j := b]> (addrs p) in
     tx s' c' (logs (logs bs BM) b) ∅ -> sb s' = B -> icache s' = <[i := set_addrs ad' p]> (icache s) ->
     one_more B c (addrs p) c' ad' b v -> map_ok B c' -> nfree B c = S (nfree B c') -> wp (rest b) Q s') ->
  wp (let! b := balloc 1 in do! put_addr i j b in rest b) Q s.
Proof.
  intros Hw T Hsb Hm Hi F Hnf Hr Ho HQ. rewrite wp_bind. eapply (balloc_spec sz Hsz d0 ws0 ls lsz pd w Hlsz B HB Hw);
    [exact T|done|done|done|done|done|rewrite map_size_empty; lia|].
  intros k b Hb Hu _ T1. rewrite wp_bind. unfold put_addr. eapply wp_upd_inode; [exact Hi|].
  assert (Hl : length (c BM) = Z.to_nat BSIZE) by apply T.
  apply HQ; [|done|done|by apply Ho|by eapply alloc_map_ok|by eapply alloc_nfree].
  eapply tx_same_kern; [|exact T1]. done.
Qed.

Lemma alloc_used_all c b x : (forall n, length (c n) = Z.to_nat BSIZE) -> data_block B b -> 0 <= x < BPB -> used B (alloc_block B c b) x = (b =? x) || used B c x.
Proof. intros. by eapply alloc_used. Qed.

Lemma mapped_refl c ad bs bn : file_ok B c ad -> map_ok B c -> faddr c ad bn <> 0 -> mapped c ad bs bn c ad bs.
Proof. intros. split; [by apply ext_refl|done|done|done|lia|by left|done]. Qed.

Lemma one_more_mapped c ad c' ad' b bn bs bs' :
  file_ok B c ad -> one_more B c ad c' ad' b (Some bn) -> map_ok B c' -> nfree B c = S (nfree B c') ->
  (forall x, x ∈ bs' -> x ∈ bs \/ x = BM \/ (x = ind ad' /\ ind ad' <> 0) \/ x = b) -> mapped c ad bs bn c' ad' bs'.
Proof.
  intros F O Hm Hn Hl. pose proof BM_pos. pose proof size_BPB. destruct (o_where _ _ _ _ _ _ _ O) as (Hbn & Hz & Ha).
  split; [eapply one_more_ext; [lia|done|done|exact O]|intros; eapply (one_more_fblock B); [lia|done|exact O|done]|done| | | |congruence].
  - rewrite Ha. destruct (o_free _ _ _ _ _ _ _ O) as [[? ?] _]. lia.
  - unfold credit. rewrite (o_ind _ _ _ _ _ _ _ O) by done. lia.
  - intros x Hx. rewrite Ha. auto.
Qed.

Lemma mapped_trans c1 a1 bs1 bn c2 a2 bs2 c3 a3 bs3 :
  ext B c1 a1 c2 a2 -> (forall bn', 0 <= bn' < MAXFILE -> fblock c2 a2 bn' = fblock c1 a1 bn') -> faddr c1 a1 bn = 0 ->
  credit c1 a1 <= credit c2 a2 -> (forall x, x ∈ bs2 -> x ∈ bs1 \/ x = BM \/ (x = ind a2 /\ ind a2 <> 0)) ->
  mapped c2 a2 bs2 bn c3 a3 bs3 -> mapped c1 a1 bs1 bn c3 a3 bs3.
Proof.
  intros E Hb Hz Hn Hl [M1 M2 M3 M4 M5 M6 M7]. pose proof BM_pos. pose proof size_BPB. split.
  - eapply ext_trans; [exact E|exact M1|lia|done].
  - intros bn' Hbn'. rewrite M2 by done. by apply Hb.
  - done.
  - done.
  - lia.
  - intros x Hx. destruct (M6 x Hx) as [Hx2|[Hx2|Hx2]]; [|by right; left|by right; right].
    destruct (Hl x Hx2) as [?|[?|[-> Hi]]]; [by left|by right; left|right; right; left].
    rewrite (e_ind _ _ _ _ _ M1) by done. done.
  - done.
Qed.

Lemma bmap_entry_spec s c bs i p bn Q :
  tx s c bs ∅ -> sb s = B -> map_ok B c -> icache s !! i = Some p -> file_ok B c (addrs p) -> NDIRECT <= bn < MAXFILE -> ind (addrs p) <> 0 ->
  (w = true /\ (0 < nfree B c)%nat) \/ faddr c (addrs p) bn <> 0 -> (length bs < 27)%nat ->
  (forall s' c' bs', tx s' c' bs' ∅ -> sb s' = B -> icache s' = icache s ->
     mapped c (addrs p) bs bn c' (addrs p) bs' -> Q (faddr c' (addrs p) bn) s') ->
  wp (bmap_entry 1 (bn - NDIRECT) (ind (addrs p))) Q s.
Proof.
  intros T Hsb Hm Hi F Hbn Hiz Hnf Hr HQ. destruct (f_ind _ _ _ F Hiz) as [Hid Hiu]. set (a := ind (addrs p)) in *.
  assert (Hlen : forall n, length (c n) = Z.to_nat BSIZE) by apply T. pose proof BM_pos. pose proof size_BPB.
  assert (Hhome : homeb sz ls a) by (by eapply data_home).
  unfold bmap_entry. rewrite wp_bind. eapply (tx_bread sz Hsz d0 ws0 ls lsz pd w Hlsz); [exact T|done|apply Hhome|rewrite map_size_empty; unfold NBUF; lia|].
  intros bp k1 T1. rewrite wp_bind. eapply tx_data; [exact T1|apply lookup_insert_eq|]. cbv zeta.
  assert (Efa : getu32 (c a) (Z.to_nat (4 * (bn - NDIRECT))) = faddr c (addrs p) bn).
  { unfold faddr. fold a. rewrite (proj2 (Z.ltb_ge bn NDIRECT)), (proj2 (Z.eqb_neq a 0)) by (done || lia). done. }
  rewrite Efa. rewrite wp_bind. destruct (Z.eqb_spec (faddr c (addrs p) bn) 0) as [Hz|Hz].
  - destruct Hnf as [[Hw Hnf]|]; [|done]. rewrite wp_bind. eapply (balloc_spec sz Hsz d0 ws0 ls lsz pd w Hlsz B HB Hw); [exact T1|done|done| | |done| |].
    + rewrite lookup_insert_ne; [done|]. unfold data_block in Hid. lia.
    + intros b Hb Hu. rewrite lookup_insert_ne; [done|]. congruence.
    + rewrite map_size_insert_None, map_size_empty by done. lia.
    + intros k2 b Hb Hu _ T2.
      assert (Hl2 : (length (logs (logs bs BM) b) < 29)%nat) by (pose proof (length_logs bs BM); pose proof (length_logs (logs bs BM) b); lia).
      assert (Hba : b <> a) by congruence. assert (Hda : data_block B a) by done. unfold data_block in Hb, Hid.
      assert (Ea : alloc_block B c b a = c a) by (apply alloc_other; [lia|done]).
      eapply (tx_write sz Hsz d0 ws0 ls lsz pd w Hlsz B HB Hw); [exact T2|apply lookup_insert_eq|done|done|rewrite length_put32, Ea; apply Hlen|].
      intros k3 T3. rewrite wp_ret. rewrite wp_bind. eapply tx_brelse; [exact T3|apply lookup_insert_eq|].
      intros k4 T4. rewrite wp_ret. rewrite delete_insert_id in T4 by done. rewrite Ea in T4.
      pose proof (alloc_entry B BM_pos size_BPB c (addrs p) Hlen F (fun x b => alloc_used_all c b x Hlen) b Hb Hu bn Hbn Hiz Hz) as O. fold a in O.
      clear T2 T3. set (c' := set_block (alloc_block B c b) a _) in *.
      assert (Hn : nfree B c = S (nfree B c')).
      { rewrite (alloc_nfree sz ls B HB c b) by done. f_equal. symmetry. apply nfree_same. unfold c'. rewrite set_block_ne by lia. done. }
      destruct (o_where _ _ _ _ _ _ _ O) as (_ & _ & Eb). rewrite <- Eb.
      eapply HQ; [exact T4|done|done|]. eapply one_more_mapped; [done|exact O| |exact Hn|].
      * intros x Hx. unfold used, c'. rewrite set_block_ne by lia. by eapply (alloc_map_ok sz ls B HB).
      * intros x Hx. rewrite !elem_of_logs in Hx. fold a. tauto.
  - rewrite wp_ret, wp_bind. eapply tx_brelse; [exact T1|apply lookup_insert_eq|]. intros k2 T2. rewrite wp_ret. rewrite delete_insert_id in T2 by done.
    eapply HQ; [exact T2|done|done|by apply mapped_refl].
Qed.

Lemma bmap_spec s c bs i p bn Q :
  tx s c bs ∅ -> sb s = B -> map_ok B c -> icache s !! i = Some p -> idev p = 1 -> file_ok B c (addrs p) -> 0 <= bn < MAXFILE ->
  (w = true /\ 2 <= credit c (addrs p)) \/ faddr c (addrs p) bn <> 0 -> (length bs <= 24)%nat ->
  (forall s' c' ad' bs', tx s' c' bs' ∅ -> sb s' = B -> icache s' = <[i := set_addrs ad' p]> (icache s) ->
     mapped c (addrs p) bs bn c' ad' bs' -> Q (faddr c' ad' bn) s') ->
  wp (bmap i bn) Q s.
Proof.
  intros T Hsb Hm Hi Hdev F Hbn Hnf Hr HQ. pose proof (f_len _ _ _ F) as Hl. assert (Hlen : forall n, length (c n) = Z.to_nat BSIZE) by apply T.
  assert (Hcr : 2 <= credit c (addrs p) -> (0 < nfree B c)%nat) by (unfold credit; case_Z; lia).
  assert (Hid : <[i := set_addrs (addrs p) p]> (icache s) = icache s) by (destruct p; by apply list_insert_id).
  assert (Hkeep : forall s1 ad1, icache s1 = <[i := set_addrs ad1 p]> (icache s) -> icache s1 !! i = Some (set_addrs ad1 p)).
  { intros s1 ad1 ->. apply list_lookup_insert_eq. by eapply lookup_lt_Some. }
  unfold bmap. rewrite wp_bind. eapply wp_get_inode; [exact Hi|]. rewrite Hdev. destruct (Z.ltb_spec bn NDIRECT) as [Hd|Hd].
  - rewrite wp_bind. eapply wp_get_addr; [exact Hi|done|lia|].
    assert (Efa : faddr c (addrs p) bn = addrs p !!! Z.to_nat bn) by (unfold faddr; by rewrite (proj2 (Z.ltb_lt _ _))). rewrite <- Efa.
    destruct (Z.eqb_spec (faddr c (addrs p) bn) 0) as [Hz|Hz].
    + destruct Hnf as [[Hw Hnf]|]; [|done]. eapply balloc_addr_spec; [done|exact T|done|done|exact Hi|done|by apply Hcr|lia| |].
      * intros b Hb Hu. eapply (alloc_direct B c (addrs p) F (fun x b => alloc_used_all c b x Hlen) b Hb Hu bn); [lia|congruence].
      * cbv zeta. intros s' b T' Hsb' Hic O Hm' Hn. rewrite wp_ret. destruct (o_where _ _ _ _ _ _ _ O) as (_ & _ & Eb). rewrite <- Eb.
        eapply HQ; [exact T'|done|exact Hic|]. eapply one_more_mapped; [done|exact O|done|done|]. intros x Hx. rewrite !elem_of_logs in Hx. tauto.
    + rewrite wp_ret. eapply HQ; [exact T|done|by rewrite Hid|by apply mapped_refl].
  - cbv zeta. rewrite (proj2 (Z.ltb_lt (bn - NDIRECT) NINDIRECT)) by (consts; lia).
    rewrite wp_bind. eapply wp_get_addr; [exact Hi|done|consts; lia|]. change (addrs p !!! Z.to_nat NDIRECT) with (ind (addrs p)).
    rewrite wp_bind. destruct (Z.eqb_spec (ind (addrs p)) 0) as [Hz|Hz].
    + assert (Efa : faddr c (addrs p) bn = 0) by (unfold faddr; rewrite (proj2 (Z.ltb_ge bn NDIRECT)), Hz by lia; done).
      destruct Hnf as [[Hw Hnf]|]; [|done]. unfold credit in Hnf. rewrite Hz in Hnf. simpl in Hnf.
      eapply (balloc_addr_spec _ _ _ _ _ _ _ None); [done|exact T|done|done|exact Hi|done|lia|lia| |].
      * intros b Hb Hu. eapply (alloc_ind B BM_pos c (addrs p) F (fun x b => alloc_used_all c b x Hlen) b Hb Hu). done.
      * cbv zeta. intros s1 b T1 Hsb1 Hic1 O Hm1 Hn1. rewrite wp_ret. destruct (o_where _ _ _ _ _ _ _ O) as (_ & Eb).
        set (ad1 := <[Z.to_nat NDIRECT := b]> (addrs p)) in *. pose proof BM_pos. pose proof size_BPB.
        assert (F1 : file_ok B (alloc_block B c b) ad1) by (eapply one_more_ok; [lia|done|done|exact O]).
        destruct (o_free _ _ _ _ _ _ _ O) as [[? ?] _]. assert (Hi1 : ind ad1 <> 0) by lia. rewrite <- Eb.
        eapply (bmap_entry_spec s1 _ _ i (set_addrs ad1 p) bn); [exact T1|done|done|by eapply Hkeep|exact F1|lia|done|left; split; [done|lia]| |].
        { pose proof (length_logs bs BM). pose proof (length_logs (logs bs BM) b). lia. }
        cbn [addrs set_addrs]. intros s2 c2 bs2 T2 Hsb2 Hic2 M2. eapply HQ; [exact T2|done|by rewrite Hic2|].
        eapply mapped_trans; [eapply one_more_ext; [lia|done|done|exact O]|intros; eapply (one_more_fblock B); [lia|done|exact O|done]|done| | |exact M2].
        { unfold credit. rewrite Hz, Eb, (proj2 (Z.eqb_neq b 0)) by lia. simpl. lia. }
        intros x Hx. rewrite !elem_of_logs in Hx. rewrite Eb. intuition lia.
    + rewrite wp_ret. eapply (bmap_entry_spec s c bs i p bn); [exact T|done|done|exact Hi|done|lia|done|destruct Hnf as [[? ?]|]; [left; split; [done|by apply Hcr]|by right]|lia|].
      intros s2 c2 bs2 T2 Hsb2 Hic2 M2. eapply HQ; [exact T2|done|by rewrite Hic2, Hid|exact M2].
Qed.

(** *** Bytes *)

Definition fbyte c ad (o : Z) : Z := fblock c ad (o / BSIZE) !!! Z.to_nat (o mod BSIZE).
Definition fbytes c ad (off n : Z) : list Z := map (fbyte c ad) (seqZ off n).

Lemma length_fblock c ad bn : (forall n, length (c n) = Z.to_nat BSIZE) -> length (fblock c ad bn) = Z.to_nat BSIZE.
Proof using. intros H. unfold fblock. case_Z; [done|apply H]. Qed.

Lemma off_split off m x : 0 <= off -> 0 <= x < m -> m <= BSIZE - off mod BSIZE ->
  (off + x) / BSIZE = off / BSIZE /\ (off + x) mod BSIZE = off mod BSIZE + x.
Proof using.
  intros Ho Hx Hm. consts. pose proof (Z.mod_pos_bound off 512 ltac:(lia)). pose proof (Z.div_mod off 512 ltac:(lia)).
  split; symmetry; [apply (Z.div_unique _ _ _ (off mod 512 + x)); lia|apply (Z.mod_unique _ _ (off / 512)); lia].
Qed.

(** The part of a block that one turn of the loops copies. *)
Lemma fbytes_chunk c ad off m :
  (forall n, length (c n) = Z.to_nat BSIZE) -> 0 <= off -> 0 <= m <= BSIZE - off mod BSIZE ->
  take (Z.to_nat m) (drop (Z.to_nat (off mod BSIZE)) (fblock c ad (off / BSIZE))) = fbytes c ad off m.
Proof using.
  intros Hl Ho Hm. pose proof (Z.mod_pos_bound off BSIZE ltac:(done)) as Hmod. pose proof (length_fblock c ad (off / BSIZE) Hl) as Hlb.
  apply list_eq. intros i. unfold fbytes. rewrite list_lookup_fmap. destruct (decide (i < Z.to_nat m)%nat) as [Hi|Hi].
  - rewrite lookup_take_lt, lookup_drop by done. rewrite lookup_seqZ_lt by lia. simpl. unfold fbyte.
    destruct (off_split off m (Z.of_nat i)) as [-> ->]; [lia|lia|lia|].
    rewrite (list_lookup_lookup_total_lt _ (Z.to_nat (off mod BSIZE) + i)) by lia. do 2 f_equal. lia.
  - rewrite lookup_take_ge by lia. rewrite lookup_seqZ_ge by lia. done.
Qed.

Lemma fbytes_app c ad off m n : 0 <= m -> 0 <= n -> fbytes c ad off (m + n) = fbytes c ad off m ++ fbytes c ad (off + m) n.
Proof using. intros. unfold fbytes. rewrite seqZ_app by done. apply fmap_app. Qed.

Lemma set_addrs_same p : set_addrs (addrs p) p = p.
Proof using. by destruct p. Qed.

(** ** Reading *)

Lemma readi_loop_spec fuel : forall s c bs i p off n acc,
  tx s c bs ∅ -> sb s = B -> map_ok B c -> icache s !! i = Some p -> idev p = 1 -> file_ok B c (addrs p) ->
  0 <= off -> 0 <= n -> off + n <= MAXFILE * BSIZE -> (forall o, off <= o < off + n -> faddr c (addrs p) (o / BSIZE) <> 0) ->
  (length bs <= 24)%nat -> (Z.to_nat n < fuel)%nat ->
  wp (readi_loop fuel i off n acc)
    (fun r s' => r = acc ++ fbytes c (addrs p) off n /\ tx s' c bs ∅ /\ sb s' = B /\ icache s' = icache s) s.
Proof.
  induction fuel as [|fuel IH]; intros s c bs i p off n acc T Hsb Hm Hi Hdev F Ho Hn Hmax Hsolid Hr Hf; [lia|]. cbn [readi_loop].
  destruct (Z.ltb_spec 0 n) as [Hpos|Hpos].
  2: { rewrite wp_ret. replace n with 0 by lia. split; [by rewrite app_nil_r|done]. }
  assert (Hlen : forall n, length (c n) = Z.to_nat BSIZE) by apply T.
  pose proof (Z.mod_pos_bound off BSIZE ltac:(done)) as Hmod. assert (Ha : faddr c (addrs p) (off / BSIZE) <> 0) by (apply Hsolid; lia).
  assert (Hbn : 0 <= off / BSIZE < MAXFILE) by (split; [apply Z.div_pos; [done|done]|apply Z.div_lt_upper_bound; [done|lia]]).
  destruct (f_blk _ _ _ F _ Hbn Ha) as [Hd _].
  rewrite wp_bind. eapply wp_get_inode; [exact Hi|]. rewrite wp_bind.
  eapply bmap_spec; [exact T|done|done|exact Hi|done|done|done|by right|done|]. intros s1 c1 ad1 bs1 T1 Hsb1 Hic1 M1.
  destruct (m_same _ _ _ _ _ _ _ M1 Ha) as (-> & -> & ->). rewrite set_addrs_same, list_insert_id in Hic1 by done.
  rewrite Hdev, wp_bind. eapply (tx_bread sz Hsz d0 ws0 ls lsz pd w Hlsz); [exact T1|done| |rewrite map_size_empty; unfold NBUF; lia|].
  { eapply data_home in Hd; [apply Hd|exact HB]. }
  intros bp k2 T2. cbv zeta. rewrite wp_bind. eapply tx_data; [exact T2|apply lookup_insert_eq|].
  rewrite wp_bind. eapply tx_brelse; [exact T2|apply lookup_insert_eq|]. intros k3 T3. rewrite delete_insert_id in T3 by done.
  set (m := Z.min n (BSIZE - off mod BSIZE)). assert (Hmm : 0 < m <= n) by lia.
  assert (Eb : c (faddr c (addrs p) (off / BSIZE)) = fblock c (addrs p) (off / BSIZE)) by (unfold fblock; by rewrite (proj2 (Z.eqb_neq _ _))).
  rewrite Eb, fbytes_chunk by (done || lia).
  eapply wp_mono; [eapply (IH _ c bs i p (off + m) (n - m)); [exact T3|done|done|simpl; by rewrite Hic1|done|done|lia|lia|lia| |done|lia]|].
  - intros o Hoo. apply Hsolid. lia.
  - cbv beta. intros r s' (-> & T' & Hsb' & Hic'). split; [|split; [done|]; split; [done|by rewrite Hic']].
    replace n with (m + (n - m)) at 2 by lia. rewrite fbytes_app by lia. by rewrite <- app_assoc.
Qed.

(** A regular file or directory in the cache: its block map is sound and has no
    holes below its size. *)
Record inode_ok c (p : inode) : Prop := {
  ip_dev : idev p = 1;
  ip_num : 0 <= inum p < ninodes B;
  ip_type : type p <> T_DEV;
  ip_size : 0 <= isize p <= MAXFILE * BSIZE;
  ip_file : file_ok B c (addrs p);
  ip_solid o : 0 <= o < isize p -> faddr c (addrs p) (o / BSIZE) <> 0
}.

(** The contents of a file. *)
Definition contents c (p : inode) : list Z := fbytes c (addrs p) 0 (isize p).

Lemma length_fbytes c ad off n : length (fbytes c ad off n) = Z.to_nat n.
Proof using. unfold fbytes. rewrite length_map. apply length_seqZ. Qed.

Lemma fbytes_drop c ad off m n : 0 <= m -> drop (Z.to_nat m) (fbytes c ad off n) = fbytes c ad (off + m) (n - m).
Proof using.
  intros Hm. destruct (decide (m <= n)).
  - replace n with (m + (n - m)) at 1 by lia. rewrite fbytes_app by lia. rewrite drop_app_length'; [done|by rewrite length_fbytes].
  - rewrite drop_ge by (rewrite length_fbytes; lia). unfold fbytes. by rewrite seqZ_nil by lia.
Qed.

Lemma fbytes_take c ad off m n : 0 <= m <= n -> take (Z.to_nat m) (fbytes c ad off n) = fbytes c ad off m.
Proof using.
  intros Hm. replace n with (m + (n - m)) at 1 by lia. rewrite fbytes_app by lia. rewrite take_app_length'; [done|by rewrite length_fbytes].
Qed.

Lemma readi_spec dev_read s c bs i p off n :
  tx s c bs ∅ -> sb s = B -> map_ok B c -> icache s !! i = Some p -> inode_ok c p ->
  0 <= off <= UINT_MAX -> 0 <= n <= UINT_MAX -> (length bs <= 24)%nat ->
  wp (readi dev_read i off n)
    (fun r s' => r = (if (isize p <? off) || (UINT_MAX <? off + n) then (-1, [])
                      else let l := take (Z.to_nat n) (drop (Z.to_nat off) (contents c p)) in (Z.of_nat (length l), l)) /\
       tx s' c bs ∅ /\ sb s' = B /\ icache s' = icache s) s.
Proof.
  intros T Hsb Hm Hi [I1 I2 I3 I4 I5 I6] Ho Hn Hr. unfold readi. rewrite wp_bind. eapply wp_get_inode; [exact Hi|].
  rewrite (proj2 (Z.eqb_neq _ _)) by done.
  assert (Ew : (u32 (off + n) <? off) = (UINT_MAX <? off + n)).
  { unfold u32, UINT_MAX in *. apply eq_true_iff_eq. rewrite !Z.ltb_lt. destruct (decide (off + n < 2 ^ 32)).
    - rewrite Z.mod_small by lia. lia.
    - replace (off + n) with (off + n - 2 ^ 32 + 1 * 2 ^ 32) at 1 by lia. rewrite Z.mod_add, Z.mod_small by lia. lia. }
  rewrite Ew. destruct ((isize p <? off) || (UINT_MAX <? off + n)) eqn:Eo; [by rewrite wp_ret|].
  apply orb_false_iff in Eo as [Eo Eu]. rewrite u32_small by lia. cbv zeta. consts.
  set (n' := if isize p <? off + n then isize p - off else n). assert (Hn' : n' = Z.min n (isize p - off)) by (unfold n'; case_Z; lia).
  rewrite wp_bind. eapply wp_mono; [eapply readi_loop_spec; [exact T|done|done|exact Hi|done|done|lia|lia|consts; lia| |done|lia]|].
  - intros o Hoo. apply I6. lia.
  - intros r s' (-> & T' & Hsb' & Hic'). rewrite wp_ret. split; [|done].
    assert (El : take (Z.to_nat n) (drop (Z.to_nat off) (contents c p)) = fbytes c (addrs p) off n').
    { unfold contents. rewrite fbytes_drop by lia. rewrite Z.add_0_l. destruct (decide (n <= isize p - off)).
      - rewrite fbytes_take by lia. f_equal. lia.
      - rewrite take_ge by (rewrite length_fbytes; lia). f_equal. lia. }
    rewrite El, length_fbytes, Z2Nat.id by lia. rewrite i32_small by (unfold INT_MIN, INT_MAX; lia). done.
Qed.

(** ** Writing *)

(** A data block of the file is overwritten. *)
Lemma write_ext c ad bn d :
  file_ok B c ad -> 0 <= bn < MAXFILE -> faddr c ad bn <> 0 ->
  let c' := set_block c (faddr c ad bn) d in
  ext B c ad c' ad /\ (forall bn', 0 <= bn' < MAXFILE -> faddr c' ad bn' = faddr c ad bn') /\ c' BM = c BM /\
  (forall bn', 0 <= bn' < MAXFILE -> fblock c' ad bn' = if bn' =? bn then d else fblock c ad bn').
Proof.
  intros F Hbn Hnz. cbv zeta. set (a := faddr c ad bn) in *. set (c' := set_block c a d). pose proof BM_pos.
  destruct (f_blk _ _ _ F bn Hbn Hnz) as [[Hd _] Hu]. fold a in Hd, Hu.
  assert (HBM : c' BM = c BM) by (unfold c'; rewrite set_block_ne by lia; done).
  assert (Hai : a <> ind ad) by (by apply (f_sep _ _ _ F)).
  assert (Ea : forall bn', faddr c' ad bn' = faddr c ad bn').
  { intros bn'. unfold faddr, c'. rewrite set_block_ne by done. done. }
  assert (Hus : forall x, used B c' x = used B c x) by (intros x; unfold used; by rewrite HBM).
  assert (Hown : forall x, owned c' ad x <-> owned c ad x) by (intros x; unfold owned; by setoid_rewrite Ea).
  split; [|split; [by intros; apply Ea|split; [done|]]].
  - destruct F as [F1 F2 F3 F4 F5]. split; [split| | | | | |]; try (intros x; rewrite ?Ea, ?Hus; by auto).
    + done.
    + intros x y. rewrite !Ea. apply F4.
    + intros x. rewrite Hown. by left.
    + intros x Hx _ Hn _. unfold c'. apply set_block_ne. intros ->. apply Hn. split; [done|]. right. by exists bn.
  - intros bn' Hbn'. unfold fblock. rewrite Ea. destruct (Z.eqb_spec bn' bn) as [->|Hne].
    + fold a. rewrite (proj2 (Z.eqb_neq _ _)) by done. apply set_block_eq.
    + case_Z; [done|]. apply set_block_ne. intros E. apply Hne. apply (f_inj _ _ _ F); [done|done|done|]. by rewrite E.
Qed.

(** The log holds blocks of [bs0], the free map, the indirect block of the file
    and blocks [lo] to [hi - 1] of its data. *)
Definition within c ad (bs0 : list Z) (lo hi : Z) (bs : list Z) : Prop :=
  forall x, x ∈ bs -> x ∈ bs0 \/ x = BM \/ (x = ind ad /\ ind ad <> 0) \/ exists bn, lo <= bn < hi /\ x = faddr c ad bn /\ x <> 0.

Lemma within_refl c ad bs lo hi : within c ad bs lo hi bs.
Proof. intros x Hx. by left. Qed.

Lemma within_ext c ad c' ad' bs0 lo hi bs :
  ext B c ad c' ad' -> 0 <= lo -> hi <= MAXFILE -> within c ad bs0 lo hi bs -> within c' ad' bs0 lo hi bs.
Proof.
  intros E Hlo Hhi W x Hx. destruct (W x Hx) as [?|[?|[[-> Hi]|(bn & Hbn & -> & Hnz)]]]; [by left|by right; left| |].
  - right. right. left. by rewrite (e_ind _ _ _ _ _ E).
  - right. right. right. exists bn. split; [done|]. split; [|done]. symmetry. apply (e_keep _ _ _ _ _ E); [lia|done].
Qed.

Lemma within_length c ad bs0 lo hi bs :
  NoDup bs -> lo <= hi -> within c ad bs0 lo hi bs -> Z.of_nat (length bs) <= Z.of_nat (length bs0) + 2 + (hi - lo).
Proof.
  intros Hnd Hlh W. assert (Hs : bs ⊆+ bs0 ++ [BM; ind ad] ++ map (faddr c ad) (seqZ lo (hi - lo))).
  { apply NoDup_submseteq; [done|]. intros x Hx. rewrite !elem_of_app, !elem_of_cons, elem_of_nil.
    destruct (W x Hx) as [?|[?|[[? ?]|(bn & Hbn & -> & ?)]]]; [tauto..|]. right. right. apply list_elem_of_fmap. exists bn.
    split; [done|]. apply elem_of_seqZ. lia. }
  apply submseteq_length in Hs. rewrite !length_app, length_map, length_seqZ in Hs. simpl in Hs. lia.
Qed.

Lemma mapped_within c ad bs bn c' ad' bs' bs0 lo hi :
  mapped c ad bs bn c' ad' bs' -> 0 <= lo <= bn -> bn < hi <= MAXFILE -> within c ad bs0 lo hi bs -> within c' ad' bs0 lo hi bs'.
Proof.
  intros M Hlo Hhi W x Hx. destruct (m_logs _ _ _ _ _ _ _ M x Hx) as [Hx'|[Hx'|[Hx'|Hx']]].
  - eapply within_ext; [apply M|lia|lia|exact W|done].
  - by right; left.
  - by right; right; left.
  - right. right. right. exists bn. split; [lia|]. split; [done|]. rewrite Hx'. apply M.
Qed.

(** The bytes of [c'] are those of [c] with [src] at [off]. *)
Definition written c ad c' ad' (off : Z) (src : list Z) : Prop :=
  forall o, 0 <= o < MAXFILE * BSIZE ->
    fbyte c' ad' o = if decide (off <= o < off + Z.of_nat (length src)) then src !!! Z.to_nat (o - off) else fbyte c ad o.

Lemma div_block o : 0 <= o < MAXFILE * BSIZE -> 0 <= o / BSIZE < MAXFILE.
Proof using. intros. split; [apply Z.div_pos; (done || lia)|apply Z.div_lt_upper_bound; [done|lia]]. Qed.

Lemma write_chunk c ad off l :
  (forall n, length (c n) = Z.to_nat BSIZE) -> file_ok B c ad -> 0 <= off < MAXFILE * BSIZE -> faddr c ad (off / BSIZE) <> 0 ->
  Z.of_nat (length l) <= BSIZE - off mod BSIZE ->
  let a := faddr c ad (off / BSIZE) in
  written c ad (set_block c a (put_bytes (c a) (Z.to_nat (off mod BSIZE)) l)) ad off l.
Proof.
  intros Hlen F Ho Hnz Hl a o Hoo. pose proof (Z.mod_pos_bound off BSIZE ltac:(done)) as Hmod. pose proof (Z.mod_pos_bound o BSIZE ltac:(done)).
  destruct (write_ext c ad (off / BSIZE) (put_bytes (c a) (Z.to_nat (off mod BSIZE)) l) F (div_block _ Ho) Hnz) as (_ & _ & _ & Hfb).
  unfold fbyte. rewrite Hfb by (by apply div_block). pose proof (Hlen a) as Hla. consts.
  pose proof (Z.div_mod o 512 ltac:(lia)). pose proof (Z.div_mod off 512 ltac:(lia)).
  destruct (Z.eqb_spec (o / 512) (off / 512)) as [E|E].
  - rewrite put_bytes_lookup by lia. unfold fblock. rewrite E. fold a. rewrite (proj2 (Z.eqb_neq a 0)) by done.
    repeat case_decide; try lia. f_equal. lia.
  - rewrite decide_False; [done|]. intros Hin. apply E.
    destruct (off_split off (Z.of_nat (length l)) (o - off)) as [E1 _]; [lia|lia|consts; lia|]. consts. by replace (off + (o - off)) with o in E1 by lia.
Qed.

Lemma written_app c1 a1 c2 a2 c3 a3 off l l' :
  0 <= off -> written c1 a1 c2 a2 off l -> written c2 a2 c3 a3 (off + Z.of_nat (length l)) l' -> written c1 a1 c3 a3 off (l ++ l').
Proof using.
  intros Ho W1 W2 o Hoo. rewrite W2, W1 by done. rewrite length_app. repeat case_decide; try lia; try done.
  - rewrite lookup_total_app_r by lia. f_equal. lia.
  - rewrite lookup_total_app_l by lia. done.
Qed.

Lemma written_none c ad off : written c ad c ad off [].
Proof using. intros o Ho. rewrite decide_False; [done|]. simpl. lia. Qed.

Lemma written_blocks c1 a1 c2 a2 c3 a3 off l :
  (forall bn, 0 <= bn < MAXFILE -> fblock c2 a2 bn = fblock c1 a1 bn) -> written c2 a2 c3 a3 off l -> written c1 a1 c3 a3 off l.
Proof using. intros Hb W o Ho. rewrite W by done. case_decide; [done|]. unfold fbyte. by rewrite Hb by (by apply div_block). Qed.

(** What a loop of writei that stores [src] at [off] leaves. *)
Record stored c ad c' ad' (bs0 : list Z) (lo hi off : Z) (src bs' : list Z) : Prop := {
  w_ext : ext B c ad c' ad';
  w_map : map_ok B c';
  w_bytes : written c ad c' ad' off src;
  w_addr o : off <= o < off + Z.of_nat (length src) -> faddr c' ad' (o / BSIZE) <> 0;
  w_within : within c' ad' bs0 lo hi bs';
  w_same : (forall o, off <= o < off + Z.of_nat (length src) -> faddr c ad (o / BSIZE) <> 0) -> ad' = ad
}.

Lemma writei_loop_spec bs0 lo hi : w = true -> 0 <= lo -> lo <= hi <= MAXFILE -> Z.of_nat (length bs0) + 2 + (hi - lo) <= 24 ->
  forall fuel s c bs i p off src,
  tx s c bs ∅ -> sb s = B -> map_ok B c -> icache s !! i = Some p -> idev p = 1 -> file_ok B c (addrs p) ->
  0 <= off -> lo <= off / BSIZE -> off + Z.of_nat (length src) <= hi * BSIZE -> within c (addrs p) bs0 lo hi bs ->
  ((0 < length src)%nat -> hi - off / BSIZE + 1 <= credit c (addrs p)) -> (length src < fuel)%nat ->
  wp (writei_loop fuel i off src)
    (fun r s' => r = off + Z.of_nat (length src) /\ exists c' ad' bs', tx s' c' bs' ∅ /\ sb s' = B /\
       icache s' = <[i := set_addrs ad' p]> (icache s) /\ stored c (addrs p) c' ad' bs0 lo hi off src bs') s.
Proof.
  intros Hw Hlo Hhi Hbud. induction fuel as [|fuel IH]; intros s c bs i p off src T Hsb Hm Hi Hdev F Ho Hloff Hhioff W Hcr Hf; [lia|].
  cbn [writei_loop]. destruct (Nat.ltb_spec 0 (length src)) as [Hpos|Hpos].
  2: { assert (src = []) as -> by (by apply nil_length_inv; lia). rewrite wp_ret. split; [simpl; lia|]. exists c, (addrs p), bs.
       split; [done|]. split; [done|]. rewrite set_addrs_same, list_insert_id by done. split; [done|].
       split; [by apply ext_refl|done|apply written_none|simpl; lia|done|done]. }
  specialize (Hcr Hpos). pose proof (Z.mod_pos_bound off BSIZE ltac:(done)) as Hmod. pose proof (Z.div_mod off BSIZE ltac:(done)) as Hdm.
  set (bn := off / BSIZE) in *. assert (Hbh : bn < hi) by (apply Z.div_lt_upper_bound; [done|lia]).
  pose proof (within_length _ _ bs0 lo hi _ (tx_nodup _ _ _ _ _ _ _ _ _ _ _ T) ltac:(lia) W) as Hwl.
  rewrite wp_bind. eapply wp_get_inode; [exact Hi|]. rewrite wp_bind.
  eapply bmap_spec; [exact T|done|done|exact Hi|done|done|lia|left; split; [done|lia]|lia|]. intros s1 c1 ad1 bs1 T1 Hsb1 Hic1 M1.
  set (a := faddr c1 ad1 bn). assert (Ha : a <> 0) by apply M1. assert (F1 : file_ok B c1 ad1) by apply M1.
  destruct (f_blk _ _ _ F1 bn ltac:(lia) Ha) as [Hda _]. fold a in Hda. assert (Hhome : homeb sz ls a) by (by eapply data_home).
  assert (W1 : within c1 ad1 bs0 lo hi bs1) by (eapply mapped_within; [exact M1|lia|lia|exact W]).
  pose proof (within_length _ _ bs0 lo hi _ (tx_nodup _ _ _ _ _ _ _ _ _ _ _ T1) ltac:(lia) W1) as Hwl1.
  rewrite Hdev, wp_bind. eapply (tx_bread sz Hsz d0 ws0 ls lsz pd w Hlsz); [exact T1|done|apply Hhome|rewrite map_size_empty; unfold NBUF; lia|].
  intros bp k2 T2. cbv zeta. set (m := Z.min (Z.of_nat (length src)) (BSIZE - off mod BSIZE)). assert (Hm0 : 0 < m) by lia.
  assert (Hlt : length (take (Z.to_nat m) src) = Z.to_nat m) by (rewrite length_take; lia).
  assert (Hlen1 : forall n, length (c1 n) = Z.to_nat BSIZE) by apply T1.
  eapply (tx_write sz Hsz d0 ws0 ls lsz pd w Hlsz B HB Hw); [exact T2|apply lookup_insert_eq|done|lia|rewrite length_put_bytes; [apply Hlen1|rewrite Hlt, Hlen1; lia]|].
  intros k3 T3. rewrite wp_bind. eapply tx_brelse; [exact T3|apply lookup_insert_eq|]. intros k4 T4. rewrite delete_insert_id in T4 by done.
  set (c2 := set_block c1 a _) in *.
  destruct (write_ext c1 ad1 bn (put_bytes (c1 a) (Z.to_nat (off mod BSIZE)) (take (Z.to_nat m) src)) F1 ltac:(lia) Ha) as (E2 & Ea2 & HBM2 & Hfb2).
  fold a c2 in E2, Ea2, HBM2, Hfb2.
  assert (Hic4 : icache (set_kern k4 (set_kern k3 (set_kern k2 s1))) !! i = Some (set_addrs ad1 p)).
  { simpl. rewrite Hic1. apply list_lookup_insert_eq. by eapply lookup_lt_Some. }
  assert (W2 : within c2 ad1 bs0 lo hi (logs bs1 a)).
  { intros x Hx. apply elem_of_logs in Hx as [Hx| ->]; [by apply (within_ext _ _ _ _ bs0 lo hi _ E2 Hlo ltac:(lia) W1)|].
    right. right. right. exists bn. split; [lia|]. split; [symmetry; apply Ea2; lia|done]. }
  assert (Hwr : written c (addrs p) c2 ad1 off (take (Z.to_nat m) src)).
  { eapply written_blocks; [apply (m_block _ _ _ _ _ _ _ M1)|]. apply write_chunk; [done|done|consts; lia|done|rewrite Hlt; lia]. }
  assert (Hcr2 : credit c2 ad1 = credit c1 ad1) by (unfold credit; by rewrite (nfree_same B c1 c2)).
  eapply wp_mono; [eapply (IH _ c2 (logs bs1 a) i (set_addrs ad1 p) (off + m) (drop (Z.to_nat m) src) T4)|].
  - done.
  - intros x Hx Hu. apply (m_map _ _ _ _ _ _ _ M1); [done|]. unfold used in *. by rewrite <- HBM2.
  - exact Hic4.
  - done.
  - apply E2.
  - lia.
  - transitivity bn; [done|]. apply Z.div_le_mono; [done|lia].
  - rewrite length_drop. lia.
  - exact W2.
  - rewrite length_drop. intros Hrest. pose proof (m_free _ _ _ _ _ _ _ M1). cbn [addrs set_addrs]. rewrite Hcr2.
    replace ((off + m) / BSIZE) with (bn + 1); [lia|]. apply (Z.div_unique _ _ _ 0); consts; lia.
  - rewrite length_drop. lia.
  - cbv beta. intros r s' (-> & c' & ad' & bs' & T' & Hsb' & Hic' & [S1 S2 S3 S4 S5 S6]). rewrite length_drop. split; [lia|].
    exists c', ad', bs'. split; [done|]. split; [done|]. cbn [addrs set_addrs] in *. split.
    { rewrite Hic'. simpl. rewrite Hic1. by rewrite list_insert_insert_eq. }
    pose proof BM_pos. pose proof size_BPB.
    assert (E12 : ext B c (addrs p) c2 ad1) by (eapply ext_trans; [apply M1|exact E2|lia|done]).
    split; [eapply ext_trans; [exact E12|exact S1|lia|done]|done| | |done|].
    + rewrite <- (take_drop (Z.to_nat m) src). eapply written_app; [done|exact Hwr|]. by rewrite Hlt, Z2Nat.id by lia.
    + intros o Hoo. destruct (decide (o < off + m)); [|apply S4; rewrite length_drop; lia].
      assert (Eo : o / BSIZE = bn) by (destruct (off_split off m (o - off)) as [E _]; [lia|lia|lia|]; by replace (off + (o - off)) with o in E by lia).
      rewrite Eo. assert (faddr c2 ad1 bn = a) as Ea by (apply Ea2; lia). rewrite (e_keep _ _ _ _ _ S1 bn); [by rewrite Ea|lia|by rewrite Ea].
    + intros Hall. destruct (m_same _ _ _ _ _ _ _ M1) as (-> & -> & _); [apply Hall; lia|]. apply S6. intros o Hoo. rewrite length_drop in Hoo.
      rewrite Ea2 by (apply div_block; consts; lia). apply Hall. lia.
Qed.

(** ** The inode on disk *)

Lemma dinode_room n : (dinode_off n + 64 <= Z.to_nat BSIZE)%nat.
Proof using. unfold dinode_off. change IPB with 8. change sizeof_dinode with 64. pose proof (Z.mod_pos_bound n 8 ltac:(lia)). consts. lia. Qed.

(** The disk's copy of the inode is up to date. *)
Definition on_disk c (p : inode) : Prop := get_dinode (dinode_off (inum p)) (c (IBLOCK (inum p) B)) p = p.

(** The blocks after the inode was copied to disk. *)
Definition store_inode c (p : inode) : Z -> list Z :=
  set_block c (IBLOCK (inum p) B) (put_dinode (dinode_off (inum p)) p (c (IBLOCK (inum p) B))).

Lemma iupdate_spec s c bs hs i p Q :
  w = true -> tx s c bs hs -> sb s = B -> icache s !! i = Some p -> idev p = 1 -> 0 <= inum p < ninodes B ->
  hs !! IBLOCK (inum p) B = None -> (length bs + base.size hs < 29)%nat ->
  (forall k, tx (set_kern k s) (store_inode c p) (logs bs (IBLOCK (inum p) B)) hs -> Q tt (set_kern k s)) ->
  wp (iupdate i) Q s.
Proof.
  intros Hw T Hsb Hi Hdev Hn Hh Hr HQ. destruct (inode_home sz ls B HB _ Hn) as [Hhome _].
  unfold iupdate. rewrite wp_bind. eapply wp_get_inode; [exact Hi|]. rewrite wp_bind, wp_get, Hdev, Hsb.
  rewrite wp_bind. eapply (tx_bread sz Hsz d0 ws0 ls lsz pd w Hlsz); [exact T|done|apply Hhome|unfold NBUF; lia|]. intros bp k1 T1.
  eapply (tx_write sz Hsz d0 ws0 ls lsz pd w Hlsz B HB Hw); [exact T1|apply lookup_insert_eq|done|lia|rewrite length_put_dinode; apply T|]. intros k2 T2.
  eapply tx_brelse; [exact T2|apply lookup_insert_eq|]. intros k3 T3. rewrite delete_insert_id in T3 by done. exact (HQ k3 T3).
Qed.

Lemma store_on_disk c p : (forall n, length (c n) = Z.to_nat BSIZE) -> fits p -> on_disk (store_inode c p) p.
Proof.
  intros Hl Hf. unfold on_disk, store_inode. rewrite set_block_eq, get_put_dinode; [by destruct p| |done].
  rewrite Hl. apply dinode_room.
Qed.

(** A write outside the file's blocks and the free map. *)
Lemma outside_write c ad b d : file_ok B c ad -> b < BM ->
  let c' := set_block c b d in
  file_ok B c' ad /\ (forall bn, 0 <= bn < MAXFILE -> faddr c' ad bn = faddr c ad bn /\ fblock c' ad bn = fblock c ad bn) /\ c' BM = c BM.
Proof.
  intros F Hb. cbv zeta. set (c' := set_block c b d).
  assert (HBM : c' BM = c BM) by (unfold c'; rewrite set_block_ne by lia; done).
  assert (Hus : forall x, used B c' x = used B c x) by (intros x; unfold used; by rewrite HBM).
  assert (Ea : forall bn, faddr c' ad bn = faddr c ad bn).
  { intros bn. unfold faddr. destruct (bn <? NDIRECT); [done|]. destruct (Z.eqb_spec (ind ad) 0) as [|Hi]; [done|].
    destruct (f_ind _ _ _ F Hi) as [[? ?] _]. unfold c'. by rewrite set_block_ne by lia. }
  split; [|split; [|done]].
  - destruct F as [F1 F2 F3 F4 F5]. split; try (intros x; rewrite ?Ea, ?Hus; by auto); [done|]. intros x y. rewrite !Ea. apply F4.
  - intros bn Hbn. split; [done|]. unfold fblock. rewrite Ea. destruct (Z.eqb_spec (faddr c ad bn) 0) as [|Hz]; [done|].
    destruct (f_blk _ _ _ F bn Hbn Hz) as [[? ?] _]. unfold c'. by rewrite set_block_ne by lia.
Qed.

(** ** writei *)

(** [src] stored over [l] from [off] on. *)
Definition splice (off : Z) (src l : list Z) : list Z := take (Z.to_nat off) l ++ src ++ drop (Z.to_nat off + length src) l.

(** The number of blocks that bytes [off] to [off + n - 1] touch. *)
Definition touched (off n : Z) : Z := (off + n + (BSIZE - 1)) / BSIZE - off / BSIZE.

Lemma fbytes_same c ad c' ad' off n : (forall o, off <= o < off + n -> fbyte c' ad' o = fbyte c ad o) -> fbytes c' ad' off n = fbytes c ad off n.
Proof using. intros H. unfold fbytes. apply list_fmap_ext. intros i x Hx. apply H. apply lookup_seqZ in Hx. lia. Qed.

Lemma fbytes_written c ad c' ad' off src size :
  written c ad c' ad' off src -> 0 <= off <= size -> Z.max size (off + Z.of_nat (length src)) <= MAXFILE * BSIZE ->
  fbytes c' ad' 0 (Z.max size (off + Z.of_nat (length src))) = splice off src (fbytes c ad 0 size).
Proof using.
  intros W Ho Hmax. set (n := Z.of_nat (length src)) in *. unfold splice.
  replace (Z.max size (off + n)) with (off + (n + (Z.max size (off + n) - off - n))) by lia. rewrite !fbytes_app by lia.
  replace (Z.to_nat off + length src)%nat with (Z.to_nat (off + n)) by lia. rewrite fbytes_drop, fbytes_take by lia. f_equal; [|f_equal].
  - apply fbytes_same. intros o Hoo. rewrite W by lia. by rewrite decide_False by lia.
  - apply list_eq. intros j. unfold fbytes. rewrite list_lookup_fmap. destruct (decide (j < length src)%nat) as [Hj|Hj].
    + rewrite lookup_seqZ_lt by lia. simpl. rewrite W by lia. rewrite decide_True by lia.
      rewrite (list_lookup_lookup_total_lt src j) by lia. do 2 f_equal. lia.
    + rewrite lookup_seqZ_ge by lia. rewrite lookup_ge_None_2 by lia. done.
  - rewrite !Z.add_0_l. destruct (decide (off + n <= size)).
    + replace (Z.max size (off + n) - off - n) with (size - (off + n)) by lia. apply fbytes_same. intros o Hoo. rewrite W by lia. by rewrite decide_False by lia.
    + unfold fbytes. by rewrite !seqZ_nil by lia.
Qed.

Lemma file_ok_addrs c ad : file_ok B c ad -> Forall (fun v => 0 <= v <= UINT_MAX) ad.
Proof.
  intros F. pose proof BM_pos. pose proof size_BPB. apply Forall_lookup. intros j v Hj. pose proof (lookup_lt_Some _ _ _ Hj) as Hlt. rewrite (f_len _ _ _ F) in Hlt.
  assert (Hd : v <> 0 -> data_block B v).
  { intros Hv. destruct (decide (j = 12%nat)) as [->|Hne].
    - assert (E : ind ad = v) by (by apply list_lookup_total_correct). rewrite <- E in *. by apply (f_ind _ _ _ F).
    - assert (E : faddr c ad (Z.of_nat j) = v).
      { unfold faddr. consts. rewrite (proj2 (Z.ltb_lt _ _)), Nat2Z.id by lia. by apply list_lookup_total_correct. }
      rewrite <- E in *. apply (f_blk _ _ _ F); [consts; lia|done]. }
  unfold data_block, UINT_MAX in *. consts. lia.
Qed.

(** The file's inode after a write that ends at [e]. *)
Definition written_inode (p : inode) (ad' : list Z) (e : Z) : inode := set_size (Z.max (isize p) e) (set_addrs ad' p).

Lemma stored_inode c p c' ad' bs0 lo hi off src bs' :
  inode_ok c p -> 0 <= off <= isize p -> off + Z.of_nat (length src) <= MAXFILE * BSIZE ->
  stored c (addrs p) c' ad' bs0 lo hi off src bs' ->
  inode_ok c' (written_inode p ad' (off + Z.of_nat (length src))) /\
  contents c' (written_inode p ad' (off + Z.of_nat (length src))) = splice off src (contents c p).
Proof.
  intros [I1 I2 I3 I4 I5 I6] Ho Hmax [S1 S2 S3 S4 S5 S6]. split.
  - split; simpl; [done|done|done|lia|apply S1|]. intros o Hoo. destruct (decide (o < isize p)).
    + rewrite (e_keep _ _ _ _ _ S1); [apply I6; lia|apply div_block; lia|apply I6; lia].
    + apply S4. lia.
  - unfold contents. simpl. apply fbytes_written; [done|lia|lia].
Qed.

Lemma written_fits c p ad' e : fits p -> file_ok B c ad' -> isize p <= MAXFILE * BSIZE -> e <= MAXFILE * BSIZE -> fits (written_inode p ad' e).
Proof.
  intros (H1 & H2 & H3 & H4 & H5 & H6 & H7) F Hp He. unfold fits. simpl. split; [done|]. split; [done|]. split; [done|]. split; [done|].
  split; [unfold UINT_MAX in *; consts; lia|]. split; [apply F|by eapply file_ok_addrs].
Qed.

(** What a successful writei of [src] at [off] leaves. *)
Record wrote c p (bs : list Z) (off : Z) (src : list Z) c' p' (bs' : list Z) : Prop := {
  wr_map : map_ok B c';
  wr_ok : inode_ok c' p';
  wr_fits : fits p';
  wr_disk : on_disk c' p';
  wr_inode : p' = written_inode p (addrs p') (off + Z.of_nat (length src));
  wr_contents : contents c' p' = splice off src (contents c p);
  wr_other b : 0 <= b < BPB -> used B c b = true -> ~ owned c (addrs p) b -> b <> BM -> b <> IBLOCK (inum p) B -> c' b = c b;
  wr_inodes j : (j < dinode_off (inum p) \/ dinode_off (inum p) + 64 <= j)%nat ->
    c' (IBLOCK (inum p) B) !!! j = c (IBLOCK (inum p) B) !!! j;
  wr_used b : 0 <= b < BPB -> used B c b = true -> used B c' b = true;
  wr_only b : 0 <= b < BPB -> used B c' b = true -> used B c b = true \/ owned c' (addrs p') b;
  wr_logs : Z.of_nat (length bs') <= Z.of_nat (length bs) + touched off (Z.of_nat (length src)) + 3
}.

(** A block before the data is in use and no file has it. *)
Lemma meta_block c ad b : map_ok B c -> file_ok B c ad -> 0 <= b < BM -> used B c b = true /\ ~ owned c ad b.
Proof.
  intros Hm F Hb. pose proof (lay_size sz ls B HB). split.
  - destruct (used B c b) eqn:E; [done|]. destruct (Hm b ltac:(lia) E). lia.
  - intros Ho. destruct (owned_data _ _ _ _ F Ho) as [[? ?] _]. lia.
Qed.

Lemma stored_logs c p c' ad' bs off src bs' :
  stored c (addrs p) c' ad' bs (off / BSIZE) ((off + Z.of_nat (length src) + (BSIZE - 1)) / BSIZE) off src bs' -> NoDup bs' ->
  Z.of_nat (length bs') <= Z.of_nat (length bs) + touched off (Z.of_nat (length src)) + 2.
Proof.
  intros S Hnd. assert (Hlh : off / BSIZE <= (off + Z.of_nat (length src) + (BSIZE - 1)) / BSIZE) by (apply Z.div_le_mono; [done|]; consts; lia).
  pose proof (within_length _ _ _ _ _ _ Hnd Hlh (w_within _ _ _ _ _ _ _ _ _ _ S)). unfold touched. lia.
Qed.

(** The size grew: the inode is written. *)
Lemma wrote_grown c p c' ad' bs off src bs' :
  inode_ok c p -> fits p -> map_ok B c -> 0 <= off <= isize p -> off + Z.of_nat (length src) <= MAXFILE * BSIZE ->
  (forall n, length (c' n) = Z.to_nat BSIZE) -> NoDup bs' ->
  stored c (addrs p) c' ad' bs (off / BSIZE) ((off + Z.of_nat (length src) + (BSIZE - 1)) / BSIZE) off src bs' ->
  let p' := written_inode p ad' (off + Z.of_nat (length src)) in
  wrote c p bs off src (store_inode c' p') p' (logs bs' (IBLOCK (inum p) B)).
Proof.
  intros I Hf Hm Ho Hmax Hl Hnd S p'. pose proof S as [S1 S2 S3 S4 S5 S6].
  destruct (stored_inode c p c' ad' _ _ _ off src bs' I Ho Hmax S) as [[J1 J2 J3 J4 J5 J6] Hc]. fold p' in J1, J2, J3, J4, J5, J6, Hc.
  destruct (inode_home sz ls B HB (inum p) (ip_num _ _ I)) as [[Hib _] Hibm]. change (inum p) with (inum p') in Hib, Hibm.
  destruct (outside_write c' (addrs p') _ (put_dinode (dinode_off (inum p')) p' (c' (IBLOCK (inum p') B))) J5 Hibm) as (Ok & Hfa & HBM).
  fold (store_inode c' p') in Ok, Hfa, HBM.
  assert (Hus : forall b, used B (store_inode c' p') b = used B c' b) by (intros b; unfold used; by rewrite HBM).
  assert (Hfit : fits p') by (eapply written_fits; [done|apply S1|apply I|done]).
  split; [| |done|by apply store_on_disk|done| | | | | |].
  - intros b Hb. rewrite Hus. by apply S2.
  - split; [done|done|done|done|done|]. intros o Hoo. rewrite (proj1 (Hfa _ (div_block o ltac:(simpl in *; lia)))). by apply J6.
  - rewrite <- Hc. unfold contents. apply fbytes_same. intros o Hoo. unfold fbyte.
    by rewrite (proj2 (Hfa _ (div_block o ltac:(lia)))).
  - intros b Hb Hu Hn HM HI. unfold store_inode. rewrite set_block_ne by done. by apply S1.
  - intros j Hj. unfold store_inode. rewrite set_block_eq. rewrite put_dinode_other by (done || apply J5).
    rewrite (e_other _ _ _ _ _ S1); [done| | | |]; simpl; pose proof (meta_block c (addrs p) (IBLOCK (inum p) B) Hm (ip_file _ _ I) ltac:(simpl in *; lia)) as [? ?];
      [pose proof (lay_size sz ls B HB); simpl in *; lia|done|done|simpl in *; lia].
  - intros b Hb Hu. rewrite Hus. by apply S1.
  - intros b Hb. rewrite Hus. intros Hu. destruct (e_only _ _ _ _ _ S1 b Hb Hu) as [?|[Hnz Hown]]; [by left|right]. split; [done|].
    destruct Hown as [?|(bn & Hbn & <-)]; [by left|right]. exists bn. split; [done|]. by apply Hfa.
  - pose proof (length_logs bs' (IBLOCK (inum p) B)). pose proof (stored_logs _ _ _ _ _ _ _ _ S Hnd). lia.
Qed.

(** The size stays: every block was there. *)
Lemma wrote_inside c p c' ad' bs off src bs' :
  inode_ok c p -> fits p -> map_ok B c -> on_disk c p -> 0 <= off -> off + Z.of_nat (length src) <= isize p -> NoDup bs' ->
  stored c (addrs p) c' ad' bs (off / BSIZE) ((off + Z.of_nat (length src) + (BSIZE - 1)) / BSIZE) off src bs' ->
  ad' = addrs p /\ wrote c p bs off src c' p bs'.
Proof.
  intros I Hf Hm Hd Ho Hmax Hnd S. pose proof S as [S1 S2 S3 S4 S5 S6].
  assert (Ead : ad' = addrs p) by (apply S6; intros o Hoo; apply I; lia). split; [done|]. subst ad'.
  assert (Ep : written_inode p (addrs p) (off + Z.of_nat (length src)) = p) by (unfold written_inode; rewrite Z.max_l by lia; by destruct p).
  destruct (stored_inode c p c' (addrs p) _ _ _ off src bs' I ltac:(lia) ltac:(pose proof (ip_size _ _ I); lia) S) as [J Hc]. rewrite Ep in J, Hc.
  destruct (inode_home sz ls B HB (inum p) (ip_num _ _ I)) as [[Hib _] Hibm]. pose proof (lay_size sz ls B HB).
  destruct (meta_block c (addrs p) (IBLOCK (inum p) B) Hm (ip_file _ _ I) ltac:(lia)) as [Hu Hn].
  assert (Ei : c' (IBLOCK (inum p) B) = c (IBLOCK (inum p) B)) by (apply S1; [lia|done|done|lia]).
  split; [done|done|done|unfold on_disk; by rewrite Ei|done|done| | |apply S1|apply S1|].
  - intros b Hb Hub Hnb HM _. by apply S1.
  - intros j _. by rewrite Ei.
  - pose proof (stored_logs _ _ _ _ _ _ _ _ S Hnd). lia.
Qed.

Lemma writei_spec dev_write s c bs i p off src :
  w = true -> tx s c bs ∅ -> sb s = B -> map_ok B c -> icache s !! i = Some p -> inode_ok c p -> fits p -> on_disk c p ->
  0 <= off <= UINT_MAX -> Z.of_nat (length src) <= UINT_MAX ->
  Z.of_nat (length bs) + 2 + touched off (Z.of_nat (length src)) <= 24 -> touched off (Z.of_nat (length src)) + 1 <= Z.of_nat (nfree B c) ->
  wp (writei dev_write i src off)
    (fun r s' => if (isize p <? off) || (MAXFILE * BSIZE <? off + Z.of_nat (length src)) then r = -1 /\ s' = s
       else r = Z.of_nat (length src) /\ exists c' p' bs', tx s' c' bs' ∅ /\ sb s' = B /\ icache s' = <[i := p']> (icache s) /\
         wrote c p bs off src c' p' bs') s.
Proof.
  intros Hw T Hsb Hm Hi I Hf Hd Ho Hn Hbud Hnf. pose proof I as [I1 I2 I3 I4 I5 I6]. set (n := Z.of_nat (length src)) in *.
  unfold writei. fold n. cbv zeta. rewrite wp_bind. eapply wp_get_inode; [exact Hi|]. rewrite (proj2 (Z.eqb_neq _ _)) by done.
  destruct (Z.ltb_spec (isize p) off) as [Hso|Hso]; cbn [orb]; [by rewrite wp_ret|]. consts.
  destruct (decide (off + n <= UINT_MAX)) as [Hov|Hov].
  2: { assert (Eu : u32 (off + n) = off + n - 2 ^ 32).
       { unfold u32, UINT_MAX in *. replace (off + n) with (off + n - 2 ^ 32 + 1 * 2 ^ 32) at 1 by lia. rewrite Z.mod_add, Z.mod_small by lia. lia. }
       rewrite Eu. unfold UINT_MAX in *. rewrite (proj2 (Z.ltb_lt _ _)) by lia. rewrite (proj2 (Z.ltb_lt (140 * 512) (off + n))) by lia. by rewrite wp_ret. }
  rewrite u32_small by lia. rewrite (proj2 (Z.ltb_ge (off + n) off)) by lia. destruct (Z.ltb_spec (140 * 512) (off + n)) as [Hbig|Hbig]; [by rewrite wp_ret|].
  set (hi := (off + n + (BSIZE - 1)) / BSIZE). unfold touched in Hbud, Hnf. fold hi in Hbud, Hnf.
  assert (Hhi : off + n <= hi * 512) by (unfold hi; consts; pose proof (Z.div_mod (off + n + (512 - 1)) 512 ltac:(lia)); pose proof (Z.mod_pos_bound (off + n + (512 - 1)) 512 ltac:(lia)); lia).
  assert (Hhm : hi <= 140) by (unfold hi; consts; apply Z.lt_succ_r, Z.div_lt_upper_bound; lia).
  rewrite wp_bind. eapply wp_mono; [eapply (writei_loop_spec bs (off / BSIZE) hi);
    [done|apply Z.div_pos; (done || lia)|split; [apply Z.div_le_mono; [done|consts; lia]|done]|consts; lia|exact T|done|done|exact Hi|done|done|lia|lia|consts; lia|apply within_refl| |lia]|].
  { intros _. unfold credit. consts. case_Z; lia. }
  cbv beta. fold n. intros r s1 (-> & c1 & ad1 & bs1 & T1 & Hsb1 & Hic1 & S).
  assert (Hi1 : icache s1 !! i = Some (set_addrs ad1 p)) by (rewrite Hic1; apply list_lookup_insert_eq; by eapply lookup_lt_Some).
  assert (Hnd : NoDup bs1) by (eapply tx_nodup; exact T1). unfold hi, n in S.
  rewrite wp_bind. eapply wp_get_inode; [exact Hi1|]. cbn [isize set_addrs]. rewrite wp_bind.
  destruct (Z.ltb_spec (isize p) (off + n)) as [Hg|Hg].
  - rewrite (proj2 (Z.ltb_lt 0 n)) by lia. cbn [andb]. rewrite wp_bind. eapply wp_upd_inode; [exact Hi1|].
    assert (Ep : set_size (off + n) (set_addrs ad1 p) = written_inode p ad1 (off + n)) by (unfold written_inode; by rewrite Z.max_r by lia).
    rewrite Ep, Hic1, list_insert_insert_eq. set (p' := written_inode p ad1 (off + n)). set (s2 := set_icache _ s1).
    assert (T2 : tx s2 c1 bs1 ∅) by (eapply tx_same_kern; [|exact T1]; done).
    pose proof (stored_logs _ _ _ _ _ _ _ _ S Hnd) as Hlogs. unfold touched in Hlogs. fold n hi in Hlogs.
    eapply iupdate_spec; [done|exact T2|done|simpl; apply list_lookup_insert_eq; by eapply lookup_lt_Some|done|done|done|rewrite map_size_empty; consts; lia|].
    intros k3 T3. rewrite wp_ret. split; [done|]. exists (store_inode c1 p'), p', (logs bs1 (IBLOCK (inum p) B)).
    split; [exact T3|]. split; [done|]. split; [done|]. eapply wrote_grown; try done; [consts; lia|apply T1].
  - rewrite andb_false_r. rewrite !wp_ret. split; [done|]. destruct (wrote_inside c p c1 ad1 bs off src bs1) as [-> HW]; try done; [lia|].
    exists c1, p, bs1. split; [done|]. split; [done|]. split; [by rewrite Hic1, set_addrs_same|exact HW].
Qed.

(** ** Locking *)

Definition free_lk : sleeplock := mk_lock false 0.
Definition my_lk (s : fs) : sleeplock := mk_lock true (cur_pid (bio (kern s))).

Lemma tx_set_icache s c bs hs l : tx s c bs hs -> tx (set_icache l s) c bs hs.
Proof. by apply tx_same_kern. Qed.

(** Of an inode in memory that is up to date, ilock takes the lock. *)
Lemma ilock_valid_spec s i p (Q : unit -> fs -> Prop) :
  icache s !! i = Some p -> 0 < iref p -> ilk p = free_lk -> valid p = true ->
  Q tt (set_icache (<[i := set_lk (my_lk s) p]> (icache s)) s) -> wp (ilock (Some i)) Q s.
Proof using.
  intros Hi Hr Hl Hv HQ. unfold ilock. rewrite wp_bind. eapply wp_get_inode; [exact Hi|]. rewrite (proj2 (Z.ltb_ge _ _)) by lia.
  rewrite wp_bind. unfold acquiresleep. rewrite wp_bind. eapply wp_get_inode; [exact Hi|]. rewrite Hl. cbn [locked free_lk].
  rewrite wp_bind, wp_get. eapply wp_upd_inode; [exact Hi|]. rewrite Hv. by rewrite wp_ret.
Qed.

(** Otherwise it reads the inode from the disk. *)
Lemma ilock_load_spec s c bs i p (Q : unit -> fs -> Prop) :
  tx s c bs ∅ -> sb s = B -> icache s !! i = Some p -> 0 < iref p -> ilk p = free_lk -> valid p = false -> idev p = 1 ->
  0 <= inum p < ninodes B -> (length bs < 29)%nat ->
  let q := set_valid true (get_dinode (dinode_off (inum p)) (c (IBLOCK (inum p) B)) (set_lk (my_lk s) p)) in
  type q <> 0 ->
  (forall s', tx s' c bs ∅ -> sb s' = B -> icache s' = <[i := q]> (icache s) -> Q tt s') ->
  wp (ilock (Some i)) Q s.
Proof.
  intros T Hsb Hi Hr Hl Hv Hdev Hn Hlen q Hq HQ. destruct (inode_home sz ls B HB _ Hn) as [Hhome _].
  assert (Hlt : (i < length (icache s))%nat) by (by eapply lookup_lt_Some).
  unfold ilock. rewrite wp_bind. eapply wp_get_inode; [exact Hi|]. rewrite (proj2 (Z.ltb_ge _ _)) by lia.
  rewrite wp_bind. unfold acquiresleep. rewrite wp_bind. eapply wp_get_inode; [exact Hi|]. rewrite Hl. cbn [locked free_lk].
  rewrite wp_bind, wp_get. eapply wp_upd_inode; [exact Hi|]. rewrite Hv, wp_bind, wp_get. cbn [sb set_icache]. rewrite Hsb, Hdev.
  fold (my_lk s). rewrite wp_bind.
  eapply (tx_bread sz Hsz d0 ws0 ls lsz pd w Hlsz); [apply tx_set_icache, T|done|apply Hhome|rewrite map_size_empty; unfold NBUF; lia|].
  intros bp k1 T1. rewrite wp_bind. eapply tx_data; [exact T1|apply lookup_insert_eq|].
  rewrite wp_bind. eapply wp_upd_inode; [simpl; by apply list_lookup_insert_eq|]. simpl icache. rewrite list_insert_insert_eq.
  rewrite wp_bind. eapply tx_brelse; [apply tx_set_icache, T1|apply lookup_insert_eq|]. intros k2 T2. rewrite delete_insert_id in T2 by done.
  rewrite wp_bind. eapply wp_upd_inode; [simpl; by apply list_lookup_insert_eq|]. simpl icache. rewrite list_insert_insert_eq. fold q.
  rewrite wp_bind. eapply wp_get_inode; [simpl; by apply list_lookup_insert_eq|]. rewrite (proj2 (Z.eqb_neq _ _)) by done. rewrite wp_ret.
  apply HQ; [apply tx_set_icache, T2|done|done].
Qed.

Lemma iunlock_spec s i p (Q : unit -> fs -> Prop) :
  icache s !! i = Some p -> 0 < iref p -> ilk p = my_lk s ->
  Q tt (set_icache (<[i := set_lk free_lk p]> (icache s)) s) -> wp (iunlock (Some i)) Q s.
Proof using.
  intros Hi Hr Hl HQ. unfold iunlock, holdingsleep. rewrite !wp_bind. eapply wp_get_inode; [exact Hi|]. rewrite wp_bind, wp_get, wp_ret.
  rewrite Hl. cbn [locked pid my_lk]. rewrite Z.eqb_refl. cbn [andb negb]. rewrite wp_bind. eapply wp_get_inode; [exact Hi|].
  rewrite (proj2 (Z.ltb_ge _ _)) by lia. unfold releasesleep. eapply wp_upd_inode; [exact Hi|]. done.
Qed.

(** The lock is no part of what a file holds. *)
Lemma inode_ok_lk c p k : inode_ok c p -> inode_ok c (set_lk k p).
Proof using. intros [I1 I2 I3 I4 I5 I6]. by split. Qed.
Lemma on_disk_lk c p k : on_disk c p -> on_disk c (set_lk k p).
Proof using. unfold on_disk, get_dinode. destruct p; simpl. intros [= E1 E2 E3 E4 E5 E6]. by rewrite E1, E2, E3, E4, E5, E6. Qed.
End ops.
End FsFile.
