(* ===== verification/FsAtomic.v ===== *)
(** * FsAtomic: file writes across crashes in xv6

    The transaction filewrite makes for each chunk of a write: begin_op, ilock,
    writei, iunlock, end_op.  What it does to the contents of the file, in memory
    and on the disk that a crash leaves. *)
From stdpp Require Import base list gmap strings.
From Stdlib Require Import ZArith Lia.
From S2P Require Import Prelude Bio Log Fs FsTx FsFile.
Import Bio Log Fs FsTx FsFile.

Module FsAtomic.

(** The body of the loop of filewrite, for the chunk [src] at [off]. *)
Definition write_call (dev_write : Z -> option (nat -> list Z -> M fs Z)) (i : nat) (src : list Z) (off : Z) : M fs Z :=
  in_tx (do! ilock (Some i) in
         let! r := writei dev_write i src off in
         do! iunlock (Some i) in
         ret r).

(** The inode case of fileread; no transaction is open. *)
Definition read_call (dev_read : Z -> option (nat -> Z -> M fs (Z * list Z))) (i : nat) (off n : Z) : M fs (Z * list Z) :=
  do! ilock (Some i) in
  let! r := readi dev_read i off n in
  do! iunlock (Some i) in
  ret r.

(** The chunk size of filewrite, [((MAXOPBLOCKS-1-1-2) / 2) * 512]. *)
Definition chunk_max : Z := Z.quot (MAXOPBLOCKS - 1 - 1 - 2) 2 * 512.

Section calls.
Context (B : superblock) (sz : Z) (Hsz : sz <= 2 ^ 31).

(** The contents of inode [n] on the disk. *)
Definition blank : inode := mk_inode 1 0 0 free_lk false 0 0 0 0 0 [].
Definition disk_inode (c : Z -> list Z) (n : Z) : inode := get_dinode (dinode_off n) (c (IBLOCK n B)) blank.
Definition disk_contents (c : Z -> list Z) (n : Z) : list Z := contents c (disk_inode c n).

Lemma disk_contents_inode c p : on_disk B c p -> disk_contents c (inum p) = contents c p.
Proof.
  intros Hd. unfold disk_contents, disk_inode, contents. unfold on_disk in Hd.
  assert (E1 : isize (get_dinode (dinode_off (inum p)) (c (IBLOCK (inum p) B)) blank) = isize p) by (by rewrite <- Hd at 3).
  assert (E2 : addrs (get_dinode (dinode_off (inum p)) (c (IBLOCK (inum p) B)) blank) = addrs p) by (by rewrite <- Hd at 3).
  by rewrite E1, E2.
Qed.

(** Files depend on the free map and the data only. *)
Section agree.
Context (c c' : Z -> list Z) (Hb : forall b, bmapstart B <= b -> c' b = c b).

Lemma faddr_agree ad bn : file_ok B c ad -> faddr c' ad bn = faddr c ad bn.
Proof.
  intros F. unfold faddr. destruct (bn <? NDIRECT); [done|]. destruct (Z.eqb_spec (ind ad) 0) as [|Hz]; [done|].
  destruct (f_ind _ _ _ F Hz) as [[? ?] _]. by rewrite Hb by lia.
Qed.

Lemma used_agree b : used B c' b = used B c b.
Proof. unfold used. by rewrite Hb. Qed.

Lemma map_ok_agree : map_ok B c -> map_ok B c'.
Proof. intros Hm b Hr. rewrite used_agree. by apply Hm. Qed.

Lemma inode_ok_agree p : inode_ok B c p -> inode_ok B c' p.
Proof.
  intros [I1 I2 I3 I4 I5 I6]. pose proof (fun bn => faddr_agree (addrs p) bn I5) as Ea. split; try done.
  - destruct I5 as [F1 F2 F3 F4 F5]. split; try (intros x; rewrite ?Ea, ?used_agree; by auto); [done|]. intros x y. rewrite !Ea. apply F4.
  - intros o Ho. rewrite Ea. by apply I6.
Qed.

Lemma contents_agree p : inode_ok B c p -> contents c' p = contents c p.
Proof.
  intros I. pose proof (ip_file _ _ _ I) as F. pose proof (ip_size _ _ _ I). unfold contents. apply fbytes_same. intros o Ho. unfold fbyte, fblock.
  rewrite faddr_agree by done. destruct (Z.eqb_spec (faddr c (addrs p) (o / BSIZE)) 0) as [|Hz]; [done|].
  destruct (f_blk _ _ _ F (o / BSIZE)) as [[? ?] _]; [apply div_block; lia|done|]. by rewrite Hb by lia.
Qed.
End agree.

Lemma disk_contents_agree c c' p :
  0 < bmapstart B -> (forall b, inodestart B <= b -> c' b = c b) -> inodestart B < bmapstart B -> inode_ok B c p -> on_disk B c p ->
  disk_contents c' (inum p) = contents c p.
Proof.
  intros HBM Hb Hi I Hd. assert (Hib : inodestart B <= IBLOCK (inum p) B).
  { unfold IBLOCK. pose proof (Z.div_pos (inum p) IPB ltac:(apply I) ltac:(done)). lia. }
  rewrite (disk_contents_inode c' p) by (unfold on_disk; rewrite Hb by done; exact Hd).
  apply contents_agree; [|done]. intros b ?. apply Hb. lia.
Qed.

Lemma touched_chunk off n : 0 <= off -> 0 <= n <= chunk_max -> 0 <= touched off n <= 4.
Proof.
  intros Ho Hn. unfold touched. change chunk_max with 1536 in Hn. consts.
  pose proof (Z.div_mod off 512 ltac:(lia)). pose proof (Z.mod_pos_bound off 512 ltac:(lia)).
  pose proof (Z.div_mod (off + n + (512 - 1)) 512 ltac:(lia)). pose proof (Z.mod_pos_bound (off + n + (512 - 1)) 512 ltac:(lia)). lia.
Qed.

(** The state of the file system between calls, and a file in it. *)
Record quiet (s : fs) (d : gmap Z (list Z)) (ws : list (Z * list Z)) (l : log) : Prop := {
  q_idle : idle sz (kern s) d ws l;
  q_layout : layout sz (start l) B;
  q_sb : sb s = B;
  q_len n : length (dk d n) = Z.to_nat BSIZE;
  q_logsb : get32 (dk d 1) off_logstart = start l;
  q_start : 1 < start l;
  q_size : LOGSIZE <= size l;
  q_header : lists (dk d (start l)) [];
  q_map : map_ok B (dk d)
}.

Record open_inode (s : fs) (d : gmap Z (list Z)) (i : nat) (p : inode) : Prop := {
  oi_cache : icache s !! i = Some p;
  oi_ref : 0 < iref p;
  oi_lock : ilk p = free_lk;
  oi_valid : valid p = true;
  oi_ok : inode_ok B (dk d) p;
  oi_fits : fits p;
  oi_disk : on_disk B (dk d) p
}.

(** What the body of the transaction leaves. *)
Definition write_post s d i p off src (r : Z) s' c' bs' : Prop :=
  r = Z.of_nat (length src) /\ sb s' = B /\ (length bs' <= 7)%nat /\
  exists p', icache s' = <[i := set_lk free_lk p']> (icache s) /\ wrote B (dk d) (set_lk (my_lk s) p) [] off src c' p' bs'.

Lemma write_body dev_write s d ws l i p off src k :
  quiet s d ws l -> open_inode s d i p ->
  0 <= off <= isize p -> off + Z.of_nat (length src) <= MAXFILE * BSIZE -> Z.of_nat (length src) <= chunk_max ->
  touched off (Z.of_nat (length src)) + 1 <= Z.of_nat (nfree B (dk d)) ->
  let tx := FsTx.tx sz d ws (start l) (size l) (cur_pid (bio (kern s))) true in
  tx (set_kern k s) (dk d) [] ∅ ->
  wp (do! ilock (Some i) in let! r := writei dev_write i src off in do! iunlock (Some i) in ret r)
    (fun r s' => exists c' bs', tx s' c' bs' ∅ /\ (length bs' < 29)%nat /\ write_post s d i p off src r s' c' bs') (set_kern k s).
Proof.
  intros [Q1 Q2 Q3 Q4 Q5 Q6 Q7 Q8 Q9] [O1 O2 O3 O4 O5 O6 O7] Ho Hmax Hchunk Hnf tx T.
  pose proof (touched_chunk off (Z.of_nat (length src)) ltac:(lia) ltac:(lia)) as Ht. change chunk_max with 1536 in Hchunk.
  pose proof (ip_size _ _ _ O5). rewrite wp_bind. eapply ilock_valid_spec; [exact O1|done|done|done|].
  assert (Hme : my_lk (set_kern k s) = my_lk s) by (unfold my_lk; by rewrite (tx_pid _ _ _ _ _ _ _ _ _ _ _ T)). rewrite Hme.
  set (p1 := set_lk (my_lk s) p). set (s1 := set_icache _ _). assert (Hlt : (i < length (icache s))%nat) by (by eapply lookup_lt_Some).
  rewrite wp_bind. eapply wp_mono; [eapply (writei_spec sz Hsz d ws (start l) (size l) _ true Q7 B Q2 dev_write s1 (dk d) [] i p1 off src)|].
  - done.
  - apply tx_set_icache, T.
  - done.
  - done.
  - simpl. by apply list_lookup_insert_eq.
  - by apply inode_ok_lk.
  - done.
  - by apply on_disk_lk.
  - unfold UINT_MAX. consts. lia.
  - unfold UINT_MAX. lia.
  - simpl. lia.
  - done.
  - change (isize p1) with (isize p). destruct (Z.ltb_spec (isize p) off); [lia|].
    destruct (Z.ltb_spec (MAXFILE * BSIZE) (off + Z.of_nat (length src))); [lia|]. cbn [orb].
    intros r s2 (-> & c' & p' & bs' & T2 & Hsb2 & Hic2 & W). pose proof (wr_logs _ _ _ _ _ _ _ _ _ W) as Hlogs. simpl in Hlogs.
    assert (Hp' : iref p' = iref p /\ ilk p' = my_lk s) by (rewrite (wr_inode _ _ _ _ _ _ _ _ _ W); done).
    rewrite wp_bind. eapply iunlock_spec; [rewrite Hic2; apply list_lookup_insert_eq; simpl; by rewrite length_insert|lia| |].
    + rewrite (proj2 Hp'). unfold my_lk. f_equal. symmetry. apply (tx_pid _ _ _ _ _ _ _ _ _ _ _ T2).
    + rewrite wp_ret. exists c', bs'. split; [apply tx_set_icache, T2|]. split; [lia|]. split; [done|]. split; [done|]. split; [lia|].
      exists p'. split; [|exact W]. simpl. rewrite Hic2. simpl. by rewrite !list_insert_insert_eq.
Qed.

Lemma layout_order ls : layout sz ls B -> 0 <= ls /\ ls + LOGSIZE <= inodestart B /\ inodestart B < bmapstart B.
Proof.
  intros [? ? [? ?] [? ?]]. pose proof (Z.div_pos (ninodes B - 1) IPB ltac:(lia) ltac:(done)). lia.
Qed.

(** Blocks that the commit writes are whole. *)
Lemma tx_writes_len (d : gmap Z (list Z)) c ls bs n :
  (forall n, length (dk d n) = Z.to_nat BSIZE) -> (forall n, length (c n) = Z.to_nat BSIZE) ->
  length (dk (apply_writes d (tx_writes c ls bs)) n) = Z.to_nat BSIZE.
Proof.
  intros Hd Hc. rewrite dk_apply. assert (Hall : Forall (fun w => length (snd w) = Z.to_nat BSIZE) (tx_writes c ls bs)).
  { assert (Hlog : forall bs ls, Forall (fun w => length (snd w) = Z.to_nat BSIZE) (log_writes c ls bs)).
    { clear bs ls. induction bs as [|b bs IH]; intros ls; simpl; constructor; [apply Hc|apply IH]. }
    unfold tx_writes. destruct bs as [|b bs']; [constructor|]. set (bs := b :: bs'). unfold commit_writes.
    repeat (apply Forall_app; split); [apply Hlog|repeat constructor; simpl; by rewrite !length_header| |repeat constructor; simpl; by rewrite !length_header].
    apply Forall_map, Forall_true. intros x. apply Hc. }
  revert Hall. generalize (tx_writes c ls bs). intros W. revert d Hd. unfold csets.
  assert (H : forall W f, (forall n, length (f n) = Z.to_nat BSIZE) -> Forall (fun w => length (snd w) = Z.to_nat BSIZE) W ->
    forall n, length (foldl (fun (c : Z -> list Z) (w : Z * list Z) => set_block c (fst w) (snd w)) f W n) = Z.to_nat BSIZE).
  { clear. induction W as [|[b x] W IH]; intros f Hf HW n; simpl; [done|]. apply Forall_cons in HW as [Hx HW]. apply IH; [|done].
    intros m. unfold set_block. simpl in *. case_Z; done. }
  intros d Hd HW. by apply H.
Qed.

Lemma read_call_spec dev_read s d ws l i p off n :
  quiet s d ws l -> open_inode s d i p -> 0 <= off <= UINT_MAX -> 0 <= n <= UINT_MAX ->
  exists s' l', read_call dev_read i off n s =
      Ok (if (isize p <? off) || (UINT_MAX <? off + n) then (-1, [])
          else let x := take (Z.to_nat n) (drop (Z.to_nat off) (contents (dk d) p)) in (Z.of_nat (length x), x), s') /\
    quiet s' d ws l' /\ icache s' = icache s.
Proof.
  intros [Q1 Q2 Q3 Q4 Q5 Q6 Q7 Q8 Q9] [O1 O2 O3 O4 O5 O6 O7] Ho Hn. set (r := if _ || _ then _ else _).
  pose proof (read_tx sz s d ws l Q1 Q4) as T. assert (Hlt : (i < length (icache s))%nat) by (by eapply lookup_lt_Some).
  enough (Hwp : wp (read_call dev_read i off n) (fun r' s' => r' = r /\ sb s' = B /\ icache s' = icache s /\
    tx sz d ws (start l) (size l) (cur_pid (bio (kern s))) false s' (dk d) [] ∅) s).
  { apply wp_run in Hwp as (r' & s' & E & -> & Hsb & Hic & T'). destruct (tx_read _ _ _ _ _ _ _ T') as (l' & Hi' & Hst & Hsi).
    exists s', l'. split; [exact E|]. split; [|done]. split; rewrite ?Hst, ?Hsi; done. }
  unfold read_call. rewrite wp_bind. eapply ilock_valid_spec; [exact O1|done|done|done|]. set (p1 := set_lk (my_lk s) p). set (s1 := set_icache _ _).
  rewrite wp_bind. eapply wp_mono; [eapply (readi_spec sz Hsz d ws (start l) (size l) _ false Q7 B Q2 dev_read s1 (dk d) [] i p1 off n)|].
  - apply tx_set_icache, T.
  - done.
  - done.
  - simpl. by apply list_lookup_insert_eq.
  - by apply inode_ok_lk.
  - done.
  - done.
  - simpl. lia.
  - cbv beta. intros r' s2 (-> & T2 & Hsb2 & Hic2).
    assert (Hi2 : icache s2 !! i = Some p1) by (rewrite Hic2; simpl; by apply list_lookup_insert_eq).
    rewrite wp_bind. eapply iunlock_spec; [exact Hi2|done| |].
    + unfold p1, my_lk. simpl. f_equal. symmetry. apply (tx_pid _ _ _ _ _ _ _ _ _ _ _ T2).
    + rewrite wp_ret. split; [done|]. split; [done|]. split; [|apply tx_set_icache, T2]. simpl. rewrite Hic2. simpl.
      rewrite list_insert_insert_eq. apply list_insert_id. rewrite O1. f_equal. unfold p1. rewrite <- O3. by destruct p.
Qed.

(** The state between calls after a transaction committed. *)
Lemma quiet_commit s d ws l s1 k l' c' bs' :
  quiet s d ws l -> sb s1 = B -> let W := tx_writes c' (start l) bs' in
  idle sz k (apply_writes d W) (ws ++ W) l' -> start l' = start l -> size l' = size l -> clean (start l) c' (apply_writes d W) ->
  (forall n, length (c' n) = Z.to_nat BSIZE) -> c' 1 = dk d 1 -> map_ok B c' ->
  quiet (set_kern k s1) (apply_writes d W) (ws ++ W) l' /\ (forall b, inodestart B <= b -> dk (apply_writes d W) b = c' b).
Proof.
  intros [Q1 Q2 Q3 Q4 Q5 Q6 Q7 Q8 Q9] Hsb W Hi' Hst Hsi (C1 & C2 & C3) Hlc H1 Hm. destruct (layout_order _ Q2) as (L1 & L2 & L3).
  assert (HL : LOGSIZE = 30) by done.
  assert (Hag : forall b, inodestart B <= b -> dk (apply_writes d W) b = c' b) by (intros b Hb; apply C3; unfold outside; lia). split; [|done].
  split; [exact Hi'|by rewrite Hst|done|intros m; by apply tx_writes_len| |by rewrite Hst|by rewrite Hsi|by rewrite Hst|].
  - rewrite Hst, C3 by (unfold outside; lia). by rewrite H1.
  - eapply map_ok_agree; [|exact Hm]. intros b Hb. apply Hag. lia.
Qed.

(** The whole transaction. *)
Lemma write_call_spec pid dev_write s d ws l i p off src :
  quiet s d ws l -> open_inode s d i p ->
  0 <= off <= isize p -> off + Z.of_nat (length src) <= MAXFILE * BSIZE -> Z.of_nat (length src) <= chunk_max ->
  touched off (Z.of_nat (length src)) + 1 <= Z.of_nat (nfree B (dk d)) ->
  exists s' l' W n p', write_call dev_write i src off s = Ok (Z.of_nat (length src), s') /\
    quiet s' (apply_writes d W) (ws ++ W) l' /\ open_inode s' (apply_writes d W) i p' /\
    inum p' = inum p /\ isize p' = Z.max (isize p) (off + Z.of_nat (length src)) /\
    contents (dk (apply_writes d W)) p' = splice off src (contents (dk d) p) /\ (n <= 7)%nat /\
    forall j, (exists kr, recover sz pid (apply_writes d (take j W)) = Ok (tt, kr)) /\
      forall d', recovers sz pid (apply_writes d (take j W)) d' ->
        disk_contents (dk d') (inum p) = if (j <=? n)%nat then contents (dk d) p else splice off src (contents (dk d) p).
Proof.
  intros Q O Ho Hmax Hchunk Hnf. pose proof Q as [Q1 Q2 Q3 Q4 Q5 Q6 Q7 Q8 Q9]. pose proof O as [O1 O2 O3 O4 O5 O6 O7].
  destruct (layout_order _ Q2) as (L1 & L2 & L3). pose proof (map_pos sz (start l) B Q2) as HBM. assert (HL : LOGSIZE = 30) by done.
  destruct (in_tx_spec sz pid Hsz _ s d ws l (write_post s d i p off src) Q1 Q4 Q5 Q6 Q8
    (fun k T => write_body dev_write s d ws l i p off src k Q O Ho Hmax Hchunk Hnf T))
    as (r & s1 & k & l' & c' & bs' & E & (-> & Hsb & Hn7 & p' & Hic & W) & Hlc & Hi' & Hst & Hsi & Hcl & Hca).
  set (Ws := tx_writes c' (start l) bs') in *. pose proof W as [W1 W2 W3 W4 W5 W6 W7 W8 W9 W10 W11].
  assert (Hout : forall b, inodestart B <= b -> outside (start l) b) by (intros b ?; unfold outside; lia).
  assert (H1 : c' 1 = dk d 1).
  { pose proof (lay_size sz (start l) B Q2). assert (Hd1 : 0 <= 1 < bmapstart B) by lia.
    destruct (meta_block sz (start l) B Q2 _ _ 1 Q9 (ip_file _ _ _ O5) Hd1) as [? ?].
    apply W7; [lia|done|done|lia|]. unfold IBLOCK. simpl. pose proof (Z.div_pos (inum p) IPB ltac:(apply O5) ltac:(done)). lia. }
  assert (Ep : inum p' = inum p /\ iref p' = iref p /\ valid p' = valid p /\ isize p' = Z.max (isize p) (off + Z.of_nat (length src))) by (rewrite W5; done).
  destruct (quiet_commit s d ws l s1 k l' c' bs' Q Hsb Hi' Hst Hsi Hcl Hlc H1 W1) as [Q' Hag]. fold Ws in Q', Hag.
  destruct Ep as (Ep1 & Ep2 & Ep3 & Ep4). set (p2 := set_lk free_lk p').
  assert (Hin : inode_ok B c' p2) by (by apply inode_ok_lk). assert (Hod : on_disk B c' p2) by (by apply on_disk_lk).
  exists (set_kern k s1), l', Ws, (length bs'), p2. split; [exact E|]. split; [exact Q'|]. split; [|split; [done|split; [done|split; [|split; [done|]]]]].
  - split; [simpl; rewrite Hic; apply list_lookup_insert_eq; by eapply lookup_lt_Some|simpl; lia|done|simpl; congruence|eapply inode_ok_agree; [|done]; intros b ?; apply Hag; lia|done|].
    unfold on_disk. rewrite Hag; [done|]. unfold IBLOCK. pose proof (Z.div_pos (inum p2) IPB ltac:(apply Hin) ltac:(done)). lia.
  - rewrite (contents_agree c'); [exact W6| |done]. intros b ?. apply Hag. lia.
  - intros j. destruct (Hca j) as [Hrun Hrec]. split; [exact Hrun|]. intros d' Hr. specialize (Hrec d' Hr). destruct (j <=? length bs')%nat.
    + apply disk_contents_agree; [done| |done|done|done]. intros b Hb. by apply Hrec, Hout.
    + rewrite <- Ep1. change (inum p') with (inum p2). rewrite (disk_contents_agree c'); [exact W6|done| |done|done|done]. intros b Hb. by apply Hrec, Hout.
Qed.
(** C2. File writes are atomic across crashes.  Between system calls, a write of
    at most the chunk size of filewrite to an open file, at an offset inside it,
    succeeds when enough blocks are free: it stores all bytes, the file then
    holds its old contents with the new bytes in place, the disk agrees with
    memory, and the file system is again between calls, so that such writes can
    follow each other.  It logs at most seven blocks, fewer than the ten reserved
    for a call.  If the machine stops after any number [j] of the block writes,
    start-up succeeds, and after it, however often recovery itself is cut short
    and run again, the disk holds the file either as it was before the write or
    as it is after it. *)
Theorem file_write_atomic pid dev_write s d ws l i p off src :
  quiet s d ws l -> open_inode s d i p ->
  0 <= off <= isize p -> off + Z.of_nat (length src) <= MAXFILE * BSIZE -> Z.of_nat (length src) <= chunk_max ->
  touched off (Z.of_nat (length src)) + 1 <= Z.of_nat (nfree B (dk d)) ->
  exists s' l' W n p', write_call dev_write i src off s = Ok (Z.of_nat (length src), s') /\
    quiet s' (apply_writes d W) (ws ++ W) l' /\ open_inode s' (apply_writes d W) i p' /\
    inum p' = inum p /\ isize p' = Z.max (isize p) (off + Z.of_nat (length src)) /\
    contents (dk (apply_writes d W)) p' = splice off src (contents (dk d) p) /\ (n <= 7)%nat /\
    forall j, (exists kr, recover sz pid (apply_writes d (take j W)) = Ok (tt, kr)) /\
      forall d', recovers sz pid (apply_writes d (take j W)) d' ->
        disk_contents (dk d') (inum p) = if (j <=? n)%nat then contents (dk d) p else splice off src (contents (dk d) p).
Proof. apply write_call_spec. Qed.

(** C21. Reads return what was written.  After a write of at most the chunk size
    to an open file, a read at any offset, outside any transaction, returns the
    bytes of the file's old contents with the new bytes in place, cut off at the
    end of the file; an offset past the end is an error. *)
Theorem file_read_after_write dev_read dev_write s d ws l i p off src :
  quiet s d ws l -> open_inode s d i p ->
  0 <= off <= isize p -> off + Z.of_nat (length src) <= MAXFILE * BSIZE -> Z.of_nat (length src) <= chunk_max ->
  touched off (Z.of_nat (length src)) + 1 <= Z.of_nat (nfree B (dk d)) ->
  let new := splice off src (contents (dk d) p) in
  exists s', write_call dev_write i src off s = Ok (Z.of_nat (length src), s') /\
    forall off' n, 0 <= off' <= UINT_MAX -> 0 <= n <= UINT_MAX -> off' + n <= UINT_MAX ->
      exists s'', read_call dev_read i off' n s' =
        Ok (if Z.of_nat (length new) <? off' then (-1, [])
            else let x := take (Z.to_nat n) (drop (Z.to_nat off') new) in (Z.of_nat (length x), x), s'').
Proof.
  intros Q O Ho Hmax Hchunk Hnf new.
  destruct (write_call_spec 0 dev_write s d ws l i p off src Q O Ho Hmax Hchunk Hnf) as (s' & l' & W & m & p' & E & Q' & O' & _ & Hsz' & Hc & _).
  exists s'. split; [exact E|]. intros off' n Ho' Hn Hon.
  destruct (read_call_spec dev_read s' _ _ l' i p' off' n Q' O' Ho' Hn) as (s'' & l'' & E' & _). exists s''. rewrite E', Hc. fold new.
  pose proof (ip_size _ _ _ (oi_ok _ _ _ _ O')). assert (El : Z.of_nat (length new) = isize p').
  { unfold new. rewrite <- Hc. unfold contents. rewrite length_fbytes. lia. }
  rewrite El, (proj2 (Z.ltb_ge UINT_MAX _)) by lia. by rewrite orb_false_r.
Qed.
End calls.

(** ** A disk image

    The layout of mkfs with one file: inode 2, five bytes in block 59. *)
Definition demo_sb : superblock := mk_sb 1000 941 200 30 2 32 58.
Definition demo_block1 : list Z :=
  put32s zero_block 0 [1000; 941; 200; 30; 2; 32; 58].
Definition demo_inode : inode := mk_inode 1 2 1 free_lk true T_FILE 0 0 1 5 (59 :: replicate 12 0).
Definition demo_blocks : gmap Z (list Z) :=
  {[1 := demo_block1;
    32 := put_dinode (dinode_off 2) demo_inode zero_block;
    58 := foldl (fun d b => mark b d) zero_block (seqZ 0 60);
    59 := put_bytes zero_block 0 [104; 101; 108; 108; 111]]}.
Definition demo_log : log := mk_log 2 30 0 false 1 0 (replicate (Z.to_nat LOGSIZE) 0).
Definition demo_fs : fs :=
  mk_fs (mk_kernel (mk_state (replicate (Z.to_nat NBUF) zero_buf) (reverse (seq 0 (Z.to_nat NBUF))) demo_blocks 1000 [] 1) demo_log)
    [demo_inode] demo_sb.

Lemma seqZ_forallb (P : Z -> bool) n b : forallb P (seqZ 0 n) = true -> 0 <= b < n -> P b = true.
Proof. rewrite forallb_forall. intros H Hb. apply H, list_elem_of_In, elem_of_seqZ. lia. Qed.

Lemma demo_len n : length (dk demo_blocks n) = Z.to_nat BSIZE.
Proof.
  assert (H : map_Forall (fun _ b => length b = Z.to_nat BSIZE) demo_blocks) by (apply (bool_decide_eq_true_1 _); vm_compute; reflexivity).
  unfold dk. destruct (demo_blocks !! n) as [b|] eqn:E; [exact (H n b E)|done].
Qed.

Lemma demo_map : map_ok demo_sb (dk demo_blocks).
Proof.
  intros b Hb Hu. assert (H : used demo_sb (dk demo_blocks) b || (58 <? b) = true).
  { apply (seqZ_forallb (fun b => used demo_sb (dk demo_blocks) b || (58 <? b)) 1000); [vm_compute; reflexivity|exact Hb]. }
  rewrite Hu in H. simpl in H. unfold data_block. simpl in *. lia.
Qed.

Lemma demo_quiet : quiet demo_sb 1000 demo_fs demo_blocks [] demo_log.
Proof.
  split; [|split|done|apply demo_len|by vm_compute|by vm_compute|by vm_compute|split; [by vm_compute|done]|apply demo_map].
  - split; [|unfold log_ok; split; [done|]; split; [done|]; split; [done|apply length_replicate]|done|done|done].
    split; [apply rep_empty|done|done|done|done].
  - by vm_compute.
  - by vm_compute.
  - by vm_compute.
  - by vm_compute.
Qed.

Lemma demo_faddr bn : 0 <= bn < MAXFILE -> faddr (dk demo_blocks) (addrs demo_inode) bn = if bn =? 0 then 59 else 0.
Proof.
  intros Hb. apply Z.eqb_eq. apply (seqZ_forallb (fun bn => faddr (dk demo_blocks) (addrs demo_inode) bn =? if bn =? 0 then 59 else 0) 140); [vm_compute; reflexivity|exact Hb].
Qed.

Lemma demo_open : open_inode demo_sb demo_fs demo_blocks 0 demo_inode.
Proof.
  assert (Hn : forall bn, 0 <= bn < MAXFILE -> faddr (dk demo_blocks) (addrs demo_inode) bn <> 0 -> bn = 0).
  { intros bn Hb. rewrite demo_faddr by done. by destruct (Z.eqb_spec bn 0). }
  split; [done|done|done|done| | |by vm_compute].
  2: { unfold fits, UINT_MAX. cbn [type major minor nlink isize addrs demo_inode]. unfold T_FILE. repeat (split; [lia|]). split; [done|]. repeat (constructor; [lia|]). constructor. }
  - split; [done|done|done|by vm_compute| |].
    + split; [done|done| | |].
      * intros bn Hb Hz. rewrite (Hn bn Hb Hz). by vm_compute.
      * intros bn bn' Hb Hb' Hz E. rewrite (Hn bn Hb Hz). symmetry. apply Hn; [done|]. by rewrite <- E.
      * intros bn Hb Hz. rewrite (Hn bn Hb Hz). by vm_compute.
    + intros o Ho. simpl in Ho. rewrite Z.div_small by (change BSIZE with 512; lia). by vm_compute.
Qed.

Definition no_dev_read : Z -> option (nat -> Z -> M fs (Z * list Z)) := fun _ => None.
Definition no_dev_write : Z -> option (nat -> list Z -> M fs Z) := fun _ => None.

Lemma demo_nfree : (nfree demo_sb (dk demo_blocks) =? 940)%nat = true.
Proof. by vm_compute. Qed.

(** Three bytes from offset 4: the file grows. *)
Lemma file_write_atomic_witness :
  exists s' l' W n p', write_call no_dev_write 0 [72; 73; 74] 4 demo_fs = Ok (3, s') /\
    quiet demo_sb 1000 s' (apply_writes demo_blocks W) ([] ++ W) l' /\ open_inode demo_sb s' (apply_writes demo_blocks W) 0 p' /\
    inum p' = inum demo_inode /\ isize p' = Z.max (isize demo_inode) (4 + 3) /\
    contents (dk (apply_writes demo_blocks W)) p' = splice 4 [72; 73; 74] (contents (dk demo_blocks) demo_inode) /\ (n <= 7)%nat /\
    forall j, (exists kr, recover 1000 1 (apply_writes demo_blocks (take j W)) = Ok (tt, kr)) /\
      forall d', recovers 1000 1 (apply_writes demo_blocks (take j W)) d' ->
        disk_contents demo_sb (dk d') (inum demo_inode) =
        if (j <=? n)%nat then contents (dk demo_blocks) demo_inode else splice 4 [72; 73; 74] (contents (dk demo_blocks) demo_inode).
Proof.
  apply (file_write_atomic demo_sb 1000 ltac:(lia) 1 no_dev_write demo_fs demo_blocks [] demo_log 0 demo_inode 4 [72; 73; 74] demo_quiet demo_open).
  - simpl. lia.
  - by vm_compute.
  - by vm_compute.
  - rewrite (proj1 (Nat.eqb_eq _ _) demo_nfree). by vm_compute.
Defined.

Lemma file_read_after_write_witness :
  let new := splice 4 [72; 73; 74] (contents (dk demo_blocks) demo_inode) in
  exists s', write_call no_dev_write 0 [72; 73; 74] 4 demo_fs = Ok (3, s') /\
    forall off' n, 0 <= off' <= UINT_MAX -> 0 <= n <= UINT_MAX -> off' + n <= UINT_MAX ->
      exists s'', read_call no_dev_read 0 off' n s' =
        Ok (if Z.of_nat (length new) <? off' then (-1, [])
            else let x := take (Z.to_nat n) (drop (Z.to_nat off') new) in (Z.of_nat (length x), x), s'').
Proof.
  apply (file_read_after_write demo_sb 1000 ltac:(lia) no_dev_read no_dev_write demo_fs demo_blocks [] demo_log 0 demo_inode 4 [72; 73; 74] demo_quiet demo_open).
  - simpl. lia.
  - by vm_compute.
  - by vm_compute.
  - rewrite (proj1 (Nat.eqb_eq _ _) demo_nfree). by vm_compute.
Defined.

(** The whole call evaluates. *)
Example demo_write_read :
  match (do! write_call no_dev_write 0 [72; 73; 74] 4 in read_call no_dev_read 0 2 10) demo_fs with
  | Ok (r, _) => r = (5, [108; 108; 72; 73; 74])
  | Err _ => False
  end.
Proof. by vm_compute. Qed.
End FsAtomic.
