(* ===== verification/FsTrunc.v ===== *)
(** * FsTrunc: freeing files in xv6

    itrunc and iput: the blocks and the inode of a file that nothing refers to
    are given back. *)
From stdpp Require Import base list gmap strings.
From Stdlib Require Import ZArith Lia.
From S2P Require Import Prelude Bio Log Fs FsTx FsFile FsAtomic.
Import Bio Log Fs FsTx FsFile FsAtomic.

Module FsTrunc.

(** The entries that are set. *)
Definition nz (l : list Z) : list Z := filter (fun a => a <> 0) l.

Lemma elem_of_nz l a : a ∈ nz l <-> a <> 0 /\ a ∈ l.
Proof. unfold nz. by rewrite list_elem_of_filter. Qed.

Lemma nz_zero l : Forall (fun a => a = 0) l -> nz l = [].
Proof. induction 1 as [|a l -> _ IH]; [done|]. unfold nz in *. by rewrite filter_cons, decide_False by tauto. Qed.

(** The blocks of a file in the order itrunc frees them. *)
Definition file_blocks (c : Z -> list Z) (ad : list Z) : list Z :=
  nz (map (faddr c ad) (seqZ 0 NDIRECT)) ++ nz (map (faddr c ad) (seqZ NDIRECT NINDIRECT)) ++ nz [ind ad].

Lemma elem_of_file_blocks c ad b : b ∈ file_blocks c ad <-> owned c ad b.
Proof.
  unfold file_blocks. rewrite !elem_of_app, !elem_of_nz, list_elem_of_singleton, !list_elem_of_fmap. unfold owned. split.
  - intros [[Hb (bn & -> & Hn)]|[[Hb (bn & -> & Hn)]|[Hb ->]]]; (split; [done|]); [right; exists bn..|by left];
      (split; [apply elem_of_seqZ in Hn; consts; lia|done]).
  - intros [Hb [->|(bn & Hbn & <-)]]; [by right; right|]. destruct (decide (bn < NDIRECT)).
    + left. split; [done|]. exists bn. split; [done|]. apply elem_of_seqZ. lia.
    + right. left. split; [done|]. exists bn. split; [done|]. apply elem_of_seqZ. consts. lia.
Qed.

Section trunc.
Context (sz : Z) (Hsz : sz <= 2 ^ 31) (d0 : gmap Z (list Z)) (ws0 : list (Z * list Z)) (ls lsz pd : Z) (w : bool) (Hlsz : LOGSIZE <= lsz).
Context (B : superblock) (HB : layout sz ls B).
Notation tx := (FsTx.tx sz d0 ws0 ls lsz pd w).
Notation BM := (bmapstart B).

(** The blocks after those of [l] were freed. *)
Definition free_list (c : Z -> list Z) (l : list Z) : Z -> list Z := foldl (free_block B) c l.

Lemma free_list_other l : forall c n, n <> BM -> free_list c l n = c n.
Proof. induction l as [|b l IH]; intros c n Hn; simpl; [done|]. rewrite IH by done. by apply free_other. Qed.

Lemma length_free c b : (forall n, length (c n) = Z.to_nat BSIZE) -> forall n, length (free_block B c b n) = Z.to_nat BSIZE.
Proof. intros H n. unfold free_block, set_block, unmark. case_Z; [by rewrite length_insert|apply H]. Qed.

Lemma free_list_used l : forall c x, (forall n, length (c n) = Z.to_nat BSIZE) -> Forall (data_block B) l -> 0 <= x < BPB ->
  used B (free_list c l) x = negb (bool_decide (x ∈ l)) && used B c x.
Proof.
  induction l as [|b l IH]; intros c x Hl Hd Hx; simpl; [done|]. apply Forall_cons in Hd as [Hb Hd].
  rewrite IH by (done || by apply length_free). rewrite (free_used sz ls B HB) by (done || apply Hl).
  rewrite andb_assoc. f_equal. rewrite <- negb_orb. f_equal. apply eq_true_iff_eq. rewrite orb_true_iff, Z.eqb_eq, !bool_decide_eq_true, elem_of_cons. naive_solver.
Qed.

Lemma free_list_map l c : (forall n, length (c n) = Z.to_nat BSIZE) -> Forall (data_block B) l -> map_ok B c -> map_ok B (free_list c l).
Proof.
  intros Hl Hd Hm x Hx. pose proof (lay_size sz ls B HB). rewrite free_list_used by (done || lia). case_bool_decide as Hin; simpl.
  - intros _. by eapply Forall_forall in Hd.
  - by apply Hm.
Qed.

Lemma within_map s c (bs bs' : list Z) hs : tx s c bs' hs -> (forall x, x ∈ bs' -> x ∈ bs \/ x = BM) -> (length bs' <= S (length bs))%nat.
Proof.
  intros T H. assert (Hs : bs' ⊆+ BM :: bs) by (apply NoDup_submseteq; [apply T|]; intros x Hx; apply elem_of_cons; destruct (H x Hx); tauto).
  apply submseteq_length in Hs. done.
Qed.

(** Freeing one block leaves the others in use. *)
Lemma free_still c b l :
  (forall n, length (c n) = Z.to_nat BSIZE) -> data_block B b -> Forall (data_block B) l -> b ∉ l -> (forall x, x ∈ b :: l -> used B c x = true) ->
  forall x, x ∈ l -> used B (free_block B c b) x = true.
Proof.
  intros Hl Hb Hd Hn Hu x Hx. pose proof (data_BPB sz ls B HB x ltac:(by eapply Forall_forall in Hd)).
  rewrite (free_used sz ls B HB) by (done || apply Hl). rewrite Hu by (apply elem_of_cons; by right).
  rewrite (proj2 (Z.eqb_neq b x)); [done|]. intros ->. done.
Qed.

(** bfree of a list of blocks in use, each once; zero entries are skipped. *)
Lemma itrunc_indirect_spec bs0 hs l : w = true -> hs !! BM = None -> (length bs0 + base.size hs < 28)%nat -> forall s c bs Q,
  tx s c bs hs -> sb s = B -> (forall x, x ∈ bs -> x ∈ bs0 \/ x = BM) ->
  Forall (data_block B) (nz l) -> NoDup (nz l) -> (forall b, b ∈ nz l -> used B c b = true) ->
  (forall k bs', tx (set_kern k s) (free_list c (nz l)) bs' hs -> (forall x, x ∈ bs' -> x ∈ bs0 \/ x = BM) -> Q tt (set_kern k s)) ->
  wp (itrunc_indirect 1 l) Q s.
Proof.
  intros Hw Hbm Hr. induction l as [|b l IH]; intros s c bs Q T Hsb Hbs Hd Hnd Hu HQ; cbn [itrunc_indirect].
  - rewrite wp_ret. rewrite <- (set_kern_kern s). apply (HQ _ bs); [by rewrite set_kern_kern|done].
  - pose proof (within_map _ _ _ _ _ T Hbs). rewrite wp_bind. unfold nz in *. rewrite filter_cons in *. destruct (Z.eqb_spec b 0) as [->|Hb].
    + rewrite decide_False in * by tauto. rewrite wp_ret. by eapply IH.
    + rewrite decide_True in * by done. apply Forall_cons in Hd as [Hdb Hd]. apply NoDup_cons in Hnd as [Hnb Hnd].
      assert (Hub : used B c b = true) by (apply Hu, elem_of_cons; by left).
      eapply (bfree_spec sz Hsz d0 ws0 ls lsz pd w Hlsz B HB Hw); [exact T|done|done|done|done|lia|]. intros k T1.
      eapply (IH _ _ _ _ T1); [done| |done|done| |exact (fun k' bs' T' => HQ k' bs' T')].
      * intros x Hx. apply elem_of_logs in Hx as [?| ->]; [by apply Hbs|by right].
      * eapply free_still; [apply T|done|done|done|exact Hu].
Qed.

Lemma itrunc_direct_spec bs0 i p post : w = true -> idev p = 1 -> length post = 1%nat -> (length bs0 < 28)%nat -> forall l pre s c bs Q,
  tx s c bs ∅ -> sb s = B -> (forall x, x ∈ bs -> x ∈ bs0 \/ x = BM) -> (length pre + length l = 12)%nat ->
  icache s !! i = Some (set_addrs (pre ++ l ++ post) p) ->
  Forall (data_block B) (nz l) -> NoDup (nz l) -> (forall b, b ∈ nz l -> used B c b = true) ->
  (forall s' bs', tx s' (free_list c (nz l)) bs' ∅ -> sb s' = B -> (forall x, x ∈ bs' -> x ∈ bs0 \/ x = BM) ->
     icache s' = <[i := set_addrs (pre ++ replicate (length l) 0 ++ post) p]> (icache s) -> Q tt s') ->
  wp (itrunc_direct (length l) i (Z.of_nat (length pre))) Q s.
Proof.
  intros Hw Hdev Hpost Hr. induction l as [|b l IH]; intros pre s c bs Q T Hsb Hbs Hlen Hi Hd Hnd Hu HQ; cbn [length itrunc_direct replicate] in *.
  - rewrite wp_ret. apply (HQ s bs); [done|done|done|]. by rewrite list_insert_id.
  - assert (Hlt : (i < length (icache s))%nat) by (by eapply lookup_lt_Some).
    assert (Hb : (pre ++ (b :: l) ++ post) !!! Z.to_nat (Z.of_nat (length pre)) = b).
    { rewrite Nat2Z.id. apply list_lookup_total_correct. by apply (list_lookup_middle pre (l ++ post) b). }
    replace (Z.of_nat (length pre) + 1) with (Z.of_nat (length (pre ++ [b]))) by (rewrite length_app; simpl; lia).
    rewrite wp_bind. eapply wp_get_addr; [exact Hi|simpl; rewrite !length_app; simpl; rewrite length_app; lia|consts; lia|].
    cbn [addrs set_addrs]. rewrite Hb. rewrite wp_bind. unfold nz in *. rewrite filter_cons in *. destruct (Z.eqb_spec b 0) as [->|Hb0].
    + rewrite decide_False in * by tauto. rewrite wp_ret.
      eapply (IH (pre ++ [0])); [exact T|done|done|rewrite length_app; simpl; lia|by rewrite <- app_assoc|done|done|done|].
      intros s' bs' T' Hsb' Hbs' Hic'. apply (HQ s' bs'); [done|done|done|]. rewrite Hic'. by rewrite <- app_assoc.
    + rewrite decide_True in * by done. apply Forall_cons in Hd as [Hdb Hd]. apply NoDup_cons in Hnd as [Hnb Hnd].
      pose proof (within_map _ _ _ _ _ T Hbs). assert (Hub : used B c b = true) by (apply Hu, elem_of_cons; by left).
      rewrite wp_bind. eapply wp_get_inode; [exact Hi|]. cbn [idev set_addrs]. rewrite Hdev, wp_bind.
      eapply (bfree_spec sz Hsz d0 ws0 ls lsz pd w Hlsz B HB Hw); [exact T|done|done|done|done|rewrite map_size_empty; lia|]. intros k T1.
      unfold put_addr. eapply wp_upd_inode; [exact Hi|]. cbn [addrs set_addrs icache set_kern].
      assert (Eins : <[Z.to_nat (Z.of_nat (length pre)) := 0]> (pre ++ (b :: l) ++ post) = (pre ++ [0]) ++ l ++ post).
      { rewrite Nat2Z.id, insert_app_r_alt by lia. rewrite Nat.sub_diag. by rewrite <- app_assoc. }
      rewrite Eins. rewrite (length_app pre [b]). replace (length pre + length [b])%nat with (length (pre ++ [0])) by (by rewrite length_app).
      eapply (IH (pre ++ [0])); [apply tx_set_icache, T1|done| |rewrite length_app; simpl; lia|simpl; by apply list_lookup_insert_eq|done|done| |].
      * intros x Hx. apply elem_of_logs in Hx as [?| ->]; [by apply Hbs|by right].
      * eapply free_still; [apply T|done|done|done|exact Hu].
      * intros s' bs' T' Hsb' Hbs' Hic'. apply (HQ s' bs'); [done|done|done|]. rewrite Hic'. simpl. rewrite list_insert_insert_eq. by rewrite <- app_assoc.
Qed.

Lemma NoDup_nz_map (f : Z -> Z) l : (forall x y, x ∈ l -> y ∈ l -> f x <> 0 -> f x = f y -> x = y) -> NoDup l -> NoDup (nz (map f l)).
Proof.
  induction l as [|x l IH]; intros Hinj Hnd; simpl; [constructor|]. apply NoDup_cons in Hnd as [Hx Hnd]. unfold nz in *. rewrite filter_cons.
  assert (IH' : NoDup (filter (fun a => a <> 0) (map f l))) by (apply IH; [|done]; intros y z ? ?; apply Hinj; apply elem_of_cons; by right).
  case_decide as Hz; [|done]. constructor; [|done]. intros Hin. apply list_elem_of_filter in Hin as [_ Hin]. apply list_elem_of_fmap in Hin as (y & Ey & Hy).
  apply Hx. rewrite (Hinj x y); [done|apply elem_of_cons; by left|apply elem_of_cons; by right|done|done].
Qed.

Lemma NoDup_file_blocks c ad : file_ok B c ad -> NoDup (file_blocks c ad).
Proof.
  intros F. assert (Hm : forall lo n, 0 <= lo -> 0 <= n -> lo + n <= MAXFILE -> NoDup (nz (map (faddr c ad) (seqZ lo n)))).
  { intros lo n Hlo Hn Hmax. apply NoDup_nz_map; [|apply NoDup_seqZ]. intros x y Hx Hy Hz E. apply elem_of_seqZ in Hx. apply elem_of_seqZ in Hy.
    apply (f_inj _ _ _ F); (done || lia). }
  unfold file_blocks. apply NoDup_app. split; [apply Hm; consts; lia|]. split.
  - intros b Hb Hb'. apply elem_of_nz in Hb as [Hb Hin]. apply list_elem_of_fmap in Hin as (x & -> & Hx). apply elem_of_seqZ in Hx.
    apply elem_of_app in Hb' as [Hb'|Hb'].
    + apply elem_of_nz in Hb' as [_ Hin]. apply list_elem_of_fmap in Hin as (y & E & Hy). apply elem_of_seqZ in Hy.
      assert (x = y) by (apply (f_inj _ _ _ F); (done || (consts; lia))). lia.
    + apply elem_of_nz in Hb' as [_ Hin]. apply list_elem_of_singleton in Hin. eapply f_sep; [exact F| |exact Hb|done]. consts. lia.
  - apply NoDup_app. split; [apply Hm; consts; lia|]. split; [|unfold nz; apply NoDup_filter, NoDup_singleton].
    intros b Hb Hb'. apply elem_of_nz in Hb as [Hb Hin]. apply list_elem_of_fmap in Hin as (x & -> & Hx). apply elem_of_seqZ in Hx.
    apply elem_of_nz in Hb' as [_ Hin]. apply list_elem_of_singleton in Hin. eapply f_sep; [exact F| |exact Hb|done]. consts. lia.
Qed.

Lemma file_blocks_data c ad : file_ok B c ad -> Forall (data_block B) (file_blocks c ad).
Proof. intros F. apply Forall_forall. intros b Hb. apply elem_of_file_blocks in Hb. by eapply owned_data. Qed.

Lemma direct_map c ad : length ad = 13%nat -> ad = map (faddr c ad) (seqZ 0 NDIRECT) ++ [ind ad].
Proof.
  intros Hl. apply list_eq. intros j. destruct (decide (j < 12)%nat) as [Hj|Hj].
  - rewrite lookup_app_l by (rewrite length_map, length_seqZ; consts; lia). rewrite list_lookup_fmap, lookup_seqZ_lt by (consts; lia).
    simpl. unfold faddr. consts. rewrite (proj2 (Z.ltb_lt _ _)) by lia. rewrite (list_lookup_lookup_total_lt ad j) by lia. do 2 f_equal. lia.
  - rewrite lookup_app_r by (rewrite length_map, length_seqZ; consts; lia). rewrite length_map, length_seqZ. change (Z.to_nat NDIRECT) with 12%nat.
    destruct (decide (j = 12%nat)) as [->|].
    + rewrite (list_lookup_lookup_total_lt ad 12) by lia. done.
    + rewrite !lookup_ge_None_2 by (simpl; lia). done.
Qed.

Lemma indirect_map c ad : ind ad <> 0 -> get32s (Z.to_nat NINDIRECT) (c (ind ad)) 0 = map (faddr c ad) (seqZ NDIRECT NINDIRECT).
Proof.
  intros Hz. assert (H : forall n lo, 0 <= lo -> get32s n (c (ind ad)) (Z.to_nat (4 * lo)) = map (faddr c ad) (seqZ (NDIRECT + lo) (Z.of_nat n))).
  { induction n as [|n IH]; intros lo Hlo; [done|]. rewrite seqZ_cons by lia. cbn [get32s map]. f_equal.
    - unfold faddr. rewrite (proj2 (Z.ltb_ge _ _)), (proj2 (Z.eqb_neq _ _)) by (done || lia). do 2 f_equal. lia.
    - replace (Z.to_nat (4 * lo) + 4)%nat with (Z.to_nat (4 * (lo + 1))) by lia. rewrite IH by lia. f_equal. f_equal; lia. }
  exact (H (Z.to_nat NINDIRECT) 0 ltac:(lia)).
Qed.

(** The inode of an empty file. *)
Definition emptied (p : inode) : inode := set_size 0 (set_addrs (replicate 13 0) p).

Lemma free_list_app c l l' : free_list (free_list c l) l' = free_list c (l ++ l').
Proof. unfold free_list. by rewrite foldl_app. Qed.

Lemma free_list_still c l l' :
  (forall n, length (c n) = Z.to_nat BSIZE) -> Forall (data_block B) l -> (forall b, b ∈ l' -> b ∉ l) -> Forall (data_block B) l' ->
  (forall b, b ∈ l' -> used B c b = true) -> forall b, b ∈ l' -> used B (free_list c l) b = true.
Proof.
  intros Hl Hd Hn Hd' Hu b Hb. pose proof (data_BPB sz ls B HB b ltac:(by eapply Forall_forall in Hd')).
  rewrite free_list_used by done. rewrite bool_decide_eq_false_2 by (by apply Hn). by apply Hu.
Qed.

(** The part of itrunc for the indirect block. *)
Lemma itrunc_tail_spec bs0 i p c0 c s bs Q :
  w = true -> tx s c bs ∅ -> sb s = B -> (forall x, x ∈ bs -> x ∈ bs0 \/ x = BM) -> (length bs0 <= 25)%nat -> idev p = 1 ->
  icache s !! i = Some (set_addrs (replicate 12 0 ++ [ind (addrs p)]) p) -> ind (addrs p) <> 0 -> c (ind (addrs p)) = c0 (ind (addrs p)) ->
  let l := nz (map (faddr c0 (addrs p)) (seqZ NDIRECT NINDIRECT)) ++ [ind (addrs p)] in
  Forall (data_block B) l -> NoDup l -> (forall b, b ∈ l -> used B c b = true) ->
  (forall s' bs', tx s' (free_list c l) bs' ∅ -> sb s' = B -> (forall x, x ∈ bs' -> x ∈ bs0 \/ x = BM) ->
     icache s' = <[i := set_addrs (replicate 13 0) p]> (icache s) -> Q tt s') ->
  wp (let! q := get_inode i in
      let! bp := bread (idev q) (ind (addrs p)) in
      let! a := data bp in
      do! itrunc_indirect (idev q) (get32s (Z.to_nat NINDIRECT) a 0) in
      do! brelse bp in
      do! bfree (idev q) (ind (addrs p)) in
      put_addr i NDIRECT 0) Q s.
Proof.
  intros Hw T Hsb Hbs Hr Hdev Hi Hz Hc l Hd Hnd Hu HQ. set (a := ind (addrs p)) in *. set (l1 := nz _) in l.
  apply Forall_app in Hd as [Hd1 Hda]. rewrite Forall_singleton in Hda. apply NoDup_app in Hnd as (Hnd1 & Hsep & _).
  pose proof (within_map _ _ _ _ _ T Hbs). assert (Hhome : homeb sz ls a) by (apply (data_home sz ls B HB); exact Hda).
  rewrite wp_bind. eapply wp_get_inode; [exact Hi|]. cbn [idev set_addrs addrs]. rewrite Hdev.
  fold a. rewrite wp_bind.
  eapply (tx_bread sz Hsz d0 ws0 ls lsz pd w Hlsz); [exact T|done|apply Hhome|rewrite map_size_empty; unfold NBUF; lia|]. intros bp k1 T1.
  rewrite wp_bind. eapply tx_data; [exact T1|apply lookup_insert_eq|]. rewrite Hc. pose proof (indirect_map c0 (addrs p) Hz) as Hmap. fold a in Hmap. rewrite Hmap.
  rewrite wp_bind. eapply (itrunc_indirect_spec bs0 {[a := bp]}); [done| | |exact T1|done|done|exact Hd1|exact Hnd1| |].
  - rewrite lookup_singleton_ne; [done|]. unfold data_block in Hda. lia.
  - rewrite map_size_singleton. lia.
  - intros b Hb. apply Hu. apply elem_of_app. by left.
  - intros k2 bs2 T2 Hbs2. fold l1 in T2. pose proof (within_map _ _ _ _ _ T2 Hbs2).
    rewrite wp_bind. eapply tx_brelse; [exact T2|apply lookup_singleton_eq|]. intros k3 T3. rewrite delete_singleton_eq in T3.
    rewrite wp_bind. eapply (bfree_spec sz Hsz d0 ws0 ls lsz pd w Hlsz B HB Hw); [exact T3|done|done| |done|rewrite map_size_empty; lia|].
    + eapply (free_list_still c l1 [a]); [apply T|done| |by apply Forall_singleton| |by apply list_elem_of_singleton].
      * intros b Hb Hb'. by apply (Hsep b Hb').
      * intros b Hb. apply Hu, elem_of_app. by right.
    + intros k4 T4. unfold put_addr. eapply wp_upd_inode; [exact Hi|]. eapply HQ; [apply tx_set_icache| | |]; [|done| |done].
      * unfold l. rewrite <- free_list_app. exact T4.
      * intros x Hx. apply elem_of_logs in Hx as [?| ->]; [by apply Hbs2|by right].
Qed.

Lemma itrunc_spec s c bs i p Q :
  w = true -> tx s c bs ∅ -> sb s = B -> icache s !! i = Some p -> idev p = 1 -> 0 <= inum p < ninodes B -> file_ok B c (addrs p) -> (length bs <= 25)%nat ->
  (forall s' bs', tx s' (store_inode B (free_list c (file_blocks c (addrs p))) (emptied p)) bs' ∅ -> sb s' = B ->
     icache s' = <[i := emptied p]> (icache s) -> (forall x, x ∈ bs' -> x ∈ bs \/ x = BM \/ x = IBLOCK (inum p) B) -> Q tt s') ->
  wp (itrunc i) Q s.
Proof.
  intros Hw T Hsb Hi Hdev Hn F Hr HQ. set (ad := addrs p) in *. assert (Hlt : (i < length (icache s))%nat) by (by eapply lookup_lt_Some).
  pose proof (file_blocks_data _ _ F) as Hd. pose proof (NoDup_file_blocks _ _ F) as Hnd.
  assert (Hu : forall b, b ∈ file_blocks c ad -> used B c b = true) by (intros b Hb; apply elem_of_file_blocks in Hb; by eapply owned_data).
  pose proof (direct_map c ad (f_len _ _ _ F)) as Had. set (l0 := map (faddr c ad) (seqZ 0 NDIRECT)) in *.
  assert (Hl0 : length l0 = 12%nat) by (unfold l0; rewrite length_map, length_seqZ; done).
  pose proof Hd as Hd'. unfold file_blocks in Hd', Hnd. fold l0 in Hd', Hnd. apply Forall_app in Hd' as [Hd0 Hd1]. apply NoDup_app in Hnd as (Hnd0 & Hsep & Hnd1).
  assert (Hfin : forall s1 bs1, tx s1 (free_list c (file_blocks c ad)) bs1 ∅ -> sb s1 = B -> (forall x, x ∈ bs1 -> x ∈ bs \/ x = BM) ->
    icache s1 = <[i := set_addrs (replicate 13 0) p]> (icache s) -> wp (do! upd_inode i (set_size 0) in iupdate i) Q s1).
  { intros s1 bs1 T1 Hsb1 Hbs1 Hic1. pose proof (within_map _ _ _ _ _ T1 Hbs1). rewrite wp_bind.
    eapply wp_upd_inode; [rewrite Hic1; by apply list_lookup_insert_eq|]. rewrite Hic1, list_insert_insert_eq. fold (emptied p).
    eapply (iupdate_spec sz Hsz d0 ws0 ls lsz pd w Hlsz B HB); [done|apply tx_set_icache, T1|done|simpl; by apply list_lookup_insert_eq|done|done|done|rewrite map_size_empty; lia|].
    intros k T2. apply (HQ _ _ T2); [done|done|]. intros x Hx. apply elem_of_logs in Hx as [Hx| ->]; [|by right; right]. destruct (Hbs1 x Hx); tauto. }
  unfold itrunc. rewrite wp_bind. change (Z.to_nat NDIRECT) with 12%nat. rewrite <- Hl0. change 0 with (Z.of_nat (length (@nil Z))) at 1.
  eapply (itrunc_direct_spec bs i p [ind ad] Hw Hdev eq_refl ltac:(lia) l0 []); [exact T|done|by left|done| |done|done| |].
  { rewrite app_nil_l. rewrite <- Had. unfold ad. by rewrite set_addrs_same. }
  { intros b Hb. apply Hu. unfold file_blocks. apply elem_of_app. by left. }
  rewrite Hl0. intros s1 bs1 T1 Hsb1 Hbs1 Hic1. simpl app in Hic1.
  assert (Hi1 : icache s1 !! i = Some (set_addrs (replicate 12 0 ++ [ind ad]) p)) by (rewrite Hic1; by apply list_lookup_insert_eq).
  rewrite wp_bind. eapply wp_get_addr; [exact Hi1|done|consts; lia|]. change (addrs _ !!! Z.to_nat NDIRECT) with (ind ad). rewrite wp_bind.
  destruct (Z.eqb_spec (ind ad) 0) as [Hz|Hz].
  - rewrite wp_ret. eapply Hfin; [|done|exact Hbs1|by rewrite Hic1, Hz].
    assert (E : file_blocks c ad = nz l0); [|by rewrite E]. unfold file_blocks. fold l0. rewrite (nz_zero (map _ _)), (nz_zero [_]).
    + apply app_nil_r.
    + by rewrite Hz, Forall_singleton.
    + apply Forall_map, Forall_forall. intros bn Hbn. apply elem_of_seqZ in Hbn. unfold faddr. rewrite Hz, (proj2 (Z.ltb_ge _ _)) by lia. done.
  - assert (Enz : nz [ind ad] = [ind ad]) by (unfold nz; rewrite filter_cons, decide_True by done; done).
    rewrite Enz in Hd1, Hnd1, Hsep. assert (Efb : file_blocks c ad = nz l0 ++ nz (map (faddr c ad) (seqZ NDIRECT NINDIRECT)) ++ [ind ad]) by (unfold file_blocks; by rewrite Enz).
    eapply (itrunc_tail_spec bs i p c); [done|exact T1|done|exact Hbs1|lia|done|exact Hi1|exact Hz| |exact Hd1|exact Hnd1| |].
    + apply free_list_other. destruct (f_ind _ _ _ F Hz) as [[? ?] _]. fold ad. lia.
    + eapply free_list_still; [apply T|exact Hd0| |exact Hd1|]; [intros b Hb Hb'; by apply (Hsep b Hb')|].
      intros b Hb. apply Hu. rewrite Efb. apply elem_of_app. by right.
    + intros s2 bs2 T2 Hsb2 Hbs2 Hic2. eapply Hfin; [|done|exact Hbs2|by rewrite Hic2, Hic1, list_insert_insert_eq].
      rewrite Efb, <- free_list_app. exact T2.
Qed.

Lemma logs_length s c bs bs' n hs :
  tx s c bs' hs -> (forall x, x ∈ bs' -> x ∈ bs \/ x = BM \/ x = n) -> (length bs' <= length bs + 2)%nat.
Proof.
  intros T H. assert (Hs : bs' ⊆+ BM :: n :: bs).
  { apply NoDup_submseteq; [apply T|]. intros x Hx. rewrite !elem_of_cons. destruct (H x Hx) as [?|[?|?]]; tauto. }
  apply submseteq_length in Hs. simpl in Hs. lia.
Qed.

(** The blocks after the file of [p] was freed. *)
Definition freed (c : Z -> list Z) (p : inode) : Z -> list Z :=
  let c1 := store_inode B (free_list c (file_blocks c (addrs p))) (emptied p) in store_inode B c1 (set_type 0 (emptied p)).

(** The cache entry after the last iput. *)
Definition released (p : inode) : inode := set_ref 0 (set_lk free_lk (set_valid false (set_type 0 (emptied p)))).

Lemma iput_last_spec s c bs i p :
  w = true -> tx s c bs ∅ -> sb s = B -> icache s !! i = Some p -> ilk p = free_lk -> valid p = true -> nlink p = 0 -> iref p = 1 ->
  idev p = 1 -> 0 <= inum p < ninodes B -> file_ok B c (addrs p) -> (length bs <= 23)%nat ->
  wp (iput i) (fun _ s' => exists bs', tx s' (freed c p) bs' ∅ /\ sb s' = B /\ icache s' = <[i := released p]> (icache s) /\
    (length bs' <= length bs + 2)%nat) s.
Proof.
  intros Hw T Hsb Hi Hlk Hv Hnl Href Hdev Hn F Hr. assert (Hlt : (i < length (icache s))%nat) by (by eapply lookup_lt_Some).
  unfold iput. rewrite wp_bind. unfold acquiresleep. rewrite wp_bind. eapply wp_get_inode; [exact Hi|]. rewrite Hlk. cbn [locked free_lk].
  rewrite wp_bind, wp_get. eapply wp_upd_inode; [exact Hi|]. set (p1 := set_lk _ p). set (s1 := set_icache _ s).
  assert (Hi1 : icache s1 !! i = Some p1) by (simpl; by apply list_lookup_insert_eq).
  rewrite wp_bind. eapply wp_get_inode; [exact Hi1|]. change (valid p1) with (valid p). change (nlink p1) with (nlink p). change (iref p1) with (iref p).
  rewrite Hv, Hnl, Href. cbn [Z.eqb andb Pos.eqb]. rewrite wp_bind, wp_bind.
  eapply (itrunc_spec s1 c bs i p1); [done|apply tx_set_icache, T|done|exact Hi1|done|done|done|lia|]. intros s2 bs2 T2 Hsb2 Hic2 Hbs2.
  pose proof (logs_length _ _ _ _ _ _ T2 Hbs2) as Hl2. simpl in Hic2. rewrite list_insert_insert_eq in Hic2.
  rewrite wp_bind. eapply wp_upd_inode; [rewrite Hic2; by apply list_lookup_insert_eq|]. rewrite Hic2, list_insert_insert_eq.
  rewrite wp_bind. eapply (iupdate_spec sz Hsz d0 ws0 ls lsz pd w Hlsz B HB);
    [done|apply tx_set_icache, T2|done|simpl; by apply list_lookup_insert_eq|done|done|done|rewrite map_size_empty; lia|].
  intros k3 T3. eapply wp_upd_inode; [simpl; by apply list_lookup_insert_eq|]. simpl icache. rewrite list_insert_insert_eq.
  rewrite wp_bind. unfold releasesleep. eapply wp_upd_inode; [simpl; by apply list_lookup_insert_eq|]. simpl icache. rewrite list_insert_insert_eq.
  rewrite wp_bind. eapply wp_get_inode; [simpl; by apply list_lookup_insert_eq|]. simpl iref. rewrite Href.
  rewrite wp_bind, wp_chk_int. split; [done|]. eapply wp_upd_inode; [simpl; by apply list_lookup_insert_eq|]. simpl icache. rewrite list_insert_insert_eq.
  exists (logs bs2 (IBLOCK (inum p) B)). split; [|split; [done|split; [done|]]].
  - do 3 apply tx_set_icache. exact T3.
  - assert (T4 : tx (set_kern k3 (set_icache (<[i:=set_type 0 (emptied p1)]> (icache s)) s2)) (freed c p) (logs bs2 (IBLOCK (inum p) B)) ∅) by exact T3.
    eapply logs_length; [exact T4|]. intros x Hx. apply elem_of_logs in Hx as [Hx| ->]; [by apply Hbs2|by right; right].
Qed.

(** What is left of the file: nothing. *)
Lemma freed_facts c p :
  (forall n, length (c n) = Z.to_nat BSIZE) -> map_ok B c -> file_ok B c (addrs p) -> fits p -> 0 <= inum p < ninodes B ->
  map_ok B (freed c p) /\
  (forall b, 0 <= b < BPB -> used B (freed c p) b = true <-> used B c b = true /\ ~ owned c (addrs p) b) /\
  (forall b, b <> BM -> b <> IBLOCK (inum p) B -> freed c p b = c b) /\
  (forall j, (j < dinode_off (inum p) \/ dinode_off (inum p) + 64 <= j)%nat -> freed c p (IBLOCK (inum p) B) !!! j = c (IBLOCK (inum p) B) !!! j) /\
  disk_inode B (freed c p) (inum p) = disk_part (set_type 0 (emptied p)) blank.
Proof.
  intros Hl Hm F Hf Hn. destruct (inode_home sz ls B HB _ Hn) as [_ Hib]. pose proof (file_blocks_data _ _ F) as Hd.
  set (c1 := free_list c (file_blocks c (addrs p))). assert (HBM : freed c p BM = c1 BM) by (unfold freed, store_inode; simpl; rewrite !set_block_ne by lia; done).
  assert (Hfi : fits (set_type 0 (emptied p))).
  { destruct Hf as (H1 & H2 & H3 & H4 & H5 & H6 & H7). unfold fits, UINT_MAX in *. simpl. repeat (split; [lia|]). repeat (constructor; [lia|]). constructor. }
  assert (Hlib : length (c1 (IBLOCK (inum p) B)) = Z.to_nat BSIZE) by (unfold c1; rewrite free_list_other by lia; apply Hl).
  split; [|split; [|split; [|split]]].
  - intros b Hb. unfold used. rewrite HBM. by apply free_list_map.
  - intros b Hb. unfold used at 1. rewrite HBM. fold (used B c1 b). unfold c1. rewrite free_list_used by done.
    rewrite andb_true_iff, negb_true_iff, bool_decide_eq_false, elem_of_file_blocks. tauto.
  - intros b Hb Hi. unfold freed, store_inode. simpl. rewrite !set_block_ne by done. by apply free_list_other.
  - intros j Hj. unfold freed, store_inode. cbn [inum set_type emptied set_size set_addrs]. rewrite !set_block_eq, !put_dinode_other by done.
    by rewrite free_list_other by lia.
  - unfold disk_inode, freed. set (c2 := store_inode B c1 (emptied p)). unfold store_inode at 1. cbn [inum set_type emptied set_size set_addrs].
    rewrite set_block_eq, get_put_dinode; [done| |done]. assert (Hl2 : length (c2 (IBLOCK (inum p) B)) = Z.to_nat BSIZE).
    { unfold c2, store_inode. change (inum (emptied p)) with (inum p). rewrite set_block_eq, length_put_dinode. exact Hlib. }
    fold c1 c2. rewrite Hl2. apply dinode_room.
Qed.
End trunc.

(** C12. Dropping the last reference to a file without links frees it, and
    atomically so.  Between system calls, for an inode in memory with one
    reference and no links, a transaction with iput succeeds; afterwards the
    cache entry is free, the disk's inode has type zero, exactly the blocks of
    the file have become free, every other block except the one of the inode is
    untouched, and in that one every other inode.  Two blocks are logged.  If the
    machine stops after any number [j] of the block writes, then after recovery,
    itself cut short any number of times, all blocks outside the log are either
    as before or as after the call. *)
Theorem iput_frees_file pid B sz s d ws l i p :
  sz <= 2 ^ 31 -> quiet B sz s d ws l ->
  icache s !! i = Some p -> iref p = 1 -> nlink p = 0 -> ilk p = free_lk -> valid p = true ->
  idev p = 1 -> 0 <= inum p < ninodes B -> fits p -> file_ok B (dk d) (addrs p) ->
  exists s' l' W n c', in_tx (iput i) s = Ok (tt, s') /\ quiet B sz s' (apply_writes d W) (ws ++ W) l' /\
    icache s' = <[i := released p]> (icache s) /\ (n <= 2)%nat /\
    type (disk_inode B c' (inum p)) = 0 /\
    (forall b, 0 <= b < BPB -> used B c' b = true <-> used B (dk d) b = true /\ ~ owned (dk d) (addrs p) b) /\
    (forall b, b <> bmapstart B -> b <> IBLOCK (inum p) B -> c' b = dk d b) /\
    (forall j, (j < dinode_off (inum p) \/ dinode_off (inum p) + 64 <= j)%nat -> c' (IBLOCK (inum p) B) !!! j = dk d (IBLOCK (inum p) B) !!! j) /\
    forall j, (exists kr, recover sz pid (apply_writes d (take j W)) = Ok (tt, kr)) /\
      forall d', recovers sz pid (apply_writes d (take j W)) d' -> forall b, outside (start l) b ->
        dk d' b = if (j <=? n)%nat then dk d b else c' b.
Proof.
  intros Hsz Q Hi Hr Hnl Hlk Hv Hdev Hn Hf F. pose proof Q as [Q1 Q2 Q3 Q4 Q5 Q6 Q7 Q8 Q9]. pose proof (map_pos sz (start l) B Q2).
  destruct (freed_facts sz (start l) B Q2 (dk d) p Q4 Q9 F Hf Hn) as (F1 & F2 & F3 & F4 & F5).
  destruct (in_tx_spec sz pid Hsz (iput i) s d ws l (fun _ s' c' bs' => c' = freed B (dk d) p /\ sb s' = B /\ icache s' = <[i := released p]> (icache s) /\ (length bs' <= 2)%nat) Q1 Q4 Q5 Q6 Q8)
    as (a & s1 & k & l' & c' & bs' & E & (-> & Hsb & Hic & Hn2) & Hlc & Hi' & Hst & Hsi & Hcl & Hca).
  - intros k T. eapply wp_mono; [eapply (iput_last_spec sz Hsz d ws (start l) (size l) _ true Q7 B Q2); [done|exact T|done|exact Hi|done..|simpl; lia]|].
    intros [] s' (bs' & T' & Hsb' & Hic' & Hb'). simpl in Hb'. exists (freed B (dk d) p), bs'. split; [exact T'|]. split; [lia|]. done.
  - destruct a. assert (H1 : freed B (dk d) p 1 = dk d 1).
    { apply F3; [|unfold IBLOCK; pose proof (Z.div_pos (inum p) IPB ltac:(lia) ltac:(done))]; destruct (layout_order B sz _ Q2) as (L1 & L2 & L3); unfold LOGSIZE, MAXOPBLOCKS in *; lia. }
    destruct (quiet_commit B sz s d ws l s1 k l' _ bs' Q Hsb Hi' Hst Hsi Hcl Hlc H1 F1) as [Q' _].
    exists (set_kern k s1), l', (tx_writes (freed B (dk d) p) (start l) bs'), (length bs'), (freed B (dk d) p).
    split; [exact E|]. split; [exact Q'|]. split; [exact Hic|]. split; [done|]. split; [by rewrite F5|]. split; [done|]. split; [done|]. split; [done|]. exact Hca.
Qed.

(** ** Witnesses *)

(** The file of the disk image after its last link was removed. *)
Definition demo_gone : inode := set_nlink 0 demo_inode.
Definition demo_gone_fs : fs := mk_fs (kern demo_fs) [demo_gone] demo_sb.

Lemma demo_gone_quiet : quiet demo_sb 1000 demo_gone_fs demo_blocks [] demo_log.
Proof. destruct demo_quiet as [Q1 Q2 Q3 Q4 Q5 Q6 Q7 Q8 Q9]. by split. Qed.

Lemma iput_frees_file_witness :
  exists s' l' W n c', in_tx (iput 0) demo_gone_fs = Ok (tt, s') /\ quiet demo_sb 1000 s' (apply_writes demo_blocks W) ([] ++ W) l' /\
    icache s' = <[0%nat := released demo_gone]> [demo_gone] /\ (n <= 2)%nat /\
    type (disk_inode demo_sb c' 2) = 0 /\
    (forall b, 0 <= b < BPB -> used demo_sb c' b = true <-> used demo_sb (dk demo_blocks) b = true /\ ~ owned (dk demo_blocks) (addrs demo_gone) b) /\
    (forall b, b <> bmapstart demo_sb -> b <> IBLOCK 2 demo_sb -> c' b = dk demo_blocks b) /\
    (forall j, (j < dinode_off 2 \/ dinode_off 2 + 64 <= j)%nat -> c' (IBLOCK 2 demo_sb) !!! j = dk demo_blocks (IBLOCK 2 demo_sb) !!! j) /\
    forall j, (exists kr, recover 1000 1 (apply_writes demo_blocks (take j W)) = Ok (tt, kr)) /\
      forall d', recovers 1000 1 (apply_writes demo_blocks (take j W)) d' -> forall b, outside (start demo_log) b ->
        dk d' b = if (j <=? n)%nat then dk demo_blocks b else c' b.
Proof.
  apply (iput_frees_file 1 demo_sb 1000 demo_gone_fs demo_blocks [] demo_log 0 demo_gone).
  - lia.
  - exact demo_gone_quiet.
  - reflexivity.
  - reflexivity.
  - reflexivity.
  - reflexivity.
  - reflexivity.
  - reflexivity.
  - simpl. lia.
  - destruct demo_open as [_ _ _ _ _ (H1 & H2 & H3 & H4 & H5) _]. unfold fits. simpl. repeat (split; [assumption || lia|]). exact H5.
  - destruct demo_open as [_ _ _ _ [_ _ _ _ F _] _ _]. exact F.
Defined.
End FsTrunc.
