(* ===== verification/FsDir.v ===== *)
(** * FsDir: directories and path names of xv6

    A directory is the list of its entries; dirlookup and dirlink as operations
    on that list, and on the partial map from names to inodes it stands for.
    Then the elements of a path. *)
From stdpp Require Import base list gmap strings.
From Stdlib Require Import ZArith Lia.
From S2P Require Import Prelude Bio Log Fs FsTx FsFile FsAtomic.
Import Bio Log Fs FsTx FsFile FsAtomic.

Module FsDir.

(** ** Names *)

(** A name as a path element holds it. *)
Definition is_name (s : list Z) : Prop := Forall (fun ch => ch <> 0) s.

Lemma strncpy_nil n : strncpy n [] = replicate n 0.
Proof. induction n as [|n IH]; simpl; [done|]. by rewrite IH. Qed.

Lemma length_strncpy n : forall s, length (strncpy n s) = n.
Proof. induction n as [|n IH]; intros [|a s]; simpl; rewrite ?IH; done. Qed.

(** Two names are the same to a directory when their first [n] characters are. *)
Lemma strncmp_strncpy n : forall s t, is_name s -> is_name t -> strncmp n s (strncpy n t) = 0 <-> take n s = take n t.
Proof.
  induction n as [|n IH]; intros s t Hs Ht; [done|].
  destruct s as [|a s], t as [|b t]; cbn [strncmp strncpy hd tl take]; try apply Forall_cons in Hs as [Ha Hs]; try apply Forall_cons in Ht as [Hb Ht].
  - done.
  - cbn. split; [lia|done].
  - rewrite (proj2 (Z.eqb_neq a 0)) by done. cbn [negb andb]. split; [lia|done].
  - rewrite (proj2 (Z.eqb_neq a 0)) by done. cbn [negb andb]. destruct (Z.eqb_spec a b) as [->|Hne].
    + rewrite IH by done. split; [by intros ->|by intros [=]].
    + split; [lia|]. intros [=]. done.
Qed.

(** ** Entries *)

Fixpoint chunks (n : nat) (l : list Z) : list (list Z) :=
  match n with
  | O => []
  | S n => take 16 l :: chunks n (drop 16 l)
  end.
Definition entries (l : list Z) : list (list Z) := chunks (length l / 16) l.

(** The first entry with the name: its inode and offset. *)
Fixpoint find_entry (name : list Z) (es : list (list Z)) (off : Z) : option (Z * Z) :=
  match es with
  | [] => None
  | e :: es => if de_inum e =? 0 then find_entry name es (off + 16)
               else if namecmp name (de_name e) =? 0 then Some (de_inum e, off) else find_entry name es (off + 16)
  end.

(** The first free slot, or the end. *)
Fixpoint find_slot (es : list (list Z)) (off : Z) : Z :=
  match es with
  | [] => off
  | e :: es => if de_inum e =? 0 then off else find_slot es (off + 16)
  end.

(** The directory as a map. *)
Definition dir_lookup (l : list Z) (name : list Z) : option Z := fst <$> find_entry name (entries l) 0.

Lemma length_chunks n : forall l, length (chunks n l) = n.
Proof. induction n as [|n IH]; intros l; simpl; [done|]. by rewrite IH. Qed.

Lemma chunks_lookup n : forall l k, (k < n)%nat -> chunks n l !! k = Some (take 16 (drop (16 * k) l)).
Proof.
  induction n as [|n IH]; intros l k Hk; [lia|]. destruct k as [|k]; [done|]. cbn [chunks]. change ((take 16 l :: chunks n (drop 16 l)) !! S k) with (chunks n (drop 16 l) !! k).
  rewrite IH by lia. rewrite drop_drop. do 3 f_equal. lia.
Qed.

Section dirs.
Context (sz : Z) (Hsz : sz <= 2 ^ 31) (d0 : gmap Z (list Z)) (ws0 : list (Z * list Z)) (ls lsz pd : Z) (w : bool) (Hlsz : LOGSIZE <= lsz).
Context (B : superblock) (HB : layout sz ls B).
Context (dev_read : Z -> option (nat -> Z -> M fs (Z * list Z))) (dev_write : Z -> option (nat -> list Z -> M fs Z)).
Notation tx := (FsTx.tx sz d0 ws0 ls lsz pd w).

(** A directory whose size is a number of entries. *)
Record dir_ok (c : Z -> list Z) (p : inode) : Prop := {
  dir_inode : inode_ok B c p;
  dir_type : type p = T_DIR;
  dir_size : isize p mod 16 = 0
}.

Lemma length_contents c p : inode_ok B c p -> length (contents c p) = Z.to_nat (isize p).
Proof. intros I. unfold contents. apply length_fbytes. Qed.

(** readi of one entry. *)
Lemma read_entry_spec {A} (f : Z * list Z -> M fs A) s c bs dp p off Q :
  tx s c bs ∅ -> sb s = B -> map_ok B c -> icache s !! dp = Some p -> dir_ok c p -> (length bs <= 24)%nat -> 0 <= off -> off + 16 <= isize p ->
  (forall s', tx s' c bs ∅ -> sb s' = B -> icache s' = icache s -> wp (f (16, take 16 (drop (Z.to_nat off) (contents c p)))) Q s') ->
  wp (let! r := readi dev_read dp off sizeof_dirent in f r) Q s.
Proof.
  intros T Hsb Hm Hi [I Ht Hs] Hr Ho Ho' HQ. pose proof (ip_size _ _ _ I) as Hsize. change sizeof_dirent with 16. consts.
  rewrite wp_bind. eapply wp_mono; [eapply (readi_spec sz Hsz d0 ws0 ls lsz pd w Hlsz B HB dev_read s c bs dp p off 16); try done; unfold UINT_MAX; lia|].
  cbv beta. intros r s' (-> & T' & Hsb' & Hic'). destruct (Z.ltb_spec (isize p) off); [lia|]. destruct (Z.ltb_spec UINT_MAX (off + 16)); [unfold UINT_MAX in *; lia|].
  cbn [orb]. cbv zeta. change (Z.to_nat 16) with 16%nat. rewrite length_take, length_drop, (length_contents c p I).
  replace (Z.of_nat (16 `min` (Z.to_nat (isize p) - Z.to_nat off))) with 16 by lia. by apply HQ.
Qed.

(** The entries from offset [off] on. *)
Lemma chunks_step c p off n : 0 <= off -> chunks (S n) (drop (Z.to_nat off) (contents c p)) =
  take 16 (drop (Z.to_nat off) (contents c p)) :: chunks n (drop (Z.to_nat (off + 16)) (contents c p)).
Proof. intros. cbn [chunks]. rewrite drop_drop. do 3 f_equal. lia. Qed.

Lemma dirlookup_loop_spec c bs dp p name n : forall fuel s off Q,
  tx s c bs ∅ -> sb s = B -> map_ok B c -> icache s !! dp = Some p -> dir_ok c p -> (length bs <= 24)%nat ->
  0 <= off -> off + 16 * Z.of_nat n = isize p -> (n < fuel)%nat ->
  (forall s', tx s' c bs ∅ -> sb s' = B -> icache s' = icache s ->
     match find_entry name (chunks n (drop (Z.to_nat off) (contents c p))) off with
     | None => Q None s'
     | Some (m, o) => wp (iget 1 m) (fun ip s'' => Q (Some (ip, o)) s'') s'
     end) ->
  wp (dirlookup_loop dev_read fuel dp name off) Q s.
Proof.
  induction n as [|n IH]; intros [|fuel] s off Q T Hsb Hm Hi Hd Hr Ho Hn Hf HQ; try lia; cbn [dirlookup_loop]; rewrite wp_bind; (eapply wp_get_inode; [exact Hi|]).
  - rewrite (proj2 (Z.ltb_ge _ _)) by lia. rewrite wp_ret. by apply HQ.
  - pose proof (ip_size _ _ _ (dir_inode _ _ Hd)) as Hsize. rewrite (proj2 (Z.ltb_lt _ _)) by lia.
    eapply read_entry_spec; [exact T|done|done|exact Hi|done|done|done|lia|]. intros s' T' Hsb' Hic'. change (16 =? sizeof_dirent) with true. cbn [negb].
    rewrite chunks_step in HQ by done. cbn [find_entry] in HQ. set (e := take 16 _) in *.
    assert (Hnext : wp (dirlookup_loop dev_read fuel dp name (u32 (off + sizeof_dirent))) Q s' \/ de_inum e <> 0 /\ namecmp name (de_name e) = 0).
    { destruct (Z.eqb_spec (de_inum e) 0) as [Hz|Hz]; [left|destruct (Z.eqb_spec (namecmp name (de_name e)) 0); [by right|left]];
        change sizeof_dirent with 16; rewrite u32_small by (unfold UINT_MAX; consts; lia);
        (eapply IH; [exact T'|done|done|by rewrite Hic'|done|done|lia|lia|lia|]; intros s'' T'' Hsb'' Hic''; apply HQ; [done|done|congruence]). }
    destruct (Z.eqb_spec (de_inum e) 0) as [Hz|Hz]; [by destruct Hnext as [|[? _]]|].
    destruct (Z.eqb_spec (namecmp name (de_name e)) 0) as [Hc|Hc]; [|by destruct Hnext as [|[_ ?]]].
    rewrite wp_bind, (ip_dev _ _ _ (dir_inode _ _ Hd)). eapply wp_mono; [exact (HQ s' T' Hsb' Hic')|]. intros ip s'' H. by rewrite wp_ret.
Qed.

Lemma entries_all c p : dir_ok c p -> (length (contents c p) / 16)%nat = Z.to_nat (isize p / 16) /\ isize p = 16 * (isize p / 16) /\ 0 <= isize p / 16.
Proof.
  intros [I _ Hs]. pose proof (ip_size _ _ _ I). rewrite (length_contents c p I). pose proof (Z.div_mod (isize p) 16 ltac:(lia)).
  split; [|split; [lia|apply Z.div_pos; lia]]. apply Nat2Z.inj. rewrite Nat2Z.inj_div. rewrite !Z2Nat.id; [done|apply Z.div_pos; lia|lia].
Qed.

Lemma dirlookup_spec c bs dp p name s Q :
  tx s c bs ∅ -> sb s = B -> map_ok B c -> icache s !! dp = Some p -> dir_ok c p -> (length bs <= 24)%nat ->
  (forall s', tx s' c bs ∅ -> sb s' = B -> icache s' = icache s ->
     match find_entry name (entries (contents c p)) 0 with
     | None => Q None s'
     | Some (m, o) => wp (iget 1 m) (fun ip s'' => Q (Some (ip, o)) s'') s'
     end) ->
  wp (dirlookup dev_read dp name) Q s.
Proof.
  intros T Hsb Hm Hi Hd Hr HQ. destruct (entries_all c p Hd) as (En & Es & Hpos). unfold dirlookup. rewrite wp_bind. eapply wp_get_inode; [exact Hi|].
  rewrite (dir_type _ _ Hd). change (T_DIR =? T_DIR) with true. cbn [negb].
  eapply (dirlookup_loop_spec c bs dp p name (Z.to_nat (isize p / 16))); [exact T|done|done|exact Hi|done|done|lia|lia|lia|].
  intros s' T' Hsb' Hic'. specialize (HQ s' T' Hsb' Hic'). unfold entries in HQ. rewrite En in HQ. exact HQ.
Qed.

Lemma dirlink_loop_spec c bs dp p n : forall fuel s off Q,
  tx s c bs ∅ -> sb s = B -> map_ok B c -> icache s !! dp = Some p -> dir_ok c p -> (length bs <= 24)%nat ->
  0 <= off -> off + 16 * Z.of_nat n = isize p -> (n < fuel)%nat ->
  (forall s', tx s' c bs ∅ -> sb s' = B -> icache s' = icache s -> Q (find_slot (chunks n (drop (Z.to_nat off) (contents c p))) off) s') ->
  wp (dirlink_loop dev_read fuel dp off) Q s.
Proof.
  induction n as [|n IH]; intros [|fuel] s off Q T Hsb Hm Hi Hd Hr Ho Hn Hf HQ; try lia; cbn [dirlink_loop]; rewrite wp_bind; (eapply wp_get_inode; [exact Hi|]).
  - rewrite (proj2 (Z.ltb_ge _ _)) by lia. rewrite wp_ret. by apply HQ.
  - pose proof (ip_size _ _ _ (dir_inode _ _ Hd)) as Hsize. rewrite (proj2 (Z.ltb_lt _ _)) by lia.
    eapply read_entry_spec; [exact T|done|done|exact Hi|done|done|done|lia|]. intros s' T' Hsb' Hic'. change (16 =? sizeof_dirent) with true. cbn [negb].
    rewrite chunks_step in HQ by done. cbn [find_slot] in HQ. set (e := take 16 _) in *.
    destruct (Z.eqb_spec (de_inum e) 0) as [Hz|Hz]; [rewrite wp_ret; by apply HQ|].
    change sizeof_dirent with 16. rewrite wp_bind, wp_chk_int. split; [apply int_range_spec; unfold INT_MIN, INT_MAX; consts; lia|].
    eapply IH; [exact T'|done|done|by rewrite Hic'|done|done|lia|lia|lia|]. intros s'' T'' Hsb'' Hic''. apply HQ; [done|done|congruence].
Qed.
End dirs.

(** ** Adding an entry *)

Lemma splice_lookup (l : list Z) j (e : list Z) m :
  (j + length e <= length l \/ j = length l)%nat ->
  splice (Z.of_nat j) e l !! m = if decide (j <= m < j + length e)%nat then e !! (m - j)%nat else l !! m.
Proof.
  intros Hj. unfold splice. rewrite Nat2Z.id. case_decide as Hm.
  - rewrite lookup_app_r by (rewrite length_take; lia). rewrite length_take, lookup_app_l by lia. by replace (j `min` length l)%nat with j by lia.
  - destruct (decide (m < j)%nat).
    + rewrite lookup_app_l by (rewrite length_take; lia). by rewrite lookup_take_lt.
    + rewrite lookup_app_r, length_take by (rewrite length_take; lia). rewrite lookup_app_r by lia. rewrite lookup_drop. f_equal. lia.
Qed.

Lemma length_splice l j e : (j + length e <= length l \/ j = length l)%nat -> length (splice (Z.of_nat j) e l) = Nat.max (length l) (j + length e).
Proof. intros. unfold splice. rewrite Nat2Z.id, !length_app, length_take, length_drop. lia. Qed.

Lemma chunk_eq (l l' : list Z) i : (forall m, (m < 16)%nat -> l' !! (16 * i + m)%nat = l !! (16 * i + m)%nat) -> take 16 (drop (16 * i) l') = take 16 (drop (16 * i) l).
Proof.
  intros H. apply list_eq. intros m. destruct (decide (m < 16)%nat).
  - rewrite !lookup_take_lt, !lookup_drop by done. by apply H.
  - by rewrite !lookup_take_ge by lia.
Qed.

Lemma entries_splice k l j e :
  length l = (16 * k)%nat -> (j <= k)%nat -> length e = 16%nat ->
  entries (splice (Z.of_nat (16 * j)) e l) = if decide (j < k)%nat then <[j := e]> (entries l) else entries l ++ [e].
Proof.
  intros Hl Hj He. assert (Hpos : (16 * j + length e <= length l \/ 16 * j = length l)%nat) by lia.
  assert (Hk : (length l / 16)%nat = k) by (rewrite Hl, Nat.mul_comm; apply Nat.div_mul; lia).
  assert (Hk' : (length (splice (Z.of_nat (16 * j)) e l) / 16)%nat = Nat.max k (S j)).
  { rewrite length_splice by done. rewrite Hl, He. replace (Nat.max (16 * k) (16 * j + 16)) with (Nat.max k (S j) * 16)%nat by lia. apply Nat.div_mul. lia. }
  apply list_eq. intros i. unfold entries at 1. rewrite Hk'. destruct (decide (i < Nat.max k (S j))%nat) as [Hi|Hi].
  - rewrite chunks_lookup by done. destruct (decide (i = j)) as [->|Hne].
    + transitivity (Some e).
      * f_equal. apply list_eq. intros m. destruct (decide (m < 16)%nat).
        -- rewrite lookup_take_lt, lookup_drop by done. rewrite splice_lookup by done. rewrite decide_True by lia. f_equal. lia.
        -- rewrite lookup_take_ge, lookup_ge_None_2 by lia. done.
      * symmetry. case_decide; [apply list_lookup_insert_eq; unfold entries; rewrite length_chunks; lia|].
        rewrite lookup_app_r by (unfold entries; rewrite length_chunks; lia). unfold entries. rewrite length_chunks, Hk. by replace (j - k)%nat with 0%nat by lia.
    + rewrite (chunk_eq l) by (intros m Hm; rewrite splice_lookup by done; rewrite decide_False by lia; done).
      assert (Hik : (i < k)%nat) by lia. rewrite <- (chunks_lookup k l i Hik). replace (chunks k l) with (entries l) by (unfold entries; by rewrite Hk).
      case_decide; [by rewrite list_lookup_insert_ne|]. rewrite lookup_app_l; [done|]. unfold entries. rewrite length_chunks. lia.
  - rewrite lookup_ge_None_2 by (rewrite length_chunks; lia). symmetry. apply lookup_ge_None_2.
    case_decide; rewrite ?length_insert, ?length_app; unfold entries; rewrite length_chunks, Hk; simpl; lia.
Qed.

Lemma find_slot_spec es : forall off, exists j, find_slot es off = off + 16 * Z.of_nat j /\
  ((j < length es)%nat /\ (exists e, es !! j = Some e /\ de_inum e = 0) \/ j = length es).
Proof.
  induction es as [|e es IH]; intros off; simpl; [exists 0%nat; split; [lia|by right]|]. destruct (Z.eqb_spec (de_inum e) 0) as [Hz|Hz].
  - exists 0%nat. split; [lia|]. left. split; [lia|]. by exists e.
  - destruct (IH (off + 16)) as (j & -> & Hj). exists (S j). split; [lia|]. destruct Hj as [[? He]| ->]; [left; split; [lia|exact He]|by right].
Qed.

(** The new entry in a slot that was free, or at the end. *)
Lemma find_entry_new name e es j :
  ((j < length es)%nat /\ (exists e0, es !! j = Some e0 /\ de_inum e0 = 0)) \/ j = length es -> de_inum e <> 0 -> forall off,
  let es' := if decide (j < length es)%nat then <[j := e]> es else es ++ [e] in
  (namecmp name (de_name e) <> 0 -> find_entry name es' off = find_entry name es off) /\
  (namecmp name (de_name e) = 0 -> find_entry name es off = None -> find_entry name es' off = Some (de_inum e, off + 16 * Z.of_nat j)).
Proof.
  intros Hj He. revert j Hj. induction es as [|a es IH]; intros j Hj off; cbv zeta.
  - destruct Hj as [[Hj _]|Hj]; [simpl in Hj; lia|]. simpl in Hj. subst j. simpl. rewrite (proj2 (Z.eqb_neq _ _) He). split; intros Hc.
    + by rewrite (proj2 (Z.eqb_neq _ _) Hc).
    + intros _. rewrite Hc. simpl. do 2 f_equal. lia.
  - destruct j as [|j].
    + destruct Hj as [[_ (e0 & He0 & Hz)]|Hj]; [|simpl in Hj; lia]. injection He0 as <-. rewrite decide_True by (simpl; lia). change (<[0%nat := e]> (a :: es)) with (e :: es). cbn [find_entry].
      rewrite (proj2 (Z.eqb_neq _ _) He), Hz. cbn [Z.eqb]. split; intros Hc.
      * by rewrite (proj2 (Z.eqb_neq _ _) Hc).
      * intros _. rewrite Hc. cbn [Z.eqb]. do 2 f_equal. lia.
    + assert (Hj' : ((j < length es)%nat /\ (exists e0, es !! j = Some e0 /\ de_inum e0 = 0)) \/ j = length es).
      { destruct Hj as [[Hl Hs]|Hl]; [left; split; [simpl in Hl; lia|exact Hs]|right; simpl in Hl; lia]. }
      destruct (IH j Hj' (off + 16)) as [IH1 IH2]. set (es1 := if decide (j < length es)%nat then <[j := e]> es else es ++ [e]) in *.
      assert (E : (if decide (S j < length (a :: es))%nat then <[S j := e]> (a :: es) else (a :: es) ++ [e]) = a :: es1).
      { unfold es1. simpl length. repeat case_decide; try lia; done. }
      rewrite E. cbn [find_entry]. split; intros Hc.
      * destruct (de_inum a =? 0); [by apply IH1|]. destruct (namecmp name (de_name a) =? 0); [done|by apply IH1].
      * destruct (de_inum a =? 0); [|destruct (namecmp name (de_name a) =? 0); [done|]]; intros Hn; rewrite (IH2 Hc Hn); do 2 f_equal; lia.
Qed.

Lemma de_inum_new name n : 0 <= n < 2 ^ 16 -> de_inum (mk_dirent name n) = n.
Proof.
  intros Hn. unfold de_inum, mk_dirent, getu16. cbn [app].
  change ([n mod 256; n / 256 mod 256] ++ strncpy DIRSIZ name) with (n mod 256 :: n / 256 mod 256 :: strncpy DIRSIZ name).
  change ((n mod 256 :: n / 256 mod 256 :: strncpy DIRSIZ name) !!! 0%nat) with (n mod 256).
  change ((n mod 256 :: n / 256 mod 256 :: strncpy DIRSIZ name) !!! 1%nat) with (n / 256 mod 256).
  rewrite (Z.mod_small (n / 256) 256) by (split; [apply Z.div_pos; lia|apply Z.div_lt_upper_bound; lia]). pose proof (Z.div_mod n 256 ltac:(lia)). lia.
Qed.

Lemma length_mk_dirent name n : length (mk_dirent name n) = 16%nat.
Proof. unfold mk_dirent. rewrite length_app, length_strncpy. done. Qed.

(** The directory's map after dirlink. *)
Lemma dir_lookup_new l k name n :
  length l = (16 * k)%nat -> is_name name -> 0 < n < 2 ^ 16 -> dir_lookup l name = None ->
  forall name', is_name name' ->
    dir_lookup (splice (find_slot (entries l) 0) (mk_dirent name n) l) name' =
    if decide (take DIRSIZ name' = take DIRSIZ name) then Some n else dir_lookup l name'.
Proof.
  intros Hl Hname Hn Hnone name' Hname'. set (e := mk_dirent name n). destruct (find_slot_spec (entries l) 0) as (j & -> & Hj).
  assert (Hk : length (entries l) = k) by (unfold entries; rewrite length_chunks, Hl, Nat.mul_comm; apply Nat.div_mul; lia).
  rewrite Z.add_0_l. replace (16 * Z.of_nat j) with (Z.of_nat (16 * j)) by lia. unfold dir_lookup.
  rewrite (entries_splice k) by (done || apply length_mk_dirent || (destruct Hj as [[? _]|?]; lia)). rewrite <- Hk.
  assert (Hei : de_inum e = n) by (apply de_inum_new; lia). assert (Hen : de_name e = strncpy DIRSIZ name) by done.
  destruct (find_entry_new name' e (entries l) j Hj ltac:(lia) 0) as [Hother Hsame]. rewrite Hen in Hother, Hsame.
  pose proof (strncmp_strncpy DIRSIZ name' name Hname' Hname) as Hcmp. fold (namecmp name' (strncpy DIRSIZ name)) in Hcmp.
  destruct (decide (take DIRSIZ name' = take DIRSIZ name)) as [Hd|Hd].
  - rewrite Hsame; [change (Some (de_inum e) = Some n); by rewrite Hei|by apply Hcmp|].
    assert (Hn' : forall es off, find_entry name' es off = find_entry name es off).
    { assert (Hc : forall m s t u, take m s = take m t -> strncmp m s u = strncmp m t u).
      { induction m as [|m IH]; intros s t u Ht; [done|]. destruct s as [|a s], t as [|b t]; try done. injection Ht as -> Ht. cbn [strncmp hd tl].
        by rewrite (IH s t (tl u) Ht). }
      induction es as [|x es IH]; intros off; simpl; [done|]. rewrite !IH. unfold namecmp. by rewrite (Hc DIRSIZ name' name (de_name x) Hd). }
    rewrite Hn'. unfold dir_lookup in Hnone. by destruct (find_entry name (entries l) 0).
  - rewrite Hother; [done|]. intros Hc. by apply Hd, Hcmp.
Qed.

Section link.
Context (sz : Z) (Hsz : sz <= 2 ^ 31) (d0 : gmap Z (list Z)) (ws0 : list (Z * list Z)) (ls lsz pd : Z) (Hlsz : LOGSIZE <= lsz).
Context (B : superblock) (HB : layout sz ls B).
Context (dev_read : Z -> option (nat -> Z -> M fs (Z * list Z))) (dev_write : Z -> option (nat -> list Z -> M fs Z)).
Notation tx := (FsTx.tx sz d0 ws0 ls lsz pd true).

Lemma slot_bound c p : dir_ok B c p ->
  0 <= find_slot (entries (contents c p)) 0 <= isize p /\ find_slot (entries (contents c p)) 0 mod 16 = 0.
Proof.
  intros Hd. destruct (entries_all B c p Hd) as (En & Es & Hpos). destruct (find_slot_spec (entries (contents c p)) 0) as (j & -> & Hj).
  assert (Hl : length (entries (contents c p)) = Z.to_nat (isize p / 16)) by (unfold entries; rewrite length_chunks; exact En).
  split; [destruct Hj as [[? _]| ->]; lia|]. rewrite Z.add_0_l, Z.mul_comm. apply Z.mod_mul. lia.
Qed.

Lemma touched_entry off : 0 <= off -> off mod 16 = 0 -> touched off 16 = 1.
Proof.
  intros Ho Hm. unfold touched. consts. pose proof (Z.div_mod off 512 ltac:(lia)). pose proof (Z.mod_pos_bound off 512 ltac:(lia)).
  assert (Hm2 : off mod 512 <= 496).
  { pose proof (Z.div_mod off 16 ltac:(lia)). assert (off mod 512 = 16 * (off / 16 - 32 * (off / 512))) by lia. lia. }
  replace (off + 16 + (512 - 1)) with ((off / 512 + 1) * 512 + (off mod 512 + 15)) by lia. rewrite Z.div_add_l by lia. rewrite (Z.div_small (off mod 512 + 15)) by lia. lia.
Qed.

Lemma dirlink_spec s c bs dp p name n :
  tx s c bs ∅ -> sb s = B -> map_ok B c -> icache s !! dp = Some p -> dir_ok B c p -> fits p -> on_disk B c p -> (length bs <= 21)%nat ->
  is_name name -> 0 < n < 2 ^ 16 -> dir_lookup (contents c p) name = None -> isize p + 16 <= MAXFILE * BSIZE -> (2 <= nfree B c)%nat ->
  wp (dirlink dev_read dev_write dp name n)
    (fun r s' => r = 0 /\ exists c' p' bs', tx s' c' bs' ∅ /\ sb s' = B /\ icache s' = <[dp := p']> (icache s) /\
       wrote B c p bs (find_slot (entries (contents c p)) 0) (mk_dirent name n) c' p' bs' /\ dir_ok B c' p' /\ (length bs' <= length bs + 4)%nat /\
       forall name', is_name name' ->
         dir_lookup (contents c' p') name' = if decide (take DIRSIZ name' = take DIRSIZ name) then Some n else dir_lookup (contents c p) name') s.
Proof.
  intros T Hsb Hm Hi Hd Hf Hod Hr Hname Hn Hnone Hmax Hnf. pose proof Hd as [I Ht Hs]. pose proof (ip_size _ _ _ I) as Hsize.
  destruct (entries_all B c p Hd) as (En & Es & Hpos). destruct (slot_bound c p Hd) as [Hslot Hsm]. set (off := find_slot _ 0) in *.
  pose proof (touched_entry off ltac:(lia) Hsm) as Htc. pose proof (length_mk_dirent name n) as Hle.
  unfold dirlink. rewrite wp_bind. eapply (dirlookup_spec sz Hsz d0 ws0 ls lsz pd true Hlsz B HB); [exact T|done|done|exact Hi|done|lia|].
  intros s1 T1 Hsb1 Hic1. pose proof Hnone as Hnone0. unfold dir_lookup in Hnone0. destruct (find_entry name (entries (contents c p)) 0) as [[? ?]|]; [done|].
  rewrite wp_bind. eapply wp_get_inode; [by rewrite Hic1|]. rewrite wp_bind.
  eapply (dirlink_loop_spec sz Hsz d0 ws0 ls lsz pd true Hlsz B HB dev_read c bs dp p (Z.to_nat (isize p / 16)));
    [exact T1|done|done|by rewrite Hic1|done|lia|lia|lia|lia|].
  intros s2 T2 Hsb2 Hic2. change (drop (Z.to_nat 0) (contents c p)) with (contents c p).
  replace (chunks (Z.to_nat (isize p / 16)) (contents c p)) with (entries (contents c p)) by (unfold entries; by rewrite En). fold off.
  rewrite wp_bind. eapply wp_mono; [eapply (writei_spec sz Hsz d0 ws0 ls lsz pd true Hlsz B HB dev_write s2 c bs dp p off (mk_dirent name n))|].
  - done.
  - exact T2.
  - done.
  - done.
  - by rewrite Hic2, Hic1.
  - done.
  - done.
  - done.
  - unfold UINT_MAX. consts. lia.
  - rewrite Hle. unfold UINT_MAX. lia.
  - rewrite Hle. change (Z.of_nat 16) with 16. lia.
  - rewrite Hle. change (Z.of_nat 16) with 16. lia.
  - rewrite Hle. change (Z.of_nat 16) with 16. cbv beta. destruct (Z.ltb_spec (isize p) off); [lia|]. destruct (Z.ltb_spec (MAXFILE * BSIZE) (off + 16)); [lia|]. cbn [orb].
    intros r s3 (-> & c' & p' & bs' & T3 & Hsb3 & Hic3 & W). change (16 =? sizeof_dirent) with true. cbn [negb]. rewrite wp_ret. split; [done|].
    exists c', p', bs'. split; [done|]. split; [done|]. split; [by rewrite Hic3, Hic2, Hic1|]. split; [exact W|]. split; [|split].
    + split; [apply W|rewrite (wr_inode _ _ _ _ _ _ _ _ _ W); done|]. rewrite (wr_inode _ _ _ _ _ _ _ _ _ W), Hle. unfold written_inode. cbn [isize set_size]. change (Z.of_nat 16) with 16.
      destruct (Z.max_spec (isize p) (off + 16)) as [[_ ->]|[_ ->]]; [|done]. rewrite <- Zplus_mod_idemp_l, Hsm. done.
    + pose proof (wr_logs _ _ _ _ _ _ _ _ _ W) as Hlogs. rewrite Hle in Hlogs. change (Z.of_nat 16) with 16 in Hlogs. lia.
    + rewrite (wr_contents _ _ _ _ _ _ _ _ _ W). apply (dir_lookup_new _ (Z.to_nat (isize p / 16))); [rewrite (length_contents B) by done; lia|done|done|exact Hnone].
Qed.
End link.

(** C20. dirlink adds one name to a directory, and atomically so.  Between system
    calls, for a directory in memory that has no entry for the name and is not
    of the largest size, a transaction with dirlink succeeds when two blocks are
    free; afterwards the directory maps the name to the inode and every other
    name, compared in its first DIRSIZ characters, to what it mapped it to before.
    At most four blocks are logged.  If the machine stops after any number [j] of
    the block writes, then after recovery, itself cut short any number of times,
    the directory on the disk is the old or the new map. *)
Theorem dirlink_adds_name pid B sz dev_read dev_write s d ws l dp p name n :
  sz <= 2 ^ 31 -> quiet B sz s d ws l ->
  icache s !! dp = Some p -> dir_ok B (dk d) p -> fits p -> on_disk B (dk d) p ->
  is_name name -> 0 < n < 2 ^ 16 -> dir_lookup (contents (dk d) p) name = None -> isize p + 16 <= MAXFILE * BSIZE -> (2 <= nfree B (dk d))%nat ->
  let add (f : list Z -> option Z) (name' : list Z) := if decide (take DIRSIZ name' = take DIRSIZ name) then Some n else f name' in
  exists s' l' W k p', in_tx (dirlink dev_read dev_write dp name n) s = Ok (0, s') /\ quiet B sz s' (apply_writes d W) (ws ++ W) l' /\
    icache s' = <[dp := p']> (icache s) /\ (k <= 4)%nat /\
    (forall name', is_name name' -> dir_lookup (contents (dk (apply_writes d W)) p') name' = add (dir_lookup (contents (dk d) p)) name') /\
    forall j, (exists kr, recover sz pid (apply_writes d (take j W)) = Ok (tt, kr)) /\
      forall d', recovers sz pid (apply_writes d (take j W)) d' -> forall name', is_name name' ->
        dir_lookup (disk_contents B (dk d') (inum p)) name' =
        if (j <=? k)%nat then dir_lookup (contents (dk d) p) name' else add (dir_lookup (contents (dk d) p)) name'.
Proof.
  intros Hsz Q Hi Hd Hf Hod Hname Hn Hnone Hmax Hnf add. pose proof Q as [Q1 Q2 Q3 Q4 Q5 Q6 Q7 Q8 Q9].
  pose proof Hd as [I _ _]. destruct (layout_order B sz _ Q2) as (L1 & L2 & L3). pose proof (map_pos sz (start l) B Q2) as HBM. assert (HL : LOGSIZE = 30) by done.
  destruct (in_tx_spec sz pid Hsz (dirlink dev_read dev_write dp name n) s d ws l
    (fun r s' c' bs' => r = 0 /\ sb s' = B /\ (length bs' <= 4)%nat /\ exists p', icache s' = <[dp := p']> (icache s) /\
       wrote B (dk d) p [] (find_slot (entries (contents (dk d) p)) 0) (mk_dirent name n) c' p' bs' /\
       forall name', is_name name' -> dir_lookup (contents c' p') name' = add (dir_lookup (contents (dk d) p)) name') Q1 Q4 Q5 Q6 Q8)
    as (r & s1 & k & l' & c' & bs' & E & (-> & Hsb & Hn4 & p' & Hic & W & Hlook) & Hlc & Hi' & Hst & Hsi & Hcl & Hca).
  - intros k T. eapply wp_mono; [eapply (dirlink_spec sz Hsz d ws (start l) (size l) _ Q7 B Q2 dev_read dev_write (set_kern k s) (dk d) [] dp p name n);
      [exact T|done|done|exact Hi|done|done|done|simpl; lia|done|done|done|done|done]|].
    cbv beta. intros r s' (-> & c' & p' & bs' & T' & Hsb' & Hic' & W & Hd' & Hlen & Hlook). simpl in Hlen. exists c', bs'. split; [exact T'|]. split; [lia|].
    split; [done|]. split; [done|]. split; [lia|]. exists p'. done.
  - pose proof W as [W1 W2 W3 W4 W5 W6 W7 _ _ _ _]. assert (H1 : c' 1 = dk d 1).
    { pose proof (lay_size sz (start l) B Q2). assert (Hd1 : 0 <= 1 < bmapstart B) by lia.
      destruct (meta_block sz (start l) B Q2 _ _ 1 Q9 (ip_file _ _ _ I) Hd1) as [? ?].
      apply W7; [lia|done|done|lia|]. unfold IBLOCK. pose proof (Z.div_pos (inum p) IPB ltac:(apply I) ltac:(done)). lia. }
    destruct (quiet_commit B sz s d ws l s1 k l' c' bs' Q Hsb Hi' Hst Hsi Hcl Hlc H1 W1) as [Q' Hag].
    assert (Hout : forall b, inodestart B <= b -> outside (start l) b) by (intros b ?; unfold outside; lia).
    assert (Ep : inum p' = inum p) by (rewrite W5; done).
    exists (set_kern k s1), l', (tx_writes c' (start l) bs'), (length bs'), p'. split; [exact E|]. split; [exact Q'|]. split; [exact Hic|]. split; [done|]. split.
    + intros name' Hname'. rewrite (contents_agree B c'); [by apply Hlook| |exact W2]. intros b ?. apply Hag. lia.
    + intros j. destruct (Hca j) as [Hrun Hrec]. split; [exact Hrun|]. intros d' Hr name' Hname'. specialize (Hrec d' Hr). destruct (j <=? length bs')%nat.
      * rewrite (disk_contents_agree B (dk d)); [done|done| |done|done|done]. intros b Hb. by apply Hrec, Hout.
      * rewrite <- Ep. rewrite (disk_contents_agree B c'); [by apply Hlook|done| |done|done|done]. intros b Hb. by apply Hrec, Hout.
Qed.

(** ** Paths *)

(** The pieces between slashes. *)
Fixpoint pieces (path : list Z) : list (list Z) :=
  match path with
  | [] => [[]]
  | c :: path =>
      if c =? SLASH then [] :: pieces path
      else match pieces path with
           | e :: es => (c :: e) :: es
           | [] => [[c]]
           end
  end.
(** The elements of a path. *)
Definition elems (path : list Z) : list (list Z) := filter (fun e => e <> []) (pieces path).

Lemma pieces_cons path : exists e es, pieces path = e :: es.
Proof. destruct path as [|c path]; simpl; [by exists [], []|]. destruct (c =? SLASH); [by eexists _, _|]. destruct (pieces path); by eexists _, _. Qed.

Lemma elems_slashes path : elems (skip_slashes path) = elems path.
Proof.
  induction path as [|c path IH]; simpl; [done|]. destruct (c =? SLASH) eqn:E; [|done]. rewrite IH. unfold elems. simpl. by rewrite E.
Qed.

Lemma skip_slashes_hd path : hd 0 (skip_slashes path) <> SLASH.
Proof. induction path as [|c path IH]; simpl; [done|]. destruct (Z.eqb_spec c SLASH); [done|simpl; done]. Qed.

Lemma skip_slashes_length path : (length (skip_slashes path) <= length path)%nat.
Proof. induction path as [|c path IH]; simpl; [done|]. destruct (c =? SLASH); simpl; lia. Qed.

Lemma span_elem_pieces path : forall e r, span_elem path = (e, r) ->
  path = e ++ r /\ (r = [] /\ pieces path = [e] \/ exists r', r = SLASH :: r' /\ pieces path = e :: pieces r').
Proof.
  induction path as [|c path IH]; simpl; intros e r H; [injection H as <- <-; split; [done|by left]|].
  destruct (Z.eqb_spec c SLASH) as [->|Hc].
  - injection H as <- <-. split; [done|]. right. by exists path.
  - destruct (span_elem path) as [e0 r0]. injection H as <- <-. destruct (IH e0 r0 eq_refl) as [-> Hp]. split; [done|].
    destruct Hp as [[-> ->]|(r' & -> & ->)]; [by left|right; by exists r'].
Qed.

Lemma skipelem_split path :
  match skipelem path with
  | None => elems path = []
  | Some (rest, name) => exists e, elems path = e :: elems rest /\ name = take DIRSIZ e /\ hd 0 rest <> SLASH /\ (length rest < length path)%nat
  end.
Proof.
  unfold skipelem. rewrite <- elems_slashes. pose proof (skip_slashes_hd path) as Hh. pose proof (skip_slashes_length path) as Hl.
  destruct (skip_slashes path) as [|c p]; [done|]. simpl in Hh. destruct (span_elem (c :: p)) as [e r] eqn:Es.
  destruct (span_elem_pieces _ _ _ Es) as [Ep Hp]. simpl in Es. rewrite (proj2 (Z.eqb_neq _ _) Hh) in Es. destruct (span_elem p) as [e0 r0]. injection Es as <- <-.
  exists (c :: e0). split; [|split; [|split; [apply skip_slashes_hd|]]].
  - rewrite elems_slashes. unfold elems. destruct Hp as [[-> ->]|(r' & -> & ->)]; rewrite filter_cons, decide_True by done; [done|]. f_equal.
  - destruct (Nat.leb_spec DIRSIZ (length (c :: e0))) as [Hd|Hd]; [done|]. symmetry. apply take_ge. lia.
  - pose proof (skip_slashes_length r0). apply (f_equal length) in Ep. rewrite length_app in Ep. simpl in *. lia.
Qed.

(** C24. skipelem takes a path apart: it returns nothing exactly for a path without
    elements, and otherwise the first element, cut to DIRSIZ characters, and a
    shorter rest that starts with no slash and has the remaining elements; the
    elements being the nonempty pieces between slashes. *)
Theorem skipelem_elems path :
  match skipelem path with
  | None => elems path = []
  | Some (rest, name) => exists e, elems path = e :: elems rest /\ name = take DIRSIZ e /\ hd 0 rest <> SLASH /\ (length rest < length path)%nat
  end.
Proof. apply skipelem_split. Qed.

(** ** A disk image with a root directory

    Inode 1 is the root, one block with the entries [.], [..] and [hi]; inode 2
    is the file hi, five bytes in block 60. *)
Definition root_inode : inode := mk_inode 1 1 1 free_lk true T_DIR 0 0 1 512 (59 :: replicate 12 0).
Definition hi_inode : inode := mk_inode 1 2 0 free_lk false T_FILE 0 0 1 5 (60 :: replicate 12 0).
Definition no_inode : inode := mk_inode 0 0 0 free_lk false 0 0 0 0 0 [].
Definition root_data : list Z :=
  put_bytes zero_block 0 (mk_dirent [46] 1 ++ mk_dirent [46; 46] 1 ++ mk_dirent [104; 105] 2).
Definition root_blocks : gmap Z (list Z) :=
  {[1 := demo_block1;
    32 := put_dinode (dinode_off 2) hi_inode (put_dinode (dinode_off 1) root_inode zero_block);
    58 := foldl (fun d b => mark b d) zero_block (seqZ 0 61);
    59 := root_data;
    60 := put_bytes zero_block 0 [104; 101; 108; 108; 111]]}.
Definition root_fs : fs :=
  mk_fs (mk_kernel (mk_state (replicate (Z.to_nat NBUF) zero_buf) (reverse (seq 0 (Z.to_nat NBUF))) root_blocks 1000 [] 1) demo_log)
    [root_inode; no_inode; no_inode; no_inode] demo_sb.

Lemma root_len n : length (dk root_blocks n) = Z.to_nat BSIZE.
Proof.
  assert (H : map_Forall (fun _ b => length b = Z.to_nat BSIZE) root_blocks) by (apply (bool_decide_eq_true_1 _); vm_compute; reflexivity).
  unfold dk. destruct (root_blocks !! n) as [b|] eqn:E; [exact (H n b E)|done].
Qed.

Lemma root_map : map_ok demo_sb (dk root_blocks).
Proof.
  intros b Hb Hu. assert (H : used demo_sb (dk root_blocks) b || (58 <? b) = true).
  { apply (seqZ_forallb (fun b => used demo_sb (dk root_blocks) b || (58 <? b)) 1000); [vm_compute; reflexivity|exact Hb]. }
  rewrite Hu in H. simpl in H. unfold data_block. simpl in *. lia.
Qed.

Lemma root_quiet : quiet demo_sb 1000 root_fs root_blocks [] demo_log.
Proof.
  split; [|split|done|apply root_len|by vm_compute|by vm_compute|by vm_compute|split; [by vm_compute|done]|apply root_map].
  - split; [|unfold log_ok; split; [done|]; split; [done|]; split; [done|apply length_replicate]|done|done|done].
    split; [apply rep_empty|done|done|done|done].
  - by vm_compute.
  - by vm_compute.
  - by vm_compute.
  - by vm_compute.
Qed.

Lemma root_faddr bn : 0 <= bn < MAXFILE -> faddr (dk root_blocks) (addrs root_inode) bn = if bn =? 0 then 59 else 0.
Proof.
  intros Hb. apply Z.eqb_eq. apply (seqZ_forallb (fun bn => faddr (dk root_blocks) (addrs root_inode) bn =? if bn =? 0 then 59 else 0) 140); [vm_compute; reflexivity|exact Hb].
Qed.

Lemma root_is_dir : dir_ok demo_sb (dk root_blocks) root_inode.
Proof.
  assert (Hn : forall bn, 0 <= bn < MAXFILE -> faddr (dk root_blocks) (addrs root_inode) bn <> 0 -> bn = 0).
  { intros bn Hb. rewrite root_faddr by done. by destruct (Z.eqb_spec bn 0). }
  split; [|done|done]. split; [done|done|done|by vm_compute| |].
  - split; [done|done| | |].
    + intros bn Hb Hz. rewrite (Hn bn Hb Hz). by vm_compute.
    + intros bn bn' Hb Hb' Hz E. rewrite (Hn bn Hb Hz). symmetry. apply Hn; [done|]. by rewrite <- E.
    + intros bn Hb Hz. rewrite (Hn bn Hb Hz). by vm_compute.
  - intros o Ho. simpl in Ho. rewrite Z.div_small by (change BSIZE with 512; lia). by vm_compute.
Qed.

Lemma root_fits : fits root_inode.
Proof.
  unfold fits, UINT_MAX. cbn [type major minor nlink isize addrs root_inode]. unfold T_DIR.
  repeat (split; [lia|]). split; [done|]. repeat (constructor; [lia|]). constructor.
Qed.

Lemma root_nfree : (nfree demo_sb (dk root_blocks) =? 939)%nat = true.
Proof. by vm_compute. Qed.

(** The name [a] for inode 2: a second link. *)
Lemma dirlink_adds_name_witness :
  let add (f : list Z -> option Z) (name' : list Z) := if decide (take DIRSIZ name' = take DIRSIZ [97]) then Some 2 else f name' in
  exists s' l' W k p', in_tx (dirlink no_dev_read no_dev_write 0 [97] 2) root_fs = Ok (0, s') /\
    quiet demo_sb 1000 s' (apply_writes root_blocks W) ([] ++ W) l' /\
    icache s' = <[0%nat := p']> (icache root_fs) /\ (k <= 4)%nat /\
    (forall name', is_name name' ->
       dir_lookup (contents (dk (apply_writes root_blocks W)) p') name' = add (dir_lookup (contents (dk root_blocks) root_inode)) name') /\
    forall j, (exists kr, recover 1000 1 (apply_writes root_blocks (take j W)) = Ok (tt, kr)) /\
      forall d', recovers 1000 1 (apply_writes root_blocks (take j W)) d' -> forall name', is_name name' ->
        dir_lookup (disk_contents demo_sb (dk d') 1) name' =
        if (j <=? k)%nat then dir_lookup (contents (dk root_blocks) root_inode) name' else add (dir_lookup (contents (dk root_blocks) root_inode)) name'.
Proof.
  apply (dirlink_adds_name 1 demo_sb 1000 no_dev_read no_dev_write root_fs root_blocks [] demo_log 0 root_inode [97] 2).
  - lia.
  - exact root_quiet.
  - reflexivity.
  - exact root_is_dir.
  - exact root_fits.
  - by vm_compute.
  - repeat constructor. lia.
  - lia.
  - by vm_compute.
  - by vm_compute.
  - rewrite (proj1 (Nat.eqb_eq _ _) root_nfree). lia.
Defined.

(** The call evaluates: the new name is found, the old one still is. *)
Example root_link_lookup :
  match (do! in_tx (dirlink no_dev_read no_dev_write 0 [97] 2) in
         let! r := dirlookup no_dev_read 0 [97] in
         let! r' := dirlookup no_dev_read 0 [104; 105] in
         ret (r, r')) root_fs with
  | Ok (r, s) => r = (Some (1%nat, 48), Some (1%nat, 32)) /\ (inum <$> icache s !! 1%nat) = Some 2
  | Err _ => False
  end.
Proof. by vm_compute. Qed.
End FsDir.
