(* ===== verification/FsPath.v ===== *)
(** * FsPath: the inode cache and path lookup of xv6

    The invariant of the inode cache that iget, ilock, iunlock and iput keep, and
    namei as the walk through the directories on the disk. *)
From stdpp Require Import base list gmap strings.
From Stdlib Require Import ZArith Lia.
From S2P Require Import Prelude Bio Log Fs FsTx FsFile FsAtomic FsDir.
Import Bio Log Fs FsTx FsFile FsAtomic FsDir.

Module FsPath.

(** ** The cache *)

(** The references to all entries. *)
Fixpoint total (l : list inode) : Z :=
  match l with
  | [] => 0
  | p :: l => iref p + total l
  end.

Lemma total_insert l : forall i p q, l !! i = Some p -> total (<[i := q]> l) = total l - iref p + iref q.
Proof.
  induction l as [|a l IH]; intros i p q H; [done|]. destruct i as [|i].
  - injection H as <-. change (<[0%nat := q]> (a :: l)) with (q :: l). simpl. lia.
  - change (<[S i := q]> (a :: l)) with (a :: <[i := q]> l). simpl. rewrite (IH i p q H). lia.
Qed.

Lemma total_bound l i p : Forall (fun p => 0 <= iref p) l -> l !! i = Some p -> 0 <= iref p <= total l.
Proof.
  intros Hl. revert i. induction Hl as [|a l Ha Hl IH]; intros i H; [done|].
  assert (Hpos : 0 <= total l) by (clear -Hl; induction Hl; simpl; lia).
  destruct i as [|i]; [injection H as <-; simpl; lia|]. specialize (IH i H). simpl. lia.
Qed.

(** A cache with fewer references than entries has a free entry. *)
Lemma total_free l : Forall (fun p => 0 <= iref p) l -> total l < Z.of_nat (length l) -> exists p, p ∈ l /\ iref p = 0.
Proof.
  intros Hl Ht. destruct (decide (Exists (fun p => iref p = 0) l)) as [He|He].
  - apply Exists_exists in He as (p & Hp & Hz). by exists p.
  - exfalso. apply not_Exists_Forall in He; [|intros x; apply _]. assert (Z.of_nat (length l) <= total l); [|lia]. clear Ht.
    induction Hl as [|a l Ha Hl IH]; simpl; [lia|]. apply Forall_cons in He as [Hza He]. specialize (IH He). unfold compose in Hza. lia.
Qed.

(** ** The search of iget *)

Lemma iget_scan_spec dev n l : forall i0 e0,
  match iget_scan l dev n i0 e0 with
  | (Some i, _) => exists p, (i0 <= i)%nat /\ l !! (i - i0)%nat = Some p /\ 0 < iref p /\ idev p = dev /\ inum p = n
  | (None, e) => (forall p, p ∈ l -> 0 < iref p -> idev p = dev -> inum p <> n) /\
      match e0, e with
      | Some x, _ => e = Some x
      | None, Some i => exists p, (i0 <= i)%nat /\ l !! (i - i0)%nat = Some p /\ iref p = 0
      | None, None => forall p, p ∈ l -> iref p <> 0
      end
  end.
Proof.
  induction l as [|a l IH]; intros i0 e0; simpl.
  - split; [intros p Hp; by apply not_elem_of_nil in Hp|]. destruct e0; [done|]. intros p Hp. by apply not_elem_of_nil in Hp.
  - destruct ((0 <? iref a) && (idev a =? dev) && (inum a =? n)) eqn:E.
    + exists a. rewrite Nat.sub_diag. split; [done|]. split; [done|]. lia.
    + set (e1 := match e0 with None => if iref a =? 0 then Some i0 else None | _ => e0 end). specialize (IH (S i0) e1).
      assert (Hsub : forall i, (S i0 <= i)%nat -> (a :: l) !! (i - i0)%nat = l !! (i - S i0)%nat) by (intros i Hi; by replace (i - i0)%nat with (S (i - S i0)) by lia).
      destruct (iget_scan l dev n (S i0) e1) as [[i|] e].
      * destruct IH as (p & Hi & Hl & H). exists p. split; [lia|]. split; [by rewrite Hsub|done].
      * destruct IH as [Hno He]. split.
        { intros p Hp. apply elem_of_cons in Hp as [->|Hp]; [|by apply Hno]. intros ? ? ?. lia. }
        unfold e1 in He. destruct e0 as [x|]; [done|]. destruct (Z.eqb_spec (iref a) 0) as [Hz|Hz].
        { rewrite He. exists a. rewrite Nat.sub_diag. done. }
        destruct e as [i|]; [destruct He as (p & Hi & Hl & H); exists p; split; [lia|]; split; [by rewrite Hsub|done]|].
        intros p Hp. apply elem_of_cons in Hp as [->|Hp]; [done|by apply He].
Qed.

Section cache.
Context (sz : Z) (Hsz : sz <= 2 ^ 31) (d0 : gmap Z (list Z)) (ws0 : list (Z * list Z)) (ls lsz pd : Z) (w : bool) (Hlsz : LOGSIZE <= lsz).
Context (B : superblock) (HB : layout sz ls B).
Context (dev_read : Z -> option (nat -> Z -> M fs (Z * list Z))).
Notation tx := (FsTx.tx sz d0 ws0 ls lsz pd w).

(** The inode of number [n] on the disk. *)
Definition disk_node (c : Z -> list Z) (n : Z) : inode :=
  get_dinode (dinode_off n) (c (IBLOCK n B)) (mk_inode 1 n 0 free_lk false 0 0 0 0 0 []).

(** The cache over the blocks [c]; entry [k], if any, is locked by the process. *)
Record cache_ok (c : Z -> list Z) (k : option nat) (l : list inode) : Prop := {
  ck_ref i p : l !! i = Some p -> 0 <= iref p;
  ck_lock i p : l !! i = Some p -> ilk p = if decide (k = Some i) then mk_lock true pd else free_lk;
  ck_dev i p : l !! i = Some p -> 0 < iref p -> idev p = 1;
  ck_disk i p : l !! i = Some p -> 0 < iref p -> valid p = true -> on_disk B c p;
  ck_uniq i j p q : l !! i = Some p -> l !! j = Some q -> 0 < iref p -> 0 < iref q -> inum p = inum q -> i = j
}.

Lemma on_disk_ref c p n : on_disk B c p -> on_disk B c (set_ref n p).
Proof. unfold on_disk, get_dinode. destruct p; simpl. intros [= E1 E2 E3 E4 E5 E6]. by rewrite E1, E2, E3, E4, E5, E6. Qed.

Lemma ck_refs c k l : cache_ok c k l -> Forall (fun p => 0 <= iref p) l.
Proof. intros C. apply Forall_lookup. intros i p. apply (ck_ref _ _ _ C). Qed.

(** Entry [i] is replaced. *)
Lemma cache_update c k k' l i p q :
  cache_ok c k l -> l !! i = Some p -> 0 <= iref q -> ilk q = (if decide (k' = Some i) then mk_lock true pd else free_lk) ->
  (forall j, j <> i -> k = Some j <-> k' = Some j) ->
  (0 < iref q -> idev q = 1 /\ (valid q = true -> on_disk B c q) /\
     (0 < iref p /\ inum q = inum p \/ forall r, r ∈ l -> 0 < iref r -> inum r <> inum q)) ->
  cache_ok c k' (<[i := q]> l).
Proof.
  intros C Hi Hr Hl Hk Hq. assert (Hlt : (i < length l)%nat) by (by eapply lookup_lt_Some).
  assert (Hcase : forall j r, <[i := q]> l !! j = Some r -> (j = i /\ r = q) \/ (j <> i /\ l !! j = Some r)).
  { intros j r Hj. destruct (decide (i = j)) as [<-|Hne]; [left|right; by rewrite list_lookup_insert_ne in Hj].
    rewrite list_lookup_insert_eq in Hj by done. split; [done|congruence]. }
  assert (Hother : forall j r, j <> i -> l !! j = Some r -> 0 < iref r -> 0 < iref q -> inum r <> inum q).
  { intros j r Hne Hj Hrr Hqq E. destruct (Hq Hqq) as (_ & _ & [[Hp Ep]|Hnew]).
    - apply Hne. eapply (ck_uniq _ _ _ C j i); [exact Hj|exact Hi|done|done|congruence].
    - apply (Hnew r); [by eapply list_elem_of_lookup_2|done|done]. }
  split.
  - intros j r Hj. destruct (Hcase j r Hj) as [[-> ->]|[_ Hj']]; [done|by eapply (ck_ref _ _ _ C)].
  - intros j r Hj. destruct (Hcase j r Hj) as [[-> ->]|[Hne Hj']]; [done|]. rewrite (ck_lock _ _ _ C j r Hj'). specialize (Hk j Hne).
    repeat case_decide; tauto.
  - intros j r Hj Hrr. destruct (Hcase j r Hj) as [[-> ->]|[_ Hj']]; [by apply Hq|by eapply (ck_dev _ _ _ C)].
  - intros j r Hj Hrr. destruct (Hcase j r Hj) as [[-> ->]|[_ Hj']]; [by apply Hq|by eapply (ck_disk _ _ _ C)].
  - intros j1 j2 r1 r2 H1 H2 P1 P2 E. destruct (Hcase j1 r1 H1) as [[-> ->]|[N1 H1']], (Hcase j2 r2 H2) as [[-> ->]|[N2 H2']]; [done| | |].
    + exfalso. by apply (Hother j2 r2 N2 H2' P2 P1).
    + exfalso. by apply (Hother j1 r1 N1 H1' P1 P2).
    + by eapply (ck_uniq _ _ _ C).
Qed.

Lemma iget_spec s c k n Q :
  cache_ok c k (icache s) -> total (icache s) < Z.of_nat (length (icache s)) -> Z.of_nat (length (icache s)) <= INT_MAX ->
  (forall i p q, icache s !! i = Some p -> iref q = iref p + 1 -> inum q = n ->
     (0 < iref p -> q = set_ref (iref p + 1) p) ->
     let l' := <[i := q]> (icache s) in cache_ok c k l' -> total l' = total (icache s) + 1 -> Q i (set_icache l' s)) ->
  wp (iget 1 n) Q s.
Proof.
  intros C Ht Hlen HQ. unfold iget. rewrite wp_bind, wp_get. pose proof (iget_scan_spec 1 n (icache s) 0 None) as Hs.
  destruct (iget_scan (icache s) 1 n 0 None) as [[i|] e].
  - destruct Hs as (p & _ & Hi & Hr & Hd & Hn). rewrite Nat.sub_0_r in Hi. pose proof (total_bound _ _ _ (ck_refs _ _ _ C) Hi).
    rewrite wp_bind. eapply wp_get_inode; [exact Hi|]. rewrite wp_bind, wp_chk_int. split; [apply int_range_spec; unfold INT_MIN in *; lia|].
    rewrite wp_bind. eapply wp_upd_inode; [exact Hi|]. rewrite wp_ret. apply (HQ i p); [done|done|done|done| |].
    + eapply cache_update; [exact C|exact Hi|simpl; lia|apply (ck_lock _ _ _ C _ _ Hi)|done|]. intros _. split; [done|]. split.
      * intros Hv. apply on_disk_ref. exact (ck_disk _ _ _ C _ _ Hi Hr Hv).
      * by left.
    + rewrite (total_insert _ _ p) by done. simpl. lia.
  - destruct Hs as [Hno He]. destruct (total_free _ (ck_refs _ _ _ C) Ht) as (p0 & Hp0 & Hz0). destruct e as [i|]; [|exfalso; by apply (He p0 Hp0)].
    destruct He as (p & _ & Hi & Hz). rewrite Nat.sub_0_r in Hi. rewrite wp_bind. eapply wp_upd_inode; [exact Hi|]. rewrite wp_ret.
    apply (HQ i p); [done|simpl; lia|done|lia| |].
    + eapply cache_update; [exact C|exact Hi|simpl; lia|apply (ck_lock _ _ _ C _ _ Hi)|done|]. intros _. split; [done|]. split; [done|]. right.
      intros r Hr Hrr. simpl. apply list_elem_of_lookup in Hr as [j Hj]. apply Hno; [by eapply list_elem_of_lookup_2|done|by eapply (ck_dev _ _ _ C)].
    + rewrite (total_insert _ _ p) by done. simpl. lia.
Qed.

(** ** Locking and releasing *)

(** An allocated inode, with links, whose entries lead to such inodes if it is a
    directory. *)
Record node_ok (G : Z -> Prop) (c : Z -> list Z) (n : Z) : Prop := {
  no_range : 0 <= n < ninodes B;
  no_type : type (disk_node c n) <> 0;
  no_link : nlink (disk_node c n) <> 0;
  no_dir : type (disk_node c n) = T_DIR -> dir_ok B c (disk_node c n) /\ forall name m, dir_lookup (contents c (disk_node c n)) name = Some m -> G m
}.

Context (G : Z -> Prop) (c : Z -> list Z) (HG : forall n, G n -> node_ok G c n) (Hmap : map_ok B c).

Lemma node_fields p : on_disk B c p -> type p = type (disk_node c (inum p)) /\ nlink p = nlink (disk_node c (inum p)) /\
  isize p = isize (disk_node c (inum p)) /\ addrs p = addrs (disk_node c (inum p)).
Proof.
  unfold on_disk, disk_node, get_dinode. destruct p; simpl. intros [= E1 E2 E3 E4 E5 E6]. by rewrite E1, E4, E5, E6.
Qed.

(** The entry [q] of the cache is up to date and locked. *)
Record held (s : fs) (i : nat) (q : inode) : Prop := {
  h_entry : icache s !! i = Some q;
  h_ref : 0 < iref q;
  h_dev : idev q = 1;
  h_valid : valid q = true;
  h_disk : on_disk B c q;
  h_cache : cache_ok c (Some i) (icache s)
}.

Lemma ilock_cache_spec s bs i p Q :
  tx s c bs ∅ -> sb s = B -> (length bs < 29)%nat -> cache_ok c None (icache s) -> icache s !! i = Some p -> 0 < iref p -> G (inum p) ->
  (forall s' q, tx s' c bs ∅ -> sb s' = B -> icache s' = <[i := q]> (icache s) -> iref q = iref p -> inum q = inum p -> held s' i q -> Q tt s') ->
  wp (ilock (Some i)) Q s.
Proof.
  intros T Hsb Hlen C Hi Hr Hg HQ. destruct (HG _ Hg) as [N1 N2 N3 N4]. pose proof (ck_lock _ _ _ C _ _ Hi) as Hlk. pose proof (ck_dev _ _ _ C _ _ Hi Hr) as Hdev.
  assert (Hlt : (i < length (icache s))%nat) by (by eapply lookup_lt_Some). assert (Hme : my_lk s = mk_lock true pd) by (unfold my_lk; by rewrite (tx_pid _ _ _ _ _ _ _ _ _ _ _ T)).
  assert (Hupd : forall q, ilk q = mk_lock true pd -> iref q = iref p -> inum q = inum p -> idev q = 1 -> on_disk B c q -> cache_ok c (Some i) (<[i := q]> (icache s))).
  { intros q E1 E2 E3 E4 E5. eapply cache_update; [exact C|exact Hi|lia|by rewrite E1, decide_True|intros j Hj; split; [done|congruence]|].
    intros _. split; [done|]. split; [done|]. left. split; [done|done]. }
  destruct (valid p) eqn:Hv.
  - eapply ilock_valid_spec; [exact Hi|done|exact Hlk|done|]. rewrite Hme.
    assert (Hod : on_disk B c (set_lk (mk_lock true pd) p)) by (apply on_disk_lk; by eapply (ck_disk _ _ _ C)).
    eapply (HQ _ (set_lk (mk_lock true pd) p)); [apply tx_set_icache, T|done|done|done|done|].
    split; simpl; [by apply list_lookup_insert_eq|done|done|done|done|by apply Hupd].
  - eapply (ilock_load_spec sz Hsz d0 ws0 ls lsz pd w Hlsz B HB); [exact T|done|exact Hi|done|exact Hlk|done|done|done|done|exact N2|]. rewrite Hme.
    set (q := set_valid true _). intros s' T' Hsb' Hic'. assert (Hod : on_disk B c q) by done.
    eapply (HQ s' q); [done|done|done|done|done|]. split; rewrite ?Hic'; [by apply list_lookup_insert_eq|done|done|done|done|by apply Hupd].
Qed.

(** iput of an inode that has links. *)
Lemma iput_keep_spec s i q (Q : unit -> fs -> Prop) :
  icache s !! i = Some q -> ilk q = free_lk -> valid q && (nlink q =? 0) = false -> 0 < iref q <= INT_MAX ->
  (forall s', kern s' = kern s -> sb s' = sb s -> icache s' = <[i := set_ref (iref q - 1) q]> (icache s) -> Q tt s') ->
  wp (iput i) Q s.
Proof.
  intros Hi Hlk Hn Hr HQ. assert (Hlt : (i < length (icache s))%nat) by (by eapply lookup_lt_Some).
  unfold iput. rewrite wp_bind. unfold acquiresleep. rewrite wp_bind. eapply wp_get_inode; [exact Hi|]. rewrite Hlk. cbn [locked free_lk].
  rewrite wp_bind, wp_get. eapply wp_upd_inode; [exact Hi|].
  rewrite wp_bind. eapply wp_get_inode; [simpl; by apply list_lookup_insert_eq|]. cbn [valid nlink set_lk]. rewrite Hn.
  rewrite wp_bind, wp_ret, wp_bind. unfold releasesleep. eapply wp_upd_inode; [simpl; by apply list_lookup_insert_eq|]. simpl icache. rewrite list_insert_insert_eq.
  rewrite wp_bind. eapply wp_get_inode; [simpl; by apply list_lookup_insert_eq|]. cbn [iref set_lk].
  rewrite wp_bind, wp_chk_int. split; [apply int_range_spec; unfold INT_MIN in *; lia|].
  eapply wp_upd_inode; [simpl; by apply list_lookup_insert_eq|]. simpl icache. rewrite list_insert_insert_eq.
  apply HQ; [done|done|]. simpl. f_equal. unfold set_lk, set_ref. simpl. f_equal. rewrite Hlk. done.
Qed.

Lemma iunlock_cache_spec s bs i q Q :
  tx s c bs ∅ -> sb s = B -> held s i q ->
  (forall s', tx s' c bs ∅ -> sb s' = B -> icache s' = <[i := set_lk free_lk q]> (icache s) -> cache_ok c None (icache s') -> Q tt s') ->
  wp (iunlock (Some i)) Q s.
Proof.
  intros T Hsb [H1 H2 H3 H4 H5 H6] HQ. pose proof (ck_lock _ _ _ H6 _ _ H1) as Hlk. rewrite decide_True in Hlk by done.
  eapply iunlock_spec; [exact H1|done|unfold my_lk; by rewrite (tx_pid _ _ _ _ _ _ _ _ _ _ _ T)|]. apply HQ; [apply tx_set_icache, T|done|done|]. simpl.
  eapply cache_update; [exact H6|exact H1|simpl; lia|by rewrite decide_False|intros j Hj; split; [congruence|done]|].
  intros _. split; [done|]. split; [intros _; by apply on_disk_lk|]. by left.
Qed.

(** iput of an entry of the cache whose inode has links. *)
Lemma iput_cache_spec s bs i q Q :
  tx s c bs ∅ -> sb s = B -> cache_ok c None (icache s) -> icache s !! i = Some q -> 0 < iref q <= INT_MAX -> G (inum q) ->
  (forall s', tx s' c bs ∅ -> sb s' = B -> icache s' = <[i := set_ref (iref q - 1) q]> (icache s) -> cache_ok c None (icache s') -> Q tt s') ->
  wp (iput i) Q s.
Proof.
  intros T Hsb C Hi Hr Hg HQ. eapply iput_keep_spec; [exact Hi|apply (ck_lock _ _ _ C _ _ Hi)| |done|].
  - destruct (valid q) eqn:Hv; [|done]. destruct (node_fields q) as (_ & -> & _); [exact (ck_disk _ _ _ C i q Hi ltac:(lia) Hv)|].
    simpl. apply Z.eqb_neq. by apply (HG _ Hg).
  - intros s' Hk Hsb' Hic'. apply HQ; [by eapply tx_same_kern|congruence|done|]. rewrite Hic'.
    eapply cache_update; [exact C|exact Hi|simpl; lia|apply (ck_lock _ _ _ C _ _ Hi)|done|]. intros _. split; [exact (ck_dev _ _ _ C i q Hi ltac:(lia))|].
    split; [|left; split; [lia|done]]. intros Hv. apply on_disk_ref. exact (ck_disk _ _ _ C i q Hi ltac:(lia) Hv).
Qed.

Lemma iunlockput_spec s bs i q Q :
  tx s c bs ∅ -> sb s = B -> held s i q -> G (inum q) -> iref q <= INT_MAX ->
  (forall s', tx s' c bs ∅ -> sb s' = B -> icache s' = <[i := set_ref (iref q - 1) (set_lk free_lk q)]> (icache s) -> cache_ok c None (icache s') -> Q tt s') ->
  wp (iunlockput i) Q s.
Proof.
  intros T Hsb H Hg Hmax HQ. assert (Hlt : (i < length (icache s))%nat) by (destruct H; by eapply lookup_lt_Some). pose proof (h_ref _ _ _ H).
  unfold iunlockput. rewrite wp_bind. eapply iunlock_cache_spec; [exact T|done|exact H|]. intros s1 T1 Hsb1 Hic1 C1.
  eapply iput_cache_spec; [exact T1|done|exact C1|rewrite Hic1; by apply list_lookup_insert_eq|simpl; lia|done|].
  intros s2 T2 Hsb2 Hic2 C2. apply HQ; [done|done| |done]. rewrite Hic2, Hic1. by rewrite list_insert_insert_eq.
Qed.

(** ** The walk *)

(** What a path leads to from inode [n], or, with [parent], the directory of its
    last element; with the last name copied, [last] at first. *)
Fixpoint walk (parent : bool) (n : Z) (es : list (list Z)) (last : list Z) : option (Z * list Z) :=
  match es with
  | [] => if parent then None else Some (n, last)
  | e :: es =>
      if type (disk_node c n) =? T_DIR then
        if parent && bool_decide (es = []) then Some (n, take DIRSIZ e)
        else match dir_lookup (contents c (disk_node c n)) (take DIRSIZ e) with
             | Some m => walk parent m es (take DIRSIZ e)
             | None => None
             end
      else None
  end.

Lemma dir_ok_node q : on_disk B c q -> idev q = 1 -> G (inum q) -> type q = T_DIR ->
  dir_ok B c q /\ contents c q = contents c (disk_node c (inum q)).
Proof.
  intros Hod Hdev Hg Ht. destruct (node_fields q Hod) as (E1 & E2 & E3 & E4). destruct (no_dir _ _ _ (HG _ Hg)) as [[[I1 I2 I3 I4 I5 I6] D2 D3] _]; [congruence|].
  split; [|unfold contents; by rewrite E3, E4]. split; [|done|by rewrite E3]. split; [done|exact I2|by rewrite Ht|by rewrite E3|by rewrite E4|]. rewrite E3, E4. exact I6.
Qed.

Lemma rest_empty rest : hd 0 rest <> SLASH -> rest = [] <-> elems rest = [].
Proof.
  intros Hh. split; [by intros ->|]. intros He. destruct rest as [|a rest]; [done|]. exfalso. simpl in Hh.
  pose proof (skipelem_split (a :: rest)) as Hs. unfold skipelem in Hs. cbn [skip_slashes] in Hs. rewrite (proj2 (Z.eqb_neq a SLASH)) in Hs by done.
  destruct (span_elem (a :: rest)) as [x y]. destruct Hs as (e & Hs & _). congruence.
Qed.

(** What namex leaves, for the result [v] of the walk; [t] references before. *)
Definition found (bs : list Z) (v : option (Z * list Z)) (t : Z) (len : nat) (r : option nat * list Z) (s' : fs) : Prop :=
  tx s' c bs ∅ /\ sb s' = B /\ cache_ok c None (icache s') /\ length (icache s') = len /\
  match v with
  | Some (n, nm) => exists j q, r = (Some j, nm) /\ icache s' !! j = Some q /\ 0 < iref q /\ inum q = n /\ total (icache s') = t
  | None => fst r = None /\ total (icache s') = t - 1
  end.

(** The state at the top of the loop, holding a reference to entry [ip]. *)
Record at_inode (bs : list Z) (s : fs) (ip : nat) (p : inode) : Prop := {
  at_tx : tx s c bs ∅;
  at_sb : sb s = B;
  at_cache : cache_ok c None (icache s);
  at_entry : icache s !! ip = Some p;
  at_ref : 0 < iref p;
  at_good : G (inum p);
  at_room : total (icache s) < Z.of_nat (length (icache s)) <= INT_MAX
}.

Lemma at_bound bs s ip p : at_inode bs s ip p -> iref p <= INT_MAX.
Proof. intros [? ? C Hi ? ? ?]. pose proof (total_bound _ _ _ (ck_refs _ _ _ C) Hi). lia. Qed.

(** The end of a walk that fails at a locked directory. *)
Lemma walk_fails_spec bs s ip q (name : list Z) t len :
  tx s c bs ∅ -> sb s = B -> held s ip q -> G (inum q) -> iref q <= INT_MAX -> total (icache s) = t -> length (icache s) = len ->
  wp (do! iunlockput ip in ret (None, name)) (found bs None t len) s.
Proof.
  intros T Hsb H Hg Hmax Ht Hlen. rewrite wp_bind. eapply iunlockput_spec; [exact T|done|exact H|done|done|]. intros s' T' Hsb' Hic' C'. rewrite wp_ret.
  split; [done|]. split; [done|]. split; [done|]. split; [rewrite Hic', length_insert; done|]. split; [done|].
  rewrite Hic', (total_insert _ _ q) by apply H. simpl. lia.
Qed.

(** The directory's entry [next] is taken and the directory put back. *)
Lemma step_spec {A} (rest : nat -> M fs A) bs s ip q m Q :
  tx s c bs ∅ -> sb s = B -> held s ip q -> G (inum q) -> G m -> total (icache s) < Z.of_nat (length (icache s)) <= INT_MAX ->
  (forall s' j q', at_inode bs s' j q' -> inum q' = m -> total (icache s') = total (icache s) -> length (icache s') = length (icache s) -> wp (rest j) Q s') ->
  wp (iget 1 m) (fun j s'' => wp (do! iunlockput ip in rest j) Q s'') s.
Proof.
  intros T Hsb H Hg Hm Hroom HQ. pose proof H as [H1 H2 H3 H4 H5 H6]. assert (Hlt : (ip < length (icache s))%nat) by (by eapply lookup_lt_Some).
  eapply iget_spec; [exact H6|lia|lia|]. cbv zeta. intros j p q1 Hj Href Hn1 Hsame C1 Ht1. set (l1 := <[j := q1]> (icache s)) in *.
  assert (Hjl : (j < length (icache s))%nat) by (by eapply lookup_lt_Some).
  set (q2 := if decide (j = ip) then q1 else q).
  assert (Eq2 : iref q2 = (if decide (j = ip) then iref q + 1 else iref q) /\ inum q2 = inum q /\ idev q2 = 1 /\ valid q2 = true /\ on_disk B c q2).
  { unfold q2. case_decide as E; [|done]. subst j. rewrite H1 in Hj. injection Hj as <-. rewrite (Hsame H2). simpl. split; [done|]. split; [done|].
    split; [done|]. split; [done|]. by apply on_disk_ref. }
  destruct Eq2 as (Er & En & Ed & Ev & Eo).
  assert (H2' : held (set_icache l1 s) ip q2).
  { split; simpl; [|rewrite Er; case_decide; lia|done|done|done|exact C1]. unfold l1, q2. case_decide as E; [subst; by apply list_lookup_insert_eq|by rewrite list_lookup_insert_ne]. }
  pose proof (total_bound _ _ _ (ck_refs _ _ _ C1) (h_entry _ _ _ H2')). 
  rewrite wp_bind. eapply (iunlockput_spec _ bs ip q2); [apply tx_set_icache, T|done|exact H2'|congruence|lia|]. intros s2 T2 Hsb2 Hic2 C2. simpl in Hic2.
  set (q3 := set_ref (iref q2 - 1) (set_lk free_lk q2)) in *. set (q' := if decide (j = ip) then q3 else q1).
  assert (Ht2 : total (icache s2) = total (icache s)).
  { rewrite Hic2, (total_insert _ _ q2) by apply H2'. rewrite Ht1. unfold q3. simpl. lia. }
  assert (Hlen2 : length (icache s2) = length (icache s)) by (rewrite Hic2; unfold l1; by rewrite !length_insert).
  assert (Hrq' : 0 < iref q').
  { pose proof (ck_ref _ _ _ H6 _ _ Hj). unfold q'. destruct (decide (j = ip)) as [E|E]; [|lia]. unfold q3. cbn [iref set_ref]. lia. }
  assert (Hnq' : inum q' = m).
  { unfold q', q3, q2. destruct (decide (j = ip)); done. }
  apply (HQ s2 j q'); [|done|done|done]. split; [done|done|done| |done|by rewrite Hnq'|by rewrite Ht2, Hlen2].
  - rewrite Hic2. unfold q'. destruct (decide (j = ip)) as [E|E]; [subst; apply list_lookup_insert_eq; unfold l1; by rewrite length_insert|].
    rewrite list_lookup_insert_ne by done. by apply list_lookup_insert_eq.
Qed.

Lemma namex_loop_spec bs parent : (length bs <= 24)%nat -> forall fuel path name s ip p, at_inode bs s ip p -> (length path < fuel)%nat ->
  wp (namex_loop dev_read fuel ip path parent name)
    (found bs (walk parent (inum p) (elems path) name) (total (icache s)) (length (icache s))) s.
Proof.
  intros Hbs. induction fuel as [|fuel IH]; intros path name s ip p A Hf; [lia|]. pose proof A as [T Hsb C Hi Hr Hg Hroom]. pose proof (at_bound _ _ _ _ A) as Hmax.
  cbn [namex_loop]. pose proof (skipelem_split path) as Hs. destruct (skipelem path) as [[rest nm]|].
  - destruct Hs as (e & -> & -> & Hh & Hl). cbn [walk]. rewrite wp_bind. eapply ilock_cache_spec; [exact T|done|lia|exact C|exact Hi|done|done|].
    intros s1 q T1 Hsb1 Hic1 Hrq Hnq H1. rewrite <- Hnq in *. destruct (node_fields q (h_disk _ _ _ H1)) as (E1 & E2 & _).
    assert (Ht1 : total (icache s1) = total (icache s)) by (rewrite Hic1, (total_insert _ _ p) by done; lia).
    assert (Hlen1 : length (icache s1) = length (icache s)) by (by rewrite Hic1, length_insert).
    rewrite wp_bind. eapply wp_get_inode; [apply H1|]. rewrite <- E1.
    assert (Hmax1 : iref q <= INT_MAX) by lia.
    destruct (Z.eqb_spec (type q) T_DIR) as [Hdir|Hdir]; cbn [negb]; [|by eapply walk_fails_spec].
    assert (Epar : bool_decide (rest = []) = bool_decide (elems rest = [])) by (apply bool_decide_ext, rest_empty, Hh). rewrite Epar.
    destruct (parent && bool_decide (elems rest = [])) eqn:Ep.
    + rewrite wp_bind. eapply iunlock_cache_spec; [exact T1|done|exact H1|]. intros s2 T2 Hsb2 Hic2 C2. rewrite wp_ret. split; [done|]. split; [done|]. split; [done|].
      split; [by rewrite Hic2, length_insert|]. assert (Hlt : (ip < length (icache s1))%nat) by (eapply lookup_lt_Some, H1).
      exists ip, (set_lk free_lk q). split; [done|]. split; [rewrite Hic2; by apply list_lookup_insert_eq|]. split; [apply H1|]. split; [done|].
      rewrite Hic2, (total_insert _ _ q) by apply H1. simpl. lia.
    + destruct (dir_ok_node q (h_disk _ _ _ H1) (h_dev _ _ _ H1) Hg Hdir) as [Hdo Econ]. rewrite <- Econ.
      rewrite wp_bind. eapply (dirlookup_spec sz Hsz d0 ws0 ls lsz pd w Hlsz B HB dev_read c bs ip q); [exact T1|done|exact Hmap|apply H1|done|done|].
      intros s2 T2 Hsb2 Hic2. assert (H2 : held s2 ip q) by (destruct H1; split; rewrite ?Hic2; done).
      unfold dir_lookup. destruct (find_entry (take DIRSIZ e) (entries (contents c q)) 0) as [[m o]|] eqn:Ef; simpl fmap.
      * assert (Hgm : G m).
        { apply (proj2 (no_dir _ _ _ (HG _ Hg) ltac:(congruence)) (take DIRSIZ e)). rewrite <- Econ. unfold dir_lookup. by rewrite Ef. }
        eapply step_spec; [exact T2|done|exact H2|done|exact Hgm|rewrite Hic2; lia|]. intros s3 j q' A3 Hn3 Ht3 Hlen3.
        eapply wp_mono; [apply (IH rest (take DIRSIZ e) s3 j q' A3); lia|]. intros r s4. rewrite Hn3, Ht3, Hlen3, Hic2, Ht1, Hlen1. done.
      * eapply walk_fails_spec; [exact T2|done|exact H2|done|done|by rewrite Hic2|by rewrite Hic2].
  - rewrite Hs. cbn [walk]. destruct parent.
    + rewrite wp_bind. eapply iput_cache_spec; [exact T|done|exact C|exact Hi|lia|done|]. intros s' T' Hsb' Hic' C'. rewrite wp_ret.
      split; [done|]. split; [done|]. split; [done|]. split; [by rewrite Hic', length_insert|]. split; [done|]. rewrite Hic', (total_insert _ _ p) by done. simpl. lia.
    + rewrite wp_ret. split; [done|]. split; [done|]. split; [done|]. split; [done|]. by exists ip, p.
Qed.

(** Where a path starts. *)
Definition start_inode (s : fs) (cwd : nat) (path : list Z) : Z :=
  if bool_decide (hd 0 path = SLASH) then ROOTINO else match icache s !! cwd with Some p => inum p | None => 0 end.

Definition can_start (s : fs) (cwd : nat) (path : list Z) : Prop :=
  hd 0 path = SLASH \/ exists p, icache s !! cwd = Some p /\ 0 < iref p /\ G (inum p).

Lemma namex_spec bs s cwd path parent name :
  (length bs <= 24)%nat -> tx s c bs ∅ -> sb s = B -> cache_ok c None (icache s) -> G ROOTINO -> can_start s cwd path ->
  total (icache s) + 1 < Z.of_nat (length (icache s)) <= INT_MAX ->
  wp (namex dev_read cwd path parent name)
    (found bs (walk parent (start_inode s cwd path) (elems path) name) (total (icache s) + 1) (length (icache s))) s.
Proof.
  intros Hbs T Hsb C Hroot Hst Hroom. unfold namex, start_inode. rewrite wp_bind. case_bool_decide as Hh.
  - change ROOTDEV with 1. eapply iget_spec; [exact C|lia|lia|]. cbv zeta. intros i p q Hi Href Hn _ C1 Ht1. pose proof (ck_ref _ _ _ C _ _ Hi).
    assert (Hlt : (i < length (icache s))%nat) by (by eapply lookup_lt_Some).
    assert (A : at_inode bs (set_icache (<[i := q]> (icache s)) s) i q).
    { split; simpl; [apply tx_set_icache, T|done|done|by apply list_lookup_insert_eq|lia|by rewrite Hn|rewrite length_insert; lia]. }
    eapply wp_mono; [apply (namex_loop_spec bs parent Hbs _ path name _ i q A); lia|]. intros r s'. simpl. rewrite Hn, Ht1, length_insert. done.
  - destruct Hst as [?|(p & Hi & Hr & Hg)]; [done|]. rewrite Hi. pose proof (total_bound _ _ _ (ck_refs _ _ _ C) Hi).
    assert (Hlt : (cwd < length (icache s))%nat) by (by eapply lookup_lt_Some).
    unfold idup. rewrite wp_bind. eapply wp_get_inode; [exact Hi|]. rewrite wp_bind, wp_chk_int. split; [apply int_range_spec; unfold INT_MIN in *; lia|].
    rewrite wp_bind. eapply wp_upd_inode; [exact Hi|]. rewrite wp_ret. set (q := set_ref (iref p + 1) p).
    assert (Ht : total (<[cwd := q]> (icache s)) = total (icache s) + 1) by (rewrite (total_insert _ _ p) by done; simpl; lia).
    assert (A : at_inode bs (set_icache (<[cwd := q]> (icache s)) s) cwd q).
    { split; simpl; [apply tx_set_icache, T|done| |by apply list_lookup_insert_eq|lia|done|rewrite length_insert, Ht; lia].
      eapply cache_update; [exact C|exact Hi|simpl; lia|apply (ck_lock _ _ _ C _ _ Hi)|done|]. intros _. split; [exact (ck_dev _ _ _ C _ _ Hi Hr)|].
      split; [|by left]. intros Hv. apply on_disk_ref. exact (ck_disk _ _ _ C _ _ Hi Hr Hv). }
    eapply wp_mono; [apply (namex_loop_spec bs parent Hbs _ path name _ cwd q A); lia|]. intros r s'. simpl. rewrite Ht, length_insert. done.
Qed.
End cache.

(** C4. Path lookup walks the directories on the disk.  Between system calls, let
    [G] be a set of inodes, the root among them, that are allocated, have links,
    and if directories are well formed and lead to inodes of [G] only; let the
    inode cache agree with the disk and have two more entries than references.
    Then namex, in a transaction, returns what following the elements of the path
    one by one from the root or the working directory gives, entry by entry as
    the directories map names: the inode itself, or the directory of the last
    element and that element's name for nameiparent; nothing when an element is
    missing or is looked up in what is not a directory.  It takes one reference to
    the inode it returns and no other, every lock is released, the cache still
    agrees with the disk, and nothing is written. *)
Theorem namex_walks_path B sz G dev_read s d ws l cwd path parent name :
  sz <= 2 ^ 31 -> quiet B sz s d ws l -> (forall n, G n -> node_ok B G (dk d) n) -> G ROOTINO ->
  cache_ok (cur_pid (bio (kern s))) B (dk d) None (icache s) -> can_start G s cwd path ->
  total (icache s) + 1 < Z.of_nat (length (icache s)) <= INT_MAX ->
  exists r s' l', in_tx (namex dev_read cwd path parent name) s = Ok (r, s') /\ quiet B sz s' d ws l' /\
    cache_ok (cur_pid (bio (kern s))) B (dk d) None (icache s') /\
    match walk B (dk d) parent (start_inode s cwd path) (elems path) name with
    | Some (n, nm) => exists j q, r = (Some j, nm) /\ icache s' !! j = Some q /\ 0 < iref q /\ inum q = n /\ total (icache s') = total (icache s) + 1
    | None => fst r = None /\ total (icache s') = total (icache s)
    end.
Proof.
  intros Hsz Q HG Hroot C Hst Hroom. pose proof Q as [Q1 Q2 Q3 Q4 Q5 Q6 Q7 Q8 Q9]. set (v := walk _ _ _ _ _ _). set (t := total (icache s)).
  destruct (in_tx_spec sz 0 Hsz (namex dev_read cwd path parent name) s d ws l
    (fun r s' c' bs' => bs' = [] /\ sb s' = B /\ cache_ok (cur_pid (bio (kern s))) B (dk d) None (icache s') /\
       match v with
       | Some (n, nm) => exists j q, r = (Some j, nm) /\ icache s' !! j = Some q /\ 0 < iref q /\ inum q = n /\ total (icache s') = t + 1
       | None => fst r = None /\ total (icache s') = t + 1 - 1
       end) Q1 Q4 Q5 Q6 Q8) as (r & s1 & k & l' & c' & bs' & E & (-> & Hsb & C' & Hv) & Hlc & Hi' & Hst' & Hsi' & Hcl & _).
  - intros k T. eapply wp_mono; [eapply (namex_spec sz Hsz d ws (start l) (size l) _ true Q7 B Q2 dev_read G (dk d) HG Q9 [] (set_kern k s)); [simpl; lia|exact T|done|exact C|done|exact Hst|done]|].
    intros r s' (T' & Hsb' & C' & _ & Hv). exists (dk d), []. split; [exact T'|]. split; [simpl; lia|]. split; [done|]. split; [done|]. split; [exact C'|]. exact Hv.
  - exists r, (set_kern k s1), l'. split; [exact E|]. simpl in Hi'. rewrite app_nil_r in Hi'. split; [|split; [exact C'|]].
    + split; rewrite ?Hst', ?Hsi'; done.
    + destruct v as [[n nm]|]; [exact Hv|]. destruct Hv as [? Hv]. split; [done|]. simpl. lia.
Qed.

(** ** The root directory of the disk image *)

Lemma find_entry_inum name es : forall off m o, find_entry name es off = Some (m, o) -> m <> 0 /\ exists e, e ∈ es /\ de_inum e = m.
Proof.
  induction es as [|e es IH]; intros off m o H; simpl in H; [done|]. destruct (Z.eqb_spec (de_inum e) 0) as [Hz|Hz].
  - destruct (IH _ _ _ H) as (? & e' & He' & ?). split; [done|]. exists e'. split; [by right|done].
  - destruct (namecmp name (de_name e) =? 0).
    + injection H as <- _. split; [done|]. exists e. split; [by left|done].
    + destruct (IH _ _ _ H) as (? & e' & He' & ?). split; [done|]. exists e'. split; [by right|done].
Qed.

Definition root_nodes (n : Z) : Prop := n = 1 \/ n = 2.

Lemma root_node_1 : disk_node demo_sb (dk root_blocks) 1 = set_valid false (set_ref 0 root_inode).
Proof. by vm_compute. Qed.
Lemma root_node_2 : disk_node demo_sb (dk root_blocks) 2 = hi_inode.
Proof. by vm_compute. Qed.

Lemma root_entries : forallb (fun e => (0 <=? de_inum e) && (de_inum e <=? 2)) (entries (contents (dk root_blocks) root_inode)) = true.
Proof. by vm_compute. Qed.

Lemma root_same c : contents c (set_valid false (set_ref 0 root_inode)) = contents c root_inode.
Proof. done. Qed.

Lemma dir_lookup_bound k l name m :
  forallb (fun e => (0 <=? de_inum e) && (de_inum e <=? k)) (entries l) = true -> dir_lookup l name = Some m -> 0 < m <= k.
Proof.
  intros Hall Hm. unfold dir_lookup in Hm. destruct (find_entry name (entries l) 0) as [[m' o]|] eqn:E; [|done]. simpl in Hm. injection Hm as ->.
  destruct (find_entry_inum _ _ _ _ _ E) as (Hz & e & He & <-). rewrite forallb_forall in Hall.
  specialize (Hall e (proj1 (list_elem_of_In _ _) He)). simpl in Hall. lia.
Qed.

Lemma root_nodes_ok n : root_nodes n -> node_ok demo_sb root_nodes (dk root_blocks) n.
Proof.
  intros [-> | ->]; split; rewrite ?root_node_1, ?root_node_2; try done. intros _. split.
  - destruct root_is_dir as [[I1 I2 I3 I4 I5 I6] D2 D3]. by split; [split|done|done].
  - intros name m Hm. rewrite root_same in Hm. apply (dir_lookup_bound 2 _ _ _ root_entries) in Hm. unfold root_nodes. lia.
Qed.

Lemma root_cache : cache_ok 1 demo_sb (dk root_blocks) None (icache root_fs).
Proof.
  assert (Hc : forall i p, icache root_fs !! i = Some p -> i = 0%nat /\ p = root_inode \/ p = no_inode).
  { intros [|[|[|[|i]]]] p H; simpl in H; try (injection H as <-); try done; [by left|by right|by right|by right]. }
  split.
  - intros i p H. by destruct (Hc i p H) as [[_ ->]| ->].
  - intros i p H. by destruct (Hc i p H) as [[_ ->]| ->].
  - intros i p H. by destruct (Hc i p H) as [[_ ->]| ->].
  - intros i p H. destruct (Hc i p H) as [[_ ->]| ->]; [by vm_compute|done].
  - intros i j p q Hi Hj Hp Hq _. destruct (Hc i p Hi) as [[-> _]| ->]; [|done]. by destruct (Hc j q Hj) as [[-> _]| ->].
Qed.

(** The path /hi leads to inode 2. *)
Lemma namex_walks_path_witness :
  exists r s' l', in_tx (namex no_dev_read 0 [47; 104; 105] false []) root_fs = Ok (r, s') /\ quiet demo_sb 1000 s' root_blocks [] l' /\
    cache_ok 1 demo_sb (dk root_blocks) None (icache s') /\
    exists j q, r = (Some j, [104; 105]) /\ icache s' !! j = Some q /\ 0 < iref q /\ inum q = 2 /\ total (icache s') = 2.
Proof.
  apply (namex_walks_path demo_sb 1000 root_nodes no_dev_read root_fs root_blocks [] demo_log 0 [47; 104; 105] false []).
  - lia.
  - exact root_quiet.
  - exact root_nodes_ok.
  - by left.
  - exact root_cache.
  - by left.
  - by vm_compute.
Defined.

(** The parent of /hi/ is the root, with the name hi; /a does not exist. *)
Example root_paths :
  match (let! r := in_tx (nameiparent no_dev_read 0 [47; 104; 105; 47] []) in
         let! r' := in_tx (namei no_dev_read 0 [97]) in ret (r, r')) root_fs with
  | Ok (r, s) => r = ((Some 0%nat, [104; 105]), None) /\ map iref (icache s) = [2; 0; 0; 0]
  | Err _ => False
  end.
Proof. by vm_compute. Qed.
End FsPath.
