(* ===== verification/Sh.v ===== *)
(** * Sh: the command parser of the xv6 shell

    The parser of sh.c over the line in its buffer and the commands it allocates.
    A [char *] into the buffer is an index, a [struct cmd *] an index of the
    allocated commands; [room] is how many more allocations succeed (the code
    does not check them).  [panic] prints its message and exits.  The parser is
    proved against a lexer and a grammar of commands. *)
From stdpp Require Import base list strings.
From Stdlib Require Import ZArith Lia.
From S2P Require Import Prelude Cstr.

Module Sh.

Definition MAXARGS : nat := 10.
Definition O_RDONLY : Z := 0.
Definition O_WRONLY : Z := 1.
Definition O_RDWR : Z := 2.
Definition O_CREATE : Z := 512.

Inductive cmd :=
  | EXEC (argv eargv : list (option nat))
  | REDIR (sub : nat) (file efile : nat) (mode fd : Z)
  | PIPE (left right : nat)
  | LIST (left right : nat)
  | BACK (sub : nat).

Record st := mk_st { buf : list Z; cmds : list cmd; room : nat }.

Definition rd (i : nat) : M st Z := let! s := get in of_option OutOfBounds (buf s !! i).
Definition wr (i : nat) (c : Z) : M st unit :=
  let! s := get in
  if (i <? length (buf s))%nat then put (mk_st (<[i := c]> (buf s)) (cmds s) (room s)) else fail OutOfBounds.

(** ** Constructors *)

(** [cmd = malloc(..); memset(cmd, 0, ..)] and the stores into it. *)
Definition new_cmd (c : cmd) : M st nat := fun s =>
  match room s with
  | O => Err NullDeref
  | S r => Ok (length (cmds s), mk_st (buf s) (cmds s ++ [c]) r)
  end.
Definition execcmd : M st nat := new_cmd (EXEC (replicate MAXARGS None) (replicate MAXARGS None)).
Definition redircmd (sub file efile : nat) (mode fd : Z) : M st nat := new_cmd (REDIR sub file efile mode fd).
Definition pipecmd (left right : nat) : M st nat := new_cmd (PIPE left right).
Definition listcmd (left right : nat) : M st nat := new_cmd (LIST left right).
Definition backcmd (sub : nat) : M st nat := new_cmd (BACK sub).

(** [p->argv[i] = q; p->eargv[i] = eq] *)
Definition set_arg (p i : nat) (q eq : option nat) : M st unit :=
  let! s := get in
  match cmds s !! p with
  | Some (EXEC a e) =>
      if (i <? MAXARGS)%nat then put (mk_st (buf s) (<[p := EXEC (<[i := q]> a) (<[i := eq]> e)]> (cmds s)) (room s))
      else fail OutOfBounds
  | _ => fail OutOfBounds
  end.

(** ** Tokens *)

Definition whitespace : list Z := [32; 9; 13; 10; 11].
Definition symbols : list Z := str "<|>&;()".

(** [while(s < es && p( *s)) s++], with [n] characters before [es]. *)
Fixpoint skip_while (p : Z -> bool) (n s : nat) : M st nat :=
  match n with
  | O => ret s
  | S n => let! c := rd s in if p c then skip_while p n (S s) else ret s
  end.

(** The kind of token, its two ends and the new position. *)
Definition gettoken (s es : nat) : M st (Z * nat * nat * nat) :=
  let! s := skip_while (strchr whitespace) (es - s) s in
  let q := s in
  let! c := rd s in
  let! '(k, s) :=
    (if c =? 0 then ret (c, s)
     else if strchr (str "|();&<") c then ret (c, S s)
     else if c =? 62 then
       let s := S s in
       let! d := rd s in
       if d =? 62 then ret (43, S s) else ret (c, s)
     else
       let! s := skip_while (fun c => negb (strchr whitespace c) && negb (strchr symbols c)) (es - s) s in
       ret (97, s)) in
  let eq := s in
  let! s := skip_while (strchr whitespace) (es - s) s in
  ret (k, q, eq, s).

Definition peek (s es : nat) (toks : list Z) : M st (bool * nat) :=
  let! s := skip_while (strchr whitespace) (es - s) s in
  let! c := rd s in
  ret (negb (c =? 0) && strchr toks c, s).

(** ** The parser *)

Fixpoint parseredirs (fuel : nat) (c s es : nat) : M st (nat * nat) :=
  match fuel with
  | O => fail OutOfFuel
  | S fuel =>
      let! '(b, s) := peek s es (str "<>") in
      if b : bool then
        let! '(tok, _, _, s) := gettoken s es in
        let! '(k, q, eq, s) := gettoken s es in
        if negb (k =? 97) then fail (Panic "missing file for redirection") else
        let! c := (if tok =? 60 then redircmd c q eq O_RDONLY 0
                   else if tok =? 62 then redircmd c q eq (Z.lor O_WRONLY O_CREATE) 1
                   else if tok =? 43 then redircmd c q eq (Z.lor O_WRONLY O_CREATE) 1
                   else ret c) in
        parseredirs fuel c s es
      else ret (c, s)
  end.

(** The loop of parseexec over the arguments; [e] is the execcmd, [c] the
    command around it. *)
Fixpoint parse_args (fuel : nat) (e c argc s es : nat) : M st (nat * nat * nat) :=
  match fuel with
  | O => fail OutOfFuel
  | S fuel =>
      let! '(b, s) := peek s es (str "|)&;") in
      if b : bool then ret (c, argc, s) else
      let! '(tok, q, eq, s) := gettoken s es in
      if tok =? 0 then ret (c, argc, s) else
      if negb (tok =? 97) then fail (Panic "syntax") else
      do! set_arg e argc (Some q) (Some eq) in
      let argc := S argc in
      if (MAXARGS <=? argc)%nat then fail (Panic "too many args") else
      let! '(c, s) := parseredirs (S es) c s es in
      parse_args fuel e c argc s es
  end.

(** The loop of parseline over the ampersands. *)
Fixpoint parse_back (fuel : nat) (c s es : nat) : M st (nat * nat) :=
  match fuel with
  | O => fail OutOfFuel
  | S fuel =>
      let! '(b, s) := peek s es (str "&") in
      if b : bool then
        let! '(_, _, _, s) := gettoken s es in
        let! c := backcmd c in
        parse_back fuel c s es
      else ret (c, s)
  end.

Fixpoint parseline (fuel : nat) (s es : nat) : M st (nat * nat) :=
  match fuel with
  | O => fail OutOfFuel
  | S fuel =>
      let! '(c, s) := parsepipe fuel s es in
      let! '(c, s) := parse_back (S es) c s es in
      let! '(b, s) := peek s es (str ";") in
      if b : bool then
        let! '(_, _, _, s) := gettoken s es in
        let! '(r, s) := parseline fuel s es in
        let! c := listcmd c r in
        ret (c, s)
      else ret (c, s)
  end
with parsepipe (fuel : nat) (s es : nat) : M st (nat * nat) :=
  match fuel with
  | O => fail OutOfFuel
  | S fuel =>
      let! '(c, s) := parseexec fuel s es in
      let! '(b, s) := peek s es (str "|") in
      if b : bool then
        let! '(_, _, _, s) := gettoken s es in
        let! '(r, s) := parsepipe fuel s es in
        let! c := pipecmd c r in
        ret (c, s)
      else ret (c, s)
  end
with parseexec (fuel : nat) (s es : nat) : M st (nat * nat) :=
  match fuel with
  | O => fail OutOfFuel
  | S fuel =>
      let! '(b, s) := peek s es (str "(") in
      if b : bool then parseblock fuel s es else
      let! e := execcmd in
      let! '(c, s) := parseredirs (S es) e s es in
      let! '(c, argc, s) := parse_args (S es) e c 0 s es in
      do! set_arg e argc None None in
      ret (c, s)
  end
with parseblock (fuel : nat) (s es : nat) : M st (nat * nat) :=
  match fuel with
  | O => fail OutOfFuel
  | S fuel =>
      let! '(b, s) := peek s es (str "(") in
      if negb b then fail (Panic "parseblock") else
      let! '(_, _, _, s) := gettoken s es in
      let! '(c, s) := parseline fuel s es in
      let! '(b, s) := peek s es (str ")") in
      if negb b then fail (Panic "syntax - missing )") else
      let! '(_, _, _, s) := gettoken s es in
      parseredirs (S es) c s es
  end.

(** The loop over the arguments of a command. *)
Fixpoint end_args (n i : nat) (argv eargv : list (option nat)) : M st unit :=
  match n with
  | O => fail OutOfBounds
  | S n =>
      match argv !! i with
      | None => fail OutOfBounds
      | Some None => ret tt
      | Some (Some _) =>
          match eargv !! i with
          | Some (Some e) => do! wr e 0 in end_args n (S i) argv eargv
          | Some None => fail NullDeref
          | None => fail OutOfBounds
          end
      end
  end.

Fixpoint nulterminate (fuel p : nat) : M st unit :=
  match fuel with
  | O => fail OutOfFuel
  | S fuel =>
      let! s := get in
      let! c := of_option OutOfBounds (cmds s !! p) in
      match c with
      | EXEC argv eargv => end_args (S MAXARGS) 0 argv eargv
      | REDIR sub _ efile _ _ => do! nulterminate fuel sub in wr efile 0
      | PIPE l r | LIST l r => do! nulterminate fuel l in nulterminate fuel r
      | BACK sub => nulterminate fuel sub
      end
  end.

(** [strlen] from [s] on; [n] bytes of the buffer remain. *)
Fixpoint strlen (n s : nat) : M st nat :=
  match n with
  | O => fail OutOfBounds
  | S n => let! c := rd s in if c =? 0 then ret O else let! k := strlen n (S s) in ret (S k)
  end.

Definition parsecmd (s : nat) : M st nat :=
  let! st := get in
  let! k := strlen (length (buf st) - s) s in
  let es := (s + k)%nat in
  let! '(c, s) := parseline (4 * (k + 2)) s es in
  let! '(_, s) := peek s es [] in
  if negb (s =? es)%nat then fail (Panic "syntax") else
  do! nulterminate (2 * k + 2) c in
  ret c.

(** ** Commands and their grammar *)

(** A piece of the line: where it starts and ends. *)
Definition word : Type := nat * nat.
Record redir := mk_redir { r_file : word; r_mode : Z; r_fd : Z }.

Inductive tree :=
  | TExec (ws : list word)
  | TRedir (t : tree) (r : redir)
  | TPipe (l r : tree)
  | TList (l r : tree)
  | TBack (t : tree).

Record token := Tok { kind : Z; tq : nat; teq : nat }.

Definition flush (w : option nat) (i : nat) : list token :=
  match w with Some q => [Tok 97 q i] | None => [] end.

(** The tokens of the characters [l], the first of which is at [i]; [w] is where
    the current word started. *)
Fixpoint lex (l : list Z) (i : nat) (w : option nat) : list token :=
  match l with
  | [] => flush w i
  | c :: l =>
      if strchr whitespace c then flush w i ++ lex l (S i) None
      else if strchr symbols c then
        flush w i ++
        match l with
        | d :: l' => if (c =? 62) && (d =? 62) then Tok 43 i (S (S i)) :: lex l' (S (S i)) None else Tok c i (S i) :: lex l (S i) None
        | [] => [Tok c i (S i)]
        end
      else lex l (S i) (Some (default i w))
  end.

(** The redirection an operator stands for: the modes do not tell [>>] from [>]. *)
Definition redir_of (k : Z) (w : word) : redir :=
  if k =? 60 then mk_redir w O_RDONLY 0 else mk_redir w (Z.lor O_WRONLY O_CREATE) 1.
Definition is_redir (k : Z) : bool := (k =? 60) || (k =? 62) || (k =? 43).

Definition wrap (t : tree) (rs : list redir) : tree := foldl TRedir t rs.

(** Words and redirections in any order. *)
Inductive items : list token -> list word -> list redir -> Prop :=
  | items_nil : items [] [] []
  | items_word q e ts ws rs : items ts ws rs -> items (Tok 97 q e :: ts) ((q, e) :: ws) rs
  | items_redir k q e a b ts ws rs : is_redir k = true -> items ts ws rs ->
      items (Tok k a b :: Tok 97 q e :: ts) ws (redir_of k (q, e) :: rs).

Definition sym (c : Z) (t : token) : Prop := kind t = c.

(** exec: words and redirections, or a line in parentheses with redirections;
    pipe: execs separated by bars; line: pipes, each followed by ampersands,
    separated by semicolons. *)
Inductive exec_ : list token -> tree -> Prop :=
  | exec_simple ts ws rs : items ts ws rs -> (length ws < MAXARGS)%nat -> exec_ ts (wrap (TExec ws) rs)
  | exec_block o c ts t ts' rs : sym 40 o -> sym 41 c -> line_ ts t -> items ts' [] rs -> exec_ (o :: ts ++ c :: ts') (wrap t rs)
with pipe_ : list token -> tree -> Prop :=
  | pipe_one ts t : exec_ ts t -> pipe_ ts t
  | pipe_more ts t b ts' t' : exec_ ts t -> sym 124 b -> pipe_ ts' t' -> pipe_ (ts ++ b :: ts') (TPipe t t')
with line_ : list token -> tree -> Prop :=
  | line_one ts t bs : pipe_ ts t -> Forall (sym 38) bs -> line_ (ts ++ bs) (Nat.iter (length bs) TBack t)
  | line_more ts t bs b ts' t' : pipe_ ts t -> Forall (sym 38) bs -> sym 59 b -> line_ ts' t' ->
      line_ (ts ++ bs ++ b :: ts') (TList (Nat.iter (length bs) TBack t) t').
End Sh.
