(* ===== verification/ShParse.v ===== *)
(** * ShParse: the parser of the xv6 shell on tokens

    gettoken and peek walk over the tokens of the lexer, and the functions of
    the parser build in memory the tree that a parser of token lists returns,
    panicking exactly when that one fails. *)
From stdpp Require Import base list strings.
From Stdlib Require Import ZArith Lia.
From S2P Require Import Prelude Cstr Sh.
Import Sh.

Module ShParse.

#[local] Arguments strchr : simpl never.

(** ** The parser of token lists *)

Fixpoint p_redirs (ts : list token) : option (list redir * list token) :=
  match ts with
  | Tok k _ _ :: ts' =>
      if is_redir k then
        match ts' with
        | Tok k2 q e :: ts'' =>
            if k2 =? 97 then '(rs, r) ← p_redirs ts''; Some (redir_of k (q, e) :: rs, r) else None
        | [] => None
        end
      else Some ([], ts)
  | [] => Some ([], [])
  end.

Definition stops (k : Z) : bool := strchr (str "|)&;") k.

Fixpoint p_args (fuel argc : nat) (ts : list token) : option (list word * list redir * list token) :=
  match fuel with
  | O => None
  | S fuel =>
      match ts with
      | [] => Some ([], [], [])
      | Tok k q e :: ts' =>
          if stops k then Some ([], [], ts) else
          if negb (k =? 97) then None else
          if (MAXARGS <=? S argc)%nat then None else
          '(rs, r) ← p_redirs ts';
          '(ws, rs', r') ← p_args fuel (S argc) r;
          Some ((q, e) :: ws, rs ++ rs', r')
      end
  end.

Fixpoint p_back (ts : list token) : nat * list token :=
  match ts with
  | Tok k _ _ :: ts' => if k =? 38 then let '(n, r) := p_back ts' in (S n, r) else (O, ts)
  | [] => (O, [])
  end.

(** The rest after a token of kind [k], if it is next. *)
Definition next (k : Z) (ts : list token) : option (list token) :=
  match ts with
  | Tok k' _ _ :: ts' => if k' =? k then Some ts' else None
  | [] => None
  end.

Fixpoint p_line (fuel : nat) (ts : list token) : option (tree * list token) :=
  match fuel with
  | O => None
  | S fuel =>
      '(t, r) ← p_pipe fuel ts;
      let '(n, r) := p_back r in
      match next 59 r with
      | Some r => '(t', r') ← p_line fuel r; Some (TList (Nat.iter n TBack t) t', r')
      | None => Some (Nat.iter n TBack t, r)
      end
  end
with p_pipe (fuel : nat) (ts : list token) : option (tree * list token) :=
  match fuel with
  | O => None
  | S fuel =>
      '(t, r) ← p_exec fuel ts;
      match next 124 r with
      | Some r => '(t', r') ← p_pipe fuel r; Some (TPipe t t', r')
      | None => Some (t, r)
      end
  end
with p_exec (fuel : nat) (ts : list token) : option (tree * list token) :=
  match fuel with
  | O => None
  | S fuel =>
      match next 40 ts with
      | Some _ => p_block fuel ts
      | None =>
          '(rs, r) ← p_redirs ts;
          '(ws, rs', r') ← p_args (S (length r)) 0 r;
          Some (wrap (TExec ws) (rs ++ rs'), r')
      end
  end
with p_block (fuel : nat) (ts : list token) : option (tree * list token) :=
  match fuel with
  | O => None
  | S fuel =>
      r ← next 40 ts;
      '(t, r) ← p_line fuel r;
      r ← next 41 r;
      '(rs, r) ← p_redirs r;
      Some (wrap t rs, r)
  end.

(** ** Running against it *)

Definition ref {X A} (m : M st A) (o : option X) (Q : X -> A -> st -> Prop) (s : st) : Prop :=
  match m s with
  | Ok (a, s') => exists x, o = Some x /\ Q x a s'
  | Err (Panic _) => o = None
  | Err _ => False
  end.

Lemma ref_bind {X Y A C} (m : M st A) (o : option X) Q (k : A -> M st C) (f : X -> option Y) R s :
  ref m o Q s -> (forall x a s', Q x a s' -> ref (k a) (f x) R s') -> ref (bind m k) (o ≫= f) R s.
Proof.
  unfold ref, bind. intros Hm Hk. destruct (m s) as [[a s']|[]]; try done; [|by rewrite Hm].
  destruct Hm as (x & -> & HQ). apply (Hk x a s' HQ).
Qed.

Lemma ref_wp {Y A C} (m : M st A) (P : A -> st -> Prop) (k : A -> M st C) (o : option Y) R s :
  wp m P s -> (forall a s', P a s' -> ref (k a) o R s') -> ref (bind m k) o R s.
Proof. unfold ref, bind, wp. intros Hm Hk. destruct (m s) as [[a s']|]; [|done]. apply (Hk a s' Hm). Qed.

Lemma ref_ret {X A} (x : X) (a : A) (Q : X -> A -> st -> Prop) s : Q x a s -> ref (ret a) (Some x) Q s.
Proof. intros. by exists x. Qed.

Lemma ref_mono {X A} (m : M st A) (o : option X) (Q R : X -> A -> st -> Prop) s :
  ref m o Q s -> (forall x a s', Q x a s' -> R x a s') -> ref m o R s.
Proof. unfold ref. intros Hm H. destruct (m s) as [[a s']|[]]; try done. destruct Hm as (x & ? & ?). exists x. auto. Qed.

Lemma ref_bind_assoc {X A C D} (m : M st A) (f : A -> M st C) (g : C -> M st D) (o : option X) Q s :
  ref (bind m (fun a => bind (f a) g)) o Q s -> ref (bind (bind m f) g) o Q s.
Proof. unfold ref, bind. by destruct (m s) as [[a s']|]. Qed.

(** ** Characters *)

Definition plain (c : Z) : bool := negb (strchr whitespace c) && negb (strchr symbols c).

Section parse.
Context (l z : list Z) (Hl : Forall (fun c => c <> 0) l).
Notation es := (length l).

Definition holds (s : st) : Prop := buf s = l ++ 0 :: z.

Lemma rd_spec s i : holds s -> (i <= es)%nat -> rd i s = Ok (hd 0 (drop i l), s).
Proof.
  intros Hb Hi. unfold rd, bind, get. rewrite Hb. destruct (decide (i = es)) as [->|Hne].
  - rewrite lookup_app_r, Nat.sub_diag by done. by rewrite drop_all.
  - rewrite lookup_app_l by lia. destruct (lookup_lt_is_Some_2 l i) as [c Hc]; [lia|]. rewrite Hc. by rewrite (drop_S _ _ _ Hc).
Qed.

Lemma skip_while_spec p s n : forall i, holds s -> (n = es - i)%nat -> (i <= es)%nat ->
  exists w j, skip_while p n i s = Ok (j, s) /\ drop i l = w ++ drop j l /\ j = (i + length w)%nat /\ (j <= es)%nat /\
    Forall (fun c => p c = true) w /\ match drop j l with c :: _ => p c = false | [] => True end.
Proof.
  induction n as [|n IH]; intros i Hb Hn Hi; simpl.
  - exists [], i. assert (i = es) as -> by lia. rewrite drop_all. repeat split; [simpl; lia|lia|constructor].
  - unfold bind at 1. rewrite (rd_spec s i Hb Hi). destruct (lookup_lt_is_Some_2 l i) as [c Hc]; [lia|].
    rewrite (drop_S _ _ _ Hc). cbn [hd]. destruct (p c) eqn:Ep.
    + destruct (IH (S i) Hb ltac:(lia) ltac:(lia)) as (w & j & E & D & Hj & Hle & Hw & Hd). exists (c :: w), j.
      split; [exact E|]. split; [simpl; by rewrite D|]. split; [simpl; lia|]. split; [done|]. split; [by constructor|done].
    + exists [], i. rewrite (drop_S _ _ _ Hc). repeat split; [simpl; lia|lia|constructor|done].
Qed.

(** ** The tokens from a position on *)

Definition T (i : nat) : list token := lex (drop i l) i None.

Lemma lex_white w : forall r i, Forall (fun c => strchr whitespace c = true) w -> lex (w ++ r) i None = lex r (i + length w) None.
Proof.
  induction w as [|c w IH]; intros r i Hw; simpl; [by rewrite Nat.add_0_r|]. apply Forall_cons in Hw as [-> Hw]. simpl. rewrite IH by done. f_equal. lia.
Qed.

Lemma lex_word w : forall r i q, Forall (fun c => plain c = true) w -> match r with c :: _ => plain c = false | [] => True end ->
  lex (w ++ r) i (Some q) = Tok 97 q (i + length w) :: lex r (i + length w) None.
Proof.
  induction w as [|c w IH]; intros r i q Hw Hr; simpl.
  - rewrite Nat.add_0_r. destruct r as [|c r]; [done|]. unfold plain in Hr. simpl. destruct (strchr whitespace c); [done|]. by destruct (strchr symbols c).
  - apply Forall_cons in Hw as [Hc Hw]. unfold plain in Hc. destruct (strchr whitespace c); [done|]. destruct (strchr symbols c); [done|].
    rewrite IH by done. by replace (S i + length w)%nat with (i + S (length w))%nat by lia.
Qed.

(** Past white space. *)
Lemma skip_white s i : holds s -> (i <= es)%nat ->
  exists j, skip_while (strchr whitespace) (es - i) i s = Ok (j, s) /\ (i <= j <= es)%nat /\ T j = T i /\
    match drop j l with c :: _ => strchr whitespace c = false | [] => True end.
Proof.
  intros Hb Hi. destruct (skip_while_spec (strchr whitespace) s _ i Hb eq_refl Hi) as (w & j & E & D & Hj & Hle & Hw & Hd).
  exists j. split; [exact E|]. split; [lia|]. split; [|done]. unfold T. by rewrite D, lex_white, Hj.
Qed.

Definition first (t : token) : Z := if kind t =? 43 then 62 else kind t.

(** The first token at a character that is not white space. *)
Lemma T_first j : (j <= es)%nat -> match drop j l with c :: _ => strchr whitespace c = false | [] => True end ->
  match drop j l with
  | [] => T j = []
  | c :: _ => exists t ts, T j = t :: ts /\ tq t = j /\ if strchr symbols c then first t = c else kind t = 97
  end.
Proof.
  intros Hj Hw. unfold T. destruct (drop j l) as [|c r] eqn:E; [done|]. simpl. rewrite Hw. destruct (strchr symbols c) eqn:Es.
  - simpl. destruct r as [|d r]; [eexists (Tok c j (S j)), _; split; [done|split; [done|]]; unfold first; simpl; destruct (Z.eqb_spec c 43); [subst; done|done]|].
    destruct ((c =? 62) && (d =? 62)) eqn:Ec.
    + eexists (Tok 43 j (S (S j))), _. split; [done|]. split; [done|]. unfold first. simpl. lia.
    + eexists (Tok c j (S j)), _. split; [done|]. split; [done|]. unfold first. simpl. destruct (Z.eqb_spec c 43); [subst; done|done].
  - assert (D : exists w r', r = w ++ r' /\ Forall (fun c => plain c = true) w /\ match r' with c :: _ => plain c = false | [] => True end).
    { clear. induction r as [|d r (w & r' & -> & Hw & Hr)]; [by exists [], []|]. destruct (plain d) eqn:Ed; [exists (d :: w), r'; split; [done|split; [by constructor|done]]|].
      by exists [], (d :: w ++ r'). }
    destruct D as (w & r' & -> & Hpw & Hpr). rewrite lex_word by done. eexists _, _. done.
Qed.

Lemma symbol_lookup toks c : Forall (fun c => strchr symbols c = true) toks -> strchr toks c = true -> strchr symbols c = true.
Proof. rewrite Forall_forall. intros H. rewrite strchr_In. intros Hc. apply H, list_elem_of_In, Hc. Qed.

(** peek looks at the next token. *)
Lemma peek_spec s i toks : holds s -> (i <= es)%nat -> Forall (fun c => strchr symbols c = true) toks ->
  exists j, peek i es toks s = Ok (match T i with t :: _ => strchr toks (first t) | [] => false end, j, s) /\ (i <= j <= es)%nat /\ T j = T i.
Proof.
  intros Hb Hi Ht. destruct (skip_white s i Hb Hi) as (j & E & Hj & HT & Hw). exists j. split; [|done].
  unfold peek, bind. rewrite E, (rd_spec s j Hb) by lia. unfold ret. pose proof (T_first j ltac:(lia) Hw) as Hf. rewrite <- HT.
  destruct (drop j l) as [|c r] eqn:Ed; cbn [hd]; [by rewrite Hf|]. destruct Hf as (t & ts & -> & _ & Hc).
  assert (Hc0 : c <> 0) by (apply (proj1 (Forall_forall _ _) Hl); rewrite <- (take_drop j l), Ed; apply elem_of_app; right; by left).
  rewrite (proj2 (Z.eqb_neq _ _)) by done. cbn [negb andb]. do 3 f_equal. destruct (strchr symbols c) eqn:Es; [by rewrite Hc|].
  unfold first. rewrite Hc. change (97 =? 43) with false. cbv iota.
  destruct (strchr toks c) eqn:E1; [by rewrite (symbol_lookup toks c) in Es|].
  destruct (strchr toks 97) eqn:E2; [|done]. apply (symbol_lookup toks 97 Ht) in E2. done.
Qed.

(** gettoken takes the next token. *)
Lemma gettoken_spec s i : holds s -> (i <= es)%nat ->
  match T i with
  | [] => exists q e, gettoken i es s = Ok (0, q, e, es, s) /\ T es = []
  | t :: ts => exists j, gettoken i es s = Ok (kind t, tq t, teq t, j, s) /\ (i < j <= es)%nat /\ T j = ts
  end.
Proof.
  intros Hb Hi. destruct (skip_white s i Hb Hi) as (j & E & Hj & HT & Hw). rewrite <- HT. unfold gettoken.
  erewrite bind_ok; [|exact E]. cbv beta zeta. erewrite bind_ok; [|apply (rd_spec s j Hb); lia]. unfold T at 1. destruct (drop j l) as [|c r] eqn:Ed.
  - assert (j = es) as -> by (apply (f_equal length) in Ed; rewrite length_drop in Ed; simpl in Ed; lia).
    simpl. exists es, es. unfold bind, ret. rewrite Nat.sub_diag. simpl. split; [done|]. unfold T. by rewrite drop_all.
  - assert (Hc0 : c <> 0) by (apply (proj1 (Forall_forall _ _) Hl); rewrite <- (take_drop j l), Ed; apply elem_of_app; right; by left).
    assert (Hjs : (S j <= es)%nat) by (apply (f_equal length) in Ed; rewrite length_drop in Ed; simpl in Ed; lia).
    assert (Edr : drop (S j) l = r) by (replace (S j) with (j + 1)%nat by lia; rewrite <- drop_drop, Ed; done).
    cbn [hd]. rewrite (proj2 (Z.eqb_neq _ _)) by done. simpl lex. rewrite Hw.
    assert (Hone : strchr symbols c = strchr (str "|();&<") c || (c =? 62)) by (change symbols with [60; 124; 62; 38; 59; 40; 41]; change (str "|();&<") with [124; 40; 41; 59; 38; 60]; unfold strchr; simpl; destruct (Z.eqb c 60), (Z.eqb c 124), (Z.eqb c 62), (Z.eqb c 38), (Z.eqb c 59), (Z.eqb c 40), (Z.eqb c 41); done).
    rewrite Hone. destruct (strchr (str "|();&<") c) eqn:Es.
    + cbn [orb flush app]. assert (Hn : (c =? 62) = false) by (destruct (Z.eqb_spec c 62); [by subst|done]). rewrite Hn. cbn [andb].
      destruct (skip_white s (S j) Hb Hjs) as (j' & E' & Hj' & HT' & _).
      assert (Hlex : match r with d :: _ => Tok c j (S j) :: lex r (S j) None | [] => [Tok c j (S j)] end = Tok c j (S j) :: T (S j)).
      { unfold T. rewrite Edr. by destruct r. }
      rewrite Hlex. exists j'. erewrite bind_ok; [|reflexivity]. cbv beta iota zeta. erewrite bind_ok; [|exact E']. split; [done|]. split; [lia|done].
    + destruct (Z.eqb_spec c 62) as [->|Hn]; cbn [orb].
      * cbn [flush app]. rewrite bind_assoc. erewrite bind_ok; [|exact (rd_spec s (S j) Hb Hjs)]. rewrite Edr. destruct r as [|d r]; cbn [hd andb].
        -- change (0 =? 62) with false. cbv iota. destruct (skip_white s (S j) Hb Hjs) as (j' & E' & Hj' & HT' & _).
           exists j'. erewrite bind_ok; [|reflexivity]. cbv beta iota zeta. erewrite bind_ok; [|exact E']. split; [done|]. split; [lia|]. rewrite HT'. unfold T. by rewrite Edr.
        -- destruct (Z.eqb_spec d 62) as [->|Hd].
           ++ assert (Hjs2 : (S (S j) <= es)%nat) by (apply (f_equal length) in Edr; rewrite length_drop in Edr; simpl in Edr; lia).
              assert (Edr2 : drop (S (S j)) l = r) by (replace (S (S j)) with (S j + 1)%nat by lia; rewrite <- drop_drop, Edr; done).
              destruct (skip_white s (S (S j)) Hb Hjs2) as (j' & E' & Hj' & HT' & _).
              exists j'. erewrite bind_ok; [|reflexivity]. cbv beta iota zeta. erewrite bind_ok; [|exact E']. split; [done|]. split; [lia|]. rewrite HT'. unfold T. by rewrite Edr2.
           ++ destruct (skip_white s (S j) Hb Hjs) as (j' & E' & Hj' & HT' & _).
              exists j'. erewrite bind_ok; [|reflexivity]. cbv beta iota zeta. erewrite bind_ok; [|exact E']. split; [done|]. split; [lia|]. rewrite HT'. unfold T. by rewrite Edr.
      * assert (Hp : plain c = true) by (unfold plain; rewrite Hw, Hone; by destruct (Z.eqb_spec c 62)).
        destruct (skip_while_spec plain s _ j Hb eq_refl ltac:(lia)) as (w & j' & E' & D & Hj' & Hle & Hpw & Hpd).
        rewrite Ed in D. destruct w as [|c' w]; [simpl in D; rewrite <- D in Hpd; congruence|]. simpl in D. injection D as <- D.
        change (fun c => negb (strchr whitespace c) && negb (strchr symbols c)) with plain. rewrite bind_assoc. erewrite bind_ok; [|exact E']. erewrite bind_ok; [|reflexivity].
        apply Forall_cons in Hpw as [_ Hpw]. rewrite D. cbn [default]. rewrite lex_word by done.
        destruct (skip_white s j' Hb Hle) as (j'' & E'' & Hj'' & HT'' & _). exists j''. cbv beta iota zeta. erewrite bind_ok; [|exact E''].
        replace (S j + length w)%nat with j' by (simpl in Hj'; lia). split; [done|]. split; [simpl in Hj'; lia|done].
Qed.

(** ** Trees in memory *)

Definition pad (l : list nat) : list (option nat) := (Some <$> l) ++ replicate (MAXARGS - length l) None.

Fixpoint rep (h : list cmd) (p : nat) (t : tree) : Prop :=
  match t with
  | TExec ws => (length ws < MAXARGS)%nat /\ h !! p = Some (EXEC (pad (fst <$> ws)) (pad (snd <$> ws)))
  | TRedir t r => exists c, h !! p = Some (REDIR c (fst (r_file r)) (snd (r_file r)) (r_mode r) (r_fd r)) /\ rep h c t
  | TPipe t u => exists a b, h !! p = Some (PIPE a b) /\ rep h a t /\ rep h b u
  | TList t u => exists a b, h !! p = Some (LIST a b) /\ rep h a t /\ rep h b u
  | TBack t => exists c, h !! p = Some (BACK c) /\ rep h c t
  end.

(** [c'] is [c] with the redirections [rs] around it. *)
Fixpoint wraps (h : list cmd) (c' c : nat) (rs : list redir) : Prop :=
  match rs with
  | [] => c' = c
  | r :: rs => exists d, h !! d = Some (REDIR c (fst (r_file r)) (snd (r_file r)) (r_mode r) (r_fd r)) /\ wraps h c' d rs
  end.

(** Commands are added, and all but perhaps [e] are kept. *)
Record grows (e : option nat) (s s' : st) : Prop := {
  g_buf : buf s' = buf s;
  g_old i x : e <> Some i -> cmds s !! i = Some x -> cmds s' !! i = Some x;
  g_len : (length (cmds s) <= length (cmds s'))%nat
}.

Lemma grows_refl e s : grows e s s.
Proof. by split. Qed.
Lemma grows_trans e s1 s2 s3 : grows e s1 s2 -> grows e s2 s3 -> grows e s1 s3.
Proof. intros [A1 A2 A3] [B1 B2 B3]. split; [congruence|auto|lia]. Qed.
Lemma grows_weaken e s s' : grows None s s' -> grows e s s'.
Proof. intros [A1 A2 A3]. split; [done|intros i x _; by apply A2|done]. Qed.

Lemma rep_grows s s' t : forall p, grows None s s' -> rep (cmds s) p t -> rep (cmds s') p t.
Proof.
  intros p G. revert p. induction t as [ws|t IH r|t IHt u IHu|t IHt u IHu|t IH]; intros p; simpl.
  - intros [? ?]. split; [done|]. by apply (g_old _ _ _ G).
  - intros (c & ? & ?). exists c. split; [by apply (g_old _ _ _ G)|auto].
  - intros (a & b & ? & ? & ?). exists a, b. split; [by apply (g_old _ _ _ G)|auto].
  - intros (a & b & ? & ? & ?). exists a, b. split; [by apply (g_old _ _ _ G)|auto].
  - intros (c & ? & ?). exists c. split; [by apply (g_old _ _ _ G)|auto].
Qed.

Lemma wraps_grows e s s' c' rs : forall c, grows (Some e) s s' -> (forall c r f m d, cmds s !! e <> Some (REDIR c r f m d)) ->
  wraps (cmds s) c' c rs -> wraps (cmds s') c' c rs.
Proof.
  intros c G He. revert c. induction rs as [|r rs IH]; intros c; simpl; [done|]. intros (d & Hd & Hw). exists d. split; [|by apply IH].
  apply (g_old _ _ _ G); [|done]. intros [= ->]. by apply He in Hd.
Qed.
Lemma wraps_kept s s' c' rs : forall c, grows None s s' -> wraps (cmds s) c' c rs -> wraps (cmds s') c' c rs.
Proof. intros c G. revert c. induction rs as [|r rs IH]; intros c; simpl; [done|]. intros (d & Hd & Hw). exists d. split; [by apply (g_old _ _ _ G)|auto]. Qed.
Lemma wraps_app h c2 rs1 rs2 : forall c1 c0, wraps h c1 c0 rs1 -> wraps h c2 c1 rs2 -> wraps h c2 c0 (rs1 ++ rs2).
Proof. induction rs1 as [|r rs1 IH]; intros c1 c0; simpl; [by intros ->|]. intros (d & Hd & Hw) H2. exists d. split; [done|by eapply IH]. Qed.
Lemma rep_wraps h c' rs : forall t c, rep h c t -> wraps h c' c rs -> rep h c' (wrap t rs).
Proof. induction rs as [|r rs IH]; intros t c Ht; simpl; [by intros ->|]. intros (d & Hd & Hw). eapply IH; [|exact Hw]. simpl. by exists c. Qed.

Lemma ref_step {X A C} (m : M st A) (k : A -> M st C) (o : option X) Q s a s' : m s = Ok (a, s') -> ref (k a) o Q s' -> ref (bind m k) o Q s.
Proof. unfold ref, bind. by intros ->. Qed.

Lemma new_cmd_spec c s : (0 < room s)%nat ->
  exists s', new_cmd c s = Ok (length (cmds s), s') /\ grows None s s' /\ cmds s' !! length (cmds s) = Some c /\ room s = S (room s').
Proof.
  intros Hr. unfold new_cmd. destruct (room s) as [|r]; [lia|]. eexists. split; [done|]. split; [|split; [|done]]; simpl.
  - split; simpl; [done|intros i x _ Hi; by apply lookup_app_l_Some|rewrite length_app; simpl; lia].
  - by rewrite lookup_app_r, Nat.sub_diag.
Qed.

(** ** Kinds of the next token *)

Lemma first_redir t : strchr (str "<>") (first t) = is_redir (kind t).
Proof.
  change (str "<>") with [60; 62]. unfold first, is_redir, strchr. destruct (Z.eqb_spec (kind t) 43) as [->|]; [done|]. simpl.
  rewrite orb_false_r. by destruct (kind t =? 60), (kind t =? 62).
Qed.
Lemma first_stops t : strchr (str "|)&;") (first t) = stops (kind t).
Proof. unfold first, stops. destruct (Z.eqb_spec (kind t) 43) as [->|]; done. Qed.
Lemma first_is c t : c <> 43 -> c <> 62 -> strchr [c] (first t) = (kind t =? c).
Proof.
  intros H1 H2. unfold first, strchr. cbn [existsb]. rewrite orb_false_r. destruct (Z.eqb_spec (kind t) 43) as [->|]; [|done].
  rewrite (proj2 (Z.eqb_neq 62 c)) by done. by rewrite (proj2 (Z.eqb_neq 43 c)).
Qed.
Lemma first_next c ts : c <> 43 -> c <> 62 -> match ts with t :: _ => strchr [c] (first t) | [] => false end = bool_decide (is_Some (next c ts)).
Proof.
  intros H1 H2. destruct ts as [|t ts]; simpl; [done|]. rewrite first_is by done. destruct t as [k q e]. simpl. by destruct (k =? c).
Qed.

Lemma lex_length r : forall n i w, (length r <= n)%nat -> (length (lex r i w) <= length r + match w with Some _ => 1 | None => 0 end)%nat.
Proof.
  intros n. revert r. induction n as [|n IH]; intros [|c r] i w Hn; simpl in *; [by destruct w|lia|by destruct w|].
  assert (Hf : length (flush w i) = match w with Some _ => 1%nat | None => 0%nat end) by (by destruct w).
  destruct (strchr whitespace c); [rewrite length_app; pose proof (IH r (S i) None ltac:(lia)) as H; simpl in H; lia|].
  destruct (strchr symbols c); [|pose proof (IH r (S i) (Some (default i w)) ltac:(lia)) as H; simpl in H; lia].
  rewrite length_app. destruct r as [|d r]; [simpl; lia|]. destruct ((c =? 62) && (d =? 62)); cbn [length] in *.
  - pose proof (IH r (S (S i)) None ltac:(simpl in *; lia)) as H. simpl in H. lia.
  - pose proof (IH (d :: r) (S i) None ltac:(simpl in *; lia)) as H. cbn [length] in H. lia.
Qed.

Lemma T_length i : (length (T i) <= es - i)%nat.
Proof. unfold T. pose proof (lex_length (drop i l) _ i None (le_n _)). rewrite length_drop in *. lia. Qed.

Lemma lex_kind n : forall r i w, (length r <= n)%nat -> Forall (fun c => c <> 0) r -> Forall (fun t => kind t <> 0) (lex r i w).
Proof.
  induction n as [|n IH]; intros [|c r] i w Hn Hr; simpl in *; [by destruct w; repeat constructor|lia|by destruct w; repeat constructor|].
  assert (Hf : Forall (fun t => kind t <> 0) (flush w i)) by (destruct w; repeat constructor; simpl; lia). apply Forall_cons in Hr as [Hc Hr].
  destruct (strchr whitespace c); [apply Forall_app; split; [done|apply IH; [lia|done]]|].
  destruct (strchr symbols c); [|apply IH; [lia|done]]. apply Forall_app. split; [done|]. destruct r as [|d r]; [by repeat constructor|].
  destruct ((c =? 62) && (d =? 62)); (constructor; [done|]); apply IH; simpl in *; try lia; try done. by apply Forall_cons in Hr as [_ Hr].
Qed.

Lemma kind_nonzero i q e ts : T i = Tok 0 q e :: ts -> False.
Proof.
  unfold T. intros H. pose proof (lex_kind _ (drop i l) i None (le_n _) (Forall_drop _ _ _ Hl)) as Hk. rewrite H in Hk. by apply Forall_cons in Hk as [Hk _].
Qed.

Lemma r_file_of k w : r_file (redir_of k w) = w.
Proof. unfold redir_of. by destruct (k =? 60). Qed.

(** ** The functions of the parser *)

(** Position [j] is at the tokens [r], further on than [i]. *)
Definition moved (i j : nat) (r : list token) : Prop := (i <= j <= es)%nat /\ T j = r.

Lemma parseredirs_spec : forall fuel ts c i s, holds s -> (i <= es)%nat -> T i = ts -> (length ts < fuel)%nat -> (2 * length ts <= room s)%nat ->
  ref (parseredirs fuel c i es) (p_redirs ts)
    (fun '(rs, r) '(c', j) s' => holds s' /\ moved i j r /\ (length r <= length ts)%nat /\ grows None s s' /\ wraps (cmds s') c' c rs /\
       (room s + 2 * length r <= room s' + 2 * length ts)%nat) s.
Proof.
  induction fuel as [|fuel IH]; intros ts c i s Hb Hi HT Hf Hr; [lia|]. cbn [parseredirs].
  destruct (peek_spec s i (str "<>") Hb Hi ltac:(repeat constructor)) as (j & E & Hj & HTj). eapply ref_step; [exact E|]. cbv beta iota. rewrite HT in *.
  assert (Hstop : p_redirs ts = Some ([], ts) -> ref (ret (c, j)) (p_redirs ts)
    (fun '(rs, r) '(c', j) s' => holds s' /\ moved i j r /\ (length r <= length ts)%nat /\ grows None s s' /\ wraps (cmds s') c' c rs /\ (room s + 2 * length r <= room s' + 2 * length ts)%nat) s).
  { intros ->. apply ref_ret. split; [done|]. split; [done|]. split; [done|]. split; [apply grows_refl|]. split; [done|]. lia. }
  destruct ts as [|t ts]; [by apply Hstop|]. rewrite first_redir. destruct t as [k a b]. cbn [kind p_redirs] in *.
  destruct (is_redir k) eqn:Ek; [|by apply Hstop]. clear Hstop.
  pose proof (gettoken_spec s j Hb ltac:(lia)) as G1. rewrite HTj in G1. destruct G1 as (j1 & E1 & Hj1 & HT1). eapply ref_step; [exact E1|]. cbv beta iota.
  pose proof (gettoken_spec s j1 Hb ltac:(lia)) as G2. rewrite HT1 in G2. destruct ts as [|[k2 q e] ts].
  { destruct G2 as (q & e & E2 & _). eapply ref_step; [exact E2|]. done. }
  destruct G2 as (j2 & E2 & Hj2 & HT2). eapply ref_step; [exact E2|]. cbv beta iota. cbn [kind tq teq]. destruct (k2 =? 97); cbn [negb]; [|done].
  destruct (new_cmd_spec (REDIR c q e (r_mode (redir_of k (q, e))) (r_fd (redir_of k (q, e)))) s ltac:(simpl in *; lia)) as (s' & E3 & G3 & H3 & R3).
  assert (E3' : (if k =? 60 then redircmd c q e O_RDONLY 0 else if k =? 62 then redircmd c q e (Z.lor O_WRONLY O_CREATE) 1
    else if k =? 43 then redircmd c q e (Z.lor O_WRONLY O_CREATE) 1 else ret c) s = Ok (length (cmds s), s')).
  { rewrite <- E3. unfold redircmd, redir_of, is_redir in *. destruct (k =? 60); [done|]. destruct (k =? 62); [done|]. by destruct (k =? 43). }
  eapply ref_step; [exact E3'|]. assert (Hb' : holds s') by (unfold holds; rewrite (g_buf _ _ _ G3); exact Hb). simpl in Hf, Hr.
  specialize (IH ts (length (cmds s)) j2 s' Hb' ltac:(lia) HT2 ltac:(lia) ltac:(lia)).
  unfold ref in *. destruct (parseredirs fuel (length (cmds s)) j2 es s') as [[[c' j'] s'']|f].
  - destruct IH as ([rs r] & Ep & Hb'' & [Hm1 Hm2] & Hlr & G & Hw & Hroom). rewrite Ep. simpl. eexists (_ :: rs, r). split; [done|].
    split; [done|]. split; [split; [lia|done]|]. split; [simpl; lia|]. split; [exact (grows_trans _ _ _ _ G3 G)|]. split; [|simpl; lia].
    exists (length (cmds s)). split; [|done]. rewrite r_file_of. by apply (g_old _ _ _ G).
  - destruct f; try done. by rewrite IH.
Qed.

Lemma pad_insert a q : (length a < MAXARGS)%nat -> <[length a := Some q]> (pad a) = pad (a ++ [q]).
Proof.
  intros Ha. unfold pad. replace (length a) with (length (Some <$> a) + 0)%nat at 1 by (rewrite length_fmap; lia). rewrite insert_app_r, fmap_app, length_app.
  replace (MAXARGS - length a)%nat with (S (MAXARGS - (length a + length [q]))) by (simpl; lia). simpl. by rewrite <- app_assoc.
Qed.
Lemma pad_end a : (length a < MAXARGS)%nat -> <[length a := None]> (pad a) = pad a.
Proof.
  intros Ha. apply list_insert_id. unfold pad. rewrite lookup_app_r by (by rewrite length_fmap). rewrite length_fmap, Nat.sub_diag.
  by destruct (MAXARGS - length a)%nat eqn:E; [lia|].
Qed.

(** The arguments so far. *)
Definition has_args (s : st) (e : nat) (ws : list word) : Prop := cmds s !! e = Some (EXEC (pad (fst <$> ws)) (pad (snd <$> ws))).

Lemma has_args_grows s s' e ws : grows None s s' -> has_args s e ws -> has_args s' e ws.
Proof. intros G. by apply (g_old _ _ _ G). Qed.

Lemma set_arg_spec s e ws q eq : has_args s e ws -> (length ws < MAXARGS)%nat ->
  exists s', set_arg e (length ws) (Some q) (Some eq) s = Ok (tt, s') /\ grows (Some e) s s' /\ has_args s' e (ws ++ [(q, eq)]) /\ room s' = room s.
Proof.
  intros Ha Hw. unfold set_arg, bind, get. rewrite Ha, (proj2 (Nat.ltb_lt _ _)) by done. eexists. split; [done|]. split; [|split; [|done]].
  - split; simpl; [done| |by rewrite length_insert]. intros i x Hi Hx. rewrite list_lookup_insert_ne by congruence. done.
  - unfold has_args. simpl. rewrite list_lookup_insert_eq by (by eapply lookup_lt_Some). rewrite !fmap_app. simpl.
    rewrite <- !pad_insert by (by rewrite length_fmap). by rewrite !length_fmap.
Qed.

Lemma set_end_spec s e ws : has_args s e ws -> (length ws < MAXARGS)%nat -> set_arg e (length ws) None None s = Ok (tt, s).
Proof.
  intros Ha Hw. unfold set_arg, bind, get. rewrite Ha, (proj2 (Nat.ltb_lt _ _)) by done.
  replace (length ws) with (length (fst <$> ws)) at 1 by apply length_fmap. rewrite pad_end by (by rewrite length_fmap).
  replace (length ws) with (length (snd <$> ws)) by apply length_fmap. rewrite pad_end by (by rewrite length_fmap).
  unfold put. rewrite list_insert_id by done. by destruct s.
Qed.

Definition args_post (ts : list token) (i e c : nat) (ws0 : list word) (s : st) (x : list word * list redir * list token) (a : nat * nat * nat) (s' : st) : Prop :=
  let '(ws, rs, r) := x in let '(c', argc', j) := a in
  holds s' /\ moved i j r /\ (length r <= length ts)%nat /\ grows (Some e) s s' /\ argc' = length (ws0 ++ ws) /\ (argc' < MAXARGS)%nat /\
  has_args s' e (ws0 ++ ws) /\ wraps (cmds s') c' c rs /\ (room s + 2 * length r <= room s' + 2 * length ts)%nat.

Lemma has_args_not_redir s e ws : has_args s e ws -> forall c r f m d, cmds s !! e <> Some (REDIR c r f m d).
Proof. unfold has_args. congruence. Qed.

Lemma parse_args_spec : forall fuel fuel' ts e c i s ws0, holds s -> (i <= es)%nat -> T i = ts -> (length ts < fuel)%nat -> (length ts < fuel')%nat ->
  (2 * length ts <= room s)%nat -> has_args s e ws0 -> (length ws0 < MAXARGS)%nat ->
  ref (parse_args fuel e c (length ws0) i es) (p_args fuel' (length ws0) ts) (args_post ts i e c ws0 s) s.
Proof.
  induction fuel as [|fuel IH]; intros fuel' ts e c i s ws0 Hb Hi HT Hf Hf' Hr Ha Hw; [lia|]. destruct fuel' as [|fuel']; [lia|]. cbn [parse_args p_args].
  destruct (peek_spec s i (str "|)&;") Hb Hi ltac:(repeat constructor)) as (j & E & Hj & HTj). eapply ref_step; [exact E|]. cbv beta iota. rewrite HT in *.
  assert (Hend : forall j' r, moved i j' r -> r = ts -> ref (ret (c, length ws0, j')) (Some ([], [], r)) (args_post ts i e c ws0 s) s).
  { intros j' r Hm ->. apply ref_ret. unfold args_post. rewrite app_nil_r. split; [done|]. split; [done|]. split; [done|]. split; [apply grows_refl|].
    split; [done|]. split; [done|]. split; [done|]. split; [done|]. lia. }
  pose proof (gettoken_spec s j Hb ltac:(lia)) as G1. rewrite HTj in G1. destruct ts as [|[k q eq] ts].
  { destruct G1 as (q & eq & E1 & HTe). eapply ref_step; [exact E1|]. cbv beta iota. change (0 =? 0) with true. cbv iota. apply Hend; [|done]. split; [lia|done]. }
  rewrite first_stops. cbn [kind]. destruct (stops k) eqn:Ek; [apply Hend; [split; [lia|done]|done]|].
  destruct G1 as (j1 & E1 & Hj1 & HT1). eapply ref_step; [exact E1|]. cbv beta iota. cbn [kind tq teq].
  destruct (Z.eqb_spec k 97) as [->|Hk]; cbn [negb]; [|by destruct (Z.eqb_spec k 0) as [->|]; [exfalso; exact (kind_nonzero _ _ _ _ HT)|]].
  change (97 =? 0) with false. cbv iota. destruct (set_arg_spec s e ws0 q eq Ha Hw) as (s1 & E2 & G2 & Ha2 & R2). eapply ref_step; [exact E2|]. cbv beta iota zeta.
  destruct (Nat.leb_spec MAXARGS (S (length ws0))) as [Hmax|Hmax]; [done|].
  assert (Hb1 : holds s1) by (unfold holds; rewrite (g_buf _ _ _ G2); exact Hb). simpl in Hf, Hf', Hr. pose proof (T_length j1) as Hlen. rewrite HT1 in Hlen.
  eapply ref_bind; [apply (parseredirs_spec (S es) ts c j1 s1 Hb1 ltac:(lia) HT1); [lia|lia]|].
  intros [rs r] [c' j2] s2 (Hb2 & [Hj2 HT2] & Hlr & G3 & Hw3 & Hroom). assert (Hlw : length (ws0 ++ [(q, eq)]) = S (length ws0)) by (rewrite length_app; simpl; lia).
  rewrite <- Hlw. specialize (IH fuel' r e c' j2 s2 (ws0 ++ [(q, eq)]) Hb2 ltac:(lia) HT2 ltac:(lia) ltac:(lia) ltac:(lia) (has_args_grows _ _ _ _ G3 Ha2) ltac:(lia)).
  unfold ref in *. destruct (parse_args fuel e c' (length (ws0 ++ [(q, eq)])) j2 es s2) as [[[[c'' argc''] j''] s'']|f]; [|destruct f; try done; by rewrite IH].
  destruct IH as ([[ws rs'] r'] & -> & Hb'' & [Hj'' HT''] & Hlr' & G'' & -> & Hm'' & Ha'' & Hw'' & Hroom''). simpl. eexists (_, _, _). split; [done|].
  rewrite <- app_assoc in *. split; [done|]. split; [split; [lia|done]|]. split; [simpl; lia|]. split; [exact (grows_trans _ _ _ _ G2 (grows_trans _ _ _ _ (grows_weaken _ _ _ G3) G''))|].
  split; [done|]. split; [done|]. split; [done|]. split; [|simpl; lia]. eapply wraps_app; [|exact Hw''].
  eapply wraps_grows; [exact G''|apply (has_args_not_redir _ _ _ (has_args_grows _ _ _ _ G3 Ha2))|done].
Qed.

Lemma parse_back_spec : forall fuel ts c i s, holds s -> (i <= es)%nat -> T i = ts -> (length ts < fuel)%nat -> (2 * length ts <= room s)%nat ->
  exists c' j s', parse_back fuel c i es s = Ok (c', j, s') /\ let '(n, r) := p_back ts in
    holds s' /\ moved i j r /\ grows None s s' /\ (forall t, rep (cmds s) c t -> rep (cmds s') c' (Nat.iter n TBack t)) /\
    (length r + n = length ts)%nat /\ (room s = room s' + n)%nat.
Proof.
  induction fuel as [|fuel IH]; intros ts c i s Hb Hi HT Hf Hr; [lia|]. cbn [parse_back].
  destruct (peek_spec s i (str "&") Hb Hi ltac:(repeat constructor)) as (j & E & Hj & HTj). erewrite bind_ok; [|exact E]. cbv beta iota. rewrite HT in *.
  destruct ts as [|t ts]; [exists c, j, s; split; [done|]; simpl; split; [done|]; split; [done|]; split; [apply grows_refl|]; split; [done|]; lia|].
  change (str "&") with [38]. rewrite first_is by done. destruct t as [k q e]. cbn [kind p_back]. destruct (k =? 38).
  - pose proof (gettoken_spec s j Hb ltac:(lia)) as G1. rewrite HTj in G1. destruct G1 as (j1 & E1 & Hj1 & HT1). erewrite bind_ok; [|exact E1]. cbv beta iota.
    destruct (new_cmd_spec (BACK c) s ltac:(simpl in *; lia)) as (s1 & E2 & G2 & H2 & R2). erewrite bind_ok; [|exact E2].
    assert (Hb1 : holds s1) by (unfold holds; rewrite (g_buf _ _ _ G2); exact Hb). simpl in Hf, Hr.
    destruct (IH ts (length (cmds s)) j1 s1 Hb1 ltac:(lia) HT1 ltac:(lia) ltac:(lia)) as (c' & j' & s' & E' & H'). exists c', j', s'. split; [exact E'|].
    destruct (p_back ts) as [n r]. destruct H' as (Hb' & [Hj' HT'] & G' & Hrep & Hl' & Hr'). split; [done|]. split; [split; [lia|done]|].
    split; [exact (grows_trans _ _ _ _ G2 G')|]. split; [|simpl; lia]. intros t Ht. rewrite Nat.iter_succ_r. apply Hrep. simpl. exists c.
    split; [done|]. by eapply rep_grows.
  - exists c, j, s. split; [done|]. split; [done|]. split; [done|]. split; [apply grows_refl|]. split; [done|]. lia.
Qed.

Lemma next_some c ts r : next c ts = Some r -> exists q e, ts = Tok c q e :: r.
Proof. destruct ts as [|[k q e] ts]; simpl; [done|]. destruct (Z.eqb_spec k c) as [->|]; [|done]. intros [= ->]. by exists q, e. Qed.

(** One symbol: peek, and gettoken if it is there. *)
Lemma ref_next {X C} c (k : bool * nat -> M st C) (o : option X) Q s i ts :
  holds s -> (i <= es)%nat -> T i = ts -> strchr symbols c = true -> c <> 43 -> c <> 62 ->
  match next c ts with
  | None => forall j, moved i j ts -> ref (k (false, j)) o Q s
  | Some r => forall j j', moved i j ts -> moved j j' r -> (length ts = S (length r))%nat -> gettoken j es s = Ok (c, tq (hd (Tok 0 0 0) ts), teq (hd (Tok 0 0 0) ts), j', s) -> ref (k (true, j)) o Q s
  end -> ref (bind (peek i es [c]) k) o Q s.
Proof.
  intros Hb Hi HT Hc H43 H62 Hk. destruct (peek_spec s i [c] Hb Hi ltac:(by repeat constructor)) as (j & E & Hj & HTj). rewrite HT in *.
  rewrite first_next in E by done. eapply ref_step; [exact E|]. destruct (next c ts) as [r|] eqn:En.
  - rewrite bool_decide_true by done. destruct (next_some _ _ _ En) as (q & e & ->). pose proof (gettoken_spec s j Hb ltac:(lia)) as G1. rewrite HTj in G1.
    destruct G1 as (j1 & E1 & Hj1 & HT1). apply (Hk j j1); [by split|split; [lia|done]|done|exact E1].
  - rewrite bool_decide_false by (by intros [? ?]). apply Hk. by split.
Qed.

Definition tree_post (ts : list token) (i : nat) (s : st) (x : tree * list token) (a : nat * nat) (s' : st) : Prop :=
  let '(t, r) := x in let '(c, j) := a in
  holds s' /\ moved i j r /\ (length r <= length ts)%nat /\ grows None s s' /\ rep (cmds s') c t /\ (room s + 2 * length r <= room s' + 2 * length ts + 1)%nat.

(** What a function of the parser does, given its fuel. *)
Definition runs (m : nat -> M st (nat * nat)) (f : list token -> option (tree * list token)) (k fuel : nat) : Prop :=
  forall ts i s, holds s -> (i <= es)%nat -> T i = ts -> (2 * length ts + 1 <= room s)%nat -> (4 * length ts + k <= fuel)%nat ->
    ref (m i) (f ts) (tree_post ts i s) s.

Lemma line_step fuel : runs (fun i => parsepipe fuel i es) (p_pipe fuel) 3 fuel -> runs (fun i => parseline fuel i es) (p_line fuel) 4 fuel ->
  runs (fun i => parseline (S fuel) i es) (p_line (S fuel)) 4 (S fuel).
Proof.
  intros HP HL ts i s Hb Hi HT Hr Hf. cbn [parseline p_line]. eapply ref_bind; [apply (HP ts i s Hb Hi HT Hr); lia|].
  intros [t r] [c j] s1 (Hb1 & [Hj HTj] & Hlr & G1 & Hrep & Hr1). pose proof (T_length j) as Hlen. rewrite HTj in Hlen.
  destruct (parse_back_spec (S es) r c j s1 Hb1 ltac:(lia) HTj ltac:(lia) ltac:(lia)) as (c2 & j2 & s2 & E2 & H2). eapply ref_step; [exact E2|]. cbv beta iota.
  destruct (p_back r) as [n r2]. destruct H2 as (Hb2 & [Hj2 HT2] & G2 & Hrep2 & Hl2 & Hr2). specialize (Hrep2 t Hrep).
  apply (ref_next 59 _ _ _ s2 j2 r2 Hb2 ltac:(lia) HT2 eq_refl ltac:(lia) ltac:(lia)). destruct (next 59 r2) as [r3|].
  - intros j3 j4 [Hj3 HT3] [Hj4 HT4] Hl3 E3. cbv beta iota. eapply ref_step; [exact E3|]. cbv beta iota.
    eapply ref_bind; [apply (HL r3 j4 s2 Hb2 ltac:(lia) HT4); lia|].
    intros [t' r'] [c5 j5] s5 (Hb5 & [Hj5 HT5] & Hl5 & G5 & Hrep5 & Hr5).
    destruct (new_cmd_spec (LIST c2 c5) s5 ltac:(lia)) as (s6 & E6 & G6 & H6 & R6). eapply ref_step; [exact E6|]. apply ref_ret.
    split; [unfold holds; by rewrite (g_buf _ _ _ G6)|]. split; [split; [lia|done]|]. split; [lia|].
    split; [exact (grows_trans _ _ _ _ G1 (grows_trans _ _ _ _ G2 (grows_trans _ _ _ _ G5 G6)))|]. split; [|lia].
    simpl. exists c2, c5. split; [done|]. split; [eapply rep_grows; [exact G6|]; by eapply rep_grows|by eapply rep_grows].
  - intros j3 [Hj3 HT3]. cbv beta iota. apply ref_ret. split; [done|]. split; [split; [lia|done]|]. split; [lia|].
    split; [exact (grows_trans _ _ _ _ G1 G2)|]. split; [done|lia].
Qed.

Lemma pipe_step fuel : runs (fun i => parseexec fuel i es) (p_exec fuel) 2 fuel -> runs (fun i => parsepipe fuel i es) (p_pipe fuel) 3 fuel ->
  runs (fun i => parsepipe (S fuel) i es) (p_pipe (S fuel)) 3 (S fuel).
Proof.
  intros HE HP ts i s Hb Hi HT Hr Hf. cbn [parsepipe p_pipe]. eapply ref_bind; [apply (HE ts i s Hb Hi HT Hr); lia|].
  intros [t r] [c j] s1 (Hb1 & [Hj HTj] & Hlr & G1 & Hrep & Hr1).
  apply (ref_next 124 _ _ _ s1 j r Hb1 ltac:(lia) HTj eq_refl ltac:(lia) ltac:(lia)). destruct (next 124 r) as [r3|].
  - intros j3 j4 [Hj3 HT3] [Hj4 HT4] Hl3 E3. cbv beta iota. eapply ref_step; [exact E3|]. cbv beta iota.
    eapply ref_bind; [apply (HP r3 j4 s1 Hb1 ltac:(lia) HT4); lia|].
    intros [t' r'] [c5 j5] s5 (Hb5 & [Hj5 HT5] & Hl5 & G5 & Hrep5 & Hr5).
    destruct (new_cmd_spec (PIPE c c5) s5 ltac:(lia)) as (s6 & E6 & G6 & H6 & R6). eapply ref_step; [exact E6|]. apply ref_ret.
    split; [unfold holds; by rewrite (g_buf _ _ _ G6)|]. split; [split; [lia|done]|]. split; [lia|].
    split; [exact (grows_trans _ _ _ _ G1 (grows_trans _ _ _ _ G5 G6))|]. split; [|lia].
    simpl. exists c, c5. split; [done|]. split; [eapply rep_grows; [exact G6|]; by eapply rep_grows|by eapply rep_grows].
  - intros j3 [Hj3 HT3]. cbv beta iota. apply ref_ret. split; [done|]. split; [split; [lia|done]|]. split; [lia|]. split; [done|]. split; [done|lia].
Qed.

Lemma block_step fuel : runs (fun i => parseline fuel i es) (p_line fuel) 4 fuel ->
  forall ts i s, holds s -> (i <= es)%nat -> T i = ts -> (2 * length ts + 1 <= room s)%nat -> (4 * length ts + 1 <= S fuel)%nat -> is_Some (next 40 ts) ->
    ref (parseblock (S fuel) i es) (p_block (S fuel) ts) (tree_post ts i s) s.
Proof.
  intros HL ts i s Hb Hi HT Hr Hf Ho. cbn [parseblock p_block]. apply (ref_next 40 _ _ _ s i ts Hb Hi HT eq_refl ltac:(lia) ltac:(lia)).
  destruct (next 40 ts) as [r|] eqn:En; [|by destruct Ho]. intros j j' [Hj HTj] [Hj' HT'] Hl1 E1. cbv beta iota. cbn [negb]. eapply ref_step; [exact E1|]. cbv beta iota. simpl mbind.
  eapply ref_bind; [apply (HL r j' s Hb ltac:(lia) HT'); lia|]. intros [t r2] [c j2] s2 (Hb2 & [Hj2 HT2] & Hl2 & G2 & Hrep & Hr2).
  apply (ref_next 41 _ _ _ s2 j2 r2 Hb2 ltac:(lia) HT2 eq_refl ltac:(lia) ltac:(lia)). destruct (next 41 r2) as [r3|]; [|done].
  intros j3 j4 [Hj3 HT3] [Hj4 HT4] Hl3 E3. cbv beta iota. cbn [negb]. eapply ref_step; [exact E3|]. cbv beta iota. simpl mbind.
  pose proof (T_length j4) as Hlen. rewrite HT4 in Hlen. pose proof (parseredirs_spec (S es) r3 c j4 s2 Hb2 ltac:(lia) HT4 ltac:(lia) ltac:(lia)) as HR.
  unfold ref in *. destruct (parseredirs (S es) c j4 es s2) as [[[c' j5] s5]|f]; [|destruct f; try done; by rewrite HR].
  destruct HR as ([rs r5] & -> & Hb5 & [Hj5 HT5] & Hl5 & G5 & Hw & Hr5). simpl. eexists (_, _). split; [done|]. split; [done|]. split; [split; [lia|done]|]. split; [lia|].
  split; [exact (grows_trans _ _ _ _ G2 G5)|]. split; [|lia]. eapply rep_wraps; [|exact Hw]. by eapply rep_grows.
Qed.

Lemma exec_step fuel :
  (forall ts i s, holds s -> (i <= es)%nat -> T i = ts -> (2 * length ts + 1 <= room s)%nat -> (4 * length ts + 1 <= fuel)%nat -> is_Some (next 40 ts) ->
    ref (parseblock fuel i es) (p_block fuel ts) (tree_post ts i s) s) ->
  runs (fun i => parseexec (S fuel) i es) (p_exec (S fuel)) 2 (S fuel).
Proof.
  intros HB ts i s Hb Hi HT Hr Hf. cbn [parseexec p_exec]. apply (ref_next 40 _ _ _ s i ts Hb Hi HT eq_refl ltac:(lia) ltac:(lia)).
  destruct (next 40 ts) as [r|] eqn:En.
  - intros j j' [Hj HTj] _ _ _. cbv beta iota. eapply ref_mono; [apply (HB ts j s Hb ltac:(lia) HTj Hr ltac:(lia)); by rewrite En|].
    intros [t r'] [c j2] s' (? & [? ?] & ?). split; [done|]. split; [split; [lia|done]|done].
  - intros j [Hj HTj]. cbv beta iota. destruct (new_cmd_spec (EXEC (replicate MAXARGS None) (replicate MAXARGS None)) s ltac:(lia)) as (s1 & E1 & G1 & H1 & R1).
    eapply ref_step; [exact E1|]. set (e := length (cmds s)) in *. assert (Hb1 : holds s1) by (unfold holds; rewrite (g_buf _ _ _ G1); exact Hb).
    pose proof (T_length j) as Hlen. rewrite HTj in Hlen.
    eapply ref_bind; [apply (parseredirs_spec (S es) ts e j s1 Hb1 ltac:(lia) HTj); lia|].
    intros [rs r] [c j2] s2 (Hb2 & [Hj2 HT2] & Hl2 & G2 & Hw2 & Hr2). assert (Ha2 : has_args s2 e []) by (apply (g_old _ _ _ G2); [done|exact H1]).
    eapply ref_bind; [apply (parse_args_spec (S es) (S (length r)) r e c j2 s2 [] Hb2 ltac:(lia) HT2 ltac:(lia) ltac:(lia) ltac:(lia) Ha2); unfold MAXARGS; simpl; lia|].
    intros [[ws rs'] r'] [[c' argc] j3] s3 (Hb3 & [Hj3 HT3] & Hl3 & G3 & -> & Hmax & Ha3 & Hw3 & Hr3). simpl app in *.
    eapply ref_step; [apply set_end_spec; [exact Ha3|exact Hmax]|]. apply ref_ret. split; [done|]. split; [split; [lia|done]|]. split; [lia|].
    assert (Hge : forall x, cmds s !! x <> None -> Some e <> Some x) by (intros x Hx [= <-]; apply Hx; by apply lookup_ge_None_2).
    split; [|split; [|lia]].
    + split; [rewrite (g_buf _ _ _ G3), (g_buf _ _ _ G2); apply G1| |pose proof (g_len _ _ _ G1); pose proof (g_len _ _ _ G2); pose proof (g_len _ _ _ G3); lia].
      intros x y _ Hx. apply (g_old _ _ _ G3); [apply Hge; congruence|]. apply (g_old _ _ _ G2); [done|]. by apply (g_old _ _ _ G1).
    + eapply rep_wraps; [simpl; split; [exact Hmax|exact Ha3]|]. eapply wraps_app; [|exact Hw3].
      eapply wraps_grows; [exact G3|apply (has_args_not_redir _ _ _ Ha2)|exact Hw2].
Qed.

Lemma parser_runs fuel :
  runs (fun i => parseline fuel i es) (p_line fuel) 4 fuel /\ runs (fun i => parsepipe fuel i es) (p_pipe fuel) 3 fuel /\
  runs (fun i => parseexec fuel i es) (p_exec fuel) 2 fuel /\
  (forall ts i s, holds s -> (i <= es)%nat -> T i = ts -> (2 * length ts + 1 <= room s)%nat -> (4 * length ts + 1 <= fuel)%nat -> is_Some (next 40 ts) ->
    ref (parseblock fuel i es) (p_block fuel ts) (tree_post ts i s) s).
Proof.
  induction fuel as [|fuel (IL & IP & IE & IB)]; [split; [|split; [|split]]; unfold runs; intros; lia|].
  split; [by apply line_step|]. split; [by apply pipe_step|]. split; [by apply exec_step|by apply block_step].
Qed.
End parse.
End ShParse.
