(* ===== verification/ShGrammar.v ===== *)
(** * ShGrammar: the xv6 shell parses its grammar

    The parser of token lists accepts exactly the lines of the grammar, with
    their trees; so the parser in memory, and the strings nulterminate leaves. *)
From stdpp Require Import base list strings.
From Stdlib Require Import ZArith Lia.
From S2P Require Import Prelude Cstr Sh ShParse.
Import Sh ShParse.

Module ShGrammar.

#[local] Arguments strchr : simpl never.

(** ** Soundness *)

Lemma p_redirs_sound n : forall ts rs r, (length ts <= n)%nat -> p_redirs ts = Some (rs, r) -> exists u, ts = u ++ r /\ items u [] rs.
Proof.
  induction n as [|n IH]; intros ts rs r Hn H; destruct ts as [|[k a b] ts]; simpl in *; try lia; try (injection H as <- <-; exists []; by repeat constructor).
  destruct (is_redir k) eqn:Ek; [|injection H as <- <-; exists []; by repeat constructor]. destruct ts as [|[k2 q e] ts]; [done|].
  destruct (Z.eqb_spec k2 97) as [->|]; [|done]. destruct (p_redirs ts) as [[rs' r']|] eqn:E; [|done]. injection H as <- <-.
  destruct (IH ts rs' r' ltac:(simpl in *; lia) E) as (u & -> & Hu). exists (Tok k a b :: Tok 97 q e :: u). split; [done|by constructor].
Qed.

Lemma items_app u1 rs1 u2 ws rs2 : items u1 [] rs1 -> items u2 ws rs2 -> items (u1 ++ u2) ws (rs1 ++ rs2).
Proof.
  intros H1 H2. remember (@nil word) as w eqn:E. induction H1 as [|q e u w' rs H IH|k q e a b u w' rs Hk H IH]; simpl; [exact H2|done|].
  constructor; [done|by apply IH].
Qed.

Lemma p_args_sound fuel : forall argc ts ws rs r, (argc < MAXARGS)%nat -> p_args fuel argc ts = Some (ws, rs, r) ->
  exists u, ts = u ++ r /\ items u ws rs /\ (argc + length ws < MAXARGS)%nat.
Proof.
  induction fuel as [|fuel IH]; intros argc ts ws rs r Ha H; [done|]. cbn [p_args] in H.
  destruct ts as [|[k q e] ts]; [injection H as <- <- <-; exists []; split; [done|split; [constructor|simpl; lia]]|].
  destruct (stops k); [injection H as <- <- <-; exists []; split; [done|split; [constructor|simpl; lia]]|].
  destruct (Z.eqb_spec k 97) as [->|]; [|done]. cbn [negb] in H. destruct (Nat.leb_spec MAXARGS (S argc)); [done|].
  destruct (p_redirs ts) as [[rs1 r1]|] eqn:E1; [|done]. simpl in H. destruct (p_args fuel (S argc) r1) as [[[ws2 rs2] r2]|] eqn:E2; [|done]. simpl in H. injection H as <- <- <-.
  destruct (p_redirs_sound _ _ _ _ (le_n _) E1) as (u1 & -> & H1). destruct (IH (S argc) _ _ _ _ ltac:(lia) E2) as (u2 & -> & H2 & Hl).
  exists (Tok 97 q e :: u1 ++ u2). split; [simpl; by rewrite <- app_assoc|]. split; [constructor; by apply items_app|simpl; lia].
Qed.

Lemma p_back_sound ts : let '(n, r) := p_back ts in exists bs, ts = bs ++ r /\ Forall (sym 38) bs /\ length bs = n.
Proof.
  induction ts as [|[k q e] ts IH]; simpl; [by exists []|]. destruct (Z.eqb_spec k 38) as [->|]; [|by exists []]. destruct (p_back ts) as [n r].
  destruct IH as (bs & -> & Hb & <-). exists (Tok 38 q e :: bs). split; [done|]. split; [by constructor|done].
Qed.

Lemma parser_sound fuel :
  (forall ts t r, p_line fuel ts = Some (t, r) -> exists u, ts = u ++ r /\ line_ u t) /\
  (forall ts t r, p_pipe fuel ts = Some (t, r) -> exists u, ts = u ++ r /\ pipe_ u t) /\
  (forall ts t r, p_exec fuel ts = Some (t, r) -> exists u, ts = u ++ r /\ exec_ u t) /\
  (forall ts t r, p_block fuel ts = Some (t, r) -> exists u, ts = u ++ r /\ exec_ u t).
Proof.
  induction fuel as [|fuel (IL & IP & IE & IB)]; [by repeat split|]. split; [|split; [|split]]; intros ts t r H; simpl in H.
  - destruct (p_pipe fuel ts) as [[t1 r1]|] eqn:E1; [|done]. simpl in H. destruct (IP _ _ _ E1) as (u1 & -> & H1).
    pose proof (p_back_sound r1) as Hb. destruct (p_back r1) as [n r2]. destruct Hb as (bs & -> & Hbs & <-). destruct (next 59 r2) as [r3|] eqn:En.
    + destruct (next_some _ _ _ En) as (q & e & ->). destruct (p_line fuel r3) as [[t' r']|] eqn:E2; [|done]. simpl in H. injection H as <- <-.
      destruct (IL _ _ _ E2) as (u2 & -> & H2). exists (u1 ++ bs ++ Tok 59 q e :: u2). split; [by rewrite <- !app_assoc|]. by constructor.
    + injection H as <- <-. exists (u1 ++ bs). split; [by rewrite <- app_assoc|by constructor].
  - destruct (p_exec fuel ts) as [[t1 r1]|] eqn:E1; [|done]. simpl in H. destruct (IE _ _ _ E1) as (u1 & -> & H1). destruct (next 124 r1) as [r3|] eqn:En.
    + destruct (next_some _ _ _ En) as (q & e & ->). destruct (p_pipe fuel r3) as [[t' r']|] eqn:E2; [|done]. simpl in H. injection H as <- <-.
      destruct (IP _ _ _ E2) as (u2 & -> & H2). exists (u1 ++ Tok 124 q e :: u2). split; [by rewrite <- !app_assoc|]. by constructor.
    + injection H as <- <-. exists u1. split; [done|by constructor].
  - destruct (next 40 ts); [by apply IB|]. destruct (p_redirs ts) as [[rs1 r1]|] eqn:E1; [|done]. simpl in H.
    destruct (p_args (S (length r1)) 0 r1) as [[[ws rs2] r2]|] eqn:E2; [|simpl in E2; by rewrite E2 in H]. simpl in E2. rewrite E2 in H. simpl in H. injection H as <- <-.
    destruct (p_redirs_sound _ _ _ _ (le_n _) E1) as (u1 & -> & H1). destruct (p_args_sound (S (length r1)) 0 _ _ _ _ ltac:(unfold MAXARGS; lia) E2) as (u2 & -> & H2 & Hl).
    exists (u1 ++ u2). split; [by rewrite <- app_assoc|]. constructor; [by apply items_app|lia].
  - destruct (next 40 ts) as [r1|] eqn:En; [|done]. simpl in H. destruct (next_some _ _ _ En) as (q & e & ->). destruct (p_line fuel r1) as [[t1 r2]|] eqn:E1; [|done]. simpl in H.
    destruct (IL _ _ _ E1) as (u1 & -> & H1). destruct (next 41 r2) as [r3|] eqn:En2; [|done]. simpl in H. destruct (next_some _ _ _ En2) as (q2 & e2 & ->).
    destruct (p_redirs r3) as [[rs r4]|] eqn:E3; [|done]. simpl in H. injection H as <- <-. destruct (p_redirs_sound _ _ _ _ (le_n _) E3) as (u2 & -> & H2).
    exists (Tok 40 q e :: u1 ++ Tok 41 q2 e2 :: u2). split; [simpl; by rewrite <- app_assoc|]. by constructor.
Qed.

(** ** Completeness *)

Definition follow (ks : list Z) (r : list token) : Prop := match r with [] => True | t :: _ => In (kind t) ks end.

Lemma stops_not k : stops k = true -> is_redir k = false /\ k <> 40 /\ k <> 97.
Proof. unfold stops. rewrite strchr_In. change (str "|)&;") with [124; 41; 38; 59]. simpl. unfold is_redir. lia. Qed.
Lemma follow_stops r : follow [124; 41; 38; 59] r -> match r with [] => True | t :: _ => stops (kind t) = true end.
Proof. destruct r as [|t r]; [done|]. simpl. intros H. unfold stops. apply strchr_In. change (str "|)&;") with [124; 41; 38; 59]. simpl. tauto. Qed.
Lemma follow_next c ks r : follow ks r -> ~ In c ks -> next c r = None.
Proof. destruct r as [|[k q e] r]; simpl; [done|]. intros H Hc. destruct (Z.eqb_spec k c) as [->|]; [done|done]. Qed.
Lemma follow_mono ks ks' r : (forall k, In k ks -> In k ks') -> follow ks r -> follow ks' r.
Proof. destruct r as [|t r]; simpl; auto. Qed.

Lemma p_items u ws rs : items u ws rs -> forall r argc, follow [124; 41; 38; 59] r -> (argc + length ws < MAXARGS)%nat ->
  exists rs1 rs2 r1, p_redirs (u ++ r) = Some (rs1, r1) /\ (length r1 <= length (u ++ r))%nat /\ rs = rs1 ++ rs2 /\
    forall fuel, (length r1 < fuel)%nat -> p_args fuel argc r1 = Some (ws, rs2, r).
Proof.
  induction 1 as [|q e u ws rs H IH|k q e a b u ws rs Hk H IH]; intros r argc Hr Hw; simpl in Hw.
  - apply follow_stops in Hr. exists [], [], r. simpl. split; [|split; [done|split; [done|]]].
    + destruct r as [|[k q e] r]; [done|]. simpl in *. destruct (stops_not k Hr) as [-> _]. done.
    + intros [|fuel] Hf; [lia|]. simpl. destruct r as [|[k q e] r]; [done|]. simpl in Hr. by rewrite Hr.
  - destruct (IH r (S argc) Hr ltac:(lia)) as (rs1 & rs2 & r1 & E1 & L1 & -> & E2). exists [], (rs1 ++ rs2), (Tok 97 q e :: u ++ r).
    split; [done|]. split; [done|]. split; [done|]. intros [|fuel] Hf; [lia|]. cbn [p_args]. change (stops 97) with false. change (97 =? 97) with true. cbn [negb]. rewrite (proj2 (Nat.leb_gt _ _)) by lia. simpl in Hf.
    rewrite E1. simpl. rewrite E2 by lia. done.
  - destruct (IH r argc Hr Hw) as (rs1 & rs2 & r1 & E1 & L1 & -> & E2). exists (redir_of k (q, e) :: rs1), rs2, r1. simpl. rewrite Hk, E1. simpl.
    split; [done|]. split; [lia|]. split; [done|exact E2].
Qed.

Lemma p_redirs_items u rs r : items u [] rs -> follow [124; 41; 38; 59] r -> p_redirs (u ++ r) = Some (rs, r).
Proof.
  intros H Hr. remember [] as ws eqn:E. induction H as [|q e u ws rs H IH|k q e a b u ws rs Hk H IH]; [|done|].
  - simpl. apply follow_stops in Hr. destruct r as [|[k q e] r]; [done|]. simpl in *. destruct (stops_not k Hr) as [-> _]. done.
  - simpl. by rewrite Hk, IH.
Qed.

Lemma items_next u ws rs r : items u ws rs -> follow [124; 41; 38; 59] r -> next 40 (u ++ r) = None.
Proof.
  intros [|q e u' ws' rs' _|k q e a b u' ws' rs' Hk _] Hr; simpl; [|done|].
  - apply (follow_next 40 _ _ Hr). simpl. lia.
  - unfold is_redir in Hk. destruct (Z.eqb_spec k 40) as [->|]; done.
Qed.

Lemma p_back_all bs r : Forall (sym 38) bs -> follow [41; 59] r -> p_back (bs ++ r) = (length bs, r).
Proof.
  intros Hb Hr. induction Hb as [|[k q e] bs Hk Hb IH]; simpl.
  - destruct r as [|[k q e] r]; [done|]. simpl in *. destruct (Z.eqb_spec k 38) as [->|]; [lia|done].
  - unfold sym in Hk. simpl in Hk. subst k. simpl. by rewrite IH.
Qed.

Scheme exec_mut := Minimality for exec_ Sort Prop
  with pipe_mut := Minimality for pipe_ Sort Prop
  with line_mut := Minimality for line_ Sort Prop.
Combined Scheme grammar_ind from exec_mut, pipe_mut, line_mut.

Definition done_exec (u : list token) (t : tree) : Prop :=
  forall r fuel, follow [124; 41; 38; 59] r -> (4 * length (u ++ r) + 2 <= fuel)%nat -> p_exec fuel (u ++ r) = Some (t, r).
Definition done_pipe (u : list token) (t : tree) : Prop :=
  forall r fuel, follow [41; 38; 59] r -> (4 * length (u ++ r) + 3 <= fuel)%nat -> p_pipe fuel (u ++ r) = Some (t, r).
Definition done_line (u : list token) (t : tree) : Prop :=
  forall r fuel, follow [41] r -> (4 * length (u ++ r) + 4 <= fuel)%nat -> p_line fuel (u ++ r) = Some (t, r).

Lemma pipe_back ts t bs r fuel : done_pipe ts t -> Forall (sym 38) bs -> follow [41; 59] r -> (4 * length (ts ++ bs ++ r) + 3 <= fuel)%nat ->
  p_pipe fuel (ts ++ bs ++ r) = Some (t, bs ++ r) /\ p_back (bs ++ r) = (length bs, r).
Proof.
  intros Hp Hb Hr Hf. split; [|by apply p_back_all]. apply Hp; [|done]. destruct Hb as [|b bs Hb _].
  - simpl. eapply follow_mono; [|exact Hr]. simpl. tauto.
  - unfold sym in Hb. simpl. rewrite Hb. tauto.
Qed.

Lemma parser_complete : (forall u t, exec_ u t -> done_exec u t) /\ (forall u t, pipe_ u t -> done_pipe u t) /\ (forall u t, line_ u t -> done_line u t).
Proof.
  apply grammar_ind.
  - intros ts ws rs Hi Hw r [|fuel] Hr Hf; [lia|]. simpl. rewrite (items_next _ _ _ _ Hi Hr).
    destruct (p_items _ _ _ Hi r 0 Hr ltac:(lia)) as (rs1 & rs2 & r1 & E1 & L1 & -> & E2). rewrite E1. simpl. specialize (E2 (S (length r1)) ltac:(lia)). simpl in E2. by rewrite E2.
  - intros [ko qo eo] [kc qc ec] ts t ts' rs Ho Hc _ IH Hi r [|[|fuel]] Hr Hf; [lia|lia|]. unfold sym in Ho, Hc. simpl in Ho, Hc. subst ko kc.
    simpl in Hf. rewrite <- app_assoc in *. simpl. rewrite <- app_assoc. simpl. rewrite (IH (Tok 41 qc ec :: ts' ++ r)); [|simpl; tauto|simpl in *; lia]. simpl.
    by rewrite (p_redirs_items ts' rs r Hi Hr).
  - intros ts t _ IH r [|fuel] Hr Hf; [lia|]. simpl. rewrite IH; [|eapply follow_mono; [|exact Hr]; simpl; tauto|lia]. simpl.
    by rewrite (follow_next 124 _ _ Hr) by (simpl; lia).
  - intros ts t [k q e] ts' t' _ IH1 Hb _ IH2 r [|fuel] Hr Hf; [lia|]. unfold sym in Hb. simpl in Hb. subst k. rewrite <- app_assoc in *. simpl in *.
    rewrite IH1; [|simpl; tauto|lia]. simpl. rewrite IH2; [done|done|rewrite length_app in Hf; simpl in Hf; lia].
  - intros ts t bs _ IH Hb r [|fuel] Hr Hf; [lia|]. rewrite <- app_assoc in *. simpl.
    destruct (pipe_back ts t bs r fuel IH Hb ltac:(eapply follow_mono; [|exact Hr]; simpl; tauto) ltac:(lia)) as [-> E]. simpl. rewrite E.
    by rewrite (follow_next 59 _ _ Hr) by (simpl; lia).
  - intros ts t bs [k q e] ts' t' _ IH1 Hb Hk _ IH2 r [|fuel] Hr Hf; [lia|]. unfold sym in Hk. simpl in Hk. subst k. rewrite <- !app_assoc in *. simpl app in *. simpl.
    destruct (pipe_back ts t bs (Tok 59 q e :: ts' ++ r) fuel IH1 Hb ltac:(simpl; tauto) ltac:(lia)) as [-> E]. simpl. rewrite E. simpl.
    rewrite IH2; [done|done|]. rewrite !length_app in Hf. simpl in Hf. rewrite length_app in *. lia.
Qed.

(** The parser of token lists decides the grammar. *)
Lemma p_line_iff ts t fuel : (4 * length ts + 4 <= fuel)%nat -> p_line fuel ts = Some (t, []) <-> line_ ts t.
Proof.
  intros Hf. split.
  - intros H. apply parser_sound in H as (u & -> & Hu). by rewrite app_nil_r.
  - intros H. apply parser_complete in H. specialize (H [] fuel I). rewrite app_nil_r in H. by apply H.
Qed.

(** ** Sizes and words *)

Fixpoint tsize (t : tree) : nat :=
  match t with
  | TExec _ => 1
  | TRedir t _ | TBack t => S (tsize t)
  | TPipe t u | TList t u => S (tsize t + tsize u)
  end.

Fixpoint words (t : tree) : list word :=
  match t with
  | TExec ws => ws
  | TRedir t r => words t ++ [r_file r]
  | TPipe t u | TList t u => words t ++ words u
  | TBack t => words t
  end.

Lemma wrap_snoc t rs r : wrap t (rs ++ [r]) = TRedir (wrap t rs) r.
Proof. unfold wrap. by rewrite foldl_app. Qed.
Lemma tsize_wrap t rs : tsize (wrap t rs) = (tsize t + length rs)%nat.
Proof. induction rs as [|r rs IH] using rev_ind; simpl; [lia|]. rewrite wrap_snoc, length_app. simpl. lia. Qed.
Lemma words_wrap t rs : words (wrap t rs) = words t ++ (r_file <$> rs).
Proof. induction rs as [|r rs IH] using rev_ind; simpl; [by rewrite app_nil_r|]. rewrite wrap_snoc, fmap_app, app_assoc. simpl. by rewrite IH. Qed.
Lemma tsize_back n t : tsize (Nat.iter n TBack t) = (n + tsize t)%nat.
Proof. induction n; simpl; lia. Qed.
Lemma words_back n t : words (Nat.iter n TBack t) = words t.
Proof. induction n; simpl; done. Qed.

Lemma items_size ts ws rs : items ts ws rs -> (length ws + 2 * length rs)%nat = length ts.
Proof. induction 1; simpl; lia. Qed.

Lemma grammar_size : (forall u t, exec_ u t -> (tsize t <= 2 * length u + 1)%nat) /\ (forall u t, pipe_ u t -> (tsize t <= 2 * length u + 1)%nat) /\
  (forall u t, line_ u t -> (tsize t <= 2 * length u + 1)%nat).
Proof.
  apply grammar_ind; intros; simpl; rewrite ?length_app; cbn [length]; rewrite ?length_app, ?tsize_wrap, ?tsize_back; simpl;
    repeat match goal with H : items _ _ _ |- _ => apply items_size in H; simpl in H end; lia.
Qed.

(** The words of a tree are tokens. *)
Definition word_of (ts : list token) (w : word) : Prop := exists t, t ∈ ts /\ kind t = 97 /\ w = (tq t, teq t).

Lemma word_of_l ts ts' w : word_of ts w -> word_of (ts ++ ts') w.
Proof. intros (t & ? & ?). exists t. split; [apply elem_of_app; by left|done]. Qed.
Lemma word_of_r ts ts' w : word_of ts' w -> word_of (ts ++ ts') w.
Proof. intros (t & ? & ?). exists t. split; [apply elem_of_app; by right|done]. Qed.

Lemma items_words ts ws rs w : items ts ws rs -> w ∈ ws ++ (r_file <$> rs) -> word_of ts w.
Proof.
  induction 1 as [|q e ts ws rs H IH|k q e a b ts ws rs Hk H IH]; simpl; intros Hw; [by apply not_elem_of_nil in Hw| |].
  - apply elem_of_cons in Hw as [->|Hw]; [exists (Tok 97 q e); split; [by left|done]|]. apply (word_of_r [_]). by apply IH.
  - assert (Hin : w = (q, e) \/ w ∈ ws ++ (r_file <$> rs)).
    { apply elem_of_app in Hw as [Hw|Hw]; [right; apply elem_of_app; by left|]. rewrite r_file_of in Hw. apply elem_of_cons in Hw as [->|Hw]; [by left|]. right. apply elem_of_app. by right. }
    destruct Hin as [->|Hw']; [exists (Tok 97 q e); split; [by right; left|done]|]. apply (word_of_r [_; _]). by apply IH.
Qed.

Lemma grammar_words : (forall u t, exec_ u t -> Forall (word_of u) (words t)) /\ (forall u t, pipe_ u t -> Forall (word_of u) (words t)) /\
  (forall u t, line_ u t -> Forall (word_of u) (words t)).
Proof.
  apply grammar_ind; simpl.
  - intros ts ws rs Hi _. rewrite words_wrap. simpl. apply Forall_forall. intros w Hw. by eapply items_words.
  - intros o c ts t ts' rs _ _ _ IH Hi. rewrite words_wrap. apply Forall_app. split.
    + eapply Forall_impl; [exact IH|]. intros w Hw. apply (word_of_r [_]), word_of_l, Hw.
    + apply Forall_forall. intros w Hw. apply (word_of_r (o :: ts) (c :: ts')), (word_of_r [c]). by eapply items_words.
  - done.
  - intros ts t b ts' t' _ IH1 _ _ IH2. apply Forall_app. split; [eapply Forall_impl; [exact IH1|]; intros w; apply word_of_l|].
    eapply Forall_impl; [exact IH2|]. intros w Hw. apply word_of_r, (word_of_r [b]), Hw.
  - intros ts t bs _ IH _. rewrite words_back. eapply Forall_impl; [exact IH|]. intros w. apply word_of_l.
  - intros ts t bs b ts' t' _ IH1 _ _ _ IH2. rewrite words_back. apply Forall_app. split; [eapply Forall_impl; [exact IH1|]; intros w; apply word_of_l|].
    eapply Forall_impl; [exact IH2|]. intros w Hw. apply word_of_r, word_of_r, (word_of_r [b]), Hw.
Qed.

(** A word of the line: plain characters, up to one that is not. *)
Record is_word (l : list Z) (q e : nat) : Prop := {
  iw_range : (q < e <= length l)%nat;
  iw_plain k c : (q <= k < e)%nat -> l !! k = Some c -> plain c = true;
  iw_end c : l !! e = Some c -> plain c = false
}.

Lemma lex_words n : forall pre r w, (length r <= n)%nat ->
  (forall q, w = Some q -> (q < length pre)%nat /\ forall k c, (q <= k)%nat -> pre !! k = Some c -> plain c = true) ->
  Forall (fun t => kind t = 97 -> is_word (pre ++ r) (tq t) (teq t)) (lex r (length pre) w).
Proof.
  induction n as [|n IH]; intros pre [|c r] w Hn Hw; cbn [length] in Hn; try lia.
  1,2: rewrite app_nil_r; destruct w as [q|]; simpl; [|constructor]; destruct (Hw q eq_refl) as [Hq Hp]; constructor; [|constructor]; intros _; simpl;
    split; [lia|intros k c Hk; apply Hp; lia|intros c Hc; apply lookup_lt_Some in Hc; lia].
  assert (Hpre : forall a x, pre ++ a :: x = (pre ++ [a]) ++ x) by (intros; by rewrite <- app_assoc).
  assert (Hlen : forall a, length (pre ++ [a]) = S (length pre)) by (intros; rewrite length_app; simpl; lia).
  assert (Hflush : plain c = false -> Forall (fun t => kind t = 97 -> is_word (pre ++ c :: r) (tq t) (teq t)) (flush w (length pre))).
  { intros Hc. destruct w as [q|]; simpl; [|constructor]. destruct (Hw q eq_refl) as [Hq Hp]. constructor; [|constructor]. intros _. simpl.
    split; [rewrite length_app; simpl; lia|intros k d Hk; rewrite lookup_app_l by lia; apply Hp; lia|].
    intros d. rewrite lookup_app_r, Nat.sub_diag by done. by intros [= <-]. }
  cbn [lex]. unfold plain in Hflush. destruct (strchr whitespace c) eqn:Ew.
  { apply Forall_app. split; [by apply Hflush|]. rewrite Hpre, <- (Hlen c). apply IH; [lia|done]. }
  destruct (strchr symbols c) eqn:Es.
  - apply Forall_app. split; [by apply Hflush|]. assert (Hc : c <> 97) by (by intros ->). destruct r as [|d r]; [by repeat constructor|].
    destruct ((c =? 62) && (d =? 62)).
    + constructor; [done|]. rewrite Hpre, (app_assoc _ [d] r : (pre ++ [c]) ++ d :: r = _).
      replace (S (S (length pre))) with (length ((pre ++ [c]) ++ [d])) by (rewrite !length_app; simpl; lia). apply IH; [simpl in *; lia|done].
    + constructor; [done|]. rewrite Hpre, <- (Hlen c). apply IH; [simpl in *; lia|done].
  - rewrite Hpre, <- (Hlen c). apply IH; [lia|]. intros q [= <-]. rewrite Hlen. destruct w as [q|]; simpl.
    + destruct (Hw q eq_refl) as [Hq Hp]. split; [lia|]. intros k d Hk Hd. apply lookup_snoc_Some in Hd as [[? Hd]|[_ <-]]; [by eapply Hp|]. unfold plain. by rewrite Ew, Es.
    + split; [lia|]. intros k d Hk Hd. apply lookup_snoc_Some in Hd as [[? _]|[_ <-]]; [lia|]. unfold plain. by rewrite Ew, Es.
Qed.

(** ** nulterminate *)

Definition zero (b : list Z) (es : list nat) : list Z := foldl (fun b e => <[e := 0]> b) b es.

Lemma length_zero es : forall b, length (zero b es) = length b.
Proof. induction es as [|e es IH]; intros b; simpl; [done|]. by rewrite IH, length_insert. Qed.
Lemma zero_app b es es' : zero b (es ++ es') = zero (zero b es) es'.
Proof. apply foldl_app. Qed.
Lemma zero_other es : forall b k, k ∉ es -> zero b es !! k = b !! k.
Proof. induction es as [|e es IH]; intros b k Hk; simpl; [done|]. apply not_elem_of_cons in Hk as [? ?]. rewrite IH by done. by rewrite list_lookup_insert_ne. Qed.
Lemma zero_in es : forall b k, k ∈ es -> (k < length b)%nat -> zero b es !! k = Some 0.
Proof.
  induction es as [|e es IH] using rev_ind; intros b k Hk Hl; [by apply not_elem_of_nil in Hk|]. rewrite zero_app. simpl.
  destruct (decide (e = k)) as [->|Hne]; [apply list_lookup_insert_eq; by rewrite length_zero|]. rewrite list_lookup_insert_ne by done. apply IH; [|done].
  apply elem_of_app in Hk as [Hk|Hk]; [done|]. apply list_elem_of_singleton in Hk. congruence.
Qed.

Lemma wr_spec s e : (e < length (buf s))%nat -> wr e 0 s = Ok (tt, mk_st (zero (buf s) [e]) (cmds s) (room s)).
Proof. intros He. unfold wr, bind, get. by rewrite (proj2 (Nat.ltb_lt _ _)). Qed.

Lemma pad_lookup (f : word -> nat) ws1 w ws2 : pad (f <$> ws1 ++ w :: ws2) !! length ws1 = Some (Some (f w)).
Proof. unfold pad. rewrite fmap_app. simpl. rewrite fmap_app, <- app_assoc. rewrite lookup_app_r by (by rewrite !length_fmap). by rewrite !length_fmap, Nat.sub_diag. Qed.
Lemma pad_lookup_end (f : word -> nat) ws : (length ws < MAXARGS)%nat -> pad (f <$> ws) !! length ws = Some None.
Proof. intros Hw. unfold pad. rewrite lookup_app_r by (by rewrite !length_fmap). rewrite !length_fmap, Nat.sub_diag. destruct (MAXARGS - length ws)%nat eqn:E; [lia|done]. Qed.

Lemma end_args_spec ws2 : forall ws1 n s, (length (ws1 ++ ws2) < MAXARGS)%nat -> (length ws2 < n)%nat -> Forall (fun w => snd w < length (buf s))%nat ws2 ->
  end_args n (length ws1) (pad (fst <$> ws1 ++ ws2)) (pad (snd <$> ws1 ++ ws2)) s = Ok (tt, mk_st (zero (buf s) (snd <$> ws2)) (cmds s) (room s)).
Proof.
  induction ws2 as [|w ws2 IH]; intros ws1 [|n] s Hm Hn Hw; simpl in Hn; try lia; cbn [end_args].
  - rewrite app_nil_r in *. rewrite pad_lookup_end by done. by destruct s.
  - rewrite !pad_lookup. apply Forall_cons in Hw as [H1 Hw]. rewrite (bind_ok _ _ _ _ _ (wr_spec s (snd w) H1)).
    replace (S (length ws1)) with (length (ws1 ++ [w])) by (rewrite length_app; simpl; lia). rewrite (app_assoc ws1 [w] ws2 : ws1 ++ w :: ws2 = _) in *. rewrite IH; [done|done|lia|].
    simpl. eapply Forall_impl; [exact Hw|]. intros x Hx. simpl. by rewrite length_insert.
Qed.

Definition terminates (t : tree) : Prop := forall p s fuel, rep (cmds s) p t -> (tsize t < fuel)%nat ->
  Forall (fun w => snd w < length (buf s))%nat (words t) ->
  nulterminate fuel p s = Ok (tt, mk_st (zero (buf s) (snd <$> words t)) (cmds s) (room s)).

Lemma terminates_both t u a b s fuel : terminates t -> terminates u -> rep (cmds s) a t -> rep (cmds s) b u -> (S (tsize t + tsize u) < S fuel)%nat ->
  Forall (fun w => snd w < length (buf s))%nat (words t ++ words u) ->
  bind (nulterminate fuel a) (fun _ => nulterminate fuel b) s = Ok (tt, mk_st (zero (buf s) (snd <$> words t ++ words u)) (cmds s) (room s)).
Proof.
  intros IHt IHu Ha Hb Hf Hw. apply Forall_app in Hw as [Hw1 Hw2]. rewrite (bind_ok _ _ _ _ _ (IHt a s fuel Ha ltac:(lia) Hw1)).
  rewrite IHu; simpl; [by rewrite fmap_app, zero_app|done|lia|]. eapply Forall_impl; [exact Hw2|]. intros w Hl. simpl. by rewrite length_zero.
Qed.

Lemma nulterminate_spec t : terminates t.
Proof.
  induction t as [ws|t IH r|t IHt u IHu|t IHt u IHu|t IH]; intros p s [|fuel] Hr Hf Hw; simpl in Hf; try lia; cbn [nulterminate]; unfold get, bind at 1; simpl in Hr.
  - destruct Hr as [Hl Hp]. unfold bind, of_option. rewrite Hp. apply (end_args_spec ws [] (S MAXARGS) s Hl); [exact (Nat.lt_lt_succ_r _ _ Hl)|exact Hw].
  - destruct Hr as (c & Hp & Hc). unfold bind at 1, of_option. rewrite Hp. simpl in Hw |- *. apply Forall_app in Hw as [Hw1 Hw2].
    rewrite (bind_ok _ _ _ _ _ (IH c s fuel Hc ltac:(lia) Hw1)). rewrite wr_spec; simpl; [by rewrite fmap_app, zero_app|]. rewrite length_zero. by apply Forall_cons in Hw2 as [Hw2 _].
  - destruct Hr as (a & b & Hp & Ha & Hb). unfold bind at 1, of_option. rewrite Hp. by apply terminates_both.
  - destruct Hr as (a & b & Hp & Ha & Hb). unfold bind at 1, of_option. rewrite Hp. by apply terminates_both.
  - destruct Hr as (c & Hp & Hc). unfold bind at 1, of_option. rewrite Hp. simpl in Hw |- *. apply IH; [done|lia|done].
Qed.

(** ** parsecmd *)

(** The characters up to the next zero. *)
Fixpoint upto_nul (b : list Z) : list Z :=
  match b with
  | [] => []
  | c :: b => if c =? 0 then [] else c :: upto_nul b
  end.
Definition string_at (b : list Z) (q : nat) : list Z := upto_nul (drop q b).
Definition text (l : list Z) (w : word) : list Z := take (snd w - fst w) (drop (fst w) l).

Lemma upto_nul_app a b : Forall (fun c => c <> 0) a -> upto_nul (a ++ 0 :: b) = a.
Proof. induction 1 as [|c a Hc Ha IH]; simpl; [done|]. rewrite (proj2 (Z.eqb_neq _ _)) by done. by rewrite IH. Qed.

(** Zeros at the ends of words do not touch words. *)
Lemma string_at_zero l z es q e : Forall (fun c => c <> 0) l -> is_word l q e -> e ∈ es ->
  (forall e', e' ∈ es -> exists q', is_word l q' e') -> string_at (zero (l ++ 0 :: z) es) q = text l (q, e).
Proof.
  intros Hl [Hr Hp _] He Hes. unfold string_at, text. simpl. set (b := zero (l ++ 0 :: z) es).
  assert (Hlen : length b = (length l + S (length z))%nat) by (unfold b; rewrite length_zero, length_app; done).
  assert (Hk : forall k, (q <= k < e)%nat -> b !! k = l !! k).
  { intros k Hk. unfold b. rewrite zero_other; [by rewrite lookup_app_l by lia|]. intros Hin. destruct (Hes k Hin) as [q' W]. destruct (lookup_lt_is_Some_2 l k) as [c Hc]; [lia|].
    pose proof (iw_end _ _ _ W c Hc). pose proof (Hp k c Hk Hc). congruence. }
  assert (He0 : b !! e = Some 0) by (apply zero_in; [done|rewrite length_app; simpl; lia]).
  assert (Hd : drop q b = take (e - q) (drop q l) ++ 0 :: drop (S e) b).
  { rewrite <- (take_drop (e - q) (drop q b)). rewrite drop_drop. replace (q + (e - q))%nat with e by lia. rewrite (drop_S _ _ _ He0). f_equal.
    apply list_eq. intros k. destruct (decide (k < e - q)%nat); [|by rewrite !lookup_take_ge by lia]. rewrite !lookup_take_lt, !lookup_drop by done. apply Hk. lia. }
  rewrite Hd. apply upto_nul_app. by apply Forall_take, Forall_drop.
Qed.

Lemma strlen_spec l z s : Forall (fun c => c <> 0) l -> buf s = l ++ 0 :: z -> forall n i, (i <= length l)%nat -> (n = length (buf s) - i)%nat -> strlen n i s = Ok ((length l - i)%nat, s).
Proof.
  intros Hl Hb. assert (Hlen : length (buf s) = (length l + S (length z))%nat) by (rewrite Hb, length_app; done).
  induction n as [|n IH]; intros i Hi Hn; [lia|]. simpl. rewrite (bind_ok _ _ _ _ _ (rd_spec l z s i Hb Hi)). destruct (decide (i = length l)) as [->|Hne].
  - rewrite drop_all. simpl. by rewrite Nat.sub_diag.
  - destruct (lookup_lt_is_Some_2 l i) as [c Hc]; [lia|]. rewrite (drop_S _ _ _ Hc). simpl. rewrite (proj2 (Z.eqb_neq _ _)) by (exact (Forall_lookup_1 _ _ _ _ Hl Hc)).
    rewrite (bind_ok _ _ _ _ _ (IH (S i) ltac:(lia) ltac:(lia))). unfold ret. do 2 f_equal. lia.
Qed.

(** The end of parsecmd: nothing but white space may be left. *)
Lemma last_peek l z s j : Forall (fun c => c <> 0) l -> holds l z s -> (j <= length l)%nat ->
  exists b j', peek j (length l) [] s = Ok (b, j', s) /\ (j' =? length l)%nat = bool_decide (T l j = []).
Proof.
  intros Hl Hb Hj. destruct (skip_white l z s j Hb Hj) as (j' & E & Hj' & HT & Hw). unfold peek. rewrite (bind_ok _ _ _ _ _ E), (bind_ok _ _ _ _ _ (rd_spec l z s j' Hb ltac:(lia))).
  eexists _, j'. split; [done|]. rewrite <- HT. pose proof (T_first l j' ltac:(lia) Hw) as Hf. destruct (Nat.eqb_spec j' (length l)) as [->|Hne].
  - rewrite drop_all in Hf. by rewrite Hf.
  - destruct (drop j' l) as [|c r] eqn:Ed; [apply (f_equal length) in Ed; rewrite length_drop in Ed; simpl in Ed; lia|]. destruct Hf as (t & ts & -> & _). done.
Qed.

Lemma line_unique ts t t' : line_ ts t -> line_ ts t' -> t = t'.
Proof. intros H H'. apply (p_line_iff ts t _ (le_n _)) in H. apply (p_line_iff ts t' _ (le_n _)) in H'. congruence. Qed.

Lemma parsecmd_spec l z s : Forall (fun c => c <> 0) l -> buf s = l ++ 0 :: z -> (2 * length l + 1 <= room s)%nat ->
  match parsecmd 0 s with
  | Ok (p, s') => exists t, (forall t', line_ (lex l 0 None) t' <-> t' = t) /\ rep (cmds s') p t /\ length (buf s') = length (buf s) /\
      Forall (fun w => string_at (buf s') (fst w) = text l w) (words t)
  | Err (Panic _) => forall t, ~ line_ (lex l 0 None) t
  | Err _ => False
  end.
Proof.
  intros Hl Hb Hr. set (ts := lex l 0 None). assert (HT0 : T l 0 = ts) by done. pose proof (T_length l 0) as Hlen. rewrite HT0 in Hlen.
  unfold parsecmd. rewrite (bind_ok _ _ _ _ _ (eq_refl : get s = Ok (s, s))). rewrite (bind_ok _ _ _ _ _ (strlen_spec l z s Hl Hb _ 0 ltac:(lia) eq_refl)).
  rewrite Nat.sub_0_r. cbv zeta. rewrite Nat.add_0_l. set (fuel := (4 * (length l + 2))%nat).
  destruct (parser_runs l z Hl fuel) as (HL & _). specialize (HL ts 0%nat s Hb ltac:(lia) HT0 ltac:(lia) ltac:(unfold fuel; lia)). unfold ref in HL.
  assert (Hiff : forall t, p_line fuel ts = Some (t, []) <-> line_ ts t) by (intros t; apply p_line_iff; unfold fuel; lia).
  destruct (parseline fuel 0 (length l) s) as [[[c j] s1]|f] eqn:E1; [|rewrite (bind_err _ _ _ _ E1); destruct f; try done; intros t Ht; apply Hiff in Ht; congruence].
  destruct HL as ([t r] & Ep & Hb1 & [Hj HTj] & _ & G & Hrep & _). rewrite (bind_ok _ _ _ _ _ E1). cbv beta iota.
  destruct (last_peek l z s1 j Hl Hb1 ltac:(lia)) as (b & j' & E2 & Hend). rewrite (bind_ok _ _ _ _ _ E2). cbv beta iota. rewrite Hend, HTj.
  destruct r as [|x r]; [|simpl; intros t' Ht'; apply Hiff in Ht'; congruence]. rewrite bool_decide_true by done. cbn [negb].
  pose proof (proj1 (Hiff t) Ep) as Hline. pose proof (proj2 (proj2 grammar_size) _ _ Hline) as Hsz. pose proof (proj2 (proj2 grammar_words) _ _ Hline) as Hwords.
  pose proof (lex_words _ [] l None (le_n _) ltac:(done)) as Hlex. simpl in Hlex. change (lex l 0 None) with ts in Hlex.
  assert (Hw : Forall (fun w => is_word l (fst w) (snd w)) (words t)).
  { eapply Forall_impl; [exact Hwords|]. intros w (x & Hx & Hk & ->). rewrite Forall_forall in Hlex. by apply (Hlex x Hx). }
  assert (Hbuf : buf s1 = l ++ 0 :: z) by exact Hb1.
  rewrite (bind_ok _ _ _ _ _ (nulterminate_spec t c s1 (2 * length l + 2)%nat Hrep ltac:(lia) ltac:(eapply Forall_impl; [exact Hw|]; intros w [? _ _]; simpl; rewrite Hbuf, length_app; simpl; lia))).
  unfold ret. exists t. split; [intros t'; split; [intros Ht'; by eapply line_unique|by intros ->]|]. split; [done|]. simpl. split; [by rewrite length_zero, Hbuf, Hb|].
  apply Forall_forall. intros w Hin. rewrite Hbuf. rewrite Forall_forall in Hw. destruct w as [q e]. apply (string_at_zero l z _ q e Hl (Hw _ Hin)).
  - apply list_elem_of_fmap. by exists (q, e).
  - intros e' He'. apply list_elem_of_fmap in He' as (w & -> & Hin'). exists (fst w). by apply Hw.
Qed.

(** C18. The xv6 shell parses exactly its grammar.  For a line without zero
    characters in the buffer, and memory for the commands, parsecmd returns a
    command just when the tokens of the line form a line of the grammar: words
    and redirections, lines in parentheses, pipelines, background commands and
    sequences.  The grammar is unambiguous, the command in memory is its tree, and
    after nulterminate each argument and file name is a string of its own, ended
    by a zero where the word ended.  Every other line makes the shell panic with
    a message; parsing never runs out of bounds. *)
Theorem parsecmd_grammar l z s : Forall (fun c => c <> 0) l -> buf s = l ++ 0 :: z -> (2 * length l + 1 <= room s)%nat ->
  match parsecmd 0 s with
  | Ok (p, s') => exists t, (forall t', line_ (lex l 0 None) t' <-> t' = t) /\ rep (cmds s') p t /\ length (buf s') = length (buf s) /\
      Forall (fun w => string_at (buf s') (fst w) = text l w) (words t)
  | Err (Panic _) => forall t, ~ line_ (lex l 0 None) t
  | Err _ => False
  end.
Proof. apply parsecmd_spec. Qed.

(** [(a b < f | c) & ; d >> g] *)
Definition demo_line : list Z := str "(a b < f | c) & ; d >> g".
Lemma parsecmd_grammar_witness : exists p s' t, parsecmd 0 (mk_st (demo_line ++ [0]) [] 100) = Ok (p, s') /\ (forall t', line_ (lex demo_line 0 None) t' <-> t' = t) /\
  rep (cmds s') p t /\ Forall (fun w => string_at (buf s') (fst w) = text demo_line w) (words t).
Proof.
  assert (Hl : Forall (fun c => c <> 0) demo_line) by (vm_compute; repeat (constructor; [done|]); constructor).
  pose proof (parsecmd_grammar demo_line [] (mk_st (demo_line ++ [0]) [] 100) Hl eq_refl ltac:(vm_compute; lia)) as H.
  destruct (parsecmd 0 (mk_st (demo_line ++ [0]) [] 100)) as [[p s']|f] eqn:E; [|vm_compute in E; discriminate].
  destruct H as (t & H1 & H2 & _ & H3). exact (ex_intro _ p (ex_intro _ s' (ex_intro _ t (conj eq_refl (conj H1 (conj H2 H3)))))).
Defined.

(** The tree of that line. *)
Example demo_tree : p_line 200 (lex demo_line 0 None) =
  Some (TList (TBack (TPipe (TRedir (TExec [(1, 2); (3, 4)]) (mk_redir (7, 8) O_RDONLY 0)) (TExec [(11, 12)])))
         (TRedir (TExec [(18, 19)]) (mk_redir (23, 24) 513 1)), [])%nat.
Proof. by vm_compute. Qed.
End ShGrammar.
