(* ===== verification/ShRun.v ===== *)
(** * ShRun: the xv6 shell runs commands

    runcmd and main of sh.c over the descriptor table of the process and a
    record of what it starts.  A call that may fail does so when [fails] says so
    of its number.  A forked child runs to its end before the parent goes on; the
    processes share nothing but the numbering of pipes, so other orders differ
    in that alone.  The programs that are started are events: they take no input
    away from the shell.  Messages on descriptor 2 are left out. *)
From stdpp Require Import base list strings.
From Stdlib Require Import ZArith Lia.
From S2P Require Import Prelude Cstr Sh ShParse ShGrammar.
Import Sh ShParse ShGrammar.

Module ShRun.

Definition NOFILE : nat := 16.

Inductive ofile :=
  | Opened (name : list Z) (mode : Z)
  | PipeRead (n : nat)
  | PipeWrite (n : nat).

(** What a process does; a fork with what the child does. *)
Inductive event :=
  | Exec (argv : list (list Z)) (fds : list (option ofile))
  | Fork (child : list event)
  | Wait
  | Chdir (path : list Z)
  | Crash (f : fault).

Record world := mk_world { fds : list (option ofile); pipes : nat; calls : nat; input : list Z; trace : list event }.

Definition set_fds (l : list (option ofile)) (w : world) : world := mk_world l (pipes w) (calls w) (input w) (trace w).
Definition emit (e : event) : M world unit := modify (fun w => mk_world (fds w) (pipes w) (calls w) (input w) (trace w ++ [e])).

(** ** System calls *)

(** The lowest free descriptor. *)
Fixpoint lowest (l : list (option ofile)) : option nat :=
  match l with
  | [] => None
  | None :: _ => Some O
  | Some _ :: l => S <$> lowest l
  end.

Section sys.
Context (fails : nat -> bool).

Definition may_fail : M world bool := fun w =>
  Ok (fails (calls w), mk_world (fds w) (pipes w) (S (calls w)) (input w) (trace w)).

Definition close (fd : nat) : M world unit := modify (fun w => set_fds (<[fd := None]> (fds w)) w).

Definition alloc_fd (f : ofile) : M world Z := fun w =>
  match lowest (fds w) with
  | Some fd => Ok (Z.of_nat fd, set_fds (<[fd := Some f]> (fds w)) w)
  | None => Ok (-1, w)
  end.

Definition open (name : list Z) (mode : Z) : M world Z :=
  let! b := may_fail in if b : bool then ret (-1) else alloc_fd (Opened name mode).

Definition dup (fd : nat) : M world Z :=
  let! w := get in
  match fds w !! fd with
  | Some (Some f) => alloc_fd f
  | _ => ret (-1)
  end.

(** The two descriptors, if there are. *)
Definition pipe : M world (option (nat * nat)) :=
  let! b := may_fail in
  if b : bool then ret None else
  let! w := get in
  match lowest (fds w) with
  | None => ret None
  | Some a =>
      let l := <[a := Some (PipeRead (pipes w))]> (fds w) in
      match lowest l with
      | None => ret None
      | Some b =>
          do! put (mk_world (<[b := Some (PipeWrite (pipes w))]> l) (S (pipes w)) (calls w) (input w) (trace w)) in
          ret (Some (a, b))
      end
  end.

(** fork1: the parent goes on if the child could be made, else it panics. *)
Definition fork1 (child : M world unit) : M world bool :=
  let! b := may_fail in
  if b : bool then ret false else fun w =>
  match child (mk_world (fds w) (pipes w) (calls w) (input w) []) with
  | Ok (_, w') => Ok (true, mk_world (fds w) (pipes w') (calls w') (input w) (trace w ++ [Fork (trace w')]))
  | Err f => Ok (true, mk_world (fds w) (pipes w) (calls w) (input w) (trace w ++ [Fork [Crash f]]))
  end.

Definition wait : M world unit := emit Wait.

(** ** Commands *)

(** The strings up to the null pointer. *)
Fixpoint args_of (b : list Z) (argv : list (option nat)) : list (list Z) :=
  match argv with
  | Some q :: argv => string_at b q :: args_of b argv
  | _ => []
  end.

(** exec replaces the process unless it fails. *)
Definition exec (argv : list (list Z)) : M world unit :=
  let! b := may_fail in
  if b : bool then ret tt else
  let! w := get in emit (Exec argv (fds w)).

(** runcmd ends in an exit or in exec. *)
Fixpoint runcmd (fuel : nat) (s : st) (p : nat) : M world unit :=
  match fuel with
  | O => fail OutOfFuel
  | S fuel =>
      match cmds s !! p with
      | None => fail OutOfBounds
      | Some (EXEC argv _) =>
          match argv with
          | Some _ :: _ => exec (args_of (buf s) argv)
          | _ => ret tt
          end
      | Some (REDIR sub file _ mode fd) =>
          do! close (Z.to_nat fd) in
          let! r := open (string_at (buf s) file) mode in
          if r <? 0 then ret tt else runcmd fuel s sub
      | Some (LIST l r) =>
          let! b := fork1 (runcmd fuel s l) in
          if negb b then ret tt else
          do! wait in
          runcmd fuel s r
      | Some (PIPE l r) =>
          let! p := pipe in
          match p with
          | None => ret tt
          | Some (p0, p1) =>
              let! b := fork1 (do! close 1 in let! _ := dup p1 in do! close p0 in do! close p1 in runcmd fuel s l) in
              if negb b then ret tt else
              let! b := fork1 (do! close 0 in let! _ := dup p0 in do! close p0 in do! close p1 in runcmd fuel s r) in
              if negb b then ret tt else
              do! close p0 in
              do! close p1 in
              do! wait in
              wait
          end
      | Some (BACK sub) =>
          let! _ := fork1 (runcmd fuel s sub) in
          ret tt
      end
  end.

(** ** The shell *)

(** gets into an array of [S k] bytes: the line and the rest of the input. *)
Fixpoint gets (k : nat) (inp : list Z) : list Z * list Z :=
  match k, inp with
  | S k, c :: inp =>
      if (c =? 10) || (c =? 13) then ([c], inp)
      else let '(l, r) := gets k inp in (c :: l, r)
  | _, _ => ([], inp)
  end.

Definition nbuf : nat := 100.

(** The buffer, and whether there was a line. *)
Definition getcmd : M world (bool * list Z) :=
  let! w := get in
  let '(l, r) := gets (nbuf - 1) (input w) in
  do! put (mk_world (fds w) (pipes w) (calls w) r (trace w)) in
  let b := l ++ replicate (nbuf - length l) 0 in
  ret (negb (hd 0 b =? 0), b).

(** [runcmd(parsecmd(buf))] in the child; memory for [mem] commands. *)
Definition run_line (mem : nat) (b : list Z) : M world unit :=
  match parsecmd 0 (mk_st b [] mem) with
  | Ok (p, s) => runcmd (2 * nbuf) s p
  | Err (Panic _) => ret tt
  | Err f => fail f
  end.

Fixpoint main_loop (fuel mem : nat) : M world unit :=
  match fuel with
  | O => fail OutOfFuel
  | S fuel =>
      let! '(more, b) := getcmd in
      if negb more then ret tt else
      if (b !!! 0%nat =? 99) && (b !!! 1%nat =? 100) && (b !!! 2%nat =? 32) then
        let b := <[(length (string_at b 0) - 1)%nat := 0]> b in
        do! emit (Chdir (string_at b 3)) in
        main_loop fuel mem
      else
        let! ok := fork1 (run_line mem b) in
        if negb ok then ret tt else
        do! wait in
        main_loop fuel mem
  end.

(** [while((fd = open("console", O_RDWR)) >= 0) if(fd >= 3){ close(fd); break; }] *)
Fixpoint open_console (fuel : nat) : M world unit :=
  match fuel with
  | O => fail OutOfFuel
  | S fuel =>
      let! fd := open (str "console") O_RDWR in
      if fd <? 0 then ret tt
      else if 3 <=? fd then close (Z.to_nat fd) else open_console fuel
  end.

Definition main (mem : nat) : M world unit :=
  do! open_console (S NOFILE) in
  let! w := get in
  main_loop (S (length (input w))) mem.
End sys.

(** ** What a command means *)

Section meaning.
Context (txt : word -> list Z).

(** What the process that runs a command does, from the descriptors [F] and with
    [n] pipes made before; and the number of pipes afterwards. *)
Fixpoint behaviour (t : tree) (F : list (option ofile)) (n : nat) : list event * nat :=
  match t with
  | TExec [] => ([], n)
  | TExec ws => ([Exec (txt <$> ws) F], n)
  | TRedir t r => behaviour t (<[Z.to_nat (r_fd r) := Some (Opened (txt (r_file r)) (r_mode r))]> F) n
  | TList t u =>
      let '(a, n) := behaviour t F n in
      let '(b, n) := behaviour u F n in
      (Fork a :: Wait :: b, n)
  | TPipe t u =>
      let '(a, n') := behaviour t (<[1%nat := Some (PipeWrite n)]> F) (S n) in
      let '(b, n'') := behaviour u (<[0%nat := Some (PipeRead n)]> F) n' in
      ([Fork a; Fork b; Wait; Wait], n'')
  | TBack t => let '(a, n) := behaviour t F n in ([Fork a], n)
  end.
End meaning.

(** What gets takes from the input: up to a newline or a carriage return, which
    belongs to the line, but at most 99 characters, or what there is. *)
Definition line_end (c : Z) : Prop := c = 10 \/ c = 13.
Definition first_line (inp l rest : list Z) : Prop :=
  inp = l ++ rest /\ l <> [] /\ (length l <= 99)%nat /\ Forall (fun c => ~ line_end c) (removelast l) /\
  (rest = [] \/ length l = 99%nat \/ line_end (List.last l 0)).

(** One line after the other. *)
Inductive session (F : list (option ofile)) : list Z -> nat -> list event -> nat -> Prop :=
  | session_end n : session F [] n [] n
  | session_cd inp l rest n es n' : first_line inp l rest -> take 3 l = str "cd " ->
      session F rest n es n' -> session F inp n (Chdir (removelast (drop 3 l)) :: es) n'
  | session_run inp l rest t n a n1 es n' : first_line inp l rest -> take 3 l <> str "cd " ->
      line_ (lex l 0 None) t -> behaviour (text l) t F n = (a, n1) ->
      session F rest n1 es n' -> session F inp n (Fork a :: Wait :: es) n'
  | session_bad inp l rest n es n' : first_line inp l rest -> take 3 l <> str "cd " -> (forall t, ~ line_ (lex l 0 None) t) ->
      session F rest n es n' -> session F inp n (Fork [] :: Wait :: es) n'.

Lemma removelast_prefix {A} (l m : list A) : (length l < length m)%nat -> (exists k, m = l ++ k) -> exists k, removelast m = l ++ k.
Proof. intros Hl [k ->]. destruct (exists_last (l := k)) as (k' & c & ->); [intros ->; rewrite app_nil_r in Hl; lia|]. exists k'. rewrite app_assoc. apply removelast_last. Qed.

(** The line and the rest are determined. *)
Lemma first_line_unique inp l rest l' rest' : first_line inp l rest -> first_line inp l' rest' -> l = l' /\ rest = rest'.
Proof.
  assert (G : forall l rest l' rest', first_line inp l rest -> first_line inp l' rest' -> (length l < length l')%nat -> False).
  { clear. intros l rest l' rest' (E & Hn & Hl & _ & He) (E' & Hn' & Hl' & Hf' & _) Hlt. subst inp.
    assert (Hp : exists k, l' = l ++ k) by (apply app_eq_app in E' as (k & [[-> _]|[-> _]]); [rewrite length_app in Hlt; lia|by exists k]).
    destruct (removelast_prefix l l' Hlt Hp) as [k Ek]. rewrite Ek in Hf'. apply Forall_app in Hf' as [Hf' _].
    destruct He as [->|[He|He]]; [rewrite app_nil_r in E'; apply (f_equal length) in E'; rewrite length_app in E'; lia|lia|].
    destruct (exists_last Hn) as (l0 & c & ->). rewrite last_last in He. apply Forall_app in Hf' as [_ Hf']. apply Forall_cons in Hf' as [Hf' _]. done. }
  intros H H'. destruct (Nat.lt_trichotomy (length l) (length l')) as [Hlt|[Heq|Hlt]]; [destruct (G _ _ _ _ H H' Hlt)| |destruct (G _ _ _ _ H' H Hlt)].
  destruct H as (E & _), H' as (E' & _). rewrite E in E'. by apply app_inj_1 in E'.
Qed.

(** What a session does is determined by the input. *)
Lemma session_det F inp n es n' : session F inp n es n' -> forall es2 n2, session F inp n es2 n2 -> es2 = es /\ n2 = n'.
Proof.
  assert (Hne : forall l rest, ~ first_line [] l rest) by (intros l rest (E & Hn & _); destruct l; done).
  induction 1 as [n|inp l rest n es n' Hf Hcd HS IH|inp l rest t n a n1 es n' Hf Hcd Ht Hb HS IH|inp l rest n es n' Hf Hcd Hno HS IH]; intros es2 n2 H2; inversion H2; subst;
    try done; try (exfalso; by eapply Hne);
    match goal with H : first_line ?i ?l ?r, H' : first_line ?i ?l' ?r' |- _ => first [constr_eq l l'; fail 1|destruct (first_line_unique _ _ _ _ _ H H') as [<- <-]] end; try done.
  - match goal with H : session F rest n _ _ |- _ => destruct (IH _ _ H) as [-> ->] end. done.
  - match goal with H : line_ _ _, H' : line_ _ _ |- _ => first [constr_eq H H'; fail 1|pose proof (line_unique _ _ _ H H') as E] end. subst.
    match goal with H : behaviour _ _ _ _ = (?x, ?y), H' : behaviour _ _ _ _ = (a, n1) |- _ => rewrite H in H'; injection H' as -> -> end.
    match goal with H : session F rest n1 _ _ |- _ => destruct (IH _ _ H) as [-> ->] end. done.
  - exfalso. match goal with H : forall t, ~ line_ _ t |- _ => by eapply H end.
  - exfalso. by eapply Hno.
  - match goal with H : session F rest n _ _ |- _ => destruct (IH _ _ H) as [-> ->] end. done.
Qed.

(** ** Running *)

Fixpoint fds_ok (t : tree) : Prop :=
  match t with
  | TExec _ => True
  | TRedir t r => (r_fd r = 0 \/ r_fd r = 1) /\ fds_ok t
  | TPipe t u | TList t u => fds_ok t /\ fds_ok u
  | TBack t => fds_ok t
  end.

Lemma fds_ok_wrap t rs : fds_ok t -> Forall (fun r => r_fd r = 0 \/ r_fd r = 1) rs -> fds_ok (wrap t rs).
Proof. intros Ht Hr. revert t Ht. induction Hr as [|r rs Hr Hrs IH]; intros t Ht; simpl; [done|]. by apply IH. Qed.
Lemma fds_ok_back n t : fds_ok t -> fds_ok (Nat.iter n TBack t).
Proof. induction n; simpl; auto. Qed.
Lemma items_fds ts ws rs : items ts ws rs -> Forall (fun r => r_fd r = 0 \/ r_fd r = 1) rs.
Proof. induction 1; try done. constructor; [|done]. unfold redir_of. destruct (k =? 60); simpl; auto. Qed.
Lemma grammar_fds : (forall u t, exec_ u t -> fds_ok t) /\ (forall u t, pipe_ u t -> fds_ok t) /\ (forall u t, line_ u t -> fds_ok t).
Proof.
  apply grammar_ind; simpl; intros; eauto using fds_ok_back.
  - apply fds_ok_wrap; [done|by eapply items_fds].
  - apply fds_ok_wrap; [done|by eapply items_fds].
Qed.

(** Standard input and output are open and two descriptors are free. *)
Record good (F : list (option ofile)) : Prop := {
  good_in : exists f, F !! 0%nat = Some (Some f);
  good_out : exists f, F !! 1%nat = Some (Some f);
  good_free : exists a b, a <> b /\ F !! a = Some None /\ F !! b = Some None
}.

Lemma good_insert F i f : (i = 0 \/ i = 1)%nat -> good F -> good (<[i := Some f]> F).
Proof.
  intros Hi [(f0 & H0) (f1 & H1) (a & b & Hab & Ha & Hb)]. assert (Hl : (1 < length F)%nat) by (by eapply lookup_lt_Some).
  assert (Hset : forall j g, F !! j = Some (Some g) -> exists h, <[i := Some f]> F !! j = Some (Some h)).
  { intros j g Hj. destruct (decide (i = j)) as [<-|Hne]; [exists f; apply list_lookup_insert_eq; by eapply lookup_lt_Some|exists g; by rewrite list_lookup_insert_ne]. }
  split; [by eapply Hset|by eapply Hset|]. exists a, b. split; [done|]. rewrite !list_lookup_insert_ne by (intros ->; destruct Hi as [-> | ->]; congruence). done.
Qed.

Lemma lowest_eq l : forall a, l !! a = Some None -> (forall i, (i < a)%nat -> exists f, l !! i = Some (Some f)) -> lowest l = Some a.
Proof.
  induction l as [|x l IH]; intros a Ha Hi; [done|]. destruct a as [|a]; [injection Ha as ->; done|]. destruct (Hi 0%nat ltac:(lia)) as [f Hf]. injection Hf as ->. simpl.
  rewrite (IH a); [done|done|]. intros i Hi'. apply (Hi (S i)). lia.
Qed.
Lemma lowest_some l a : l !! a = Some None -> exists b, lowest l = Some b /\ (b <= a)%nat /\ l !! b = Some None /\ forall i, (i < b)%nat -> exists f, l !! i = Some (Some f).
Proof.
  revert a. induction l as [|[f|] l IH]; intros a Ha; [done| |].
  - destruct a as [|a]; [done|]. destruct (IH a Ha) as (b & E & Hb & Hn & Hi). exists (S b). simpl. rewrite E. split; [done|]. split; [lia|]. split; [done|].
    intros [|i] Hi'; [by exists f|]. apply (Hi i). lia.
  - exists 0%nat. split; [done|]. split; [lia|]. split; [done|]. intros i Hi. lia.
Qed.

(** A process that, from the descriptors [F] and with [n] pipes made, does [es]. *)
Definition does (m : M world unit) (F : list (option ofile)) (n : nat) (es : list event) (n' : nat) : Prop :=
  forall w, fds w = F -> pipes w = n -> exists w', m w = Ok (tt, w') /\ trace w' = trace w ++ es /\ pipes w' = n' /\ input w' = input w.

Definition never : nat -> bool := fun _ => false.

Lemma fork1_does child F n a n' w : does child F n a n' -> fds w = F -> pipes w = n ->
  exists w', fork1 never child w = Ok (true, w') /\ fds w' = F /\ pipes w' = n' /\ trace w' = trace w ++ [Fork a] /\ input w' = input w.
Proof.
  intros Hc HF Hn. unfold fork1, bind, may_fail. simpl. destruct (Hc (mk_world (fds w) (pipes w) (S (calls w)) (input w) []) HF Hn) as (w' & -> & Ht & Hp & _).
  eexists. split; [done|]. simpl in *. by rewrite Ht.
Qed.

Lemma close_run fd w : close fd w = Ok (tt, set_fds (<[fd := None]> (fds w)) w).
Proof. done. Qed.
Lemma alloc_run f a w : lowest (fds w) = Some a -> alloc_fd f w = Ok (Z.of_nat a, set_fds (<[a := Some f]> (fds w)) w).
Proof. unfold alloc_fd. by intros ->. Qed.
Lemma dup_run fd f a w : fds w !! fd = Some (Some f) -> lowest (fds w) = Some a -> dup fd w = Ok (Z.of_nat a, set_fds (<[a := Some f]> (fds w)) w).
Proof. intros Hf Ha. unfold dup, bind, get. rewrite Hf. by apply alloc_run. Qed.

(** Closing a standard descriptor makes it the lowest free one. *)
Lemma lowest_std F i : (i = 0 \/ i = 1)%nat -> good F -> lowest (<[i := None]> F) = Some i.
Proof.
  intros Hi [(f0 & H0) (f1 & H1) _]. assert (Hl : (1 < length F)%nat) by (by eapply lookup_lt_Some). apply lowest_eq; [apply list_lookup_insert_eq; lia|].
  intros j Hj. assert (i = 1 /\ j = 0)%nat as [-> ->] by lia. exists f0. by rewrite list_lookup_insert_ne.
Qed.

Lemma pipe_run F w : good F -> fds w = F -> exists a b w', pipe never w = Ok (Some (a, b), w') /\ (2 <= a < b)%nat /\ F !! a = Some None /\ F !! b = Some None /\
  fds w' = <[b := Some (PipeWrite (pipes w))]> (<[a := Some (PipeRead (pipes w))]> F) /\ pipes w' = S (pipes w) /\ input w' = input w /\ trace w' = trace w.
Proof.
  intros [(f0 & H0) (f1 & H1) (x & y & Hxy & Hx & Hy)] HF. destruct (lowest_some F x Hx) as (a & Ea & Hax & Ha & Hia).
  assert (Ha2 : (2 <= a)%nat) by (destruct a as [|[|a]]; [congruence|congruence|lia]).
  set (F1 := <[a := Some (PipeRead (pipes w))]> F). assert (Hz : exists z, F1 !! z = Some None).
  { destruct (decide (a = x)) as [->|]; [exists y|exists x]; unfold F1; by rewrite list_lookup_insert_ne. }
  destruct Hz as [z Hz]. destruct (lowest_some F1 z Hz) as (b & Eb & Hbz & Hb & Hib).
  assert (Hab : (a < b)%nat).
  { destruct (decide (b = a)) as [->|Hne]; [unfold F1 in Hb; rewrite list_lookup_insert_eq in Hb by (by eapply lookup_lt_Some); done|].
    destruct (decide (b < a)%nat) as [Hlt|]; [|lia]. destruct (Hia b Hlt) as [f Hf]. unfold F1 in Hb. rewrite list_lookup_insert_ne in Hb by done. congruence. }
  unfold pipe, bind, may_fail, get. simpl. rewrite HF, Ea. fold F1. rewrite Eb. eexists a, b, _. split; [done|]. split; [lia|]. split; [done|].
  split; [unfold F1 in Hb; by rewrite list_lookup_insert_ne in Hb by lia|]. done.
Qed.

(** The end [k] of the pipe becomes descriptor [i], and both ends are closed. *)
Lemma redirect F a b i k f (x : ofile) : good F -> (2 <= a < b)%nat -> F !! a = Some None -> F !! b = Some None -> (i = 0 \/ i = 1)%nat -> (k = a \/ k = b) ->
  let F2 := <[b := Some f]> (<[a := Some x]> F) in
  exists g, F2 !! k = Some (Some g) /\ lowest (<[i := None]> F2) = Some i /\ g = (if decide (k = b) then f else x) /\
    <[b := None]> (<[a := None]> (<[i := Some g]> (<[i := None]> F2))) = <[i := Some g]> F.
Proof.
  intros G Hab Ha Hb Hi Hk F2. assert (Hlb : (b < length F)%nat) by (by eapply lookup_lt_Some). exists (if decide (k = b) then f else x).
  assert (Hk2 : F2 !! k = Some (Some (if decide (k = b) then f else x))).
  { unfold F2. case_decide as E; [subst; apply list_lookup_insert_eq; by rewrite length_insert|]. destruct Hk as [->|?]; [|done]. rewrite list_lookup_insert_ne by lia. apply list_lookup_insert_eq. lia. }
  split; [done|]. split; [|split; [done|]].
  - assert (Hlow : forall j, (j < 2)%nat -> F2 !! j = F !! j) by (intros j Hj; unfold F2; rewrite !list_lookup_insert_ne by lia; done).
    destruct G as [(f0 & H0) (f1 & H1) _]. apply lowest_eq; [apply list_lookup_insert_eq; unfold F2; rewrite !length_insert; lia|]. intros j Hj. assert (i = 1 /\ j = 0)%nat as [-> ->] by lia.
    exists f0. rewrite list_lookup_insert_ne, Hlow by lia. done.
  - apply list_eq. intros j. set (g := if decide (k = b) then f else x).
    destruct (decide (j = b)) as [->|Hjb]; [rewrite list_lookup_insert_eq by (unfold F2; rewrite !length_insert; lia); by rewrite list_lookup_insert_ne by lia|].
    rewrite list_lookup_insert_ne by done. destruct (decide (j = a)) as [->|Hja]; [rewrite list_lookup_insert_eq by (unfold F2; rewrite !length_insert; lia); by rewrite list_lookup_insert_ne by lia|].
    rewrite list_lookup_insert_ne by done. destruct (decide (j = i)) as [->|Hji]; [rewrite !list_lookup_insert_eq; [done|lia|unfold F2; rewrite !length_insert; lia]|].
    rewrite !list_lookup_insert_ne by done. unfold F2. by rewrite !list_lookup_insert_ne by done.
Qed.

Lemma args_of_pad b l : args_of b (pad l) = string_at b <$> l.
Proof. unfold pad. generalize (MAXARGS - length l)%nat. intros k. induction l as [|q l IH]; simpl; [by destruct k|]. f_equal. exact IH. Qed.

Section run.
Context (txt : word -> list Z) (s : st).

Definition strings_ok (t : tree) : Prop := Forall (fun w => string_at (buf s) (fst w) = txt w) (words t).

(** The child of a pipe: the end [k] becomes descriptor [i]. *)
Lemma stage_does m F a b i k n F' es n' : good F -> (2 <= a < b)%nat -> F !! a = Some None -> F !! b = Some None -> (i = 0 \/ i = 1)%nat -> (k = a \/ k = b) ->
  does m (<[i := Some (if decide (k = b) then PipeWrite F' else PipeRead F')]> F) n es n' ->
  does (do! close i in let! _ := dup k in do! close a in do! close b in m) (<[b := Some (PipeWrite F')]> (<[a := Some (PipeRead F')]> F)) n es n'.
Proof.
  intros G Hab Ha Hb Hi Hk Hm w HF Hn. destruct (redirect F a b i k (PipeWrite F') (PipeRead F') G Hab Ha Hb Hi Hk) as (g & Hg & Hlow & -> & Heq).
  assert (Hik : i <> k) by lia. set (F2 := <[b := Some (PipeWrite F')]> (<[a := Some (PipeRead F')]> F)) in *.
  rewrite (bind_ok _ _ _ _ _ (close_run i w)), HF. set (g := if decide (k = b) then PipeWrite F' else PipeRead F') in *.
  assert (Hk1 : fds (set_fds (<[i := None]> F2) w) !! k = Some (Some g)) by (simpl; by rewrite list_lookup_insert_ne).
  rewrite (bind_ok _ _ _ _ _ (dup_run k g i _ Hk1 Hlow)). simpl fds. rewrite (bind_ok _ _ _ _ _ (close_run a _)). simpl fds. rewrite (bind_ok _ _ _ _ _ (close_run b _)). simpl fds.
  destruct (Hm (set_fds (<[b := None]> (<[a := None]> (<[i := Some g]> (<[i := None]> F2)))) w) Heq Hn) as (w' & E & Ht & Hp & Hi'). exists w'. done.
Qed.

Lemma runcmd_does t : forall p fuel F n, rep (cmds s) p t -> strings_ok t -> fds_ok t -> (tsize t <= fuel)%nat -> good F ->
  does (runcmd never fuel s p) F n (fst (behaviour txt t F n)) (snd (behaviour txt t F n)).
Proof.
  induction t as [ws|t IH r|t IHt u IHu|t IHt u IHu|t IH]; intros p [|fuel] F n Hr Hs Hf Hsz G; simpl in Hsz; try lia; cbn [runcmd]; simpl in Hr.
  - destruct Hr as [_ ->]. rewrite args_of_pad. unfold strings_ok in Hs. simpl in Hs. destruct ws as [|w0 ws].
    + simpl. intros w HF Hn. exists w. by rewrite app_nil_r.
    + simpl. intros w HF Hn. eexists. split; [done|]. simpl. split; [|by rewrite Hn]. rewrite HF. do 3 f_equal. apply Forall_cons in Hs as [-> Hs]. f_equal.
      clear -Hs. induction Hs as [|x l Hx Hl IH]; simpl; [done|]. rewrite Hx. f_equal. exact IH.
  - destruct Hr as (c & -> & Hc). destruct Hf as [Hfd Hf]. unfold strings_ok in Hs. simpl in Hs. apply Forall_app in Hs as [Hs Hfile]. apply Forall_cons in Hfile as [Hfile _]. rewrite Hfile.
    set (i := Z.to_nat (r_fd r)). assert (Hi : (i = 0 \/ i = 1)%nat) by lia. simpl behaviour. fold i.
    intros w HF Hn. rewrite (bind_ok _ _ _ _ _ (close_run i w)), HF. unfold open. rewrite bind_assoc. erewrite bind_ok; [|reflexivity]. cbv iota.
    erewrite bind_ok; [|apply alloc_run; simpl; by apply lowest_std]. rewrite (proj2 (Z.ltb_ge _ _)) by lia. simpl fds. rewrite list_insert_insert_eq.
    destruct (IH c fuel _ n Hc Hs Hf ltac:(lia) (good_insert F i (Opened (txt (r_file r)) (r_mode r)) Hi G)
      (set_fds (<[i := Some (Opened (txt (r_file r)) (r_mode r))]> F) (mk_world (<[i := None]> F) (pipes w) (S (calls w)) (input w) (trace w))) eq_refl Hn) as (w' & E & H). exists w'. done.
  - destruct Hr as (a & b & -> & Ha & Hb). destruct Hf as [Hf1 Hf2]. apply Forall_app in Hs as [Hs1 Hs2]. simpl behaviour. intros w HF Hn.
    destruct (pipe_run F w G HF) as (x & y & w1 & E1 & Hxy & Hx & Hy & HF1 & Hp1 & Hi1 & Ht1). rewrite (bind_ok _ _ _ _ _ E1). cbv beta iota. rewrite Hn in *.
    pose proof (IHt a fuel _ (S n) Ha Hs1 Hf1 ltac:(lia) (good_insert F 1 (PipeWrite n) ltac:(lia) G)) as H1.
    destruct (behaviour txt t (<[1%nat := Some (PipeWrite n)]> F) (S n)) as [es1 n1]. simpl in H1.
    pose proof (IHu b fuel _ n1 Hb Hs2 Hf2 ltac:(lia) (good_insert F 0 (PipeRead n) ltac:(lia) G)) as H2.
    destruct (behaviour txt u (<[0%nat := Some (PipeRead n)]> F) n1) as [es2 n2]. simpl in H2. simpl fst. simpl snd.
    destruct (fork1_does _ _ _ _ _ w1 (stage_does _ F x y 1 y _ n _ _ G Hxy Hx Hy ltac:(lia) ltac:(by right) ltac:(rewrite decide_True by done; exact H1)) HF1 Hp1)
      as (w2 & E2 & HF2 & Hp2 & Ht2 & Hi2). rewrite (bind_ok _ _ _ _ _ E2). cbn [negb].
    destruct (fork1_does _ _ _ _ _ w2 (stage_does _ F x y 0 x _ n _ _ G Hxy Hx Hy ltac:(lia) ltac:(by left) ltac:(rewrite decide_False by lia; exact H2)) HF2 Hp2)
      as (w3 & E3 & HF3 & Hp3 & Ht3 & Hi3). rewrite (bind_ok _ _ _ _ _ E3). cbn [negb].
    rewrite (bind_ok _ _ _ _ _ (close_run x w3)), (bind_ok _ _ _ _ _ (close_run y _)). eexists. split; [done|]. simpl. rewrite Ht3, Ht2, Ht1, Hi3, Hi2, Hi1, <- !app_assoc. done.
  - destruct Hr as (a & b & -> & Ha & Hb). destruct Hf as [Hf1 Hf2]. apply Forall_app in Hs as [Hs1 Hs2]. simpl behaviour. intros w HF Hn.
    pose proof (IHt a fuel F n Ha Hs1 Hf1 ltac:(lia) G) as H1. destruct (behaviour txt t F n) as [es1 n1]. simpl in H1.
    pose proof (IHu b fuel F n1 Hb Hs2 Hf2 ltac:(lia) G) as H2. destruct (behaviour txt u F n1) as [es2 n2]. simpl in H2. simpl fst. simpl snd.
    destruct (fork1_does _ _ _ _ _ w H1 HF Hn) as (w2 & E2 & HF2 & Hp2 & Ht2 & Hi2). rewrite (bind_ok _ _ _ _ _ E2). cbn [negb].
    erewrite bind_ok; [|reflexivity]. destruct (H2 (mk_world (fds w2) (pipes w2) (calls w2) (input w2) (trace w2 ++ [Wait])) HF2 Hp2) as (w4 & E4 & Ht4 & Hp4 & Hi4).
    exists w4. split; [exact E4|]. rewrite Ht4, Hi4. simpl. rewrite Ht2, Hi2, <- !app_assoc. done.
  - destruct Hr as (c & -> & Hc). simpl behaviour. intros w HF Hn. pose proof (IH c fuel F n Hc Hs Hf ltac:(lia) G) as H1. destruct (behaviour txt t F n) as [es1 n1]. simpl in H1.
    destruct (fork1_does _ _ _ _ _ w H1 HF Hn) as (w2 & E2 & HF2 & Hp2 & Ht2 & Hi2). rewrite (bind_ok _ _ _ _ _ E2). exists w2. done.
Qed.
End run.

(** ** The main loop *)

Definition is_line (l : list Z) : Prop := Forall (fun c => c <> 0) l /\ (0 < length l <= 99)%nat.

Lemma gets_first k : forall inp, (0 < k <= 99)%nat -> inp <> [] -> exists l rest, gets k inp = (l, rest) /\
  inp = l ++ rest /\ l <> [] /\ (length l <= k)%nat /\ Forall (fun c => ~ line_end c) (removelast l) /\ (rest = [] \/ length l = k \/ line_end (List.last l 0)).
Proof.
  induction k as [|k IH]; intros inp Hk Hne; [lia|]. destruct inp as [|c inp]; [done|]. cbn [gets]. destruct ((c =? 10) || (c =? 13)) eqn:Ec.
  - exists [c], inp. do 4 (split; [done || (simpl; lia)|]). split; [constructor|]. right. right. unfold line_end. simpl. lia.
  - assert (Hc : ~ line_end c) by (unfold line_end; lia). destruct k as [|k]; [exists [c], inp; do 4 (split; [done || (simpl; lia)|]); split; [constructor|by right; left]|].
    destruct inp as [|c' inp]; [exists [c], []; do 4 (split; [done || (simpl; lia)|]); split; [constructor|by left]|].
    destruct (IH (c' :: inp) ltac:(lia) ltac:(done)) as (l & rest & E & Hi & Hn & Hl & Hf & He). rewrite E. exists (c :: l), rest. destruct l as [|c'' l]; [done|].
    split; [done|]. split; [by rewrite Hi|]. split; [done|]. split; [cbn [length] in *; lia|]. split; [by constructor|]. destruct He as [?|[?|?]]; [by left|right; left; cbn [length] in *; lia|by right; right].
Qed.

(** The buffer with a line in it. *)
Definition line_buf (l : list Z) : list Z := l ++ 0 :: replicate (99 - length l) 0.

Lemma getcmd_line w : input w <> [] -> Forall (fun c => c <> 0) (input w) -> exists l rest, first_line (input w) l rest /\ is_line l /\ Forall (fun c => c <> 0) rest /\
  getcmd w = Ok (true, line_buf l, mk_world (fds w) (pipes w) (calls w) rest (trace w)).
Proof.
  intros Hin Hz. destruct (gets_first (nbuf - 1) (input w) ltac:(unfold nbuf; lia) Hin) as (l & rest & E & Hi & Hn & Hl & Hf & He). exists l, rest.
  rewrite Hi in Hz. apply Forall_app in Hz as [Hzl Hzr]. assert (Hlen : (0 < length l <= 99)%nat) by (destruct l; [done|unfold nbuf in Hl; simpl in *; lia]).
  split; [done|]. split; [done|]. split; [done|]. unfold getcmd, bind, get. rewrite E. unfold put, ret.
  replace (l ++ replicate (nbuf - length l) 0) with (line_buf l) by (unfold line_buf, nbuf; f_equal; by replace (100 - length l)%nat with (S (99 - length l)) by lia).
  assert (Hhd : hd 0 (line_buf l) <> 0) by (destruct l as [|c l]; [done|]; by apply Forall_cons in Hzl as [? _]). by rewrite (proj2 (Z.eqb_neq _ _) Hhd).
Qed.

Lemma getcmd_eof w : input w = [] -> getcmd w = Ok (false, replicate nbuf 0, mk_world (fds w) (pipes w) (calls w) [] (trace w)).
Proof. intros Hin. unfold getcmd, bind, get. by rewrite Hin. Qed.

Lemma cd_test l : let b := line_buf l in
  (b !!! 0%nat =? 99) && (b !!! 1%nat =? 100) && (b !!! 2%nat =? 32) = bool_decide (take 3 l = str "cd ").
Proof.
  cbv zeta. change (str "cd ") with [99; 100; 32]. symmetry. destruct l as [|x [|y [|c l]]].
  1,2,3: rewrite bool_decide_false by done; unfold line_buf; simpl; by rewrite ?andb_false_r.
  unfold line_buf. change (take 3 (x :: y :: c :: l)) with [x; y; c]. cbn [app]. change ((x :: y :: c :: l ++ 0 :: _) !!! 0%nat) with x.
  change ((x :: y :: c :: l ++ 0 :: _) !!! 1%nat) with y. change ((x :: y :: c :: l ++ 0 :: _) !!! 2%nat) with c.
  destruct (Z.eqb_spec x 99), (Z.eqb_spec y 100), (Z.eqb_spec c 32); subst; simpl; try done; apply bool_decide_false; congruence.
Qed.

(** The last character of the line is chopped, whatever it is. *)
Lemma cd_path l : is_line l -> take 3 l = str "cd " -> let b := line_buf l in string_at (<[(length (string_at b 0) - 1)%nat := 0]> b) 3 = removelast (drop 3 l).
Proof.
  intros [Hl Hlen] Hcd. cbv zeta. assert (E : string_at (line_buf l) 0 = l) by (by apply upto_nul_app). rewrite E.
  destruct (exists_last (l := l)) as (l0 & c & ->); [intros ->; simpl in Hlen; lia|]. rewrite length_app. cbn [length]. replace (length l0 + 1 - 1)%nat with (length l0 + 0)%nat by lia.
  unfold line_buf. rewrite <- app_assoc, insert_app_r. change (<[0%nat := 0]> ([c] ++ 0 :: ?z)) with (0 :: 0 :: z). cbn [app]. change (<[0%nat := 0]> (c :: ?z)) with (0 :: z).
  apply Forall_app in Hl as [Hl0 _]. unfold string_at. destruct (Nat.le_gt_cases 3 (length l0)) as [Hle|Hgt].
  - rewrite (drop_app_le l0 [c]), removelast_last by done. rewrite (drop_app_le l0) by done. apply upto_nul_app. by apply Forall_drop.
  - assert (length l0 = 2%nat) as H2 by (apply (f_equal length) in Hcd; rewrite length_take, length_app in Hcd; cbn [length] in Hcd; change (length (str "cd ")) with 3%nat in Hcd; lia).
    rewrite (drop_ge (l0 ++ [c])) by (rewrite length_app; simpl; lia). rewrite drop_app_ge by lia. by rewrite H2.
Qed.

Lemma run_line_good mem l t F n : is_line l -> (199 <= mem)%nat -> line_ (lex l 0 None) t -> good F ->
  does (run_line never mem (line_buf l)) F n (fst (behaviour (text l) t F n)) (snd (behaviour (text l) t F n)).
Proof.
  intros [Hl Hlen] Hmem Ht G. unfold run_line.
  pose proof (parsecmd_spec l (replicate (99 - length l) 0) (mk_st (line_buf l) [] mem) Hl eq_refl ltac:(cbn [room]; lia)) as HP.
  destruct (parsecmd 0 (mk_st (line_buf l) [] mem)) as [[p s]|f]; [|destruct f; try done; by apply HP in Ht].
  destruct HP as (t0 & Hiff & Hrep & _ & Hstr). apply Hiff in Ht as Et. subst t0. apply runcmd_does; [done|done|by eapply grammar_fds| |done].
  pose proof (proj2 (proj2 grammar_size) _ _ Ht) as Hs. pose proof (T_length l 0) as HT. unfold T in HT. rewrite drop_0 in HT. unfold nbuf. lia.
Qed.

Lemma run_line_bad mem l F n : is_line l -> (199 <= mem)%nat -> (forall t, ~ line_ (lex l 0 None) t) -> does (run_line never mem (line_buf l)) F n [] n.
Proof.
  intros [Hl Hlen] Hmem Hno. unfold run_line.
  pose proof (parsecmd_spec l (replicate (99 - length l) 0) (mk_st (line_buf l) [] mem) Hl eq_refl ltac:(cbn [room]; lia)) as HP.
  destruct (parsecmd 0 (mk_st (line_buf l) [] mem)) as [[p s]|f].
  - destruct HP as (t0 & Hiff & _). by destruct (Hno t0 (proj2 (Hiff t0) eq_refl)).
  - destruct f; try done. intros w HF Hn. exists w. by rewrite app_nil_r.
Qed.

(** A line is of the grammar or not. *)
Lemma line_decide l : is_line l -> (exists t, line_ (lex l 0 None) t) \/ forall t, ~ line_ (lex l 0 None) t.
Proof.
  intros [Hl Hlen]. pose proof (parsecmd_spec l [] (mk_st (l ++ [0]) [] 199) Hl eq_refl ltac:(cbn [room]; lia)) as HP.
  destruct (parsecmd 0 (mk_st (l ++ [0]) [] 199)) as [[p s]|f]; [|destruct f; try done; by right]. destruct HP as (t0 & Hiff & _). left. exists t0. by apply Hiff.
Qed.

(** One line that is not cd. *)
Lemma main_loop_fork mem F n a n1 fuel l rest w : take 3 l <> str "cd " ->
  does (run_line never mem (line_buf l)) F n a n1 -> fds w = F -> pipes w = n ->
  getcmd w = Ok (true, line_buf l, mk_world (fds w) (pipes w) (calls w) rest (trace w)) ->
  exists w1, main_loop never (S fuel) mem w = main_loop never fuel mem w1 /\ fds w1 = F /\ pipes w1 = n1 /\ input w1 = rest /\ trace w1 = trace w ++ [Fork a; Wait].
Proof.
  intros Hcd HD HF Hn Hg. cbn [main_loop]. rewrite (bind_ok _ _ _ _ _ Hg). cbn [negb]. rewrite cd_test, bool_decide_false by done. cbv iota.
  destruct (fork1_does _ _ _ _ _ (mk_world (fds w) (pipes w) (calls w) rest (trace w)) HD HF Hn) as (w2 & E2 & HF2 & Hp2 & Ht2 & Hi2). rewrite (bind_ok _ _ _ _ _ E2). cbn [negb].
  erewrite bind_ok; [|reflexivity]. eexists. split; [reflexivity|]. simpl. split; [done|]. split; [done|]. split; [done|]. rewrite Ht2. simpl. by rewrite <- app_assoc.
Qed.

Lemma main_loop_session mem F : (199 <= mem)%nat -> good F -> forall fuel w, fds w = F -> Forall (fun c => c <> 0) (input w) -> (length (input w) < fuel)%nat ->
  exists es n' w', session F (input w) (pipes w) es n' /\ main_loop never fuel mem w = Ok (tt, w') /\ trace w' = trace w ++ es /\ pipes w' = n'.
Proof.
  intros Hmem G fuel. induction fuel as [|fuel IH]; intros w HF Hz Hfu; [lia|]. destruct (decide (input w = [])) as [Hin|Hin].
  { cbn [main_loop]. rewrite (bind_ok _ _ _ _ _ (getcmd_eof w Hin)). cbn [negb]. eexists [], (pipes w), _. rewrite Hin. split; [constructor|]. split; [done|]. simpl. by rewrite app_nil_r. }
  destruct (getcmd_line w Hin Hz) as (l & rest & Hfl & Hl & Hzr & Hg). assert (Hrest : (length rest < fuel)%nat).
  { destruct Hfl as (E & Hn & _). rewrite E, length_app in Hfu. destruct l; [done|]. simpl in Hfu. lia. }
  destruct (decide (take 3 l = str "cd ")) as [Hcd|Hcd].
  - cbn [main_loop]. rewrite (bind_ok _ _ _ _ _ Hg). cbn [negb]. rewrite cd_test, bool_decide_true by done. cbv iota zeta. rewrite (cd_path l Hl Hcd). erewrite bind_ok; [|reflexivity].
    destruct (IH (mk_world (fds w) (pipes w) (calls w) rest (trace w ++ [Chdir (removelast (drop 3 l))])) HF Hzr Hrest) as (es & n' & w' & HS & E & Ht & Hp).
    eexists _, n', w'. split; [by eapply session_cd|]. split; [exact E|]. split; [|done]. rewrite Ht. simpl. by rewrite <- app_assoc.
  - destruct (line_decide l Hl) as [[t Ht]|Hno].
    + pose proof (run_line_good mem l t F (pipes w) Hl Hmem Ht G) as HD. destruct (behaviour (text l) t F (pipes w)) as [a n1] eqn:Hb. simpl in HD.
      destruct (main_loop_fork mem F (pipes w) a n1 fuel l rest w Hcd HD HF eq_refl Hg) as (w1 & E1 & HF1 & Hp1 & Hi1 & Ht1).
      destruct (IH w1 HF1 ltac:(by rewrite Hi1) ltac:(by rewrite Hi1)) as (es & n' & w' & HS & E & Ht' & Hp). rewrite Hi1, Hp1 in HS.
      eexists _, n', w'. split; [by eapply session_run|]. rewrite E1. split; [exact E|]. split; [|done]. rewrite Ht', Ht1. by rewrite <- app_assoc.
    + destruct (main_loop_fork mem F (pipes w) [] (pipes w) fuel l rest w Hcd (run_line_bad mem l F (pipes w) Hl Hmem Hno) HF eq_refl Hg) as (w1 & E1 & HF1 & Hp1 & Hi1 & Ht1).
      destruct (IH w1 HF1 ltac:(by rewrite Hi1) ltac:(by rewrite Hi1)) as (es & n' & w' & HS & E & Ht' & Hp). rewrite Hi1, Hp1 in HS.
      eexists _, n', w'. split; [by eapply session_bad|]. rewrite E1. split; [exact E|]. split; [|done]. rewrite Ht', Ht1. by rewrite <- app_assoc.
Qed.

(** The descriptors init starts the shell with. *)
Definition std (f0 f1 f2 : ofile) : list (option ofile) := [Some f0; Some f1; Some f2] ++ replicate 13 None.

Lemma good_std f0 f1 f2 : good (std f0 f1 f2).
Proof. split; [by exists f0|by exists f1|]. exists 3%nat, 4%nat. done. Qed.

(** C7. The xv6 shell does what its input says.  Started with three open
    descriptors, on any input without zero characters, when no system call fails and
    memory suffices, main takes the input apart as gets does (lines end at a newline
    or a carriage return, and a longer line is cut after 99 characters) and handles
    the pieces in order: it changes the directory itself for [cd], with the last
    character of the piece chopped, and forks a child and waits for it otherwise.
    The child of a piece that is a line of the grammar behaves as its tree means: it
    runs each program with its arguments and with exactly the descriptors the
    redirections and pipes give it, all pipe ends it does not use being closed; it
    waits for the first part of a sequence before the second, for both ends of a
    pipe, and not for background commands.  For a piece outside the grammar the
    child does nothing.  The shell stops at the end of the input.  What a session
    is, [session_det] shows to be determined by the input. *)
Theorem sh_main_session mem f0 f1 f2 w :
  (199 <= mem)%nat -> fds w = std f0 f1 f2 -> Forall (fun c => c <> 0) (input w) ->
  exists es n' w', session (std f0 f1 f2) (input w) (pipes w) es n' /\ main never mem w = Ok (tt, w') /\ trace w' = trace w ++ es /\ pipes w' = n'.
Proof.
  intros Hmem HF Hz. unfold main. cbn [open_console]. unfold open. rewrite !bind_assoc. erewrite bind_ok; [|reflexivity]. cbn beta. unfold never at 1.
  erewrite bind_ok; [|apply (alloc_run _ 3); simpl; by rewrite HF]. change (Z.of_nat 3) with 3. change (3 <? 0) with false. change (3 <=? 3) with true. cbv iota.
  rewrite (bind_ok _ _ _ _ _ (close_run _ _)). erewrite bind_ok; [|reflexivity]. simpl input.
  match goal with |- context [main_loop never _ mem ?w1] => set (w1' := w1) end.
  destruct (main_loop_session mem (std f0 f1 f2) Hmem (good_std f0 f1 f2) (S (length (input w))) w1') as (es & n' & w' & HS & E & Ht & Hp);
    [unfold w1'; simpl; by rewrite HF|done|simpl; lia|]. exists es, n', w'. done.
Qed.

(** ** Witness *)

Definition console : ofile := Opened (str "console") O_RDWR.
Definition demo_input : list Z := str "cd d" ++ [10] ++ str "a x | b > f" ++ [10] ++ str "&" ++ [13] ++ str "(c &) ; d".
Definition demo_world : world := mk_world (std console console console) 0 0 demo_input [].

(** What that input makes the shell do. *)
Definition demo_events : list event :=
  let F := std console console console in
  [Chdir (str "d");
   Fork [Fork [Exec [str "a"; str "x"] (<[1%nat := Some (PipeWrite 0)]> F)];
         Fork [Exec [str "b"] (<[1%nat := Some (Opened (str "f") 513)]> (<[0%nat := Some (PipeRead 0)]> F))]; Wait; Wait]; Wait;
   Fork [Fork []]; Wait;
   Fork [Fork [Fork [Exec [str "c"] F]]; Wait; Exec [str "d"] F]; Wait].

Lemma sh_main_session_witness : exists es n' w', session (std console console console) demo_input 0 es n' /\ main never 200 demo_world = Ok (tt, w') /\ trace w' = es /\ es = demo_events.
Proof.
  destruct (sh_main_session 200 console console console demo_world) as (es & n' & w' & HS & E & Ht & _).
  - lia.
  - reflexivity.
  - vm_compute. repeat constructor; discriminate.
  - exists es, n', w'. split; [exact HS|]. split; [exact E|]. split; [exact Ht|]. change es with ([] ++ es). transitivity (trace w'); [symmetry; exact Ht|].
    assert (E0 : match main never 200 demo_world with Ok (_, w) => trace w | Err _ => [] end = demo_events) by (vm_compute; reflexivity). rewrite E in E0. exact E0.
Defined.
End ShRun.
