(* ===== verification/Vm.v ===== *)
(** * Vm: page tables of xv6

    vm.c over a memory of pages.  A page is the list of its bytes, found by its
    address in the kernel; the entries of page tables are words in it.  kalloc and
    kfree work on the stack of free pages that Kalloc proves them to be, so the link in
    the first word of a free page is part of the stack and not of the page.  A
    [pte_t *] is a page and an index, a null pointer [None].  The addresses the
    linker gives to [end] and [data] are arguments.  Segment descriptors and the
    task register (seginit, switchuvm) are left out. *)
From stdpp Require Import base list gmap strings.
From Stdlib Require Import ZArith Lia.
From S2P Require Import Prelude.

Module Vm.

Definition PGSIZE : Z := 4096.
Definition KERNBASE : Z := 2147483648.
Definition EXTMEM : Z := 1048576.
Definition PHYSTOP : Z := 234881024.
Definition DEVSPACE : Z := 4261412864.
Definition KERNLINK : Z := KERNBASE + EXTMEM.
Definition NPDENTRIES : Z := 1024.
Definition PTE_P : Z := 1.
Definition PTE_W : Z := 2.
Definition PTE_U : Z := 4.

Definition V2P (a : Z) : Z := u32 (a - KERNBASE).
Definition P2V (a : Z) : Z := u32 (a + KERNBASE).
Definition PDX (va : Z) : Z := Z.land (Z.shiftr va 22) 1023.
Definition PTX (va : Z) : Z := Z.land (Z.shiftr va 12) 1023.
Definition PGADDR (d t o : Z) : Z := u32 (Z.lor (Z.lor (Z.shiftl d 22) (Z.shiftl t 12)) o).
Definition PGROUNDDOWN (a : Z) : Z := Z.land a (u32 (Z.lnot (PGSIZE - 1))).
Definition PGROUNDUP (a : Z) : Z := PGROUNDDOWN (u32 (a + PGSIZE - 1)).
Definition PTE_ADDR (pte : Z) : Z := Z.land pte (u32 (Z.lnot 4095)).
Definition PTE_FLAGS (pte : Z) : Z := Z.land pte 4095.

Record vm := mk_vm { mem : gmap Z (list Z); free : list Z; kpgdir : Z; cr3 : Z }.

(** ** Pages *)

Definition page_of (c : Z) : list Z := replicate (Z.to_nat PGSIZE) c.

Definition getw (pg : list Z) (i : Z) : Z :=
  let o := Z.to_nat (4 * i) in pg !!! o + 2 ^ 8 * pg !!! (o + 1)%nat + 2 ^ 16 * pg !!! (o + 2)%nat + 2 ^ 24 * pg !!! (o + 3)%nat.
Definition le32 (v : Z) : list Z := [v mod 256; v / 2 ^ 8 mod 256; v / 2 ^ 16 mod 256; v / 2 ^ 24 mod 256].
Definition put_bytes (pg : list Z) (o : nat) (l : list Z) : list Z := take o pg ++ l ++ drop (o + length l) pg.
Definition putw (pg : list Z) (i v : Z) : list Z := put_bytes pg (Z.to_nat (4 * i)) (le32 v).

Definition set_mem (m : gmap Z (list Z)) (s : vm) : vm := mk_vm m (free s) (kpgdir s) (cr3 s).
Definition set_free (l : list Z) (s : vm) : vm := mk_vm (mem s) l (kpgdir s) (cr3 s).

Definition rd_page (p : Z) : M vm (list Z) := let! s := get in of_option OutOfBounds (mem s !! p).
Definition wr_page (p : Z) (pg : list Z) : M vm unit :=
  do! rd_page p in modify (fun s => set_mem (<[p := pg]> (mem s)) s).
Definition rdw (p i : Z) : M vm Z := let! pg := rd_page p in ret (getw pg i).
Definition wrw (p i v : Z) : M vm unit := let! pg := rd_page p in wr_page p (putw pg i v).

(** [memset(p, c, PGSIZE)] and [memmove(p + o, l, ..)] inside a page. *)
Definition memset_page (p c : Z) : M vm unit := wr_page p (page_of c).
Definition memmove_page (p o : Z) (l : list Z) : M vm unit :=
  let! pg := rd_page p in
  if o + Z.of_nat (length l) <=? PGSIZE then wr_page p (put_bytes pg (Z.to_nat o) l) else fail OutOfBounds.

Section vm.
Context (kend kdata : Z).

(** ** The page allocator *)

(** Zero stands for the null pointer. *)
Definition kalloc : M vm Z := fun s =>
  match free s with
  | [] => Ok (0, s)
  | p :: l => Ok (p, set_free l s)
  end.
Definition kfree (v : Z) : M vm unit :=
  if negb (v mod PGSIZE =? 0) || (v <? kend) || (PHYSTOP <=? V2P v) then fail (Panic "kfree") else
  do! memset_page v 1 in
  modify (fun s => set_free (v :: free s) s).

(** ** Page tables *)

Definition present (pte : Z) : bool := negb (Z.land pte PTE_P =? 0).

Definition walkpgdir (pgdir va : Z) (alloc : bool) : M vm (option (Z * Z)) :=
  let! pde := rdw pgdir (PDX va) in
  if present pde then ret (Some (P2V (PTE_ADDR pde), PTX va))
  else if negb alloc then ret None
  else
    let! pgtab := kalloc in
    if pgtab =? 0 then ret None else
    do! memset_page pgtab 0 in
    do! wrw pgdir (PDX va) (Z.lor (Z.lor (Z.lor (V2P pgtab) PTE_P) PTE_W) PTE_U) in
    ret (Some (pgtab, PTX va)).

(** The loop of mappages. *)
Fixpoint mappages_loop (fuel : nat) (pgdir a last pa perm : Z) : M vm Z :=
  match fuel with
  | O => fail OutOfFuel
  | S fuel =>
      let! pte := walkpgdir pgdir a true in
      match pte with
      | None => ret (-1)
      | Some (t, i) =>
          let! e := rdw t i in
          if present e then fail (Panic "remap") else
          do! wrw t i (Z.lor (Z.lor pa perm) PTE_P) in
          if a =? last then ret 0 else mappages_loop fuel pgdir (u32 (a + PGSIZE)) last (u32 (pa + PGSIZE)) perm
      end
  end.
Definition mappages (pgdir va size pa perm : Z) : M vm Z :=
  let a := PGROUNDDOWN va in
  let last := PGROUNDDOWN (u32 (va + size - 1)) in
  mappages_loop (S (Z.to_nat ((last - a) / PGSIZE))) pgdir a last pa perm.

(** The loop of deallocuvm from [a] on. *)
Fixpoint deallocuvm_loop (fuel : nat) (pgdir a oldsz : Z) : M vm unit :=
  match fuel with
  | O => fail OutOfFuel
  | S fuel =>
      if negb (a <? oldsz) then ret tt else
      let! pte := walkpgdir pgdir a false in
      match pte with
      | None =>
          let a := u32 (PGADDR (PDX a + 1) 0 0 - PGSIZE) in
          deallocuvm_loop fuel pgdir (u32 (a + PGSIZE)) oldsz
      | Some (t, i) =>
          let! e := rdw t i in
          do! (if present e then
                 let pa := PTE_ADDR e in
                 if pa =? 0 then fail (Panic "kfree") else
                 do! kfree (P2V pa) in
                 wrw t i 0
               else ret tt) in
          deallocuvm_loop fuel pgdir (u32 (a + PGSIZE)) oldsz
      end
  end.
Definition deallocuvm (pgdir oldsz newsz : Z) : M vm Z :=
  if oldsz <=? newsz then ret oldsz else
  let a := PGROUNDUP newsz in
  do! deallocuvm_loop (S (Z.to_nat ((oldsz - newsz) / PGSIZE + 1))) pgdir a oldsz in
  ret newsz.

(** The loop of freevm over the directory; [n] entries remain. *)
Fixpoint free_tables (n : nat) (pgdir i : Z) : M vm unit :=
  match n with
  | O => ret tt
  | S n =>
      let! pde := rdw pgdir i in
      do! (if present pde then kfree (P2V (PTE_ADDR pde)) else ret tt) in
      free_tables n pgdir (i + 1)
  end.
Definition freevm (pgdir : Z) : M vm unit :=
  if pgdir =? 0 then fail (Panic "freevm: no pgdir") else
  let! _ := deallocuvm pgdir KERNBASE 0 in
  do! free_tables (Z.to_nat NPDENTRIES) pgdir 0 in
  kfree pgdir.

(** ** The kernel's part *)

(** [virt], [phys_start], [phys_end] and [perm] of kmap. *)
Definition kmap : list (Z * Z * Z * Z) :=
  [(KERNBASE, 0, EXTMEM, PTE_W);
   (KERNLINK, V2P KERNLINK, V2P kdata, 0);
   (kdata, V2P kdata, PHYSTOP, PTE_W);
   (DEVSPACE, DEVSPACE, 0, PTE_W)].

Fixpoint map_kernel (pgdir : Z) (l : list (Z * Z * Z * Z)) : M vm Z :=
  match l with
  | [] => ret pgdir
  | (virt, phys_start, phys_end, perm) :: l =>
      let! r := mappages pgdir virt (u32 (phys_end - phys_start)) phys_start perm in
      if r <? 0 then do! freevm pgdir in ret 0 else map_kernel pgdir l
  end.
Definition setupkvm : M vm Z :=
  let! pgdir := kalloc in
  if pgdir =? 0 then ret 0 else
  do! memset_page pgdir 0 in
  if DEVSPACE <? P2V PHYSTOP then fail (Panic "PHYSTOP too high") else
  map_kernel pgdir kmap.

Definition switchkvm : M vm unit := modify (fun s => mk_vm (mem s) (free s) (kpgdir s) (V2P (kpgdir s))).
Definition kvmalloc : M vm unit :=
  let! p := setupkvm in
  do! modify (fun s => mk_vm (mem s) (free s) p (cr3 s)) in
  switchkvm.

(** ** User memory *)

Definition inituvm (pgdir : Z) (init : list Z) : M vm unit :=
  if PGSIZE <=? Z.of_nat (length init) then fail (Panic "inituvm: more than a page") else
  let! p := kalloc in
  do! memset_page p 0 in
  let! _ := mappages pgdir 0 PGSIZE (V2P p) (Z.lor PTE_W PTE_U) in
  memmove_page p 0 init.

(** [readi off n] reads from the file: the result and the bytes stored. *)
Fixpoint loaduvm_loop (fuel : nat) (readi : Z -> Z -> M vm (Z * list Z)) (pgdir addr offset i sz : Z) : M vm Z :=
  match fuel with
  | O => fail OutOfFuel
  | S fuel =>
      if negb (i <? sz) then ret 0 else
      let! pte := walkpgdir pgdir (u32 (addr + i)) false in
      match pte with
      | None => fail (Panic "loaduvm: address should exist")
      | Some (t, j) =>
          let! e := rdw t j in
          let pa := PTE_ADDR e in
          let n := if sz - i <? PGSIZE then sz - i else PGSIZE in
          let! '(r, l) := readi (u32 (offset + i)) n in
          do! memmove_page (P2V pa) 0 l in
          if negb (r =? n) then ret (-1) else loaduvm_loop fuel readi pgdir addr offset (i + PGSIZE) sz
      end
  end.
Definition loaduvm (readi : Z -> Z -> M vm (Z * list Z)) (pgdir addr offset sz : Z) : M vm Z :=
  if negb (addr mod PGSIZE =? 0) then fail (Panic "loaduvm: addr must be page aligned") else
  loaduvm_loop (S (Z.to_nat (sz / PGSIZE + 1))) readi pgdir addr offset 0 sz.

Fixpoint allocuvm_loop (fuel : nat) (pgdir a oldsz newsz : Z) : M vm Z :=
  match fuel with
  | O => fail OutOfFuel
  | S fuel =>
      if negb (a <? newsz) then ret newsz else
      let! p := kalloc in
      if p =? 0 then
        let! _ := deallocuvm pgdir newsz oldsz in
        ret 0
      else
        do! memset_page p 0 in
        let! r := mappages pgdir a PGSIZE (V2P p) (Z.lor PTE_W PTE_U) in
        if r <? 0 then
          let! _ := deallocuvm pgdir newsz oldsz in
          do! kfree p in
          ret 0
        else allocuvm_loop fuel pgdir (a + PGSIZE) oldsz newsz
  end.
Definition allocuvm (pgdir oldsz newsz : Z) : M vm Z :=
  if KERNBASE <=? newsz then ret 0
  else if newsz <? oldsz then ret oldsz
  else allocuvm_loop (S (Z.to_nat ((newsz - oldsz) / PGSIZE + 1))) pgdir (PGROUNDUP oldsz) oldsz newsz.

Definition clearpteu (pgdir uva : Z) : M vm unit :=
  let! pte := walkpgdir pgdir uva false in
  match pte with
  | None => fail (Panic "clearpteu")
  | Some (t, i) => let! e := rdw t i in wrw t i (Z.land e (u32 (Z.lnot PTE_U)))
  end.

Fixpoint copyuvm_loop (fuel : nat) (pgdir d i sz : Z) : M vm Z :=
  match fuel with
  | O => fail OutOfFuel
  | S fuel =>
      if negb (i <? sz) then ret d else
      let! pte := walkpgdir pgdir i false in
      match pte with
      | None => fail (Panic "copyuvm: pte should exist")
      | Some (t, j) =>
          let! e := rdw t j in
          if negb (present e) then fail (Panic "copyuvm: page not present") else
          let pa := PTE_ADDR e in
          let flags := PTE_FLAGS e in
          let! p := kalloc in
          if p =? 0 then do! freevm d in ret 0 else
          let! pg := rd_page (P2V pa) in
          do! memmove_page p 0 pg in
          let! r := mappages d i PGSIZE (V2P p) flags in
          if r <? 0 then do! kfree p in do! freevm d in ret 0
          else copyuvm_loop fuel pgdir d (i + PGSIZE) sz
      end
  end.
Definition copyuvm (pgdir sz : Z) : M vm Z :=
  let! d := setupkvm in
  if d =? 0 then ret 0 else copyuvm_loop (S (Z.to_nat (sz / PGSIZE + 1))) pgdir d 0 sz.

(** The entry is read whether there is a page table or not. *)
Definition uva2ka (pgdir uva : Z) : M vm Z :=
  let! pte := walkpgdir pgdir uva false in
  match pte with
  | None => fail NullDeref
  | Some (t, i) =>
      let! e := rdw t i in
      if Z.land e PTE_P =? 0 then ret 0
      else if Z.land e PTE_U =? 0 then ret 0
      else ret (P2V (PTE_ADDR e))
  end.

Fixpoint copyout_loop (fuel : nat) (pgdir va : Z) (buf : list Z) : M vm Z :=
  match fuel with
  | O => fail OutOfFuel
  | S fuel =>
      let len := Z.of_nat (length buf) in
      if negb (0 <? len) then ret 0 else
      let va0 := PGROUNDDOWN va in
      let! pa0 := uva2ka pgdir va0 in
      if pa0 =? 0 then ret (-1) else
      let n := PGSIZE - (va - va0) in
      let n := if len <? n then len else n in
      do! memmove_page pa0 (va - va0) (take (Z.to_nat n) buf) in
      copyout_loop fuel pgdir (u32 (va0 + PGSIZE)) (drop (Z.to_nat n) buf)
  end.
Definition copyout (pgdir va : Z) (buf : list Z) : M vm Z :=
  copyout_loop (S (S (length buf))) pgdir va buf.
End vm.
End Vm.
