(* ===== verification/VmSpace.v ===== *)
(** * VmSpace: address spaces in the memory of xv6

    What a page directory in memory means, as functions from page numbers to
    entries and frames, and how the stores of vm.c change them. *)
From stdpp Require Import base list gmap strings.
From Stdlib Require Import ZArith Lia.
From S2P Require Import Prelude Vm.
Import Vm.

Module VmSpace.

#[local] Arguments Z.mul : simpl never.
#[local] Arguments Z.add : simpl never.
#[local] Arguments Z.land : simpl never.
#[local] Arguments Z.lor : simpl never.
#[local] Arguments Z.modulo : simpl never.
#[local] Arguments Z.div : simpl never.

(** ** Addresses *)

Lemma land_high a : 0 <= a < 2 ^ 32 -> Z.land a (u32 (Z.lnot 4095)) = 4096 * (a / 4096).
Proof.
  intros Ha. change (u32 (Z.lnot 4095)) with (Z.shiftl (Z.ones 20) 12). replace (4096 * (a / 4096)) with (Z.shiftl (Z.shiftr a 12) 12).
  2: { rewrite Z.shiftl_mul_pow2, Z.shiftr_div_pow2 by lia. change (2 ^ 12) with 4096. lia. }
  apply Z.bits_inj'. intros n Hn. rewrite Z.land_spec. destruct (Z.ltb_spec n 12) as [Hlt|Hge].
  - rewrite !Z.shiftl_spec_low by done. by rewrite andb_false_r.
  - rewrite !Z.shiftl_spec, Z.shiftr_spec by lia. replace (n - 12 + 12) with n by lia. destruct (Z.ltb_spec n 32) as [Hlt'|Hge'].
    + rewrite Z.ones_spec_low by lia. by rewrite andb_true_r.
    + rewrite Z.ones_spec_high by lia. rewrite andb_false_r. symmetry. destruct (Z.eq_dec a 0) as [->|Hz]; [apply Z.testbit_0_l|].
      apply Z.bits_above_log2; [lia|]. assert (Z.log2 a < 32) by (apply Z.log2_lt_pow2; lia). lia.
Qed.
Lemma PTE_ADDR_eq e : 0 <= e < 2 ^ 32 -> PTE_ADDR e = 4096 * (e / 4096).
Proof. apply land_high. Qed.
Lemma PGROUNDDOWN_eq a : 0 <= a < 2 ^ 32 -> PGROUNDDOWN a = 4096 * (a / 4096).
Proof. apply land_high. Qed.
Lemma PTE_FLAGS_eq e : PTE_FLAGS e = e mod 4096.
Proof. unfold PTE_FLAGS. change 4095 with (Z.ones 12). by rewrite Z.land_ones. Qed.
Lemma PTX_eq va : PTX va = va / 4096 mod 1024.
Proof. unfold PTX. change 1023 with (Z.ones 10). rewrite Z.land_ones by done. by rewrite Z.shiftr_div_pow2. Qed.
Lemma PDX_eq va : 0 <= va < 2 ^ 32 -> PDX va = va / 4096 / 1024.
Proof.
  intros Hva. unfold PDX. change 1023 with (Z.ones 10). rewrite Z.land_ones, Z.shiftr_div_pow2 by done. rewrite Z.div_div by lia.
  change (2 ^ 22) with (4096 * 1024). apply Z.mod_small. split; [apply Z.div_pos; lia|apply Z.div_lt_upper_bound; lia].
Qed.

(** A frame number and flags in an entry. *)
Lemma lor_low k f : 0 <= f < 4096 -> Z.lor (4096 * k) f = 4096 * k + f.
Proof.
  intros Hf. rewrite <- Z.add_lor_land. replace (Z.land (4096 * k) f) with 0; [lia|]. symmetry. apply Z.bits_inj'. intros n Hn. rewrite Z.land_spec, Z.bits_0.
  replace (4096 * k) with (Z.shiftl k 12) by (rewrite Z.shiftl_mul_pow2 by lia; change (2 ^ 12) with 4096; lia).
  destruct (Z.ltb_spec n 12); [by rewrite Z.shiftl_spec_low|]. rewrite andb_comm. destruct (Z.eq_dec f 0) as [->|]; [by rewrite Z.testbit_0_l|].
  rewrite Z.bits_above_log2; [done|lia|]. assert (Z.log2 f < 12) by (apply Z.log2_lt_pow2; lia). lia.
Qed.
Lemma present_odd e : present e = Z.odd e.
Proof. unfold present, PTE_P. rewrite Z.land_comm, <- (Z.land_comm e). change 1 with (Z.ones 1). rewrite Z.land_ones by done. change (2 ^ 1) with 2. rewrite Zmod_odd. by destruct (Z.odd e). Qed.

(** The entry mappages stores. *)
Definition entry (k perm : Z) : Z := Z.lor (Z.lor (4096 * k) perm) PTE_P.
Lemma entry_facts k perm : 0 <= k < 2 ^ 20 -> 0 <= perm < 4096 ->
  let e := entry k perm in 0 <= e < 2 ^ 32 /\ present e = true /\ PTE_ADDR e = 4096 * k /\ PTE_FLAGS e = Z.lor perm 1.
Proof.
  intros Hk Hp e. assert (Ho : 0 <= Z.lor perm 1 < 4096).
  { split; [apply Z.lor_nonneg; lia|]. destruct (Z.eq_dec (Z.lor perm 1) 0) as [->|]; [lia|]. apply Z.log2_lt_cancel. change (Z.log2 4096) with 12. rewrite Z.log2_lor by lia.
    change (Z.log2 1) with 0. destruct (Z.eq_dec perm 0) as [->|]; [done|]. assert (Z.log2 perm < 12) by (apply Z.log2_lt_pow2; lia). lia. }
  assert (E : e = 4096 * k + Z.lor perm 1) by (unfold e, entry, PTE_P; rewrite <- Z.lor_assoc; by apply lor_low).
  assert (Hr : 0 <= e < 2 ^ 32) by lia. split; [done|]. split; [|split].
  - unfold e, entry, present, PTE_P. rewrite Z.land_lor_distr_l. change (Z.land 1 1) with 1. apply negb_true_iff, Z.eqb_neq. intros H.
    apply (f_equal (fun x => Z.testbit x 0)) in H. rewrite Z.lor_spec in H. change (Z.testbit 1 0) with true in H. by rewrite orb_true_r in H.
  - rewrite PTE_ADDR_eq by done. rewrite E. f_equal. rewrite Z.mul_comm, Z.div_add_l by lia. rewrite (Z.div_small (Z.lor perm 1)) by lia. lia.
  - rewrite PTE_FLAGS_eq, E, Z.add_comm, Z.mul_comm, Z.mod_add by lia. by apply Z.mod_small.
Qed.

(** ** Words of a page *)

Lemma length_put_page pg o l : (o + length l <= length pg)%nat -> length (put_bytes pg o l) = length pg.
Proof. intros. unfold put_bytes. rewrite !length_app, length_take, length_drop. lia. Qed.
Lemma put_bytes_at pg o l i : (o + length l <= length pg)%nat -> put_bytes pg o l !!! i = if decide (o <= i < o + length l)%nat then l !!! (i - o)%nat else pg !!! i.
Proof.
  intros Ho. unfold put_bytes. rewrite !list_lookup_total_alt. case_decide as Hi.
  - rewrite lookup_app_r by (rewrite length_take; lia). rewrite length_take, lookup_app_l by lia. by replace (i - o `min` length pg)%nat with (i - o)%nat by lia.
  - destruct (decide (i < o)%nat).
    + rewrite lookup_app_l by (rewrite length_take; lia). by rewrite lookup_take_lt.
    + rewrite lookup_app_r, length_take by (rewrite length_take; lia). rewrite lookup_app_r by lia. rewrite lookup_drop.
      by replace (o + length l + (i - o `min` length pg - length l))%nat with i by lia.
Qed.

Lemma length_putw pg i v : length pg = 4096%nat -> 0 <= i < 1024 -> length (putw pg i v) = 4096%nat.
Proof. intros Hl Hi. unfold putw. rewrite length_put_page; [done|]. simpl. lia. Qed.

Lemma getw_putw_eq pg i v : length pg = 4096%nat -> 0 <= i < 1024 -> 0 <= v < 2 ^ 32 -> getw (putw pg i v) i = v.
Proof.
  intros Hl Hi Hv. unfold getw, putw. set (o := Z.to_nat (4 * i)). assert (Ho : (o + 4 <= 4096)%nat) by (unfold o; lia).
  rewrite !put_bytes_at by (simpl; lia). rewrite !decide_True by (simpl; lia). rewrite Nat.sub_diag. replace (o + 1 - o)%nat with 1%nat by lia. replace (o + 2 - o)%nat with 2%nat by lia. replace (o + 3 - o)%nat with 3%nat by lia.
  change (le32 v !!! 0%nat) with (v mod 256). change (le32 v !!! 1%nat) with (v / 2 ^ 8 mod 256). change (le32 v !!! 2%nat) with (v / 2 ^ 16 mod 256). change (le32 v !!! 3%nat) with (v / 2 ^ 24 mod 256).
  assert (E3 : v / 2 ^ 24 mod 256 = v / 2 ^ 24) by (apply Z.mod_small; split; [apply Z.div_pos; lia|apply Z.div_lt_upper_bound; lia]). rewrite E3.
  pose proof (Z.div_mod v 256 ltac:(lia)). pose proof (Z.div_mod (v / 2 ^ 8) 256 ltac:(lia)). pose proof (Z.div_mod (v / 2 ^ 16) 256 ltac:(lia)).
  assert (v / 2 ^ 8 / 256 = v / 2 ^ 16) by (rewrite Z.div_div by lia; done). assert (v / 2 ^ 16 / 256 = v / 2 ^ 24) by (rewrite Z.div_div by lia; done).
  change (2 ^ 8) with 256 in *. lia.
Qed.
Lemma getw_putw_ne pg i j v : length pg = 4096%nat -> 0 <= i < 1024 -> 0 <= j < 1024 -> i <> j -> getw (putw pg i v) j = getw pg j.
Proof. intros Hl Hi Hj Hne. unfold getw, putw. rewrite !put_bytes_at by (simpl; lia). by rewrite !decide_False by (simpl; lia). Qed.
Lemma getw_zero i : 0 <= i < 1024 -> getw (page_of 0) i = 0.
Proof. intros Hi. unfold getw, page_of. rewrite !list_lookup_total_alt, !lookup_replicate_2 by (unfold PGSIZE; lia). done. Qed.

(** ** Views of memory *)

Section space.
Context (kend : Z) (Hkend : KERNBASE < kend).

(** A page the allocator may own. *)
Definition is_page (m : gmap Z (list Z)) (p : Z) : Prop :=
  p mod 4096 = 0 /\ kend <= p < KERNBASE + PHYSTOP /\ exists l, m !! p = Some l /\ length l = 4096%nat.

Definition pg (m : gmap Z (list Z)) (p : Z) : list Z := default [] (m !! p).
Definition pde (m : gmap Z (list Z)) (d i : Z) : Z := getw (pg m d) i.
Definition tab (m : gmap Z (list Z)) (d i : Z) : option Z := if present (pde m d i) then Some (P2V (PTE_ADDR (pde m d i))) else None.
Definition pte (m : gmap Z (list Z)) (d v : Z) : Z := match tab m d (v / 1024) with Some t => getw (pg m t) (v mod 1024) | None => 0 end.
Definition frame (m : gmap Z (list Z)) (d v : Z) : option Z := if present (pte m d v) then Some (P2V (PTE_ADDR (pte m d v))) else None.

(** The pages of the directory and its tables; and those with the user's frames. *)
Definition uses (m : gmap Z (list Z)) (d p : Z) : Prop := p = d \/ exists i, 0 <= i < 1024 /\ tab m d i = Some p.
Definition UPAGES : Z := 524288.
Definition owns (m : gmap Z (list Z)) (d p : Z) : Prop := uses m d p \/ exists v, 0 <= v < UPAGES /\ frame m d v = Some p.

Record dir_ok (m : gmap Z (list Z)) (d : Z) : Prop := {
  do_dir : is_page m d;
  do_tab i t : 0 <= i < 1024 -> tab m d i = Some t -> is_page m t /\ t <> d;
  do_inj i j t : 0 <= i < 1024 -> 0 <= j < 1024 -> tab m d i = Some t -> tab m d j = Some t -> i = j
}.

Record space (m : gmap Z (list Z)) (fr : list Z) (d : Z) : Prop := {
  sp_ok : dir_ok m d;
  sp_nodup : NoDup fr;
  sp_free p : p ∈ fr -> is_page m p;
  sp_uses p : uses m d p -> p ∉ fr;
  sp_frame v p : 0 <= v < UPAGES -> frame m d v = Some p -> is_page m p /\ p ∉ fr /\ ~ uses m d p;
  sp_inj v w p : 0 <= v < UPAGES -> 0 <= w < UPAGES -> frame m d v = Some p -> frame m d w = Some p -> v = w
}.

Lemma is_page_addr m p : is_page m p -> exists k, V2P p = 4096 * k /\ P2V (4096 * k) = p /\ 0 < k < 2 ^ 20 /\ p <> 0 /\ V2P p < PHYSTOP.
Proof.
  intros (Hm & Hr & _). unfold V2P, P2V, KERNBASE, PHYSTOP in *. rewrite u32_small by (unfold UINT_MAX; lia). pose proof (Z.div_mod p 4096 ltac:(lia)).
  exists ((p - 2147483648) / 4096). assert (E : 4096 * ((p - 2147483648) / 4096) = p - 2147483648).
  { replace (p - 2147483648) with ((p / 4096 - 524288) * 4096) by lia. rewrite Z.div_mul by lia. lia. }
  split; [done|]. rewrite E. split; [rewrite u32_small by (unfold UINT_MAX; lia); lia|]. split; [|lia].
  assert (4096 * ((p - 2147483648) / 4096) < 4096 * 2 ^ 20) by lia. lia.
Qed.

(** Another page written with a page. *)
Lemma is_page_insert m p q l : length l = 4096%nat -> is_page m p -> is_page (<[q := l]> m) p.
Proof.
  intros Hl (H1 & H2 & l0 & Hl0 & Hlen). split; [done|]. split; [done|]. destruct (decide (q = p)) as [->|]; [exists l; by rewrite lookup_insert_eq|exists l0; by rewrite lookup_insert_ne].
Qed.

Lemma pg_insert_eq m p l : pg (<[p := l]> m) p = l.
Proof. unfold pg. by rewrite lookup_insert_eq. Qed.
Lemma pg_insert_ne m p q l : p <> q -> pg (<[p := l]> m) q = pg m q.
Proof. intros. unfold pg. by rewrite lookup_insert_ne. Qed.
Lemma pg_length m p : is_page m p -> length (pg m p) = 4096%nat.
Proof. intros (_ & _ & l & Hl & Hlen). unfold pg. by rewrite Hl. Qed.

(** The views depend on the pages of the directory only. *)
Lemma tab_ext m m' d i : m' !! d = m !! d -> tab m' d i = tab m d i.
Proof. intros H. unfold tab, pde, pg. by rewrite H. Qed.
Lemma pte_ext m m' d v : 0 <= v < 2 ^ 20 -> (forall p, uses m d p -> m' !! p = m !! p) -> pte m' d v = pte m d v.
Proof.
  intros Hv H. unfold pte. rewrite (tab_ext m m') by (apply H; by left). destruct (tab m d (v / 1024)) as [t|] eqn:E; [|done]. unfold pg. rewrite H; [done|].
  right. exists (v / 1024). split; [|done]. split; [apply Z.div_pos; lia|apply Z.div_lt_upper_bound; lia].
Qed.
Lemma frame_ext m m' d v : 0 <= v < 2 ^ 20 -> (forall p, uses m d p -> m' !! p = m !! p) -> frame m' d v = frame m d v.
Proof. intros Hv H. unfold frame. by rewrite (pte_ext m m'). Qed.
Lemma uses_ext m m' d p : m' !! d = m !! d -> uses m' d p <-> uses m d p.
Proof. intros H. unfold uses. setoid_rewrite (tab_ext m m' d); done. Qed.

(** ** A store into a table *)

Section set_entry.
Context (m : gmap Z (list Z)) (d i t j e : Z).
Hypothesis (Hd : dir_ok m d) (Hi : 0 <= i < 1024) (Ht : tab m d i = Some t) (Hj : 0 <= j < 1024) (He : 0 <= e < 2 ^ 32).
Notation m' := (<[t := putw (pg m t) j e]> m).

Lemma set_page p : is_page m p -> is_page m' p.
Proof. apply is_page_insert, length_putw; [|done]. apply pg_length. by apply (do_tab _ _ Hd i t). Qed.
Lemma set_tab k : tab m' d k = tab m d k.
Proof. apply tab_ext, lookup_insert_ne. by apply (do_tab _ _ Hd i t). Qed.
Lemma set_uses p : uses m' d p <-> uses m d p.
Proof. apply uses_ext, lookup_insert_ne. by apply (do_tab _ _ Hd i t). Qed.
Lemma set_dir_ok : dir_ok m' d.
Proof.
  split; [apply set_page, Hd| |].
  - intros k u Hk. rewrite set_tab. intros Hu. split; [apply set_page|]; by apply (do_tab _ _ Hd k u).
  - intros k k' u Hk Hk'. rewrite !set_tab. by apply (do_inj _ _ Hd).
Qed.
Lemma set_pte v : 0 <= v < 2 ^ 20 -> pte m' d v = if decide (v = 1024 * i + j) then e else pte m d v.
Proof.
  intros Hv. unfold pte. rewrite set_tab. pose proof (Z.div_mod v 1024 ltac:(lia)). pose proof (Z.mod_pos_bound v 1024 ltac:(lia)).
  assert (Hq : 0 <= v / 1024 < 1024) by (split; [apply Z.div_pos; lia|apply Z.div_lt_upper_bound; lia]).
  assert (Hlen : length (pg m t) = 4096%nat) by (apply pg_length; by apply (do_tab _ _ Hd i t)). case_decide as Ev.
  - assert (v / 1024 = i) as -> by lia. assert (v mod 1024 = j) as -> by lia. rewrite Ht, pg_insert_eq. by apply getw_putw_eq.
  - destruct (tab m d (v / 1024)) as [u|] eqn:Eu; [|done]. destruct (decide (u = t)) as [->|Hne]; [|by rewrite pg_insert_ne].
    rewrite pg_insert_eq. assert (v / 1024 = i) by (by eapply (do_inj _ _ Hd)). rewrite getw_putw_ne; [done|done|done|lia|lia].
Qed.
End set_entry.

(** ** A new table *)

Section new_table.
Context (m : gmap Z (list Z)) (d i t : Z).
Hypothesis (Hd : dir_ok m d) (Hi : 0 <= i < 1024) (Hn : tab m d i = None) (Ht : is_page m t) (Hu : ~ uses m d t).
Definition table_entry : Z := Z.lor (Z.lor (Z.lor (V2P t) PTE_P) PTE_W) PTE_U.
Notation m1 := (<[t := page_of 0]> m).
Notation m' := (<[d := putw (pg m1 d) i table_entry]> m1).

Lemma length_page_of c : length (page_of c) = 4096%nat.
Proof. unfold page_of. by rewrite length_replicate. Qed.
Lemma new_ne : t <> d.
Proof. intros ->. apply Hu. by left. Qed.
Lemma table_entry_facts : 0 <= table_entry < 2 ^ 32 /\ present table_entry = true /\ P2V (PTE_ADDR table_entry) = t.
Proof.
  destruct (is_page_addr m t Ht) as (k & E & Ep & Hk & _). assert (Ee : table_entry = entry k 6).
  { unfold table_entry, entry. rewrite E, <- !Z.lor_assoc. done. }
  destruct (entry_facts k 6 ltac:(lia) ltac:(lia)) as (H1 & H2 & H3 & _). rewrite Ee. split; [done|]. split; [done|]. by rewrite H3.
Qed.
Lemma new_page p : is_page m p -> is_page m' p.
Proof.
  intros Hp. assert (H1 : is_page m1 p) by (apply is_page_insert; [apply length_page_of|done]). apply is_page_insert; [|done]. apply length_putw; [|done].
  rewrite pg_insert_ne by apply new_ne. apply pg_length, Hd.
Qed.
Lemma new_tab k : 0 <= k < 1024 -> tab m' d k = if decide (k = i) then Some t else tab m d k.
Proof.
  intros Hk. destruct table_entry_facts as (H1 & H2 & H3). assert (Hlen : length (pg m d) = 4096%nat) by (apply pg_length, Hd).
  unfold tab, pde. rewrite pg_insert_eq, pg_insert_ne by apply new_ne. case_decide as E.
  - subst k. rewrite getw_putw_eq by done. by rewrite H2, H3.
  - rewrite getw_putw_ne by (done || lia). done.
Qed.
Lemma new_uses p : uses m' d p <-> uses m d p \/ p = t.
Proof.
  unfold uses. split.
  - intros [->|(k & Hk & E)]; [by left; left|]. rewrite new_tab in E by done. case_decide; [right; congruence|]. left. right. by exists k.
  - intros [[->|(k & Hk & E)]| ->]; [by left| |].
    + right. exists k. split; [done|]. rewrite new_tab by done. case_decide; [congruence|done].
    + right. exists i. split; [done|]. rewrite new_tab by done. by rewrite decide_True.
Qed.
Lemma new_pte v : 0 <= v < 2 ^ 20 -> pte m' d v = pte m d v.
Proof.
  intros Hv. assert (Hq : 0 <= v / 1024 < 1024) by (split; [apply Z.div_pos; lia|apply Z.div_lt_upper_bound; lia]).
  unfold pte. rewrite new_tab by done. case_decide as E.
  - rewrite E, Hn. rewrite pg_insert_ne by (intros H; symmetry in H; revert H; apply new_ne). rewrite pg_insert_eq. apply getw_zero. apply Z.mod_pos_bound. lia.
  - destruct (tab m d (v / 1024)) as [u|] eqn:Eu; [|done]. assert (Hud : uses m d u) by (right; by exists (v / 1024)).
    rewrite !pg_insert_ne; [done|intros ->; by apply Hu|]. intros <-. by destruct (do_tab _ _ Hd _ _ Hq Eu) as [_ []].
Qed.
Lemma new_frame v : 0 <= v < 2 ^ 20 -> frame m' d v = frame m d v.
Proof. intros Hv. unfold frame. by rewrite new_pte. Qed.
Lemma new_dir_ok : dir_ok m' d.
Proof.
  split; [apply new_page, Hd| |].
  - intros k u Hk. rewrite new_tab by done. case_decide; [intros [= <-]; split; [by apply new_page|apply new_ne]|].
    intros E. destruct (do_tab _ _ Hd _ _ Hk E). split; [by apply new_page|done].
  - assert (Hno : forall k, 0 <= k < 1024 -> tab m d k = Some t -> False) by (intros k Hk E; apply Hu; right; by exists k).
    intros k k' u Hk Hk'. rewrite !new_tab by done. repeat case_decide; [congruence|intros [= <-] E; destruct (Hno _ Hk' E)|intros E [= <-]; destruct (Hno _ Hk E)|by apply (do_inj _ _ Hd)].
Qed.
End new_table.

(** ** A directory and what was taken for it *)

(** The pages of [fr0] are those still free, the ones in hand ([h]) and those of
    the address space; all others are as in [m0]. *)
Record child (m0 : gmap Z (list Z)) (fr0 h : list Z) (s : vm) (d : Z) : Prop := {
  ch_space : space (mem s) (free s) d;
  ch_hand p : p ∈ h -> is_page (mem s) p /\ p ∉ free s /\ ~ owns (mem s) d p;
  ch_bal p : p ∈ fr0 <-> p ∈ free s \/ p ∈ h \/ owns (mem s) d p;
  ch_rest p : p ∉ fr0 -> mem s !! p = m0 !! p
}.

Lemma UPAGES_lt v : 0 <= v < UPAGES -> 0 <= v < 2 ^ 20.
Proof. unfold UPAGES. lia. Qed.

Lemma rd_page_run p s : is_page (mem s) p -> rd_page p s = Ok (pg (mem s) p, s).
Proof. intros (_ & _ & l & Hl & _). unfold rd_page, bind, get, pg. by rewrite Hl. Qed.
Lemma wr_page_run p l s : is_page (mem s) p -> wr_page p l s = Ok (tt, set_mem (<[p := l]> (mem s)) s).
Proof. intros Hp. unfold wr_page. by rewrite (bind_ok _ _ _ _ _ (rd_page_run p s Hp)). Qed.
Lemma rdw_run p i s : is_page (mem s) p -> rdw p i s = Ok (getw (pg (mem s) p) i, s).
Proof. intros Hp. unfold rdw. by rewrite (bind_ok _ _ _ _ _ (rd_page_run p s Hp)). Qed.
Lemma wrw_run p i v s : is_page (mem s) p -> wrw p i v s = Ok (tt, set_mem (<[p := putw (pg (mem s) p) i v]> (mem s)) s).
Proof. intros Hp. unfold wrw. rewrite (bind_ok _ _ _ _ _ (rd_page_run p s Hp)). by apply wr_page_run. Qed.
Lemma kfree_run p s : is_page (mem s) p -> kfree kend p s = Ok (tt, set_free (p :: free s) (set_mem (<[p := page_of 1]> (mem s)) s)).
Proof.
  intros Hp. destruct (is_page_addr _ _ Hp) as (k & _ & _ & _ & _ & Hv). pose proof Hp as (Hm & Hr & _). unfold kfree.
  change PGSIZE with 4096. rewrite Hm. rewrite (proj2 (Z.ltb_ge p kend)), (proj2 (Z.leb_gt PHYSTOP (V2P p))) by lia. cbn [negb orb Z.eqb].
  unfold memset_page. by rewrite (bind_ok _ _ _ _ _ (wr_page_run p (page_of 1) s Hp)).
Qed.

(** walkpgdir on an existing table. *)
Lemma walk_run d va s : dir_ok (mem s) d -> 0 <= va < 2 ^ 32 -> forall alloc, is_Some (tab (mem s) d (va / 4096 / 1024)) \/ alloc = false ->
  walkpgdir d va alloc s = Ok ((fun t => (t, va / 4096 mod 1024)) <$> tab (mem s) d (va / 4096 / 1024), s).
Proof.
  intros Hd Hva alloc Ha. unfold walkpgdir. rewrite (bind_ok _ _ _ _ _ (rdw_run d _ s (do_dir _ _ Hd))). rewrite PDX_eq by done. rewrite PTX_eq.
  unfold tab, pde in *. destruct (present _); [done|]. destruct Ha as [[? Ha]| ->]; [done|]. done.
Qed.

Section child.
Context (m0 : gmap Z (list Z)) (fr0 : list Z).
Notation child := (child m0 fr0).

Lemma kalloc_child s d : child [] s d ->
  (free s = [] /\ kalloc s = Ok (0, s)) \/ exists p s', kalloc s = Ok (p, s') /\ p <> 0 /\ mem s' = mem s /\ child [p] s' d /\ p ∈ free s /\ forall q, q ∈ free s' -> q ∈ free s.
Proof.
  intros [S H B R]. unfold kalloc. destruct (free s) as [|p l] eqn:Ef; [by left|]. right. exists p, (set_free l s). split; [done|].
  pose proof (sp_nodup _ _ _ S) as Hnd. apply NoDup_cons in Hnd as [Hnp Hnd]. assert (Hpage : is_page (mem s) p) by (apply (sp_free _ _ _ S); by left).
  destruct (is_page_addr _ _ Hpage) as (_ & _ & _ & _ & Hz & _). split; [done|]. split; [done|].
  split; [|split; [by left|intros q Hq; by right]]. split; simpl.
  - destruct S as [S1 S2 S3 S4 S5 S6]. split; try done.
    + intros q Hq. apply S3. by right.
    + intros q Hq Hin. apply (S4 q Hq). by right.
    + intros v q Hv Hf. destruct (S5 v q Hv Hf) as (? & Hq & ?). split; [done|]. split; [|done]. intros Hin. apply Hq. by right.
  - intros q Hq. apply list_elem_of_singleton in Hq as ->. split; [done|]. split; [done|]. intros [Hu|(v & Hv & Hf)]; [apply (sp_uses _ _ _ S p Hu); by left|].
    destruct (sp_frame _ _ _ S v p Hv Hf) as (_ & Hq & _). apply Hq. by left.
  - intros q. rewrite B, elem_of_cons, list_elem_of_singleton, elem_of_nil. tauto.
  - done.
Qed.

(** A page in hand is filled. *)
Lemma fill_child s d p l : child [p] s d -> length l = 4096%nat ->
  let s' := set_mem (<[p := l]> (mem s)) s in child [p] s' d /\ (forall v, 0 <= v < 2 ^ 20 -> pte (mem s') d v = pte (mem s) d v).
Proof.
  intros [S H B R] Hl s'. destruct (H p ltac:(by left)) as (Hp & Hpf & Hpo). assert (Hpu : ~ uses (mem s) d p) by (intros Hu; apply Hpo; by left).
  assert (Hsame : forall q, uses (mem s) d q -> mem s' !! q = mem s !! q) by (intros q Hq; simpl; apply lookup_insert_ne; congruence).
  assert (Hpte : forall v, 0 <= v < 2 ^ 20 -> pte (mem s') d v = pte (mem s) d v) by (intros v Hv; by apply pte_ext).
  assert (Hfr : forall v, 0 <= v < UPAGES -> frame (mem s') d v = frame (mem s) d v) by (intros v Hv; apply frame_ext; [by apply UPAGES_lt|done]).
  assert (Hus : forall q, uses (mem s') d q <-> uses (mem s) d q) by (intros q; apply uses_ext, Hsame; by left).
  assert (Hpg : forall q, is_page (mem s) q -> is_page (mem s') q) by (intros q; by apply is_page_insert).
  assert (Hown : forall q, owns (mem s') d q <-> owns (mem s) d q).
  { intros q. unfold owns. rewrite Hus. split; (intros [?|(v & Hv & E)]; [by left|right; exists v; split; [done|]; rewrite ?Hfr in *; done]). }
  split; [|done]. split.
  - destruct S as [S1 S2 S3 S4 S5 S6]. split; simpl free.
    + split; [apply Hpg, S1| |].
      * intros i t Hi. rewrite (tab_ext (mem s)) by (apply Hsame; by left). intros E. destruct (do_tab _ _ S1 i t Hi E). split; [by apply Hpg|done].
      * intros i j t Hi Hj. rewrite !(tab_ext (mem s) (mem s')) by (apply Hsame; by left). by apply (do_inj _ _ S1).
    + done.
    + intros q Hq. by apply Hpg, S3.
    + intros q Hq. apply S4. by apply Hus.
    + intros v q Hv. rewrite Hfr by done. intros E. destruct (S5 v q Hv E) as (? & ? & ?). split; [by apply Hpg|]. split; [done|]. by rewrite Hus.
    + intros v w q Hv Hw. rewrite !Hfr by done. by apply S6.
  - intros q Hq. destruct (H q Hq) as (? & ? & ?). split; [by apply Hpg|]. split; [done|]. by rewrite Hown.
  - intros q. rewrite B, Hown. done.
  - intros q Hq. simpl. rewrite lookup_insert_ne; [by apply R|]. intros ->. apply Hq, B. right. left. by left.
Qed.

(** walkpgdir with allocation. *)
Lemma walk_child h s d va : child h s d -> 0 <= va < 2 ^ 32 ->
  walkpgdir d va true s = Ok (None, s) /\ free s = [] \/
  exists t s', walkpgdir d va true s = Ok (Some (t, va / 4096 mod 1024), s') /\ child h s' d /\ tab (mem s') d (va / 4096 / 1024) = Some t /\
    (forall v, 0 <= v < 2 ^ 20 -> pte (mem s') d v = pte (mem s) d v) /\ (forall p, p ∉ free s -> ~ uses (mem s) d p -> mem s' !! p = mem s !! p) /\ (forall q, q ∈ free s' -> q ∈ free s).
Proof.
  intros C Hva. pose proof C as [S H B R]. pose proof (sp_ok _ _ _ S) as Hd. set (i := va / 4096 / 1024).
  assert (Hi : 0 <= i < 1024) by (unfold i; split; [apply Z.div_pos; [apply Z.div_pos|]; lia|apply Z.div_lt_upper_bound; [lia|apply Z.div_lt_upper_bound; lia]]).
  destruct (tab (mem s) d i) as [t|] eqn:Et.
  { right. exists t, s. split; [|done]. rewrite (walk_run d va s Hd Hva true) by (left; fold i; by rewrite Et). fold i. by rewrite Et. }
  unfold walkpgdir. rewrite (bind_ok _ _ _ _ _ (rdw_run d _ s (do_dir _ _ Hd))), PDX_eq, PTX_eq by done. fold i. pose proof Et as Et'. unfold tab, pde in Et'. destruct (present (getw (pg (mem s) d) i)); [done|].
  cbn [negb].
  destruct (free s) as [|t fr] eqn:Ef; [left; split; [by erewrite bind_ok by (unfold kalloc; rewrite Ef; reflexivity)|done]|]. right.
  assert (Ht : is_page (mem s) t) by (apply (sp_free _ _ _ S); by left). destruct (is_page_addr _ _ Ht) as (_ & _ & _ & _ & Hz & _).
  assert (Hu : ~ uses (mem s) d t) by (intros Hu; apply (sp_uses _ _ _ S t Hu); by left). erewrite bind_ok by (unfold kalloc; rewrite Ef; reflexivity).
  rewrite (proj2 (Z.eqb_neq _ _)) by done. unfold memset_page. rewrite (bind_ok _ _ _ _ _ (wr_page_run t (page_of 0) (set_free fr s) Ht)). set (s1 := set_mem _ _).
  assert (Hd1 : is_page (mem s1) d) by (apply is_page_insert; [apply length_page_of|apply Hd]).
  rewrite (bind_ok _ _ _ _ _ (wrw_run d i _ s1 Hd1)). eexists t, _. split; [done|]. cbn [mem set_mem s1 set_free free].
  change (Z.lor (Z.lor (Z.lor (V2P t) PTE_P) PTE_W) PTE_U) with (table_entry t).
  pose proof (sp_nodup _ _ _ S) as Hnd. apply NoDup_cons in Hnd as [Hnt Hnd].
  assert (Hfr : forall v, 0 <= v < UPAGES -> frame (<[d := putw (pg (<[t := page_of 0]> (mem s)) d) i (table_entry t)]> (<[t := page_of 0]> (mem s))) d v = frame (mem s) d v)
    by (intros v Hv; apply new_frame; try done; by apply UPAGES_lt).
  set (m' := <[d := _]> _) in *. assert (Hus : forall q, uses m' d q <-> uses (mem s) d q \/ q = t) by (intros q; by apply new_uses).
  assert (Hpg : forall q, is_page (mem s) q -> is_page m' q) by (intros q; by apply new_page).
  assert (Hown : forall q, owns m' d q <-> owns (mem s) d q \/ q = t).
  { intros q. unfold owns. rewrite Hus. split.
    - intros [[?| ->]|(v & Hv & E)]; [by left; left|by right|]. left. right. exists v. by rewrite Hfr in E.
    - intros [[?|(v & Hv & E)]| ->]; [by left; left| |by left; right]. right. exists v. by rewrite Hfr. }
  assert (Hht : forall q, q ∈ h -> q <> t) by (intros q Hq ->; destruct (H t Hq) as (_ & Hn & _); apply Hn; by left).
  split; [|split; [unfold m', i; by rewrite new_tab, decide_True|split; [intros v Hv; by apply new_pte|split; [|intros q Hq; by right]]]].
  - split; simpl.
    + destruct S as [S1 S2 S3 S4 S5 S6]. split.
      * by apply new_dir_ok.
      * done.
      * intros q Hq. apply Hpg, S3. by right.
      * intros q [Hq| ->]%Hus; [|done]. intros Hin. apply (S4 q Hq). by right.
      * intros v q Hv. rewrite Hfr by done. intros E. destruct (S5 v q Hv E) as (? & Hq & ?). split; [by apply Hpg|]. split; [intros Hin; apply Hq; by right|].
        rewrite Hus. intros [?| ->]; [done|]. apply Hq. by left.
      * intros v w q Hv Hw. rewrite !Hfr by done. by apply S6.
    + intros q Hq. destruct (H q Hq) as (? & Hn & ?). split; [by apply Hpg|]. split; [intros Hin; apply Hn; by right|]. rewrite Hown. intros [?| ->]; [done|]. by apply (Hht t).
    + intros q. rewrite B, Hown, elem_of_cons. tauto.
    + intros q Hq. assert (q <> t) by (intros ->; apply Hq, B; left; by left). assert (q <> d) by (intros ->; apply Hq, B; right; right; left; by left).
      unfold m'. rewrite !lookup_insert_ne by done. by apply R.
  - intros q Hq Hqu. unfold m'. rewrite !lookup_insert_ne; [done|intros ->; apply Hq; by left|intros ->; apply Hqu; by left].
Qed.

(** A kernel entry is stored. *)
Lemma set_kernel_child h s d i t j e : child h s d -> 0 <= i < 1024 -> tab (mem s) d i = Some t -> 0 <= j < 1024 -> 0 <= e < 2 ^ 32 -> UPAGES <= 1024 * i + j ->
  child h (set_mem (<[t := putw (pg (mem s) t) j e]> (mem s)) s) d.
Proof.
  intros [S H B R] Hi Ht Hj He Hk. pose proof (sp_ok _ _ _ S) as Hd. set (m' := <[t := _]> _).
  assert (Hfr : forall v, 0 <= v < UPAGES -> frame m' d v = frame (mem s) d v).
  { intros v Hv. unfold frame. unfold m'. rewrite (set_pte _ d i t j e Hd Hi Ht Hj He) by (by apply UPAGES_lt). rewrite decide_False by lia. done. }
  assert (Hus : forall q, uses m' d q <-> uses (mem s) d q) by (intros q; exact (set_uses (mem s) d i t j _ Hd Hi Ht q)).
  assert (Hpg : forall q, is_page (mem s) q -> is_page m' q) by (intros q; exact (set_page (mem s) d i t j _ Hd Hi Ht Hj q)).
  assert (Hown : forall q, owns m' d q <-> owns (mem s) d q).
  { intros q. unfold owns. rewrite Hus. split; (intros [?|(v & Hv & E)]; [by left|right; exists v; split; [done|]; rewrite ?Hfr in *; done]). }
  split; simpl.
  - destruct S as [S1 S2 S3 S4 S5 S6]. split; simpl.
    + exact (set_dir_ok (mem s) d i t j _ Hd Hi Ht Hj).
    + done.
    + intros q Hq. by apply Hpg, S3.
    + intros q Hq. apply S4. by apply Hus.
    + intros v q Hv. rewrite Hfr by done. intros E. destruct (S5 v q Hv E) as (? & ? & ?). split; [by apply Hpg|]. split; [done|]. by rewrite Hus.
    + intros v w q Hv Hw. rewrite !Hfr by done. by apply S6.
  - intros q Hq. destruct (H q Hq) as (? & ? & ?). split; [by apply Hpg|]. split; [done|]. by rewrite Hown.
  - intros q. rewrite B, Hown. done.
  - intros q Hq. unfold m'. rewrite lookup_insert_ne; [by apply R|]. intros ->. apply Hq, B. right. right. left. right. by exists i.
Qed.

(** The page in hand becomes a user frame. *)
Lemma set_user_child s d i t j p k perm : child [p] s d -> 0 <= i < 1024 -> tab (mem s) d i = Some t -> 0 <= j < 1024 -> 1024 * i + j < UPAGES ->
  present (pte (mem s) d (1024 * i + j)) = false -> V2P p = 4096 * k -> 0 <= perm < 4096 ->
  child [] (set_mem (<[t := putw (pg (mem s) t) j (entry k perm)]> (mem s)) s) d.
Proof.
  intros [S H B R] Hi Ht Hj Hv0 Hnp Hk Hperm. pose proof (sp_ok _ _ _ S) as Hd. set (m' := <[t := _]> _). set (v0 := 1024 * i + j) in *.
  destruct (H p ltac:(by left)) as (Hp & Hpf & Hpo). destruct (is_page_addr _ _ Hp) as (k' & Ek & Epv & Hk' & _). assert (k' = k) as -> by lia.
  destruct (entry_facts k perm ltac:(lia) Hperm) as (He & Hpr & Ha & _).
  assert (Hfr : forall v, 0 <= v < UPAGES -> frame m' d v = if decide (v = v0) then Some p else frame (mem s) d v).
  { intros v Hv. unfold frame, m'. rewrite (set_pte _ d i t j _ Hd Hi Ht Hj He) by (by apply UPAGES_lt). fold v0. case_decide; [|done]. by rewrite Hpr, Ha, Epv. }
  assert (Hf0 : frame (mem s) d v0 = None) by (unfold frame; by rewrite Hnp).
  assert (Hus : forall q, uses m' d q <-> uses (mem s) d q) by (intros q; exact (set_uses (mem s) d i t j _ Hd Hi Ht q)).
  assert (Hpg : forall q, is_page (mem s) q -> is_page m' q) by (intros q; exact (set_page (mem s) d i t j _ Hd Hi Ht Hj q)).
  assert (Hown : forall q, owns m' d q <-> owns (mem s) d q \/ q = p).
  { intros q. unfold owns. rewrite Hus. split.
    - intros [?|(v & Hv & E)]; [by left; left|]. rewrite Hfr in E by done. case_decide; [right; congruence|]. left. right. by exists v.
    - intros [[?|(v & Hv & E)]| ->]; [by left| |].
      + right. exists v. split; [done|]. rewrite Hfr by done. rewrite decide_False by congruence. done.
      + right. exists v0. split; [unfold v0; lia|]. rewrite Hfr by (unfold v0; lia). by rewrite decide_True. }
  assert (Hpn : forall v, 0 <= v < UPAGES -> frame (mem s) d v <> Some p) by (intros v Hv E; apply Hpo; right; by exists v).
  split; simpl.
  - destruct S as [S1 S2 S3 S4 S5 S6]. split; simpl.
    + exact (set_dir_ok (mem s) d i t j _ Hd Hi Ht Hj).
    + done.
    + intros q Hq. by apply Hpg, S3.
    + intros q Hq. apply S4. by apply Hus.
    + intros v q Hv. rewrite Hfr, Hus by done. case_decide; [intros [= <-]; split; [by apply Hpg|]; split; [done|]; intros Hu; apply Hpo; by left|].
      intros E. destruct (S5 v q Hv E) as (? & ? & ?). split; [by apply Hpg|done].
    + intros v w q Hv Hw. rewrite !Hfr by done. repeat case_decide; [congruence|intros [= <-] E; destruct (Hpn w Hw E)|intros E [= <-]; destruct (Hpn v Hv E)|by apply S6].
  - intros q Hq. by apply not_elem_of_nil in Hq.
  - intros q. rewrite B, Hown, list_elem_of_singleton, elem_of_nil. tauto.
  - intros q Hq. unfold m'. rewrite lookup_insert_ne; [by apply R|]. intros ->. apply Hq, B. right. right. left. right. by exists i.
Qed.

Lemma vpn_bounds v : 0 <= v < 2 ^ 20 -> 0 <= 4096 * v < 2 ^ 32 /\ 4096 * v / 4096 = v /\ 0 <= v / 1024 < 1024 /\ 0 <= v mod 1024 < 1024 /\ 1024 * (v / 1024) + v mod 1024 = v.
Proof.
  intros Hv. split; [lia|]. split; [rewrite Z.mul_comm; apply Z.div_mul; lia|]. split; [split; [apply Z.div_pos; lia|apply Z.div_lt_upper_bound; lia]|].
  split; [apply Z.mod_pos_bound; lia|]. pose proof (Z.div_mod v 1024 ltac:(lia)). lia.
Qed.

(** mappages of one user page. *)
Lemma map_user s d v p perm : child [p] s d -> 0 <= v < UPAGES -> present (pte (mem s) d v) = false -> 0 <= perm < 4096 ->
  mappages d (4096 * v) PGSIZE (V2P p) perm s = Ok (-1, s) /\ free s = [] \/
  exists s' k, mappages d (4096 * v) PGSIZE (V2P p) perm s = Ok (0, s') /\ child [] s' d /\ V2P p = 4096 * k /\ 0 < k < 2 ^ 20 /\
    (forall w, 0 <= w < 2 ^ 20 -> pte (mem s') d w = if decide (w = v) then entry k perm else pte (mem s) d w) /\
    (forall q, q ∉ free s -> ~ uses (mem s) d q -> mem s' !! q = mem s !! q) /\ (forall q, q ∈ free s' -> q ∈ free s).
Proof.
  intros C Hv Hnp Hperm. pose proof (UPAGES_lt v Hv) as Hv20. destruct (vpn_bounds v Hv20) as (Ha & Hd & Hi & Hj & Hij). unfold mappages.
  assert (E1 : PGROUNDDOWN (4096 * v) = 4096 * v) by (rewrite PGROUNDDOWN_eq by done; by rewrite Hd).
  assert (E2 : PGROUNDDOWN (u32 (4096 * v + PGSIZE - 1)) = 4096 * v).
  { change PGSIZE with 4096. rewrite u32_small by (unfold UINT_MAX; lia). rewrite PGROUNDDOWN_eq by lia. f_equal.
    replace (4096 * v + 4096 - 1) with (v * 4096 + 4095) by lia. rewrite Z.div_add_l by lia. change (4095 / 4096) with 0. lia. }
  rewrite E1, E2, Z.sub_diag. change (0 / PGSIZE) with 0. change (S (Z.to_nat 0)) with 1%nat. cbn [mappages_loop].
  destruct (walk_child [p] s d (4096 * v) C Ha) as [[E Ef]|(t & s1 & E & C1 & Ht & Hpte & Hrest & Hfree)]; [left; split; [by rewrite (bind_ok _ _ _ _ _ E)|done]|]. right.
  rewrite Hd in *. rewrite (bind_ok _ _ _ _ _ E). cbv beta iota. pose proof (sp_ok _ _ _ (ch_space _ _ _ _ _ C1)) as Hd1. destruct (do_tab _ _ Hd1 _ _ Hi Ht) as [Htp Htd].
  rewrite (bind_ok _ _ _ _ _ (rdw_run t (v mod 1024) s1 Htp)). assert (Eg : getw (pg (mem s1) t) (v mod 1024) = pte (mem s1) d v) by (unfold pte; by rewrite Ht).
  rewrite Eg, Hpte, Hnp by done. destruct (ch_hand _ _ _ _ _ C p ltac:(by left)) as (Hp & _). destruct (is_page_addr _ _ Hp) as (k & Ek & Epv & Hk & _).
  rewrite Ek. change (Z.lor (Z.lor (4096 * k) perm) PTE_P) with (entry k perm). rewrite (bind_ok _ _ _ _ _ (wrw_run t (v mod 1024) (entry k perm) s1 Htp)).
  rewrite Z.eqb_refl. destruct (entry_facts k perm ltac:(lia) Hperm) as (He & _). eexists _, k. split; [done|].
  split; [apply (set_user_child s1 d (v / 1024) t (v mod 1024) p k perm C1 Hi Ht Hj); [lia|rewrite Hij, Hpte by done; done|done|done]|].
  split; [done|]. split; [done|]. split; [|split; [|exact Hfree]]; cbn [mem set_mem free].
  - intros w Hw. rewrite (set_pte (mem s1) d (v / 1024) t (v mod 1024) (entry k perm) Hd1 Hi Ht Hj He w Hw), Hij, (Hpte w Hw). done.
  - intros q Hq Hqu. rewrite lookup_insert_ne; [by apply Hrest|]. intros <-. destruct (ch_space _ _ _ _ _ C1) as [_ _ _ S4 _ _].
    destruct (tab (mem s) d (v / 1024)) as [u|] eqn:Eu.
    + apply Hqu. right. exists (v / 1024). split; [done|]. rewrite (walk_run d (4096 * v) s (sp_ok _ _ _ (ch_space _ _ _ _ _ C)) Ha true) in E by (left; rewrite Hd, Eu; done). rewrite Hd, Eu in E. simpl in E. congruence.
    + apply Hq. assert (Hin : t ∈ fr0) by (apply (ch_bal _ _ _ _ _ C1); right; right; left; right; by exists (v / 1024)).
      apply (ch_bal _ _ _ _ _ C) in Hin as [?|[Hin|Ho]]; [done| |].
      * apply list_elem_of_singleton in Hin as ->. exfalso. destruct (ch_hand _ _ _ _ _ C1 p ltac:(by left)) as (_ & _ & Hno). apply Hno. left. right. by exists (v / 1024).
      * exfalso. destruct Ho as [Ho|(w & Hw & Ew)]; [done|]. assert (Ew1 : frame (mem s1) d w = Some t) by (unfold frame in *; rewrite Hpte by (by apply UPAGES_lt); done).
        destruct (sp_frame _ _ _ (ch_space _ _ _ _ _ C1) w t Hw Ew1) as (_ & _ & Hnu). apply Hnu. right. by exists (v / 1024).
Qed.

(** mappages of kernel pages [v] to [v + n]. *)
Lemma map_range n : forall h s d v k perm fuel, child h s d -> UPAGES <= v -> v + Z.of_nat n < 2 ^ 20 -> (n < fuel)%nat -> 0 <= k -> k + Z.of_nat n < 2 ^ 20 -> 0 <= perm < 4096 ->
  (forall x, v <= x <= v + Z.of_nat n -> present (pte (mem s) d x) = false) ->
  exists r s', mappages_loop fuel d (4096 * v) (4096 * (v + Z.of_nat n)) (4096 * k) perm s = Ok (r, s') /\ child h s' d /\
    (r = -1 /\ free s' = [] \/ r = 0 /\ forall x, v <= x <= v + Z.of_nat n -> pte (mem s') d x = entry (k + (x - v)) perm) /\
    (forall x, 0 <= x < 2 ^ 20 -> x < v \/ v + Z.of_nat n < x -> pte (mem s') d x = pte (mem s) d x).
Proof.
  induction n as [|n IH]; intros h s d v k perm [|fuel] C Hv Hvn Hf Hk Hkn Hperm Hnp; try lia; cbn [mappages_loop];
    (assert (Hv20 : 0 <= v < 2 ^ 20) by (unfold UPAGES in *; lia)); destruct (vpn_bounds v Hv20) as (Ha & Hd & Hi & Hj & Hij);
    (destruct (walk_child h s d (4096 * v) C Ha) as [[E Ef]|(t & s1 & E & C1 & Ht & Hpte & _)]; [exists (-1), s; rewrite (bind_ok _ _ _ _ _ E); split; [done|]; split; [done|]; split; [by left|done]|]);
    rewrite Hd in *; rewrite (bind_ok _ _ _ _ _ E); cbv beta iota; pose proof (sp_ok _ _ _ (ch_space _ _ _ _ _ C1)) as Hd1; destruct (do_tab _ _ Hd1 _ _ Hi Ht) as [Htp Htd];
    rewrite (bind_ok _ _ _ _ _ (rdw_run t (v mod 1024) s1 Htp)); assert (Eg : getw (pg (mem s1) t) (v mod 1024) = pte (mem s1) d v) by (unfold pte; by rewrite Ht);
    rewrite Eg, Hpte, Hnp by lia; change (Z.lor (Z.lor (4096 * k) perm) PTE_P) with (entry k perm); rewrite (bind_ok _ _ _ _ _ (wrw_run t (v mod 1024) (entry k perm) s1 Htp));
    destruct (entry_facts k perm ltac:(lia) Hperm) as (He & _);
    pose proof (set_kernel_child h s1 d (v / 1024) t (v mod 1024) (entry k perm) C1 Hi Ht Hj He ltac:(lia)) as C2;
    pose proof (fun w Hw => set_pte (mem s1) d (v / 1024) t (v mod 1024) (entry k perm) Hd1 Hi Ht Hj He w Hw) as Hset; rewrite Hij in Hset; set (s2 := set_mem _ s1) in *.
  - rewrite (proj2 (Z.eqb_eq _ _)) by lia. exists 0, s2. split; [done|]. split; [done|]. split.
    + right. split; [done|]. intros x Hx. assert (x = v) as -> by lia. cbn [mem set_mem s2]. rewrite Hset by done. rewrite decide_True by done. f_equal. lia.
    + intros x Hx Hne. cbn [mem set_mem s2]. rewrite Hset by done. rewrite decide_False by lia. by apply Hpte.
  - rewrite (proj2 (Z.eqb_neq _ _)) by lia. change PGSIZE with 4096. rewrite (u32_small (4096 * v + 4096)) by (unfold UINT_MAX; lia). rewrite (u32_small (4096 * k + 4096)) by (unfold UINT_MAX; lia).
    replace (4096 * v + 4096) with (4096 * (v + 1)) by lia. replace (4096 * k + 4096) with (4096 * (k + 1)) by lia. replace (v + Z.of_nat (S n)) with (v + 1 + Z.of_nat n) by lia.
    destruct (IH h s2 d (v + 1) (k + 1) perm fuel C2 ltac:(lia) ltac:(lia) ltac:(lia) ltac:(lia) ltac:(lia) Hperm) as (r & s3 & E3 & C3 & Hr & Hout).
    { intros x Hx. cbn [mem set_mem s2]. rewrite Hset by (unfold UPAGES in *; lia). rewrite decide_False by lia. rewrite Hpte by (unfold UPAGES in *; lia). apply Hnp. lia. }
    exists r, s3. split; [exact E3|]. split; [done|]. split.
    + destruct Hr as [?|[-> Hr]]; [by left|]. right. split; [done|]. intros x Hx. destruct (decide (x = v)) as [->|Hne].
      * rewrite Hout by lia. cbn [mem set_mem s2]. rewrite Hset by done. rewrite decide_True by done. f_equal. lia.
      * rewrite Hr by lia. f_equal. lia.
    + intros x Hx Hne. rewrite Hout by lia. cbn [mem set_mem s2]. rewrite Hset by done. rewrite decide_False by lia. by apply Hpte.
Qed.

(** A user page is unmapped and freed. *)
Lemma unmap_child s d i t j p : child [] s d -> 0 <= i < 1024 -> tab (mem s) d i = Some t -> 0 <= j < 1024 -> 1024 * i + j < UPAGES -> frame (mem s) d (1024 * i + j) = Some p ->
  let s1 := set_free (p :: free s) (set_mem (<[p := page_of 1]> (mem s)) s) in
  let s2 := set_mem (<[t := putw (pg (mem s1) t) j 0]> (mem s1)) s1 in
  is_page (mem s1) t /\ child [] s2 d /\ (forall w, 0 <= w < 2 ^ 20 -> pte (mem s2) d w = if decide (w = 1024 * i + j) then 0 else pte (mem s) d w).
Proof.
  intros [S H B R] Hi Ht Hj Hv Hfp s1 s2. set (v := 1024 * i + j) in *. pose proof (sp_ok _ _ _ S) as Hd.
  destruct (sp_frame _ _ _ S v p ltac:(unfold v; lia) Hfp) as (Hp & Hpf & Hpu). destruct (do_tab _ _ Hd _ _ Hi Ht) as [Htp Htd].
  assert (Hsame : forall q, uses (mem s) d q -> mem s1 !! q = mem s !! q) by (intros q Hq; simpl; apply lookup_insert_ne; congruence).
  assert (Ht1 : tab (mem s1) d i = Some t) by (rewrite (tab_ext (mem s)); [done|]; apply Hsame; by left).
  assert (Hpg1 : forall q, is_page (mem s) q -> is_page (mem s1) q) by (intros q; apply is_page_insert, length_page_of).
  assert (Hd1 : dir_ok (mem s1) d).
  { split; [apply Hpg1, Hd| |].
    - intros k u Hk. rewrite (tab_ext (mem s)) by (apply Hsame; by left). intros E. destruct (do_tab _ _ Hd _ _ Hk E). split; [by apply Hpg1|done].
    - intros k k' u Hk Hk'. rewrite !(tab_ext (mem s) (mem s1)) by (apply Hsame; by left). by apply (do_inj _ _ Hd). }
  assert (Hpte : forall w, 0 <= w < 2 ^ 20 -> pte (mem s2) d w = if decide (w = v) then 0 else pte (mem s) d w).
  { intros w Hw. unfold s2. cbn [mem set_mem]. rewrite (set_pte (mem s1) d i t j 0 Hd1 Hi Ht1 Hj ltac:(lia) w Hw). fold v. case_decide; [done|]. by apply pte_ext. }
  assert (Hfr : forall w, 0 <= w < UPAGES -> frame (mem s2) d w = if decide (w = v) then None else frame (mem s) d w).
  { intros w Hw. unfold frame. rewrite Hpte by (by apply UPAGES_lt). by case_decide. }
  assert (Hus : forall q, uses (mem s2) d q <-> uses (mem s) d q).
  { intros q. unfold s2. cbn [mem set_mem]. rewrite (set_uses (mem s1) d i t j 0 Hd1 Hi Ht1 q). apply uses_ext, Hsame. by left. }
  assert (Hpg : forall q, is_page (mem s) q -> is_page (mem s2) q) by (intros q Hq; apply (set_page (mem s1) d i t j 0 Hd1 Hi Ht1 Hj), Hpg1, Hq).
  assert (Hinj : forall w, 0 <= w < UPAGES -> frame (mem s) d w = Some p -> w = v) by (intros w Hw E; eapply (sp_inj _ _ _ S); [done| |exact E|exact Hfp]; unfold v; lia).
  assert (Hown : forall q, owns (mem s) d q <-> owns (mem s2) d q \/ q = p).
  { intros q. unfold owns. rewrite Hus. split.
    - intros [?|(w & Hw & E)]; [by left; left|]. destruct (decide (w = v)) as [->|Hne]; [right; congruence|]. left. right. exists w. split; [done|]. rewrite Hfr by done. by rewrite decide_False.
    - intros [[?|(w & Hw & E)]| ->]; [by left| |].
      + right. exists w. split; [done|]. rewrite Hfr in E by done. by case_decide.
      + right. exists v. split; [unfold v; lia|done]. }
  split; [by apply Hpg1|]. split; [|done]. split; cbn [free set_free set_mem s2 s1].
  - destruct S as [S1 S2 S3 S4 S5 S6]. split.
    + exact (set_dir_ok (mem s1) d i t j 0 Hd1 Hi Ht1 Hj).
    + by constructor.
    + intros q [->|Hq]%elem_of_cons; [by apply Hpg|]. by apply Hpg, S3.
    + intros q Hq [->|Hin]%elem_of_cons; [apply Hpu; by apply Hus|]. apply (S4 q); [by apply Hus|done].
    + intros w q Hw. rewrite Hfr by done. case_decide as Ew; [done|]. intros E. destruct (S5 w q Hw E) as (? & ? & ?). split; [by apply Hpg|]. rewrite Hus. split; [|done].
      intros [->|Hin]%elem_of_cons; [|done]. by apply Ew, Hinj.
    + intros w x q Hw Hx. rewrite !Hfr by done. repeat case_decide; try done. by apply S6.
  - intros q Hq. by apply not_elem_of_nil in Hq.
  - intros q. rewrite B, Hown, elem_of_cons, !elem_of_nil. tauto.
  - intros q Hq. unfold s2, s1. cbn [mem set_mem set_free]. rewrite !lookup_insert_ne; [by apply R| |].
    + intros ->. apply Hq, B. right. right. right. exists v. split; [unfold v; lia|done].
    + intros ->. apply Hq, B. right. right. left. right. by exists i.
Qed.

(** The loop of deallocuvm from page [v] to page [W]. *)
Lemma dealloc_child d W : forall n fuel v s oldsz, child [] s d -> 0 <= v -> W <= UPAGES -> (forall x, 4096 * x < oldsz <-> x < W) -> (Z.to_nat (W - v) <= n)%nat -> (n < fuel)%nat ->
  exists s', deallocuvm_loop kend fuel d (4096 * v) oldsz s = Ok (tt, s') /\ child [] s' d /\
    (forall x, 0 <= x < 2 ^ 20 -> pte (mem s') d x = if decide (v <= x < W /\ present (pte (mem s) d x) = true) then 0 else pte (mem s) d x).
Proof.
  induction n as [|n IH]; intros [|fuel] v s oldsz C Hv HW Hold Hn Hf; try lia; cbn [deallocuvm_loop].
  - assert (Hge : ~ 4096 * v < oldsz) by (rewrite Hold; lia). rewrite (proj2 (Z.ltb_ge _ _)) by lia. exists s. split; [done|]. split; [done|]. intros x Hx. rewrite decide_False by lia. done.
  - destruct (Z.ltb_spec (4096 * v) oldsz) as [Hlt|Hge]; cbn [negb].
    2: { assert (W <= v) by (destruct (Z.ltb_spec v W) as [Hvw|]; [apply Hold in Hvw|]; lia). exists s. split; [done|]. split; [done|]. intros x Hx. rewrite decide_False by lia. done. }
    apply Hold in Hlt. assert (Hv20 : 0 <= v < 2 ^ 20) by (unfold UPAGES in *; lia). destruct (vpn_bounds v Hv20) as (Ha & Hdv & Hi & Hj & Hij). pose proof (sp_ok _ _ _ (ch_space _ _ _ _ _ C)) as Hd.
    rewrite (bind_ok _ _ _ _ _ (walk_run d (4096 * v) s Hd Ha false ltac:(by right))). rewrite Hdv. destruct (tab (mem s) d (v / 1024)) as [t|] eqn:Et; cbn [fmap option_fmap option_map].
    + destruct (do_tab _ _ Hd _ _ Hi Et) as [Htp Htd]. rewrite (bind_ok _ _ _ _ _ (rdw_run t (v mod 1024) s Htp)). assert (Eg : getw (pg (mem s) t) (v mod 1024) = pte (mem s) d v) by (unfold pte; by rewrite Et).
      rewrite Eg. change PGSIZE with 4096. rewrite (u32_small (4096 * v + 4096)) by (unfold UINT_MAX, UPAGES in *; lia). replace (4096 * v + 4096) with (4096 * (v + 1)) by lia.
      destruct (present (pte (mem s) d v)) eqn:Ep.
      * set (p := P2V (PTE_ADDR (pte (mem s) d v))). assert (Hfp : frame (mem s) d (1024 * (v / 1024) + v mod 1024) = Some p) by (rewrite Hij; unfold frame; by rewrite Ep).
        destruct (sp_frame _ _ _ (ch_space _ _ _ _ _ C) v p ltac:(lia) ltac:(by rewrite <- Hij)) as (Hp & _).
        assert (Hpa : PTE_ADDR (pte (mem s) d v) <> 0) by (intros E0; destruct Hp as (_ & Hr & _); unfold p in Hr; rewrite E0 in Hr; change (P2V 0) with KERNBASE in Hr; lia).
        destruct (unmap_child s d (v / 1024) t (v mod 1024) p C Hi Et Hj ltac:(lia) Hfp) as (Ht1 & C2 & Hpte). rewrite Hij in Hpte. cbv zeta in Hpte, C2.
        set (s1 := set_free (p :: free s) (set_mem (<[p := page_of 1]> (mem s)) s)) in *. set (s2 := set_mem (<[t := putw (pg (mem s1) t) (v mod 1024) 0]> (mem s1)) s1) in *.
        rewrite (proj2 (Z.eqb_neq _ _)) by done. erewrite bind_ok; [|erewrite bind_ok; [|apply kfree_run; exact Hp]; apply wrw_run; exact Ht1]. fold s1. fold s2.
        destruct (IH fuel (v + 1) s2 oldsz C2 ltac:(lia) HW Hold ltac:(lia) ltac:(lia)) as (s' & E' & C' & Hpte'). exists s'. split; [exact E'|]. split; [done|].
        intros x Hx. rewrite Hpte', Hpte by done. destruct (decide (x = v)) as [->|Hne]; [rewrite decide_False by lia; by rewrite decide_True by (split; [lia|done])|].
        apply decide_ext. split; (intros [? ?]; split; [lia|done]).
      * erewrite bind_ok; [|reflexivity]. destruct (IH fuel (v + 1) s oldsz C ltac:(lia) HW Hold ltac:(lia) ltac:(lia)) as (s' & E' & C' & Hpte'). exists s'. split; [exact E'|]. split; [done|].
        intros x Hx. rewrite Hpte' by done. apply decide_ext. split; [intros [? ?]; split; [lia|done]|]. intros [? ?]. split; [|done]. destruct (decide (x = v)) as [->|]; [congruence|lia].
    + cbv zeta. rewrite PDX_eq by done. rewrite Hdv. unfold PGADDR. rewrite Z.shiftl_0_l, !Z.lor_0_r, Z.shiftl_mul_pow2 by lia. change (2 ^ 22) with (4096 * 1024). change PGSIZE with 4096.
      assert (Hup : v / 1024 + 1 <= 512) by (assert (v / 1024 < 512) by (apply Z.div_lt_upper_bound; unfold UPAGES in *; lia); lia).
      rewrite (u32_small ((v / 1024 + 1) * (4096 * 1024))) by (unfold UINT_MAX; lia). rewrite (u32_small ((v / 1024 + 1) * (4096 * 1024) - 4096)) by (unfold UINT_MAX; lia).
      rewrite (u32_small ((v / 1024 + 1) * (4096 * 1024) - 4096 + 4096)) by (unfold UINT_MAX; lia). set (v' := 1024 * (v / 1024 + 1)).
      replace ((v / 1024 + 1) * (4096 * 1024) - 4096 + 4096) with (4096 * v') by (unfold v'; lia). assert (Hvv : v < v') by (unfold v'; lia).
      destruct (IH fuel v' s oldsz C ltac:(lia) HW Hold ltac:(lia) ltac:(lia)) as (s' & E' & C' & Hpte'). exists s'. split; [exact E'|]. split; [done|].
      intros x Hx. rewrite Hpte' by done. apply decide_ext. split; [intros [? ?]; split; [lia|done]|]. intros [? Hpx]. split; [|done].
      destruct (Z.ltb_spec x v') as [Hxv|]; [|lia]. exfalso. assert (x / 1024 = v / 1024) as Ex.
      { symmetry. apply (Z.div_unique x 1024 (v / 1024) (x - 1024 * (v / 1024))); [left; unfold v' in Hxv; lia|lia]. }
      unfold pte in Hpx. rewrite Ex, Et in Hpx. done.
Qed.

(** The tables are freed: entries [i] on remain. *)
Lemma free_tables_child m d n : forall i s, n = Z.to_nat (1024 - i) -> 0 <= i <= 1024 -> dir_ok m d -> mem s !! d = m !! d -> NoDup (free s) -> d ∉ free s ->
  (forall k t, i <= k < 1024 -> tab m d k = Some t -> is_page (mem s) t /\ t ∉ free s) -> is_page (mem s) d ->
  exists s', free_tables kend n d i s = Ok (tt, s') /\ mem s' !! d = m !! d /\ NoDup (free s') /\
    (forall p, p ∈ free s' <-> p ∈ free s \/ exists k, i <= k < 1024 /\ tab m d k = Some p) /\
    (forall p, is_page (mem s) p -> is_page (mem s') p) /\ (forall p, p ∉ free s' -> mem s' !! p = mem s !! p).
Proof.
  induction n as [|n IH]; intros i s Hn Hi Hd Hmd Hnd Hdf Htab Hpd; cbn [free_tables].
  - exists s. split; [done|]. split; [done|]. split; [done|]. split; [|done]. intros p. split; [by left|]. intros [?|(k & ? & _)]; [done|lia].
  - rewrite (bind_ok _ _ _ _ _ (rdw_run d i s Hpd)). assert (Eg : getw (pg (mem s) d) i = pde m d i) by (unfold pde, pg; by rewrite Hmd). rewrite Eg.
    assert (Et : tab m d i = if present (pde m d i) then Some (P2V (PTE_ADDR (pde m d i))) else None) by done. destruct (present (pde m d i)).
    + set (t := P2V (PTE_ADDR (pde m d i))) in *. clearbody t. destruct (Htab i t ltac:(lia) Et) as [Ht Htf]. destruct (do_tab _ _ Hd i t ltac:(lia) Et) as [_ Htd].
      rewrite (bind_ok _ _ _ _ _ (kfree_run t s Ht)). set (s1 := set_free _ _). assert (Hpg : forall p, is_page (mem s) p -> is_page (mem s1) p) by (intros p; apply is_page_insert, length_page_of).
      destruct (IH (i + 1) s1) as (s' & E' & Hmd' & Hnd' & Hfree' & Hpg' & Hrest').
      * lia.
      * lia.
      * done.
      * unfold s1. cbn [mem set_mem set_free]. by rewrite lookup_insert_ne.
      * by constructor.
      * intros [E|?]%elem_of_cons; [by apply Htd|done].
      * intros k u Hk E. destruct (Htab k u ltac:(lia) E) as [? ?]. split; [by apply Hpg|]. intros [->|?]%elem_of_cons; [|done]. assert (k = i); [|lia]. by apply (do_inj _ _ Hd k i t ltac:(lia) ltac:(lia)).
      * by apply Hpg.
      * exists s'. split; [exact E'|]. split; [done|]. split; [done|]. split; [|split].
        -- intros p. rewrite Hfree'. unfold s1. cbn [free set_free]. rewrite elem_of_cons. split.
           ++ intros [[->|?]|(k & ? & ?)]; [right; exists i; split; [lia|done]|by left|right; exists k; split; [lia|done]].
           ++ intros [?|(k & ? & E)]; [by left; right|]. destruct (decide (k = i)) as [->|]; [left; left; congruence|]. right. exists k. split; [lia|done].
        -- intros p Hp. by apply Hpg', Hpg.
        -- intros p Hp. rewrite Hrest' by done. unfold s1. cbn [mem set_mem set_free]. rewrite lookup_insert_ne; [done|]. intros ->. apply Hp, Hfree'. left. by left.
    + erewrite bind_ok; [|reflexivity]. destruct (IH (i + 1) s) as (s' & E' & Hmd' & Hnd' & Hfree' & Hpg' & Hrest'); [lia|lia|done|done|done|done| |done|].
      { intros k u Hk E. apply (Htab k u); [lia|done]. }
      exists s'. split; [exact E'|]. split; [done|]. split; [done|]. split; [|done]. intros p. rewrite Hfree'. split; intros [?|(k & ? & E)]; [by left|right; exists k; split; [lia|done]|by left|].
      right. exists k. split; [|done]. destruct (decide (k = i)) as [->|]; [congruence|lia].
Qed.

(** freevm gives everything back. *)
Lemma freevm_child s d : child [] s d -> exists s', freevm kend d s = Ok (tt, s') /\ NoDup (free s') /\ (forall p, p ∈ free s' <-> p ∈ fr0) /\
  (forall p, p ∈ fr0 -> is_page (mem s') p) /\ (forall p, p ∉ fr0 -> mem s' !! p = m0 !! p).
Proof.
  intros C. pose proof (sp_ok _ _ _ (ch_space _ _ _ _ _ C)) as Hd0. destruct (is_page_addr _ _ (do_dir _ _ Hd0)) as (_ & _ & _ & _ & Hz & _). unfold freevm. rewrite (proj2 (Z.eqb_neq _ _)) by done.
  destruct (dealloc_child d UPAGES (Z.to_nat UPAGES) (S (Z.to_nat ((KERNBASE - 0) / PGSIZE + 1))) 0 s KERNBASE C ltac:(lia) ltac:(lia)) as (s1 & E1 & C1 & Hpte1).
  { intros x. unfold KERNBASE, UPAGES. lia. }
  { lia. }
  { change ((KERNBASE - 0) / PGSIZE) with UPAGES. unfold UPAGES. lia. }
  unfold deallocuvm. change (KERNBASE <=? 0) with false. cbv iota. change (PGROUNDUP 0) with (4096 * 0). rewrite bind_assoc, (bind_ok _ _ _ _ _ E1). erewrite bind_ok; [|reflexivity].
  pose proof C1 as [S1 _ B1 R1]. pose proof (sp_ok _ _ _ S1) as Hd1.
  assert (Hnf : forall v p, 0 <= v < UPAGES -> frame (mem s1) d v <> Some p).
  { intros v p Hv. unfold frame. rewrite Hpte1 by (by apply UPAGES_lt). case_decide as E; [done|]. destruct (present (pte (mem s) d v)) eqn:Ep; [|done]. destruct E. split; [lia|done]. }
  assert (Hown : forall p, owns (mem s1) d p <-> uses (mem s1) d p) by (intros p; split; [intros [?|(v & Hv & E)]; [done|destruct (Hnf v p Hv E)]|by left]).
  destruct (free_tables_child (mem s1) d (Z.to_nat NPDENTRIES) 0 s1) as (s2 & E2 & Hmd & Hnd & Hfree & Hpg & Hrest).
  { done. }
  { lia. }
  { done. }
  { done. }
  { apply S1. }
  { apply (sp_uses _ _ _ S1). by left. }
  { intros k t Hk E. split; [by apply (do_tab _ _ Hd1 k t)|]. apply (sp_uses _ _ _ S1). right. by exists k. }
  { apply Hd1. }
  rewrite (bind_ok _ _ _ _ _ E2). assert (Hpd : is_page (mem s2) d) by (apply Hpg, Hd1). rewrite (kfree_run d s2 Hpd). eexists. split; [done|]. cbn [free set_free mem set_mem].
  assert (Hall : forall p, p ∈ d :: free s2 <-> p ∈ fr0).
  { intros p. rewrite elem_of_cons, Hfree, B1, Hown, elem_of_nil. unfold uses. split; [intros [->|[?|(k & Hk & E)]]|intros [?|[[]|[->|(k & Hk & E)]]]]; eauto 10. }
  assert (Hdf : d ∉ free s2).
  { rewrite Hfree. intros [?|(k & Hk & E)]; [apply (sp_uses _ _ _ S1 d); [by left|done]|]. by destruct (do_tab _ _ Hd1 k d Hk E) as [_ []]. }
  split; [by constructor|]. split; [done|]. split.
  - intros p Hp. apply is_page_insert; [apply length_page_of|]. apply Hpg. apply B1 in Hp as [?|[Hp|Hp]]; [by apply (sp_free _ _ _ S1)|by apply not_elem_of_nil in Hp|].
    apply Hown in Hp as [->|(k & Hk & E)]; [apply Hd1|by apply (do_tab _ _ Hd1 k p)].
  - intros p Hp. assert (Hpn : p ∉ d :: free s2) by (by rewrite Hall). apply not_elem_of_cons in Hpn as [? ?]. rewrite lookup_insert_ne by done. rewrite Hrest by done. by apply R1.
Qed.
End child.
End space.
End VmSpace.
