(* ===== verification/VmCopy.v ===== *)
(** * VmCopy: fork's copy of an address space

    setupkvm and copyuvm on any memory: what they map, what they copy, and that a
    copy that fails for want of memory gives back every page it took. *)
From stdpp Require Import base list gmap strings.
From Stdlib Require Import ZArith Lia.
From S2P Require Import Prelude Vm VmSpace.
Import Vm VmSpace.

Module VmCopy.

#[local] Arguments Z.mul : simpl never.
#[local] Arguments Z.add : simpl never.
#[local] Arguments Z.land : simpl never.
#[local] Arguments Z.lor : simpl never.
#[local] Arguments Z.modulo : simpl never.
#[local] Arguments Z.div : simpl never.

(** The entry of kernel page [v] in every directory. *)
Definition kernel_pte (kdata v : Z) : Z :=
  if v <? UPAGES + EXTMEM / 4096 then entry (v - UPAGES) PTE_W
  else if v <? kdata / 4096 then entry (v - UPAGES) 0
  else if v <? UPAGES + PHYSTOP / 4096 then entry (v - UPAGES) PTE_W
  else if v <? DEVSPACE / 4096 then 0
  else entry v PTE_W.

(** Page [v] of [d] is a fresh frame with the contents and flags of page [v] of [p]. *)
Definition copied (m m' : gmap Z (list Z)) (fr : list Z) (p d v : Z) : Prop :=
  exists f g, frame m p v = Some f /\ frame m' d v = Some g /\ g ∈ fr /\ pg m' g = pg m f /\ PTE_FLAGS (pte m' d v) = PTE_FLAGS (pte m p v).

Lemma length_omap {A B} (f : A -> option B) l : (length (omap f l) <= length l)%nat.
Proof. induction l as [|x l IH]; csimpl; [done|]. destruct (f x); simpl; lia. Qed.

Section copy.
Context (kend kdata : Z) (Hkend : KERNBASE < kend) (Hdata : kdata mod 4096 = 0) (Hlink : KERNLINK < kdata < KERNBASE + PHYSTOP).

(** Everything is back. *)
Record restored (m0 : gmap Z (list Z)) (fr0 : list Z) (s : vm) : Prop := {
  rs_nodup : NoDup (free s);
  rs_free p : p ∈ free s <-> p ∈ fr0;
  rs_page p : p ∈ fr0 -> is_page kend (mem s) p;
  rs_rest p : p ∉ fr0 -> mem s !! p = m0 !! p
}.

Section from.
Context (m0 : gmap Z (list Z)) (fr0 : list Z) (Hnd : NoDup fr0) (Hpages : forall p, p ∈ fr0 -> is_page kend m0 p).
Notation child := (child kend m0 fr0).

(** How many pages an address space can hold. *)
Lemma child_count h s d X : child h s d -> free s = [] -> 0 <= X -> (forall v, X <= v < UPAGES -> pte (mem s) d v = 0) -> Z.of_nat (length fr0) <= 1025 + X + Z.of_nat (length h).
Proof.
  intros C Ef HX Hno. set (l := h ++ d :: omap (tab (mem s) d) (seqZ 0 1024) ++ omap (frame (mem s) d) (seqZ 0 X)).
  assert (Hsub : fr0 ⊆ l).
  { intros p Hp. unfold l. apply (ch_bal _ _ _ _ _ _ C) in Hp as [Hp|[Hp|Hp]]; rewrite elem_of_app.
    - rewrite Ef in Hp. by apply not_elem_of_nil in Hp.
    - by left.
    - right. rewrite elem_of_cons, elem_of_app. destruct Hp as [[->|(i & Hi & E)]|(v & Hv & E)]; [by left| |].
      + right. left. apply list_elem_of_omap. exists i. split; [apply elem_of_seqZ; lia|done].
      + right. right. apply list_elem_of_omap. exists v. split; [|done]. apply elem_of_seqZ. destruct (Z.ltb_spec v X); [lia|]. unfold frame in E. by rewrite Hno in E by lia. }
  assert (Hle : (length fr0 <= length l)%nat) by exact (submseteq_length _ _ (NoDup_submseteq _ _ Hnd Hsub)).
  unfold l in Hle. rewrite length_app in Hle. cbn [length] in Hle. rewrite length_app in Hle.
  pose proof (length_omap (tab (mem s) d) (seqZ 0 1024)) as H1. pose proof (length_omap (frame (mem s) d) (seqZ 0 X)) as H2. rewrite length_seqZ in H1, H2. lia.
Qed.

Lemma child_restored s d : child [] s d -> exists s', freevm kend d s = Ok (tt, s') /\ restored m0 fr0 s'.
Proof. intros C. destruct (freevm_child kend Hkend m0 fr0 s d C) as (s' & E & H1 & H2 & H3 & H4). exists s'. split; [done|]. by constructor. Qed.

(** A new directory is empty. *)
Lemma new_child s : mem s = m0 -> free s = fr0 -> fr0 = [] /\ kalloc s = Ok (0, s) \/
  exists d s1, kalloc s = Ok (d, s1) /\ d <> 0 /\ is_page kend (mem s1) d /\
    let s2 := set_mem (<[d := page_of 0]> (mem s1)) s1 in child [] s2 d /\ forall v, 0 <= v < 2 ^ 20 -> pte (mem s2) d v = 0.
Proof.
  intros Em Ef. unfold kalloc. rewrite Ef. destruct fr0 as [|d l] eqn:E0; [by left|]. right. exists d, (set_free l s). split; [done|].
  assert (Hp : is_page kend m0 d) by (apply Hpages; by left). split; [by destruct (is_page_addr kend Hkend _ _ Hp) as (_ & _ & _ & _ & Hz & _)|].
  cbn [mem set_free]. rewrite Em. split; [done|]. cbn [mem set_mem free set_free]. apply NoDup_cons in Hnd as [Hdl Hl]. set (m' := <[d := page_of 0]> m0).
  assert (Htab : forall i, 0 <= i < 1024 -> tab m' d i = None) by (intros i Hi; unfold tab, pde, m'; by rewrite pg_insert_eq, getw_zero).
  assert (Hpte : forall v, 0 <= v < 2 ^ 20 -> pte m' d v = 0) by (intros v Hv; unfold pte; by rewrite Htab by (apply vpn_bounds; done)).
  assert (Hfr : forall v, 0 <= v < UPAGES -> frame m' d v = None) by (intros v Hv; unfold frame; by rewrite Hpte by (by apply UPAGES_lt)).
  assert (Hus : forall p, uses m' d p <-> p = d) by (intros p; split; [intros [->|(i & Hi & E)]; [done|by rewrite Htab in E]|by left]).
  assert (Hown : forall p, owns m' d p <-> p = d) by (intros p; unfold owns; rewrite Hus; split; [intros [?|(v & Hv & E)]; [done|by rewrite Hfr in E]|by left]).
  assert (Hpg : forall p, is_page kend m0 p -> is_page kend m' p) by (intros p; apply is_page_insert, length_page_of).
  split; [|done]. split.
  - split.
    + split; [by apply Hpg| |]; [intros i t Hi|intros i j t Hi _]; by rewrite Htab.
    + done.
    + intros p Hp'. apply Hpg, Hpages. by right.
    + intros p ->%Hus. done.
    + intros v p Hv. by rewrite Hfr.
    + intros v w p Hv _. by rewrite Hfr.
  - intros p Hp'. by apply not_elem_of_nil in Hp'.
  - intros p. rewrite Hown, elem_of_cons, elem_of_nil. cbn [free]. tauto.
  - intros p Hp'. cbn [mem]. apply lookup_insert_ne. intros ->. apply Hp'. by left.
Qed.

(** mappages over whole kernel pages. *)
Lemma map_pages h s d v n k perm size : child h s d -> size = 4096 * Z.of_nat (S n) -> UPAGES <= v -> v + Z.of_nat n < 2 ^ 20 -> 0 <= k -> k + Z.of_nat n < 2 ^ 20 -> 0 <= perm < 4096 ->
  (forall x, v <= x <= v + Z.of_nat n -> present (pte (mem s) d x) = false) ->
  exists r s', mappages d (4096 * v) size (4096 * k) perm s = Ok (r, s') /\ child h s' d /\
    (r = -1 /\ free s' = [] \/ r = 0 /\ forall x, v <= x <= v + Z.of_nat n -> pte (mem s') d x = entry (k + (x - v)) perm) /\
    (forall x, 0 <= x < 2 ^ 20 -> x < v \/ v + Z.of_nat n < x -> pte (mem s') d x = pte (mem s) d x).
Proof.
  intros C -> Hv Hvn Hk Hkn Hperm Hnp. assert (Hb : 0 <= 4096 * v /\ 4096 * v + 4096 * Z.of_nat (S n) <= 2 ^ 32) by (unfold UPAGES in *; lia).
  assert (E1 : PGROUNDDOWN (4096 * v) = 4096 * v) by (rewrite PGROUNDDOWN_eq by lia; f_equal; rewrite Z.mul_comm; apply Z.div_mul; lia).
  assert (E2 : PGROUNDDOWN (u32 (4096 * v + 4096 * Z.of_nat (S n) - 1)) = 4096 * (v + Z.of_nat n)).
  { rewrite u32_small by (unfold UINT_MAX; lia). rewrite PGROUNDDOWN_eq by lia. f_equal. replace (4096 * v + 4096 * Z.of_nat (S n) - 1) with ((v + Z.of_nat n) * 4096 + 4095) by lia.
    rewrite Z.div_add_l by lia. change (4095 / 4096) with 0. lia. }
  unfold mappages. rewrite E1, E2. apply (map_range kend Hkend m0 fr0 n); try done. change PGSIZE with 4096.
  replace (4096 * (v + Z.of_nat n) - 4096 * v) with (Z.of_nat n * 4096) by lia. rewrite Z.div_mul by lia. lia.
Qed.

(** ** The kernel's ranges *)

(** An entry of kmap is pages [v] to [w], at frames [k] on. *)
Definition fits (x y : Z * Z * Z * Z) : Prop :=
  let '(virt, phys_start, phys_end, pm) := x in
  let '(v, w, k, perm) := y in
  virt = 4096 * v /\ phys_start = 4096 * k /\ u32 (phys_end - phys_start) = 4096 * (w - v + 1) /\ pm = perm /\
  UPAGES <= v <= w /\ w < 2 ^ 20 /\ 0 <= k /\ k + (w - v) < 2 ^ 20 /\ 0 <= perm < 4096.
Fixpoint ascending (lo : Z) (l : list (Z * Z * Z * Z)) : Prop :=
  match l with
  | [] => True
  | (v, w, _, _) :: l => lo <= v /\ ascending (w + 1) l
  end.
Definition in_range (x : Z) (y : Z * Z * Z * Z) : Prop := let '(v, w, _, _) := y in v <= x <= w.
Definition range_pte (x : Z) (y : Z * Z * Z * Z) : Z := let '(v, _, k, perm) := y in entry (k + (x - v)) perm.

Lemma ascending_ge l x y : forall lo lr, Forall2 fits lr l -> ascending lo l -> y ∈ l -> in_range x y -> lo <= x.
Proof.
  induction l as [|[[[v w] k] perm] l IH]; intros lo lr HF Ha Hy Hin; [by apply not_elem_of_nil in Hy|]. apply Forall2_cons_inv_r in HF as (x' & lr' & Hf & HF & ->). destruct Ha as [Hlo Ha].
  apply elem_of_cons in Hy as [->|Hy]; [simpl in Hin; lia|]. pose proof (IH _ _ HF Ha Hy Hin). destruct x' as [[[? ?] ?] ?]. simpl in Hf. lia.
Qed.

Lemma map_kernel_child d lk : forall l s lo, Forall2 fits lk l -> ascending lo l -> child [] s d -> (forall x, lo <= x < 2 ^ 20 -> pte (mem s) d x = 0) -> (forall x, 0 <= x < UPAGES -> pte (mem s) d x = 0) ->
  exists r s', map_kernel kend d lk s = Ok (r, s') /\
    (r = 0 /\ restored m0 fr0 s' /\ Z.of_nat (length fr0) <= 1025 \/
     r = d /\ child [] s' d /\ (forall x y, y ∈ l -> in_range x y -> pte (mem s') d x = range_pte x y) /\
       (forall x, 0 <= x < 2 ^ 20 -> (forall y, y ∈ l -> ~ in_range x y) -> pte (mem s') d x = pte (mem s) d x)).
Proof.
  induction lk as [|[[[virt ps] pe] pm] lk IH]; intros l s lo HF Ha C Hz Hu.
  { apply Forall2_nil_inv_l in HF as ->. exists d, s. split; [done|]. right. split; [done|]. split; [done|]. split; [|done]. intros x y Hy. by apply not_elem_of_nil in Hy. }
  apply Forall2_cons_inv_l in HF as ([[[v w] k] perm] & l' & Hf & HF & ->). destruct Ha as [Hlo Ha]. destruct Hf as (-> & -> & Hsz & -> & Hv & Hw & Hk & Hkw & Hperm). cbn [map_kernel]. rewrite Hsz.
  assert (Hwn : v + Z.of_nat (Z.to_nat (w - v)) = w) by lia.
  destruct (map_pages [] s d v (Z.to_nat (w - v)) k perm (4096 * (w - v + 1)) C) as (r & s1 & E1 & C1 & Hr & Hout); rewrite ?Hwn; try lia.
  { intros x Hx. rewrite Hz by lia. done. }
  rewrite Hwn in Hr, Hout. rewrite (bind_ok _ _ _ _ _ E1). assert (Hu1 : forall x, 0 <= x < UPAGES -> pte (mem s1) d x = 0) by (intros x Hx; rewrite Hout by (unfold UPAGES in *; lia); by apply Hu).
  destruct Hr as [[-> Hfree]|[-> Hr]].
  - change (-1 <? 0) with true. cbv iota. destruct (child_restored s1 d C1) as (s2 & E2 & Hrs). exists 0, s2. rewrite (bind_ok _ _ _ _ _ E2). split; [done|]. left. split; [done|]. split; [done|].
    pose proof (child_count [] s1 d 0 C1 Hfree ltac:(lia) Hu1) as Hc. simpl length in Hc. lia.
  - change (0 <? 0) with false. cbv iota. destruct (IH l' s1 (w + 1) HF Ha C1) as (r & s2 & E2 & H2); [intros x Hx; rewrite Hout by (unfold UPAGES in *; lia); apply Hz; lia|done|].
    exists r, s2. split; [done|]. destruct H2 as [?|(-> & C2 & Hin2 & Hout2)]; [by left|]. right. split; [done|]. split; [done|]. split.
    + intros x y Hy Hx. apply elem_of_cons in Hy as [->|Hy]; [|by apply Hin2]. simpl in Hx. rewrite Hout2; [by apply Hr|unfold UPAGES in *; lia|].
      intros y Hy Hxy. pose proof (ascending_ge l' x y _ _ HF Ha Hy Hxy). lia.
    + intros x Hx Hno. rewrite Hout2; [|done|intros y Hy; apply Hno; by right]. apply Hout; [done|]. pose proof (Hno (v, w, k, perm) ltac:(by left)) as H. simpl in H. lia.
Qed.

Definition kranges : list (Z * Z * Z * Z) :=
  [(UPAGES, UPAGES + 255, 0, PTE_W); (UPAGES + 256, kdata / 4096 - 1, 256, 0);
   (kdata / 4096, UPAGES + 57343, kdata / 4096 - UPAGES, PTE_W); (1040384, 1048575, 1040384, PTE_W)].

Lemma kdata_facts : exists k, kdata = 4096 * k /\ kdata / 4096 = k /\ UPAGES + 256 < k < UPAGES + 57344.
Proof.
  exists (kdata / 4096). pose proof (Z.div_mod kdata 4096 ltac:(lia)) as H. split; [lia|]. split; [done|]. unfold KERNLINK, KERNBASE, EXTMEM, PHYSTOP, UPAGES in *. lia.
Qed.
Lemma kmap_fits : Forall2 fits (kmap kdata) kranges /\ ascending UPAGES kranges.
Proof.
  destruct kdata_facts as (k & E & Ek & Hk). unfold kmap, kranges. rewrite Ek, E. unfold UPAGES, KERNLINK, V2P, KERNBASE, EXTMEM, PHYSTOP, DEVSPACE, PTE_W in *. split.
  - rewrite !(u32_small (4096 * k - _)) by (unfold UINT_MAX; lia). change (u32 (2147483648 + 1048576 - 2147483648)) with 1048576.
    repeat first [apply Forall2_cons; split|by apply Forall2_nil]; unfold fits, UPAGES; repeat split; try lia; try done; rewrite ?u32_small by (unfold UINT_MAX; lia); lia.
  - simpl. lia.
Qed.

Lemma kernel_ranges m d : (forall x y, y ∈ kranges -> in_range x y -> pte m d x = range_pte x y) ->
  (forall x, 0 <= x < 2 ^ 20 -> (forall y, y ∈ kranges -> ~ in_range x y) -> pte m d x = 0) -> forall v, UPAGES <= v < 2 ^ 20 -> pte m d v = kernel_pte kdata v.
Proof.
  intros Hin Hout v Hv. destruct kdata_facts as (k & E & Ek & Hk). unfold kernel_pte. change (EXTMEM / 4096) with 256. change (PHYSTOP / 4096) with 57344. change (DEVSPACE / 4096) with 1040384. rewrite Ek.
  unfold kranges in *. rewrite Ek in *. 
  destruct (Z.ltb_spec v (UPAGES + 256)); [rewrite (Hin v (UPAGES, UPAGES + 255, 0, PTE_W)); [simpl; f_equal; lia|set_solver|simpl; lia]|].
  destruct (Z.ltb_spec v k); [rewrite (Hin v (UPAGES + 256, k - 1, 256, 0)); [simpl; f_equal; lia|set_solver|simpl; lia]|].
  destruct (Z.ltb_spec v (UPAGES + 57344)); [rewrite (Hin v (k, UPAGES + 57343, k - UPAGES, PTE_W)); [simpl; f_equal; lia|set_solver|simpl; lia]|].
  destruct (Z.ltb_spec v 1040384).
  - apply Hout; [unfold UPAGES in *; lia|]. intros y Hy. rewrite !elem_of_cons in Hy. destruct Hy as [->|[->|[->|[->|Hy]]]]; simpl; [lia..|by apply not_elem_of_nil in Hy].
  - rewrite (Hin v (1040384, 1048575, 1040384, PTE_W)); [simpl; f_equal; lia|set_solver|simpl; lia].
Qed.

Lemma setupkvm_child s : mem s = m0 -> free s = fr0 ->
  exists r s', setupkvm kend kdata s = Ok (r, s') /\
    (r = 0 /\ restored m0 fr0 s' /\ Z.of_nat (length fr0) <= 1025 \/
     r <> 0 /\ child [] s' r /\ (forall v, 0 <= v < UPAGES -> pte (mem s') r v = 0) /\ forall v, UPAGES <= v < 2 ^ 20 -> pte (mem s') r v = kernel_pte kdata v).
Proof.
  intros Em Ef. unfold setupkvm. destruct (new_child s Em Ef) as [[E0 E]|(d & s1 & E & Hdz & Hp & C & Hpte)].
  - rewrite (bind_ok _ _ _ _ _ E). exists 0, s. split; [done|]. left. split; [done|]. rewrite E0. split; [|simpl; lia]. rewrite E0 in *. split; rewrite ?Ef, ?Em; done.
  - rewrite (bind_ok _ _ _ _ _ E). rewrite (proj2 (Z.eqb_neq _ _)) by done. unfold memset_page. rewrite (bind_ok _ _ _ _ _ (wr_page_run kend d (page_of 0) s1 Hp)).
    change (DEVSPACE <? P2V PHYSTOP) with false. cbv iota. set (s2 := set_mem _ s1) in *. destruct kmap_fits as [HF Ha].
    destruct (map_kernel_child d (kmap kdata) kranges s2 UPAGES HF Ha C) as (r & s3 & E3 & H3); [intros x Hx; apply Hpte; unfold UPAGES in *; lia|intros x Hx; by apply Hpte, UPAGES_lt|].
    exists r, s3. split; [exact E3|]. destruct H3 as [?|(-> & C3 & Hin & Hout)]; [by left|]. right. split; [done|]. split; [done|]. split.
    + intros v Hv. rewrite Hout; [by apply Hpte, UPAGES_lt|by apply UPAGES_lt|]. intros y Hy Hxy. pose proof (ascending_ge kranges v y _ _ HF Ha Hy Hxy). lia.
    + apply kernel_ranges; [exact Hin|]. intros x Hx Hno. rewrite Hout by done. by apply Hpte.
Qed.

(** The page in hand is given back. *)
Lemma release_child s d p : child [p] s d -> exists s', kfree kend p s = Ok (tt, s') /\ child [] s' d /\ forall v, 0 <= v < 2 ^ 20 -> pte (mem s') d v = pte (mem s) d v.
Proof.
  intros C. destruct (ch_hand _ _ _ _ _ _ C p ltac:(by left)) as (Hp & _). rewrite (kfree_run kend Hkend p s Hp). eexists. split; [done|].
  destruct (fill_child kend m0 fr0 s d p (page_of 1) C (length_page_of 1)) as [C1 Hpte]. split; [|exact Hpte]. set (s1 := set_mem _ s) in *.
  destruct C1 as [S H B R]. destruct (H p ltac:(by left)) as (Hp1 & Hpf & Hpo). split.
  - destruct S as [S1 S2 S3 S4 S5 S6]. split; [done| | | | |done]; cbn [free set_free mem].
    + by constructor.
    + intros q [->|Hq]%elem_of_cons; [done|by apply S3].
    + intros q Hq [->|Hin]%elem_of_cons; [apply Hpo; by left|by apply (S4 q)].
    + intros v q Hv E. destruct (S5 v q Hv E) as (? & ? & ?). split; [done|]. split; [|done]. intros [->|?]%elem_of_cons; [|done]. apply Hpo. right. by exists v.
  - intros q Hq. by apply not_elem_of_nil in Hq.
  - intros q. cbn [free set_free mem]. rewrite B, list_elem_of_singleton, elem_of_cons, elem_of_nil. change (free s1) with (free s). change (mem (set_free (p :: free s) s1)) with (mem s1). tauto.
  - exact R.
Qed.
End from.

(** ** The address space that is copied *)

Lemma is_page_same m m' p : m' !! p = m !! p -> is_page kend m p -> is_page kend m' p.
Proof. intros E (H1 & H2 & H3). unfold is_page. by rewrite E. Qed.

(** An address space outside the pages that change. *)
Lemma space_keep m m' fr fr' d : space kend m fr d -> (forall p, p ∉ fr -> m' !! p = m !! p) -> NoDup fr' -> (forall p, p ∈ fr' -> p ∈ fr /\ is_page kend m' p) ->
  space kend m' fr' d /\ forall v, 0 <= v < 2 ^ 20 -> pte m' d v = pte m d v.
Proof.
  intros [S1 S2 S3 S4 S5 S6] Hsame Hnd Hfr. assert (Hu : forall p, uses m d p -> m' !! p = m !! p) by (intros p Hp; by apply Hsame, S4).
  assert (Hd : m' !! d = m !! d) by (apply Hu; by left). assert (Hus : forall p, uses m' d p <-> uses m d p) by (intros p; by apply uses_ext).
  assert (Hfm : forall v, 0 <= v < UPAGES -> frame m' d v = frame m d v) by (intros v Hv; apply frame_ext; [by apply UPAGES_lt|done]).
  split; [|intros v Hv; by apply pte_ext]. split.
  - split; [apply (is_page_same m); [done|apply S1]| |].
    + intros i t Hi. rewrite (tab_ext m m') by done. intros E. destruct (do_tab _ _ _ S1 i t Hi E). split; [|done]. apply (is_page_same m); [|done]. apply Hu. right. by exists i.
    + intros i j t Hi Hj. rewrite !(tab_ext m m') by done. by apply (do_inj _ _ _ S1).
  - done.
  - intros p Hp. by apply Hfr.
  - intros p Hp%Hus Hin. apply (S4 p Hp). by apply Hfr.
  - intros v p Hv. rewrite Hfm, Hus by done. intros E. destruct (S5 v p Hv E) as (Hp & Hn & ?). split; [apply (is_page_same m); [by apply Hsame|done]|]. split; [|done]. intros Hin. by apply Hn, Hfr.
  - intros v w p Hv Hw. rewrite !Hfm by done. by apply S6.
Qed.

Lemma odd_lor f : present f = true -> Z.lor f 1 = f.
Proof.
  unfold present, PTE_P. intros H. apply negb_true_iff, Z.eqb_neq in H. apply Z.bits_inj'. intros n Hn. rewrite Z.lor_spec. destruct (Z.eq_dec n 0) as [->|Hne].
  - destruct (Z.testbit f 0) eqn:E; [done|]. exfalso. apply H. apply Z.bits_inj'. intros k Hk. rewrite Z.land_spec, Z.bits_0. destruct (Z.eq_dec k 0) as [->|]; [by rewrite E|].
    rewrite (Z.bits_above_log2 1 k) by (change (Z.log2 1) with 0; lia). apply andb_false_r.
  - rewrite (Z.bits_above_log2 1 n) by (change (Z.log2 1) with 0; lia). apply orb_false_r.
Qed.
Lemma flags_present e : present e = true -> 0 <= PTE_FLAGS e < 4096 /\ Z.lor (PTE_FLAGS e) 1 = PTE_FLAGS e.
Proof.
  intros H. split; [rewrite PTE_FLAGS_eq; apply Z.mod_pos_bound; lia|]. apply odd_lor. unfold present, PTE_FLAGS, PTE_P in *. by rewrite <- Z.land_assoc.
Qed.

Lemma memmove_whole s p l : is_page kend (mem s) p -> length l = 4096%nat -> memmove_page p 0 l s = Ok (tt, set_mem (<[p := l]> (mem s)) s).
Proof.
  intros Hp Hl. unfold memmove_page. rewrite (bind_ok _ _ _ _ _ (rd_page_run kend p s Hp)). rewrite Hl. change (0 + Z.of_nat 4096 <=? PGSIZE) with true. cbv iota.
  rewrite (wr_page_run kend p _ s Hp). unfold put_bytes. change (Z.to_nat 0) with 0%nat. rewrite take_0, Nat.add_0_l, drop_ge by (rewrite (pg_length kend _ _ Hp); lia). by rewrite app_nil_r.
Qed.

Section loop.
Context (m0 : gmap Z (list Z)) (fr0 : list Z) (pgdir sz : Z).
Context (Hpar : space kend m0 fr0 pgdir) (Hsz : 0 <= sz <= KERNBASE) (Hpres : forall v, 0 <= v -> 4096 * v < sz -> present (pte m0 pgdir v) = true).
Notation child := (child kend m0 fr0).
Notation pages := ((sz + 4095) / 4096).

Lemma pages_spec v : 4096 * v < sz <-> v < pages.
Proof. pose proof (Z.div_mod (sz + 4095) 4096 ltac:(lia)). pose proof (Z.mod_pos_bound (sz + 4095) 4096 ltac:(lia)). lia. Qed.

(** What the loop reads of the page it copies. *)
Lemma parent_page h s d v : child h s d -> 0 <= v -> 4096 * v < sz -> exists t f,
  walkpgdir pgdir (4096 * v) false s = Ok (Some (t, v mod 1024), s) /\ is_page kend (mem s) t /\ getw (pg (mem s) t) (v mod 1024) = pte m0 pgdir v /\
  frame m0 pgdir v = Some f /\ f = P2V (PTE_ADDR (pte m0 pgdir v)) /\ f ∉ fr0 /\ is_page kend m0 f.
Proof.
  intros C Hv Hlt. pose proof (Hpres v Hv Hlt) as Hp. assert (Hvu : 0 <= v < UPAGES) by (unfold UPAGES, KERNBASE in *; lia). pose proof (UPAGES_lt v Hvu) as Hv20.
  destruct (vpn_bounds v Hv20) as (Ha & Hdv & Hi & _ & _).
  destruct (space_keep m0 (mem s) fr0 (free s) pgdir Hpar (ch_rest _ _ _ _ _ _ C)) as [S' Hpte].
  { apply (ch_space _ _ _ _ _ _ C). }
  { intros p Hin. split; [by apply (ch_bal _ _ _ _ _ _ C); left|by apply (sp_free _ _ _ _ (ch_space _ _ _ _ _ _ C))]. }
  assert (Hf : frame m0 pgdir v = Some (P2V (PTE_ADDR (pte m0 pgdir v)))) by (unfold frame; by rewrite Hp). destruct (sp_frame _ _ _ _ Hpar v _ Hvu Hf) as (Hfp & Hfn & _).
  pose proof (Hpte v Hv20) as Ev. unfold pte in Ev at 1. destruct (tab (mem s) pgdir (v / 1024)) as [t|] eqn:Et; [|by rewrite <- Ev in Hp].
  exists t, (P2V (PTE_ADDR (pte m0 pgdir v))). split; [|split; [by apply (do_tab _ _ _ (sp_ok _ _ _ _ S') (v / 1024) t)|done]].
  rewrite (walk_run kend pgdir (4096 * v) s (sp_ok _ _ _ _ S') Ha false) by (by right). by rewrite Hdv, Et.
Qed.

(** Pages below [v] are copied and those from [v] on are empty. *)
Record upto (v : Z) (s : vm) (d : Z) : Prop := {
  up_child : child [] s d;
  up_copied w : 0 <= w < v -> copied m0 (mem s) fr0 pgdir d w;
  up_empty w : v <= w < UPAGES -> pte (mem s) d w = 0;
  up_kernel w : UPAGES <= w < 2 ^ 20 -> pte (mem s) d w = kernel_pte kdata w
}.

(** A copy stays while its frame and its entry do. *)
Lemma copied_keep m m' d w : 0 <= w < UPAGES -> copied m0 m fr0 pgdir d w -> pte m' d w = pte m d w -> (forall g, frame m d w = Some g -> pg m' g = pg m g) -> copied m0 m' fr0 pgdir d w.
Proof.
  intros Hw (f & g & H1 & H2 & H3 & H4 & H5) Ep Hg. assert (Ef : frame m' d w = frame m d w) by (unfold frame; by rewrite Ep). exists f, g. rewrite Ef, Ep. rewrite (Hg g H2). done.
Qed.

(** One turn of the loop with memory left. *)
Lemma copy_step v s s1 s2 s3 d p k f : upto v s d -> 0 <= v < UPAGES -> frame m0 pgdir v = Some f -> present (pte m0 pgdir v) = true -> pg (mem s) f = pg m0 f -> f ∉ fr0 ->
  mem s1 = mem s -> child [p] s1 d -> s2 = set_mem (<[p := pg (mem s) f]> (mem s1)) s1 -> child [p] s2 d -> child [] s3 d -> V2P p = 4096 * k -> 0 < k < 2 ^ 20 ->
  (forall w, 0 <= w < 2 ^ 20 -> pte (mem s2) d w = pte (mem s) d w) ->
  (forall w, 0 <= w < 2 ^ 20 -> pte (mem s3) d w = if decide (w = v) then entry k (PTE_FLAGS (pte m0 pgdir v)) else pte (mem s2) d w) ->
  (forall q, q ∉ free s2 -> ~ uses (mem s2) d q -> mem s3 !! q = mem s2 !! q) -> upto (v + 1) s3 d.
Proof.
  intros [C Hcop Hemp Hker] Hv Hf Hpr Hpf Hfn Em C1 E2 C2 C3 Ek Hk Hpte2 Hpte3 Hsame. destruct (flags_present _ Hpr) as [Hfl Hlor].
  destruct (entry_facts k (PTE_FLAGS (pte m0 pgdir v)) ltac:(lia) Hfl) as (_ & Hep & Hea & Hef). rewrite Hlor in Hef.
  destruct (ch_hand _ _ _ _ _ _ C2 p ltac:(by left)) as (Hp & Hpfree & Hpo). destruct (is_page_addr kend Hkend _ _ Hp) as (k' & Ek' & Epv & _). assert (k' = k) as -> by lia.
  split; [done| | |].
  - intros w Hw. destruct (decide (w = v)) as [->|Hne].
    + exists f, p. split; [done|]. assert (Ew : pte (mem s3) d v = entry k (PTE_FLAGS (pte m0 pgdir v))) by (rewrite Hpte3 by (by apply UPAGES_lt); by rewrite decide_True).
      split; [unfold frame; by rewrite Ew, Hep, Hea, Epv|]. split; [apply (ch_bal _ _ _ _ _ _ C2); right; left; by left|]. split; [|by rewrite Ew].
      unfold pg at 1. rewrite Hsame; [|done|intros Hu; apply Hpo; by left]. rewrite E2. cbn [mem set_mem]. rewrite lookup_insert_eq. done.
    + assert (Hwu : 0 <= w < UPAGES) by lia. pose proof (UPAGES_lt w Hwu) as Hw20. apply (copied_keep (mem s)); [done|apply Hcop; lia|rewrite Hpte3, Hpte2 by done; by rewrite decide_False|].
      intros g Hg. assert (Hg2 : frame (mem s2) d w = Some g) by (unfold frame in *; by rewrite Hpte2). destruct (sp_frame _ _ _ _ (ch_space _ _ _ _ _ _ C2) w g Hwu Hg2) as (_ & Hgf & Hgu).
      unfold pg. rewrite Hsame by done. rewrite E2. cbn [mem set_mem]. rewrite lookup_insert_ne; [by rewrite Em|]. intros ->. apply Hpo. right. by exists w.
  - intros w Hw. rewrite Hpte3, Hpte2, decide_False by (unfold UPAGES in *; lia). apply Hemp. lia.
  - intros w Hw. rewrite Hpte3, Hpte2, decide_False by (unfold UPAGES in *; lia). by apply Hker.
Qed.

Lemma copy_loop n : forall fuel v s d, (Z.to_nat (pages - v) <= n)%nat -> (n < fuel)%nat -> 0 <= v <= pages -> upto v s d ->
  exists r s', copyuvm_loop kend fuel pgdir d (4096 * v) sz s = Ok (r, s') /\
    (r = 0 /\ restored m0 fr0 s' /\ Z.of_nat (length fr0) <= 1025 + pages \/ r = d /\ upto pages s' d).
Proof.
  induction n as [|n IH]; intros [|fuel] v s d Hn Hf Hv U; try lia; cbn [copyuvm_loop].
  { assert (v = pages) as -> by lia. rewrite (proj2 (Z.ltb_ge _ _)) by (pose proof (pages_spec pages); lia). exists d, s. split; [done|]. by right. }
  destruct (Z.ltb_spec (4096 * v) sz) as [Hlt|Hge]; cbn [negb].
  2: { assert (v = pages) as -> by (pose proof (pages_spec v); lia). exists d, s. split; [done|]. by right. }
  assert (Hvu : 0 <= v < UPAGES) by (unfold UPAGES, KERNBASE in *; lia). assert (Hvp : v < pages) by (by apply pages_spec). pose proof (up_child _ _ _ U) as C.
  destruct (parent_page [] s d v C ltac:(lia) Hlt) as (t & f & Ew & Htp & Eg & Hff & Ef & Hfn & Hfp). rewrite (bind_ok _ _ _ _ _ Ew). cbv beta iota.
  rewrite (bind_ok _ _ _ _ _ (rdw_run kend t (v mod 1024) s Htp)), Eg, (Hpres v) by lia. cbn [negb]. cbv zeta. rewrite <- Ef. pose proof (sp_nodup _ _ _ _ Hpar) as Hnd.
  destruct (kalloc_child kend Hkend m0 fr0 s d C) as [[Hfree Ea]|(p & s1 & Ea & Hpz & Em & C1 & _ & _)]; rewrite (bind_ok _ _ _ _ _ Ea).
  { change (0 =? 0) with true. cbv iota. destruct (child_restored m0 fr0 s d C) as (s' & E' & Hr). rewrite (bind_ok _ _ _ _ _ E'). exists 0, s'. split; [done|]. left. split; [done|]. split; [done|].
    pose proof (child_count m0 fr0 Hnd [] s d v C Hfree ltac:(lia) (up_empty _ _ _ U)) as Hc. simpl length in Hc. lia. }
  rewrite (proj2 (Z.eqb_neq _ _)) by done. assert (Efm : mem s1 !! f = m0 !! f) by (by apply (ch_rest _ _ _ _ _ _ C1)). assert (Epg : pg (mem s) f = pg m0 f) by (unfold pg; by rewrite <- Em, Efm).
  rewrite (bind_ok _ _ _ _ _ (rd_page_run kend f s1 (is_page_same _ _ _ Efm Hfp))). rewrite Em, Epg. assert (Hlen : length (pg m0 f) = 4096%nat) by (by apply (pg_length kend)).
  destruct (ch_hand _ _ _ _ _ _ C1 p ltac:(by left)) as (Hp1 & _). rewrite (bind_ok _ _ _ _ _ (memmove_whole s1 p _ Hp1 Hlen)).
  destruct (fill_child kend m0 fr0 s1 d p (pg m0 f) C1 Hlen) as [C2 Hpte2]. cbv zeta in C2, Hpte2. set (s2 := set_mem _ s1) in *. rewrite Em in Hpte2.
  assert (He2 : forall w, v <= w < UPAGES -> pte (mem s2) d w = 0) by (intros w Hw; rewrite Hpte2 by (unfold UPAGES in *; lia); by apply (up_empty _ _ _ U)).
  destruct (flags_present _ (Hpres v ltac:(lia) Hlt)) as [Hfl _].
  destruct (map_user kend Hkend m0 fr0 s2 d v p (PTE_FLAGS (pte m0 pgdir v)) C2 Hvu) as [[E3 Hfree]|(s3 & k & E3 & C3 & Ek & Hk & Hpte3 & Hsame & _)];
    [by rewrite He2 by lia|done| |]; rewrite (bind_ok _ _ _ _ _ E3).
  - change (-1 <? 0) with true. cbv iota. destruct (release_child m0 fr0 s2 d p C2) as (s3 & Er & C3 & _). rewrite (bind_ok _ _ _ _ _ Er).
    destruct (child_restored m0 fr0 s3 d C3) as (s' & E' & Hr). rewrite (bind_ok _ _ _ _ _ E'). exists 0, s'. split; [done|]. left. split; [done|]. split; [done|].
    pose proof (child_count m0 fr0 Hnd [p] s2 d v C2 Hfree ltac:(lia) He2) as Hc. simpl length in Hc. lia.
  - change (0 <? 0) with false. cbv iota. change PGSIZE with 4096. replace (4096 * v + 4096) with (4096 * (v + 1)) by lia.
    apply IH; [lia|lia|lia|]. apply (copy_step v s s1 s2 s3 d p k f); try done; [apply Hpres; [lia|done]|]. unfold s2. by rewrite Epg, Em.
Qed.
End loop.

(** C13. fork's copy of memory.  On an address space whose pages below [sz] are
    present, copyuvm runs to its end and writes only pages that were free.  Either
    it returns null: then every page it took is free again, the address space is as
    it was, and fewer than [pages + 1026] pages were free to begin with (no failure
    while memory is enough); or it returns a new address space, made of pages that
    were free and are not any more, whose page [v] below [sz] is a frame of its own
    with the same bytes and the same flags, which has no other user page, and which
    maps the kernel. *)
Theorem copyuvm_copies s pgdir sz :
  space kend (mem s) (free s) pgdir -> 0 <= sz <= KERNBASE -> (forall v, 0 <= v -> 4096 * v < sz -> present (pte (mem s) pgdir v) = true) ->
  exists r s', copyuvm kend kdata pgdir sz s = Ok (r, s') /\ (forall p, p ∉ free s -> mem s' !! p = mem s !! p) /\ space kend (mem s') (free s') pgdir /\
    (r = 0 /\ free s' ≡ₚ free s /\ Z.of_nat (length (free s)) < (sz + 4095) / 4096 + 1026 \/
     r <> 0 /\ space kend (mem s') (free s') r /\ (forall p, p ∈ free s <-> p ∈ free s' \/ owns (mem s') r p) /\
     (forall v, 0 <= v < UPAGES -> if 4096 * v <? sz then copied (mem s) (mem s') (free s) pgdir r v else frame (mem s') r v = None) /\
     (forall v, UPAGES <= v < 2 ^ 20 -> pte (mem s') r v = kernel_pte kdata v)).
Proof.
  intros Hpar Hsz Hpres. pose proof (sp_nodup _ _ _ _ Hpar) as Hnd. unfold copyuvm.
  destruct (setupkvm_child (mem s) (free s) Hnd (sp_free _ _ _ _ Hpar) s eq_refl eq_refl) as (d & s1 & E1 & H1). rewrite (bind_ok _ _ _ _ _ E1).
  assert (Hpos : 0 <= (sz + 4095) / 4096) by (apply Z.div_pos; lia).
  assert (Hkeep : forall s', restored (mem s) (free s) s' -> space kend (mem s') (free s') pgdir /\ free s' ≡ₚ free s).
  { intros s' [R1 R2 R3 R4]. split; [|by apply NoDup_Permutation]. apply (space_keep (mem s) (mem s') (free s)); [done|done|done|]. intros p Hp%R2. split; [done|by apply R3]. }
  destruct H1 as [(-> & Hr & Hlen)|(Hdz & C & Hu & Hk)].
  { exists 0, s1. split; [done|]. split; [apply Hr|]. destruct (Hkeep s1 Hr) as [Hs Hperm]. split; [done|]. left. split; [done|]. split; [done|]. lia. }
  rewrite (proj2 (Z.eqb_neq _ _)) by done. change 0 with (4096 * 0) at 1.
  destruct (copy_loop (mem s) (free s) pgdir sz Hpar Hsz Hpres (Z.to_nat ((sz + 4095) / 4096)) (S (Z.to_nat (sz / PGSIZE + 1))) 0 s1 d) as (r & s2 & E2 & H2).
  { lia. }
  { change PGSIZE with 4096. assert ((sz + 4095) / 4096 <= (sz + 1 * 4096) / 4096) by (apply Z.div_le_mono; lia). rewrite Z.div_add in H by lia. lia. }
  { lia. }
  { split; [done|intros w Hw; lia|done|done]. }
  exists r, s2. split; [exact E2|]. destruct H2 as [(-> & Hr & Hlen)|(-> & [C2 Hcop Hemp Hker])].
  { split; [apply Hr|]. destruct (Hkeep s2 Hr) as [Hs Hperm]. split; [done|]. left. split; [done|]. split; [done|]. lia. }
  split; [apply C2|]. split.
  { apply (space_keep (mem s) (mem s2) (free s) (free s2)); [done|apply C2|apply C2|]. intros p Hp. split; [by apply (ch_bal _ _ _ _ _ _ C2); left|by apply (sp_free _ _ _ _ (ch_space _ _ _ _ _ _ C2))]. }
  right. split; [done|]. split; [apply C2|]. split; [intros p; rewrite (ch_bal _ _ _ _ _ _ C2 p), elem_of_nil; tauto|]. split; [|done].
  intros v Hv. pose proof (pages_spec sz v) as Hps. destruct (Z.ltb_spec (4096 * v) sz); [apply Hcop; lia|]. unfold frame. by rewrite Hemp by lia.
Qed.

(** ** copyout *)

(** Where the address has no page table, uva2ka reads through a null pointer
    instead of reporting the address as bad. *)
Theorem copyout_no_table s d va b buf : dir_ok kend (mem s) d -> 0 <= va < 2 ^ 32 -> tab (mem s) d (va / 4096 / 1024) = None -> copyout d va (b :: buf) s = Err NullDeref.
Proof.
  intros Hd Hva Ht. unfold copyout. cbn [copyout_loop]. rewrite (proj2 (Z.ltb_lt 0 _)) by (simpl; lia). cbn [negb].
  assert (Hq : 4096 * (va / 4096) / 4096 = va / 4096) by (rewrite Z.mul_comm; apply Z.div_mul; lia).
  assert (Hr : 0 <= 4096 * (va / 4096) < 2 ^ 32) by (pose proof (Z.div_mod va 4096 ltac:(lia)); pose proof (Z.mod_pos_bound va 4096 ltac:(lia)); pose proof (Z.div_pos va 4096 ltac:(lia) ltac:(lia)); lia).
  rewrite PGROUNDDOWN_eq by done. unfold uva2ka. rewrite bind_assoc, (bind_ok _ _ _ _ _ (walk_run kend d _ s Hd Hr false ltac:(by right))). by rewrite Hq, Ht.
Qed.
End copy.

(** ** A process of one page *)

(** A directory, a table and a frame, on any memory that has the pages. *)
Section one_page.
Context (kend : Z) (Hkend : KERNBASE < kend) (m0 : gmap Z (list Z)) (fr : list Z) (d t f k : Z).
Context (Hd : is_page kend m0 d) (Ht : is_page kend m0 t) (Hf : is_page kend m0 f) (Hfr : forall p, p ∈ fr -> is_page kend m0 p).
Context (Hnd : NoDup (d :: t :: f :: fr)) (Hz : pg m0 d = page_of 0) (Hk : V2P f = 4096 * k).
Definition one_m1 : gmap Z (list Z) := <[t := page_of 0]> m0.
Definition one_m2 : gmap Z (list Z) := <[d := putw (pg one_m1 d) 0 (table_entry t)]> one_m1.
Definition one_mem : gmap Z (list Z) := <[t := putw (pg one_m2 t) 0 (entry k 7)]> one_m2.

Lemma one_apart : d <> t /\ d <> f /\ t <> f /\ d ∉ fr /\ t ∉ fr /\ f ∉ fr /\ NoDup fr.
Proof. apply NoDup_cons in Hnd as [H1 H2]. apply NoDup_cons in H2 as [H2 H3]. apply NoDup_cons in H3 as [H3 H4]. rewrite !elem_of_cons in H1. rewrite elem_of_cons in H2. tauto. Qed.
Lemma one_tab0 i : 0 <= i < 1024 -> tab m0 d i = None.
Proof. intros Hi. unfold tab, pde. by rewrite Hz, getw_zero. Qed.
Lemma one_dir0 : dir_ok kend m0 d.
Proof. split; [done| |]; [intros i u Hi|intros i j u Hi _]; by rewrite one_tab0. Qed.
Lemma one_uses0 p : uses m0 d p <-> p = d.
Proof. split; [intros [->|(i & Hi & E)]; [done|by rewrite one_tab0 in E]|by left]. Qed.
Lemma one_fresh : ~ uses m0 d t.
Proof. rewrite one_uses0. pose proof one_apart. intuition congruence. Qed.
Lemma one_dir2 : dir_ok kend one_m2 d.
Proof. apply new_dir_ok; [done|apply one_dir0|lia|done|apply one_fresh]. Qed.
Lemma one_tab2 : tab one_m2 d 0 = Some t.
Proof. unfold one_m2, one_m1. rewrite (new_tab kend Hkend m0 d 0 t one_dir0 ltac:(lia) Ht one_fresh 0) by lia. by rewrite decide_True. Qed.
Lemma one_uses p : uses one_mem d p <-> p = d \/ p = t.
Proof.
  unfold one_mem. rewrite (set_uses kend one_m2 d 0 t 0 (entry k 7) one_dir2 ltac:(lia) one_tab2 p). unfold one_m2, one_m1.
  rewrite (new_uses kend Hkend m0 d 0 t one_dir0 ltac:(lia) (one_tab0 0 ltac:(lia)) Ht one_fresh p). by rewrite one_uses0.
Qed.
Lemma one_entry : 0 <= entry k 7 < 2 ^ 32 /\ present (entry k 7) = true /\ P2V (PTE_ADDR (entry k 7)) = f.
Proof.
  destruct (is_page_addr kend Hkend _ _ Hf) as (k' & E & Ep & Hk' & _). assert (k' = k) as -> by lia. destruct (entry_facts k 7 ltac:(lia) ltac:(lia)) as (H1 & H2 & H3 & _). by rewrite H3.
Qed.
Lemma one_pte v : 0 <= v < 2 ^ 20 -> pte one_mem d v = if decide (v = 0) then entry k 7 else 0.
Proof.
  intros Hv. destruct one_entry as (He & _). unfold one_mem. rewrite (set_pte kend one_m2 d 0 t 0 (entry k 7) one_dir2 ltac:(lia) one_tab2 ltac:(lia) He v Hv).
  change (1024 * 0 + 0) with 0. case_decide; [done|]. unfold one_m2, one_m1. rewrite (new_pte kend Hkend m0 d 0 t one_dir0 ltac:(lia) (one_tab0 0 ltac:(lia)) Ht one_fresh v Hv).
  unfold pte. by rewrite one_tab0 by (apply vpn_bounds; done).
Qed.
Lemma one_frame v p : 0 <= v < UPAGES -> frame one_mem d v = Some p -> v = 0 /\ p = f.
Proof. intros Hv. destruct one_entry as (_ & Hp & Ha). unfold frame. rewrite one_pte by (by apply UPAGES_lt). case_decide; [|done]. rewrite Hp, Ha. by intros [= <-]. Qed.
Lemma one_space : space kend one_mem fr d.
Proof.
  destruct one_apart as (A1 & A2 & A3 & A4 & A5 & A6 & A7).
  assert (Hpg : forall p, is_page kend m0 p -> is_page kend one_mem p).
  { intros p Hp. apply (set_page kend one_m2 d 0 t 0 _ one_dir2 ltac:(lia) one_tab2 ltac:(lia)). by apply (new_page kend m0 d 0 t one_dir0 ltac:(lia) Ht one_fresh). }
  split.
  - apply (set_dir_ok kend one_m2 d 0 t 0); [apply one_dir2|lia|apply one_tab2|lia].
  - done.
  - intros p Hp. by apply Hpg, Hfr.
  - intros p [->| ->]%one_uses; done.
  - intros v p Hv E. destruct (one_frame v p Hv E) as [_ ->]. split; [by apply Hpg|]. split; [done|]. rewrite one_uses. intuition congruence.
  - intros v w p Hv Hw E1 E2. destruct (one_frame v p Hv E1), (one_frame w p Hw E2). congruence.
Qed.
Lemma one_contents : pg one_mem f = pg m0 f.
Proof. destruct one_apart as (A1 & A2 & A3 & _). unfold one_mem. rewrite pg_insert_ne by done. unfold one_m2. rewrite pg_insert_ne by done. unfold one_m1. by rewrite pg_insert_ne. Qed.
End one_page.

Definition ex_kend : Z := 2151677952.
Definition ex_kdata : Z := 2148564992.
Definition ex_page (i : Z) : Z := ex_kend + 4096 * i.
Definition ex_free : list Z := ex_page <$> seqZ 3 1100.
Definition ex_m0 : gmap Z (list Z) := <[ex_page 0 := page_of 0]> (gset_to_gmap (page_of 65) (list_to_set (ex_page <$> seqZ 0 1103))).
Definition ex_vm : vm := mk_vm (one_mem ex_m0 (ex_page 0) (ex_page 1) 1026) ex_free 0 0.

Lemma ex_page_inj i j : ex_page i = ex_page j -> i = j.
Proof. unfold ex_page. lia. Qed.
Lemma ex_lookup i : 0 <= i < 1103 -> ex_m0 !! ex_page i = Some (page_of (if i =? 0 then 0 else 65)).
Proof.
  intros Hi. unfold ex_m0. destruct (Z.eqb_spec i 0) as [E|Hne]; [rewrite E; apply lookup_insert_eq|]. rewrite lookup_insert_ne by (intros E%ex_page_inj; lia).
  apply lookup_gset_to_gmap_Some. split; [|reflexivity]. apply elem_of_list_to_set, list_elem_of_fmap. exists i. split; [reflexivity|]. apply elem_of_seqZ. lia.
Qed.
Lemma ex_is_page i : 0 <= i < 1103 -> is_page ex_kend ex_m0 (ex_page i).
Proof.
  intros Hi. split; [|split]; [unfold ex_page, ex_kend; replace (2151677952 + 4096 * i) with ((525312 + i) * 4096) by lia; apply Z.mod_mul; lia| |].
  - unfold ex_page, ex_kend, KERNBASE, PHYSTOP. lia.
  - eexists. split; [exact (ex_lookup i Hi)|apply length_page_of].
Qed.
Lemma ex_kernbase : KERNBASE < ex_kend.
Proof. reflexivity. Qed.
Lemma ex_nodup : NoDup (ex_page 0 :: ex_page 1 :: ex_page 2 :: ex_free).
Proof. assert (H : NoDup (ex_page <$> seqZ 0 1103)) by (apply NoDup_fmap_2; [intros i j; apply ex_page_inj|apply NoDup_seqZ]). exact H. Qed.
Lemma ex_zero : pg ex_m0 (ex_page 0) = page_of 0.
Proof. unfold pg. rewrite (ex_lookup 0) by lia. reflexivity. Qed.
Lemma ex_frees p : p ∈ ex_free -> is_page ex_kend ex_m0 p.
Proof. intros (i & -> & Hi)%list_elem_of_fmap. apply elem_of_seqZ in Hi. apply ex_is_page. lia. Qed.

(** With memory enough, the one page of the process is copied. *)
Lemma copyuvm_copies_witness : exists r s' g, copyuvm ex_kend ex_kdata (ex_page 0) 4096 ex_vm = Ok (r, s') /\ r <> 0 /\ frame (mem s') r 0 = Some g /\ g ∈ ex_free /\ pg (mem s') g = page_of 65.
Proof.
  pose proof (ex_is_page 0 ltac:(lia)) as Hd. pose proof (ex_is_page 1 ltac:(lia)) as Ht. pose proof (ex_is_page 2 ltac:(lia)) as Hf.
  assert (Hk : V2P (ex_page 2) = 4096 * 1026) by reflexivity.
  pose proof (one_space ex_kend ex_kernbase ex_m0 ex_free _ _ _ 1026 Hd Ht Hf ex_frees ex_nodup ex_zero Hk) as Hs.
  pose proof (one_pte ex_kend ex_kernbase ex_m0 ex_free _ _ _ 1026 Hd Ht Hf ex_nodup ex_zero Hk) as Hpte.
  destruct (copyuvm_copies ex_kend ex_kdata ex_kernbase eq_refl (conj eq_refl eq_refl) ex_vm (ex_page 0) 4096 Hs ltac:(unfold KERNBASE; lia)) as (r & s' & E & _ & _ & H).
  { intros v Hv Hlt. assert (v = 0) as -> by lia. cbn [mem ex_vm]. rewrite Hpte by lia. reflexivity. }
  destruct H as [(_ & _ & Hlen)|(Hr & _ & _ & Hc & _)].
  - exfalso. cbn [free ex_vm] in Hlen. unfold ex_free in Hlen. rewrite length_fmap, length_seqZ in Hlen. change ((4096 + 4095) / 4096) with 1 in Hlen. lia.
  - destruct (Hc 0 ltac:(unfold UPAGES; lia)) as (f & g & Hff & Hg & Hin & Hpg & _). exists r, s', g. split; [exact E|]. split; [exact Hr|]. split; [exact Hg|]. split; [exact Hin|].
    cbn [mem ex_vm] in Hff, Hpg. apply (one_frame ex_kend ex_kernbase ex_m0 ex_free _ _ _ 1026 Hd Ht Hf ex_nodup ex_zero Hk) in Hff as [_ ->]; [|unfold UPAGES; lia].
    rewrite Hpg, (one_contents ex_m0 ex_free _ _ _ 1026 ex_nodup). unfold pg. rewrite (ex_lookup 2) by lia. reflexivity.
Defined.
End VmCopy.
